(* ===== verification/_CoqProject ===== *)
-Q . S2P
Prelude.v
GoStrings.v
Regexp.v
Commands.v
State.v
Convert.v
Sql.v
Locks.v
Inbox.v
Store.v
Operations.v
Applies.v
Control.v
Projection.v
Fencing.v
Tasks.v
Plane.v
Stopping.v
LocalControl.v
Sequential.v
Config.v
Policy.v
Validate.v
Checks.v
MergeFold.v
MergeGate.v
CheckRecords.v
GateInvariant.v
Dispatch.v
Promotion.v
Reviews.v
Drift.v
Fanout.v
Conflict.v
Handlers.v
ControlSafety.v
Grouped.v
Resume.v
Sends.v
Remote.v
RemoteParts.v
RemoteSafety.v
Admission.v
Idempotent.v
RevertWindow.v
Reviewed.v
