(* ===== verification/Prelude.v ===== *)
(** * SchemaBot: a verification library for its schema-change rollouts

    SchemaBot applies schema changes to databases from pull requests.  An _apply_
    is one requested change of a database in an environment; it has one
    _operation_ per deployment (and shard) it touches and _tasks_, the single DDL
    statements.  Many processes work on the same MySQL tables: webhook drivers
    take deliveries from a durable inbox, API handlers create applies and record
    control requests, and operator drivers claim applies and operations under
    leases, run an engine on them, settle the rows and project the state of the
    parent apply from its operations.  On the pull request itself SchemaBot keeps
    a merge gate: it folds what it knows about each database into one GitHub Check
    Run per environment, and before it runs a command it asks who may, whether the
    earlier environments were applied, and whether the other checks pass.  This
    library models that shared state, every statement the stores send for it, the
    operator's settlement code, the configuration and its policies, the gates, and
    the path from a plan to the operations that apply it.  It proves what keeps
    concurrent drivers from harming each other, and that the gates and the
    comparisons fail closed.

    ** The parts, their files and their sources

    - [Prelude]: results and early return, Go string functions on ASCII, SQL row
      counts, the tactics, hint databases and list lemmas the other files share.
    - [State] (pkg/state): the state vocabulary of applies, operations and tasks,
      its metadata table, the normalisation of engine statuses, the aggregation
      [DeriveApplyState] of task states and the policy-aware
      [DeriveRolloutApplyState] of operation states.
    - [Convert] (pkg/tern/state_converters.go, pkg/ddl/helpers.go,
      pkg/engine/engine.go): the conversions between engine, storage and wire
      states and between DDL actions and wire change types.
    - [Sql] (mysqlstore/retry.go, sql_helpers.go): programs of atomic statements
      [prog], one program in a changing environment [runE], any number of
      programs interleaved [pool_step], and the bounded lock retry.
    - [Locks] (mysqlstore/locks.go): the ownership lock of a database.
    - [Inbox] (mysqlstore/webhook_events.go, webhook/durable_dispatch.go): the
      durable webhook inbox and the settlement of a driven delivery.
    - [Store] (storage/types.go, storage/lease.go): the rows of applies,
      apply_operations, apply_control_requests and tasks with one setter per
      column an UPDATE assigns, the policies, and the lease a context carries.
    - [Operations] (mysqlstore/apply_operations.go): creation of operation rows,
      the lease guard of their writes, the ordered claims of a copy and of a
      cutover, and the stop of pending rows.
    - [Applies] (mysqlstore/applies.go, the insert of tasks.go): creation of an
      apply with its rows, the check of one active apply per target, leased
      updates, the compare-and-swap of the projected state, the three claims,
      expiry, reapplication and deletion.
    - [Control] (mysqlstore/control_requests.go, storage/release_latch.go): the
      durable control requests and the release latch of a paused rollout.
    - [Projection] (pkg/api/operator.go, pkg/tern/cutover_barrier.go): settling a
      driven operation, projecting the parent apply from its operations, mirroring
      a terminal parent, the stop settlements and the cutover-barrier predicates.
    - [GoStrings]: the parts of package strings, strconv, path and sort the code uses.
    - [Regexp]: the regular expressions of package regexp the parser uses: an
      executable leftmost-first matcher and the language it decides.
    - [Commands] (webhook/commands.go): the registry of comment commands and
      their parser.
    - [Dispatch] (webhook/issue_comment.go, merge_group.go, push.go,
      participant_nudge.go): what a delivered comment, merge group or push makes
      the handler do.
    - [Config], [Policy], [Validate] (pkg/api/config.go, aggregate_config.go,
      source_policy.go, actor_authorization.go): the server configuration with its
      lookups and routing, the source, aggregate and actor policies, and the
      validation a configuration passes at startup.
    - [Checks] (mysqlstore/checks.go): the table of check rows.
    - [MergeFold] (webhook/check_aggregate.go, leader_participant_gate.go,
      github/client.go): the fold of rows and participants into one conclusion,
      and its text.
    - [MergeGate] (webhook/check_publisher.go, participant_nudge.go): publication
      of the folded Check Runs, the failing and passing posts, the re-folds.
    - [CheckRecords] (webhook/check_records.go, apply_check_records.go,
      pull_request.go): the writes of plans, applies, reconciliation and cleanup.
    - [GateInvariant]: all writers of the check rows as one step relation, and
      the invariants they keep.
    - [Promotion] (webhook/check_prior_env.go, apply_gating.go): the gates before
      an apply command.
    - [Reviews] (webhook/actor_authorization.go, review_gate.go,
      github/reviews.go): who may run a command and who must approve.
    - [Drift] (tern/change_set_compare.go, local_plan_drift.go,
      api/plan_rollup.go, plan_deployment_diffs.go): comparison of what each
      deployment would plan with what was reviewed.
    - [Fanout] (api/plan_handlers.go, proto_helpers.go, mysqlstore/plans.go,
      tern/local_client.go, webhook/sharded_apply.go): the fan-out of a plan into
      operations and tasks, and the scope of a dispatch.
    - [Fencing]: the interface between the leased stores and the operator, the
      class [LeaseFenced], with the stores' writes as instances and the
      operator's settlement proved against it.
    - [Tasks] (mysqlstore/tasks.go): the task rows of drives and shards.
    - [Plane] (pkg/tern: local_apply.go, local_apply_failure.go,
      control_requests.go, local_client.go; pkg/engine/engine.go): the engine's
      interface, the client that drives it, its cancel handles, the control-request
      helpers and the failure transitions of a drive.
    - [Stopping] (tern/local_control.go): stop and cancel by the owner of an apply.
    - [LocalControl] (tern/local_control.go): the requests for stop, cutover,
      volume, revert and skip-revert and how the owner serves them.
    - [Sequential] (tern/local_apply_sequential.go, local_apply.go): the drive that
      runs the tasks of an apply one after the other.
    - [Conflict] (tern/local_apply.go): the check for other work on the database
      before an apply starts.
    - [Handlers] (api/control_handlers.go): the commands on an apply as the HTTP API
      and the comment commands take them, over any client of the data plane, and the
      choice of the apply a rollback goes back from.
    - [ControlSafety]: what holds of a command that the API answers.
    - [Grouped] (tern/local_apply_grouped.go, local_client.go, local_apply.go): the
      drive that hands all tasks to the engine at once, and its progress tick.
    - [Resume] (tern/local_control_resume.go, local_client.go): start requests, the
      new plan of a resume with its drift check, sequential and grouped resume, the
      recovery of a deferred cutover, the group finalizer, and the entries
      [ResumeApply], [ResumeApplyOperation] and [ResumeApplyOperationCutover] that
      the operator calls.
    - [Sends]: proof rules about which engine calls the drives make.
    - [RevertWindow], [Reviewed]: the theorems about whole drives and resumes.
    - [Remote] (tern/grpc_client.go): the drives of a data plane that runs elsewhere:
      the scope of a drive, dispatch with its idempotency key, the commands on the
      remote apply, polling, and the copy of its progress and end into the rows.
    - [RemoteParts]: proof rules for the parts of such a drive, against the interface
      [Served] of what a view of the plane must leave to them.
    - [RemoteSafety]: the theorems about remote drives.
    - [Admission] (tern/local_client.go, mysqlstore/plans.go): the data plane's side of
      a dispatch, [LocalClient.Apply]: the lookup by idempotency key, the plan, or the
      plan materialized from the request, and the rows of the new apply.
    - [Idempotent]: the composition of [Remote] and [Admission].

    [Operations] and [Applies] work on the tables of [Store]; [Applies] also
    reads the table of [Locks] when it verifies the lock intent of a creation;
    [Projection] calls [State], [Operations], [Applies] and [Control].  [Checks]
    adds the check rows and GitHub's view to those tables (record [gate]);
    [MergeGate], [CheckRecords] and [Promotion] are programs on it, parameterised
    by the configuration.  [Fanout] builds the rows [Applies] inserts.  [Plane]
    adds the answers of the engine and of a remote data plane, the commands they were
    sent and the cancel handles to the tables (record [plane]); the files after it are programs on it, whose
    environment may change both of them as well as the rows.

    ** How state and operations correspond to the code

    A table is the list of its rows in insertion order, or a finite map under its
    unique key ([Locks]).  A Go function on the database is a function of the
    tables that returns the new tables and a [result]; its error values are the
    sentinel errors callers test with errors.Is.  Where a function sends several
    statements with nothing locked between them it is a [prog], and the theorems
    let other connections commit between any two statements and let statements
    fail.  A transaction that locks what it reads, or runs under the target lock
    (GET_LOCK), is one atomic statement; a returned error rolls it back.  Rows
    that other transactions hold when a statement says SKIP LOCKED are an
    argument [locked].  The clock, fresh identifiers and fresh lease tokens are
    arguments.  DATETIME columns and NOW() are whole seconds as [Z] (the inbox
    keeps the microseconds of its Go clock apart from them).  [foundRows] is the
    connection's clientFoundRows: whether RowsAffected counts matched or changed
    rows.  Text columns compare by their bytes, except in [Locks], where the
    collation is a parameter [ci] because acquisition and release depend on it.

    ** What the theorems show

    - Mutual exclusion and fencing: one active apply per database, environment and
      deployment over every interleaving of the store's calls (the unused Insert of
      the operation store excepted); at most one owner of a
      database lock over every interleaving; one live lease per delivery; a driver
      that lost its lease changes neither the operation, the apply nor the delivery
      it held.
    - Ordering: a copy and a cutover start only behind the deployments the
      policies let them pass, and the claim gate agrees with what the projection
      reports about the rollout.
    - The merge gate: a success is published only for rows, participants and a
      commit that justify it; the stored rows keep their shape under every writer
      and a row that a running apply owns is left alone by the routine ones; a
      command passes the promotion gate only after every earlier environment was
      seen applied, and the review and authorization gates only for the people
      the configuration names.
    - Plans: the rollup is clean, and the drift guard silent, exactly when the
      deployments would plan the reviewed changes; the fan-out covers every shard
      change of every deployment once, and its keys and options read back.
    - Commands: a command as a user writes it parses to what it says; the
      dispatcher starts a handler exactly for a well-formed command addressed to
      this instance, and two instances with disjoint environments never both run it.
    - Configuration: a validated configuration routes every database and
      environment it lists; an allowed directory contains the paths it allows.
    - Progress: no stale apply and no delivery is stranded, a stop settles the
      rollout, retries are bounded by their budgets, a reapplied rollout is
      claimable at once.
    - The data plane: a stop or a cancel is recorded only after the engine answered
      it without an error, and a change in its revert window is touched by neither; a cutover waits for
      the copy and for a pending stop; a volume change reaches all of an apply or
      nothing.
    - The commands of the API: an accepted command is on record before any engine is
      asked, one that contradicts a pending command is refused without a trace, a
      start is queued only for work that rests, the HTTP handlers and the comment
      commands agree, and a rollback goes back from the last completed change of its
      database within its pull request.
    - The drives: while a grouped drive polls, no task moves backward whatever the
      engine reports; as long as its statements succeed, a sequential drive completes
      an apply only after every task was seen to end; a grouped one is settled only on a full
      reading of its operations, and never over a verdict that is stored already; an
      open revert window stays open until somebody closes it or it expires; a drive
      gives up on an engine that does not answer; a new apply starts only past
      tasks that are known to have ended.
    - The resumes: whatever plan the engine returns for the live schema, only
      statements that were reviewed are run, tasks stored without a statement
      excepted; a change that is being reverted is
      never deployed again; a finalizer succeeds only when its VSchema is live.
    - Remote drives: an attempt is dispatched at most once and under one idempotency
      key, which no other attempt has; the drive of one operation of several leaves
      the apply's row and its stop and cancel requests to the operator; a data plane
      that stops answering is given up on.
    - Admission: whatever races, the data plane admits the dispatches of an attempt as
      one apply.
    - Functional contracts on every branch, errors included: creation, the
      claims, locks, control requests, enqueueing, reconciliation, the
      compare-and-swap of the derived state, and the idempotence of projection.
    - The aggregations equal the tables of rules their documentation gives.
    - Round trips of wire states, DDL actions, engine resume states, shard keys,
      shard plans and apply options.
    - Where the code and its comments disagree, the theorem states what the code
      does ([reopen_bypasses_target_check], [stopped_pending_restarts_ungated],
      [reconcile_mirrors_parent], [release_contract], [unreadable_task_completes],
      [failed_skip_ignores_revert], [reverted_apply_completes],
      [fanned_out_revert_partial], [cutover_reaches_one_deployment],
      [failed_start_fails_siblings], [ddlless_task_takes_replan], [review_gate_order]
      among them).

    ** Bounds and termination

    All loops of the modelled code range over finite lists and are structural
    recursion.  The counted loops are the lock retry, at most
    [lockRetryMaxAttempts] (five) attempts as in retry.go, and the waits for a
    prior environment, whose count is the configured number of attempts, and the ten
    attempts of the conflict check ([maxConflictAttempts]).  The polls of the drives
    run as long as the engine does: the sequential poll and the finalizer take the
    number of ticks as fuel, and the grouped poll the list of the clock readings of
    its ticks; out of ticks they answer that the drive goes on ([None],
    [resumePolling]), which the theorems cover, and [poll_gives_up] shows that
    [maxPollErrors] (ten) ticks are enough when the engine is down.  The poll of a
    remote drive takes the list of the events of its select statement, and its wait
    for a stop the list of its pauses; [remote_poll_gives_up] shows that
    [maxGRPCProgressPollErrorStreak] (ten) polls are enough when the data plane does
    not answer.  The text of a Check Run is proved to stay within
    [maxCheckRunTextLength].
    Identifiers, attempts and times are unbounded [Z]: the code does no arithmetic
    on them beyond counting attempts below a small budget and adding durations.

    ** What is not modelled

    Case mapping, also of the
    case-insensitive expressions of the parser, is that of ASCII, which is what
    commands, state strings, logins and repository names use.  Logging and metrics are
    left out, as are backoff sleeps, driver goroutines, read-only listings, the
    rendered comments (a gate returns which comment it posts) and the terminal
    summaries of the operator.  The engines, GitHub, the SQL parser, the
    CODEOWNERS matcher and the parsers of durations, URLs and CIDRs are external:
    their answers are arguments.  Loading the configuration and resolving its
    secrets are not modelled.  In the data plane the heartbeat of a drive, which
    cancels it when the lease is lost, is the environment that changes the cancel
    handles; observers, draining an engine and the resume that does not block its
    caller are left out.  Of the HTTP handlers those of commands are modelled: decoding
    of a body, authentication and the routing to a client are parameters, and the
    apply log and the wake-up of the operator are left out.  Of the gRPC
    client the calls that only pass a request on are left out, and its hash and the
    encoding of display metadata are parameters.  The handlers of plans and progress,
    the operator's loop, the routing of clients, the comment and settings stores and
    the text rendering are not modelled: they call what is modelled here, or render
    it. *)

From Stdlib Require Export Ascii String.
From stdpp Require Export base gmap strings list sorting.
From Stdlib Require Export ZArith Lia Btauto.

#[export] Set Default Goal Selector "!".

(** ** Automation of the development *)

Create HintDb schemabot.
Create Rewrite HintDb gostr.
#[export] Hint Resolve lookup_insert_eq lookup_delete_eq : schemabot.
#[export] Hint Resolve eq_sym : schemabot.

(** ** Errors as values: Go's [(A, error)] returns *)

Inductive result (E A : Type) : Type :=
| Ok (a : A)
| Err (e : E).
Arguments Ok {E A} a.
Arguments Err {E A} e.

Declare Scope go_scope.
Delimit Scope go_scope with go.
Open Scope go_scope.

(** Early return of the error: [let? x := e in k] is Go's
    [x, err := e; if err != nil { return err }; k]. *)
Notation "'let?' x ':=' e 'in' k" :=
  (match e with Ok x => k | Err err => Err err end)
  (at level 10, x pattern, e at level 200, k at level 200) : go_scope.

#[global] Instance result_eq_dec {E A} `{EqDecision E, EqDecision A} :
  EqDecision (result E A).
Proof. solve_decision. Defined.

(** ** Go strings: byte strings with the ASCII behaviour of package strings *)

Infix "==" := String.eqb (at level 70, no associativity) : go_scope.
Notation "a '!=' b" := (negb (String.eqb a b)) (at level 70, no associativity) : go_scope.

(** [s == any of the list], the guard of a Go [case a, b, c:] and of SQL [IN]. *)
Definition oneOf (s : string) (l : list string) : bool := existsb (String.eqb s) l.

Definition lower_ascii (c : ascii) : ascii :=
  let n := N_of_ascii c in
  if ((65 <=? n) && (n <=? 90))%N then ascii_of_N (n + 32) else c.

Definition upper_ascii (c : ascii) : ascii :=
  let n := N_of_ascii c in
  if ((97 <=? n) && (n <=? 122))%N then ascii_of_N (n - 32) else c.

Fixpoint map_string (f : ascii -> ascii) (s : string) : string :=
  match s with
  | EmptyString => EmptyString
  | String c s' => String (f c) (map_string f s')
  end.

(** strings.ToLower, strings.ToUpper, strings.EqualFold on ASCII text. *)
Definition ToLower : string -> string := map_string lower_ascii.
Definition ToUpper : string -> string := map_string upper_ascii.
Definition EqualFold (a b : string) : bool := ToLower a == ToLower b.

Fixpoint strip_prefix (p s : string) : option string :=
  match p, s with
  | EmptyString, _ => Some s
  | String a p', String b s' => if Ascii.eqb a b then strip_prefix p' s' else None
  | String _ _, EmptyString => None
  end.

(** strings.HasPrefix, strings.TrimPrefix *)
Definition HasPrefix (s p : string) : bool :=
  match strip_prefix p s with Some _ => true | None => false end.
Definition TrimPrefix (s p : string) : string := default s (strip_prefix p s).

(** ** Lemmas the components share *)

Lemma eqb_true_iff (a b : string) : (a == b) = true <-> a = b.
Proof. apply String.eqb_eq. Qed.

Lemma eqb_false_iff (a b : string) : (a == b) = false <-> a <> b.
Proof. apply String.eqb_neq. Qed.

Lemma eqb_refl' (a : string) : (a == a) = true.
Proof. apply String.eqb_refl. Qed.

Lemma oneOf_elem s l : oneOf s l = true <-> s ∈ l.
Proof.
  unfold oneOf. rewrite existsb_exists. split.
  - intros (x & Hx & ->%String.eqb_eq). by apply list_elem_of_In.
  - intros Hs. exists s. split; [by apply list_elem_of_In | apply String.eqb_refl].
Qed.

Lemma lower_ascii_idem c : lower_ascii (lower_ascii c) = lower_ascii c.
Proof. by destruct c as [[] [] [] [] [] [] [] []]. Qed.

Lemma lower_upper_ascii c : lower_ascii (upper_ascii c) = lower_ascii c.
Proof. by destruct c as [[] [] [] [] [] [] [] []]. Qed.

Lemma upper_lower_ascii c : upper_ascii (lower_ascii c) = upper_ascii c.
Proof. by destruct c as [[] [] [] [] [] [] [] []]. Qed.

Lemma map_string_map f g s :
  map_string f (map_string g s) = map_string (fun c => f (g c)) s.
Proof. induction s as [|c s IH]; simpl; congruence. Qed.

Lemma map_string_ext f g s : (forall c, f c = g c) -> map_string f s = map_string g s.
Proof. intros Hfg. induction s as [|c s IH]; simpl; congruence. Qed.

Lemma ToLower_idem s : ToLower (ToLower s) = ToLower s.
Proof. unfold ToLower. rewrite map_string_map. apply map_string_ext, lower_ascii_idem. Qed.

Lemma ToLower_ToUpper s : ToLower (ToUpper s) = ToLower s.
Proof. unfold ToLower, ToUpper. rewrite map_string_map. apply map_string_ext, lower_upper_ascii. Qed.

Lemma ToUpper_ToLower s : ToUpper (ToLower s) = ToUpper s.
Proof. unfold ToLower, ToUpper. rewrite map_string_map. apply map_string_ext, upper_lower_ascii. Qed.

#[export] Hint Rewrite ToLower_idem ToLower_ToUpper ToUpper_ToLower eqb_refl' : gostr.

Lemma lower_ascii_not_S c : Ascii.eqb "S" (lower_ascii c) = false.
Proof. by destruct c as [[] [] [] [] [] [] [] []]. Qed.

(** Lower-cased text never carries an upper-case prefix that starts with [S]. *)
Lemma TrimPrefix_ToLower s p : TrimPrefix (ToLower s) (String "S" p) = ToLower s.
Proof.
  destruct s as [|c s]; [done|].
  unfold TrimPrefix, ToLower. cbn [map_string strip_prefix]. by rewrite lower_ascii_not_S.
Qed.

Lemma existsb_negb {A} (f : A -> bool) l :
  existsb (fun x => negb (f x)) l = negb (forallb f l).
Proof. induction l as [|x l IH]; [done|]. cbn. by rewrite IH, negb_andb. Qed.

Lemma existsb_elem {A} (f : A -> bool) l : existsb f l = true <-> exists x, x ∈ l /\ f x = true.
Proof. rewrite existsb_exists. by setoid_rewrite list_elem_of_In. Qed.

Lemma existsb_row {R} (p : R -> bool) (rows : list R) r : r ∈ rows -> p r = true -> existsb p rows = true.
Proof. intros Hr Hp. apply existsb_elem. by exists r. Qed.

Lemma forallb_elem {A} (f : A -> bool) l : forallb f l = true <-> forall x, x ∈ l -> f x = true.
Proof. rewrite forallb_forall. by setoid_rewrite list_elem_of_In. Qed.

(** Reflection of a boolean guard: turns the [==], [&&] and [||] of a Go
    condition that is true (or false) into propositions. *)
Ltac reflect_guards :=
  repeat match goal with
  | H : (_ && _)%bool = true |- _ => apply andb_true_iff in H; destruct H
  | H : (_ || _)%bool = false |- _ => apply orb_false_iff in H; destruct H
  | H : negb _ = true |- _ => apply negb_true_iff in H
  | H : negb _ = false |- _ => apply negb_false_iff in H
  | H : String.eqb _ _ = true |- _ => apply String.eqb_eq in H
  | H : String.eqb _ _ = false |- _ => apply String.eqb_neq in H
  | H : bool_decide _ = true |- _ => apply bool_decide_eq_true in H
  | H : bool_decide _ = false |- _ => apply bool_decide_eq_false in H
  | H : Z.eqb _ _ = true |- _ => apply Z.eqb_eq in H
  | H : Z.eqb _ _ = false |- _ => apply Z.eqb_neq in H
  end.

(** Case analysis on every [match]/[if] of the goal or of a hypothesis [H]. *)
Ltac break := repeat (case_match; simplify_eq/=; try done).
Ltac break_in H :=
  repeat match type of H with
  | context [match ?x with _ => _ end] => destruct x eqn:?; simplify_eq/=; try done
  end.

(** Enumerates a hypothesis [x ∈ [a; b; ...]] over a literal list. *)
Ltac elem_cases H :=
  repeat first
    [ apply elem_of_nil in H; destruct H
    | apply elem_of_cons in H as [-> | H] ].
