(* ===== verification/GoStrings.v ===== *)
(** * The parts of Go's strings, strconv and path packages the program uses

    Text is bytes; white space and letter case are those of ASCII, which is what
    configuration names, commands and paths are made of. *)

From S2P Require Import Prelude.

Local Open Scope string_scope.

(** ** Package strings *)

(** unicode.IsSpace on ASCII: tab, newline, vertical tab, form feed, carriage
    return and space. *)
Definition isSpace (c : ascii) : bool :=
  let n := N_of_ascii c in ((9 <=? n) && (n <=? 13) || (n =? 32))%N.

Fixpoint TrimLeftFunc (p : ascii -> bool) (s : string) : string :=
  match s with
  | EmptyString => EmptyString
  | String c s' => if p c then TrimLeftFunc p s' else s
  end.

(** The longest prefix of [s] that does not end in a byte of [p]. *)
Fixpoint TrimRightFunc (p : ascii -> bool) (s : string) : string :=
  match s with
  | EmptyString => EmptyString
  | String c s' =>
      match TrimRightFunc p s' with
      | EmptyString => if p c then EmptyString else String c EmptyString
      | t => String c t
      end
  end.

Definition TrimSpace (s : string) : string := TrimRightFunc isSpace (TrimLeftFunc isSpace s).

Fixpoint reverse (s acc : string) : string :=
  match s with
  | EmptyString => acc
  | String c s' => reverse s' (String c acc)
  end.

Definition HasSuffix (s suffix : string) : bool :=
  HasPrefix (reverse s EmptyString) (reverse suffix EmptyString).

Definition TrimSuffix (s suffix : string) : string :=
  match strip_prefix (reverse suffix EmptyString) (reverse s EmptyString) with
  | Some r => reverse r EmptyString
  | None => s
  end.

(** [strings.Split(s, string(sep))] *)
Fixpoint splitOn (sep : ascii) (s : string) : list string :=
  match s with
  | EmptyString => [EmptyString]
  | String c s' =>
      if Ascii.eqb c sep then EmptyString :: splitOn sep s'
      else match splitOn sep s' with
           | w :: ws => String c w :: ws
           | [] => [String c EmptyString]
           end
  end.

(** [strings.Join(ws, sep)] *)
Fixpoint joinWith (sep : string) (ws : list string) : string :=
  match ws with
  | [] => EmptyString
  | [w] => w
  | w :: ws' => w ++ sep ++ joinWith sep ws'
  end.

Fixpoint containsByte (b : ascii) (s : string) : bool :=
  match s with
  | EmptyString => false
  | String c s' => Ascii.eqb c b || containsByte b s'
  end.

(** [strings.Lines]: the lines of [s] with their newlines. *)
Fixpoint Lines (s : string) : list string :=
  match s with
  | EmptyString => []
  | String c s' =>
      if Ascii.eqb c "010" then String c EmptyString :: Lines s'
      else match Lines s' with
           | l :: ls => String c l :: ls
           | [] => [String c EmptyString]
           end
  end.

(** ** Package path *)

(** One element of the path, with the elements kept so far, last first. *)
Definition cleanStep (rooted : bool) (kept : list string) (elem : string) : list string :=
  if (elem == "") || (elem == ".") then kept
  else if elem == ".." then
    match kept with
    | top :: rest => if top == ".." then ".." :: kept else rest
    | [] => if rooted then [] else [".."]
    end
  else elem :: kept.

(** [path.Clean]: repeated slashes collapse, [.] disappears, [..] takes the element
    before it along, and [..] cannot leave the root. *)
Definition Clean (p : string) : string :=
  if p == "" then "." else
  let rooted := HasPrefix p "/" in
  let out := joinWith "/" (rev (fold_left (cleanStep rooted) (splitOn "/" p) [])) in
  if rooted then "/" ++ out else if out == "" then "." else out.

(** ** Package strconv *)

Definition digit (n : N) : ascii := ascii_of_N (48 + n).
Definition digitValue (c : ascii) : option N :=
  let n := N_of_ascii c in if ((48 <=? n) && (n <=? 57))%N then Some (n - 48)%N else None.

(** The decimal digits of [n] before [acc]; [fuel] bounds their number. *)
Fixpoint digits (fuel : nat) (n : N) (acc : string) : string :=
  match fuel with
  | 0%nat => acc
  | S fuel' =>
      let acc' := String (digit (n mod 10)) acc in
      if (n <? 10)%N then acc' else digits fuel' (n / 10) acc'
  end.

Definition formatN (n : N) : string := digits (S (N.to_nat (N.size n))) n EmptyString.

(** [strconv.Itoa] *)
Definition Itoa (z : Z) : string :=
  if (z <? 0)%Z then String "-" (formatN (Z.abs_N z)) else formatN (Z.abs_N z).

(** The value of a nonempty run of digits after [acc]. *)
Fixpoint parseDigits (s : string) (acc : N) : option N :=
  match s with
  | EmptyString => Some acc
  | String c s' =>
      match digitValue c with Some d => parseDigits s' (10 * acc + d) | None => None end
  end.

Definition parseUnsigned (s : string) : option N := if s == "" then None else parseDigits s 0.

(** The sign of a number and what follows it. *)
Definition signOf (s : string) : bool * string :=
  match s with
  | String c b =>
      if Ascii.eqb c "-" then (true, b) else if Ascii.eqb c "+" then (false, b) else (false, s)
  | EmptyString => (false, s)
  end.

(** [strconv.ParseInt(s, 10, bits)]; [None] for a syntax or range error. *)
Definition ParseInt (bits : Z) (s : string) : option Z :=
  let '(neg, body) := signOf s in
  match parseUnsigned body with
  | None => None
  | Some n =>
      let v := if neg then (- Z.of_N n)%Z else Z.of_N n in
      if ((- 2 ^ (bits - 1) <=? v) && (v <? 2 ^ (bits - 1)))%Z then Some v else None
  end.

(** [strconv.Atoi]: int is 64 bits wide. *)
Definition Atoi : string -> option Z := ParseInt 64.

(** ** Lemmas: splitting and joining *)

Lemma sapp_nil s : "" ++ s = s.
Proof. done. Qed.

Lemma sapp_cons c s t : String c s ++ t = String c (s ++ t).
Proof. done. Qed.

Lemma sapp_assoc a b c : (a ++ b) ++ c = a ++ (b ++ c).
Proof. induction a as [|x a IH]; [done|]. by rewrite !sapp_cons, IH. Qed.

Lemma sapp_empty_r s : s ++ "" = s.
Proof. induction s as [|x s IH]; [done|]. by rewrite sapp_cons, IH. Qed.

Lemma length_sapp a b : String.length (a ++ b) = (String.length a + String.length b)%nat.
Proof. induction a as [|x a IH]; [done|]. rewrite sapp_cons. cbn. by rewrite IH. Qed.

#[export] Hint Rewrite sapp_nil sapp_cons : gostr.

Lemma splitOn_nonempty sep s : splitOn sep s <> [].
Proof. destruct s as [|c s]; cbn; [done|]. destruct (Ascii.eqb c sep); [done|]. by destruct (splitOn sep s). Qed.

(** Joining the pieces of a split gives the text back. *)
Lemma join_split sep s : joinWith (String sep EmptyString) (splitOn sep s) = s.
Proof.
  induction s as [|c s IH]; [done|]. cbn [splitOn]. pose proof (splitOn_nonempty sep s) as Hne.
  destruct (Ascii.eqb c sep) eqn:E.
  - apply Ascii.eqb_eq in E as ->. destruct (splitOn sep s) as [|w ws]; [done|]. cbn.
    by rewrite <- IH.
  - destruct (splitOn sep s) as [|w ws]; [done|]. rewrite <- IH. by destruct ws.
Qed.

Lemma splitOn_app sep w s :
  containsByte sep w = false ->
  splitOn sep (w ++ String sep s) = w :: splitOn sep s.
Proof.
  induction w as [|c w IH]; intros H; autorewrite with gostr; cbn in H |- *.
  - by rewrite Ascii.eqb_refl.
  - apply orb_false_iff in H as [-> H]. by rewrite IH.
Qed.

Lemma splitOn_single sep w : containsByte sep w = false -> splitOn sep w = [w].
Proof.
  induction w as [|c w IH]; cbn; intros H; [done|]. apply orb_false_iff in H as [-> H].
  by rewrite IH.
Qed.

Lemma splitOn_pieces sep s w : w ∈ splitOn sep s -> containsByte sep w = false.
Proof.
  revert w. induction s as [|c s IH]; intros w; cbn [splitOn].
  - intros [->|H]%elem_of_cons; [done|by apply elem_of_nil in H].
  - destruct (Ascii.eqb c sep) eqn:E.
    + intros [->|H]%elem_of_cons; [done|by apply IH].
    + destruct (splitOn sep s) as [|x xs]; intros [->|H]%elem_of_cons.
      * cbn. by rewrite E.
      * by apply elem_of_nil in H.
      * cbn. rewrite E. apply IH. by left.
      * apply IH. by right.
Qed.

(** Splitting a join of pieces without the separator gives the pieces back. *)
Lemma split_join sep ws :
  ws <> [] -> (forall w, w ∈ ws -> containsByte sep w = false) ->
  splitOn sep (joinWith (String sep EmptyString) ws) = ws.
Proof.
  induction ws as [|w ws IH]; intros Hne Hw; [done|].
  destruct ws as [|x xs]; [apply splitOn_single, Hw; by left|].
  change (joinWith (String sep EmptyString) (w :: x :: xs))
    with (w ++ String sep (joinWith (String sep EmptyString) (x :: xs))).
  rewrite splitOn_app by (apply Hw; by left). f_equal. apply IH; [done|].
  intros y Hy. apply Hw. by right.
Qed.

(** ** Lemmas: decimal numbers *)

Lemma digitValue_digit n : (n < 10)%N -> digitValue (digit n) = Some n.
Proof.
  intros H.
  assert (Hall : Forall (fun k => digitValue (digit (N.of_nat k)) = Some (N.of_nat k)) (seq 0 10))
    by (repeat constructor).
  rewrite Forall_forall in Hall. rewrite <- (N2Nat.id n). apply Hall, elem_of_seq. lia.
Qed.

Lemma parseDigits_app s t acc :
  parseDigits (s ++ t) acc =
  match parseDigits s acc with Some a => parseDigits t a | None => None end.
Proof.
  revert acc. induction s as [|c s IH]; intros acc; [done|].
  rewrite sapp_cons. cbn. destruct (digitValue c); [apply IH|done].
Qed.

Lemma digits_app fuel n acc : digits fuel n acc = digits fuel n EmptyString ++ acc.
Proof.
  revert n acc. induction fuel as [|fuel IH]; intros n acc; [done|]. cbn.
  destruct (n <? 10)%N; [done|]. rewrite IH, (IH _ (String _ EmptyString)).
  by rewrite sapp_assoc, sapp_cons, sapp_nil.
Qed.

Lemma digits_parse fuel n acc :
  (n < 2 ^ N.of_nat fuel)%N ->
  exists k, parseDigits (digits (S fuel) n EmptyString) acc = Some (acc * 10 ^ k + n)%N.
Proof.
  revert n acc. induction fuel as [|fuel IH]; intros n acc Hn.
  - exists 1%N. change (2 ^ N.of_nat 0)%N with 1%N in Hn. assert (n = 0)%N as -> by lia.
    change (parseDigits (digits 1 0 EmptyString) acc) with (Some (10 * acc + 0)%N). f_equal. lia.
  - change (digits (S (S fuel)) n EmptyString) with
      (if (n <? 10)%N then String (digit (n mod 10)) EmptyString
       else digits (S fuel) (n / 10) (String (digit (n mod 10)) EmptyString)).
    destruct (N.ltb_spec n 10) as [Hlt|Hge].
    + exists 1%N. rewrite N.mod_small by done. cbn [parseDigits]. rewrite digitValue_digit by done.
      f_equal. lia.
    + assert (Hd : (n / 10 < 2 ^ N.of_nat fuel)%N).
      { apply N.Div0.div_lt_upper_bound. rewrite Nat2N.inj_succ, N.pow_succ_r' in Hn. lia. }
      destruct (IH (n / 10)%N acc Hd) as [k Hk]. exists (N.succ k).
      rewrite digits_app, parseDigits_app, Hk. cbn [parseDigits].
      rewrite digitValue_digit by (apply N.mod_lt; lia). f_equal.
      rewrite N.pow_succ_r'. pose proof (N.Div0.div_mod n 10). lia.
Qed.

Lemma formatN_parse n : parseDigits (formatN n) 0 = Some n.
Proof.
  unfold formatN. destruct (digits_parse (N.to_nat (N.size n)) n 0) as [k Hk].
  - rewrite N2Nat.id. apply N.size_gt.
  - rewrite Hk. done.
Qed.

Lemma digits_first fuel n acc : exists c s, digits (S fuel) n acc = String c s.
Proof.
  revert n acc. induction fuel as [|fuel IH]; intros n acc; cbn [digits].
  - destruct (n <? 10)%N; eauto.
  - destruct (n <? 10)%N; [eauto|]. apply IH.
Qed.

Lemma formatN_parseUnsigned n : parseUnsigned (formatN n) = Some n.
Proof.
  unfold parseUnsigned. rewrite formatN_parse. unfold formatN.
  by destruct (digits_first (N.to_nat (N.size n)) n EmptyString) as (c & s & ->).
Qed.

(** A printed number starts with a digit, not with a sign. *)
Lemma formatN_no_sign n c s : formatN n = String c s -> c <> "-"%char /\ c <> "+"%char.
Proof.
  intros E. pose proof (formatN_parse n) as H. rewrite E in H. cbn in H.
  destruct (digitValue c) eqn:Ed; [|done]. split; intros ->; done.
Qed.

Lemma ParseInt_Itoa bits z :
  ParseInt bits (Itoa z) =
  if ((- 2 ^ (bits - 1) <=? z) && (z <? 2 ^ (bits - 1)))%Z then Some z else None.
Proof.
  unfold ParseInt, Itoa. destruct (Z.ltb_spec z 0) as [Hneg|Hpos].
  - cbn [signOf]. change (Ascii.eqb "-" "-") with true. cbn match.
    by rewrite formatN_parseUnsigned, N2Z.inj_abs_N, Z.abs_neq, Z.opp_involutive by lia.
  - assert (signOf (formatN (Z.abs_N z)) = (false, formatN (Z.abs_N z))) as ->.
    { destruct (formatN (Z.abs_N z)) as [|c s] eqn:E; [done|].
      destruct (formatN_no_sign _ _ _ E) as [H1 H2]. cbn.
      by rewrite (proj2 (Ascii.eqb_neq _ _) H1), (proj2 (Ascii.eqb_neq _ _) H2). }
    by rewrite formatN_parseUnsigned, N2Z.inj_abs_N, Z.abs_eq by lia.
Qed.

Lemma Itoa_nonempty z : Itoa z <> "".
Proof.
  unfold Itoa. destruct (z <? 0)%Z; [done|]. intros H.
  pose proof (formatN_parseUnsigned (Z.abs_N z)) as Hu. by rewrite H in Hu.
Qed.

(** ** Package slices *)

(** Go compares strings byte by byte. *)
Definition strle (a b : string) : Prop := String.leb a b = true.
#[global] Instance strle_dec a b : Decision (strle a b).
Proof. unfold strle. apply _. Defined.

#[global] Instance strle_total : Total strle.
Proof. intros a b. unfold strle. destruct (String.leb_total a b); auto. Qed.

Lemma strle_trans : Transitive strle.
Proof.
  unfold strle, String.leb.
  assert (H : forall a b c, String.compare a b <> Gt -> String.compare b c <> Gt -> String.compare a c <> Gt).
  { induction a as [|x a IH]; intros [|y b] [|z c]; cbn; try done.
    unfold Ascii.compare. intros H1 H2.
    destruct (N.compare_spec (N_of_ascii x) (N_of_ascii y)) as [E1|E1|E1];
      destruct (N.compare_spec (N_of_ascii y) (N_of_ascii z)) as [E2|E2|E2]; try done.
    - rewrite E1, E2, N.compare_refl. by apply (IH b).
    - rewrite E1. apply N.compare_lt_iff in E2. by rewrite E2.
    - rewrite <- E2. apply N.compare_lt_iff in E1. by rewrite E1.
    - assert (N_of_ascii x < N_of_ascii z)%N as E by lia. apply N.compare_lt_iff in E. by rewrite E. }
  intros a b c Hab Hbc. specialize (H a b c).
  destruct (String.compare a b), (String.compare b c), (String.compare a c); try done; exfalso; by apply H.
Qed.
#[global] Existing Instance strle_trans.

(** [slices.Sort] *)
Definition Sort (l : list string) : list string := merge_sort strle l.

Lemma Sort_perm l : Sort l ≡ₚ l.
Proof. apply merge_sort_Permutation. Qed.

Lemma Sort_sorted l : Sorted strle (Sort l).
Proof. apply Sorted_merge_sort, _. Qed.

Lemma elem_of_Sort x l : x ∈ Sort l <-> x ∈ l.
Proof. by rewrite Sort_perm. Qed.

Lemma NoDup_Sort l : NoDup (Sort l) <-> NoDup l.
Proof. by rewrite Sort_perm. Qed.
