(* ===== verification/Regexp.v ===== *)
(** * The parts of Go's regexp package the program uses

    Expressions of RE2 syntax without counted repetition, with at most one capturing
    group and greedy operators.  A search returns the leftmost match and, among the
    matches that start there, the one a backtracking search would find first, which
    is what Go documents for [FindStringSubmatch].  Text is bytes.  Case folding is
    that of ASCII: the two other letters Go folds with [(?i)] onto ASCII ones, the
    long s and the Kelvin sign, are not treated as such here.

    The engine [matchAt] is proved sound and complete for the relation [matches] that
    says what each operator means. *)

From S2P Require Import Prelude GoStrings.

Local Open Scope string_scope.

(** ** Expressions *)

Inductive re :=
| REmpty
| RClass (p : ascii -> bool)
| RSeq (a b : re)
| RAlt (a b : re)
| RStar (a : re)
| RGroup (a : re)
| RBeginText
| REndText
| RBeginLine
| REndLine
| RBoundary.

Definition ROpt (a : re) : re := RAlt a REmpty.
Definition RPlus (a : re) : re := RSeq a (RStar a).

(** A literal under [(?i)]. *)
Definition foldByte (x c : ascii) : bool := Ascii.eqb (lower_ascii x) (lower_ascii c).
Fixpoint RFold (s : string) : re :=
  match s with
  | EmptyString => REmpty
  | String x s' => RSeq (RClass (foldByte x)) (RFold s')
  end.

Definition isByte (x c : ascii) : bool := Ascii.eqb x c.
Definition RByte (x : ascii) : re := RClass (isByte x).

(** [\s], [\w] *)
Definition isBlankClass (c : ascii) : bool :=
  let n := N_of_ascii c in ((n =? 9) || (n =? 10) || (n =? 12) || (n =? 13) || (n =? 32))%N.
Definition isLower (c : ascii) : bool := let n := N_of_ascii c in ((97 <=? n) && (n <=? 122))%N.
Definition isUpper (c : ascii) : bool := let n := N_of_ascii c in ((65 <=? n) && (n <=? 90))%N.
Definition isDigit (c : ascii) : bool := let n := N_of_ascii c in ((48 <=? n) && (n <=? 57))%N.
Definition isWord (c : ascii) : bool := isLower c || isUpper c || isDigit c || Ascii.eqb c "_".

(** ** Positions: the byte before and the text from here *)

Record pos := { prev : option ascii; rest : string }.

Definition newline : ascii := "010".
Definition nextByte (p : pos) : option ascii :=
  match rest p with EmptyString => None | String c _ => Some c end.
Definition wordAt (o : option ascii) : bool := match o with Some c => isWord c | None => false end.
Definition boundary (p : pos) : bool := xorb (wordAt (prev p)) (wordAt (nextByte p)).
Definition beginLine (p : pos) : bool :=
  match prev p with None => true | Some c => Ascii.eqb c newline end.
Definition endLine (p : pos) : bool :=
  match rest p with EmptyString => true | String c _ => Ascii.eqb c newline end.
Definition beginText (p : pos) : bool := match prev p with None => true | Some _ => false end.
Definition endText (p : pos) : bool := match rest p with EmptyString => true | _ => false end.

(** The text between a position and a later one. *)
Definition between (p q : pos) : string :=
  substring 0 (String.length (rest p) - String.length (rest q)) (rest p).

(** ** The engine *)

Definition capture : Type := option string.

(** A greedy repetition of [body], at most [n] times and never of nothing, then [k]. *)
Fixpoint starAt {R} (body : pos -> capture -> (pos -> capture -> option R) -> option R)
    (k : pos -> capture -> option R) (n : nat) (p : pos) (c : capture) : option R :=
  match n with
  | O => k p c
  | S n' =>
      match body p c (fun q c' =>
              if (String.length (rest q) <? String.length (rest p))%nat
              then starAt body k n' q c' else None) with
      | Some x => Some x
      | None => k p c
      end
  end.

(** [matchAt r p c k]: match [r] at [p], then go on with [k]; [c] is the group. *)
Fixpoint matchAt {R} (r : re) (p : pos) (c : capture) (k : pos -> capture -> option R) : option R :=
  let assert (b : bool) := if b then k p c else None in
  match r with
  | REmpty => k p c
  | RClass f =>
      match rest p with
      | String x s => if f x then k {| prev := Some x; rest := s |} c else None
      | EmptyString => None
      end
  | RSeq a b => matchAt a p c (fun q c' => matchAt b q c' k)
  | RAlt a b => match matchAt a p c k with Some x => Some x | None => matchAt b p c k end
  | RStar a =>
      starAt (matchAt a) k (String.length (rest p)) p c
  | RGroup a => matchAt a p c (fun q _ => k q (Some (between p q)))
  | RBeginText => assert (beginText p)
  | REndText => assert (endText p)
  | RBeginLine => assert (beginLine p)
  | REndLine => assert (endLine p)
  | RBoundary => assert (boundary p)
  end.

(** The first place from [o], [s] on where [r] matches, with the group. *)
Fixpoint search (r : re) (o : option ascii) (s : string) : option capture :=
  match matchAt r {| prev := o; rest := s |} None (fun _ c => Some c) with
  | Some c => Some c
  | None => match s with EmptyString => None | String x s' => search r (Some x) s' end
  end.

(** [FindStringSubmatch]: the text of the group, empty where it took no part. *)
Definition FindStringSubmatch (r : re) (s : string) : option string :=
  match search r None s with Some c => Some (default "" c) | None => None end.
Definition MatchString (r : re) (s : string) : bool :=
  match search r None s with Some _ => true | None => false end.

(** ** What the operators mean *)

Inductive matches : re -> pos -> pos -> Prop :=
| MEmpty p : matches REmpty p p
| MClass f o x s : f x = true ->
    matches (RClass f) {| prev := o; rest := String x s |} {| prev := Some x; rest := s |}
| MSeq a b p q r : matches a p q -> matches b q r -> matches (RSeq a b) p r
| MAltL a b p q : matches a p q -> matches (RAlt a b) p q
| MAltR a b p q : matches b p q -> matches (RAlt a b) p q
| MStarNil a p : matches (RStar a) p p
| MStarCons a p q r : matches a p q -> matches (RStar a) q r -> matches (RStar a) p r
| MGroup a p q : matches a p q -> matches (RGroup a) p q
| MBeginText p : beginText p = true -> matches RBeginText p p
| MEndText p : endText p = true -> matches REndText p p
| MBeginLine p : beginLine p = true -> matches RBeginLine p p
| MEndLine p : endLine p = true -> matches REndLine p p
| MBoundary p : boundary p = true -> matches RBoundary p p.

#[export] Hint Constructors matches : schemabot.

(** [q] is [p] after some bytes. *)
Inductive reaches : pos -> pos -> Prop :=
| reaches_here p : reaches p p
| reaches_next o x s q : reaches {| prev := Some x; rest := s |} q ->
    reaches {| prev := o; rest := String x s |} q.

#[export] Hint Constructors reaches : schemabot.

Lemma reaches_trans p q r : reaches p q -> reaches q r -> reaches p r.
Proof. induction 1; eauto with schemabot. Qed.

Lemma matches_reaches r p q : matches r p q -> reaches p q.
Proof. induction 1; eauto using reaches_trans with schemabot. Qed.

Lemma reaches_length p q : reaches p q -> p = q \/ (String.length (rest q) < String.length (rest p))%nat.
Proof.
  induction 1 as [|o x s q _ [<-|IH]]; [by left|right; cbn; lia|right; cbn in *; lia].
Qed.

(** ** The engine is sound and complete *)

(** Some match of [r] lets the continuation succeed. *)
Definition some_match {R} (r : re) (p : pos) (k : pos -> capture -> option R) : Prop :=
  exists q c, matches r p q /\ is_Some (k q c).

Lemma matchAt_sound {R} r : forall p c (k : pos -> capture -> option R) x,
  matchAt r p c k = Some x -> exists q c', matches r p q /\ k q c' = Some x.
Proof.
  induction r as [|f|a IHa b IHb|a IHa b IHb|a IHa|a IHa| | | | |]; intros p c k x; cbn [matchAt];
    try (intros H; eauto with schemabot; fail).
  - destruct p as [o s]; cbn [rest]. destruct s as [|y s]; [done|].
    destruct (f y) eqn:E; [|done]. eauto with schemabot.
  - intros (q & c' & Hm & H)%IHa. apply IHb in H as (r & c'' & Hm' & H). eauto with schemabot.
  - destruct (matchAt a p c k) eqn:E.
    + intros [= ->]. apply IHa in E as (q & c' & ? & ?). eauto with schemabot.
    + intros (q & c' & ? & ?)%IHb. eauto with schemabot.
  - generalize (String.length (rest p)) as n. intros n. revert p c.
    induction n as [|n IHn]; intros p c; [eauto with schemabot|].
    cbn [starAt]. destruct (matchAt a p c _) as [y|] eqn:E.
    + intros [= ->]. apply IHa in E as (q & c' & Hm & H).
      destruct (_ <? _)%nat; [|done]. apply IHn in H as (r & c'' & ? & ?). eauto with schemabot.
    + eauto with schemabot.
  - intros (q & c' & ? & ?)%IHa. eauto with schemabot.
  - destruct (beginText p) eqn:E; [|done]. eauto with schemabot.
  - destruct (endText p) eqn:E; [|done]. eauto with schemabot.
  - destruct (beginLine p) eqn:E; [|done]. eauto with schemabot.
  - destruct (endLine p) eqn:E; [|done]. eauto with schemabot.
  - destruct (boundary p) eqn:E; [|done]. eauto with schemabot.
Qed.

Lemma matchAt_complete {R} r : forall p c (k : pos -> capture -> option R) q,
  matches r p q -> (forall c', is_Some (k q c')) -> is_Some (matchAt r p c k).
Proof.
  induction r as [|f|a IHa b IHb|a IHa b IHb|a IHa|a IHa| | | | |]; intros p c k q Hm Hk;
    cbn [matchAt]; try (inversion Hm; subst; auto; fail).
  - inversion Hm as [|? ? ? ? Hf| | | | | | | | | | |]; subst. cbn [rest]. rewrite Hf. apply Hk.
  - inversion Hm; subst. eapply IHa; [eassumption|]. intros c'. eapply IHb; eauto.
  - inversion Hm; subst.
    + destruct (IHa p c k q) as [x ->]; eauto.
    + destruct (matchAt a p c k); eauto.
  - assert (Hn : (String.length (rest p) <= String.length (rest p))%nat) by lia. revert Hn.
    generalize (String.length (rest p)) at 2 3 as n. intros n Hn. revert n c Hn.
    remember (RStar a) as r eqn:Er. induction Hm; inversion Er; subst.
    + intros [|n] c Hn; cbn; [apply Hk|].
      destruct (matchAt a p c _); [eauto|apply Hk].
    + intros n c Hn. specialize (IHHm2 eq_refl Hk).
      destruct (reaches_length _ _ (matches_reaches _ _ _ Hm1)) as [<-|Hlt]; [by apply IHHm2|].
      destruct n as [|n]; [lia|].
      cbn [starAt]. destruct (IHa p c (fun q0 c' =>
        if (String.length (rest q0) <? String.length (rest p))%nat
        then starAt (matchAt a) k n q0 c' else None) q Hm1) as [x Hx].
      * intros c'. apply Nat.ltb_lt in Hlt as Hl. rewrite Hl. apply IHHm2. lia.
      * rewrite Hx. eauto.
  - inversion Hm; subst. eapply IHa; [eassumption|]. intros c'. apply Hk.
  - inversion Hm as [| | | | | | | |? Hb|? Hb|? Hb|? Hb|? Hb]; subst. rewrite Hb. apply Hk.
  - inversion Hm as [| | | | | | | |? Hb|? Hb|? Hb|? Hb|? Hb]; subst. rewrite Hb. apply Hk.
  - inversion Hm as [| | | | | | | |? Hb|? Hb|? Hb|? Hb|? Hb]; subst. rewrite Hb. apply Hk.
  - inversion Hm as [| | | | | | | |? Hb|? Hb|? Hb|? Hb|? Hb]; subst. rewrite Hb. apply Hk.
  - inversion Hm as [| | | | | | | |? Hb|? Hb|? Hb|? Hb|? Hb]; subst. rewrite Hb. apply Hk.
Qed.

(** A search succeeds exactly where some later position has a match. *)
Lemma search_iff r o s :
  is_Some (search r o s) <-> exists p q, reaches {| prev := o; rest := s |} p /\ matches r p q.
Proof.
  revert o. induction s as [|x s IH]; intros o; cbn [search]; split.
  - destruct (matchAt _ _ _ _) as [c|] eqn:E; [|by intros [? ?]].
    apply matchAt_sound in E as (q & c' & Hm & _). eauto with schemabot.
  - intros (p & q & Hr & Hm). inversion Hr; subst.
    destruct (matchAt_complete r _ None (fun _ c => Some c) q Hm) as [y ->]; eauto.
  - destruct (matchAt _ _ _ _) as [c|] eqn:E.
    + apply matchAt_sound in E as (q & c' & Hm & _). eauto with schemabot.
    + intros (p & q & Hr & Hm)%IH. eauto with schemabot.
  - intros (p & q & Hr & Hm). destruct (matchAt _ _ _ _) as [c|] eqn:E; [eauto|]. apply IH.
    inversion Hr; subst; [|eauto].
    destruct (matchAt_complete r _ None (fun _ c => Some c) q Hm) as [y Hy]; [eauto|congruence].
Qed.

(** The engine decides whether a text has a match. *)
Theorem MatchString_iff r s :
  MatchString r s = true <->
  exists p q, reaches {| prev := None; rest := s |} p /\ matches r p q.
Proof.
  unfold MatchString. rewrite <- search_iff. destruct (search r None s); [|split; [done|by intros [? ?]]].
  split; [eauto|done].
Qed.

(** ** Searching a text made of pieces *)

Fixpoint allBytes (f : ascii -> bool) (w : string) : bool :=
  match w with EmptyString => true | String x w' => f x && allBytes f w' end.

Fixpoint lastByte (o : option ascii) (w : string) : option ascii :=
  match w with EmptyString => o | String x w' => lastByte (Some x) w' end.

Definition stops (f : ascii -> bool) (s : string) : bool :=
  match s with EmptyString => true | String x _ => negb (f x) end.

Lemma lastByte_Some y w : exists z, lastByte (Some y) w = Some z.
Proof. revert y. induction w as [|x w IH]; intros y; cbn; eauto. Qed.

Lemma allBytes_impl (f g : ascii -> bool) w :
  (forall x, f x = true -> g x = true) -> allBytes f w = true -> allBytes g w = true.
Proof.
  intros H. induction w as [|x w IH]; cbn; [done|]. rewrite !andb_true_iff. intros [? ?]. auto.
Qed.

(** A greedy repetition of a class takes the whole run of its bytes if the rest then
    matches. *)
Lemma star_run {R} f w s o c (k : pos -> capture -> option R) x :
  allBytes f w = true -> stops f s = true ->
  k {| prev := lastByte o w; rest := s |} c = Some x ->
  matchAt (RStar (RClass f)) {| prev := o; rest := w ++ s |} c k = Some x.
Proof.
  intros Hw Hs Hk. cbn [matchAt rest].
  assert (Hn : (String.length (w ++ s) <= String.length (w ++ s))%nat) by lia. revert Hn.
  generalize (String.length (w ++ s)) at 2 3 as n. revert o Hk.
  induction w as [|y w IH]; intros o Hk n Hn.
  - rewrite sapp_nil. destruct n as [|n]; cbn [starAt matchAt rest]; [done|].
    destruct s as [|y s]; [done|]. apply negb_true_iff in Hs. by rewrite Hs.
  - cbn in Hw. apply andb_true_iff in Hw as [Hy Hw]. rewrite sapp_cons in Hn |- *.
    destruct n as [|n]; [cbn in Hn; lia|]. cbn [starAt matchAt rest]. rewrite Hy. cbn [rest String.length].
    rewrite (proj2 (Nat.ltb_lt _ _)) by lia.
    rewrite (IH Hw (Some y) Hk n); [done|]. cbn in Hn |- *. lia.
Qed.

Lemma substring_all w s : substring 0 (String.length w) (w ++ s) = w.
Proof.
  induction w as [|x w IH]; [by destruct s|]. rewrite sapp_cons. cbn. by rewrite IH.
Qed.

Lemma between_run o o' w s :
  between {| prev := o; rest := w ++ s |} {| prev := o'; rest := s |} = w.
Proof.
  unfold between. cbn [rest]. rewrite length_sapp.
  replace (_ + _ - _)%nat with (String.length w) by lia. apply substring_all.
Qed.

(** Bytes at which no match of [r] inside the text can begin. *)
Definition skips (r : re) (x : ascii) : Prop :=
  forall R y s c (k : pos -> capture -> option R),
    matchAt r {| prev := Some y; rest := String x s |} c k = None.

Lemma skips_class f x : f x = false -> skips (RClass f) x.
Proof. intros H R y s c k. cbn. by rewrite H. Qed.
Lemma skips_seq a b x : skips a x -> skips (RSeq a b) x.
Proof. intros H R y s c k. cbn. apply H. Qed.
Lemma skips_alt a b x : skips a x -> skips b x -> skips (RAlt a b) x.
Proof. intros Ha Hb R y s c k. cbn. by rewrite Ha, Hb. Qed.
Lemma skips_begin x : skips RBeginText x.
Proof. done. Qed.
#[export] Hint Resolve skips_class skips_seq skips_alt skips_begin : schemabot.

Lemma search_skip r f y w s :
  (forall x, f x = true -> skips r x) -> allBytes f w = true ->
  search r (Some y) (w ++ s) = search r (lastByte (Some y) w) s.
Proof.
  intros Hf. revert y. induction w as [|x w IH]; intros y Hw; [done|].
  cbn in Hw. apply andb_true_iff in Hw as [Hx Hw]. rewrite sapp_cons. cbn [search lastByte].
  rewrite (Hf x Hx). by apply IH.
Qed.

(** What follows a piece: nothing, or the space of the next one. *)
Definition delim (s : string) : Prop := s = "" \/ exists t, s = String " " t.

(** [r] has no match that begins inside the piece. *)
Definition passes (r : re) (w : string) : Prop :=
  forall y s, delim s -> exists z, search r (Some y) (w ++ s) = search r (Some z) s.

Lemma passes_empty r : passes r "".
Proof. intros y s _. by exists y. Qed.

(** A flag with its value: no match begins in the flag or at a byte of the value. *)
Lemma passes_value r f pre v :
  (forall x, f x = true -> skips r x) ->
  (forall y s, exists z, search r (Some y) (pre ++ v ++ s) = search r (Some z) (v ++ s)) ->
  allBytes f v = true -> passes r (pre ++ v).
Proof.
  intros Hf Hpre Hv y s _. rewrite sapp_assoc. destruct (Hpre y s) as [z ->].
  rewrite (search_skip r f z v s Hf Hv). destruct (lastByte_Some z v) as [u ->]. by exists u.
Qed.

Definition pieces (l : list string) : string := joinWith "" l.

Lemma pieces_cons w l : pieces (w :: l) = w ++ pieces l.
Proof. destruct l; [by rewrite sapp_empty_r|done]. Qed.

Lemma pieces_delim l : Forall delim l -> delim (pieces l).
Proof.
  induction 1 as [|w l Hw _ IH]; [by left|]. rewrite pieces_cons. destruct Hw as [->|[t ->]]; [done|].
  right. exists (t ++ pieces l). by rewrite sapp_cons.
Qed.

Lemma search_pieces r l l' y :
  Forall delim (l ++ l')%list -> Forall (passes r) l ->
  exists z, search r (Some y) (pieces (l ++ l')) = search r (Some z) (pieces l').
Proof.
  intros Hd Hp. revert y. induction Hp as [|w l Hw _ IH]; intros y; cbn [app]; [eauto|].
  inversion Hd; subst. rewrite pieces_cons.
  destruct (Hw y (pieces (l ++ l'))) as [z ->]; [by apply pieces_delim|]. by apply IH.
Qed.

(** No piece has a match. *)
Lemma pieces_none r l y :
  Forall delim l -> Forall (passes r) l -> (forall z, search r (Some z) "" = None) ->
  search r (Some y) (pieces l) = None.
Proof.
  intros Hd Hp He. destruct (search_pieces r l [] y) as [z Hz]; [by rewrite app_nil_r|done|].
  rewrite app_nil_r in Hz. rewrite Hz. apply (He z).
Qed.

(** The first piece with a match decides. *)
Lemma pieces_hit r l w l' y cap :
  Forall delim (l ++ w :: l')%list -> Forall (passes r) l ->
  (forall z s, delim s -> search r (Some z) (w ++ s) = Some cap) ->
  search r (Some y) (pieces (l ++ w :: l')) = Some cap.
Proof.
  intros Hd Hp Hw. destruct (search_pieces r l (w :: l') y) as [z ->]; [done|done|].
  rewrite pieces_cons. apply Hw, pieces_delim. apply Forall_app in Hd as [_ Hd]. by inversion Hd.
Qed.

(** ** Stepping the engine *)

Lemma foldByte_refl x : foldByte x x = true.
Proof. apply Ascii.eqb_refl. Qed.

(** A literal matches its own text. *)
Lemma fold_literal {R} w o s c (k : pos -> capture -> option R) :
  matchAt (RFold w) {| prev := o; rest := w ++ s |} c k = k {| prev := lastByte o w; rest := s |} c.
Proof.
  revert o. induction w as [|x w IH]; intros o; [done|].
  rewrite sapp_cons. cbn [RFold matchAt rest lastByte]. rewrite foldByte_refl. apply IH.
Qed.

Lemma plus_run {R} f x w s o c (k : pos -> capture -> option R) r :
  f x = true -> allBytes f w = true -> stops f s = true ->
  k {| prev := lastByte (Some x) w; rest := s |} c = Some r ->
  matchAt (RPlus (RClass f)) {| prev := o; rest := String x w ++ s |} c k = Some r.
Proof.
  intros Hx Hw Hs Hk. rewrite sapp_cons. unfold RPlus. cbn [matchAt rest]. rewrite Hx.
  by apply (star_run f w s).
Qed.

Lemma search_here r o s c :
  matchAt r {| prev := o; rest := s |} None (fun _ c => Some c) = Some c -> search r o s = Some c.
Proof. intros H. destruct s; cbn [search]; by rewrite H. Qed.

Lemma search_next r o x s :
  matchAt r {| prev := o; rest := String x s |} None (fun _ c => Some c) = None ->
  search r o (String x s) = search r (Some x) s.
Proof. intros H. cbn [search]. by rewrite H. Qed.

(** An expression that begins at a line start has no match inside a line. *)
Definition inLine (c : ascii) : bool := negb (Ascii.eqb c newline).

Lemma search_anchored a b y s :
  inLine y = true -> allBytes inLine s = true -> search (RSeq (RSeq RBeginLine a) b) (Some y) s = None.
Proof.
  revert y. induction s as [|x s IH]; intros y Hy Hs; cbn [search matchAt].
  - unfold beginLine. cbn [prev]. apply negb_true_iff in Hy. by rewrite Hy.
  - cbn in Hs. apply andb_true_iff in Hs as [Hx Hs].
    unfold beginLine. cbn [prev]. apply negb_true_iff in Hy. rewrite Hy. by apply IH.
Qed.

Lemma allBytes_app f a b : allBytes f (a ++ b) = allBytes f a && allBytes f b.
Proof.
  induction a as [|x a IH]; [done|]. rewrite sapp_cons. cbn. by rewrite IH, andb_assoc.
Qed.

Lemma allBytes_pieces f l : Forall (fun w => allBytes f w = true) l -> allBytes f (pieces l) = true.
Proof. induction 1 as [|w l Hw _ IH]; [done|]. by rewrite pieces_cons, allBytes_app, Hw, IH. Qed.

Lemma TrimRight_none p w : allBytes (fun c => negb (p c)) w = true -> TrimRightFunc p w = w.
Proof.
  induction w as [|x w IH]; [done|]. cbn. rewrite andb_true_iff. intros [Hx Hw]. rewrite (IH Hw).
  apply negb_true_iff in Hx. rewrite Hx. by destruct w.
Qed.

Lemma Lines_single w : w <> "" -> allBytes inLine w = true -> Lines w = [w].
Proof.
  induction w as [|x w IH]; [done|]. intros _. cbn. rewrite andb_true_iff. intros [Hx Hw].
  unfold inLine, newline in Hx. apply negb_true_iff in Hx. rewrite Hx.
  destruct w as [|y w]; [done|]. by rewrite IH.
Qed.
