(* ===== verification/Commands.v ===== *)
(** * Comment commands (pkg/webhook/commands.go, action/action.go)

    A pull request comment becomes a [CommandResult]: fenced and indented code is
    dropped, the first remaining line that begins with the word schemabot is the
    directive, the command word is looked up in the registry, and each flag is
    searched in the directive with an expression of its own.  The expressions are
    those of [NewCommandParser], written with the operators of [Regexp]. *)

From S2P Require Import Prelude GoStrings Regexp.

Local Open Scope string_scope.

Module action.

Definition Plan := "plan".
Definition Apply := "apply".
Definition ApplyConfirm := "apply-confirm".
Definition Unlock := "unlock".
Definition Stop := "stop".
Definition Cancel := "cancel".
Definition Start := "start".
Definition Release := "release".
Definition Cutover := "cutover".
Definition Volume := "volume".
Definition Revert := "revert".
Definition SkipRevert := "skip-revert".
Definition Rollback := "rollback".
Definition RollbackConfirm := "rollback-confirm".
Definition FixLint := "fix-lint".
Definition Help := "help".

End action.

(** [CommandSpec] *)
Record CommandSpec := {
  cs_Name : string;
  cs_RequiresEnv : bool;
  cs_HasApplyID : bool;
  cs_SupportsDB : bool;
  cs_SupportsAutoConfirm : bool;
  cs_SupportsSkipRevert : bool;
  cs_SupportsDeferCutover : bool;
  cs_SupportsAllowUnsafe : bool;
  cs_SupportsForce : bool;
  cs_SupportsVolumeLevel : bool;
}.

(** A command with no flags, and one that addresses an apply. *)
Definition bare (name : string) (env db force : bool) : CommandSpec :=
  {| cs_Name := name; cs_RequiresEnv := env; cs_HasApplyID := false; cs_SupportsDB := db;
     cs_SupportsAutoConfirm := false; cs_SupportsSkipRevert := false; cs_SupportsDeferCutover := false;
     cs_SupportsAllowUnsafe := false; cs_SupportsForce := force; cs_SupportsVolumeLevel := false |}.
Definition onApply (name : string) (volume : bool) : CommandSpec :=
  {| cs_Name := name; cs_RequiresEnv := true; cs_HasApplyID := true; cs_SupportsDB := false;
     cs_SupportsAutoConfirm := false; cs_SupportsSkipRevert := false; cs_SupportsDeferCutover := false;
     cs_SupportsAllowUnsafe := false; cs_SupportsForce := false; cs_SupportsVolumeLevel := volume |}.
Definition applies_ (name : string) (autoConfirm : bool) : CommandSpec :=
  {| cs_Name := name; cs_RequiresEnv := true; cs_HasApplyID := false; cs_SupportsDB := true;
     cs_SupportsAutoConfirm := autoConfirm; cs_SupportsSkipRevert := true; cs_SupportsDeferCutover := true;
     cs_SupportsAllowUnsafe := true; cs_SupportsForce := false; cs_SupportsVolumeLevel := false |}.

Definition commandSpecs : list CommandSpec :=
  [ bare action.Help false false false;
    bare action.Plan true true false;
    applies_ action.Apply true;
    applies_ action.ApplyConfirm false;
    bare action.Unlock false true true;
    bare action.FixLint false true false;
    onApply action.Stop false;
    onApply action.Cancel false;
    onApply action.Start false;
    onApply action.Release false;
    onApply action.Revert false;
    onApply action.SkipRevert false;
    onApply action.Cutover false;
    onApply action.Volume true;
    onApply action.Rollback false;
    {| cs_Name := action.RollbackConfirm; cs_RequiresEnv := true; cs_HasApplyID := false; cs_SupportsDB := false;
       cs_SupportsAutoConfirm := false; cs_SupportsSkipRevert := false; cs_SupportsDeferCutover := true;
       cs_SupportsAllowUnsafe := false; cs_SupportsForce := false; cs_SupportsVolumeLevel := false |} ].

(** [specByName[name]] *)
Definition specByName (name : string) : option CommandSpec :=
  List.find (fun s => cs_Name s == name) commandSpecs.

Definition commandSupportsDatabaseFlag (actionName : string) : bool :=
  match specByName actionName with Some spec => cs_SupportsDB spec | None => false end.

(** ** The expressions *)

(** Longer names first. *)
Definition longerName (a b : string) : Prop := (String.length b <= String.length a)%nat.
#[global] Instance longerName_dec a b : Decision (longerName a b).
Proof. unfold longerName. apply _. Defined.

Definition commandNames : list string := merge_sort longerName (map cs_Name commandSpecs).

Fixpoint RAny (l : list re) : re :=
  match l with
  | [] => RClass (fun _ => false)
  | [r] => r
  | r :: rest => RAlt r (RAny rest)
  end.

Definition commandNamePattern : re := RAny (map RFold commandNames).

(** [ {0,3}], [[ \t]+], [\s+] *)
Definition upTo3Spaces : re := ROpt (RSeq (RByte " ") (ROpt (RSeq (RByte " ") (ROpt (RByte " "))))).
Definition isSpaceTab (c : ascii) : bool := Ascii.eqb c " " || Ascii.eqb c "009".
Definition spacesTabs : re := RPlus (RClass isSpaceTab).
Definition blanks : re := RPlus (RClass isBlankClass).
Definition isNonBlank (c : ascii) : bool := negb (isBlankClass c).
Definition nonBlanks : re := RPlus (RClass isNonBlank).

Definition directiveStart : re := RSeq RBeginLine (RSeq upTo3Spaces (RFold "schemabot")).

Definition commandRegex : re :=
  RSeq directiveStart (RSeq spacesTabs (RSeq (RGroup commandNamePattern) RBoundary)).
Definition mentionRegex : re := RSeq directiveStart (RAlt spacesTabs REndLine).
Definition helpRegex : re := RSeq directiveStart (RSeq spacesTabs (RSeq (RFold action.Help) RBoundary)).

Definition isUnderDash (c : ascii) : bool := Ascii.eqb c "_" || Ascii.eqb c "-".
Definition isHex (c : ascii) : bool :=
  isDigit c || (let n := N_of_ascii (lower_ascii c) in ((97 <=? n) && (n <=? 102))%N).
Definition applyIDRegex : re :=
  RSeq RBoundary (RSeq (RGroup (RSeq (RFold "apply") (RSeq (RClass isUnderDash)
                                 (RPlus (RClass isHex))))) RBoundary).

Definition isEnvStart (c : ascii) : bool := negb (Ascii.eqb c "-") && isNonBlank c.
Definition environmentRegex : re :=
  RSeq (RFold "-e") (RSeq blanks (RGroup (RSeq (RClass isEnvStart) (RStar (RClass isNonBlank))))).

Definition isLowerDigit (c : ascii) : bool := isLower c || isDigit c.
Definition isLowerDigitUnder (c : ascii) : bool := isLowerDigit c || Ascii.eqb c "_".
Definition environmentNameRegex : re :=
  RSeq RBeginText (RSeq (RClass isLowerDigit) (RSeq (RStar (RClass isLowerDigitUnder))
    (RSeq (RStar (RSeq (RByte "-") (RPlus (RClass isLowerDigitUnder)))) REndText))).

Definition isAlnum (c : ascii) : bool := isLower c || isUpper c || isDigit c.
Definition isNameByte (c : ascii) : bool := isAlnum c || isUnderDash c.
Definition databaseRegex : re :=
  RSeq (RFold "-d") (RSeq blanks (RGroup (RPlus (RClass isNameByte)))).

Definition tenantRegex : re :=
  RSeq RBeginText (RSeq (RClass isAlnum) (RSeq (RStar (RClass isNameByte)) REndText)).

Definition flagStart : re := RAlt RBeginText (RClass isBlankClass).
Definition flagValue : re := ROpt (RSeq spacesTabs (RGroup nonBlanks)).
Definition tenantFlagRegex : re :=
  RSeq flagStart (RSeq (RAlt (RFold "--tenant") (RFold "-t")) flagValue).

Definition skipRevertRegex : re := RSeq (RFold "--skip-revert") RBoundary.
Definition deferCutoverRegex : re := RSeq (RFold "--defer-cutover") RBoundary.
Definition allowUnsafeRegex : re := RSeq (RFold "--allow-unsafe") RBoundary.
Definition forceRegex : re := RSeq (RFold "--force") RBoundary.
Definition autoConfirmRegex : re :=
  RAlt (RSeq (RFold "--yes") RBoundary) (RSeq (RFold "-y") RBoundary).
Definition volumeFlagRegex : re :=
  RSeq flagStart (RSeq (RAlt (RFold "--volume") (RFold "-v"))
    (RSeq flagValue (RAlt (RClass isBlankClass) REndText))).

(** ** The parser *)

(** [CommandResult] *)
Record CommandResult := {
  cmd_Action : string;
  cmd_CommentID : Z;
  cmd_ApplyID : string;
  cmd_Environment : string;
  cmd_Database : string;
  cmd_Tenant : string;
  cmd_TenantError : bool;
  cmd_SkipRevert : bool;
  cmd_DeferCutover : bool;
  cmd_AllowUnsafe : bool;
  cmd_Force : bool;
  cmd_AutoConfirm : bool;
  cmd_VolumeLevel : Z;
  cmd_VolumeLevelError : bool;
  cmd_Found : bool;
  cmd_IsHelp : bool;
  cmd_IsMention : bool;
  cmd_MissingEnv : bool;
  cmd_EnvironmentError : bool;
}.

(** A result with the fields every branch of the parser sets; the rest is zero. *)
Definition mentioned (actionName tenant : string) (tenantErr isHelp isMention : bool) : CommandResult :=
  {| cmd_Action := actionName; cmd_CommentID := 0; cmd_ApplyID := ""; cmd_Environment := ""; cmd_Database := "";
     cmd_Tenant := tenant; cmd_TenantError := tenantErr; cmd_SkipRevert := false; cmd_DeferCutover := false;
     cmd_AllowUnsafe := false; cmd_Force := false; cmd_AutoConfirm := false; cmd_VolumeLevel := 0;
     cmd_VolumeLevelError := false; cmd_Found := false; cmd_IsHelp := isHelp; cmd_IsMention := isMention;
     cmd_MissingEnv := false; cmd_EnvironmentError := false |}.

Definition extractVolumeLevel (body : string) : Z * bool :=
  match FindStringSubmatch volumeFlagRegex body with
  | None => (0%Z, false)
  | Some value =>
      if value == "" then (0%Z, true)
      else match ParseInt 32 value with Some level => (level, false) | None => (0%Z, true) end
  end.

Definition extractTenant (body : string) : string * bool :=
  match FindStringSubmatch tenantFlagRegex body with
  | None => ("", false)
  | Some value =>
      if (value == "") || negb (MatchString tenantRegex value) then ("", true) else (value, false)
  end.

Definition isMarkdownFence (line : string) : bool := HasPrefix line "```" || HasPrefix line "~~~".

(** [strings.TrimLeft(line, " ")] and how many bytes that drops. *)
Definition trimSpaces (line : string) : string := TrimLeftFunc (isByte " ") line.
Definition leadingSpaces (line : string) : nat := String.length line - String.length (trimSpaces line).

Definition opensFence (line : string) : bool :=
  (leadingSpaces line <=? 3)%nat && isMarkdownFence (trimSpaces line).
Definition isIndented (line : string) : bool :=
  HasPrefix line "    " || HasPrefix line (String "009" "").

(** The lines that are not code, from a state of being inside a fence on. *)
Fixpoint directiveLines (inFence : bool) (lines : list string) : list string :=
  match lines with
  | [] => []
  | line :: rest =>
      if opensFence line then directiveLines (negb inFence) rest
      else if inFence || isIndented line then directiveLines inFence rest
      else line :: directiveLines inFence rest
  end.

Definition markdownDirectiveText (body : string) : string :=
  joinWith "" (directiveLines false (Lines body)).

(** [strings.TrimRight(line, "\r\n")] *)
Definition isLineEnd (c : ascii) : bool := Ascii.eqb c "013" || Ascii.eqb c "010".
Definition trimLineEnd (line : string) : string := TrimRightFunc isLineEnd line.

Definition firstDirectiveLine (body : string) : option string :=
  List.find (MatchString mentionRegex) (map trimLineEnd (Lines body)).

(** What [-e] says: the environment, and whether its value is unusable. *)
Definition extractEnvironment (body : string) : string * bool :=
  match FindStringSubmatch environmentRegex body with
  | None => ("", false)
  | Some value =>
      let env := ToLower value in
      if MatchString environmentNameRegex env then (env, false) else ("", true)
  end.

Definition submatch (r : re) (body : string) : string := default "" (FindStringSubmatch r body).

Definition applySpec (spec : CommandSpec) (body tenant : string) (tenantErr : bool) : CommandResult :=
  let '(volumeLevel, volumeErr) :=
    if cs_SupportsVolumeLevel spec then extractVolumeLevel body else (0%Z, false) in
  let '(env, envErr) := extractEnvironment body in
  let found := envErr || negb (cs_RequiresEnv spec) || (env != "") in
  {| cmd_Action := cs_Name spec; cmd_CommentID := 0;
     cmd_ApplyID := if cs_HasApplyID spec then submatch applyIDRegex body else "";
     cmd_Environment := env;
     cmd_Database := if cs_SupportsDB spec then submatch databaseRegex body else "";
     cmd_Tenant := tenant; cmd_TenantError := tenantErr;
     cmd_SkipRevert := cs_SupportsSkipRevert spec && MatchString skipRevertRegex body;
     cmd_DeferCutover := cs_SupportsDeferCutover spec && MatchString deferCutoverRegex body;
     cmd_AllowUnsafe := cs_SupportsAllowUnsafe spec && MatchString allowUnsafeRegex body;
     cmd_Force := cs_SupportsForce spec && MatchString forceRegex body;
     cmd_AutoConfirm := cs_SupportsAutoConfirm spec && MatchString autoConfirmRegex body;
     cmd_VolumeLevel := volumeLevel; cmd_VolumeLevelError := volumeErr;
     cmd_Found := found; cmd_IsHelp := false; cmd_IsMention := true; cmd_MissingEnv := negb found;
     cmd_EnvironmentError := envErr |}.

Definition ParseCommand (body : string) : CommandResult :=
  match firstDirectiveLine (markdownDirectiveText body) with
  | None => mentioned "" "" false false false
  | Some directive =>
      let '(tenant, tenantErr) := extractTenant directive in
      if MatchString helpRegex directive then mentioned action.Help tenant tenantErr true true
      else match FindStringSubmatch commandRegex directive with
           | None => mentioned "" tenant tenantErr false true
           | Some name =>
               match specByName (ToLower name) with
               | None => mentioned "" tenant tenantErr false true
               | Some spec => applySpec spec directive tenant tenantErr
               end
           end
  end.

Definition HasAutoConfirmFlag (body : string) : bool := MatchString autoConfirmRegex body.
Definition HasDatabaseFlag (body : string) : bool := MatchString databaseRegex body.
Definition HasDeferCutoverFlag (body : string) : bool := MatchString deferCutoverRegex body.

(** ** Writing a command *)

(** What a user asks for; a flag the command does not have is not written. *)
Record request := {
  rq_spec : CommandSpec;
  rq_applyHex : string;
  rq_database : option string;
  rq_skipRevert : bool;
  rq_deferCutover : bool;
  rq_allowUnsafe : bool;
  rq_force : bool;
  rq_yes : bool;
  rq_volume : option Z;
  rq_tenant : option string;
  rq_environment : option string;
}.

Definition flagPiece (b : bool) (flag : string) : string := if b then flag else "".
Definition valuePiece (flag : string) (value : option string) : string :=
  match value with Some v => flag ++ v | None => "" end.
Definition gated {A} (b : bool) (v : option A) : option A := if b then v else None.

Definition applyPiece (q : request) : string :=
  valuePiece " apply_" (gated (cs_HasApplyID (rq_spec q)) (Some (rq_applyHex q))).
Definition dbPiece (q : request) : string :=
  valuePiece " -d " (gated (cs_SupportsDB (rq_spec q)) (rq_database q)).
Definition skipPiece (q : request) : string :=
  flagPiece (cs_SupportsSkipRevert (rq_spec q) && rq_skipRevert q) " --skip-revert".
Definition deferPiece (q : request) : string :=
  flagPiece (cs_SupportsDeferCutover (rq_spec q) && rq_deferCutover q) " --defer-cutover".
Definition unsafePiece (q : request) : string :=
  flagPiece (cs_SupportsAllowUnsafe (rq_spec q) && rq_allowUnsafe q) " --allow-unsafe".
Definition forcePiece (q : request) : string :=
  flagPiece (cs_SupportsForce (rq_spec q) && rq_force q) " --force".
Definition yesPiece (q : request) : string :=
  flagPiece (cs_SupportsAutoConfirm (rq_spec q) && rq_yes q) " -y".
Definition volumePiece (q : request) : string :=
  valuePiece " -v " (gated (cs_SupportsVolumeLevel (rq_spec q)) (option_map Itoa (rq_volume q))).
Definition tenantPiece (q : request) : string := valuePiece " -t " (rq_tenant q).
Definition envPiece (q : request) : string := valuePiece " -e " (rq_environment q).

Definition render (q : request) : string :=
  ("schemabot " ++ cs_Name (rq_spec q)) ++
  pieces [applyPiece q; dbPiece q; skipPiece q; deferPiece q; unsafePiece q; forcePiece q;
          yesPiece q; volumePiece q; tenantPiece q; envPiece q].

(** Names without dashes: those of environments and tenants begin with a letter or digit,
    those of environments are in lower case. *)
Definition nameOf (first later : ascii -> bool) (w : string) : Prop :=
  exists x w', w = String x w' /\ first x = true /\ allBytes later w' = true.

Record wfRequest (q : request) : Prop := {
  wr_spec : In (rq_spec q) commandSpecs;
  wr_help : cs_Name (rq_spec q) <> action.Help;
  wr_hex : nameOf isHex isHex (rq_applyHex q);
  wr_database : forall w, rq_database q = Some w -> nameOf isWord isWord w;
  wr_volume : forall n, rq_volume q = Some n -> (0 <= n < 2 ^ 31)%Z;
  wr_tenant : forall w, rq_tenant q = Some w -> nameOf isAlnum isWord w;
  wr_environment : forall w, rq_environment q = Some w -> nameOf isLowerDigit isLowerDigitUnder w;
}.

(** What the parser is to make of it. *)
Definition expected (q : request) : CommandResult :=
  let spec := rq_spec q in
  let env := default "" (rq_environment q) in
  let found := negb (cs_RequiresEnv spec) || (env != "") in
  {| cmd_Action := cs_Name spec; cmd_CommentID := 0;
     cmd_ApplyID := if cs_HasApplyID spec then "apply_" ++ rq_applyHex q else "";
     cmd_Environment := env;
     cmd_Database := default "" (gated (cs_SupportsDB spec) (rq_database q));
     cmd_Tenant := default "" (rq_tenant q); cmd_TenantError := false;
     cmd_SkipRevert := cs_SupportsSkipRevert spec && rq_skipRevert q;
     cmd_DeferCutover := cs_SupportsDeferCutover spec && rq_deferCutover q;
     cmd_AllowUnsafe := cs_SupportsAllowUnsafe spec && rq_allowUnsafe q;
     cmd_Force := cs_SupportsForce spec && rq_force q;
     cmd_AutoConfirm := cs_SupportsAutoConfirm spec && rq_yes q;
     cmd_VolumeLevel := default 0%Z (gated (cs_SupportsVolumeLevel spec) (rq_volume q));
     cmd_VolumeLevelError := false;
     cmd_Found := found; cmd_IsHelp := false; cmd_IsMention := true; cmd_MissingEnv := negb found;
     cmd_EnvironmentError := false |}.

(** ** Lemmas: bytes of names *)

(** A fact about every byte of a class, by looking at all of them. *)
Ltac every_byte x := destruct x as [[] [] [] [] [] [] [] []]; vm_compute; congruence.

Lemma word_not_dash x : isWord x = true -> foldByte "-" x = false.
Proof. every_byte x. Qed.
Lemma word_not_blank x : isWord x = true -> isBlankClass x = false.
Proof. every_byte x. Qed.
Lemma word_nonBlank x : isWord x = true -> isNonBlank x = true.
Proof. every_byte x. Qed.
Lemma word_nameByte x : isWord x = true -> isNameByte x = true.
Proof. every_byte x. Qed.
Lemma word_envStart x : isWord x = true -> isEnvStart x = true.
Proof. every_byte x. Qed.
Lemma word_inLine x : isWord x = true -> inLine x = true.
Proof. every_byte x. Qed.
Lemma word_not_lineEnd x : isWord x = true -> negb (isLineEnd x) = true.
Proof. every_byte x. Qed.
Lemma hex_word x : isHex x = true -> isWord x = true.
Proof. every_byte x. Qed.
Lemma alnum_word x : isAlnum x = true -> isWord x = true.
Proof. every_byte x. Qed.
Lemma digit_word x : isDigit x = true -> isWord x = true.
Proof. every_byte x. Qed.
Lemma lowerDigit_word x : isLowerDigit x = true -> isWord x = true.
Proof. every_byte x. Qed.
Lemma lowerDigitUnder_word x : isLowerDigitUnder x = true -> isWord x = true.
Proof. every_byte x. Qed.
Lemma lowerDigitUnder_lower x : isLowerDigitUnder x = true -> lower_ascii x = x.
Proof. every_byte x. Qed.
Lemma lowerDigit_under x : isLowerDigit x = true -> isLowerDigitUnder x = true.
Proof. every_byte x. Qed.

Lemma nameOf_impl (f g f' g' : ascii -> bool) w :
  (forall x, f x = true -> f' x = true) -> (forall x, g x = true -> g' x = true) ->
  nameOf f g w -> nameOf f' g' w.
Proof.
  intros Hf Hg (x & w' & -> & Hx & Hw). exists x, w'.
  split; [done|]. split; [by apply Hf|]. exact (allBytes_impl _ _ w' Hg Hw).
Qed.

Lemma nameOf_all f g w : (forall x, f x = true -> g x = true) -> nameOf f g w -> allBytes g w = true.
Proof. intros H (x & w' & -> & Hx & Hw). cbn. by rewrite (H x Hx), Hw. Qed.

Lemma ToLower_lower w : allBytes isLowerDigitUnder w = true -> ToLower w = w.
Proof.
  induction w as [|x w IH]; [done|]. cbn. rewrite andb_true_iff. intros [Hx Hw].
  unfold ToLower in *. cbn. by rewrite (lowerDigitUnder_lower x Hx), (IH Hw).
Qed.

Lemma digits_bytes fuel n acc : allBytes isDigit acc = true -> allBytes isDigit (digits fuel n acc) = true.
Proof.
  assert (Hd : forall m, isDigit (digit (m mod 10)) = true).
  { intros m. unfold isDigit, digit. assert (Hm : (m mod 10 < 10)%N) by (apply N.mod_lt; discriminate).
    remember (m mod 10)%N as d eqn:Ed. clear Ed. rewrite N_ascii_embedding by lia.
    rewrite andb_true_iff, !N.leb_le. lia. }
  revert n acc. induction fuel as [|fuel IH]; intros n acc H; [done|]. cbn [digits].
  destruct (n <? 10)%N; [|apply IH]; cbn; by rewrite Hd.
Qed.

Lemma Itoa_name n : (0 <= n)%Z -> nameOf isWord isWord (Itoa n).
Proof.
  intros Hn. pose proof (Itoa_nonempty n) as Hne. revert Hne. unfold Itoa.
  rewrite (proj2 (Z.ltb_ge n 0) Hn).
  pose proof (digits_bytes (S (N.to_nat (N.size (Z.abs_N n)))) (Z.abs_N n) "" eq_refl) as Hd.
  fold (formatN (Z.abs_N n)) in Hd. intros Hne. destruct (formatN _) as [|x w]; [done|].
  cbn in Hd. apply andb_true_iff in Hd as [Hx Hw]. exists x, w.
  split; [done|]. split; [by apply digit_word|]. exact (allBytes_impl _ _ w digit_word Hw).
Qed.

(** ** Lemmas: what the expressions find in a written command *)

(** No match begins at a byte of a name. *)
Lemma word_skips r :
  In r [databaseRegex; skipRevertRegex; deferCutoverRegex; allowUnsafeRegex; forceRegex;
        autoConfirmRegex; volumeFlagRegex; tenantFlagRegex; environmentRegex] ->
  forall x, isWord x = true -> skips r x.
Proof.
  intros Hr x Hx. pose proof (word_not_dash x Hx) as Hd. pose proof (word_not_blank x Hx) as Hb.
  repeat destruct Hr as [<-|Hr]; [..|destruct Hr]; intros R y s c k;
    cbn -[foldByte isBlankClass]; by rewrite ?Hd, ?Hb.
Qed.

(** A piece of fixed text. *)
Ltac fixed_piece := intros y s _; rewrite ?sapp_cons, ?sapp_nil; eexists; cbn; reflexivity.

Definition flagExpressions : list (re * string) :=
  [(skipRevertRegex, " --skip-revert"); (deferCutoverRegex, " --defer-cutover");
   (allowUnsafeRegex, " --allow-unsafe"); (forceRegex, " --force"); (autoConfirmRegex, " -y")].

Definition valueExpressions : list (re * string) :=
  [(databaseRegex, " -d "); (volumeFlagRegex, " -v "); (tenantFlagRegex, " -t ");
   (environmentRegex, " -e ")].

(** The expression of a flag finds nothing in the other flags. *)
Lemma flag_passes r w r' w' :
  In (r, w) (flagExpressions ++ valueExpressions) -> In (r', w') flagExpressions -> w <> w' ->
  passes r w'.
Proof.
  intros H H' Hne. cbn in H, H'.
  repeat destruct H' as [[= <- <-]|H']; [..|destruct H'];
    repeat destruct H as [[= <- <-]|H]; try (destruct H); try done; fixed_piece.
Qed.

(** Evaluating [foldByte] where both bytes are known. *)
Ltac known_bytes := repeat match goal with
  | |- context [foldByte ?a ?b] =>
      let v := eval vm_compute in (foldByte a b) in
      match v with
      | true => change (foldByte a b) with true
      | false => change (foldByte a b) with false
      end; cbn -[foldByte]
  end.

(** Nor in the other flags with their values, nor in an apply identifier. *)
Lemma value_passes r w w' v :
  In (r, w) (flagExpressions ++ valueExpressions) ->
  In w' [" apply_"; " -d "; " -v "; " -t "; " -e "] -> w <> w' -> nameOf isWord isWord v ->
  passes r (w' ++ v).
Proof.
  intros H H' Hne Hv. pose proof (nameOf_all _ _ v (fun _ h => h) Hv) as Hall.
  destruct Hv as (x & v' & -> & Hx & Hv').
  apply (passes_value r isWord); [|intros y s|done].
  - apply word_skips. cbn in H |- *. intuition congruence.
  - pose proof (word_not_dash x Hx) as Hd. rewrite sapp_cons.
    cbn in H, H'.
    repeat destruct H' as [<-|H']; [..|destruct H'];
      repeat destruct H as [[= <- <-]|H]; try (destruct H); try done;
      rewrite ?sapp_cons, ?sapp_nil; exists " "%char;
      cbn -[foldByte]; known_bytes; rewrite ?Hd; reflexivity.
Qed.

Lemma delim_stops f s : f " "%char = false -> delim s -> stops f s = true.
Proof. intros Hf [->|[t ->]]; [done|]. cbn. by rewrite Hf. Qed.

(** A flag is found where it is written. *)
Lemma flag_hit r w z s :
  In (r, w) flagExpressions -> delim s -> search r (Some z) (w ++ s) = Some None.
Proof.
  intros H Hs. cbn in H.
  repeat destruct H as [[= <- <-]|H]; [..|destruct H];
    rewrite ?sapp_cons, ?sapp_nil; destruct Hs as [->|[t ->]]; reflexivity.
Qed.

(** A value is found after its flag. *)
Lemma database_hit v z s :
  nameOf isWord isWord v -> delim s ->
  search databaseRegex (Some z) ((" -d " ++ v) ++ s) = Some (Some v).
Proof.
  intros (x & v' & -> & Hx & Hv) Hs. rewrite sapp_assoc, 2!sapp_cons.
  rewrite search_next by done. apply search_here. unfold databaseRegex. cbn [matchAt].
  change (String "-" ("d " ++ String x v' ++ s)) with ("-d" ++ (" " ++ (String x v' ++ s))).
  rewrite fold_literal.
  apply (plus_run isBlankClass " " ""); [done|done| |].
  { rewrite sapp_cons. cbn. by rewrite (word_not_blank x Hx). }
  apply (plus_run isNameByte x v' s); [by apply word_nameByte| |by apply delim_stops|].
  - exact (allBytes_impl _ _ v' word_nameByte Hv).
  - by rewrite between_run.
Qed.

Lemma environment_hit v z s :
  nameOf isWord isWord v -> delim s ->
  search environmentRegex (Some z) ((" -e " ++ v) ++ s) = Some (Some v).
Proof.
  intros (x & v' & -> & Hx & Hv) Hs. rewrite sapp_assoc, 2!sapp_cons.
  rewrite search_next by done. apply search_here. unfold environmentRegex. cbn [matchAt].
  change (String "-" ("e " ++ String x v' ++ s)) with ("-e" ++ (" " ++ (String x v' ++ s))).
  rewrite fold_literal.
  apply (plus_run isBlankClass " " ""); [done|done| |].
  { rewrite sapp_cons. cbn. by rewrite (word_not_blank x Hx). }
  rewrite sapp_cons. cbn [rest]. rewrite (word_envStart x Hx).
  apply (star_run isNonBlank v' s); [|by apply delim_stops|].
  - exact (allBytes_impl _ _ v' word_nonBlank Hv).
  - rewrite <- sapp_cons. by rewrite between_run.
Qed.

(** The value after a flag that may stand alone, then [k]. *)
Lemma flagValue_run {R} x v' s o c (k : pos -> capture -> option R) r :
  isWord x = true -> allBytes isWord v' = true -> delim s ->
  k {| prev := lastByte (Some x) v'; rest := s |} (Some (String x v')) = Some r ->
  matchAt flagValue {| prev := o; rest := " " ++ String x v' ++ s |} c k = Some r.
Proof.
  intros Hx Hv Hs Hk. unfold flagValue, ROpt. cbn [matchAt].
  match goal with |- match ?m with _ => _ end = _ => assert (m = Some r) as ->; [|done] end.
  apply (plus_run isSpaceTab " " ""); [done|done| |].
  { rewrite sapp_cons. cbn. clear - Hx. revert Hx. every_byte x. }
  apply (plus_run isNonBlank x v' s); [by apply word_nonBlank| |by apply delim_stops|].
  - exact (allBytes_impl _ _ v' word_nonBlank Hv).
  - by rewrite between_run.
Qed.

Lemma tenant_hit v z s :
  nameOf isWord isWord v -> delim s ->
  search tenantFlagRegex (Some z) ((" -t " ++ v) ++ s) = Some (Some v).
Proof.
  intros (x & v' & -> & Hx & Hv) Hs. rewrite sapp_assoc.
  apply search_here. rewrite !sapp_cons, sapp_nil. unfold tenantFlagRegex.
  cbn -[flagValue append]. rewrite <- sapp_cons.
  exact (flagValue_run x v' s _ None _ _ Hx Hv Hs eq_refl).
Qed.

Lemma volume_hit v z s :
  nameOf isWord isWord v -> delim s ->
  search volumeFlagRegex (Some z) ((" -v " ++ v) ++ s) = Some (Some v).
Proof.
  intros (x & v' & -> & Hx & Hv) Hs. rewrite sapp_assoc.
  apply search_here. rewrite !sapp_cons, sapp_nil. unfold volumeFlagRegex.
  cbn -[flagValue append]. rewrite <- sapp_cons.
  apply (flagValue_run x v' s _ None _ _ Hx Hv Hs). by destruct Hs as [->|[t ->]].
Qed.

Lemma apply_hit v y s :
  nameOf isHex isHex v -> delim s -> isWord y = true ->
  search applyIDRegex (Some y) ((" apply_" ++ v) ++ s) = Some (Some ("apply_" ++ v)).
Proof.
  intros (x & v' & -> & Hx & Hv) Hs Hy. rewrite sapp_assoc, sapp_cons.
  rewrite search_next. 2: { unfold applyIDRegex. cbn [matchAt]. by destruct (boundary _). }
  apply search_here.
  change ("apply_" ++ String x v' ++ s) with ("apply" ++ String "_" (String x v' ++ s)).
  unfold applyIDRegex. cbn [matchAt].
  assert (boundary {| prev := Some " "%char; rest := "apply" ++ String "_" (String x v' ++ s) |} = true)
    as -> by done.
  rewrite fold_literal. cbn [rest]. change (isUnderDash "_") with true. cbn match.
  apply (plus_run isHex x v' s); [done|done|by apply delim_stops|].
  assert (Hw : exists u, lastByte (Some x) v' = Some u /\ isWord u = true).
  { clear - Hx Hv. revert x Hx. induction v' as [|u v' IH]; intros x Hx; cbn; [eauto using hex_word|].
    cbn in Hv. apply andb_true_iff in Hv as [Hu Hv]. by apply IH. }
  destruct Hw as (u & Hu & Hw).
  assert (boundary {| prev := lastByte (Some x) v'; rest := s |} = true) as ->.
  { rewrite Hu. unfold boundary. cbn [prev wordAt]. rewrite Hw. by destruct Hs as [->|[t ->]]. }
  f_equal. f_equal. change ("apply" ++ String "_" (String x v' ++ s)) with ("apply_" ++ String x v' ++ s).
  rewrite <- sapp_assoc. apply between_run.
Qed.

(** ** Lemmas: a written command as a whole *)

(** The pieces of a command with the flags they belong to. *)
Definition texts (q : request) : list (string * string) :=
  [(" apply_", applyPiece q); (" -d ", dbPiece q); (" --skip-revert", skipPiece q);
   (" --defer-cutover", deferPiece q); (" --allow-unsafe", unsafePiece q); (" --force", forcePiece q);
   (" -y", yesPiece q); (" -v ", volumePiece q); (" -t ", tenantPiece q); (" -e ", envPiece q)].

Lemma render_texts q :
  render q = ("schemabot " ++ cs_Name (rq_spec q)) ++ pieces (map snd (texts q)).
Proof. done. Qed.

(** A piece is absent, a flag, or a flag with a name. *)
Definition pieceShape (w t : string) : Prop :=
  t = "" \/ (t = w /\ In w (map snd flagExpressions)) \/
  (exists v, t = w ++ v /\ nameOf isWord isWord v /\
             In w [" apply_"; " -d "; " -v "; " -t "; " -e "]).

Lemma flag_shape b w : In w (map snd flagExpressions) -> pieceShape w (flagPiece b w).
Proof. intros H. destruct b; [right; left|left]; done. Qed.

Lemma value_shape g w (o : option string) :
  (forall v, o = Some v -> nameOf isWord isWord v) ->
  In w [" apply_"; " -d "; " -v "; " -t "; " -e "] -> pieceShape w (valuePiece w (gated g o)).
Proof. intros Ho Hw. destruct g, o as [v|]; try (by left). right. right. exists v. auto. Qed.

Lemma texts_shape q w t : wfRequest q -> In (w, t) (texts q) -> pieceShape w t.
Proof.
  intros Hq H.
  destruct Hq as [_ _ Hh Hd Hv Ht He].
  assert (Hcast : forall (f g : ascii -> bool) (o : option string),
    (forall x, f x = true -> isWord x = true) -> (forall x, g x = true -> isWord x = true) ->
    (forall v, o = Some v -> nameOf f g v) -> forall v, o = Some v -> nameOf isWord isWord v).
  { intros f g o Hf Hg H0 v Hv'. exact (nameOf_impl f g _ _ v Hf Hg (H0 v Hv')). }
  cbn [texts In] in H. repeat destruct H as [[= <- <-]|H]; [..|destruct H].
  - apply value_shape; [|cbn; tauto]. intros v [= <-].
    exact (nameOf_impl _ _ _ _ _ hex_word hex_word Hh).
  - apply value_shape; [exact Hd|cbn; tauto].
  - apply flag_shape. cbn; tauto.
  - apply flag_shape. cbn; tauto.
  - apply flag_shape. cbn; tauto.
  - apply flag_shape. cbn; tauto.
  - apply flag_shape. cbn; tauto.
  - apply value_shape; [|cbn; tauto]. intros v. destruct (rq_volume q) as [n|]; [|done].
    intros [= <-]. apply Itoa_name. by apply Hv.
  - apply (value_shape true); [|cbn; tauto]. exact (Hcast _ _ _ alnum_word (fun _ h => h) Ht).
  - apply (value_shape true); [|cbn; tauto].
    exact (Hcast _ _ _ lowerDigit_word lowerDigitUnder_word He).
Qed.

Lemma texts_delim q : wfRequest q -> Forall delim (map snd (texts q)).
Proof.
  intros Hq. apply Forall_forall. intros t Ht. apply list_elem_of_In, in_map_iff in Ht as ([w t'] & <- & Ht).
  destruct (texts_shape q w t' Hq Ht) as [->|[[-> Hw]|(v & -> & _ & Hw)]]; cbn [snd].
  - by left.
  - right. cbn in Hw. repeat destruct Hw as [<-|Hw]; [..|destruct Hw]; eauto.
  - right. cbn in Hw. repeat destruct Hw as [<-|Hw]; [..|destruct Hw]; rewrite sapp_cons; eauto.
Qed.

Lemma texts_pass q r w w' t :
  wfRequest q -> In (r, w) (flagExpressions ++ valueExpressions) -> In (w', t) (texts q) -> w <> w' ->
  passes r t.
Proof.
  intros Hq Hr Ht Hne. destruct (texts_shape q w' t Hq Ht) as [->|[[-> Hw]|(v & -> & Hv & Hw)]].
  - apply passes_empty.
  - apply in_map_iff in Hw as ([r' w''] & Hw & Hin). cbn in Hw. subst w''.
    exact (flag_passes r w r' w' Hr Hin Hne).
  - exact (value_passes r w w' v Hr Hw Hne Hv).
Qed.

(** The command word has no flag in it. *)
Lemma prefix_passes r w spec s :
  In (r, w) (flagExpressions ++ valueExpressions) -> In spec commandSpecs ->
  exists z, search r None (("schemabot " ++ cs_Name spec) ++ s) = search r (Some z) s.
Proof.
  intros Hr Hs. cbn in Hr. unfold commandSpecs in Hs.
  repeat destruct Hs as [<-|Hs]; [..|destruct Hs]; cbn [cs_Name bare onApply applies_];
    repeat destruct Hr as [[= <- <-]|Hr]; try (destruct Hr);
    rewrite ?sapp_cons, ?sapp_nil; rewrite ?sapp_cons, ?sapp_nil; eexists; cbn; reflexivity.
Qed.

(** An expression sees its own piece only. *)
Lemma own_piece q r w t :
  wfRequest q -> In (r, w) (flagExpressions ++ valueExpressions) -> In (w, t) (texts q) ->
  (t = "" -> search r None (render q) = None) /\
  (forall cap, (forall z s, delim s -> search r (Some z) (t ++ s) = Some cap) ->
               search r None (render q) = Some cap).
Proof.
  intros Hq Hr Ht. rewrite render_texts.
  destruct (prefix_passes r w (rq_spec q) (pieces (map snd (texts q))) Hr (wr_spec q Hq)) as [z ->].
  pose proof (texts_delim q Hq) as Hd.
  assert (Hother : forall w' t', In (w', t') (texts q) -> w' <> w -> passes r t').
  { intros w' t' Hin Hne. exact (texts_pass q r w w' t' Hq Hr Hin (not_eq_sym Hne)). }
  assert (Hnd : NoDup (map fst (texts q))).
  { cbn. repeat constructor; set_solver. }
  apply in_split in Ht as (l1 & l2 & El). rewrite El in Hother, Hd, Hnd |- *.
  rewrite map_app in Hd, Hnd |- *. cbn [map fst snd] in Hd, Hnd |- *.
  assert (Hl : forall l, (forall p, In p l -> In p (l1 ++ (w, t) :: l2)) -> ~ In w (map fst l) ->
            Forall (passes r) (map snd l)).
  { intros l Hsub Hw. apply Forall_forall. intros t' Ht'. apply list_elem_of_In, in_map_iff in Ht' as ([w' t''] & <- & Hin).
    apply (Hother w'); [by apply Hsub|]. intros ->. apply Hw. apply in_map_iff. by exists (w, t''). }
  apply NoDup_app in Hnd as (_ & Hn1 & Hn2). apply NoDup_cons in Hn2 as [Hn2 _].
  rewrite list_elem_of_In in Hn2.
  assert (H1 : Forall (passes r) (map snd l1)).
  { apply Hl; [intros p Hp; apply in_app_iff; by left|]. intros Hw.
    apply (Hn1 w); [by apply list_elem_of_In|apply list_elem_of_here]. }
  assert (H2 : Forall (passes r) (map snd l2)).
  { apply Hl; [intros p Hp; apply in_app_iff; right; by right|done]. }
  split.
  - intros ->. apply pieces_none; [done| |].
    + apply Forall_app. split; [done|]. constructor; [apply passes_empty|done].
    + intros y. cbn in Hr. repeat destruct Hr as [[= <- <-]|Hr]; [..|destruct Hr]; done.
  - intros cap Hcap. by apply pieces_hit.
Qed.

Lemma command_flag_read q r w b :
  wfRequest q -> In (r, w) flagExpressions -> In (w, flagPiece b w) (texts q) ->
  MatchString r (render q) = b.
Proof.
  intros Hq Hr Ht.
  destruct (own_piece q r w _ Hq (proj2 (in_app_iff _ _ _) (or_introl Hr)) Ht) as [Hnone Hsome].
  unfold MatchString. destruct b; [|by rewrite Hnone].
  by rewrite (Hsome None (fun z s Hs => flag_hit r w z s Hr Hs)).
Qed.

Lemma value_read q r w o :
  wfRequest q -> In (r, w) valueExpressions -> In (w, valuePiece w o) (texts q) ->
  FindStringSubmatch r (render q) = o.
Proof.
  intros Hq Hr Ht.
  pose proof (texts_shape q w _ Hq Ht) as Hshape.
  destruct (own_piece q r w _ Hq (proj2 (in_app_iff _ _ _) (or_intror Hr)) Ht) as [Hnone Hsome].
  unfold FindStringSubmatch. destruct o as [v|]; [|by rewrite Hnone]. cbn [valuePiece] in Hsome, Hshape.
  assert (Hv : nameOf isWord isWord v).
  { cbn in Hr. destruct Hshape as [H|[[_ H]|(v' & H & Hv & _)]].
    - repeat destruct Hr as [[= <- <-]|Hr]; [..|destruct Hr]; done.
    - cbn in H. repeat destruct Hr as [[= <- <-]|Hr]; try (destruct Hr); intuition congruence.
    - assert (v = v') as ->; [|done]. clear - H. revert H. induction w as [|x w IH]; [done|].
      rewrite !sapp_cons. intros [= H]. by apply IH. }
  rewrite (Hsome (Some v)); [done|]. intros z s Hs. cbn in Hr.
  repeat destruct Hr as [[= <- <-]|Hr]; [..|destruct Hr].
  - by apply database_hit.
  - by apply volume_hit.
  - by apply tenant_hit.
  - by apply environment_hit.
Qed.

Lemma apply_read q :
  wfRequest q -> cs_HasApplyID (rq_spec q) = true ->
  FindStringSubmatch applyIDRegex (render q) = Some ("apply_" ++ rq_applyHex q).
Proof.
  intros Hq Hid. pose proof (texts_delim q Hq) as Hd. rewrite render_texts.
  assert (Hpre : exists z, isWord z = true /\ forall s,
    search applyIDRegex None (("schemabot " ++ cs_Name (rq_spec q)) ++ s) = search applyIDRegex (Some z) s).
  { pose proof (wr_spec q Hq) as Hs. clear Hd. revert Hid. unfold commandSpecs in Hs.
    repeat destruct Hs as [<-|Hs]; [..|destruct Hs]; intros Hid; try discriminate Hid;
      eexists; (split; [|intros s; cbn [cs_Name onApply]; rewrite ?sapp_cons, ?sapp_nil;
                         rewrite ?sapp_cons, ?sapp_nil; cbn; reflexivity]); reflexivity. }
  destruct Hpre as (z & Hz & Hpre). unfold FindStringSubmatch. rewrite Hpre.
  cbn [texts map snd] in Hd |- *. rewrite pieces_cons. inversion Hd as [|? ? _ Hrest]; subst.
  unfold applyPiece. rewrite Hid. cbn [gated valuePiece].
  by rewrite (apply_hit _ z _ (wr_hex q Hq) (pieces_delim _ Hrest) Hz).
Qed.

(** Neither a line break nor any other control byte is written. *)
Lemma render_bytes (f : ascii -> bool) q :
  wfRequest q -> (forall x, isWord x = true -> f x = true) -> f " "%char = true -> f "-"%char = true ->
  allBytes f (render q) = true.
Proof.
  intros Hq Hf Hs Hd. rewrite render_texts, allBytes_app, andb_true_iff. split.
  - pose proof (wr_spec q Hq) as H. unfold commandSpecs in H.
    repeat destruct H as [<-|H]; [..|destruct H]; cbn [cs_Name bare onApply applies_];
      rewrite ?sapp_cons, ?sapp_nil; cbn [allBytes action.Plan action.Apply action.ApplyConfirm
        action.Unlock action.Stop action.Cancel action.Start action.Release action.Cutover
        action.Volume action.Revert action.SkipRevert action.Rollback action.RollbackConfirm
        action.FixLint action.Help]; rewrite ?Hs, ?Hd, ?Hf by reflexivity; done.
  - apply allBytes_pieces, Forall_forall. intros t Ht.
    apply list_elem_of_In, in_map_iff in Ht as ([w t'] & <- & Ht). cbn [snd].
    destruct (texts_shape q w t' Hq Ht) as [->|[[-> Hw]|(v & -> & Hv & Hw)]]; [done| |].
    + cbn in Hw. repeat destruct Hw as [<-|Hw]; [..|destruct Hw]; cbn;
        rewrite ?Hs, ?Hd, ?Hf by reflexivity; done.
    + rewrite allBytes_app, andb_true_iff. split.
      * cbn in Hw. repeat destruct Hw as [<-|Hw]; [..|destruct Hw]; cbn;
          rewrite ?Hs, ?Hd, ?Hf by reflexivity; done.
      * exact (allBytes_impl _ _ v Hf (nameOf_all _ _ v (fun _ h => h) Hv)).
Qed.

(** The text is one line, and it is the directive. *)
Lemma render_directive q :
  wfRequest q -> firstDirectiveLine (markdownDirectiveText (render q)) = Some (render q).
Proof.
  intros Hq.
  pose proof (render_bytes inLine q Hq word_inLine eq_refl eq_refl) as Hl.
  pose proof (render_bytes (fun c => negb (isLineEnd c)) q Hq word_not_lineEnd eq_refl eq_refl) as He.
  assert (Hhead : exists t, render q = String "s" (String "c" (String "h" (String "e" (String "m"
    (String "a" (String "b" (String "o" (String "t" (String " " t)))))))))).
  { rewrite render_texts, sapp_assoc. rewrite !sapp_cons, sapp_nil. by eexists. }
  assert (Hne : render q <> "") by (destruct Hhead as [t ->]; done).
  unfold markdownDirectiveText. rewrite (Lines_single _ Hne Hl).
  assert (directiveLines false [render q] = [render q]) as ->.
  { destruct Hhead as [t ->]. cbn [directiveLines]. unfold opensFence. by rewrite andb_false_r. }
  cbn [joinWith]. unfold firstDirectiveLine. rewrite (Lines_single _ Hne Hl). cbn [map List.find].
  unfold trimLineEnd. rewrite (TrimRight_none isLineEnd _ He).
  assert (MatchString mentionRegex (render q) = true) as ->; [|done].
  destruct Hhead as [t ->]. unfold MatchString. cbn [search].
  assert (Hm : is_Some (matchAt mentionRegex {| prev := None; rest := String "s" (String "c" (String "h"
    (String "e" (String "m" (String "a" (String "b" (String "o" (String "t" (String " " t))))))))) |} None
    (fun _ c => Some c))).
  { apply (matchAt_complete _ _ _ _ {| prev := Some " "%char; rest := t |}); [|eauto].
    eapply MSeq; [eapply MSeq; [by apply MBeginLine|]; eapply MSeq; [apply MAltR, MEmpty|]|].
    - cbn [RFold]. repeat (eapply MSeq; [by apply MClass|]). apply MEmpty.
    - apply MAltL. eapply MSeq; [by apply MClass|apply MStarNil]. }
  destruct Hm as [c ->]. done.
Qed.

(** The command word is recognised, and only it. *)
Lemma command_word spec s :
  In spec commandSpecs -> cs_Name spec <> action.Help -> delim s -> allBytes inLine s = true ->
  MatchString helpRegex (("schemabot " ++ cs_Name spec) ++ s) = false /\
  FindStringSubmatch commandRegex (("schemabot " ++ cs_Name spec) ++ s) = Some (cs_Name spec).
Proof.
  intros Hs Hh Hd Hl. unfold MatchString, FindStringSubmatch, commandSpecs in *.
  repeat destruct Hs as [<-|Hs]; [..|destruct Hs]; cbn [cs_Name bare onApply applies_] in Hh |- *;
    try done; rewrite sapp_assoc; (split;
    [ rewrite sapp_cons, search_next by reflexivity; unfold helpRegex, directiveStart;
      rewrite search_anchored; [done|done|rewrite !allBytes_app, Hl; reflexivity]
    | match goal with |- context [search commandRegex None ("schemabot " ++ ?w ++ s)] =>
        rewrite (search_here commandRegex None ("schemabot " ++ w ++ s)
          (Some (between {| prev := Some " "%char; rest := w ++ s |} {| prev := None; rest := s |})))
      end; [by rewrite between_run|];
      destruct Hd as [->|[t ->]]; [vm_compute; reflexivity|reflexivity] ]).
Qed.

Lemma name_matches first later w :
  (forall x, first x = true -> isAlnum x = true) -> (forall x, later x = true -> isNameByte x = true) ->
  nameOf first later w -> MatchString tenantRegex w = true.
Proof.
  intros Hf Hg (x & w' & -> & Hx & Hw). unfold MatchString.
  rewrite (search_here tenantRegex None _ None); [done|]. unfold tenantRegex.
  cbn -[isAlnum isNameByte starAt]. rewrite (Hf x Hx).
  pose proof (star_run isNameByte w' "" (Some x) None
    (fun q c => if endText q then Some c else None) None) as H.
  rewrite sapp_empty_r in H. apply H; [exact (allBytes_impl _ _ w' Hg Hw)|done|done].
Qed.

Lemma environment_matches w :
  nameOf isLowerDigit isLowerDigitUnder w -> MatchString environmentNameRegex w = true.
Proof.
  intros (x & w' & -> & Hx & Hw). unfold MatchString.
  rewrite (search_here environmentNameRegex None _ None); [done|]. unfold environmentNameRegex.
  cbn [matchAt beginText prev rest]. rewrite Hx.
  pose proof (star_run isLowerDigitUnder w' "" (Some x) None (fun q c =>
    matchAt (RSeq (RStar (RSeq (RByte "-") (RPlus (RClass isLowerDigitUnder)))) REndText) q c
      (fun _ c => Some c)) None) as H.
  rewrite sapp_empty_r in H. apply H; done.
Qed.

Lemma tenant_read q : wfRequest q -> extractTenant (render q) = (default "" (rq_tenant q), false).
Proof.
  intros Hq. unfold extractTenant.
  rewrite (value_read q tenantFlagRegex " -t " (rq_tenant q) Hq) by (cbn; tauto).
  destruct (rq_tenant q) as [w|] eqn:E; [|done]. pose proof (wr_tenant q Hq w E) as Hw.
  rewrite (name_matches isAlnum isWord w (fun _ h => h) word_nameByte Hw).
  by destruct Hw as (x & w' & -> & _).
Qed.

Lemma environment_read q :
  wfRequest q -> extractEnvironment (render q) = (default "" (rq_environment q), false).
Proof.
  intros Hq. unfold extractEnvironment.
  rewrite (value_read q environmentRegex " -e " (rq_environment q) Hq) by (cbn; tauto).
  destruct (rq_environment q) as [w|] eqn:E; [|done]. pose proof (wr_environment q Hq w E) as Hw.
  rewrite (ToLower_lower w (nameOf_all _ _ w lowerDigit_under Hw)).
  by rewrite (environment_matches w Hw).
Qed.

Lemma command_volume_read q :
  wfRequest q ->
  (if cs_SupportsVolumeLevel (rq_spec q) then extractVolumeLevel (render q) else (0%Z, false)) =
  (default 0%Z (gated (cs_SupportsVolumeLevel (rq_spec q)) (rq_volume q)), false).
Proof.
  intros Hq. unfold extractVolumeLevel.
  rewrite (value_read q volumeFlagRegex " -v "
    (gated (cs_SupportsVolumeLevel (rq_spec q)) (option_map Itoa (rq_volume q))) Hq) by (cbn; tauto).
  destruct (cs_SupportsVolumeLevel (rq_spec q)); [|done]. cbn [gated].
  destruct (rq_volume q) as [n|] eqn:E; [|done]. pose proof (wr_volume q Hq n E) as Hn.
  cbn [option_map]. rewrite (proj2 (eqb_false_iff _ _) (Itoa_nonempty n)), ParseInt_Itoa.
  rewrite (proj2 (Z.leb_le _ _)), (proj2 (Z.ltb_lt _ _)) by lia. done.
Qed.

(** C36: round trip of commands.  Take any registered command other than help with any
    of its flags, an apply identifier, database, tenant and environment name without
    dashes, and a volume that fits 32 bits.  The comment line a user writes for it is
    parsed into exactly that command: the action, every value, every flag the command
    has and no other, found when its environment is given or not needed and otherwise
    reported as missing its environment. *)
Theorem command_roundtrip q (Hq : wfRequest q) : ParseCommand (render q) = expected q.
Proof.
  unfold ParseCommand. rewrite (render_directive q Hq), (tenant_read q Hq).
  pose proof (render_bytes inLine q Hq word_inLine eq_refl eq_refl) as Hl.
  rewrite render_texts, allBytes_app in Hl. apply andb_true_iff in Hl as [_ Hl].
  destruct (command_word (rq_spec q) _ (wr_spec q Hq) (wr_help q Hq)
    (pieces_delim _ (texts_delim q Hq)) Hl) as [Hhelp Hcmd].
  rewrite <- render_texts in Hhelp, Hcmd. rewrite Hhelp, Hcmd.
  assert (specByName (ToLower (cs_Name (rq_spec q))) = Some (rq_spec q)) as ->.
  { pose proof (wr_spec q Hq) as Hs. clear - Hs. unfold commandSpecs in Hs.
    repeat destruct Hs as [<-|Hs]; [..|destruct Hs]; reflexivity. }
  unfold applySpec, expected, submatch. rewrite (environment_read q Hq), (command_volume_read q Hq).
  rewrite (value_read q databaseRegex " -d " (gated (cs_SupportsDB (rq_spec q)) (rq_database q)) Hq)
    by (cbn; tauto).
  rewrite
    (command_flag_read q skipRevertRegex " --skip-revert" (cs_SupportsSkipRevert (rq_spec q) && rq_skipRevert q) Hq),
    (command_flag_read q deferCutoverRegex " --defer-cutover" (cs_SupportsDeferCutover (rq_spec q) && rq_deferCutover q) Hq),
    (command_flag_read q allowUnsafeRegex " --allow-unsafe" (cs_SupportsAllowUnsafe (rq_spec q) && rq_allowUnsafe q) Hq),
    (command_flag_read q forceRegex " --force" (cs_SupportsForce (rq_spec q) && rq_force q) Hq),
    (command_flag_read q autoConfirmRegex " -y" (cs_SupportsAutoConfirm (rq_spec q) && rq_yes q) Hq)
    by (cbn; tauto).
  rewrite !andb_assoc, !andb_diag, orb_false_l.
  destruct (cs_HasApplyID (rq_spec q)) eqn:Hid; [rewrite (apply_read q Hq Hid)|];
    by destruct (cs_SupportsDB (rq_spec q)).
Qed.

(** [schemabot apply -d orders --allow-unsafe -y -t core -e staging] *)
Lemma command_roundtrip_witness :
  ParseCommand "schemabot apply -d orders --allow-unsafe -y -t core -e staging" =
  expected {| rq_spec := applies_ action.Apply true; rq_applyHex := "0"; rq_database := Some "orders";
              rq_skipRevert := false; rq_deferCutover := false; rq_allowUnsafe := true;
              rq_force := false; rq_yes := true; rq_volume := None; rq_tenant := Some "core";
              rq_environment := Some "staging" |}.
Proof.
  match goal with |- _ = expected ?q => apply (command_roundtrip q) end.
  constructor; cbn; try (intros w [= <-]; by (eexists; eexists)); try done; try tauto.
  by eexists; eexists.
Defined.

(** ** Code is not parsed *)

(** A line with its break; the last one of a text may lack it. *)
Definition wholeLine (l : string) : Prop := exists w, allBytes inLine w = true /\ l = w ++ String newline "".
Definition lastLine (l : string) : Prop := wholeLine l \/ (l <> "" /\ allBytes inLine l = true).
Fixpoint linesShape (ls : list string) : Prop :=
  match ls with
  | [] => True
  | [l] => lastLine l
  | l :: rest => wholeLine l /\ linesShape rest
  end.

Lemma linesShape_cons l ls : linesShape (l :: ls) <-> (if ls is [] then lastLine l else wholeLine l) /\ linesShape ls.
Proof. destruct ls; cbn; tauto. Qed.

Lemma wholeLine_cons c l : inLine c = true -> wholeLine l -> wholeLine (String c l).
Proof. intros Hc (w & Hw & ->). exists (String c w). rewrite sapp_cons. cbn. by rewrite Hc, Hw. Qed.

Lemma Lines_shape s : linesShape (Lines s).
Proof.
  induction s as [|c s IH]; [done|]. cbn [Lines]. destruct (Ascii.eqb c "010") eqn:E.
  - apply Ascii.eqb_eq in E as ->. apply linesShape_cons.
    assert (wholeLine (String "010" "")) by (by exists ""). destruct (Lines s); [|done]. split; [by left|done].
  - assert (Hc : inLine c = true) by (unfold inLine, newline; by rewrite E).
    destruct (Lines s) as [|l ls]; [right; cbn; by rewrite Hc|].
    apply linesShape_cons in IH as [Hl IH]. apply linesShape_cons. split; [|done].
    destruct ls; [|by apply wholeLine_cons]. destruct Hl as [Hl|[Hne Hl]]; [left; by apply wholeLine_cons|].
    right. cbn. by rewrite Hc, Hl.
Qed.

Lemma Lines_app w s : allBytes inLine w = true -> Lines (w ++ String newline s) = (w ++ String newline "") :: Lines s.
Proof.
  induction w as [|x w IH]; [done|]. cbn [allBytes]. rewrite andb_true_iff. intros [Hx Hw].
  rewrite !sapp_cons. cbn [Lines]. unfold inLine, newline in Hx. apply negb_true_iff in Hx. rewrite Hx.
  by rewrite (IH Hw).
Qed.

Lemma Lines_pieces ls : linesShape ls -> Lines (pieces ls) = ls.
Proof.
  induction ls as [|l ls IH]; [done|]. rewrite linesShape_cons. intros [Hl Hls]. rewrite pieces_cons.
  specialize (IH Hls).
  assert (Hw : wholeLine l -> Lines (l ++ pieces ls) = l :: ls).
  { intros (w & Hw & ->). rewrite sapp_assoc, sapp_cons, sapp_nil, (Lines_app w _ Hw). by rewrite IH. }
  destruct ls as [|l' ls]; [|by apply Hw]. destruct Hl as [Hl|[Hne Hl]]; [by apply Hw|].
  change (pieces []) with "". rewrite sapp_empty_r. by apply Lines_single.
Qed.

Lemma directiveLines_shape b ls : linesShape ls -> linesShape (directiveLines b ls).
Proof.
  revert b. induction ls as [|l ls IH]; intros b; [done|]. rewrite linesShape_cons. intros [Hl Hls].
  cbn [directiveLines]. destruct (opensFence l); [by apply IH|].
  destruct (b || isIndented l); [by apply IH|]. apply linesShape_cons. split; [|by apply IH].
  destruct ls; [done|]. destruct (directiveLines b _); [by left|done].
Qed.

(** Code is not parsed.  The line a command is read from is the first line of the
    comment outside fenced and indented code that begins, after at most three spaces,
    with the word schemabot; nothing else in the comment has an effect on the parse. *)
Theorem directive_outside_code body :
  firstDirectiveLine (markdownDirectiveText body) =
  List.find (MatchString mentionRegex) (map trimLineEnd (directiveLines false (Lines body))).
Proof.
  unfold firstDirectiveLine, markdownDirectiveText. fold (pieces (directiveLines false (Lines body))).
  by rewrite (Lines_pieces _ (directiveLines_shape _ _ (Lines_shape body))).
Qed.

(** A name that ends in a flag is taken for it: a database called orders-y makes the
    apply start without the confirmation step. *)
Theorem dashed_name_confirms :
  let r := ParseCommand "schemabot apply -e staging -d orders-y" in
  cmd_Action r = action.Apply /\ cmd_Database r = "orders-y" /\ cmd_AutoConfirm r = true.
Proof. vm_compute. done. Qed.
