(* ===== verification/State.v ===== *)
(** * Package state: the apply and task state machines (pkg/state)

    The canonical state strings, the normalisation of the strings the proto, the
    storage and the engines use for them, the registry of apply states
    (terminal, setup phase, label), the aggregation of task states into an apply
    state and the policy-aware projection of a rollout over its operations. *)

From S2P Require Import Prelude.

Local Open Scope string_scope.

(** ** Constants *)

(** [var Apply = struct{...}{...}] of apply.go; also [ApplyOperation]. *)
Module Apply.
Definition Pending := "pending".
Definition Running := "running".
Definition RunningDegraded := "running_degraded".
Definition Paused := "paused".
Definition Resuming := "resuming".
Definition WaitingForDeploy := "waiting_for_deploy".
Definition WaitingForCutover := "waiting_for_cutover".
Definition Recovering := "recovering".
Definition CuttingOver := "cutting_over".
Definition RevertWindow := "revert_window".
Definition SkippingRevert := "skipping_revert".
Definition Reverting := "reverting".
Definition Completed := "completed".
Definition Failed := "failed".
Definition FailedRetryable := "failed_retryable".
Definition Stopped := "stopped".
Definition Cancelled := "cancelled".
Definition Reverted := "reverted".
Definition PreparingBranch := "preparing_branch".
Definition ApplyingBranchChanges := "applying_branch_changes".
Definition ValidatingBranch := "validating_branch".
Definition CreatingDeployRequest := "creating_deploy_request".
Definition ValidatingDeployRequest := "validating_deploy_request".
End Apply.

Definition applyStates : list string :=
  [ Apply.Pending; Apply.Running; Apply.RunningDegraded; Apply.Paused; Apply.Resuming;
    Apply.WaitingForDeploy; Apply.WaitingForCutover; Apply.Recovering; Apply.CuttingOver;
    Apply.RevertWindow; Apply.SkippingRevert; Apply.Reverting; Apply.Completed;
    Apply.Failed; Apply.FailedRetryable; Apply.Stopped; Apply.Cancelled; Apply.Reverted;
    Apply.PreparingBranch; Apply.ApplyingBranchChanges; Apply.ValidatingBranch;
    Apply.CreatingDeployRequest; Apply.ValidatingDeployRequest ].

(** [var Task = struct{...}{...}] of task.go. *)
Module Task.
Definition Pending := "pending".
Definition Running := "running".
Definition Checksumming := "checksumming".
Definition WaitingForDeploy := "waiting_for_deploy".
Definition WaitingForCutover := "waiting_for_cutover".
Definition Recovering := "recovering".
Definition CuttingOver := "cutting_over".
Definition RevertWindow := "revert_window".
Definition Reverting := "reverting".
Definition Completed := "completed".
Definition Failed := "failed".
Definition FailedRetryable := "failed_retryable".
Definition Stopped := "stopped".
Definition Reverted := "reverted".
Definition Cancelled := "cancelled".
End Task.

Definition taskStates_all : list string :=
  [ Task.Pending; Task.Running; Task.Checksumming; Task.WaitingForDeploy;
    Task.WaitingForCutover; Task.Recovering; Task.CuttingOver; Task.RevertWindow;
    Task.Reverting; Task.Completed; Task.Failed; Task.FailedRetryable; Task.Stopped;
    Task.Reverted; Task.Cancelled ].

Definition NoActiveChange := "no_active_change".

(** ** Normalisation (resolve.go) *)

Definition NormalizeState (s : string) : string :=
  let s := TrimPrefix s "STATE_" in
  let s := ToLower s in
  if s == "" then NoActiveChange
  else if s == "recovering_cutover" then Apply.Recovering
  else s.

Definition IsState (s : string) (expected : list string) : bool :=
  let norm := NormalizeState s in
  existsb (fun exp => norm == NormalizeState exp) expected.

(** ** Registry of apply states (metadata.go) *)

Record ApplyStateInfo := { Label_ : string; Terminal : bool; SetupPhase : bool }.

Definition mkInfo (label : string) (terminal setup : bool) : ApplyStateInfo :=
  {| Label_ := label; Terminal := terminal; SetupPhase := setup |}.

Definition applyMetadata : gmap string ApplyStateInfo :=
  list_to_map
    [ (Apply.Pending, mkInfo "Pending" false true);
      (Apply.Running, mkInfo "Running" false false);
      (Apply.RunningDegraded, mkInfo "Running (degraded)" false false);
      (Apply.Paused, mkInfo "Paused" false false);
      (Apply.Resuming, mkInfo "Resuming" false false);
      (Apply.WaitingForDeploy, mkInfo "Waiting for deploy" false true);
      (Apply.WaitingForCutover, mkInfo "Waiting for cutover" false false);
      (Apply.Recovering, mkInfo "Recovering" false false);
      (Apply.CuttingOver, mkInfo "Cutting over" false false);
      (Apply.RevertWindow, mkInfo "Revert window" false false);
      (Apply.SkippingRevert, mkInfo "Skipping revert" false false);
      (Apply.Reverting, mkInfo "Reverting" false false);
      (Apply.Completed, mkInfo "Completed" true false);
      (Apply.Failed, mkInfo "Failed" true false);
      (Apply.FailedRetryable, mkInfo "Retrying" false false);
      (Apply.Stopped, mkInfo "Stopped" true false);
      (Apply.Cancelled, mkInfo "Cancelled" true false);
      (Apply.Reverted, mkInfo "Reverted" true false);
      (Apply.PreparingBranch, mkInfo "Preparing branch" false true);
      (Apply.ApplyingBranchChanges, mkInfo "Applying changes to branch" false true);
      (Apply.ValidatingBranch, mkInfo "Validating branch" false true);
      (Apply.CreatingDeployRequest, mkInfo "Creating deploy request" false true);
      (Apply.ValidatingDeployRequest, mkInfo "Validating deploy request" false true) ].

Definition LookupApply (s : string) : option ApplyStateInfo := applyMetadata !! s.

Definition Label (s : string) : string :=
  match applyMetadata !! s with Some info => Label_ info | None => s end.

Definition IsTerminalApplyState (s : string) : bool :=
  match LookupApply (NormalizeState s) with Some info => Terminal info | None => false end.

Definition IsSetupPhase (s : string) : bool :=
  match LookupApply (NormalizeState s) with Some info => SetupPhase info | None => false end.

Definition IsRunningApplyState (s : string) : bool :=
  IsState s [Apply.Running; Apply.RunningDegraded].

Definition IsApplyOperationTerminal (s : string) : bool := IsTerminalApplyState s.

Definition IsPlanetScaleEngine (engine : string) : bool :=
  EqualFold engine "planetscale" || EqualFold engine "ENGINE_PLANETSCALE".

Definition InitialActiveApplyState (engine : string) : string :=
  if IsPlanetScaleEngine engine then Apply.PreparingBranch else Apply.Running.

(** ** Task states (task.go) *)

Definition TerminalTaskStates : list string :=
  [Task.Completed; Task.Failed; Task.Reverted; Task.Cancelled].

Definition IsTerminalTaskState (s : string) : bool :=
  oneOf s [Task.Completed; Task.Failed; Task.Reverted; Task.Cancelled].

Definition IsInFlightTaskState (s : string) : bool :=
  oneOf (NormalizeState s)
    [ Task.Running; Task.Checksumming; Task.WaitingForCutover; Task.CuttingOver;
      Task.WaitingForDeploy; Task.Recovering; Task.Reverting ].

(** ** Aggregation of task states (apply.go) *)

Definition normalizeApplyState (raw : string) : string :=
  let u := ToUpper raw in
  if u == "PENDING" then Apply.Pending
  else if u == "RUNNING" then Apply.Running
  else if u == "CHECKSUMMING" then Apply.Running
  else if u == "RUNNING_DEGRADED" then Apply.RunningDegraded
  else if u == "PAUSED" then Apply.Paused
  else if u == "WAITING_FOR_DEPLOY" then Apply.WaitingForDeploy
  else if u == "WAITING_FOR_CUTOVER" then Apply.WaitingForCutover
  else if oneOf u ["RECOVERING"; "RECOVERING_CUTOVER"] then Apply.Recovering
  else if u == "CUTTING_OVER" then Apply.CuttingOver
  else if u == "REVERT_WINDOW" then Apply.RevertWindow
  else if u == "REVERTING" then Apply.Reverting
  else if oneOf u ["COMPLETED"; "COMPLETE"] then Apply.Completed
  else if u == "FAILED" then Apply.Failed
  else if u == "FAILED_RETRYABLE" then Apply.FailedRetryable
  else if u == "STOPPED" then Apply.Stopped
  else if u == "CANCELLED" then Apply.Cancelled
  else if u == "REVERTED" then Apply.Reverted
  else if u == "VALIDATING_BRANCH" then Apply.ValidatingBranch
  else if u == "VALIDATING_DEPLOY_REQUEST" then Apply.ValidatingDeployRequest
  else Apply.Pending.

(** Go's [counts[k]] on a [map[string]int]: the zero value for a missing key. *)
Definition count (counts : gmap string nat) (k : string) : nat := default 0 (counts !! k).

(** [for _, s := range taskStates { counts[normalizeApplyState(s)]++ }] *)
Definition countStates (taskStates : list string) : gmap string nat :=
  foldl (fun counts s =>
           let k := normalizeApplyState s in <[k := S (count counts k)]> counts)
        ∅ taskStates.

Definition DeriveApplyState (taskStates : list string) : string :=
  if (length taskStates =? 0)%nat then Apply.Pending else
  let counts := countStates taskStates in
  let total := length taskStates in
  if (0 <? count counts Apply.Failed)%nat then Apply.Failed else
  if (0 <? count counts Apply.FailedRetryable)%nat then Apply.FailedRetryable else
  if (0 <? count counts Apply.Cancelled)%nat then Apply.Cancelled else
  if (0 <? count counts Apply.Stopped)%nat then Apply.Stopped else
  if (0 <? count counts Apply.Reverting)%nat then Apply.Reverting else
  if (0 <? count counts Apply.Reverted)%nat then Apply.Reverted else
  if (count counts Apply.Completed =? total)%nat then Apply.Completed else
  if (0 <? count counts Apply.Recovering)%nat then Apply.Recovering else
  if (0 <? count counts Apply.CuttingOver)%nat then Apply.CuttingOver else
  let waitingOrCompleted :=
    (count counts Apply.WaitingForCutover + count counts Apply.Completed)%nat in
  if ((waitingOrCompleted =? total) && (0 <? count counts Apply.WaitingForCutover))%nat
  then Apply.WaitingForCutover else
  let waitingDeployOrCompleted :=
    (count counts Apply.WaitingForDeploy + count counts Apply.Completed)%nat in
  if ((waitingDeployOrCompleted =? total) && (0 <? count counts Apply.WaitingForDeploy))%nat
  then Apply.WaitingForDeploy else
  if (0 <? count counts Apply.RevertWindow)%nat then Apply.RevertWindow else
  if (0 <? count counts Apply.Running)%nat then Apply.Running else
  Apply.Pending.

(** ** The rollout projection over child operations (apply.go) *)

Record RolloutChild := {
  rc_State : string;
  ContinueOnFailure : bool;
  PauseOnFailure : bool;
}.

(** [for later := failedIndex + 1; later < len(children); later++] *)
Definition hasLaterNonTerminal (children : list RolloutChild) (failedIndex : nat) : bool :=
  existsb (fun c => negb (IsTerminalApplyState (rc_State c))) (drop (S failedIndex) children).

(** The three variables of the loop of [DeriveRolloutApplyState]. *)
Record rolloutVerdict := { allTerminal : bool; hardFail : bool; pausedHold : bool }.

(** One iteration of the loop, at index [i] of [children]. *)
Definition rolloutIter (children : list RolloutChild) (i : nat) (c : RolloutChild)
    (v : rolloutVerdict) : rolloutVerdict :=
  let v := if negb (IsTerminalApplyState (rc_State c))
           then {| allTerminal := false; hardFail := hardFail v; pausedHold := pausedHold v |}
           else v in
  if negb (IsState (rc_State c) [Apply.Failed]) then v else
  if ContinueOnFailure c && PauseOnFailure c then
    {| allTerminal := allTerminal v; hardFail := true; pausedHold := pausedHold v |}
  else if ContinueOnFailure c then v
  else if PauseOnFailure c && hasLaterNonTerminal children i then
    {| allTerminal := allTerminal v; hardFail := hardFail v; pausedHold := true |}
  else if PauseOnFailure c then v
  else {| allTerminal := allTerminal v; hardFail := true; pausedHold := pausedHold v |}.

Fixpoint rolloutLoop (children : list RolloutChild) (i : nat) (rest : list RolloutChild)
    (v : rolloutVerdict) : rolloutVerdict :=
  match rest with
  | [] => v
  | c :: rest' => rolloutLoop children (S i) rest' (rolloutIter children i c v)
  end.

Definition DeriveRolloutApplyState (children : list RolloutChild) : string :=
  if (length children =? 0)%nat then Apply.Pending else
  let childStates := rc_State <$> children in
  let base := DeriveApplyState childStates in
  if negb (IsState base [Apply.Failed]) then base else
  let v := rolloutLoop children 0 children
             {| allTerminal := true; hardFail := false; pausedHold := false |} in
  if hardFail v then Apply.Failed else
  if pausedHold v then Apply.Paused else
  if allTerminal v then Apply.Failed else
  Apply.RunningDegraded.

(** ** Lemmas: counting and normalisation *)

Lemma count_insert (counts : gmap string nat) k k' n :
  count (<[k := n]> counts) k' = if k == k' then n else count counts k'.
Proof.
  unfold count. destruct (k == k') eqn:E; reflect_guards; subst.
  - by rewrite lookup_insert_eq.
  - by rewrite lookup_insert_ne.
Qed.

(** Number of tasks whose state normalises to [k]: what [counts[k]] means. *)
Definition tally (k : string) (taskStates : list string) : nat :=
  length (filter (fun s => normalizeApplyState s = k) taskStates).

Lemma tally_cons k s ts :
  tally k (s :: ts) = (if normalizeApplyState s == k then S (tally k ts) else tally k ts).
Proof.
  unfold tally. rewrite filter_cons.
  destruct (normalizeApplyState s == k) eqn:E; reflect_guards; by case_decide.
Qed.

Lemma countStates_acc ts (m : gmap string nat) k :
  count (foldl (fun counts s =>
           let k := normalizeApplyState s in <[k := S (count counts k)]> counts) m ts) k
  = (count m k + tally k ts)%nat.
Proof.
  revert m. induction ts as [|s ts IH]; intros m; cbn [foldl].
  - unfold tally. simpl. lia.
  - rewrite IH, tally_cons, count_insert.
    destruct (_ == k) eqn:E; reflect_guards; subst; lia.
Qed.

Lemma count_countStates ts k : count (countStates ts) k = tally k ts.
Proof. unfold countStates. by rewrite countStates_acc. Qed.

Lemma tally_le k ts : (tally k ts <= length ts)%nat.
Proof. apply length_filter. Qed.

Lemma tally_pos k ts :
  (0 <? tally k ts)%nat = existsb (fun s => normalizeApplyState s == k) ts.
Proof.
  induction ts as [|s ts IH]; [done|]. rewrite tally_cons. cbn [existsb].
  destruct (normalizeApplyState s == k); [done|]. by rewrite IH.
Qed.

Lemma tally_all k ts :
  (tally k ts =? length ts)%nat = forallb (fun s => normalizeApplyState s == k) ts.
Proof.
  induction ts as [|s ts IH]; [done|]. rewrite tally_cons. cbn [forallb length].
  destruct (normalizeApplyState s == k); [by rewrite <- IH|].
  pose proof (tally_le k ts). cbn. apply Nat.eqb_neq. lia.
Qed.

Lemma tally_all2 k1 k2 ts :
  k1 <> k2 ->
  (tally k1 ts + tally k2 ts =? length ts)%nat
  = forallb (fun s => oneOf (normalizeApplyState s) [k1; k2]) ts.
Proof.
  intros Hne. assert (Hle : forall l, (tally k1 l + tally k2 l <= length l)%nat).
  { induction l as [|s l IH]; [done|]. rewrite !tally_cons. cbn [length].
    destruct (_ == k1) eqn:E1, (_ == k2) eqn:E2; reflect_guards; subst; try congruence; lia. }
  induction ts as [|s ts IH]; [done|]. rewrite !tally_cons. specialize (Hle ts).
  cbn [forallb oneOf existsb length].
  destruct (_ == k1) eqn:E1, (_ == k2) eqn:E2; reflect_guards; subst; try congruence;
    cbn; rewrite <- ?IH; try rewrite Nat.add_succ_r; try done.
  apply Nat.eqb_neq. lia.
Qed.

Lemma NormalizeState_idem_lower s :
  TrimPrefix (NormalizeState s) "STATE_" = NormalizeState s /\
  ToLower (NormalizeState s) = NormalizeState s.
Proof.
  unfold NormalizeState. break. split; [apply TrimPrefix_ToLower | apply ToLower_idem].
Qed.

(** ** The aggregation as a priority table

    The rules of the doc comment of [DeriveApplyState] as data: the first rule
    whose guard holds gives the apply state. *)

Definition anyTask (k : string) (ts : list string) : bool :=
  existsb (fun s => normalizeApplyState s == k) ts.

Definition allTasks (ks : list string) (ts : list string) : bool :=
  forallb (fun s => oneOf (normalizeApplyState s) ks) ts.

Definition aggregateRules : list ((list string -> bool) * string) :=
  [ (anyTask Apply.Failed, Apply.Failed);
    (anyTask Apply.FailedRetryable, Apply.FailedRetryable);
    (anyTask Apply.Cancelled, Apply.Cancelled);
    (anyTask Apply.Stopped, Apply.Stopped);
    (anyTask Apply.Reverting, Apply.Reverting);
    (anyTask Apply.Reverted, Apply.Reverted);
    (allTasks [Apply.Completed], Apply.Completed);
    (anyTask Apply.Recovering, Apply.Recovering);
    (anyTask Apply.CuttingOver, Apply.CuttingOver);
    (fun ts => allTasks [Apply.WaitingForCutover; Apply.Completed] ts &&
               anyTask Apply.WaitingForCutover ts, Apply.WaitingForCutover);
    (fun ts => allTasks [Apply.WaitingForDeploy; Apply.Completed] ts &&
               anyTask Apply.WaitingForDeploy ts, Apply.WaitingForDeploy);
    (anyTask Apply.RevertWindow, Apply.RevertWindow);
    (anyTask Apply.Running, Apply.Running) ].

Fixpoint firstRule (rules : list ((list string -> bool) * string)) (ts : list string) : string :=
  match rules with
  | [] => Apply.Pending
  | (guard, verdict) :: rest => if guard ts then verdict else firstRule rest ts
  end.

Lemma allTasks_single k ts :
  allTasks [k] ts = forallb (fun s => normalizeApplyState s == k) ts.
Proof.
  unfold allTasks. induction ts as [|s ts IH]; [done|].
  cbn [forallb oneOf existsb]. by rewrite orb_false_r, <- IH.
Qed.

Lemma DeriveApplyState_rules ts :
  ts <> [] -> DeriveApplyState ts = firstRule aggregateRules ts.
Proof.
  intros Hts. unfold DeriveApplyState. destruct ts as [|s ts]; [done|].
  cbn [length Nat.eqb]. change (S (length ts)) with (length (s :: ts)).
  rewrite !count_countStates, !tally_pos, tally_all, !tally_all2 by done.
  unfold aggregateRules. cbn [firstRule]. by rewrite allTasks_single.
Qed.

(** The apply states the aggregation can produce. *)
Definition aggregateRange : list string :=
  [ Apply.Pending; Apply.Failed; Apply.FailedRetryable; Apply.Cancelled; Apply.Stopped;
    Apply.Reverting; Apply.Reverted; Apply.Completed; Apply.Recovering; Apply.CuttingOver;
    Apply.WaitingForCutover; Apply.WaitingForDeploy; Apply.RevertWindow; Apply.Running ].

Lemma firstRule_range rules ts : firstRule rules ts ∈ Apply.Pending :: (snd <$> rules).
Proof.
  induction rules as [|[g v] rules IH]; cbn; [set_solver|].
  destruct (g ts); rewrite !elem_of_cons in *; tauto.
Qed.

Lemma DeriveApplyState_range ts : DeriveApplyState ts ∈ aggregateRange.
Proof.
  destruct ts as [|s ts]; [by apply oneOf_elem|].
  rewrite DeriveApplyState_rules by done.
  pose proof (firstRule_range aggregateRules (s :: ts)) as H.
  revert H. generalize (firstRule aggregateRules (s :: ts)). intros v H.
  cbn [aggregateRules fmap list_fmap snd] in H.
  elem_cases H; apply oneOf_elem; reflexivity.
Qed.

Lemma anyTask_perm k ts ts' : ts ≡ₚ ts' -> anyTask k ts = anyTask k ts'.
Proof.
  intros Hp. apply eq_true_iff_eq. unfold anyTask. rewrite !existsb_exists.
  split; intros (x & Hx & E); exists x; split; try done;
    apply list_elem_of_In; apply list_elem_of_In in Hx; [by rewrite <- Hp | by rewrite Hp].
Qed.

Lemma allTasks_perm ks ts ts' : ts ≡ₚ ts' -> allTasks ks ts = allTasks ks ts'.
Proof.
  intros Hp. apply eq_true_iff_eq. unfold allTasks. rewrite !forallb_forall.
  split; intros H x Hx; apply H; apply list_elem_of_In; apply list_elem_of_In in Hx;
    [by rewrite Hp | by rewrite <- Hp].
Qed.

Lemma anyTask_In k ts : anyTask k ts = true <-> exists s, s ∈ ts /\ normalizeApplyState s = k.
Proof.
  unfold anyTask. rewrite existsb_exists. split.
  - intros (s & Hs & E). exists s. reflect_guards. by rewrite list_elem_of_In.
  - intros (s & Hs & E). exists s. rewrite <- list_elem_of_In. split; [done|]. by apply String.eqb_eq.
Qed.

Lemma allTasks_In ks ts : allTasks ks ts = true <-> forall s, s ∈ ts -> normalizeApplyState s ∈ ks.
Proof.
  unfold allTasks. rewrite forallb_forall. split; intros H s Hs.
  - apply oneOf_elem, H, list_elem_of_In, Hs.
  - apply oneOf_elem, H, list_elem_of_In, Hs.
Qed.

#[export] Instance DeriveApplyState_proper : Proper ((≡ₚ) ==> (=)) DeriveApplyState.
Proof.
  intros ts ts' Hp. destruct (decide (ts = [])) as [->|Hne].
  { apply Permutation_nil in Hp. by subst. }
  assert (ts' <> []) by (intros ->; by apply Permutation_sym, Permutation_nil in Hp).
  rewrite !DeriveApplyState_rules by done. unfold aggregateRules. cbn [firstRule].
  by rewrite !(anyTask_perm _ _ _ Hp), !(allTasks_perm _ _ _ Hp).
Qed.

(** Whether the aggregate is failed depends on the failed tasks alone. *)
Lemma DeriveApplyState_failed ts :
  IsState (DeriveApplyState ts) [Apply.Failed] = anyTask Apply.Failed ts.
Proof.
  destruct (anyTask Apply.Failed ts) eqn:E.
  - destruct ts as [|s ts]; [done|]. rewrite DeriveApplyState_rules by done.
    unfold aggregateRules. cbn [firstRule]. by rewrite E.
  - assert (DeriveApplyState ts <> Apply.Failed) as Hne.
    { destruct ts as [|s ts]; [done|]. rewrite DeriveApplyState_rules by done.
      unfold aggregateRules. cbn [firstRule]. rewrite E. break. }
    pose proof (DeriveApplyState_range ts) as Hr. revert Hne Hr.
    generalize (DeriveApplyState ts). intros v Hne Hr. unfold aggregateRange in Hr.
    elem_cases Hr; done.
Qed.

(** ** The projection as a priority table *)

(** A child whose failure stands: [halt], an unrecognised policy, or the
    contradictory pair of flags. *)
Definition failsClosed (c : RolloutChild) : bool :=
  IsState (rc_State c) [Apply.Failed] &&
  Bool.eqb (ContinueOnFailure c) (PauseOnFailure c).

(** Some unreleased pause-failure is followed by work that has not settled. *)
Fixpoint pauseHeld (children : list RolloutChild) : bool :=
  match children with
  | [] => false
  | c :: later =>
      (IsState (rc_State c) [Apply.Failed] && negb (ContinueOnFailure c) && PauseOnFailure c &&
       existsb (fun d => negb (IsTerminalApplyState (rc_State d))) later)
      || pauseHeld later
  end.

Definition settled (children : list RolloutChild) : bool :=
  forallb (fun c => IsTerminalApplyState (rc_State c)) children.

Lemma rolloutLoop_spec children i rest v :
  rest = drop i children ->
  rolloutLoop children i rest v =
    {| allTerminal := allTerminal v && settled rest;
       hardFail := hardFail v || existsb failsClosed rest;
       pausedHold := pausedHold v || pauseHeld rest |}.
Proof.
  revert i v. induction rest as [|c rest IH]; intros i v Hrest.
  { destruct v; cbn. by rewrite andb_true_r, !orb_false_r. }
  assert (Hdrop : rest = drop (S i) children).
  { rewrite <- Nat.add_1_r, <- drop_drop, <- Hrest. done. }
  cbn [rolloutLoop]. rewrite IH by done.
  cbn [settled forallb existsb pauseHeld]. fold (settled rest).
  unfold rolloutIter, hasLaterNonTerminal, failsClosed at 2. rewrite <- Hdrop.
  destruct v as [a h p].
  destruct (IsTerminalApplyState (rc_State c)), (IsState (rc_State c) [Apply.Failed]),
    (ContinueOnFailure c), (PauseOnFailure c),
    (existsb (fun d => negb (IsTerminalApplyState (rc_State d))) rest);
    cbn; f_equal; btauto.
Qed.

(** The projection without its loop: the policy table of the doc comment. *)
Lemma DeriveRolloutApplyState_table children :
  DeriveRolloutApplyState children =
    if negb (anyTask Apply.Failed (rc_State <$> children))
    then DeriveApplyState (rc_State <$> children)
    else if existsb failsClosed children then Apply.Failed
    else if pauseHeld children then Apply.Paused
    else if settled children then Apply.Failed
    else Apply.RunningDegraded.
Proof.
  unfold DeriveRolloutApplyState. rewrite DeriveApplyState_failed.
  destruct children as [|c children]; [done|]. cbn [length Nat.eqb].
  destruct (anyTask _ _); [|done]. cbn [negb].
  by rewrite rolloutLoop_spec.
Qed.

Lemma pauseHeld_unsettled children : pauseHeld children = true -> settled children = false.
Proof.
  induction children as [|c rest IH]; [done|]. cbn [pauseHeld settled forallb].
  fold (settled rest). intros H. apply orb_true_iff in H as [H|H].
  - reflect_guards. rewrite andb_false_iff. right. unfold settled.
    by rewrite <- negb_true_iff, <- existsb_negb.
  - rewrite andb_false_iff. right. by apply IH.
Qed.

Lemma ToUpper_eq_lower s u : ToUpper s = u -> ToLower s = ToLower u.
Proof. intros <-. by rewrite ToLower_ToUpper. Qed.

(** A raw string the aggregation counts as failed is one [IsState] calls failed. *)
Lemma normalize_failed_IsState s :
  normalizeApplyState s = Apply.Failed -> IsState s [Apply.Failed] = true.
Proof.
  intros H. assert (Hl : ToLower s = "failed").
  { apply (ToUpper_eq_lower _ "FAILED"). revert H. unfold normalizeApplyState.
    repeat case_match; reflect_guards; done. }
  unfold IsState, NormalizeState. destruct s as [|c s]; [done|].
  assert (Hp : TrimPrefix (String c s) "STATE_" = String c s).
  { unfold TrimPrefix. cbn [strip_prefix]. destruct (Ascii.eqb "S" c) eqn:E; [|done].
    apply Ascii.eqb_eq in E. subst. done. }
  by rewrite Hp, Hl.
Qed.

(** ** Engine statuses (task.go, vitess.go)

    The status names of the engines are constants of the Spirit and Vitess
    packages; the development takes them as a record of strings. *)

Record EngineNames := {
  OnlineDDLStatusRequested : string;
  OnlineDDLStatusCancelled : string;
  OnlineDDLStatusQueued : string;
  OnlineDDLStatusReady : string;
  OnlineDDLStatusRunning : string;
  OnlineDDLStatusComplete : string;
  OnlineDDLStatusFailed : string;
  SpiritInitial : string;
  SpiritCopyRows : string;
  SpiritApplyChangeset : string;
  SpiritRestoreSecondaryIndexes : string;
  SpiritAnalyzeTable : string;
  SpiritChecksum : string;
  SpiritPostChecksum : string;
  SpiritErrCleanup : string;
  SpiritWaitingOnSentinelTable : string;
  SpiritCutOver : string;
  SpiritClose : string;
}.

Section EngineStatus.
Context (E : EngineNames).

Definition NormalizeTaskStatus (raw : string) : string :=
  let s := TrimPrefix (TrimPrefix raw "STATE_") "state_" in
  if oneOf s [OnlineDDLStatusComplete E; SpiritClose E] then Task.Completed
  else if s == SpiritChecksum E then Task.Checksumming
  else if oneOf s [ SpiritCopyRows E; SpiritInitial E; SpiritApplyChangeset E;
                    SpiritRestoreSecondaryIndexes E; SpiritAnalyzeTable E;
                    SpiritPostChecksum E; SpiritErrCleanup E ] then Task.Running
  else if s == OnlineDDLStatusRunning E then Task.Running
  else if oneOf s [SpiritWaitingOnSentinelTable E; "ready_to_complete"]
  then Task.WaitingForCutover
  else if s == SpiritCutOver E then Task.CuttingOver
  else if oneOf s [ OnlineDDLStatusQueued E; OnlineDDLStatusReady E;
                    OnlineDDLStatusRequested E ] then Task.Pending
  else if s == OnlineDDLStatusFailed E then Task.Failed
  else if s == OnlineDDLStatusCancelled E then Task.Cancelled
  else if oneOf s [ Task.Pending; Task.Running; Task.Checksumming; Task.Completed;
                    Task.Stopped; Task.Failed; Task.FailedRetryable; Task.RevertWindow;
                    Task.Reverting; Task.Reverted; Task.WaitingForDeploy;
                    Task.WaitingForCutover; Task.Recovering; Task.CuttingOver;
                    Task.Cancelled ] then s
  else
    let normalized := NormalizeState s in
    if normalized == NormalizeState (OnlineDDLStatusComplete E) then Task.Completed
    else if oneOf normalized
              [ Task.Pending; Task.Running; Task.Checksumming; Task.Completed;
                Task.Stopped; Task.Failed; Task.FailedRetryable; Task.RevertWindow;
                Task.Reverting; Task.Reverted; Task.WaitingForDeploy;
                Task.WaitingForCutover; Task.Recovering; Task.CuttingOver;
                Task.Cancelled ] then normalized
    else Task.Running.

Definition NormalizeShardStatus (raw : string) : string := NormalizeTaskStatus raw.

Definition IsTerminalVitessState (s : string) : bool :=
  oneOf (ToLower s)
    [OnlineDDLStatusComplete E; OnlineDDLStatusFailed E; OnlineDDLStatusCancelled E].

(** The names that stand for an engine phase are not canonical task states, apart
    from the three Vitess statuses whose spelling is the canonical one. *)
Record engineNamesDisjoint : Prop := {
  end_vitess : OnlineDDLStatusRunning E = Task.Running /\
               OnlineDDLStatusFailed E = Task.Failed /\
               OnlineDDLStatusCancelled E = Task.Cancelled;
  end_foreign : Forall (fun n => n ∉ taskStates_all)
    [ OnlineDDLStatusRequested E; OnlineDDLStatusQueued E; OnlineDDLStatusReady E;
      OnlineDDLStatusComplete E; SpiritInitial E; SpiritCopyRows E; SpiritApplyChangeset E;
      SpiritRestoreSecondaryIndexes E; SpiritAnalyzeTable E; SpiritChecksum E;
      SpiritPostChecksum E; SpiritErrCleanup E; SpiritWaitingOnSentinelTable E;
      SpiritCutOver E; SpiritClose E ];
}.

Lemma NormalizeTaskStatus_range raw : NormalizeTaskStatus raw ∈ taskStates_all.
Proof.
  unfold NormalizeTaskStatus.
  set (s := TrimPrefix (TrimPrefix raw "STATE_") "state_"). clearbody s.
  repeat match goal with
  | |- (if oneOf ?x ?l then ?x else _) ∈ _ => destruct (oneOf x l) eqn:?
  | |- (if ?b then _ else _) ∈ _ => destruct b; [apply oneOf_elem; reflexivity|]
  end; try (apply oneOf_elem; reflexivity).
  all: match goal with H : oneOf _ _ = true |- _ => apply oneOf_elem in H; revert H end.
  all: clear; intros H; match type of H with ?x ∈ _ => generalize dependent x end.
  all: intros x H; elem_cases H; apply oneOf_elem; reflexivity.
Qed.

Lemma not_foreign n t : n ∉ taskStates_all -> t ∈ taskStates_all -> (t == n) = false.
Proof. intros Hn Ht. apply String.eqb_neq. by intros ->. Qed.
End EngineStatus.

(** The documented values of the constants: Vitess' OnlineDDL statuses and
    Spirit's [State.String()]. *)
Definition documentedNames : EngineNames := {|
  OnlineDDLStatusRequested := "requested"; OnlineDDLStatusCancelled := "cancelled";
  OnlineDDLStatusQueued := "queued"; OnlineDDLStatusReady := "ready";
  OnlineDDLStatusRunning := "running"; OnlineDDLStatusComplete := "complete";
  OnlineDDLStatusFailed := "failed"; SpiritInitial := "initial";
  SpiritCopyRows := "copyRows"; SpiritApplyChangeset := "applyChangeset";
  SpiritRestoreSecondaryIndexes := "restoreSecondaryIndexes";
  SpiritAnalyzeTable := "analyzeTable"; SpiritChecksum := "checksum";
  SpiritPostChecksum := "postChecksum"; SpiritErrCleanup := "errCleanup";
  SpiritWaitingOnSentinelTable := "waitingOnSentinelTable";
  SpiritCutOver := "cutOver"; SpiritClose := "close" |}.

(** ** Lemmas on canonical states *)

(** On the canonical vocabulary a terminal state is one the aggregation keeps. *)
Lemma canonical_terminal s :
  s ∈ applyStates -> IsTerminalApplyState s = true ->
  s ∈ [Apply.Completed; Apply.Failed; Apply.Stopped; Apply.Cancelled; Apply.Reverted] /\
  normalizeApplyState s = s.
Proof.
  unfold applyStates. intros H Ht.
  elem_cases H; vm_compute in Ht; try done; split; [by apply oneOf_elem | done
    | by apply oneOf_elem | done | by apply oneOf_elem | done | by apply oneOf_elem | done
    | by apply oneOf_elem | done].
Qed.

Lemma canonical_failed s :
  s ∈ applyStates -> IsState s [Apply.Failed] = (normalizeApplyState s == Apply.Failed).
Proof. unfold applyStates. intros H. elem_cases H; reflexivity. Qed.

(** Terminal tasks aggregate to a terminal state. *)
Lemma derive_terminal ts :
  ts <> [] ->
  (forall s, s ∈ ts ->
     normalizeApplyState s ∈ [Apply.Completed; Apply.Failed; Apply.Stopped; Apply.Cancelled; Apply.Reverted]) ->
  IsTerminalApplyState (DeriveApplyState ts) = true.
Proof.
  intros Hne Hall. rewrite DeriveApplyState_rules by done. unfold aggregateRules.
  cbn [firstRule].
  destruct (anyTask Apply.Failed ts) eqn:E1; [done|].
  destruct (anyTask Apply.FailedRetryable ts) eqn:E2.
  { apply anyTask_In in E2 as (s & Hs & E). specialize (Hall s Hs). rewrite E in Hall.
    by apply oneOf_elem in Hall. }
  destruct (anyTask Apply.Cancelled ts) eqn:E3; [done|].
  destruct (anyTask Apply.Stopped ts) eqn:E4; [done|].
  destruct (anyTask Apply.Reverting ts) eqn:E5.
  { apply anyTask_In in E5 as (s & Hs & E). specialize (Hall s Hs). rewrite E in Hall.
    by apply oneOf_elem in Hall. }
  destruct (anyTask Apply.Reverted ts) eqn:E6; [done|].
  replace (allTasks [Apply.Completed] ts) with true; [done|].
  symmetry. apply allTasks_In. intros s Hs. specialize (Hall s Hs).
  assert (Hno : forall k, anyTask k ts = false -> normalizeApplyState s <> k).
  { intros k Hk Es. assert (anyTask k ts = true) by (apply anyTask_In; eauto). congruence. }
  pose proof (Hno _ E1). pose proof (Hno _ E3). pose proof (Hno _ E4). pose proof (Hno _ E6).
  set_solver.
Qed.

Lemma anyTask_child children :
  anyTask Apply.Failed (rc_State <$> children) = true ->
  exists c, c ∈ children /\ IsState (rc_State c) [Apply.Failed] = true.
Proof.
  intros (s & (c & -> & Hc)%list_elem_of_fmap & E)%anyTask_In. exists c.
  split; [done|]. by apply normalize_failed_IsState.
Qed.

(** A rollout whose children all settled is terminal. *)
Lemma settled_terminal (children : list RolloutChild) :
  children <> [] -> (forall c, c ∈ children -> rc_State c ∈ applyStates) ->
  settled children = true -> IsTerminalApplyState (DeriveRolloutApplyState children) = true.
Proof.
  intros Hne Hcanon Hs. rewrite DeriveRolloutApplyState_table, Hs.
  destruct (anyTask _ _); cbn [negb].
  - destruct (existsb _ _); [done|]. destruct (pauseHeld children) eqn:E; [|done].
    apply pauseHeld_unsettled in E. congruence.
  - apply derive_terminal; [by destruct children|].
    intros s (c & -> & Hc)%list_elem_of_fmap.
    destruct (canonical_terminal (rc_State c)) as [Hin Hn]; [by apply Hcanon| |by rewrite Hn].
    apply (proj1 (forallb_elem _ _) Hs c Hc).
Qed.

(** The verdicts of the projection are states of the vocabulary. *)
Lemma DeriveRollout_canonical (children : list RolloutChild) :
  DeriveRolloutApplyState children ∈ applyStates.
Proof.
  rewrite DeriveRolloutApplyState_table. destruct (negb _).
  - pose proof (DeriveApplyState_range (rc_State <$> children)) as H. revert H.
    generalize (DeriveApplyState (rc_State <$> children)). unfold aggregateRange.
    intros v H. apply oneOf_elem. by elem_cases H.
  - apply oneOf_elem. by break.
Qed.

(** ** Properties *)

(** The apply state derived from task states is the verdict of the first
    rule, in the documented priority order (failed, failed_retryable, cancelled,
    stopped, reverting, reverted, all completed, recovering, cutting over, all
    waiting for cutover or completed, all waiting for deploy or completed, revert
    window, running), whose guard the tasks meet, and pending when none does or
    there is no task; the counting map of the code computes exactly that table. *)
Theorem derive_priority_table (ts : list string) :
  DeriveApplyState ts =
    if bool_decide (ts = []) then Apply.Pending else firstRule aggregateRules ts.
Proof.
  case_bool_decide as E; [by subst|]. by apply DeriveApplyState_rules.
Qed.

(** An apply is reported completed exactly when it has tasks and every one of
    them is completed, whatever the order in which the tasks are listed. *)
Theorem derive_completed_iff (ts ts' : list string) (Hp : ts ≡ₚ ts') :
  DeriveApplyState ts' = DeriveApplyState ts /\
  (DeriveApplyState ts' = Apply.Completed <->
   ts <> [] /\ forall s, s ∈ ts -> normalizeApplyState s = Apply.Completed).
Proof.
  rewrite <- Hp. split; [done|]. destruct ts as [|s0 ts0]; [by split; [|intros [? _]]|].
  rewrite DeriveApplyState_rules by done. set (ts := s0 :: ts0). split.
  - intros H. split; [done|]. unfold aggregateRules in H. cbn [firstRule] in H.
    destruct (allTasks [Apply.Completed] ts) eqn:E.
    + intros s Hs. apply (proj1 (allTasks_In _ _) E) in Hs. set_solver.
    + break_in H.
  - intros [_ Hall]. unfold aggregateRules. cbn [firstRule].
    assert (Hno : forall k, k <> Apply.Completed -> anyTask k ts = false).
    { intros k Hk. apply not_true_iff_false. intros (s & Hs & E)%anyTask_In.
      apply Hk. by rewrite <- E, Hall. }
    rewrite !Hno by done.
    replace (allTasks [Apply.Completed] ts) with true; [done|].
    symmetry. apply allTasks_In. intros s Hs. rewrite Hall by done. set_solver.
Qed.

Lemma derive_completed_iff_witness :
  DeriveApplyState ["COMPLETE"; "completed"] = DeriveApplyState ["completed"; "COMPLETE"] /\
  (DeriveApplyState ["COMPLETE"; "completed"] = Apply.Completed <->
   ["completed"; "COMPLETE"] <> [] /\
   forall s, s ∈ ["completed"; "COMPLETE"] -> normalizeApplyState s = Apply.Completed).
Proof. apply (derive_completed_iff ["completed"; "COMPLETE"]). apply Permutation_swap. Defined.

(** C24: the policy-aware rollout projection, loop included, is the documented
    policy table: without a failed child it is the plain aggregate; with one, a
    child that fails closed (halt, unknown policy or contradictory flags) gives
    failed, else an unreleased pause-failure with later unsettled work gives
    paused, else failed once everything settled, else running_degraded. *)
Theorem rollout_policy_table (children : list RolloutChild) :
  DeriveRolloutApplyState children =
    if negb (anyTask Apply.Failed (rc_State <$> children))
    then DeriveApplyState (rc_State <$> children)
    else if existsb failsClosed children then Apply.Failed
    else if pauseHeld children then Apply.Paused
    else if settled children then Apply.Failed
    else Apply.RunningDegraded.
Proof. apply DeriveRolloutApplyState_table. Qed.

(** Fail-closed.  A failed child is never hidden: the rollout is then failed,
    paused or running_degraded; it is failed as soon as every child settled; and
    with failures of policy halt it is failed at once, whatever the siblings do. *)
Theorem rollout_fail_closed (children : list RolloutChild) (c : RolloutChild)
    (Hc : c ∈ children) (Hf : normalizeApplyState (rc_State c) = Apply.Failed) :
  DeriveRolloutApplyState children ∈ [Apply.Failed; Apply.Paused; Apply.RunningDegraded] /\
  (settled children = true -> DeriveRolloutApplyState children = Apply.Failed) /\
  (ContinueOnFailure c = PauseOnFailure c -> DeriveRolloutApplyState children = Apply.Failed).
Proof.
  rewrite DeriveRolloutApplyState_table.
  assert (anyTask Apply.Failed (rc_State <$> children) = true) as ->.
  { apply anyTask_In. exists (rc_State c). split; [|done]. by apply list_elem_of_fmap_2. }
  cbn [negb]. repeat split.
  - break; apply oneOf_elem; reflexivity.
  - intros Hs. destruct (existsb _ _); [done|].
    destruct (pauseHeld children) eqn:E; [|by rewrite Hs].
    apply pauseHeld_unsettled in E. congruence.
  - intros Heq. replace (existsb failsClosed children) with true; [done|].
    symmetry. apply existsb_elem. exists c. split; [done|]. unfold failsClosed.
    rewrite normalize_failed_IsState by done. rewrite Heq. by rewrite eqb_reflx.
Qed.

Lemma rollout_fail_closed_witness :
  let c := {| rc_State := "FAILED"; ContinueOnFailure := false; PauseOnFailure := true |} in
  let d := {| rc_State := Apply.Pending; ContinueOnFailure := false; PauseOnFailure := true |} in
  DeriveRolloutApplyState [c; d] = Apply.Paused /\
  DeriveRolloutApplyState [c; d] ∈ [Apply.Failed; Apply.Paused; Apply.RunningDegraded].
Proof.
  intros c d. split; [reflexivity|].
  apply (rollout_fail_closed [c; d] c); [by apply elem_of_cons; left | reflexivity].
Defined.

(** On the canonical vocabulary a rollout is terminal exactly when it cannot
    move: if every child is terminal the projection is terminal, and the two
    non-terminal failure verdicts, paused and running_degraded, are only given
    while some child is not terminal. *)
Theorem rollout_terminality (children : list RolloutChild)
    (Hne : children <> []) (Hcanon : forall c, c ∈ children -> rc_State c ∈ applyStates) :
  (settled children = true ->
     IsTerminalApplyState (DeriveRolloutApplyState children) = true) /\
  (DeriveRolloutApplyState children ∈ [Apply.Paused; Apply.RunningDegraded] ->
     exists c, c ∈ children /\ IsTerminalApplyState (rc_State c) = false).
Proof.
  split; [by apply settled_terminal|]. rewrite DeriveRolloutApplyState_table.
  intros Hv. assert (Hu : settled children = false).
  { destruct (anyTask _ _); cbn [negb] in Hv.
    - destruct (existsb _ _); [by apply oneOf_elem in Hv|].
      destruct (pauseHeld children) eqn:E; [by apply pauseHeld_unsettled|].
      destruct (settled children) eqn:E'; [by apply oneOf_elem in Hv|done].
    - pose proof (DeriveApplyState_range (rc_State <$> children)) as Hr. revert Hr Hv.
      generalize (DeriveApplyState (rc_State <$> children)). unfold aggregateRange.
      intros v Hr Hv. elem_cases Hr; by apply oneOf_elem in Hv. }
  unfold settled in Hu. rewrite <- negb_true_iff, <- existsb_negb in Hu.
  apply existsb_elem in Hu as (c & Hc & E). exists c. by apply negb_true_iff in E.
Qed.

Lemma rollout_terminality_witness :
  let c := {| rc_State := Apply.Failed; ContinueOnFailure := true; PauseOnFailure := false |} in
  let d := {| rc_State := Apply.Completed; ContinueOnFailure := true; PauseOnFailure := false |} in
  IsTerminalApplyState (DeriveRolloutApplyState [c; d]) = true.
Proof.
  intros c d. apply (rollout_terminality [c; d]); [done| |reflexivity].
  intros x Hx. apply oneOf_elem. elem_cases Hx; reflexivity.
Defined.

(** A rollout with a single operation of a canonical state projects exactly
    the aggregate of that state, unless the operation failed: then, whatever its
    policy flags, the rollout is failed (there is nothing left to pause for). *)
Theorem rollout_single_operation (c : RolloutChild) (Hc : rc_State c ∈ applyStates) :
  DeriveRolloutApplyState [c] = DeriveApplyState [rc_State c].
Proof.
  rewrite DeriveRolloutApplyState_table. cbn [fmap list_fmap].
  destruct c as [s k p]. cbn [rc_State] in *. unfold applyStates in Hc.
  elem_cases Hc; destruct k, p; vm_compute; reflexivity.
Qed.

Lemma rollout_single_operation_witness :
  DeriveRolloutApplyState
    [{| rc_State := Apply.CuttingOver; ContinueOnFailure := false; PauseOnFailure := true |}]
  = DeriveApplyState [Apply.CuttingOver].
Proof.
  apply (rollout_single_operation
    {| rc_State := Apply.CuttingOver; ContinueOnFailure := false; PauseOnFailure := true |}).
  by apply oneOf_elem.
Defined.

(** Nine canonical states of the operation vocabulary are not known to the
    aggregation: an apply whose only child is resuming, skipping_revert,
    running_degraded, paused or in one of the five branch and deploy-request
    phases is reported pending, and every other canonical state is kept. *)
Theorem derive_singleton (s : string) (Hs : s ∈ applyStates) :
  DeriveApplyState [s] =
    if oneOf s [ Apply.RunningDegraded; Apply.Paused; Apply.Resuming; Apply.SkippingRevert;
                 Apply.PreparingBranch; Apply.ApplyingBranchChanges; Apply.ValidatingBranch;
                 Apply.CreatingDeployRequest; Apply.ValidatingDeployRequest ]
    then Apply.Pending else s.
Proof. unfold applyStates in Hs. elem_cases Hs; vm_compute; reflexivity. Qed.

Lemma derive_singleton_witness : DeriveApplyState [Apply.Resuming] = Apply.Pending.
Proof. apply (derive_singleton Apply.Resuming). by apply oneOf_elem. Defined.

(** A canonical task state is its own normal form. *)
Lemma NormalizeTaskStatus_canonical (E : EngineNames) (HE : engineNamesDisjoint E) t :
  t ∈ taskStates_all -> NormalizeTaskStatus E t = t.
Proof.
  intros Ht. destruct HE as [(HR & HF & HC) HD]. rewrite Forall_forall in HD.
  assert (Hn : forall n, n ∈ [ OnlineDDLStatusRequested E; OnlineDDLStatusQueued E;
      OnlineDDLStatusReady E; OnlineDDLStatusComplete E; SpiritInitial E; SpiritCopyRows E;
      SpiritApplyChangeset E; SpiritRestoreSecondaryIndexes E; SpiritAnalyzeTable E;
      SpiritChecksum E; SpiritPostChecksum E; SpiritErrCleanup E;
      SpiritWaitingOnSentinelTable E; SpiritCutOver E; SpiritClose E ] -> (t == n) = false).
  { intros n Hin. by apply not_foreign; [apply HD|]. }
  assert (Htrim : TrimPrefix (TrimPrefix t "STATE_") "state_" = t).
  { clear -Ht. unfold taskStates_all in Ht. elem_cases Ht; reflexivity. }
  unfold NormalizeTaskStatus. rewrite Htrim. cbn [oneOf existsb].
  repeat match goal with
  | |- context [t == ?n] => rewrite (Hn n) by (rewrite !elem_of_cons; tauto)
  end.
  rewrite HR, HF, HC. cbn [orb].
  clear -Ht. unfold taskStates_all in Ht. elem_cases Ht; reflexivity.
Qed.

(** NormalizeTaskStatus is a retraction onto the fifteen canonical task
    states: every engine or stored status maps to one of them and, when the
    engines' own phase names do not collide with the canonical ones, mapping a
    canonical state changes nothing, so mapping twice is mapping once. *)
Theorem NormalizeTaskStatus_retraction (E : EngineNames) (HE : engineNamesDisjoint E)
    (raw : string) :
  NormalizeTaskStatus E raw ∈ taskStates_all /\
  NormalizeTaskStatus E (NormalizeTaskStatus E raw) = NormalizeTaskStatus E raw.
Proof. split; [|apply NormalizeTaskStatus_canonical; [done|]]; apply NormalizeTaskStatus_range. Qed.

Lemma NormalizeTaskStatus_retraction_witness :
  NormalizeTaskStatus documentedNames "copyRows" = Task.Running /\
  NormalizeTaskStatus documentedNames (NormalizeTaskStatus documentedNames "copyRows")
  = NormalizeTaskStatus documentedNames "copyRows".
Proof.
  split; [reflexivity|]. apply NormalizeTaskStatus_retraction. split; [done|].
  repeat constructor; intros H%oneOf_elem; discriminate H.
Defined.
