(* ===== verification/Convert.v ===== *)
(** * State and change-type converters (pkg/tern/state_converters.go, pkg/ddl)

    The three vocabularies an apply's state lives in (the engine's [State], the
    storage strings of package state and the proto enum of the tern service), the
    conversions between them, the conversions of DDL actions, and the task
    filtering every drive starts from.  Spirit's [StatementType] is not part of
    the repository: it is a type with five named constants. *)

From S2P Require Import Prelude State.

Local Open Scope string_scope.

(** ** Engine states (pkg/engine/engine.go) *)

Module Engine.
Definition StatePending := "pending".
Definition StateRunning := "running".
Definition StateWaitingForDeploy := "waiting_for_deploy".
Definition StateWaitingForCutover := "waiting_for_cutover".
Definition StateCuttingOver := "cutting_over".
Definition StateRevertWindow := "revert_window".
Definition StateReverting := "reverting".
Definition StateCompleted := "completed".
Definition StateFailed := "failed".
Definition StateStopped := "stopped".
Definition StateCancelled := "cancelled".
Definition StateReverted := "reverted".
End Engine.

Definition EngineState_IsTerminal (s : string) : bool :=
  oneOf s [ Engine.StateCompleted; Engine.StateFailed; Engine.StateStopped;
            Engine.StateCancelled; Engine.StateReverted ].

(** The part of [engine.ProgressResult] the task state depends on. *)
Record ProgressResult := {
  pr_State : string;
  Retryable : bool;
  pr_ErrorMessage : string;
  pr_Message : string;
}.

Definition engineStateToStorage (es : string) : string :=
  if es == Engine.StatePending then Task.Pending
  else if es == Engine.StateRunning then Task.Running
  else if es == Engine.StateWaitingForDeploy then Task.WaitingForDeploy
  else if es == Engine.StateWaitingForCutover then Task.WaitingForCutover
  else if es == Engine.StateCuttingOver then Task.CuttingOver
  else if es == Engine.StateRevertWindow then Task.RevertWindow
  else if es == Engine.StateReverting then Task.Reverting
  else if es == Engine.StateCompleted then Task.Completed
  else if es == Engine.StateFailed then Task.Failed
  else if es == Engine.StateStopped then Task.Stopped
  else if es == Engine.StateCancelled then Task.Cancelled
  else if es == Engine.StateReverted then Task.Reverted
  else Task.Running.

(** [result == nil] is [None]. *)
Definition taskStateFromProgressResult (result : option ProgressResult) : string :=
  match result with
  | None => Task.Pending
  | Some r =>
      if (pr_State r == Engine.StateFailed) && Retryable r then Task.FailedRetryable
      else engineStateToStorage (pr_State r)
  end.

Definition progressFailureMessage (result : option ProgressResult) : string :=
  match result with
  | None => ""
  | Some r => if pr_ErrorMessage r != "" then pr_ErrorMessage r else pr_Message r
  end.

(** ** The proto enum [State]; a number without a name is [STATE_unnamed]. *)

Inductive ProtoState :=
| STATE_NO_ACTIVE_CHANGE | STATE_PENDING | STATE_RUNNING | STATE_WAITING_FOR_CUTOVER
| STATE_CUTTING_OVER | STATE_REVERT_WINDOW | STATE_COMPLETED | STATE_FAILED | STATE_STOPPED
| STATE_REVERTED | STATE_CANCELLED | STATE_PREPARING_BRANCH | STATE_APPLYING_BRANCH_CHANGES
| STATE_CREATING_DEPLOY_REQUEST | STATE_WAITING_FOR_DEPLOY | STATE_VALIDATING_DEPLOY_REQUEST
| STATE_VALIDATING_BRANCH | STATE_RECOVERING | STATE_REVERTING | STATE_unnamed (n : Z).

#[global] Instance ProtoState_eq_dec : EqDecision ProtoState.
Proof. solve_decision. Defined.

Definition storageStateToProto (ts : string) : ProtoState :=
  let ts := NormalizeState ts in
  if ts == Task.Pending then STATE_PENDING
  else if ts == Task.Running then STATE_RUNNING
  else if ts == Task.WaitingForDeploy then STATE_WAITING_FOR_DEPLOY
  else if ts == Task.WaitingForCutover then STATE_WAITING_FOR_CUTOVER
  else if oneOf ts [Task.Recovering; Apply.Recovering] then STATE_RECOVERING
  else if ts == Task.CuttingOver then STATE_CUTTING_OVER
  else if ts == Task.RevertWindow then STATE_REVERT_WINDOW
  else if oneOf ts [Task.Reverting; Apply.Reverting] then STATE_REVERTING
  else if ts == Task.Completed then STATE_COMPLETED
  else if ts == Task.Failed then STATE_FAILED
  else if oneOf ts [Task.FailedRetryable; Apply.FailedRetryable] then STATE_FAILED
  else if ts == Task.Stopped then STATE_STOPPED
  else if ts == Task.Cancelled then STATE_CANCELLED
  else if ts == Task.Reverted then STATE_REVERTED
  else if ts == Apply.PreparingBranch then STATE_PREPARING_BRANCH
  else if ts == Apply.ApplyingBranchChanges then STATE_APPLYING_BRANCH_CHANGES
  else if ts == Apply.CreatingDeployRequest then STATE_CREATING_DEPLOY_REQUEST
  else if ts == Apply.ValidatingBranch then STATE_VALIDATING_BRANCH
  else if ts == Apply.ValidatingDeployRequest then STATE_VALIDATING_DEPLOY_REQUEST
  else STATE_PENDING.

Definition ProtoStateToStorage (ps : ProtoState) : string :=
  match ps with
  | STATE_NO_ACTIVE_CHANGE => ""
  | STATE_PENDING => Apply.Pending
  | STATE_RUNNING => Apply.Running
  | STATE_WAITING_FOR_DEPLOY => Apply.WaitingForDeploy
  | STATE_WAITING_FOR_CUTOVER => Apply.WaitingForCutover
  | STATE_RECOVERING => Apply.Recovering
  | STATE_CUTTING_OVER => Apply.CuttingOver
  | STATE_REVERT_WINDOW => Apply.RevertWindow
  | STATE_REVERTING => Apply.Reverting
  | STATE_COMPLETED => Apply.Completed
  | STATE_FAILED => Apply.Failed
  | STATE_STOPPED => Apply.Stopped
  | STATE_CANCELLED => Apply.Cancelled
  | STATE_REVERTED => Apply.Reverted
  | STATE_PREPARING_BRANCH => Apply.PreparingBranch
  | STATE_APPLYING_BRANCH_CHANGES => Apply.ApplyingBranchChanges
  | STATE_CREATING_DEPLOY_REQUEST => Apply.CreatingDeployRequest
  | STATE_VALIDATING_BRANCH => Apply.ValidatingBranch
  | STATE_VALIDATING_DEPLOY_REQUEST => Apply.ValidatingDeployRequest
  | STATE_unnamed _ => ""
  end.

Definition isTerminalProtoState (ps : ProtoState) : bool :=
  match ps with
  | STATE_COMPLETED | STATE_FAILED | STATE_STOPPED | STATE_CANCELLED | STATE_REVERTED => true
  | _ => false
  end.

(** ** DDL actions *)

Inductive ChangeType :=
| CHANGE_TYPE_OTHER | CHANGE_TYPE_CREATE | CHANGE_TYPE_ALTER | CHANGE_TYPE_DROP
| CHANGE_TYPE_VSCHEMA | CHANGE_TYPE_unnamed (n : Z).

(** Spirit's [statement.StatementType] and the constants the converters name. *)
Class StatementTypes (ST : Type) := {
  st_eq_dec :: EqDecision ST;
  StatementUnknown : ST;
  StatementCreateTable : ST;
  StatementAlterTable : ST;
  StatementDropTable : ST;
  StatementRenameTable : ST;
}.

Section Statements.
Context {ST : Type} `{!StatementTypes ST}.

Definition StatementTypeToOp (t : ST) : string :=
  if bool_decide (t = StatementCreateTable) then "create"
  else if bool_decide (t = StatementAlterTable) then "alter"
  else if bool_decide (t = StatementDropTable) then "drop"
  else if bool_decide (t = StatementRenameTable) then "rename"
  else "unknown".

Definition OpToStatementType (op : string) : ST :=
  let l := ToLower op in
  if l == "create" then StatementCreateTable
  else if l == "alter" then StatementAlterTable
  else if l == "drop" then StatementDropTable
  else if l == "rename" then StatementRenameTable
  else StatementUnknown.

Definition changeTypeToProto (op : ST) : ChangeType :=
  if bool_decide (op = StatementCreateTable) then CHANGE_TYPE_CREATE
  else if bool_decide (op = StatementAlterTable) then CHANGE_TYPE_ALTER
  else if bool_decide (op = StatementDropTable) then CHANGE_TYPE_DROP
  else CHANGE_TYPE_OTHER.

Definition ddlActionToProtoChangeType (action : string) : ChangeType :=
  if action == "vschema_update" then CHANGE_TYPE_VSCHEMA
  else changeTypeToProto (OpToStatementType action).

Definition protoChangeTypeToDDLAction (ct : ChangeType) : string :=
  match ct with
  | CHANGE_TYPE_VSCHEMA => "vschema_update"
  | CHANGE_TYPE_CREATE => StatementTypeToOp StatementCreateTable
  | CHANGE_TYPE_ALTER => StatementTypeToOp StatementAlterTable
  | CHANGE_TYPE_DROP => StatementTypeToOp StatementDropTable
  | _ => "unknown"
  end.

(** The constants are pairwise different, as the members of a Go enum are. *)
Definition statementsDistinct : Prop :=
  NoDup [ StatementUnknown; StatementCreateTable; StatementAlterTable;
          StatementDropTable; StatementRenameTable ].

Lemma distinct_neq : statementsDistinct ->
  StatementUnknown <> StatementCreateTable /\ StatementUnknown <> StatementAlterTable /\
  StatementUnknown <> StatementDropTable /\ StatementUnknown <> StatementRenameTable /\
  StatementCreateTable <> StatementAlterTable /\ StatementCreateTable <> StatementDropTable /\
  StatementCreateTable <> StatementRenameTable /\ StatementAlterTable <> StatementDropTable /\
  StatementAlterTable <> StatementRenameTable /\ StatementDropTable <> StatementRenameTable.
Proof.
  unfold statementsDistinct. rewrite !NoDup_cons, !not_elem_of_cons. tauto.
Qed.
End Statements.

#[local] Instance natStatements : StatementTypes nat := {|
  StatementUnknown := 0; StatementCreateTable := 1; StatementAlterTable := 2;
  StatementDropTable := 3; StatementRenameTable := 4 |}.

(** ** Tasks of an apply *)

(** The columns of [storage.Task] the drive's selection and aggregation read. *)
Record TaskRow := { t_ID : Z; t_ApplyID : Z; t_State : string }.

Definition taskStates (tasks : list TaskRow) : list string := t_State <$> tasks.

(** [sort.Slice] by [ID]. *)
Definition byID (a b : TaskRow) : Prop := (t_ID a <= t_ID b)%Z.
#[global] Instance byID_dec a b : Decision (byID a b).
Proof. unfold byID. apply _. Defined.

Definition filterTasksByApply (tasks : list TaskRow) (applyID : Z) : list TaskRow :=
  merge_sort byID (filter (fun t => t_ApplyID t = applyID) tasks).

#[global] Instance byID_total : Total byID.
Proof. intros a b. unfold byID. lia. Qed.
#[global] Instance byID_trans : Transitive byID.
Proof. intros a b c. unfold byID. lia. Qed.

(** Two sorted lists with the same elements and distinct identifiers are equal. *)
Lemma sorted_by_id_unique l1 l2 :
  StronglySorted byID l1 -> StronglySorted byID l2 -> NoDup (t_ID <$> l1) -> l1 ≡ₚ l2 -> l1 = l2.
Proof.
  revert l2. induction l1 as [|x l1 IH]; intros l2 S1 S2 Hnd Hp.
  { by apply Permutation_nil in Hp. }
  destruct l2 as [|y l2]; [by apply Permutation_sym, Permutation_nil in Hp|].
  inversion S1 as [|? ? S1' F1]; inversion S2 as [|? ? S2' F2]; subst.
  rewrite Forall_forall in F1, F2. cbn in Hnd. apply NoDup_cons in Hnd as [Hx Hnd].
  assert (Hxy : x = y).
  { assert (Hy : y ∈ x :: l1) by (rewrite Hp; by left).
    assert (Hx' : x ∈ y :: l2) by (rewrite <- Hp; by left).
    apply elem_of_cons in Hy as [|Hy]; [done|]. apply elem_of_cons in Hx' as [|Hx']; [done|].
    exfalso. apply Hx. apply list_elem_of_fmap. exists y. split; [|done].
    apply F1 in Hy. apply F2 in Hx'. unfold byID in *. lia. }
  subst y. f_equal. apply IH; try done. by apply Permutation_cons_inv in Hp.
Qed.

(** ** Properties *)

(** Sending a canonical apply or task state over the wire and storing what
    comes back gives the same state, except the six states the proto has no
    name for: failed_retryable comes back failed (terminal), and checksumming,
    running_degraded, paused, resuming and skipping_revert come back pending. *)
Theorem proto_storage_roundtrip (s : string) (Hs : s ∈ (applyStates ++ taskStates_all)%list) :
  ProtoStateToStorage (storageStateToProto s) =
    if s == Apply.FailedRetryable then Apply.Failed
    else if oneOf s [ Task.Checksumming; Apply.RunningDegraded; Apply.Paused;
                      Apply.Resuming; Apply.SkippingRevert ] then Apply.Pending
    else s.
Proof. unfold applyStates, taskStates_all in Hs. cbn [app] in Hs. elem_cases Hs; reflexivity. Qed.

Lemma proto_storage_roundtrip_witness :
  ProtoStateToStorage (storageStateToProto Apply.CuttingOver) = Apply.CuttingOver.
Proof. apply (proto_storage_roundtrip Apply.CuttingOver). by apply oneOf_elem. Defined.

(** Every proto state that names a change survives the round trip through
    storage, and the two sides agree on which states are terminal. *)
Theorem storage_proto_roundtrip (ps : ProtoState) (Hps : ProtoStateToStorage ps <> "") :
  storageStateToProto (ProtoStateToStorage ps) = ps /\
  IsTerminalApplyState (ProtoStateToStorage ps) = isTerminalProtoState ps.
Proof. destruct ps; try done; split; reflexivity. Qed.

Lemma storage_proto_roundtrip_witness :
  storageStateToProto (ProtoStateToStorage STATE_REVERTING) = STATE_REVERTING /\
  IsTerminalApplyState (ProtoStateToStorage STATE_REVERTING) = false.
Proof. apply (storage_proto_roundtrip STATE_REVERTING). discriminate. Defined.

(** What an engine reports is stored without changing whether the work is
    over: a task stored terminal or stopped is one the engine reported terminal
    and the other way round, except a failure marked retryable, which is stored
    failed_retryable and stays open for recovery; unknown engine states are
    stored as running. *)
Theorem engine_terminality_preserved (r : ProgressResult) :
  (IsTerminalTaskState (taskStateFromProgressResult (Some r)) ||
   (taskStateFromProgressResult (Some r) == Task.Stopped)) =
  EngineState_IsTerminal (pr_State r) &&
    negb ((pr_State r == Engine.StateFailed) && Retryable r).
Proof.
  unfold taskStateFromProgressResult, engineStateToStorage, EngineState_IsTerminal.
  cbn [oneOf existsb]. destruct r as [s ret e m]. cbn [pr_State Retryable].
  repeat match goal with
  | |- context [s == ?c] => destruct (s == c) eqn:?; reflect_guards; try subst s
  end; destruct ret; try reflexivity; vm_compute in *; try discriminate; congruence.
Qed.

(** Rebuilding a plan's DDL action from the wire is the inverse of sending it
    for create, alter, drop (in any letter case) and vschema_update; every other
    action, rename included, comes back as unknown. *)
Theorem ddl_action_roundtrip {ST : Type} `{!StatementTypes ST}
    (Hd : statementsDistinct (ST := ST)) (action : string) :
  protoChangeTypeToDDLAction (ddlActionToProtoChangeType action) =
    if action == "vschema_update" then "vschema_update"
    else if oneOf (ToLower action) ["create"; "alter"; "drop"] then ToLower action
    else "unknown".
Proof.
  apply distinct_neq in Hd as (U1 & U2 & U3 & U4 & C1 & C2 & C3 & A1 & A2 & D1).
  unfold ddlActionToProtoChangeType. destruct (action == "vschema_update"); [done|].
  unfold OpToStatementType, changeTypeToProto. cbn [oneOf existsb].
  destruct (ToLower action == "create") eqn:E1; reflect_guards; [rewrite E1|].
  { rewrite bool_decide_true by done. cbn. unfold StatementTypeToOp. by rewrite bool_decide_true. }
  destruct (ToLower action == "alter") eqn:E2; reflect_guards; [rewrite E2|].
  { rewrite bool_decide_false, bool_decide_true by done. cbn. unfold StatementTypeToOp.
    by rewrite bool_decide_false, bool_decide_true. }
  destruct (ToLower action == "drop") eqn:E3; reflect_guards; [rewrite E3|].
  { rewrite 2!bool_decide_false, bool_decide_true by done. cbn. unfold StatementTypeToOp.
    by rewrite 2!bool_decide_false, bool_decide_true. }
  destruct (ToLower action == "rename");
    rewrite !bool_decide_false by (intros E; (symmetry in E + idtac); contradiction); reflexivity.
Qed.

Lemma ddl_action_roundtrip_witness :
  protoChangeTypeToDDLAction (ST := nat) (ddlActionToProtoChangeType (ST := nat) "ALTER") = "alter".
Proof.
  apply (ddl_action_roundtrip (ST := nat)).
  unfold statementsDistinct. by apply (bool_decide_unpack _).
Defined.

(** The tasks a drive works on are exactly the apply's own tasks, in the
    order of their identifiers; with distinct identifiers that order is the only
    possible result, so the unstable sort of the code is deterministic. *)
Theorem filterTasksByApply_spec (tasks : list TaskRow) (applyID : Z)
    (Hids : NoDup (t_ID <$> tasks)) (l : list TaskRow) :
  l = filterTasksByApply tasks applyID <->
  l ≡ₚ filter (fun t => t_ApplyID t = applyID) tasks /\ StronglySorted byID l.
Proof.
  unfold filterTasksByApply. set (mine := filter _ _).
  assert (Hnd : NoDup (t_ID <$> mine)).
  { eapply sublist_NoDup; [exact Hids|]. apply fmap_sublist, sublist_filter. }
  pose proof (merge_sort_Permutation byID mine) as Hp.
  pose proof (StronglySorted_merge_sort byID mine) as Hs.
  split; [by intros ->|]. intros [Hl Hsl]. apply sorted_by_id_unique; try done.
  - by rewrite Hl.
  - by rewrite Hl, Hp.
Qed.

Lemma filterTasksByApply_spec_witness :
  let t i a := {| t_ID := i; t_ApplyID := a; t_State := Task.Pending |} in
  [t 1 7; t 3 7]%Z ≡ₚ filter (fun t => t_ApplyID t = 7%Z) [t 3 7; t 2 8; t 1 7]%Z.
Proof.
  intros t. apply (filterTasksByApply_spec [t 3 7; t 2 8; t 1 7]%Z 7%Z).
  - by apply (bool_decide_unpack _).
  - reflexivity.
Defined.
