(* ===== verification/Sql.v ===== *)
(** * Statements, transactions and their interleaving

    A store operation of pkg/storage/mysqlstore is a Go function that sends SQL
    statements one after the other; between two of them other connections run,
    and each statement may fail.  [prog] is such a function: a tree of atomic
    statements over a shared table state.  [runE] runs one operation against an
    environment that may change the state before each statement and may make the
    statement fail; [pool_step] interleaves any number of operations.  A
    transaction that locks the rows it reads is one atomic statement.
    [withLockRetry] is retry.go. *)

From S2P Require Import Prelude.

(** ** Errors of the stores

    The sentinel errors of pkg/storage/errors.go that the operations compare
    with errors.Is; wrapping with a message does not change them.  [SqlErr] is a
    MySQL error with its number, [CtxErr] the error of a cancelled context. *)
Inductive StoreErr :=
| ErrLockHeld | ErrLockNotFound | ErrLockNotOwned | ErrLockIntentChanged
| ErrActiveApplyExists | ErrApplyNotFound | ErrApplyIDExists | ErrApplyNotReappliable
| ErrApplyLeaseLost | ErrApplyOperationNotFound | ErrApplyOperationExists
| ErrEngineResumeStateNotFound | ErrCheckNotFound
| ErrWebhookEventNotFound | ErrWebhookEventLeaseLost
| SqlErr (code : Z)
| CtxErr
| Errorf (msg : string).

#[global] Instance StoreErr_eq_dec : EqDecision StoreErr.
Proof. solve_decision. Defined.

Abbreviation res A := (result StoreErr A).

(** [nullString] of sql_helpers.go: the empty string is stored as NULL. *)
Definition nullString (s : string) : option string := if s == "" then None else Some s.

(** [nullJSON] of sql_helpers.go: absent JSON is the empty object. *)
Definition nullJSON (b : string) : string := if b == "" then "{}" else b.

Definition mysqlErrDuplicateKey : Z := 1062.
Definition mysqlErrDeadlock : Z := 1213.
Definition mysqlErrLockWaitTimeout : Z := 1205.

(** ** Operations as trees of statements *)

Inductive prog (S R : Type) : Type :=
| Ret (r : R)
| Exec {A : Type} (stmt : S -> S * res A) (k : res A -> prog S R).
Arguments Ret {S R} r.
Arguments Exec {S R A} stmt k.

Fixpoint pbind {S R R'} (p : prog S R) (f : R -> prog S R') : prog S R' :=
  match p with
  | Ret r => f r
  | Exec stmt k => Exec stmt (fun a => pbind (k a) f)
  end.

(** What happens around the n-th statement: other connections first move the
    state, then the statement either fails (and changes nothing) or runs. *)
Record envStep (S : Type) := { interfere : S -> S; fault : option StoreErr }.
Arguments interfere {S} e s.
Arguments fault {S} e.

(** The environment in which nothing else happens. *)
Definition quiet {S} : envStep S := {| interfere := fun s => s; fault := None |}.

(** The result, the final state and the number of statements sent so far. *)
Fixpoint runE {S R} (env : nat -> envStep S) (n : nat) (p : prog S R) (s : S) : S * R * nat :=
  match p with
  | Ret r => (s, r, n)
  | Exec stmt k =>
      let s := interfere (env n) s in
      match fault (env n) with
      | Some e => runE env (Datatypes.S n) (k (Err e)) s
      | None => let '(s, a) := stmt s in runE env (Datatypes.S n) (k a) s
      end
  end.

(** Alone and without failures. *)
Definition run {S R} (p : prog S R) (s : S) : S * R := fst (runE (fun _ => quiet) 0 p s).

Lemma runE_bind {S R R'} (env : nat -> envStep S) n (p : prog S R) (f : R -> prog S R') s :
  runE env n (pbind p f) s =
    let '(s', r, n') := runE env n p s in runE env n' (f r) s'.
Proof.
  revert n s. induction p as [r | A stmt k IH]; intros n s; cbn; [done|].
  destruct (fault (env n)); [apply IH|]. destruct (stmt _) as [s' a]. apply IH.
Qed.

Lemma runE_quiet {S R} n (p : prog S R) s :
  fst (runE (fun _ => quiet) n p s) = run p s.
Proof.
  unfold run. generalize 0%nat. revert n s.
  induction p as [r | A stmt k IH]; intros n s m; cbn; [done|].
  destruct (stmt s) as [s' a]. apply IH.
Qed.

Lemma run_runE {S R} (p : prog S R) s s' r :
  run p s = (s', r) -> exists n, runE (fun _ => quiet) 0 p s = (s', r, n).
Proof.
  unfold run. destruct (runE _ 0 p s) as [[s0 r0] n]. cbn. intros [= -> ->]. by exists n.
Qed.

Lemma run_Ret {S R} (r : R) (s : S) : run (Ret r) s = (s, r).
Proof. done. Qed.

Lemma run_Exec {S R A} (stmt : S -> S * res A) (k : res A -> prog S R) s :
  run (Exec stmt k) s = run (k (stmt s).2) (stmt s).1.
Proof. unfold run at 1. cbn. destruct (stmt s) as [s' a]. cbn. apply runE_quiet. Qed.

Lemma run_bind {S R R'} (p : prog S R) (f : R -> prog S R') s :
  run (pbind p f) s = run (f (run p s).2) (run p s).1.
Proof.
  unfold run at 1. rewrite runE_bind. unfold run at 2 3.
  destruct (runE _ 0 p s) as [[s' r] n]. cbn. apply runE_quiet.
Qed.

(** The states in which the statements of a run are sent, in order. *)
Fixpoint trace {S R} (env : nat -> envStep S) (n : nat) (p : prog S R) (s : S) : list S :=
  match p with
  | Ret _ => []
  | Exec stmt k =>
      let s := interfere (env n) s in
      s :: match fault (env n) with
           | Some e => trace env (Datatypes.S n) (k (Err e)) s
           | None => let '(s, a) := stmt s in trace env (Datatypes.S n) (k a) s
           end
  end.

Lemma trace_bind {S R R'} (env : nat -> envStep S) n (p : prog S R) (f : R -> prog S R') s :
  trace env n (pbind p f) s =
    (trace env n p s ++ let '(s', r, n') := runE env n p s in trace env n' (f r) s')%list.
Proof.
  revert n s. induction p as [r | A stmt k IH]; intros n s; cbn; [done|]. f_equal.
  destruct (fault (env n)); [apply IH|]. destruct (stmt _) as [s' a]. apply IH.
Qed.

(** Every run, whatever happens around its statements, relates the states in which
    they were sent to the result. *)
Definition observes {S R} (p : prog S R) (Q : list S -> R -> Prop) : Prop :=
  forall env n s s' r n', runE env n p s = (s', r, n') -> Q (trace env n p s) r.

Lemma observes_impl {S R} (p : prog S R) (Q Q' : list S -> R -> Prop) :
  observes p Q -> (forall t r, Q t r -> Q' t r) -> observes p Q'.
Proof. intros H HQ env n s s' r n' Hr. eapply HQ, H, Hr. Qed.

Lemma observes_ret {S R} (r : R) (Q : list S -> R -> Prop) : Q [] r -> observes (Ret r) Q.
Proof. by intros H env n s s' r' n' [= <- <- <-]. Qed.

Lemma observes_bind {S R R'} (p : prog S R) (f : R -> prog S R') Q1 Q :
  observes p Q1 ->
  (forall t r, Q1 t r -> observes (f r) (fun t' r' => Q (t ++ t')%list r')) ->
  observes (pbind p f) Q.
Proof.
  intros Hp Hf env n s s' r n' Hr. rewrite runE_bind in Hr. rewrite trace_bind.
  destruct (runE env n p s) as [[s1 r1] n1] eqn:E1. eapply Hf; eauto.
Qed.

Lemma observes_exec {S R A} (stmt : S -> S * res A) (k : res A -> prog S R) Q :
  (forall s e, observes (k (Err e)) (fun t r => Q (s :: t) r)) ->
  (forall s, observes (k (stmt s).2) (fun t r => Q (s :: t) r)) ->
  observes (Exec stmt k) Q.
Proof.
  intros Hfail Hok env n s s' r n' Hr. cbn in Hr |- *.
  destruct (fault (env n)) as [e|]; [eapply Hfail, Hr|].
  specialize (Hok (interfere (env n) s)). destruct (stmt _) as [s1 a]. eapply Hok, Hr.
Qed.

(** The states before and after each statement of a run: what the statements changed. *)
Fixpoint steps {S R} (env : nat -> envStep S) (n : nat) (p : prog S R) (s : S) : list (S * S) :=
  match p with
  | Ret _ => []
  | Exec stmt k =>
      let s := interfere (env n) s in
      match fault (env n) with
      | Some e => (s, s) :: steps env (Datatypes.S n) (k (Err e)) s
      | None => let '(s1, a) := stmt s in (s, s1) :: steps env (Datatypes.S n) (k a) s1
      end
  end.

Lemma steps_bind {S R R'} (env : nat -> envStep S) n (p : prog S R) (f : R -> prog S R') s :
  steps env n (pbind p f) s =
    (steps env n p s ++ let '(s', r, n') := runE env n p s in steps env n' (f r) s')%list.
Proof.
  revert n s. induction p as [r | A stmt k IH]; intros n s; cbn; [done|].
  destruct (fault (env n)); [cbn; f_equal; apply IH|]. destruct (stmt _) as [s' a]. cbn. f_equal. apply IH.
Qed.

(** Every run whose statements fail with [allowed] errors only relates what its
    statements changed to the result. *)
Definition observesSteps {S R} (allowed : StoreErr -> Prop) (p : prog S R) (Q : list (S * S) -> R -> Prop) : Prop :=
  forall env n s s' r n', (forall m e, fault (env m) = Some e -> allowed e) -> runE env n p s = (s', r, n') ->
    Q (steps env n p s) r.

Lemma observesSteps_impl {S R} {allowed} (p : prog S R) (Q Q' : list (S * S) -> R -> Prop) :
  observesSteps allowed p Q -> (forall t r, Q t r -> Q' t r) -> observesSteps allowed p Q'.
Proof. intros H HQ env n s s' r n' He Hr. eapply HQ, H; eauto. Qed.

Lemma observesSteps_ret {S R} {allowed} (r : R) (Q : list (S * S) -> R -> Prop) : Q [] r -> observesSteps allowed (Ret r) Q.
Proof. by intros H env n s s' r' n' _ [= <- <- <-]. Qed.

Lemma observesSteps_any {S R} {allowed} (p : prog S R) : observesSteps allowed p (fun _ _ => True).
Proof. done. Qed.

Lemma observesSteps_bind {S R R'} {allowed} (p : prog S R) (f : R -> prog S R') Q1 Q :
  observesSteps allowed p Q1 ->
  (forall t r, Q1 t r -> observesSteps allowed (f r) (fun t' r' => Q (t ++ t')%list r')) ->
  observesSteps allowed (pbind p f) Q.
Proof.
  intros Hp Hf env n s s' r n' He Hr. rewrite runE_bind in Hr. rewrite steps_bind.
  destruct (runE env n p s) as [[s1 r1] n1] eqn:E1. eapply Hf; eauto.
Qed.

Lemma observesSteps_exec {S R A} {allowed} (stmt : S -> S * res A) (k : res A -> prog S R) Q :
  (forall s e, allowed e -> observesSteps allowed (k (Err e)) (fun t r => Q ((s, s) :: t) r)) ->
  (forall s, observesSteps allowed (k (stmt s).2) (fun t r => Q ((s, (stmt s).1) :: t) r)) -> observesSteps allowed (Exec stmt k) Q.
Proof.
  intros Hfail Hok env n s s' r n' He Hr. cbn in Hr |- *. destruct (fault (env n)) as [e|] eqn:Ef.
  - eapply Hfail; eauto.
  - specialize (Hok (interfere (env n) s)). destruct (stmt _) as [s1 a]. by eapply Hok.
Qed.

(** No statement fails. *)
Abbreviation observesLive := (observesSteps (fun _ => False)).

(** A program on a part of the state. *)
Fixpoint focus {S T R} (get : T -> S) (put : S -> T -> T) (p : prog S R) : prog T R :=
  match p with
  | Ret r => Ret r
  | Exec stmt k => Exec (fun t => let '(s, a) := stmt (get t) in (put s t, a))
                     (fun a => focus get put (k a))
  end.

(** ** Invariants of interleaved operations *)

(** Every statement the operation can send keeps [I]. *)
Fixpoint preserves {S R} (I : S -> Prop) (p : prog S R) : Prop :=
  match p with
  | Ret _ => True
  | Exec stmt k => (forall s, I s -> I (stmt s).1) /\ (forall a, preserves I (k a))
  end.

(** A pool of operations: one of them sends its next statement, which runs or
    fails. *)
Inductive pool_step {S R} : list (prog S R) * S -> list (prog S R) * S -> Prop :=
| pool_exec pre post A (stmt : S -> S * res A) k s :
    pool_step (pre ++ Exec stmt k :: post, s)
              (pre ++ k (stmt s).2 :: post, (stmt s).1)
| pool_fail pre post A (stmt : S -> S * res A) k s e :
    pool_step (pre ++ Exec stmt k :: post, s) (pre ++ k (Err e) :: post, s).

Lemma pool_invariant {S R} (I : S -> Prop) (c c' : list (prog S R) * S) :
  rtc pool_step c c' -> Forall (preserves I) c.1 -> I c.2 ->
  Forall (preserves I) c'.1 /\ I c'.2.
Proof.
  induction 1 as [c | c1 c2 c3 Hstep _ IH]; [done|]. intros HF HI. apply IH.
  - destruct Hstep; cbn in *; apply Forall_app in HF as [Hpre Hpost];
      apply Forall_cons in Hpost as [[_ Hk] Hpost];
      apply Forall_app; split; [done|constructor; [apply Hk|done] | done |
        constructor; [apply Hk|done]].
  - destruct Hstep; cbn in *; [|done]. apply Forall_app in HF as [_ Hpost].
    apply Forall_cons in Hpost as [[Hs _] _]. by apply Hs.
Qed.

Lemma preserves_bind {S R R'} (I : S -> Prop) (p : prog S R) (f : R -> prog S R') :
  preserves I p -> (forall r, preserves I (f r)) -> preserves I (pbind p f).
Proof.
  induction p as [r | A stmt k IH]; cbn; [by intros _ H|].
  intros [Hs Hk] Hf. split; [done|]. intros a. by apply IH.
Qed.

#[export] Hint Resolve preserves_bind : schemabot.

(** Interference that keeps an invariant. *)
Definition keeps {S} (I : S -> Prop) (env : nat -> envStep S) : Prop :=
  forall n s, I s -> I (interfere (env n) s).

Lemma runE_preserves {S R} (I : S -> Prop) (env : nat -> envStep S) (p : prog S R) n s s' r n' :
  keeps I env -> preserves I p -> I s -> runE env n p s = (s', r, n') -> I s'.
Proof.
  intros Henv. revert n s. induction p as [x | A stmt k IH]; intros n s Hp Hs Hrun.
  { cbn in Hrun. by simplify_eq. }
  destruct Hp as [Hst Hk]. cbn in Hrun. destruct (fault (env n)).
  - eapply IH; [apply Hk | by apply Henv | exact Hrun].
  - pose proof (Hst _ (Henv n s Hs)) as HI. destruct (stmt _) as [s1 a].
    eapply IH; [apply Hk | exact HI | exact Hrun].
Qed.

(** ** Retry of transient lock conflicts (retry.go) *)

Definition lockRetryMaxAttempts : nat := 5.

Definition isRetryableLockError (e : StoreErr) : bool :=
  match e with
  | SqlErr code => (code =? mysqlErrDeadlock)%Z || (code =? mysqlErrLockWaitTimeout)%Z
  | _ => false
  end.

(** Waiting: changes nothing and fails only when the context is cancelled. *)
Definition sleepBackoff {S R} (k : res unit -> prog S R) : prog S R :=
  Exec (fun s => (s, Ok tt)) k.

(** The attempts [attempt .. lockRetryMaxAttempts-1], [todo] of them left. *)
Fixpoint retryLoop {S A} (fn : prog S (res A)) (todo : nat) (attempt : nat)
    (lastErr : StoreErr) : prog S (res A) :=
  match todo with
  | 0%nat => Ret (Err lastErr)
  | Datatypes.S todo' =>
      let body :=
        pbind fn (fun r =>
          match r with
          | Ok a => Ret (Ok a)
          | Err err =>
              if negb (isRetryableLockError err) then Ret (Err err)
              else retryLoop fn todo' (Datatypes.S attempt) err
          end) in
      if (0 <? attempt)%nat
      then sleepBackoff (fun r => match r with Ok _ => body | Err err => Ret (Err CtxErr) end)
      else body
  end.

Definition withLockRetry {S A} (fn : prog S (res A)) : prog S (res A) :=
  retryLoop fn lockRetryMaxAttempts 0 CtxErr.

(** An attempt whose result is final is the result of the retried operation. *)
Definition retryable {A} (r : res A) : bool :=
  match r with Ok _ => false | Err e => isRetryableLockError e end.

Lemma withLockRetry_first {S A} (env : nat -> envStep S) (fn : prog S (res A)) s :
  retryable (runE env 0 fn s).1.2 = false ->
  runE env 0 (withLockRetry fn) s = runE env 0 fn s.
Proof.
  intros H. unfold withLockRetry, lockRetryMaxAttempts. cbn [retryLoop Nat.ltb Nat.leb].
  rewrite runE_bind. destruct (runE env 0 fn s) as [[s' r] n]. cbn in H.
  destruct r as [a|e]; [done|]. cbn in H. by rewrite H.
Qed.

(** A property of the state and result that every attempt establishes when it is
    final, holds of the retried operation when its result is final. *)
Lemma retryLoop_post {S A} (env : nat -> envStep S) (fn : prog S (res A)) (Q : S -> A -> Prop) :
  (forall n s s' a n', runE env n fn s = (s', Ok a, n') -> Q s' a) ->
  forall todo attempt last n s s' a n',
    runE env n (retryLoop fn todo attempt last) s = (s', Ok a, n') -> Q s' a.
Proof.
  intros Hfn. induction todo as [|todo IH]; intros attempt last n s s' a n' Hrun.
  { cbn in Hrun. by simplify_eq. }
  assert (Hbody : forall n s, runE env n (pbind fn (fun r =>
          match r with
          | Ok a => Ret (Ok a)
          | Err err => if negb (isRetryableLockError err) then Ret (Err err)
                       else retryLoop fn todo (Datatypes.S attempt) err
          end)) s = (s', Ok a, n') -> Q s' a).
  { intros m t H. rewrite runE_bind in H. destruct (runE env m fn t) as [[t' [b|e]] m'] eqn:E.
    - cbn in H. simplify_eq. by eapply Hfn.
    - destruct (negb _); [cbn in H; by simplify_eq|]. by eapply IH. }
  cbn [retryLoop] in Hrun. destruct (0 <? attempt)%nat; [|by eapply Hbody].
  cbn in Hrun. destruct (fault (env n)); [cbn in Hrun; by simplify_eq|]. by eapply Hbody.
Qed.

Lemma withLockRetry_post {S A} (env : nat -> envStep S) (fn : prog S (res A)) (Q : S -> A -> Prop)
    n s s' a n' :
  (forall n s s' a n', runE env n fn s = (s', Ok a, n') -> Q s' a) ->
  runE env n (withLockRetry fn) s = (s', Ok a, n') -> Q s' a.
Proof. intros Hfn. by apply retryLoop_post. Qed.

Lemma retryLoop_preserves {S A} (I : S -> Prop) (fn : prog S (res A)) todo attempt last :
  preserves I fn -> preserves I (retryLoop fn todo attempt last).
Proof.
  intros Hfn. revert attempt last. induction todo as [|todo IH]; intros attempt last; [done|].
  assert (Hb : preserves I (pbind fn (fun r =>
          match r with
          | Ok a => Ret (Ok a)
          | Err err => if negb (isRetryableLockError err) then Ret (Err err)
                       else retryLoop fn todo (Datatypes.S attempt) err
          end))).
  { apply preserves_bind; [done|]. intros [a|e]; [done|]. by destruct (negb _); [|apply IH]. }
  cbn [retryLoop]. destruct (0 <? attempt)%nat; [|done].
  split; [done|]. by intros [a|e].
Qed.

(** The attempts of an operation of one statement, whose first [fails] runs the
    environment makes fail with a retryable error.  Statement [2*i] is attempt
    [i], statement [2*i+1] the wait after it. *)
Section RetryBound.
Context {S A : Type} (env : nat -> envStep S) (stmt : S -> S * res A) (s : S) (e : StoreErr)
  (fails : nat).
Hypothesis Hretry : isRetryableLockError e = true.
Hypothesis Hquiet : forall n, interfere (env n) s = s.
Hypothesis Hfail : forall i, (i < fails)%nat -> fault (env (2 * i)%nat) = Some e.
Hypothesis Hwait : forall i, fault (env (2 * i + 1)%nat) = None.
Hypothesis Hok : fault (env (2 * fails)%nat) = None.
Hypothesis Hfinal : retryable (stmt s).2 = false.

Let outcome (todo attempt : nat) : S * res A :=
  if (fails <? attempt + todo)%nat then stmt s else (s, Err e).

Lemma retryLoop_count todo attempt n last :
  (attempt <= fails)%nat -> (0 < attempt + todo)%nat ->
  n = (if (0 <? attempt)%nat then 2 * attempt - 1 else 0)%nat ->
  ((0 < attempt)%nat -> last = e) ->
  fst (runE env n (retryLoop (Exec stmt Ret) todo attempt last) s) = outcome todo attempt.
Proof using All.
  unfold outcome. revert attempt n last.
  induction todo as [|todo IH]; intros attempt n last Hle Hpos Hn Hlast.
  { cbn [retryLoop runE fst]. rewrite (proj2 (Nat.ltb_ge _ _)) by lia. by rewrite Hlast by lia. }
  assert (Hbody : fst (runE env (2 * attempt) (pbind (Exec stmt Ret) (fun r =>
      match r with
      | Ok a => Ret (Ok a)
      | Err err => if negb (isRetryableLockError err) then Ret (Err err)
                   else retryLoop (Exec stmt Ret) todo (Datatypes.S attempt) err
      end)) s) = if (fails <? attempt + Datatypes.S todo)%nat then stmt s else (s, Err e)).
  { cbn [pbind runE]. rewrite Hquiet. destruct (decide (attempt = fails)) as [->|Hne].
    - rewrite Hok, (proj2 (Nat.ltb_lt _ _)) by lia.
      destruct (stmt s) as [s' [a|err]]; [done|]. cbn in Hfinal |- *. by rewrite Hfinal.
    - rewrite Hfail by lia. cbn [pbind]. rewrite Hretry. cbn [negb].
      rewrite <- Nat.add_succ_comm. apply IH; [lia|lia| |done]. cbn [Nat.ltb Nat.leb]. lia. }
  cbn [retryLoop]. destruct (0 <? attempt)%nat eqn:E; rewrite Hn; clear Hn.
  - apply Nat.ltb_lt in E. unfold sleepBackoff. cbn [runE]. rewrite Hquiet.
    replace (2 * attempt - 1)%nat with (2 * (attempt - 1) + 1)%nat by lia.
    rewrite Hwait. by replace (Datatypes.S (2 * (attempt - 1) + 1)) with (2 * attempt)%nat by lia.
  - apply Nat.ltb_ge in E. by assert (attempt = 0%nat) as -> by lia.
Qed.
End RetryBound.

(** ** Properties *)

(** Bounded retry.  An operation of one statement that the environment makes
    fail [fails] times with a deadlock or a lock-wait timeout is run again, at
    most five times in all: with at most four failures the retried operation
    returns the first final result, with five or more the retryable error. *)
Theorem withLockRetry_bounded {S A} (env : nat -> envStep S) (stmt : S -> S * res A) (s : S)
    (e : StoreErr) (Hretry : isRetryableLockError e = true) (fails : nat)
    (Hquiet : forall n, interfere (env n) s = s)
    (Hfail : forall i, (i < fails)%nat -> fault (env (2 * i)%nat) = Some e)
    (Hwait : forall i, fault (env (2 * i + 1)%nat) = None)
    (Hok : fault (env (2 * fails)%nat) = None)
    (Hfinal : retryable (stmt s).2 = false) :
  fst (runE env 0 (withLockRetry (Exec stmt Ret)) s) =
    if (fails <? lockRetryMaxAttempts)%nat then stmt s else (s, Err e).
Proof.
  apply (retryLoop_count env stmt s e fails Hretry Hquiet Hfail Hwait Hok Hfinal
           lockRetryMaxAttempts 0); try done; unfold lockRetryMaxAttempts; lia.
Qed.

Lemma withLockRetry_bounded_witness :
  fst (runE (fun n => {| interfere := fun s : nat => s;
                         fault := if (n =? 0)%nat then Some (SqlErr mysqlErrDeadlock) else None |})
         0 (withLockRetry (Exec (fun s => (Datatypes.S s, Ok s)) Ret)) 6%nat) = (7%nat, Ok 6%nat).
Proof.
  rewrite (withLockRetry_bounded _ _ 6%nat (SqlErr mysqlErrDeadlock) eq_refl 1%nat).
  - reflexivity.
  - reflexivity.
  - intros i Hi. replace i with 0%nat by lia. reflexivity.
  - intros i. cbn [fault]. replace (2 * i + 1 =? 0)%nat with false; [done|].
    symmetry. apply Nat.eqb_neq. lia.
  - reflexivity.
  - reflexivity.
Defined.
