(* ===== verification/Locks.v ===== *)
(** * Database locks (pkg/storage/mysqlstore/locks.go)

    One row of table [locks] per (database, type) keeps other owners from changing
    the same database.  The table is a finite map under its UNIQUE key; [ci] is
    the key of the column collation (utf8mb4_0900_ai_ci, so two strings compare
    equal in SQL when [ci] maps them to the same key, while Go compares them byte
    for byte), and [foundRows] is the connection's [clientFoundRows]: whether
    RowsAffected counts matched or changed rows.  Every operation is a [prog], so
    the theorems cover other connections running between its statements. *)

From S2P Require Import Prelude Sql.

Local Open Scope string_scope.

(** [storage.Lock] *)
Record Lock := {
  l_ID : Z;
  DatabaseName : string;
  DatabaseType : string;
  Repository : string;
  PullRequest : Z;
  Owner : string;
  PendingPlanID : string;
  CreatedAt : Z;
  UpdatedAt : Z;
}.

(** The table, its AUTO_INCREMENT counter and NOW() in seconds. *)
Record lockDB := { lk_rows : gmap (string * string) Lock; lk_nextID : Z; lk_now : Z }.

Definition setRows (rows : gmap (string * string) Lock) (db : lockDB) : lockDB :=
  {| lk_rows := rows; lk_nextID := lk_nextID db; lk_now := lk_now db |}.

(** By the number of a MySQL error, otherwise by the text of the error; no sentinel
    error has such a text, nor has a cancelled context. *)
Definition isDuplicateKeyError (e : StoreErr) : bool :=
  match e with
  | SqlErr code => (code =? mysqlErrDuplicateKey)%Z
  | Errorf msg => match String.index 0 "Duplicate entry" msg with Some _ => true | None => false end
  | _ => false
  end.

Section LockStore.
Context (ci : string -> string) (foundRows : bool).

Definition lockKey (database dbType : string) : string * string := (ci database, ci dbType).

(** RowsAffected of an UPDATE that matched one row. *)
Definition rowsAffected (changed : bool) : Z := if foundRows || changed then 1 else 0.

(** ** Statements *)

Definition selectLock (database dbType : string) (db : lockDB) : lockDB * res (option Lock) :=
  (db, Ok (lk_rows db !! lockKey database dbType)).

Definition insertLock (lock : Lock) (db : lockDB) : lockDB * res unit :=
  let key := lockKey (DatabaseName lock) (DatabaseType lock) in
  match lk_rows db !! key with
  | Some _ => (db, Err (SqlErr mysqlErrDuplicateKey))
  | None =>
      let row := {| l_ID := lk_nextID db; DatabaseName := DatabaseName lock;
                    DatabaseType := DatabaseType lock; Repository := Repository lock;
                    PullRequest := PullRequest lock; Owner := Owner lock;
                    PendingPlanID := PendingPlanID lock;
                    CreatedAt := lk_now db; UpdatedAt := lk_now db |} in
      ({| lk_rows := <[key := row]> (lk_rows db); lk_nextID := lk_nextID db + 1;
          lk_now := lk_now db |}, Ok tt)
  end.

(** [UPDATE locks SET pending_plan_id = pending, updated_at = NOW() WHERE ...]
    ([pending = None] leaves the column as it is). *)
Definition updateLock (where_ : Lock -> bool) (database dbType : string)
    (pending : option string) (db : lockDB) : lockDB * res Z :=
  let key := lockKey database dbType in
  match lk_rows db !! key with
  | Some row =>
      if where_ row then
        let plan := default (PendingPlanID row) pending in
        let row' := {| l_ID := l_ID row; DatabaseName := DatabaseName row;
                       DatabaseType := DatabaseType row; Repository := Repository row;
                       PullRequest := PullRequest row; Owner := Owner row;
                       PendingPlanID := plan; CreatedAt := CreatedAt row;
                       UpdatedAt := lk_now db |} in
        (setRows (<[key := row']> (lk_rows db)) db,
         Ok (rowsAffected ((plan != PendingPlanID row) || negb (UpdatedAt row =? lk_now db)%Z)))
      else (db, Ok 0%Z)
  | None => (db, Ok 0%Z)
  end.

Definition deleteLock (where_ : Lock -> bool) (database dbType : string) (db : lockDB)
    : lockDB * res Z :=
  let key := lockKey database dbType in
  match lk_rows db !! key with
  | Some row =>
      if where_ row then (setRows (delete key (lk_rows db)) db, Ok 1%Z) else (db, Ok 0%Z)
  | None => (db, Ok 0%Z)
  end.

(** [owner = ?] in SQL *)
Definition ownerIs (owner : string) (row : Lock) : bool := ci (Owner row) == ci owner.
Definition planIs (plan : string) (row : Lock) : bool := ci (PendingPlanID row) == ci plan.

(** ** Operations *)

Definition Get (database dbType : string) : prog lockDB (res (option Lock)) :=
  Exec (selectLock database dbType) Ret.

Definition refreshPendingPlanID (lock existing : Lock) : prog lockDB (res unit) :=
  if (PendingPlanID lock == "") || (PendingPlanID lock == PendingPlanID existing)
  then Ret (Ok tt) else
  Exec (updateLock (ownerIs (Owner lock)) (DatabaseName lock) (DatabaseType lock)
          (Some (PendingPlanID lock)))
    (fun r => match r with
     | Err e => Ret (Err e)
     | Ok rowsAffected =>
         if (0 <? rowsAffected)%Z then Ret (Ok tt) else
         pbind (Get (DatabaseName lock) (DatabaseType lock))
           (fun r => match r with
            | Err e => Ret (Err e)
            | Ok None => Ret (Err ErrLockNotFound)
            | Ok (Some current) =>
                if Owner current == Owner lock then Ret (Ok tt) else Ret (Err ErrLockHeld)
            end)
     end).

Definition acquireOnce (lock : Lock) : prog lockDB (res unit) :=
  pbind (Get (DatabaseName lock) (DatabaseType lock))
    (fun r => match r with
     | Err e => Ret (Err e)
     | Ok (Some existing) =>
         if Owner existing != Owner lock then Ret (Err ErrLockHeld)
         else refreshPendingPlanID lock existing
     | Ok None =>
         Exec (insertLock lock)
           (fun r => match r with
            | Ok _ => Ret (Ok tt)
            | Err e =>
                if negb (isDuplicateKeyError e) then Ret (Err e) else
                pbind (Get (DatabaseName lock) (DatabaseType lock))
                  (fun r => match r with
                   | Err e => Ret (Err e)
                   | Ok None => Ret (Err ErrLockHeld)
                   | Ok (Some winner) =>
                       if Owner winner != Owner lock then Ret (Err ErrLockHeld)
                       else refreshPendingPlanID lock winner
                   end)
            end)
     end).

Definition Acquire (lock : Lock) : prog lockDB (res unit) := withLockRetry (acquireOnce lock).

Definition Release (database dbType owner : string) : prog lockDB (res unit) :=
  Exec (deleteLock (ownerIs owner) database dbType)
    (fun r => match r with
     | Err e => Ret (Err e)
     | Ok rowsAffected =>
         if (rowsAffected =? 0)%Z then
           pbind (Get database dbType)
             (fun r => match r with
              | Err e => Ret (Err e)
              | Ok None => Ret (Err ErrLockNotFound)
              | Ok (Some _) => Ret (Err ErrLockNotOwned)
              end)
         else Ret (Ok tt)
     end).

Definition ReleaseIfPendingPlanID (database dbType owner pendingPlanID : string)
    : prog lockDB (res bool) :=
  Exec (deleteLock (fun row => ownerIs owner row && planIs pendingPlanID row) database dbType)
    (fun r => match r with
     | Err e => Ret (Err e)
     | Ok rowsAffected => Ret (Ok (0 <? rowsAffected)%Z)
     end).

Definition ForceRelease (database dbType : string) : prog lockDB (res unit) :=
  Exec (deleteLock (fun _ => true) database dbType)
    (fun r => match r with
     | Err e => Ret (Err e)
     | Ok rowsAffected => if (rowsAffected =? 0)%Z then Ret (Err ErrLockNotFound) else Ret (Ok tt)
     end).

Definition Update (lock : Lock) : prog lockDB (res unit) :=
  Exec (updateLock (fun _ => true) (DatabaseName lock) (DatabaseType lock) None)
    (fun r => match r with
     | Err e => Ret (Err e)
     | Ok rowsAffected =>
         if (0 <? rowsAffected)%Z then Ret (Ok tt) else
         pbind (Get (DatabaseName lock) (DatabaseType lock))
           (fun r => match r with
            | Err e => Ret (Err e)
            | Ok None => Ret (Err ErrLockNotFound)
            | Ok (Some _) => Ret (Ok tt)
            end)
     end).

(** [ORDER BY created_at DESC] *)
Definition newestFirst (a b : Lock) : Prop := (CreatedAt b <= CreatedAt a)%Z.
#[global] Instance newestFirst_dec a b : Decision (newestFirst a b).
Proof. unfold newestFirst. apply _. Defined.

Definition List_ : prog lockDB (res (list Lock)) :=
  Exec (fun db => (db, Ok (merge_sort newestFirst ((map_to_list (lk_rows db)).*2)))) Ret.

Definition GetByPR (repo : string) (pr : Z) : prog lockDB (res (list Lock)) :=
  Exec (fun db => (db, Ok (filter
          (fun l => (ci (Repository l) == ci repo) && (PullRequest l =? pr)%Z)
          (map_to_list (lk_rows db)).*2))) Ret.

(** The operations other clients run; an administrator's [ForceRelease] apart. *)
Inductive lockOp :=
| OpAcquire (lock : Lock)
| OpRelease (database dbType owner : string)
| OpReleaseIf (database dbType owner plan : string)
| OpUpdate (lock : Lock)
| OpGet (database dbType : string).

Definition opProg (op : lockOp) : prog lockDB (res bool) :=
  let ok (r : res unit) := Ret (match r with Ok _ => Ok true | Err e => Err e end) in
  match op with
  | OpAcquire lock => pbind (Acquire lock) ok
  | OpRelease d t o => pbind (Release d t o) ok
  | OpReleaseIf d t o p => ReleaseIfPendingPlanID d t o p
  | OpUpdate lock => pbind (Update lock) ok
  | OpGet d t => pbind (Get d t) (fun r => Ret (match r with
                   | Ok (Some _) => Ok true | Ok None => Ok false | Err e => Err e end))
  end.

(** The owner an operation acts for. *)
Definition opOwner (op : lockOp) : option string :=
  match op with
  | OpAcquire lock => Some (Owner lock)
  | OpRelease _ _ o | OpReleaseIf _ _ o _ => Some o
  | OpUpdate _ | OpGet _ _ => None
  end.

(** ** Invariants *)

(** The database (d, t) is locked by [owner] for the plan [plan]. *)
Definition heldBy (d t owner plan : string) (db : lockDB) : Prop :=
  exists row, lk_rows db !! lockKey d t = Some row /\
              Owner row = owner /\ PendingPlanID row = plan.

(** Every row sits under its own key, and identifiers are distinct. *)
Record wfLocks (db : lockDB) : Prop := {
  wf_key : forall k row, lk_rows db !! k = Some row ->
             k = lockKey (DatabaseName row) (DatabaseType row);
  wf_fresh : forall k row, lk_rows db !! k = Some row -> (l_ID row < lk_nextID db)%Z;
  wf_ids : forall k1 k2 r1 r2, lk_rows db !! k1 = Some r1 -> lk_rows db !! k2 = Some r2 ->
             l_ID r1 = l_ID r2 -> k1 = k2;
}.

Lemma updateLock_rows where_ d t pending db k :
  lk_rows (updateLock where_ d t pending db).1 !! k =
    match lk_rows db !! k with
    | Some row =>
        if bool_decide (k = lockKey d t) && where_ row then
          Some {| l_ID := l_ID row; DatabaseName := DatabaseName row;
                  DatabaseType := DatabaseType row; Repository := Repository row;
                  PullRequest := PullRequest row; Owner := Owner row;
                  PendingPlanID := default (PendingPlanID row) pending;
                  CreatedAt := CreatedAt row; UpdatedAt := lk_now db |}
        else Some row
    | None => None
    end.
Proof.
  unfold updateLock. case_bool_decide as E.
  - subst. destruct (lk_rows db !! lockKey d t) as [row|] eqn:El; [|cbn; by rewrite El].
    destruct (where_ row); cbn; [by rewrite lookup_insert_eq | by rewrite El].
  - destruct (lk_rows db !! lockKey d t) as [row|] eqn:El; [destruct (where_ row)|]; cbn.
    + rewrite lookup_insert_ne by done. by destruct (lk_rows db !! k).
    + by destruct (lk_rows db !! k).
    + by destruct (lk_rows db !! k).
Qed.

Lemma deleteLock_rows where_ d t db k :
  lk_rows (deleteLock where_ d t db).1 !! k =
    match lk_rows db !! k with
    | Some row => if bool_decide (k = lockKey d t) && where_ row then None else Some row
    | None => None
    end.
Proof.
  unfold deleteLock. case_bool_decide as E.
  - subst. destruct (lk_rows db !! lockKey d t) as [row|] eqn:El; [|cbn; by rewrite El].
    destruct (where_ row); cbn; [by rewrite lookup_delete_eq | by rewrite El].
  - destruct (lk_rows db !! lockKey d t) as [row|] eqn:El; [destruct (where_ row)|]; cbn.
    + rewrite lookup_delete_ne by done. by destruct (lk_rows db !! k).
    + by destruct (lk_rows db !! k).
    + by destruct (lk_rows db !! k).
Qed.

Lemma updateLock_meta where_ d t pending db :
  lk_nextID (updateLock where_ d t pending db).1 = lk_nextID db.
Proof. unfold updateLock. by repeat case_match. Qed.

Lemma deleteLock_meta where_ d t db :
  lk_nextID (deleteLock where_ d t db).1 = lk_nextID db.
Proof. unfold deleteLock. by repeat case_match. Qed.

(** ** Preservation by each statement *)

(** What the statements of an operation have to keep for it to keep [I]. *)
Section Preserve.
Context (I : lockDB -> Prop).

Lemma preserves_Get d t : preserves I (Get d t).
Proof using. done. Qed.

Lemma preserves_refresh lock existing :
  (forall db, I db -> I (updateLock (ownerIs (Owner lock)) (DatabaseName lock)
                           (DatabaseType lock) (Some (PendingPlanID lock)) db).1) ->
  preserves I (refreshPendingPlanID lock existing).
Proof using.
  intros Hu. unfold refreshPendingPlanID. destruct (_ || _); [done|].
  split; [done|]. intros [n|e]; [|done]. destruct (0 <? n)%Z; [done|].
  apply preserves_bind; [apply preserves_Get|]. by intros [[c|]|e]; [case_match|..].
Qed.

Lemma preserves_Acquire lock :
  (forall db, I db -> I (insertLock lock db).1) ->
  (forall db, I db -> I (updateLock (ownerIs (Owner lock)) (DatabaseName lock)
                           (DatabaseType lock) (Some (PendingPlanID lock)) db).1) ->
  preserves I (Acquire lock).
Proof using.
  intros Hi Hu. apply retryLoop_preserves. unfold acquireOnce.
  apply preserves_bind; [apply preserves_Get|]. intros [[ex|]|e]; [| |done].
  - case_match; [done|]. by apply preserves_refresh.
  - split; [done|]. intros [[]|e]; [done|]. case_match; [done|].
    apply preserves_bind; [apply preserves_Get|]. intros [[w|]|e']; [|done|done].
    case_match; [done|]. by apply preserves_refresh.
Qed.

Lemma preserves_opProg op :
  (forall lock, op = OpAcquire lock -> forall db, I db -> I (insertLock lock db).1) ->
  (forall lock, op = OpAcquire lock -> forall db, I db ->
     I (updateLock (ownerIs (Owner lock)) (DatabaseName lock) (DatabaseType lock)
          (Some (PendingPlanID lock)) db).1) ->
  (forall lock, op = OpUpdate lock -> forall db, I db ->
     I (updateLock (fun _ => true) (DatabaseName lock) (DatabaseType lock) None db).1) ->
  (forall d t o w, opOwner op = Some o -> (forall row, w row = true -> ownerIs o row = true) ->
     forall db, I db -> I (deleteLock w d t db).1) ->
  preserves I (opProg op).
Proof using.
  intros Hi Hu Ht Hd. destruct op as [lock|d t o|d t o p|lock|d t]; cbn [opProg].
  - apply preserves_bind; [|done]. apply preserves_Acquire; eauto.
  - apply preserves_bind; [|done]. split; [by eapply Hd|]. intros [n|e]; [|done].
    case_match; [|done]. apply preserves_bind; [apply preserves_Get|]. by intros [[c|]|e].
  - split; [|by intros [n|e]]. eapply Hd; [done|]. intros row Hr. by reflect_guards.
  - apply preserves_bind; [|done]. split; [by eapply Ht|]. intros [n|e]; [|done].
    case_match; [done|]. apply preserves_bind; [apply preserves_Get|]. by intros [[c|]|e].
  - apply preserves_bind; [apply preserves_Get|done].
Qed.
End Preserve.

Lemma heldBy_insert d t o p lock db :
  heldBy d t o p db -> heldBy d t o p (insertLock lock db).1.
Proof.
  intros (row & Hr & Ho & Hp). unfold insertLock.
  set (key := lockKey (DatabaseName lock) _). destruct (lk_rows db !! key) eqn:E.
  { exists row. done. }
  exists row. split; [|done]. cbn. rewrite lookup_insert_ne; [done|]. intros Ek. by rewrite Ek, Hr in E.
Qed.

Lemma heldBy_update d t o p w d' t' pending db :
  heldBy d t o p db ->
  (pending <> None -> forall row, Owner row = o -> w row = false) ->
  heldBy d t o p (updateLock w d' t' pending db).1.
Proof.
  intros (row & Hr & Ho & Hp) Hw. unfold heldBy. rewrite updateLock_rows, Hr.
  destruct (bool_decide _ && w row) eqn:E; [|by exists row].
  reflect_guards. eexists. split; [done|]. cbn. split; [done|].
  destruct pending; [|done]. rewrite Hw in *; done.
Qed.

Lemma heldBy_delete d t o p w d' t' db :
  heldBy d t o p db -> (forall row, Owner row = o -> w row = false) ->
  heldBy d t o p (deleteLock w d' t' db).1.
Proof.
  intros (row & Hr & Ho & Hp) Hw. exists row. rewrite deleteLock_rows, Hr, Hw by done.
  by rewrite andb_false_r.
Qed.

(** The operations of other owners keep the lock. *)
Lemma others_keep d t o p op :
  (forall b, opOwner op = Some b -> ci b <> ci o) -> preserves (heldBy d t o p) (opProg op).
Proof.
  intros Hother.
  assert (Hne : forall b row, opOwner op = Some b -> Owner row = o -> ownerIs b row = false).
  { intros b row Hb Ho. unfold ownerIs. rewrite Ho. apply String.eqb_neq.
    intros E. by apply (Hother b Hb). }
  apply preserves_opProg.
  - intros lock _ db. apply heldBy_insert.
  - intros lock -> db H. apply heldBy_update; [done|]. intros _ row Ho. by apply Hne.
  - intros lock -> db H. by apply heldBy_update.
  - intros d' t' b w Hb Hw db H. apply heldBy_delete; [done|]. intros row Ho.
    destruct (w row) eqn:E; [|done]. apply Hw in E. rewrite (Hne b) in E; done.
Qed.

Lemma wf_insert lock db : wfLocks db -> wfLocks (insertLock lock db).1.
Proof.
  intros [Hk Hf Hi]. unfold insertLock. set (key := lockKey (DatabaseName lock) _).
  destruct (lk_rows db !! key) eqn:E; [done|]. cbn. split; cbn.
  - intros k row H. apply lookup_insert_Some in H as [[<- <-]|[_ H]]; [done|]. by apply Hk.
  - intros k row H. apply lookup_insert_Some in H as [[<- <-]|[_ H]]; cbn; [lia|].
    apply Hf in H. lia.
  - intros k1 k2 r1 r2 H1 H2.
    apply lookup_insert_Some in H1 as [[<- <-]|[Hn1 H1]];
      apply lookup_insert_Some in H2 as [[<- <-]|[Hn2 H2]]; cbn; try done.
    + apply Hf in H2. lia.
    + apply Hf in H1. lia.
    + by apply Hi.
Qed.

Lemma wf_update w d t pending db : wfLocks db -> wfLocks (updateLock w d t pending db).1.
Proof.
  intros [Hk Hf Hi].
  assert (Hl : forall k row', lk_rows (updateLock w d t pending db).1 !! k = Some row' ->
    exists row, lk_rows db !! k = Some row /\ l_ID row' = l_ID row /\
      DatabaseName row' = DatabaseName row /\ DatabaseType row' = DatabaseType row).
  { intros k row'. rewrite updateLock_rows. destruct (lk_rows db !! k) as [row|]; [|done].
    intros H. exists row. case_match; by simplify_eq. }
  split; [| |].
  - intros k row (row0 & H & _ & -> & ->)%Hl. by apply Hk.
  - rewrite updateLock_meta. intros k row (row0 & H & -> & _)%Hl. by eapply Hf.
  - intros k1 k2 r1 r2 (q1 & H1 & -> & _)%Hl (q2 & H2 & -> & _)%Hl. by apply Hi.
Qed.

Lemma wf_delete w d t db : wfLocks db -> wfLocks (deleteLock w d t db).1.
Proof.
  intros [Hk Hf Hi].
  assert (Hl : forall k row, lk_rows (deleteLock w d t db).1 !! k = Some row ->
    lk_rows db !! k = Some row).
  { intros k row. rewrite deleteLock_rows. destruct (lk_rows db !! k); [|done].
    by case_match. }
  split; [eauto | rewrite deleteLock_meta; eauto | eauto].
Qed.

Lemma wf_opProg op : preserves wfLocks (opProg op).
Proof.
  apply preserves_opProg; eauto using wf_insert, wf_update, wf_delete.
Qed.

(** ** Results of the operations *)

(** The lock of [lock]'s database belongs to an owner SQL cannot tell from its own. *)
Definition holds (lock : Lock) (db : lockDB) : Prop :=
  exists row, lk_rows db !! lockKey (DatabaseName lock) (DatabaseType lock) = Some row /\
              ci (Owner row) = ci (Owner lock).

Lemma refresh_holds env n lock existing db db' n' :
  runE env n (refreshPendingPlanID lock existing) db = (db', Ok tt, n') ->
  holds lock db' \/ db' = db.
Proof.
  unfold refreshPendingPlanID. destruct (_ || _); [cbn; intros; simplify_eq; by right|].
  cbn [runE]. destruct (fault (env n)); [cbn; intros; by simplify_eq|].
  destruct (updateLock _ _ _ _ _) as [db1 r] eqn:Eu. destruct r as [m|e]; [|cbn; intros; by simplify_eq].
  destruct (0 <? m)%Z eqn:Em; cbn [runE].
  - intros [= <- _]. left. unfold updateLock in Eu.
    destruct (lk_rows _ !! _) as [row|] eqn:El; [|simplify_eq].
    destruct (ownerIs _ row) eqn:Ew; [|simplify_eq]. simplify_eq/=.
    eexists. cbn. rewrite lookup_insert_eq. split; [done|]. cbn. unfold ownerIs in Ew.
    by reflect_guards.
  - unfold Get. cbn [pbind runE]. destruct (fault _); [cbn; intros; by simplify_eq|].
    unfold selectLock. cbn.
    destruct (lk_rows _ !! _) as [cur|] eqn:El; [|cbn; intros; by simplify_eq].
    destruct (Owner cur == Owner lock) eqn:Eo; cbn; intros; simplify_eq.
    left. exists cur. reflect_guards. by rewrite El, Eo.
Qed.

Lemma acquireOnce_holds env n lock db db' n' :
  runE env n (acquireOnce lock) db = (db', Ok tt, n') -> holds lock db'.
Proof.
  assert (Hrefresh : forall m db1 existing,
    lk_rows db1 !! lockKey (DatabaseName lock) (DatabaseType lock) = Some existing ->
    (Owner existing != Owner lock) = false ->
    runE env m (refreshPendingPlanID lock existing) db1 = (db', Ok tt, n') -> holds lock db').
  { intros m db1 ex Hl Ho [H | ->]%refresh_holds; [done|].
    exists ex. reflect_guards. by rewrite Hl, Ho. }
  assert (Hreread : forall m db1, runE env m (pbind (Get (DatabaseName lock) (DatabaseType lock))
      (fun r => match r with
       | Err e => Ret (Err e)
       | Ok None => Ret (Err ErrLockHeld)
       | Ok (Some winner) => if Owner winner != Owner lock then Ret (Err ErrLockHeld)
                             else refreshPendingPlanID lock winner
       end)) db1 = (db', Ok tt, n') -> holds lock db').
  { intros m db1. unfold Get. cbn [pbind runE].
    destruct (fault _); [cbn; intros; by simplify_eq|]. unfold selectLock. cbn iota beta.
    destruct (lk_rows _ !! _) as [w|] eqn:El; [|cbn; intros; by simplify_eq].
    destruct (Owner w != Owner lock) eqn:Eo; [cbn; intros; by simplify_eq|]. by apply Hrefresh. }
  unfold acquireOnce. unfold Get at 1. cbn [pbind runE].
  destruct (fault (env n)); [cbn; intros; by simplify_eq|]. unfold selectLock. cbn iota beta.
  destruct (lk_rows _ !! _) as [ex|] eqn:El.
  { destruct (Owner ex != Owner lock) eqn:Eo; [cbn; intros; by simplify_eq|].
    by apply Hrefresh. }
  cbn [runE]. destruct (fault _) as [e|].
  - destruct (negb _); [cbn; intros; by simplify_eq|]. apply Hreread.
  - unfold insertLock. set (db1 := interfere _ _). destruct (lk_rows db1 !! _) as [w0|] eqn:Ei.
    + apply Hreread.
    + cbn. intros [= <- _]. eexists. cbn. by rewrite lookup_insert_eq.
Qed.
End LockStore.

(** ** Contract of the operations, run alone

    What a client that sees no interference and no failure observes. *)
Section Contract.
Context (ci : string -> string) (foundRows : bool).

Definition acquireSpec (lock : Lock) (db : lockDB) : lockDB * res unit :=
  match lk_rows db !! lockKey ci (DatabaseName lock) (DatabaseType lock) with
  | None => ((insertLock ci lock db).1, Ok tt)
  | Some row =>
      if Owner row != Owner lock then (db, Err ErrLockHeld)
      else if (PendingPlanID lock == "") || (PendingPlanID lock == PendingPlanID row)
      then (db, Ok tt)
      else (setRows (<[lockKey ci (DatabaseName lock) (DatabaseType lock) :=
              {| l_ID := l_ID row; DatabaseName := DatabaseName row;
                 DatabaseType := DatabaseType row; Repository := Repository row;
                 PullRequest := PullRequest row; Owner := Owner row;
                 PendingPlanID := PendingPlanID lock; CreatedAt := CreatedAt row;
                 UpdatedAt := lk_now db |}]> (lk_rows db)) db, Ok tt)
  end.

Definition releaseSpec (d t owner : string) (db : lockDB) : lockDB * res unit :=
  match lk_rows db !! lockKey ci d t with
  | None => (db, Err ErrLockNotFound)
  | Some row =>
      if ownerIs ci owner row then (setRows (delete (lockKey ci d t) (lk_rows db)) db, Ok tt)
      else (db, Err ErrLockNotOwned)
  end.

Lemma Get_run d t db : run (Get ci d t) db = (db, Ok (lk_rows db !! lockKey ci d t)).
Proof. done. Qed.

Lemma refresh_run lock row db :
  lk_rows db !! lockKey ci (DatabaseName lock) (DatabaseType lock) = Some row ->
  Owner row = Owner lock ->
  run (refreshPendingPlanID ci foundRows lock row) db =
    acquireSpec lock db.
Proof.
  intros Hl Ho. unfold acquireSpec, refreshPendingPlanID. rewrite Hl, Ho, eqb_refl'. cbn [negb].
  destruct (_ || _) eqn:E; [done|]. rewrite run_Exec. unfold updateLock. rewrite Hl.
  unfold ownerIs. rewrite Ho, eqb_refl'. cbn [default fst snd]. reflect_guards.
  rewrite (proj2 (String.eqb_neq _ _)) by done.
  unfold rowsAffected. cbn [negb orb]. rewrite orb_true_r. done.
Qed.

Lemma acquireOnce_run lock db :
  run (acquireOnce ci foundRows lock) db = acquireSpec lock db.
Proof.
  unfold acquireOnce. rewrite run_bind, Get_run. cbn [fst snd].
  destruct (lk_rows db !! _) as [row|] eqn:El.
  - destruct (Owner row != Owner lock) eqn:Eo.
    + unfold acquireSpec. by rewrite El, Eo.
    + reflect_guards. by apply refresh_run.
  - unfold acquireSpec. rewrite El, run_Exec. unfold insertLock. by rewrite El.
Qed.

Lemma acquireSpec_final lock db : retryable (acquireSpec lock db).2 = false.
Proof. unfold acquireSpec. by repeat case_match. Qed.

Lemma Acquire_run lock db : run (Acquire ci foundRows lock) db = acquireSpec lock db.
Proof.
  pose proof (acquireOnce_run lock db) as H. unfold run in *.
  unfold Acquire. rewrite withLockRetry_first; [done|].
  rewrite H. apply acquireSpec_final.
Qed.

Lemma Release_run d t owner db : run (Release ci d t owner) db = releaseSpec d t owner db.
Proof.
  unfold Release, releaseSpec. rewrite run_Exec. unfold deleteLock.
  destruct (lk_rows db !! lockKey ci d t) as [row|] eqn:El; [destruct (ownerIs _ _ _)|];
    cbn [fst snd Z.eqb]; rewrite ?run_Ret; try done;
    rewrite run_bind, Get_run; cbn [fst snd]; by rewrite El.
Qed.
End Contract.

Definition exampleLock (owner plan : string) : Lock :=
  {| l_ID := 0; DatabaseName := "orders"; DatabaseType := "mysql"; Repository := "block/app";
     PullRequest := 7; Owner := owner; PendingPlanID := plan; CreatedAt := 0; UpdatedAt := 0 |}.

Definition emptyLocks : lockDB := {| lk_rows := ∅; lk_nextID := 1; lk_now := 100 |}.

(** ** Properties *)

(** C4: mutual exclusion.  While the database is locked by one owner and the other
    connections only do what keeps that lock, no Acquire by an owner that SQL can
    tell from it returns success, whatever the interleaving with its statements,
    however many of them fail and however often the retry loop runs. *)
Theorem lock_mutual_exclusion (ci : string -> string) (foundRows : bool)
    (env : nat -> envStep lockDB) (lock : Lock) (holder plan : string) (db db' : lockDB)
    (r : res unit) (n n' : nat)
    (Hheld : heldBy ci (DatabaseName lock) (DatabaseType lock) holder plan db)
    (Henv : keeps (heldBy ci (DatabaseName lock) (DatabaseType lock) holder plan) env)
    (Hother : ci (Owner lock) <> ci holder)
    (Hrun : runE env n (Acquire ci foundRows lock) db = (db', r, n')) :
  r <> Ok tt /\ heldBy ci (DatabaseName lock) (DatabaseType lock) holder plan db'.
Proof.
  set (I := heldBy ci (DatabaseName lock) (DatabaseType lock) holder plan) in *.
  assert (Hp : preserves I (Acquire ci foundRows lock)).
  { apply preserves_Acquire.
    - intros s. apply heldBy_insert.
    - intros s Hs. apply heldBy_update; [done|]. intros _ row Ho. unfold ownerIs.
      rewrite Ho. apply String.eqb_neq. congruence. }
  assert (HI : I db').
  { by eapply runE_preserves. }
  split; [|done]. intros ->.
  assert (holds ci lock db') as (row & Hrow & Ho).
  { apply (withLockRetry_post env (acquireOnce ci foundRows lock)
             (fun s (_ : unit) => holds ci lock s) n db db' tt n'); [|done].
    intros m s s' [] m'. apply acquireOnce_holds. }
  destruct HI as (row' & Hrow' & Ho' & _). simplify_eq.
Qed.

Lemma lock_mutual_exclusion_witness :
  let db := (run (Acquire ToLower true (exampleLock "a" "p1")) emptyLocks).1 in
  let lock := exampleLock "b" "p2" in
  run (Acquire ToLower true lock) db = (db, Err ErrLockHeld) /\
  (run (Acquire ToLower true lock) db).2 <> Ok tt.
Proof.
  intros db lock. split; [reflexivity|].
  refine (proj1 (lock_mutual_exclusion ToLower true (fun _ => quiet) lock "a" "p1" db
            (run (Acquire ToLower true lock) db).1 (run (Acquire ToLower true lock) db).2 0
            (runE (fun _ => quiet) 0 (Acquire ToLower true lock) db).2 _ _ _ _)).
  - eexists. split; [reflexivity|]. split; reflexivity.
  - by intros n s.
  - discriminate.
  - reflexivity.
Defined.

(** No lock is lost to another owner.  However many clients interleave
    acquires, releases, conditional releases, touches and reads, with any of
    their statements failing, a lock stays with its owner and its confirmation
    plan as long as every acquire and release is by owners SQL can tell from
    it; only its owner (or an administrator's ForceRelease) ends it. *)
Theorem lock_survives_others (ci : string -> string) (foundRows : bool) (d t holder plan : string)
    (ops : list lockOp) (db db' : lockDB) (ps : list (prog lockDB (res bool)))
    (Hheld : heldBy ci d t holder plan db)
    (Hothers : forall op b, op ∈ ops -> opOwner op = Some b -> ci b <> ci holder)
    (Hrun : rtc pool_step (opProg ci foundRows <$> ops, db) (ps, db')) :
  heldBy ci d t holder plan db'.
Proof.
  eapply (pool_invariant (heldBy ci d t holder plan)) in Hrun; [by destruct Hrun| |done].
  cbn. apply Forall_fmap, Forall_forall. intros op Hop. apply others_keep.
  intros b. by apply Hothers.
Qed.

Lemma lock_survives_others_witness :
  let db := (run (Acquire ToLower true (exampleLock "a" "p1")) emptyLocks).1 in
  heldBy ToLower "Orders" "mysql" "a" "p1" db.
Proof.
  intros db.
  refine (lock_survives_others ToLower true "Orders" "mysql" "a" "p1"
    [OpRelease "orders" "mysql" "b"; OpAcquire (exampleLock "c" "p2")] db db _ _ _
    (rtc_refl _ _)).
  - eexists. split; [reflexivity|]. split; reflexivity.
  - intros op b Hop. elem_cases Hop; intros [= <-]; discriminate.
Defined.

(** Every reachable lock table is well formed: starting from a well-formed
    table, after any interleaving of any operations with any failures each row is
    stored under its own database and type (so there is one lock per database, up
    to the collation) and lock identifiers are distinct. *)
Theorem locks_wf_reachable (ci : string -> string) (foundRows : bool) (ops : list lockOp)
    (db db' : lockDB) (ps : list (prog lockDB (res bool))) (Hwf : wfLocks ci db)
    (Hrun : rtc pool_step (opProg ci foundRows <$> ops, db) (ps, db')) :
  wfLocks ci db'.
Proof.
  eapply (pool_invariant (wfLocks ci)) in Hrun; [by destruct Hrun| |done].
  cbn. apply Forall_fmap, Forall_forall. intros op _. apply wf_opProg.
Qed.

Lemma locks_wf_reachable_witness :
  wfLocks ToLower (insertLock ToLower (exampleLock "a" "p1") emptyLocks).1.
Proof.
  eapply (locks_wf_reachable ToLower true [OpAcquire (exampleLock "a" "p1")] emptyLocks _ _).
  - split; intros *; cbn; rewrite ?lookup_empty; discriminate.
  - eapply rtc_l; [exact (pool_exec [] [] _ _ _ _)|].
    eapply rtc_l; [exact (pool_exec [] [] _ _ _ _)|]. apply rtc_refl.
Defined.

(** The contract of Acquire for a client alone with the table.  A free lock is
    taken; a lock of another owner is refused and the table is untouched; the
    owner's own lock is granted again, with the confirmation plan replaced by a
    new non-empty one and kept otherwise; and a second identical Acquire
    succeeds and changes nothing.  Both RowsAffected semantics give this. *)
Theorem acquire_contract (ci : string -> string) (foundRows : bool) (lock : Lock) (db : lockDB) :
  run (Acquire ci foundRows lock) db = acquireSpec ci lock db /\
  ((run (Acquire ci foundRows lock) db).2 = Ok tt ->
   run (Acquire ci foundRows lock) (run (Acquire ci foundRows lock) db).1 =
     ((run (Acquire ci foundRows lock) db).1, Ok tt)).
Proof.
  rewrite !Acquire_run. split; [done|]. intros Hok.
  unfold acquireSpec in Hok |- *.
  destruct (lk_rows db !! _) as [row|] eqn:El.
  - destruct (Owner row != Owner lock) eqn:Eo; [done|].
    destruct (_ || _) eqn:Ep; cbn [fst]; [by rewrite El, Eo, Ep|].
    cbn [setRows lk_rows]. rewrite lookup_insert_eq. cbn. rewrite Eo, eqb_refl', orb_true_r. done.
  - unfold insertLock. rewrite El. cbn. rewrite lookup_insert_eq. cbn.
    by rewrite !eqb_refl', orb_true_r.
Qed.

(** Release is by SQL's idea of the owner.  Alone with the table, Release
    removes the lock exactly when the collation cannot tell the caller from the
    owner, and otherwise reports not-owned or not-found without a change; so an
    owner that differs only by collation (letter case, accents) is refused by
    Acquire, whose comparison is exact, and yet can release the lock. *)
Theorem release_contract (ci : string -> string) (foundRows : bool) (d t caller : string)
    (db : lockDB) :
  run (Release ci d t caller) db = releaseSpec ci d t caller db /\
  (forall lock row, lk_rows db !! lockKey ci d t = Some row ->
     DatabaseName lock = d -> DatabaseType lock = t -> Owner lock = caller ->
     ci (Owner row) = ci caller -> Owner row <> caller ->
     run (Acquire ci foundRows lock) db = (db, Err ErrLockHeld) /\
     lk_rows (run (Release ci d t caller) db).1 !! lockKey ci d t = None).
Proof.
  rewrite Release_run. split; [done|]. intros lock row Hrow <- <- <- Hci Hne.
  rewrite Acquire_run. unfold acquireSpec, releaseSpec. rewrite Hrow.
  rewrite (proj2 (String.eqb_neq _ _)) by done. split; [done|].
  unfold ownerIs. rewrite Hci, eqb_refl'. cbn. apply lookup_delete_eq.
Qed.

(** Conditional release removes only the intent the caller observed.  It
    returns true exactly when it removed the lock, and removes it only while the
    owner and the confirmation plan are the observed ones; a lock whose plan a
    concurrent command replaced before the statement ran is left alone. *)
Theorem release_if_intent (ci : string -> string) (d t owner plan : string)
    (env : nat -> envStep lockDB) (db : lockDB) (Hfault : fault (env 0%nat) = None) :
  let db0 := interfere (env 0%nat) db in
  fst (runE env 0 (ReleaseIfPendingPlanID ci d t owner plan) db) =
    match lk_rows db0 !! lockKey ci d t with
    | Some row =>
        if ownerIs ci owner row && planIs ci plan row
        then (setRows (delete (lockKey ci d t) (lk_rows db0)) db0, Ok true)
        else (db0, Ok false)
    | None => (db0, Ok false)
    end.
Proof.
  intros db0. unfold ReleaseIfPendingPlanID. cbn [runE]. rewrite Hfault. fold db0.
  unfold deleteLock. destruct (lk_rows db0 !! _) as [row|]; [|done]. by destruct (_ && _).
Qed.

Lemma release_if_intent_witness :
  let db := (run (Acquire ToLower true (exampleLock "a" "p1")) emptyLocks).1 in
  let replan (_ : nat) := {| interfere := fun s => (run (Acquire ToLower true (exampleLock "a" "p2")) s).1;
                             fault := None |} in
  (runE replan 0 (ReleaseIfPendingPlanID ToLower "orders" "mysql" "a" "p1") db).1.2 = Ok false.
Proof.
  intros db replan.
  rewrite (release_if_intent ToLower "orders" "mysql" "a" "p1" replan db eq_refl). reflexivity.
Defined.

(** Touching a lock reports success exactly when the lock exists, whatever
    the RowsAffected semantics of the connection and even when the lock was
    touched within the same second, and moves nothing but its update time. *)
Theorem update_touch (ci : string -> string) (foundRows : bool) (lock : Lock) (db : lockDB) :
  let '(db', r) := run (Update ci foundRows lock) db in
  let key := lockKey ci (DatabaseName lock) (DatabaseType lock) in
  (r = Ok tt <-> is_Some (lk_rows db !! key)) /\
  (r <> Ok tt -> r = Err ErrLockNotFound) /\
  (forall k, k <> key -> lk_rows db' !! k = lk_rows db !! k) /\
  (forall row, lk_rows db !! key = Some row -> exists row', lk_rows db' !! key = Some row' /\
     Owner row' = Owner row /\ PendingPlanID row' = PendingPlanID row /\
     UpdatedAt row' = lk_now db).
Proof.
  unfold Update. rewrite run_Exec. unfold updateLock.
  destruct (lk_rows db !! _) as [row|] eqn:El; cbn [fst snd default].
  - assert (Hr : forall b db', lk_rows db' !! lockKey ci (DatabaseName lock) (DatabaseType lock) <> None ->
      run (if (0 <? rowsAffected foundRows b)%Z then Ret (Ok tt) else
         pbind (Get ci (DatabaseName lock) (DatabaseType lock))
           (fun r => match r with
            | Err e => Ret (Err e) | Ok None => Ret (Err ErrLockNotFound)
            | Ok (Some _) => Ret (Ok tt)
            end)) db' = (db', Ok tt)).
    { intros b db' Hex. unfold rowsAffected. destruct (foundRows || b); [done|].
      cbn [Z.ltb Z.compare]. rewrite run_bind, Get_run. cbn. by destruct (lk_rows db' !! _). }
    rewrite Hr by (cbn; by rewrite lookup_insert_eq). cbn.
    split; [by split|]. split; [done|]. split.
    + intros k Hk. by rewrite lookup_insert_ne.
    + intros row' [= <-]. eexists. rewrite lookup_insert_eq. by split.
  - cbn [Z.ltb Z.compare]. rewrite run_bind, Get_run. cbn [fst snd]. rewrite El, run_Ret.
    split; [split; [done|by intros []]|]. done.
Qed.
