(* ===== verification/Inbox.v ===== *)
(** * The durable webhook inbox (mysqlstore/webhook_events.go, webhook/durable_dispatch.go)

    Deliveries are stored before they are acknowledged; drivers claim them under a
    lease, process them and record the outcome; a reconciler sweeps what a killed
    driver left behind.  The table is the list of its rows in the order they were
    inserted; time is in microseconds, NOW() and DATETIME columns are whole
    seconds.  [foundRows] is the connection's clientFoundRows.  Rows another
    transaction holds under FOR UPDATE SKIP LOCKED are the argument [locked]. *)

From S2P Require Import Prelude Sql.

Local Open Scope string_scope.
Local Open Scope Z_scope.

(** ** Data *)

Definition MaxWebhookEventAttempts : Z := 5.
Definition WebhookProviderGitHub := "github".
Definition WebhookEventPending := "pending".
Definition WebhookEventProcessing := "processing".
Definition WebhookEventCompleted := "completed".
Definition WebhookEventFailedRetryable := "failed_retryable".
Definition WebhookEventFailed := "failed".

Definition WebhookEventStatesAll : list string :=
  [ WebhookEventPending; WebhookEventProcessing; WebhookEventFailedRetryable;
    WebhookEventCompleted; WebhookEventFailed ].

(** [storage.WebhookEvent]; a NULL column is [None]. *)
Record WebhookEvent := {
  we_ID : Z;
  Provider : string;
  DeliveryID : string;
  Event : string;
  Action : string;
  we_Repository : string;
  we_PullRequest : Z;
  HeadSHA : string;
  TenantID : string;
  Payload : string;
  we_State : string;
  Attempts : Z;
  LeaseOwner : option string;
  LeaseToken : option string;
  LeaseExpiresAt : option Z;
  RetryAfter : option Z;
  LastError : option string;
  ReceivedAt : Z;
  StartedAt : option Z;
  CompletedAt : option Z;
  we_CreatedAt : Z;
  we_UpdatedAt : Z;
}.

#[global] Instance WebhookEvent_eq_dec : EqDecision WebhookEvent.
Proof. solve_decision. Defined.

Record inboxDB := { events : list WebhookEvent; nextEventID : Z; clock : Z }.

Definition setEvents (es : list WebhookEvent) (db : inboxDB) : inboxDB :=
  {| events := es; nextEventID := nextEventID db; clock := clock db |}.

(** NOW() and the rounding of a DATETIME column. *)
Definition second : Z := 1000000.
Definition NOW (db : inboxDB) : Z := clock db / second * second.
Definition datetime (t : Z) : Z := (t + second / 2) / second * second.

Definition lte_now (t : option Z) (now : Z) : bool :=
  match t with Some t => t <=? now | None => false end.

Section Inbox.
Context (foundRows : bool).

(** [UPDATE webhook_events SET f WHERE p] and its RowsAffected. *)
Definition updateEvents (p : WebhookEvent -> bool) (f : WebhookEvent -> WebhookEvent)
    (db : inboxDB) : inboxDB * res Z :=
  let hit e := p e && (foundRows || bool_decide (f e <> e)) in
  (setEvents ((fun e => if p e then f e else e) <$> events db) db,
   Ok (Z.of_nat (length (filter (fun e => hit e) (events db))))).

Definition findEvent (id : Z) (db : inboxDB) : option WebhookEvent :=
  find (fun e => we_ID e =? id) (events db).

(** ** Creation and redelivery *)

Definition reopenWhere (provider deliveryID : string) (now : Z) (e : WebhookEvent) : bool :=
  (Provider e == provider) && (DeliveryID e == deliveryID) &&
  (oneOf (we_State e) [WebhookEventFailed; WebhookEventCompleted] ||
   ((we_State e == WebhookEventProcessing) && lte_now (LeaseExpiresAt e) now)).

Definition reopenSet (payload : string) (receivedAt now : Z) (e : WebhookEvent) : WebhookEvent :=
  {| we_ID := we_ID e; Provider := Provider e; DeliveryID := DeliveryID e; Event := Event e;
     Action := Action e; we_Repository := we_Repository e; we_PullRequest := we_PullRequest e;
     HeadSHA := HeadSHA e; TenantID := TenantID e; Payload := payload;
     we_State := WebhookEventPending; Attempts := 0; LeaseOwner := None; LeaseToken := None;
     LeaseExpiresAt := None; RetryAfter := None; LastError := LastError e;
     ReceivedAt := datetime receivedAt; StartedAt := None; CompletedAt := None;
     we_CreatedAt := we_CreatedAt e; we_UpdatedAt := now |}.

Definition reopenTerminalWebhookEvent (provider deliveryID payload : string) (receivedAt : Z)
    : prog inboxDB (res bool) :=
  Exec (fun db => updateEvents (reopenWhere provider deliveryID (clock db))
                    (reopenSet payload receivedAt (NOW db)) db)
    (fun r => Ret (match r with Ok rows => Ok (0 <? rows) | Err e => Err e end)).

Definition insertEvent (e : WebhookEvent) (db : inboxDB) : inboxDB * res Z :=
  if existsb (fun e' => (Provider e' == Provider e) && (DeliveryID e' == DeliveryID e)) (events db)
  then (db, Err (SqlErr mysqlErrDuplicateKey))
  else ({| events := events db ++
             [{| we_ID := nextEventID db; Provider := Provider e; DeliveryID := DeliveryID e;
                 Event := Event e; Action := Action e; we_Repository := we_Repository e;
                 we_PullRequest := we_PullRequest e; HeadSHA := HeadSHA e;
                 TenantID := TenantID e; Payload := Payload e; we_State := we_State e;
                 Attempts := Attempts e; LeaseOwner := None; LeaseToken := None;
                 LeaseExpiresAt := None; RetryAfter := None; LastError := None;
                 ReceivedAt := datetime (ReceivedAt e); StartedAt := None; CompletedAt := None;
                 we_CreatedAt := NOW db; we_UpdatedAt := NOW db |}];
           nextEventID := nextEventID db + 1; clock := clock db |},
        Ok (nextEventID db)).

(** The row [Create] inserts for the caller's event: provider, state and receive
    time defaulted ([appNow] is the application's clock), payload as JSON. *)
Definition createRow (appNow : Z) (event : WebhookEvent) : WebhookEvent :=
  {| we_ID := we_ID event;
     Provider := if Provider event == "" then WebhookProviderGitHub else Provider event;
     DeliveryID := DeliveryID event; Event := Event event; Action := Action event;
     we_Repository := we_Repository event; we_PullRequest := we_PullRequest event;
     HeadSHA := HeadSHA event; TenantID := TenantID event; Payload := nullJSON (Payload event);
     we_State := if we_State event == "" then WebhookEventPending else we_State event;
     Attempts := Attempts event; LeaseOwner := LeaseOwner event;
     LeaseToken := LeaseToken event; LeaseExpiresAt := LeaseExpiresAt event;
     RetryAfter := RetryAfter event; LastError := LastError event;
     ReceivedAt := if ReceivedAt event =? 0 then appNow else ReceivedAt event;
     StartedAt := StartedAt event; CompletedAt := CompletedAt event;
     we_CreatedAt := we_CreatedAt event; we_UpdatedAt := we_UpdatedAt event |}.

Definition isDuplicate (e : StoreErr) : bool :=
  match e with SqlErr code => code =? mysqlErrDuplicateKey | _ => false end.

Definition Create (appNow : Z) (event : WebhookEvent) : prog inboxDB (res bool) :=
  if DeliveryID event == "" then Ret (Err (Errorf "webhook delivery ID is required")) else
  if Event event == "" then Ret (Err (Errorf "webhook event type is required")) else
  let row := createRow appNow event in
  if we_State row != WebhookEventPending
  then Ret (Err (Errorf "new deliveries must be pending")) else
  Exec (insertEvent row)
    (fun r => match r with
     | Ok _ => Ret (Ok true)
     | Err e =>
         if isDuplicate e
         then reopenTerminalWebhookEvent (Provider row) (DeliveryID row) (Payload row) (ReceivedAt row)
         else Ret (Err e)
     end).

(** ** Claiming *)

Definition webhookClaimable (db : inboxDB) (e : WebhookEvent) : bool :=
  (we_State e == WebhookEventPending)
  || ((we_State e == WebhookEventFailedRetryable) &&
      (match RetryAfter e with None => true | Some t => t <=? NOW db end) &&
      (Attempts e <? MaxWebhookEventAttempts))
  || ((we_State e == WebhookEventProcessing) && lte_now (LeaseExpiresAt e) (clock db) &&
      (Attempts e <? MaxWebhookEventAttempts)).

(** [ORDER BY created_at, id] *)
Definition claimsBefore (a b : WebhookEvent) : bool :=
  (we_CreatedAt a <? we_CreatedAt b) ||
  ((we_CreatedAt a =? we_CreatedAt b) && (we_ID a <=? we_ID b)).

(** [LIMIT 1] of that order. *)
Fixpoint firstClaim (es : list WebhookEvent) : option WebhookEvent :=
  match es with
  | [] => None
  | e :: es' =>
      match firstClaim es' with
      | None => Some e
      | Some m => Some (if claimsBefore e m then e else m)
      end
  end.

Definition claimSet (owner leaseToken : string) (leaseDuration now clk : Z) (e : WebhookEvent)
    : WebhookEvent :=
  {| we_ID := we_ID e; Provider := Provider e; DeliveryID := DeliveryID e; Event := Event e;
     Action := Action e; we_Repository := we_Repository e; we_PullRequest := we_PullRequest e;
     HeadSHA := HeadSHA e; TenantID := TenantID e; Payload := Payload e;
     we_State := WebhookEventProcessing; Attempts := Attempts e + 1;
     LeaseOwner := Some owner; LeaseToken := Some leaseToken;
     LeaseExpiresAt := Some (clk + leaseDuration); RetryAfter := None; LastError := LastError e;
     ReceivedAt := ReceivedAt e;
     StartedAt := match StartedAt e with None => Some now | s => s end;
     CompletedAt := CompletedAt e; we_CreatedAt := we_CreatedAt e; we_UpdatedAt := now |}.

(** The claim is one transaction; [leaseToken] is the fresh UUID.  The event that is
    returned carries the claimed values (its times are the application's
    estimate of the database's; here the database's). *)
Definition FindNext (locked : Z -> bool) (owner : string) (leaseDuration : Z)
    (leaseToken : string) (db : inboxDB) : inboxDB * res (option WebhookEvent) :=
  if owner == "" then (db, Err (Errorf "webhook driver owner is required")) else
  if leaseDuration <=? 0 then (db, Err (Errorf "webhook lease duration must be positive")) else
  match firstClaim (filter (fun e => webhookClaimable db e && negb (locked (we_ID e))) (events db)) with
  | None => (db, Ok None)
  | Some e =>
      let claim := claimSet owner leaseToken leaseDuration (NOW db) (clock db) in
      ((updateEvents (fun e' => we_ID e' =? we_ID e) claim db).1, Ok (Some (claim e)))
  end.

(** ** Writes of the claim's owner *)

Definition leaseIs (id : Z) (leaseToken : string) (e : WebhookEvent) : bool :=
  (we_ID e =? id) && bool_decide (LeaseToken e = Some leaseToken).

Definition checkWebhookEventLeaseResult (rows id : Z) (leaseToken : string)
    : prog inboxDB (res unit) :=
  if 0 <? rows then Ret (Ok tt) else
  Exec (fun db => (db, Ok (option_map LeaseToken (findEvent id db))))
    (fun r => Ret (match r with
     | Err e => Err e
     | Ok None => Err ErrWebhookEventNotFound
     | Ok (Some currentToken) =>
         if bool_decide (currentToken = Some leaseToken) then Ok tt
         else Err ErrWebhookEventLeaseLost
     end)).

Definition leaseWrite (id : Z) (leaseToken : string)
    (set : inboxDB -> WebhookEvent -> WebhookEvent) : prog inboxDB (res unit) :=
  Exec (fun db => updateEvents (leaseIs id leaseToken) (set db) db)
    (fun r => match r with
     | Err e => Ret (Err e)
     | Ok rows => checkWebhookEventLeaseResult rows id leaseToken
     end).

Definition heartbeatSet (leaseDuration : Z) (db : inboxDB) (e : WebhookEvent) : WebhookEvent :=
  {| we_ID := we_ID e; Provider := Provider e; DeliveryID := DeliveryID e; Event := Event e;
     Action := Action e; we_Repository := we_Repository e; we_PullRequest := we_PullRequest e;
     HeadSHA := HeadSHA e; TenantID := TenantID e; Payload := Payload e; we_State := we_State e;
     Attempts := Attempts e; LeaseOwner := LeaseOwner e; LeaseToken := LeaseToken e;
     LeaseExpiresAt := Some (clock db + leaseDuration); RetryAfter := RetryAfter e;
     LastError := LastError e; ReceivedAt := ReceivedAt e; StartedAt := StartedAt e;
     CompletedAt := CompletedAt e; we_CreatedAt := we_CreatedAt e; we_UpdatedAt := NOW db |}.

Definition Heartbeat (id : Z) (leaseToken : string) (leaseDuration : Z) : prog inboxDB (res unit) :=
  if leaseToken == "" then Ret (Err (Errorf "webhook event lease token is required")) else
  if leaseDuration <=? 0 then Ret (Err (Errorf "webhook lease duration must be positive")) else
  leaseWrite id leaseToken (heartbeatSet leaseDuration).

Definition coalesce (a b : option Z) : option Z := match a with None => b | _ => a end.

Definition completedSet (db : inboxDB) (e : WebhookEvent) : WebhookEvent :=
  {| we_ID := we_ID e; Provider := Provider e; DeliveryID := DeliveryID e; Event := Event e;
     Action := Action e; we_Repository := we_Repository e; we_PullRequest := we_PullRequest e;
     HeadSHA := HeadSHA e; TenantID := TenantID e; Payload := Payload e;
     we_State := WebhookEventCompleted; Attempts := Attempts e; LeaseOwner := LeaseOwner e;
     LeaseToken := LeaseToken e; LeaseExpiresAt := LeaseExpiresAt e; RetryAfter := RetryAfter e;
     LastError := LastError e; ReceivedAt := ReceivedAt e; StartedAt := StartedAt e;
     CompletedAt := coalesce (CompletedAt e) (Some (NOW db)); we_CreatedAt := we_CreatedAt e;
     we_UpdatedAt := NOW db |}.

Definition MarkCompleted (id : Z) (leaseToken : string) : prog inboxDB (res unit) :=
  leaseWrite id leaseToken completedSet.

Definition failedSet (errMsg : string) (retryAfter : option Z) (db : inboxDB) (e : WebhookEvent)
    : WebhookEvent :=
  {| we_ID := we_ID e; Provider := Provider e; DeliveryID := DeliveryID e; Event := Event e;
     Action := Action e; we_Repository := we_Repository e; we_PullRequest := we_PullRequest e;
     HeadSHA := HeadSHA e; TenantID := TenantID e; Payload := Payload e;
     we_State := match retryAfter with
                 | Some _ => WebhookEventFailedRetryable
                 | None => WebhookEventFailed
                 end;
     Attempts := Attempts e; LeaseOwner := LeaseOwner e;
     LeaseToken := LeaseToken e; LeaseExpiresAt := LeaseExpiresAt e;
     RetryAfter := datetime <$> retryAfter; LastError := nullString errMsg;
     ReceivedAt := ReceivedAt e; StartedAt := StartedAt e;
     CompletedAt := match retryAfter with
                    | None => coalesce (CompletedAt e) (Some (NOW db))
                    | Some _ => CompletedAt e
                    end;
     we_CreatedAt := we_CreatedAt e; we_UpdatedAt := NOW db |}.

Definition MarkFailed (id : Z) (leaseToken errMsg : string) (retryAfter : option Z)
    : prog inboxDB (res unit) :=
  leaseWrite id leaseToken (failedSet errMsg retryAfter).

Definition releaseSet (db : inboxDB) (e : WebhookEvent) : WebhookEvent :=
  {| we_ID := we_ID e; Provider := Provider e; DeliveryID := DeliveryID e; Event := Event e;
     Action := Action e; we_Repository := we_Repository e; we_PullRequest := we_PullRequest e;
     HeadSHA := HeadSHA e; TenantID := TenantID e; Payload := Payload e;
     we_State := WebhookEventPending; Attempts := Z.max (Attempts e - 1) 0; LeaseOwner := None;
     LeaseToken := None; LeaseExpiresAt := None; RetryAfter := None; LastError := LastError e;
     ReceivedAt := ReceivedAt e;
     StartedAt := if Attempts e <=? 1 then None else StartedAt e;
     CompletedAt := CompletedAt e; we_CreatedAt := we_CreatedAt e; we_UpdatedAt := NOW db |}.

Definition Release (id : Z) (leaseToken : string) : prog inboxDB (res unit) :=
  leaseWrite id leaseToken releaseSet.

(** ** The reconciler's sweep and the observability snapshot *)

Definition isStuck (clk : Z) (e : WebhookEvent) : bool :=
  (we_State e == WebhookEventProcessing) && lte_now (LeaseExpiresAt e) clk &&
  (MaxWebhookEventAttempts <=? Attempts e).

Definition terminateSet (reason : string) (db : inboxDB) (e : WebhookEvent) : WebhookEvent :=
  {| we_ID := we_ID e; Provider := Provider e; DeliveryID := DeliveryID e; Event := Event e;
     Action := Action e; we_Repository := we_Repository e; we_PullRequest := we_PullRequest e;
     HeadSHA := HeadSHA e; TenantID := TenantID e; Payload := Payload e;
     we_State := WebhookEventFailed; Attempts := Attempts e; LeaseOwner := None;
     LeaseToken := None; LeaseExpiresAt := None; RetryAfter := None;
     LastError := nullString reason; ReceivedAt := ReceivedAt e; StartedAt := StartedAt e;
     CompletedAt := coalesce (CompletedAt e) (Some (NOW db)); we_CreatedAt := we_CreatedAt e;
     we_UpdatedAt := NOW db |}.

Definition TerminateStuckProcessing (reason : string) : prog inboxDB (res Z) :=
  Exec (fun db => updateEvents (isStuck (clock db)) (terminateSet reason db) db) Ret.

Definition HasEventForHead (provider repository : string) (pullRequest : Z) (headSHA : string)
    : prog inboxDB (res bool) :=
  let provider := if provider == "" then WebhookProviderGitHub else provider in
  if (repository == "") || (pullRequest =? 0) || (headSHA == "")
  then Ret (Err (Errorf "repository, pull request, and head SHA are required")) else
  Exec (fun db => (db, Ok (existsb (fun e =>
          (Provider e == provider) && (we_Repository e == repository) &&
          (we_PullRequest e =? pullRequest) && (HeadSHA e == headSHA)) (events db)))) Ret.

Definition GetByDeliveryID (provider deliveryID : string) : prog inboxDB (res (option WebhookEvent)) :=
  let provider := if provider == "" then WebhookProviderGitHub else provider in
  Exec (fun db => (db, Ok (find (fun e =>
          (Provider e == provider) && (DeliveryID e == deliveryID)) (events db)))) Ret.

(** [storage.WebhookInboxStats]; the age in microseconds. *)
Record WebhookInboxStats := {
  CountsByState : gmap string Z;
  OldestClaimableAge : Z;
  StuckProcessing : Z;
}.

Definition countWhere (p : WebhookEvent -> bool) (es : list WebhookEvent) : Z :=
  Z.of_nat (length (filter (fun e => p e) es)).

(** The GROUP BY: one (state, count) per state that has a row, written over the
    zeros of the canonical states. *)
Definition countsByState (es : list WebhookEvent) : gmap string Z :=
  foldl (fun m e => <[we_State e := countWhere (fun e' => we_State e' == we_State e) es]> m)
    (foldl (fun m s => <[s := 0]> m) ∅ WebhookEventStatesAll) es.

Definition minReceived (es : list WebhookEvent) : option Z :=
  foldr (fun e m => Some (match m with None => ReceivedAt e | Some t => Z.min (ReceivedAt e) t end))
    None es.

(** The three reads, in one snapshot. *)
Definition InboxStats (db : inboxDB) : WebhookInboxStats :=
  {| CountsByState := countsByState (events db);
     OldestClaimableAge :=
       match minReceived (filter (fun e => webhookClaimable db e) (events db)) with
       | Some t => Z.max (clock db - t) 0
       | None => 0
       end;
     StuckProcessing := countWhere (isStuck (clock db)) (events db) |}.
End Inbox.

(** ** The driver (durable_dispatch.go) *)

Definition maxDurableWebhookAttempts : Z := MaxWebhookEventAttempts.
Definition durableWebhookRetryDelay : Z := 60 * second.

(** How a run of one delivery ended: the error of processing and whether it may
    be retried, whether the heartbeat failed, and whether the driver's context is
    cancelled (shutdown). *)
Record RunOutcome := {
  retry : bool;
  processErr : option string;
  heartbeatErr : bool;
  ctxCancelled : bool;
}.

(** The write that ends [driveClaimedDurableWebhook]; [appNow] is time.Now(). *)
Definition driveClaimedDurableWebhook (foundRows : bool) (appNow : Z) (event : WebhookEvent)
    (o : RunOutcome) : prog inboxDB (res unit) :=
  let token := default "" (LeaseToken event) in
  match processErr o with
  | Some err =>
      if negb (heartbeatErr o) && ctxCancelled o then Release foundRows (we_ID event) token
      else
        let retryAfter :=
          if retry o && (Attempts event <? maxDurableWebhookAttempts)
          then Some (appNow + durableWebhookRetryDelay) else None in
        MarkFailed foundRows (we_ID event) token err retryAfter
  | None =>
      if heartbeatErr o then Ret (Ok tt) else MarkCompleted foundRows (we_ID event) token
  end.

(** The webhook handler's [enqueueDurablePullRequest] stores a fresh delivery. *)
Definition newDelivery (deliveryID action repo : string) (pr : Z) (headSHA tenant body : string)
    : WebhookEvent :=
  {| we_ID := 0; Provider := WebhookProviderGitHub; DeliveryID := deliveryID;
     Event := "pull_request"; Action := action; we_Repository := repo; we_PullRequest := pr;
     HeadSHA := headSHA; TenantID := tenant; Payload := body; we_State := ""; Attempts := 0;
     LeaseOwner := None; LeaseToken := None; LeaseExpiresAt := None; RetryAfter := None;
     LastError := None; ReceivedAt := 0; StartedAt := None; CompletedAt := None;
     we_CreatedAt := 0; we_UpdatedAt := 0 |}.

Definition enqueueDurablePullRequest (foundRows : bool) (appNow : Z)
    (deliveryID action repo : string) (pr : Z) (headSHA tenant body : string)
    : prog inboxDB (res bool) :=
  if deliveryID == "" then Ret (Err (Errorf "missing GitHub delivery ID")) else
  Create foundRows appNow (newDelivery deliveryID action repo pr headSHA tenant body).

(** ** The system: the table, the drivers' claims in flight, and its steps *)

Record inboxSys := { inbox : inboxDB; claims : list WebhookEvent }.

Definition freshToken (tok : string) (s : inboxSys) : Prop :=
  tok <> "" /\
  (forall e, e ∈ events (inbox s) -> LeaseToken e <> Some tok) /\
  (forall c, c ∈ claims s -> LeaseToken c <> Some tok).

Definition tick (d : Z) (db : inboxDB) : inboxDB :=
  {| events := events db; nextEventID := nextEventID db; clock := clock db + d |}.

Inductive inbox_step (foundRows : bool) : inboxSys -> inboxSys -> Prop :=
| st_enqueue s appNow deliveryID action repo pr headSHA tenant body :
    inbox_step foundRows s
      {| inbox := (run (enqueueDurablePullRequest foundRows appNow deliveryID action repo pr
                          headSHA tenant body) (inbox s)).1;
         claims := claims s |}
| st_reopen s provider deliveryID payload receivedAt :
    inbox_step foundRows s
      {| inbox := (run (reopenTerminalWebhookEvent foundRows provider deliveryID payload receivedAt)
                     (inbox s)).1;
         claims := claims s |}
| st_claim s locked owner leaseDuration tok c db' :
    freshToken tok s ->
    FindNext foundRows locked owner leaseDuration tok (inbox s) = (db', Ok (Some c)) ->
    inbox_step foundRows s {| inbox := db'; claims := c :: claims s |}
| st_heartbeat s c leaseDuration :
    c ∈ claims s ->
    inbox_step foundRows s
      {| inbox := (run (Heartbeat foundRows (we_ID c) (default "" (LeaseToken c)) leaseDuration)
                     (inbox s)).1;
         claims := claims s |}
| st_finish s pre c post appNow o :
    claims s = (pre ++ c :: post)%list ->
    inbox_step foundRows s
      {| inbox := (run (driveClaimedDurableWebhook foundRows appNow c o) (inbox s)).1;
         claims := (pre ++ post)%list |}
| st_crash s pre c post :
    claims s = (pre ++ c :: post)%list ->
    inbox_step foundRows s {| inbox := inbox s; claims := (pre ++ post)%list |}
| st_sweep s reason :
    inbox_step foundRows s
      {| inbox := (run (TerminateStuckProcessing foundRows reason) (inbox s)).1;
         claims := claims s |}
| st_tick s d :
    0 <= d -> inbox_step foundRows s {| inbox := tick d (inbox s); claims := claims s |}.

Definition emptyInbox (now : Z) : inboxSys :=
  {| inbox := {| events := []; nextEventID := 1; clock := now |}; claims := [] |}.

(** ** Invariants *)

(** What each state promises about the other columns. *)
Record rowOk (e : WebhookEvent) : Prop := {
  ok_state : we_State e ∈ WebhookEventStatesAll;
  ok_attempts : 0 <= Attempts e <= MaxWebhookEventAttempts;
  ok_pending : we_State e = WebhookEventPending ->
    Attempts e < MaxWebhookEventAttempts /\ LeaseToken e = None;
  ok_retryable : we_State e = WebhookEventFailedRetryable -> Attempts e < MaxWebhookEventAttempts;
  ok_processing : we_State e = WebhookEventProcessing ->
    1 <= Attempts e /\ is_Some (LeaseToken e) /\ is_Some (LeaseExpiresAt e);
}.

Definition deliveryKey (e : WebhookEvent) : string * string := (Provider e, DeliveryID e).

Record wfInbox (db : inboxDB) : Prop := {
  wf_ids : NoDup (we_ID <$> events db);
  wf_next : forall e, e ∈ events db -> we_ID e < nextEventID db;
  wf_keys : NoDup (deliveryKey <$> events db);
  wf_rows : forall e, e ∈ events db -> rowOk e;
}.

(** A claim in flight: while the row still carries its token, the row is being
    processed and its attempt count is the one the driver saw. *)
Record claimOk (db : inboxDB) (c : WebhookEvent) : Prop := {
  cl_token : exists tok, LeaseToken c = Some tok /\ tok <> "";
  cl_attempts : 1 <= Attempts c;
  cl_row : forall e, e ∈ events db -> we_ID e = we_ID c -> LeaseToken e = LeaseToken c ->
    we_State e = WebhookEventProcessing /\ Attempts e = Attempts c;
}.

Record wfSys (s : inboxSys) : Prop := {
  ws_inbox : wfInbox (inbox s);
  ws_claims : forall c, c ∈ claims s -> claimOk (inbox s) c;
  ws_tokens : NoDup (LeaseToken <$> claims s);
}.

(** ** Lemmas: updates of the table *)

Lemma events_update fr p f db :
  events (updateEvents fr p f db).1 = (fun e => if p e then f e else e) <$> events db.
Proof. done. Qed.

Lemma fmap_update_key {K} (key : WebhookEvent -> K) (p : WebhookEvent -> bool) (f : WebhookEvent -> WebhookEvent) (es : list WebhookEvent) :
  (forall e, key (f e) = key e) ->
  key <$> ((fun e => if p e then f e else e) <$> es) = key <$> es.
Proof.
  intros Hk. rewrite <- list_fmap_compose. apply list_fmap_ext. intros _ e _. cbn.
  by destruct (p e).
Qed.

Lemma wf_updateEvents fr p f db :
  (forall e, we_ID (f e) = we_ID e) -> (forall e, deliveryKey (f e) = deliveryKey e) ->
  (forall e, e ∈ events db -> p e = true -> rowOk e -> rowOk (f e)) ->
  wfInbox db -> wfInbox (updateEvents fr p f db).1.
Proof.
  intros Hid Hkey Hrow [Hids Hnext Hkeys Hrows]. split; rewrite ?events_update.
  - by rewrite fmap_update_key.
  - intros e (e0 & -> & He)%list_elem_of_fmap. cbn. apply Hnext in He. case_match; rewrite ?Hid; done.
  - by rewrite fmap_update_key.
  - intros e (e0 & -> & He)%list_elem_of_fmap. case_match eqn:E; [|by apply Hrows].
    apply Hrow; auto.
Qed.

Lemma claimOk_update fr p f db c :
  (forall e, we_ID (f e) = we_ID e) ->
  (forall e, e ∈ events db -> p e = true -> we_ID e = we_ID c -> LeaseToken (f e) = LeaseToken c ->
     LeaseToken e = LeaseToken c /\
     (we_State e = WebhookEventProcessing -> we_State (f e) = WebhookEventProcessing) /\
     Attempts (f e) = Attempts e) ->
  claimOk db c -> claimOk (updateEvents fr p f db).1 c.
Proof.
  intros Hid Hf [Ht Ha Hr]. split; [done|done|]. rewrite events_update.
  intros e (e0 & -> & He)%list_elem_of_fmap. case_match eqn:E; [|by apply Hr].
  rewrite Hid. intros Hi Hl. destruct (Hf e0 He E Hi Hl) as (Hl' & Hs & ->).
  destruct (Hr e0 He Hi Hl') as [H1 H2]. auto.
Qed.

(** An update that drops the claim's row from the processing state, or removes its
    token, does so only on rows of another token. *)
Lemma findEvent_elem db id e :
  NoDup (we_ID <$> events db) -> e ∈ events db -> we_ID e = id -> findEvent id db = Some e.
Proof.
  unfold findEvent. intros Hnd He <-. induction (events db) as [|x es IH]; [by apply elem_of_nil in He|].
  cbn in Hnd. apply NoDup_cons in Hnd as [Hx Hnd]. cbn. apply elem_of_cons in He as [->|He].
  - by rewrite Z.eqb_refl.
  - destruct (we_ID x =? we_ID e) eqn:E; [|by apply IH]. apply Z.eqb_eq in E.
    exfalso. apply Hx. apply list_elem_of_fmap. by exists e.
Qed.

Lemma findEvent_Some db id e : findEvent id db = Some e -> e ∈ events db /\ we_ID e = id.
Proof.
  unfold findEvent. intros H. apply find_some in H as [H1 H2].
  split; [by apply list_elem_of_In|]. by apply Z.eqb_eq.
Qed.

Lemma findEvent_None db id : findEvent id db = None -> forall e, e ∈ events db -> we_ID e <> id.
Proof.
  unfold findEvent. intros H e He E. eapply find_none in H; [|by apply list_elem_of_In].
  cbn in H. apply Z.eqb_neq in H. done.
Qed.

Lemma findEvent_update fr p f db id :
  (forall e, we_ID (f e) = we_ID e) ->
  findEvent id (updateEvents fr p f db).1 =
    option_map (fun e => if p e then f e else e) (findEvent id db).
Proof.
  intros Hid. unfold findEvent. rewrite events_update.
  induction (events db) as [|x es IH]; [done|]. cbn.
  assert ((we_ID (if p x then f x else x) =? id) = (we_ID x =? id)) as ->
    by (case_match; rewrite ?Hid; done).
  by destruct (we_ID x =? id).
Qed.

(** RowsAffected = 0 means that nothing matched, or that the match changed nothing. *)
Lemma updateEvents_zero fr p f db :
  (updateEvents fr p f db).2 = Ok 0 -> forall e, e ∈ events db -> p e = true -> f e = e.
Proof.
  unfold updateEvents. cbn. intros [= H] e He Hp.
  destruct (decide (f e = e)) as [|Hne]; [done|]. exfalso.
  assert (Hin : e ∈ filter (fun e => p e && (fr || bool_decide (f e <> e))) (events db)).
  { apply list_elem_of_filter. split; [|done]. rewrite Hp, bool_decide_true by done.
    by rewrite orb_true_r. }
  destruct (filter _ _); [by apply elem_of_nil in Hin | cbn in H; lia].
Qed.

(** A lease-guarded write: the row with the identifier and the token is changed,
    and the answer says whether the caller still owns it. *)
Lemma leaseWrite_run fr id tok set db :
  NoDup (we_ID <$> events db) -> (forall e, we_ID (set db e) = we_ID e) ->
  run (leaseWrite fr id tok set) db =
    ((updateEvents fr (leaseIs id tok) (set db) db).1,
     match findEvent id db with
     | None => Err ErrWebhookEventNotFound
     | Some e => if bool_decide (LeaseToken e = Some tok) then Ok tt
                 else Err ErrWebhookEventLeaseLost
     end).
Proof.
  intros Hnd Hid. unfold leaseWrite. rewrite run_Exec.
  destruct (updateEvents fr (leaseIs id tok) (set db) db) as [db1 r] eqn:Eu.
  assert (Hdb1 : db1 = (updateEvents fr (leaseIs id tok) (set db) db).1) by (by rewrite Eu).
  destruct r as [rows|e]; [|discriminate Eu]. cbn [fst snd].
  unfold checkWebhookEventLeaseResult. destruct (0 <? rows) eqn:E.
  - rewrite run_Ret. f_equal. apply Z.ltb_lt in E.
    assert (exists e, e ∈ events db /\ leaseIs id tok e = true) as (e & He & Hl).
    { unfold updateEvents in Eu. simplify_eq.
      destruct (filter _ (events db)) as [|e l] eqn:Ef; [cbn in E; lia|].
      assert (Hin : e ∈ e :: l) by (by left). rewrite <- Ef in Hin.
      apply list_elem_of_filter in Hin as [Hp He]. exists e. split; [done|].
      apply Is_true_true in Hp. by apply andb_true_iff in Hp as [? _]. }
    unfold leaseIs in Hl. reflect_guards. rewrite (findEvent_elem db id e); try done.
    by rewrite bool_decide_true.
  - rewrite run_Exec, run_Ret. cbn [fst snd]. f_equal. rewrite Hdb1, findEvent_update by done.
    destruct (findEvent id db) as [e|] eqn:Ef; cbn [option_map]; [|done].
    apply findEvent_Some in Ef as [He Hi]. apply Z.ltb_ge in E.
    destruct (leaseIs id tok e) eqn:El; [|done].
    rewrite (updateEvents_zero fr (leaseIs id tok) (set db) db); try done.
    rewrite Eu. cbn. f_equal. unfold updateEvents in Eu. simplify_eq. lia.
Qed.

(** ** Lemmas: the steps keep the invariant *)

Lemma state_known s : oneOf s WebhookEventStatesAll = true -> s ∈ WebhookEventStatesAll.
Proof. apply oneOf_elem. Qed.

Lemma reopen_rowOk payload receivedAt now e : rowOk (reopenSet payload receivedAt now e).
Proof. by split; cbn; try done; apply state_known. Qed.

Lemma terminate_rowOk reason db e : rowOk e -> rowOk (terminateSet reason db e).
Proof. intros [_ Ha _ _ _]. by split; cbn; try done; apply state_known. Qed.

Lemma claim_rowOk owner tok d now clk e :
  rowOk e -> Attempts e < MaxWebhookEventAttempts -> rowOk (claimSet owner tok d now clk e).
Proof.
  intros [_ Ha _ _ _] Hlt. split; cbn; try done; try (apply state_known; done); [lia|].
  intros _. split; [lia|]. by split.
Qed.

Lemma heartbeat_rowOk dur db e : rowOk e -> rowOk (heartbeatSet dur db e).
Proof.
  intros [Hs Ha Hp Hr Hq]. split; cbn; auto. intros H. destruct (Hq H) as (? & ? & ?). by split.
Qed.

Lemma completed_rowOk db e : rowOk e -> rowOk (completedSet db e).
Proof. intros [_ Ha _ _ _]. by split; cbn; try done; apply state_known. Qed.

Lemma failed_rowOk msg ra db e :
  rowOk e -> (ra <> None -> Attempts e < MaxWebhookEventAttempts) -> rowOk (failedSet msg ra db e).
Proof.
  intros [_ Ha _ _ _] Hr. split; cbn; try done; destruct ra; try done;
    try (apply state_known; done); by auto.
Qed.

Lemma release_rowOk db e : rowOk e -> rowOk (releaseSet db e).
Proof.
  intros [_ Ha _ _ _]. unfold MaxWebhookEventAttempts in Ha.
  split; cbn; try done; try (apply state_known; done); unfold MaxWebhookEventAttempts; [lia|].
  intros _. split; [lia|done].
Qed.

#[local] Hint Resolve reopen_rowOk terminate_rowOk completed_rowOk release_rowOk
  heartbeat_rowOk : schemabot.

(** A claim whose token no updated row carries afterwards stays valid. *)
Lemma claimOk_untouched fr p f db c :
  (forall e, we_ID (f e) = we_ID e) ->
  (forall e, p e = true -> LeaseToken (f e) <> LeaseToken c) ->
  claimOk db c -> claimOk (updateEvents fr p f db).1 c.
Proof.
  intros Hid Hne. apply claimOk_update; [done|]. intros e _ Hp _ Hl. by destruct (Hne e Hp).
Qed.

Lemma claimOk_token_Some db c : claimOk db c -> LeaseToken c <> None.
Proof. by intros [(tok & -> & _) _ _]. Qed.

Lemma wfSys_update fr p f s cs :
  (forall e, we_ID (f e) = we_ID e) -> (forall e, deliveryKey (f e) = deliveryKey e) ->
  (forall e, e ∈ events (inbox s) -> p e = true -> rowOk e -> rowOk (f e)) ->
  (forall c, c ∈ cs -> claimOk (inbox s) c -> claimOk (updateEvents fr p f (inbox s)).1 c) ->
  cs `sublist_of` claims s -> wfSys s ->
  wfSys {| inbox := (updateEvents fr p f (inbox s)).1; claims := cs |}.
Proof.
  intros Hid Hkey Hrow Hcl Hsub [Hi Hc Ht]. split; cbn.
  - by apply (wf_updateEvents fr).
  - intros c Hin. apply Hcl; [done|]. apply Hc. by eapply elem_of_sublist.
  - eapply sublist_NoDup; [exact Ht|]. by apply fmap_sublist.
Qed.

Lemma step_reopen fr s provider deliveryID payload receivedAt :
  wfSys s ->
  wfSys {| inbox := (run (reopenTerminalWebhookEvent fr provider deliveryID payload receivedAt)
                       (inbox s)).1;
           claims := claims s |}.
Proof.
  intros Hs. unfold reopenTerminalWebhookEvent. rewrite run_Exec, run_Ret. cbn [fst].
  apply wfSys_update; auto with schemabot.
  intros c _ Hc. apply claimOk_untouched; [done| |done]. intros e _. cbn.
  by apply not_eq_sym, (claimOk_token_Some (inbox s)).
Qed.

Lemma insert_wfInbox e db :
  we_State e = WebhookEventPending -> Attempts e = 0 -> wfInbox db ->
  wfInbox (insertEvent e db).1.
Proof.
  intros Hs Ha [Hids Hnext Hkeys Hrows]. unfold insertEvent.
  destruct (existsb _ _) eqn:E; [done|]. split; cbn.
  - rewrite fmap_app. apply NoDup_app. split; [done|]. split; [|apply NoDup_singleton].
    intros i (x & -> & Hx)%list_elem_of_fmap Hi. apply list_elem_of_singleton in Hi.
    apply Hnext in Hx. cbn in Hi. lia.
  - intros x. rewrite elem_of_app, list_elem_of_singleton. intros [Hx | ->]; cbn; [|lia].
    apply Hnext in Hx. lia.
  - rewrite fmap_app. apply NoDup_app. split; [done|]. split; [|apply NoDup_singleton].
    intros k (x & -> & Hx)%list_elem_of_fmap Hk. apply list_elem_of_singleton in Hk.
    assert (existsb (fun e' => (Provider e' == Provider e) && (DeliveryID e' == DeliveryID e))
      (events db) = true); [|congruence].
    apply existsb_elem. exists x. split; [done|]. unfold deliveryKey in Hk. cbn in Hk.
    injection Hk as -> ->. by rewrite !eqb_refl'.
  - intros x. rewrite elem_of_app, list_elem_of_singleton. intros [Hx | ->]; [by apply Hrows|].
    split; cbn; rewrite ?Hs, ?Ha; try done; by apply state_known.
Qed.

Lemma step_enqueue fr s appNow d a r p h t b :
  wfSys s ->
  wfSys {| inbox := (run (enqueueDurablePullRequest fr appNow d a r p h t b) (inbox s)).1;
           claims := claims s |}.
Proof.
  intros Hs. unfold enqueueDurablePullRequest, Create.
  destruct (d == "") eqn:Ed; [by destruct s|]. cbv zeta.
  set (row := createRow appNow (newDelivery d a r p h t b)).
  change (DeliveryID (newDelivery d a r p h t b)) with d. rewrite Ed.
  change (Event (newDelivery d a r p h t b) == "") with false.
  change (we_State row != WebhookEventPending) with false. cbn iota. rewrite run_Exec.
  assert (Hrow : we_State row = WebhookEventPending /\ Attempts row = 0) by done.
  pose proof (insert_wfInbox row (inbox s) (proj1 Hrow) (proj2 Hrow) (ws_inbox s Hs)) as Hw.
  unfold insertEvent in *. destruct (existsb _ _) eqn:E; cbn [fst snd] in *.
  - apply (step_reopen fr s), Hs.
  - rewrite run_Ret. cbn [fst]. split; cbn; [done| |apply Hs].
    intros c Hc. destruct (ws_claims s Hs c Hc) as [Ht Ha Hr]. split; [done|done|].
    intros e. cbn. rewrite elem_of_app, list_elem_of_singleton. intros [He | ->]; [by apply Hr|].
    cbn. intros _ Hn. by destruct Ht as (tok & Ht & _); rewrite Ht in Hn.
Qed.

Lemma firstClaim_elem es e : firstClaim es = Some e -> e ∈ es.
Proof.
  revert e. induction es as [|x es IH]; [done|]. cbn. intros e.
  destruct (firstClaim es) as [m|]; intros [= <-]; [|by left].
  destruct (claimsBefore x m); [by left|]. right. by apply IH.
Qed.

Lemma firstClaim_None es : firstClaim es = None -> es = [].
Proof. destruct es as [|x es]; [done|]. cbn. by destruct (firstClaim es). Qed.

(** The result of [FindNext] with valid arguments. *)
Lemma FindNext_Some fr locked owner d tok db db' c :
  FindNext fr locked owner d tok db = (db', Ok (Some c)) ->
  exists e, e ∈ events db /\ webhookClaimable db e = true /\ locked (we_ID e) = false /\
    firstClaim (filter (fun e => webhookClaimable db e && negb (locked (we_ID e))) (events db)) = Some e /\
    c = claimSet owner tok d (NOW db) (clock db) e /\
    db' = (updateEvents fr (fun e' => we_ID e' =? we_ID e)
             (claimSet owner tok d (NOW db) (clock db)) db).1.
Proof.
  unfold FindNext. destruct (owner == ""); [done|]. destruct (d <=? 0); [done|].
  destruct (firstClaim _) as [e|] eqn:E; [|done]. intros [= <- <-].
  pose proof (firstClaim_elem _ _ E) as Hin. apply list_elem_of_filter in Hin as [Hp He].
  apply Is_true_true in Hp. reflect_guards. by exists e.
Qed.

Lemma claimable_budget db e :
  rowOk e -> webhookClaimable db e = true -> Attempts e < MaxWebhookEventAttempts.
Proof.
  intros [_ _ Hp _ _] H. unfold webhookClaimable in H.
  apply orb_true_iff in H as [[H|H]%orb_true_iff|H]; reflect_guards.
  - by apply Hp.
  - by apply Z.ltb_lt.
  - by apply Z.ltb_lt.
Qed.

Lemma same_id_same_row db e e' :
  wfInbox db -> e ∈ events db -> e' ∈ events db -> we_ID e = we_ID e' -> e = e'.
Proof.
  intros Hw He He' Hid. pose proof (findEvent_elem db _ e (wf_ids _ Hw) He eq_refl) as H1.
  pose proof (findEvent_elem db _ e' (wf_ids _ Hw) He' eq_refl) as H2. congruence.
Qed.

Lemma step_claim fr s locked owner d tok c db' :
  freshToken tok s -> FindNext fr locked owner d tok (inbox s) = (db', Ok (Some c)) ->
  wfSys s -> wfSys {| inbox := db'; claims := c :: claims s |}.
Proof.
  intros (Hne & Hrows & Hcls) (e & He & Hc & _ & _ & -> & ->)%FindNext_Some Hs.
  set (f := claimSet owner tok d (NOW (inbox s)) (clock (inbox s))).
  pose proof (ws_inbox s Hs) as Hw. pose proof (wf_rows _ Hw e He) as Hrow.
  pose proof (claimable_budget _ _ Hrow Hc) as Hlt.
  assert (Hupd : wfSys {| inbox := (updateEvents fr (fun e' => we_ID e' =? we_ID e) f (inbox s)).1;
                          claims := claims s |}).
  { apply wfSys_update; try done.
    - intros e' He' Hid _. reflect_guards. apply (same_id_same_row (inbox s) e' e) in Hid; try done.
      subst e'. by apply claim_rowOk.
    - intros c Hc' Hcl. apply claimOk_untouched; try done. intros e' _. cbn.
      by apply not_eq_sym, Hcls. }
  destruct Hupd as [Hi Hcl Ht]. split; cbn [inbox claims]; [done| |].
  - intros c [->|Hc']%elem_of_cons; [|by apply Hcl]. split.
    + exists tok. done.
    + destruct Hrow as [_ Ha _ _ _]. cbn. lia.
    + rewrite events_update. intros x (x0 & -> & Hx)%list_elem_of_fmap.
      destruct (we_ID x0 =? we_ID e) eqn:E; reflect_guards.
      * rewrite (same_id_same_row _ x0 e Hw Hx He E). done.
      * intros Hid. by cbn in Hid.
  - apply NoDup_cons. split; [|done]. intros (c & Hc1 & Hc2)%list_elem_of_fmap.
    by apply (Hcls c Hc2).
Qed.

(** A write guarded by the lease of the claim [c], which then ends or goes on. *)
Lemma step_leaseWrite fr s c set cs :
  wfSys s -> c ∈ claims s -> cs `sublist_of` claims s ->
  (forall e, we_ID (set (inbox s) e) = we_ID e) ->
  (forall e, deliveryKey (set (inbox s) e) = deliveryKey e) ->
  (forall e, rowOk e -> we_State e = WebhookEventProcessing -> Attempts e = Attempts c ->
     rowOk (set (inbox s) e)) ->
  (forall c' e, c' ∈ cs -> LeaseToken e = LeaseToken c ->
     LeaseToken (set (inbox s) e) = LeaseToken c' ->
     LeaseToken c = LeaseToken c' /\
     (we_State e = WebhookEventProcessing -> we_State (set (inbox s) e) = WebhookEventProcessing) /\
     Attempts (set (inbox s) e) = Attempts e) ->
  wfSys {| inbox := (run (leaseWrite fr (we_ID c) (default "" (LeaseToken c)) set) (inbox s)).1;
           claims := cs |}.
Proof.
  intros Hs Hc Hsub Hid Hkey Hrow Hcl. pose proof (ws_inbox s Hs) as Hw.
  destruct (ws_claims s Hs c Hc) as [(tok & Htok & _) _ Hr].
  rewrite leaseWrite_run; [|apply Hw|done]. cbn [fst]. rewrite Htok. change (default "" (Some tok)) with tok.
  apply wfSys_update; try done.
  - intros e He Hl Hok. unfold leaseIs in Hl. reflect_guards.
    destruct (Hr e He) as [H1 H2]; [done|congruence|]. by apply Hrow.
  - intros c' Hc' Hok'. apply claimOk_update; [done| |done].
    intros e He Hl Hid' Hl'. unfold leaseIs in Hl. reflect_guards.
    destruct (Hcl c' e) as (H1 & H2 & H3); [done|congruence|done|].
    split; [congruence|]. done.
Qed.

Lemma claims_split_tokens (s : inboxSys) pre c post c' :
  wfSys s -> claims s = (pre ++ c :: post)%list -> c' ∈ (pre ++ post)%list ->
  LeaseToken c <> LeaseToken c'.
Proof.
  intros Hs Heq Hc'. pose proof (ws_tokens s Hs) as Hnd. rewrite Heq in Hnd.
  rewrite fmap_app, fmap_cons in Hnd. apply NoDup_app in Hnd as (_ & Hd & Hnd).
  apply NoDup_cons in Hnd as [Hn _]. intros E.
  apply elem_of_app in Hc' as [Hc'|Hc'].
  - apply (Hd (LeaseToken c')); [by apply list_elem_of_fmap_2|]. rewrite <- E. by left.
  - apply Hn. rewrite E. by apply list_elem_of_fmap_2.
Qed.

Lemma sublist_drop_mid {A} (pre : list A) (c : A) (post : list A) :
  (pre ++ post)%list `sublist_of` (pre ++ c :: post)%list.
Proof. apply sublist_app; [done|]. by apply sublist_cons. Qed.

Lemma step_finish fr s pre c post appNow o :
  claims s = (pre ++ c :: post)%list -> wfSys s ->
  wfSys {| inbox := (run (driveClaimedDurableWebhook fr appNow c o) (inbox s)).1;
           claims := (pre ++ post)%list |}.
Proof.
  intros Heq Hs. assert (Hc : c ∈ claims s) by (rewrite Heq; set_solver).
  assert (Hsub : (pre ++ post)%list `sublist_of` claims s)
    by (rewrite Heq; apply sublist_drop_mid).
  assert (Hdiff : forall c', c' ∈ (pre ++ post)%list -> LeaseToken c <> LeaseToken c')
    by (intros c' Hc'; eapply claims_split_tokens; eauto).
  unfold driveClaimedDurableWebhook. destruct (processErr o) as [err|].
  - destruct (_ && _).
    + apply step_leaseWrite; auto with schemabot; cbn.
      intros c' e Hc' _ Hn. exfalso.
      apply (claimOk_token_Some (inbox s) c'); [|done]. apply Hs. by eapply elem_of_sublist.
    + apply step_leaseWrite; auto with schemabot; cbn.
      * intros e Hok _ Ha. apply failed_rowOk; [done|]. rewrite Ha.
        destruct (retry o && _) eqn:E; [|done]. intros _. reflect_guards. by apply Z.ltb_lt.
      * intros c' e Hc' E1 E2. exfalso. apply (Hdiff c' Hc'). congruence.
  - destruct (heartbeatErr o).
    + destruct Hs as [Hi Hcl Ht]. split; cbn; [done| |].
      * intros c' Hc'. apply Hcl. by eapply elem_of_sublist.
      * eapply sublist_NoDup; [exact Ht|]. by apply fmap_sublist.
    + apply step_leaseWrite; auto with schemabot; cbn.
      intros c' e Hc' E1 E2. exfalso. apply (Hdiff c' Hc'). congruence.
Qed.

Lemma step_wf fr s s' : inbox_step fr s s' -> wfSys s -> wfSys s'.
Proof.
  intros Hstep Hs. destruct Hstep as
    [s appNow d a r p h t b | s pr d pl ra | s locked owner dur tok c db' Hf HF
    | s c dur Hc | s pre c post appNow o Heq | s pre c post Heq | s reason | s d Hd].
  - by apply step_enqueue.
  - by apply step_reopen.
  - by eapply step_claim.
  - unfold Heartbeat. destruct (_ == ""); [by destruct s|]. destruct (dur <=? 0); [by destruct s|].
    apply step_leaseWrite; auto with schemabot; cbn. intros c' e _ E1 E2. split; [congruence|done].
  - by apply step_finish.
  - destruct Hs as [Hi Hcl Ht]. pose proof (sublist_drop_mid pre c post) as Hsub.
    split; cbn; [done| |].
    + intros c' Hc'. apply Hcl. rewrite Heq. by eapply elem_of_sublist.
    + rewrite Heq in Ht. eapply sublist_NoDup; [exact Ht|]. by apply fmap_sublist.
  - unfold TerminateStuckProcessing. rewrite run_Exec, run_Ret. cbn [fst].
    apply wfSys_update; auto with schemabot.
    intros c Hc Hok. apply claimOk_untouched; [done| |done]. intros e _. cbn.
    by apply not_eq_sym, (claimOk_token_Some (inbox s)).
  - destruct Hs as [[H1 H2 H3 H4] Hcl Ht]. split; cbn; [by split| |done].
    intros c Hc. destruct (Hcl c Hc) as [T A R]. by split.
Qed.

Lemma empty_wf now : wfSys (emptyInbox now).
Proof.
  split; cbn; [split; cbn|..]; try apply NoDup_nil_2; intros x Hx; by apply elem_of_nil in Hx.
Qed.

Lemma reachable_wf fr now s : rtc (inbox_step fr) (emptyInbox now) s -> wfSys s.
Proof.
  intros Hr. pose proof (empty_wf now) as H0. revert H0.
  induction Hr as [|s1 s2 s3 H12 _ IH]; [done|]. intros Hs. apply IH. by eapply step_wf.
Qed.

(** ** Lemmas: the claim order, waiting, redelivery *)

Lemma claimsBefore_spec a b :
  claimsBefore a b = true <->
  we_CreatedAt a < we_CreatedAt b \/ (we_CreatedAt a = we_CreatedAt b /\ we_ID a <= we_ID b).
Proof.
  unfold claimsBefore.
  by rewrite orb_true_iff, andb_true_iff, Z.ltb_lt, Z.eqb_eq, Z.leb_le.
Qed.

Lemma firstClaim_min es e e' : firstClaim es = Some e -> e' ∈ es -> claimsBefore e e' = true.
Proof.
  revert e. induction es as [|x es IH]; intros e; [done|]. cbn.
  destruct (firstClaim es) as [m|] eqn:E.
  - intros [= <-] [->|He]%elem_of_cons.
    + destruct (claimsBefore x m) eqn:Ex; [apply claimsBefore_spec; lia|].
      apply not_true_iff_false in Ex. rewrite claimsBefore_spec in *. lia.
    + specialize (IH m eq_refl He). destruct (claimsBefore x m) eqn:Ex; [|done].
      rewrite claimsBefore_spec in *. lia.
  - intros [= <-] [->|He]%elem_of_cons; [apply claimsBefore_spec; lia|].
    apply firstClaim_None in E. subst. by apply elem_of_nil in He.
Qed.

Lemma NOW_after db d t : t + second <= clock db + d -> t <= NOW (tick d db).
Proof.
  unfold NOW, tick, second. cbn. intros H.
  pose proof (Z.mod_pos_bound (clock db + d) 1000000 ltac:(lia)).
  pose proof (Z.div_mod (clock db + d) 1000000 ltac:(lia)). lia.
Qed.

(** Whether a delivery is settled for good. *)
Definition settledEvent (e : WebhookEvent) : bool :=
  oneOf (we_State e) [WebhookEventCompleted; WebhookEventFailed].

(** Waiting makes an open row claimable or stuck. *)
Lemma open_row_progress db e :
  rowOk e -> settledEvent e = false ->
  exists d, 0 <= d /\
    (webhookClaimable (tick d db) e = true \/ isStuck (clock (tick d db)) e = true).
Proof.
  intros [Hs Ha Hp Hr Hq] Hset. unfold webhookClaimable, isStuck, settledEvent in *.
  unfold WebhookEventStatesAll in Hs. apply oneOf_elem in Hs.
  cbn [oneOf existsb] in Hs, Hset.
  destruct (we_State e == WebhookEventPending) eqn:E1; reflect_guards.
  { exists 0. split; [lia|]. by left. }
  destruct (we_State e == WebhookEventFailedRetryable) eqn:E2; reflect_guards.
  { specialize (Hr E2). rewrite (proj2 (Z.ltb_lt _ _) Hr).
    destruct (RetryAfter e) as [t|].
    - exists (Z.max 0 (t + second - clock db)). split; [lia|]. left.
      assert (Hn : t <= NOW (tick (Z.max 0 (t + second - clock db)) db)) by (apply NOW_after; lia).
      by rewrite (proj2 (Z.leb_le _ _) Hn).
    - exists 0. split; [lia|]. by left. }
  destruct (we_State e == WebhookEventProcessing) eqn:E3; reflect_guards.
  { destruct (Hq E3) as (_ & _ & (t & ->)). exists (Z.max 0 (t - clock db)). split; [lia|].
    cbn [tick clock lte_now andb orb]. rewrite (proj2 (Z.leb_le t _)) by lia.
    destruct (Attempts e <? MaxWebhookEventAttempts) eqn:E4; [by left|]. right.
    apply Z.ltb_ge in E4. by rewrite (proj2 (Z.leb_le _ _) E4). }
  exfalso. destruct (we_State e == WebhookEventCompleted) eqn:E4; reflect_guards; [done|].
  destruct (we_State e == WebhookEventFailed) eqn:E5; reflect_guards; done.
Qed.

Lemma reopen_hits fr e db payload receivedAt :
  e ∈ events db -> reopenWhere (Provider e) (DeliveryID e) (clock db) e = true ->
  (run (reopenTerminalWebhookEvent fr (Provider e) (DeliveryID e) payload receivedAt) db).2 = Ok true.
Proof.
  intros He Hw. unfold reopenTerminalWebhookEvent. rewrite run_Exec, run_Ret.
  unfold updateEvents. cbn [snd]. f_equal. apply Z.ltb_lt.
  set (f := reopenSet payload receivedAt (NOW db)).
  assert (Hne : f e <> e).
  { intros E. unfold reopenWhere in Hw. apply andb_true_iff in Hw as [_ Hw].
    rewrite <- E in Hw. cbn in Hw. done. }
  match goal with |- context [length ?l] => assert (Hel : e ∈ l) end.
  { apply list_elem_of_filter. split; [|done]. rewrite Hw, bool_decide_true by done.
    by rewrite orb_true_r. }
  match goal with |- context [length ?l] => destruct l; [by apply elem_of_nil in Hel|] end.
  cbn. lia.
Qed.

Lemma delivery_unique db e x :
  NoDup (deliveryKey <$> events db) -> e ∈ events db -> x ∈ events db ->
  deliveryKey x = deliveryKey e -> x = e.
Proof.
  intros Hnd [j Hj]%list_elem_of_lookup [i Hi]%list_elem_of_lookup Hxe.
  assert (i = j) as ->; [|congruence].
  apply (NoDup_lookup _ i j (deliveryKey e) Hnd).
  - rewrite list_lookup_fmap, Hi. cbn. by rewrite Hxe.
  - by rewrite list_lookup_fmap, Hj.
Qed.

Lemma reopenWhere_unique db e x :
  NoDup (deliveryKey <$> events db) -> e ∈ events db -> x ∈ events db ->
  reopenWhere (Provider e) (DeliveryID e) (clock db) x =
    reopenWhere (Provider e) (DeliveryID e) (clock db) e && bool_decide (deliveryKey x = deliveryKey e).
Proof.
  intros Hnd He Hx. case_bool_decide as E; [by rewrite (delivery_unique db e x), andb_true_r|].
  rewrite andb_false_r. unfold reopenWhere.
  destruct (Provider x == Provider e) eqn:E1; [|done].
  destruct (DeliveryID x == DeliveryID e) eqn:E2; [|done]. reflect_guards.
  exfalso. apply E. unfold deliveryKey. congruence.
Qed.

(** Reopening the delivery of a stored row. *)
Lemma reopen_run fr db e payload receivedAt :
  NoDup (deliveryKey <$> events db) -> e ∈ events db ->
  let reopen := reopenWhere (Provider e) (DeliveryID e) (clock db) e in
  let '(db', r) := run (reopenTerminalWebhookEvent fr (Provider e) (DeliveryID e) payload receivedAt) db in
  r = Ok reopen /\
  events db' = (fun x => if reopen && bool_decide (deliveryKey x = deliveryKey e)
                        then reopenSet payload receivedAt (NOW db) x else x) <$> events db.
Proof.
  intros Hnd He reopen. subst reopen. pose proof (reopen_hits fr e db payload receivedAt He) as Hhit.
  destruct (run _ db) as [db' out] eqn:Erun. cbn [snd] in Hhit.
  unfold reopenTerminalWebhookEvent in Erun. rewrite run_Exec, run_Ret in Erun.
  injection Erun as Hdb Hout. split; [clear Hdb|].
  - destruct (reopenWhere _ _ _ e) eqn:Ew; [by apply Hhit|]. rewrite <- Hout. unfold updateEvents.
    cbn [snd]. f_equal. apply Z.ltb_ge.
    match goal with |- context [length ?l] => destruct l as [|x l'] eqn:Ef; [done|] end.
    assert (Hin : x ∈ x :: l') by (by left). rewrite <- Ef in Hin.
    apply list_elem_of_filter in Hin as [Hp%Is_true_true Hx].
    rewrite reopenWhere_unique, Ew in Hp by done. done.
  - rewrite <- Hdb. cbn [setEvents events]. apply list_fmap_ext. intros i x Hx%list_elem_of_lookup_2.
    by rewrite reopenWhere_unique.
Qed.

(** A write under a token the row does not carry. *)
Lemma stale_write fr db id tok set e :
  wfInbox db -> e ∈ events db -> we_ID e = id -> LeaseToken e <> Some tok ->
  (forall x, we_ID (set db x) = we_ID x) ->
  run (leaseWrite fr id tok set) db = (db, Err ErrWebhookEventLeaseLost).
Proof.
  intros Hw He Hid Hstale Hkeep. rewrite leaseWrite_run; [|apply Hw|done].
  rewrite (findEvent_elem db _ e (wf_ids _ Hw) He Hid), bool_decide_false by done.
  f_equal. destruct db as [es nx clk]. unfold updateEvents, setEvents. cbn in *. f_equal.
  rewrite <- (list_fmap_id es) at 2. apply list_fmap_ext.
  intros i x Hx. apply list_elem_of_lookup_2 in Hx. unfold leaseIs.
  destruct (we_ID x =? id) eqn:E; [|done]. cbn. reflect_guards.
  rewrite (same_id_same_row _ x e Hw Hx He) by congruence. by rewrite bool_decide_false.
Qed.

(** ** Properties *)

(** A claim takes exactly the oldest claimable delivery.  FindNext returns
    nothing exactly when every claimable row is locked by another claimer;
    otherwise it takes the first claimable unlocked row by creation time and
    identifier, changes that row only, counts the attempt, gives the row to the
    new token, and no other driver can claim the row until the lease expires. *)
Theorem FindNext_claims_oldest (fr : bool) (locked : Z -> bool) (owner tok : string) (d : Z)
    (db db' : inboxDB) (r : option WebhookEvent)
    (Hnd : NoDup (we_ID <$> events db)) (Hd : 0 < d)
    (Hrun : FindNext fr locked owner d tok db = (db', Ok r)) :
  match r with
  | None => db' = db /\
      forall e, e ∈ events db -> webhookClaimable db e = true -> locked (we_ID e) = true
  | Some c =>
      exists e, e ∈ events db /\ webhookClaimable db e = true /\ locked (we_ID e) = false /\
        (forall e', e' ∈ events db -> webhookClaimable db e' = true ->
           locked (we_ID e') = false -> claimsBefore e e' = true) /\
        we_ID c = we_ID e /\ Attempts c = Attempts e + 1 /\ LeaseToken c = Some tok /\
        findEvent (we_ID e) db' = Some c /\
        (forall id, id <> we_ID e -> findEvent id db' = findEvent id db) /\
        (forall t, 0 <= t -> (t < d <-> webhookClaimable (tick t db') c = false) \/
           MaxWebhookEventAttempts <= Attempts c)
  end.
Proof.
  destruct r as [c|].
  - destruct (FindNext_Some _ _ _ _ _ _ _ _ Hrun) as (e & He & Hc & Hl & Hfirst & -> & ->).
    exists e. repeat (split; [done|]). split; [|split; [done|split; [done|split; [done|split]]]].
    + intros e' He' Hc' Hl'. eapply firstClaim_min; [exact Hfirst|].
      apply list_elem_of_filter. split; [|done]. by rewrite Hc', Hl'.
    + rewrite findEvent_update by done. rewrite (findEvent_elem db _ e) by done. cbn.
      by rewrite Z.eqb_refl.
    + split.
      * intros id Hid. rewrite findEvent_update by done.
        destruct (findEvent id db) as [x|] eqn:Ex; [|done]. cbn.
        apply findEvent_Some in Ex as [_ <-]. by rewrite (proj2 (Z.eqb_neq _ _) Hid).
      * intros t Ht. destruct (decide (MaxWebhookEventAttempts <= Attempts e + 1)) as [|Hlt];
          [by right|left].
        unfold webhookClaimable. cbn [claimSet we_State Attempts LeaseExpiresAt].
        change (WebhookEventProcessing == WebhookEventPending) with false.
        change (WebhookEventProcessing == WebhookEventFailedRetryable) with false.
        change (WebhookEventProcessing == WebhookEventProcessing) with true.
        cbn [andb orb lte_now tick clock updateEvents setEvents fst].
        rewrite (proj2 (Z.ltb_lt _ _)) by lia. rewrite andb_true_r, Z.leb_gt. lia.
  - unfold FindNext in Hrun. destruct (owner == ""); [done|]. destruct (d <=? 0); [done|].
    destruct (firstClaim _) eqn:E; [done|]. injection Hrun as <-. split; [done|].
    intros e He Hc. apply firstClaim_None in E. destruct (locked (we_ID e)) eqn:El; [done|].
    assert (Hin : e ∈ filter (fun e => webhookClaimable db e && negb (locked (we_ID e))) (events db)).
    { apply list_elem_of_filter. split; [|done]. by rewrite Hc, El. }
    rewrite E in Hin. by apply elem_of_nil in Hin.
Qed.

Definition exampleInbox : inboxDB :=
  (run (enqueueDurablePullRequest true 5000000 "d1" "opened" "block/app" 7 "abc" "1" "")
     (inbox (emptyInbox 5000000))).1.

Lemma FindNext_claims_oldest_witness :
  exists e, e ∈ events exampleInbox /\ webhookClaimable exampleInbox e = true.
Proof.
  destruct (FindNext_claims_oldest true (fun _ => false) "w1" "tok" 30000000 exampleInbox
    (FindNext true (fun _ => false) "w1" 30000000 "tok" exampleInbox).1
    (match (FindNext true (fun _ => false) "w1" 30000000 "tok" exampleInbox).2 with
     | Ok r => r | Err _ => None end)
    (NoDup_singleton 1) eq_refl eq_refl) as (e & He & Hc & _).
  by exists e.
Defined.

(** C5: the inbox invariant.  From an empty inbox, whatever the interleaving of
    deliveries, claims, heartbeats, finished runs, crashes, sweeps and redeliveries,
    every delivery has one row, in one of the five states; its attempt counter, which
    a claim raises and a release gives back, stays between zero and the cap and is
    below the cap while the row is pending or retryable; and a row being processed has
    a lease that expires. *)
Theorem inbox_invariant (fr : bool) (now : Z) (s : inboxSys)
    (Hr : rtc (inbox_step fr) (emptyInbox now) s) :
  NoDup (deliveryKey <$> events (inbox s)) /\
  forall e, e ∈ events (inbox s) ->
    we_State e ∈ WebhookEventStatesAll /\ 0 <= Attempts e <= MaxWebhookEventAttempts /\
    (we_State e ∈ [WebhookEventPending; WebhookEventFailedRetryable] ->
       Attempts e < MaxWebhookEventAttempts) /\
    (we_State e = WebhookEventProcessing ->
       is_Some (LeaseToken e) /\ is_Some (LeaseExpiresAt e)).
Proof.
  apply reachable_wf in Hr. destruct Hr as [Hw _ _]. split; [apply Hw|].
  intros e He. destruct (wf_rows _ Hw e He) as [Hs Ha Hp Hrt Hq].
  split; [done|]. split; [done|]. split.
  - intros [H|[H|H]%elem_of_cons]%elem_of_cons; [by apply Hp | by apply Hrt | by apply elem_of_nil in H].
  - intros H. by destruct (Hq H) as (_ & ? & ?).
Qed.

Lemma inbox_invariant_witness :
  NoDup (deliveryKey <$> events exampleInbox).
Proof.
  refine (proj1 (inbox_invariant true 5000000 {| inbox := exampleInbox; claims := [] |} _)).
  apply rtc_once. apply (st_enqueue true (emptyInbox 5000000)).
Defined.

(** Nothing is wedged.  In every reachable state each delivery is settled
    (completed or failed), or waiting makes it claimable again, or waiting makes
    it a stuck row that the sweep turns into a failure and that a redelivery
    reopens at once; so no delivery is stored and never driven nor surfaced. *)
Theorem inbox_no_wedge (fr : bool) (now : Z) (s : inboxSys) (e : WebhookEvent)
    (Hr : rtc (inbox_step fr) (emptyInbox now) s) (He : e ∈ events (inbox s)) :
  settledEvent e = true \/
  exists d, 0 <= d /\
    let db := tick d (inbox s) in
    webhookClaimable db e = true \/
    ((forall reason e', e' ∈ events (run (TerminateStuckProcessing fr reason) db).1 ->
        we_ID e' = we_ID e -> we_State e' = WebhookEventFailed) /\
     (forall payload receivedAt,
        (run (reopenTerminalWebhookEvent fr (Provider e) (DeliveryID e) payload receivedAt) db).2
        = Ok true)).
Proof.
  apply reachable_wf in Hr. destruct Hr as [Hw _ _].
  destruct (settledEvent e) eqn:Es; [by left|right].
  destruct (open_row_progress (inbox s) e (wf_rows _ Hw e He) Es) as (d & Hd & [H|H]);
    exists d; (split; [done|]); [by left|right]. split.
  - intros reason e' He' Hid. unfold TerminateStuckProcessing in He'.
    rewrite run_Exec, run_Ret in He'. cbn [fst] in He'. rewrite events_update in He'.
    apply list_elem_of_fmap in He' as (x & -> & Hx).
    assert (x = e) as ->.
    { apply (same_id_same_row (inbox s)); try done. by case_match. }
    by rewrite H.
  - intros payload receivedAt. apply (reopen_hits fr e (tick d (inbox s))); [done|].
    unfold reopenWhere. rewrite !eqb_refl'. unfold isStuck in H. reflect_guards.
    cbn [andb]. apply orb_true_iff. right. apply andb_true_iff. split; [by apply String.eqb_eq|done].
Qed.

Lemma inbox_no_wedge_witness :
  exists e, e ∈ events exampleInbox /\
    (settledEvent e = true \/ exists d, 0 <= d).
Proof.
  eexists. split; [by left|].
  destruct (inbox_no_wedge true 5000000 {| inbox := exampleInbox; claims := [] |} _
    (rtc_once _ _ (st_enqueue true (emptyInbox 5000000) 5000000 "d1" "opened" "block/app" 7
                     "abc" "1" "")) ltac:(by left)) as [H | (d & Hd & _)]; [by left|].
  right. by exists d.
Defined.

(** A lost lease cannot write.  When the row of a claim in flight carries
    another token (it was reclaimed, released, swept or reopened), every write of
    the stale claim - heartbeat, completion, failure, release - leaves the table
    unchanged and reports the lost lease, under both RowsAffected semantics. *)
Theorem stale_lease_rejected (fr : bool) (now : Z) (s : inboxSys) (c e : WebhookEvent)
    (Hr : rtc (inbox_step fr) (emptyInbox now) s) (Hc : c ∈ claims s)
    (He : e ∈ events (inbox s)) (Hid : we_ID e = we_ID c)
    (Hstale : LeaseToken e <> LeaseToken c) :
  let tok := default "" (LeaseToken c) in
  let lost := (inbox s, Err ErrWebhookEventLeaseLost) in
  run (MarkCompleted fr (we_ID c) tok) (inbox s) = lost /\
  run (Release fr (we_ID c) tok) (inbox s) = lost /\
  (forall msg retryAfter, run (MarkFailed fr (we_ID c) tok msg retryAfter) (inbox s) = lost) /\
  (forall d, 0 < d -> run (Heartbeat fr (we_ID c) tok d) (inbox s) = lost).
Proof.
  apply reachable_wf in Hr. destruct Hr as [Hw Hcl _].
  destruct (Hcl c Hc) as [(tok & Htok & Hne) _ _]. rewrite Htok in *. cbv zeta.
  change (default "" (Some tok)) with tok.
  assert (Hw' : forall set, (forall x, we_ID (set (inbox s) x) = we_ID x) ->
    run (leaseWrite fr (we_ID c) tok set) (inbox s) = (inbox s, Err ErrWebhookEventLeaseLost)).
  { intros set Hset. by apply (stale_write fr (inbox s) (we_ID c) tok set e). }
  split; [by apply Hw'|]. split; [by apply Hw'|]. split; [intros; by apply Hw'|].
  intros d Hd. unfold Heartbeat. rewrite (proj2 (String.eqb_neq tok "") Hne).
  rewrite (proj2 (Z.leb_gt d 0) Hd). by apply Hw'.
Qed.

(** A run in which a lease expires and a second driver takes the delivery over. *)
Module Takeover.
Definition s1 : inboxSys := {| inbox := exampleInbox; claims := [] |}.
Definition claim (tok : string) (s : inboxSys) : inboxSys :=
  let '(db, r) := FindNext true (fun _ => false) "w" 30000000 tok (inbox s) in
  {| inbox := db; claims := match r with Ok (Some c) => c :: claims s | _ => claims s end |}.
Definition s2 := claim "t1" s1.
Definition s3 := {| inbox := tick 60000000 (inbox s2); claims := claims s2 |}.
Definition s4 := claim "t2" s3.

Lemma reach : rtc (inbox_step true) (emptyInbox 5000000) s4.
Proof.
  eapply (rtc_l _ _ s1); [apply (st_enqueue true (emptyInbox 5000000))|].
  eapply (rtc_l _ _ s2).
  { eapply (st_claim true s1 (fun _ => false) "w" 30000000 "t1"); [|reflexivity].
    split; [done|]. split; intros x Hx; elem_cases Hx; done. }
  eapply (rtc_l _ _ s3); [by apply st_tick|].
  eapply (rtc_l _ _ s4); [|apply rtc_refl].
  eapply (st_claim true s3 (fun _ => false) "w" 30000000 "t2"); [|reflexivity].
  split; [done|]. split; intros x Hx; elem_cases Hx; done.
Qed.
End Takeover.

Lemma stale_lease_rejected_witness :
  let c := List.nth 1 (claims Takeover.s4) (newDelivery "" "" "" 0 "" "" "") in
  let e := List.nth 0 (events (inbox Takeover.s4)) (newDelivery "" "" "" 0 "" "" "") in
  LeaseToken c = Some "t1" /\ LeaseToken e = Some "t2" /\
  run (MarkCompleted true (we_ID c) "t1") (inbox Takeover.s4) =
    (inbox Takeover.s4, Err ErrWebhookEventLeaseLost).
Proof.
  intros c e. split; [reflexivity|]. split; [reflexivity|].
  apply (stale_lease_rejected true 5000000 Takeover.s4 c e Takeover.reach).
  - right. by left.
  - by left.
  - reflexivity.
  - discriminate.
Defined.

(** Deduplication and redelivery.  Storing a delivery inserts a pending row
    when its GUID is new; when it is known, the row is reopened as pending with a
    fresh budget exactly if it is failed, completed, or processing under an
    expired lease, and is left alone otherwise; the result says which. *)
Theorem enqueue_contract (fr : bool) (appNow : Z) (d a r : string) (p : Z) (h t b : string)
    (db : inboxDB) (Hnd : NoDup (deliveryKey <$> events db)) (Hd : d <> "") :
  let row := createRow appNow (newDelivery d a r p h t b) in
  let '(db', res) := run (enqueueDurablePullRequest fr appNow d a r p h t b) db in
  match find (fun e => (Provider e == WebhookProviderGitHub) && (DeliveryID e == d)) (events db) with
  | None => db' = (insertEvent row db).1 /\ res = Ok true /\
            length (events db') = S (length (events db))
  | Some e =>
      let reopen := reopenWhere WebhookProviderGitHub d (clock db) e in
      res = Ok reopen /\
      events db' = (fun x => if reopen && bool_decide (deliveryKey x = deliveryKey e)
                            then reopenSet (nullJSON b) appNow (NOW db) x else x) <$> events db
  end.
Proof.
  intros row. unfold enqueueDurablePullRequest, Create.
  rewrite (proj2 (String.eqb_neq d "") Hd). cbv zeta.
  change (DeliveryID (newDelivery d a r p h t b)) with d.
  rewrite (proj2 (String.eqb_neq d "") Hd).
  change (Event (newDelivery d a r p h t b) == "") with false.
  fold row. change (we_State row != WebhookEventPending) with false. cbn iota. rewrite run_Exec.
  unfold insertEvent. change (Provider row) with WebhookProviderGitHub.
  change (DeliveryID row) with d.
  destruct (existsb _ (events db)) eqn:Ex; cbn [fst snd].
  - apply existsb_exists in Ex as (e0 & He0 & Hk0).
    destruct (find _ _) as [e|] eqn:Ef; [|eapply find_none in Ef; [|exact He0]; cbn in Ef; congruence].
    clear e0 He0 Hk0. apply find_some in Ef as [He Hk]. apply list_elem_of_In in He.
    apply andb_true_iff in Hk as [Hp Hid]. apply String.eqb_eq in Hp, Hid.
    change (isDuplicate (SqlErr mysqlErrDuplicateKey)) with true. cbn iota.
    change (Payload row) with (nullJSON b). change (ReceivedAt row) with appNow.
    pose proof (reopen_run fr db e (nullJSON b) appNow Hnd He) as Hrun.
    rewrite Hp, Hid in Hrun. by destruct (run _ db).
  - destruct (find _ _) as [e|] eqn:Ef.
    + apply find_some in Ef as [He Hk]. apply not_true_iff_false in Ex. destruct Ex.
      apply existsb_exists. by exists e.
    + rewrite run_Ret. split; [done|]. split; [done|]. cbn. rewrite length_app. cbn. lia.
Qed.

Lemma enqueue_contract_witness :
  (run (enqueueDurablePullRequest true 6000000 "d1" "opened" "block/app" 7 "abc" "1" "") exampleInbox).2
  = Ok false.
Proof.
  exact (proj1 (enqueue_contract true 6000000 "d1" "opened" "block/app" 7 "abc" "1" "" exampleInbox
    (NoDup_singleton _) ltac:(discriminate))).
Defined.
