(* ===== verification/Store.v ===== *)
(** * The store: tables, leases and the vocabulary of applies

    The tables of pkg/schema/mysql that hold applies, their per-deployment
    operations, tasks and control requests, as lists of rows in insertion order,
    with the columns the modelled statements read or write (the JSON options of an
    apply decoded).  DATETIME
    columns and NOW() are seconds.  Text columns compare by their bytes here.  The
    setters are the columns an UPDATE assigns. *)

From S2P Require Import Prelude State Sql Locks.

Local Open Scope string_scope.
Local Open Scope Z_scope.

(** ** Constants (pkg/storage/types.go) *)

Definition MaxRecoveryAttempts : Z := 10.
Definition maxRecoveryAttempts : Z := MaxRecoveryAttempts.
Definition retryableRecoveryFreshnessDays : Z := 1.
Definition ReapplyFailureFreshnessDays : Z := 1.
Definition day : Z := 86400.
Definition ApplyLeaseStaleAfter : Z := 60.

Definition CutoverPolicyRolling := "rolling".
Definition CutoverPolicyBarrier := "barrier".
Definition CutoverPolicyParallel := "parallel".
Definition OnFailureHalt := "halt".
Definition OnFailureContinue := "continue".
Definition OnFailurePause := "pause".
Definition ApplyOperationKindWork := "work".
Definition ApplyOperationKindGroupFinalizer := "group_finalizer".
Definition ControlOperationStart := "start".
Definition ControlOperationStop := "stop".
Definition ControlOperationRelease := "release".
Definition ControlOperationCutover := "cutover".
Definition ControlOperationCancel := "cancel".
Definition ControlOperationVolume := "volume".
Definition ControlOperationRevert := "revert".
Definition ControlOperationSkipRevert := "skip_revert".
Definition ControlRequestPending := "pending".
Definition ControlRequestCompleted := "completed".
Definition ControlRequestFailed := "failed".

Definition IsOrderedCutoverPolicy (policy : string) : bool :=
  (policy == CutoverPolicyBarrier) || (policy == CutoverPolicyParallel).

(** ** Rows *)

(** [storage.ApplyOptions], the options column of an apply. *)
Record ApplyOptions := {
  ao_AllowUnsafe : bool;
  ao_Branch : string;
  ao_DeferCutover : bool;
  ao_DeferDeploy : bool;
  ao_SkipRevert : bool;
  ao_Volume : Z;
  ao_Target : string;
  ao_Rollback : bool;
}.

#[global] Instance ApplyOptions_eq_dec : EqDecision ApplyOptions.
Proof. solve_decision. Defined.

(** The options of absent JSON. *)
Definition noOptions : ApplyOptions :=
  {| ao_AllowUnsafe := false; ao_Branch := ""; ao_DeferCutover := false; ao_DeferDeploy := false;
     ao_SkipRevert := false; ao_Volume := 0; ao_Target := ""; ao_Rollback := false |}.

(** [storage.Apply], a row of table applies, with its JSON options decoded. *)
Record Apply := {
  a_ID : Z;
  a_ApplyIdentifier : string;
  a_LockID : Z;
  a_PlanID : Z;
  a_Database : string;
  a_DatabaseType : string;
  a_Repository : string;
  a_PullRequest : Z;
  a_Environment : string;
  a_Deployment : string;
  a_Caller : string;
  a_InstallationID : Z;
  a_ExternalID : string;
  a_IdempotencyKey : option string;
  a_Engine : string;
  a_State : string;
  a_ErrorMessage : string;
  a_Options : ApplyOptions;
  a_Attempt : Z;
  a_LeaseOwner : string;
  a_LeaseToken : string;
  a_LeaseAcquiredAt : option Z;
  a_CreatedAt : Z;
  a_StartedAt : option Z;
  a_CompletedAt : option Z;
  a_UpdatedAt : Z;
  a_RevertSkippedAt : option Z;
}.

#[global] Instance Apply_eq_dec : EqDecision Apply.
Proof. solve_decision. Defined.

Definition set_a_LockID (v : Z) (r : Apply) : Apply :=
  {| a_ID := a_ID r; a_ApplyIdentifier := a_ApplyIdentifier r; a_LockID := v;
     a_PlanID := a_PlanID r; a_Database := a_Database r; a_DatabaseType := a_DatabaseType r;
     a_Repository := a_Repository r; a_PullRequest := a_PullRequest r;
     a_Environment := a_Environment r; a_Deployment := a_Deployment r; a_Caller := a_Caller r;
     a_InstallationID := a_InstallationID r; a_ExternalID := a_ExternalID r;
     a_IdempotencyKey := a_IdempotencyKey r; a_Engine := a_Engine r; a_State := a_State r;
     a_ErrorMessage := a_ErrorMessage r; a_Options := a_Options r; a_Attempt := a_Attempt r;
     a_LeaseOwner := a_LeaseOwner r; a_LeaseToken := a_LeaseToken r;
     a_LeaseAcquiredAt := a_LeaseAcquiredAt r; a_CreatedAt := a_CreatedAt r;
     a_StartedAt := a_StartedAt r; a_CompletedAt := a_CompletedAt r;
     a_UpdatedAt := a_UpdatedAt r; a_RevertSkippedAt := a_RevertSkippedAt r |}.

Definition set_a_State (v : string) (r : Apply) : Apply :=
  {| a_ID := a_ID r; a_ApplyIdentifier := a_ApplyIdentifier r; a_LockID := a_LockID r;
     a_PlanID := a_PlanID r; a_Database := a_Database r; a_DatabaseType := a_DatabaseType r;
     a_Repository := a_Repository r; a_PullRequest := a_PullRequest r;
     a_Environment := a_Environment r; a_Deployment := a_Deployment r; a_Caller := a_Caller r;
     a_InstallationID := a_InstallationID r; a_ExternalID := a_ExternalID r;
     a_IdempotencyKey := a_IdempotencyKey r; a_Engine := a_Engine r; a_State := v;
     a_ErrorMessage := a_ErrorMessage r; a_Options := a_Options r; a_Attempt := a_Attempt r;
     a_LeaseOwner := a_LeaseOwner r; a_LeaseToken := a_LeaseToken r;
     a_LeaseAcquiredAt := a_LeaseAcquiredAt r; a_CreatedAt := a_CreatedAt r;
     a_StartedAt := a_StartedAt r; a_CompletedAt := a_CompletedAt r;
     a_UpdatedAt := a_UpdatedAt r; a_RevertSkippedAt := a_RevertSkippedAt r |}.

Definition set_a_ErrorMessage (v : string) (r : Apply) : Apply :=
  {| a_ID := a_ID r; a_ApplyIdentifier := a_ApplyIdentifier r; a_LockID := a_LockID r;
     a_PlanID := a_PlanID r; a_Database := a_Database r; a_DatabaseType := a_DatabaseType r;
     a_Repository := a_Repository r; a_PullRequest := a_PullRequest r;
     a_Environment := a_Environment r; a_Deployment := a_Deployment r; a_Caller := a_Caller r;
     a_InstallationID := a_InstallationID r; a_ExternalID := a_ExternalID r;
     a_IdempotencyKey := a_IdempotencyKey r; a_Engine := a_Engine r; a_State := a_State r;
     a_ErrorMessage := v; a_Options := a_Options r; a_Attempt := a_Attempt r;
     a_LeaseOwner := a_LeaseOwner r; a_LeaseToken := a_LeaseToken r;
     a_LeaseAcquiredAt := a_LeaseAcquiredAt r; a_CreatedAt := a_CreatedAt r;
     a_StartedAt := a_StartedAt r; a_CompletedAt := a_CompletedAt r;
     a_UpdatedAt := a_UpdatedAt r; a_RevertSkippedAt := a_RevertSkippedAt r |}.

Definition set_a_Attempt (v : Z) (r : Apply) : Apply :=
  {| a_ID := a_ID r; a_ApplyIdentifier := a_ApplyIdentifier r; a_LockID := a_LockID r;
     a_PlanID := a_PlanID r; a_Database := a_Database r; a_DatabaseType := a_DatabaseType r;
     a_Repository := a_Repository r; a_PullRequest := a_PullRequest r;
     a_Environment := a_Environment r; a_Deployment := a_Deployment r; a_Caller := a_Caller r;
     a_InstallationID := a_InstallationID r; a_ExternalID := a_ExternalID r;
     a_IdempotencyKey := a_IdempotencyKey r; a_Engine := a_Engine r; a_State := a_State r;
     a_ErrorMessage := a_ErrorMessage r; a_Options := a_Options r; a_Attempt := v;
     a_LeaseOwner := a_LeaseOwner r; a_LeaseToken := a_LeaseToken r;
     a_LeaseAcquiredAt := a_LeaseAcquiredAt r; a_CreatedAt := a_CreatedAt r;
     a_StartedAt := a_StartedAt r; a_CompletedAt := a_CompletedAt r;
     a_UpdatedAt := a_UpdatedAt r; a_RevertSkippedAt := a_RevertSkippedAt r |}.

Definition set_a_ExternalID (v : string) (r : Apply) : Apply :=
  {| a_ID := a_ID r; a_ApplyIdentifier := a_ApplyIdentifier r; a_LockID := a_LockID r;
     a_PlanID := a_PlanID r; a_Database := a_Database r; a_DatabaseType := a_DatabaseType r;
     a_Repository := a_Repository r; a_PullRequest := a_PullRequest r;
     a_Environment := a_Environment r; a_Deployment := a_Deployment r; a_Caller := a_Caller r;
     a_InstallationID := a_InstallationID r; a_ExternalID := v;
     a_IdempotencyKey := a_IdempotencyKey r; a_Engine := a_Engine r; a_State := a_State r;
     a_ErrorMessage := a_ErrorMessage r; a_Options := a_Options r; a_Attempt := a_Attempt r;
     a_LeaseOwner := a_LeaseOwner r; a_LeaseToken := a_LeaseToken r;
     a_LeaseAcquiredAt := a_LeaseAcquiredAt r; a_CreatedAt := a_CreatedAt r;
     a_StartedAt := a_StartedAt r; a_CompletedAt := a_CompletedAt r;
     a_UpdatedAt := a_UpdatedAt r; a_RevertSkippedAt := a_RevertSkippedAt r |}.

Definition set_a_Options (v : ApplyOptions) (r : Apply) : Apply :=
  {| a_ID := a_ID r; a_ApplyIdentifier := a_ApplyIdentifier r; a_LockID := a_LockID r;
     a_PlanID := a_PlanID r; a_Database := a_Database r; a_DatabaseType := a_DatabaseType r;
     a_Repository := a_Repository r; a_PullRequest := a_PullRequest r;
     a_Environment := a_Environment r; a_Deployment := a_Deployment r; a_Caller := a_Caller r;
     a_InstallationID := a_InstallationID r; a_ExternalID := a_ExternalID r;
     a_IdempotencyKey := a_IdempotencyKey r; a_Engine := a_Engine r; a_State := a_State r;
     a_ErrorMessage := a_ErrorMessage r; a_Options := v; a_Attempt := a_Attempt r;
     a_LeaseOwner := a_LeaseOwner r; a_LeaseToken := a_LeaseToken r;
     a_LeaseAcquiredAt := a_LeaseAcquiredAt r; a_CreatedAt := a_CreatedAt r;
     a_StartedAt := a_StartedAt r; a_CompletedAt := a_CompletedAt r;
     a_UpdatedAt := a_UpdatedAt r; a_RevertSkippedAt := a_RevertSkippedAt r |}.

Definition set_a_LeaseOwner (v : string) (r : Apply) : Apply :=
  {| a_ID := a_ID r; a_ApplyIdentifier := a_ApplyIdentifier r; a_LockID := a_LockID r;
     a_PlanID := a_PlanID r; a_Database := a_Database r; a_DatabaseType := a_DatabaseType r;
     a_Repository := a_Repository r; a_PullRequest := a_PullRequest r;
     a_Environment := a_Environment r; a_Deployment := a_Deployment r; a_Caller := a_Caller r;
     a_InstallationID := a_InstallationID r; a_ExternalID := a_ExternalID r;
     a_IdempotencyKey := a_IdempotencyKey r; a_Engine := a_Engine r; a_State := a_State r;
     a_ErrorMessage := a_ErrorMessage r; a_Options := a_Options r; a_Attempt := a_Attempt r;
     a_LeaseOwner := v; a_LeaseToken := a_LeaseToken r;
     a_LeaseAcquiredAt := a_LeaseAcquiredAt r; a_CreatedAt := a_CreatedAt r;
     a_StartedAt := a_StartedAt r; a_CompletedAt := a_CompletedAt r;
     a_UpdatedAt := a_UpdatedAt r; a_RevertSkippedAt := a_RevertSkippedAt r |}.

Definition set_a_LeaseToken (v : string) (r : Apply) : Apply :=
  {| a_ID := a_ID r; a_ApplyIdentifier := a_ApplyIdentifier r; a_LockID := a_LockID r;
     a_PlanID := a_PlanID r; a_Database := a_Database r; a_DatabaseType := a_DatabaseType r;
     a_Repository := a_Repository r; a_PullRequest := a_PullRequest r;
     a_Environment := a_Environment r; a_Deployment := a_Deployment r; a_Caller := a_Caller r;
     a_InstallationID := a_InstallationID r; a_ExternalID := a_ExternalID r;
     a_IdempotencyKey := a_IdempotencyKey r; a_Engine := a_Engine r; a_State := a_State r;
     a_ErrorMessage := a_ErrorMessage r; a_Options := a_Options r; a_Attempt := a_Attempt r;
     a_LeaseOwner := a_LeaseOwner r; a_LeaseToken := v;
     a_LeaseAcquiredAt := a_LeaseAcquiredAt r; a_CreatedAt := a_CreatedAt r;
     a_StartedAt := a_StartedAt r; a_CompletedAt := a_CompletedAt r;
     a_UpdatedAt := a_UpdatedAt r; a_RevertSkippedAt := a_RevertSkippedAt r |}.

Definition set_a_LeaseAcquiredAt (v : option Z) (r : Apply) : Apply :=
  {| a_ID := a_ID r; a_ApplyIdentifier := a_ApplyIdentifier r; a_LockID := a_LockID r;
     a_PlanID := a_PlanID r; a_Database := a_Database r; a_DatabaseType := a_DatabaseType r;
     a_Repository := a_Repository r; a_PullRequest := a_PullRequest r;
     a_Environment := a_Environment r; a_Deployment := a_Deployment r; a_Caller := a_Caller r;
     a_InstallationID := a_InstallationID r; a_ExternalID := a_ExternalID r;
     a_IdempotencyKey := a_IdempotencyKey r; a_Engine := a_Engine r; a_State := a_State r;
     a_ErrorMessage := a_ErrorMessage r; a_Options := a_Options r; a_Attempt := a_Attempt r;
     a_LeaseOwner := a_LeaseOwner r; a_LeaseToken := a_LeaseToken r; a_LeaseAcquiredAt := v;
     a_CreatedAt := a_CreatedAt r; a_StartedAt := a_StartedAt r;
     a_CompletedAt := a_CompletedAt r; a_UpdatedAt := a_UpdatedAt r;
     a_RevertSkippedAt := a_RevertSkippedAt r |}.

Definition set_a_StartedAt (v : option Z) (r : Apply) : Apply :=
  {| a_ID := a_ID r; a_ApplyIdentifier := a_ApplyIdentifier r; a_LockID := a_LockID r;
     a_PlanID := a_PlanID r; a_Database := a_Database r; a_DatabaseType := a_DatabaseType r;
     a_Repository := a_Repository r; a_PullRequest := a_PullRequest r;
     a_Environment := a_Environment r; a_Deployment := a_Deployment r; a_Caller := a_Caller r;
     a_InstallationID := a_InstallationID r; a_ExternalID := a_ExternalID r;
     a_IdempotencyKey := a_IdempotencyKey r; a_Engine := a_Engine r; a_State := a_State r;
     a_ErrorMessage := a_ErrorMessage r; a_Options := a_Options r; a_Attempt := a_Attempt r;
     a_LeaseOwner := a_LeaseOwner r; a_LeaseToken := a_LeaseToken r;
     a_LeaseAcquiredAt := a_LeaseAcquiredAt r; a_CreatedAt := a_CreatedAt r; a_StartedAt := v;
     a_CompletedAt := a_CompletedAt r; a_UpdatedAt := a_UpdatedAt r;
     a_RevertSkippedAt := a_RevertSkippedAt r |}.

Definition set_a_CompletedAt (v : option Z) (r : Apply) : Apply :=
  {| a_ID := a_ID r; a_ApplyIdentifier := a_ApplyIdentifier r; a_LockID := a_LockID r;
     a_PlanID := a_PlanID r; a_Database := a_Database r; a_DatabaseType := a_DatabaseType r;
     a_Repository := a_Repository r; a_PullRequest := a_PullRequest r;
     a_Environment := a_Environment r; a_Deployment := a_Deployment r; a_Caller := a_Caller r;
     a_InstallationID := a_InstallationID r; a_ExternalID := a_ExternalID r;
     a_IdempotencyKey := a_IdempotencyKey r; a_Engine := a_Engine r; a_State := a_State r;
     a_ErrorMessage := a_ErrorMessage r; a_Options := a_Options r; a_Attempt := a_Attempt r;
     a_LeaseOwner := a_LeaseOwner r; a_LeaseToken := a_LeaseToken r;
     a_LeaseAcquiredAt := a_LeaseAcquiredAt r; a_CreatedAt := a_CreatedAt r;
     a_StartedAt := a_StartedAt r; a_CompletedAt := v; a_UpdatedAt := a_UpdatedAt r;
     a_RevertSkippedAt := a_RevertSkippedAt r |}.

Definition set_a_UpdatedAt (v : Z) (r : Apply) : Apply :=
  {| a_ID := a_ID r; a_ApplyIdentifier := a_ApplyIdentifier r; a_LockID := a_LockID r;
     a_PlanID := a_PlanID r; a_Database := a_Database r; a_DatabaseType := a_DatabaseType r;
     a_Repository := a_Repository r; a_PullRequest := a_PullRequest r;
     a_Environment := a_Environment r; a_Deployment := a_Deployment r; a_Caller := a_Caller r;
     a_InstallationID := a_InstallationID r; a_ExternalID := a_ExternalID r;
     a_IdempotencyKey := a_IdempotencyKey r; a_Engine := a_Engine r; a_State := a_State r;
     a_ErrorMessage := a_ErrorMessage r; a_Options := a_Options r; a_Attempt := a_Attempt r;
     a_LeaseOwner := a_LeaseOwner r; a_LeaseToken := a_LeaseToken r;
     a_LeaseAcquiredAt := a_LeaseAcquiredAt r; a_CreatedAt := a_CreatedAt r;
     a_StartedAt := a_StartedAt r; a_CompletedAt := a_CompletedAt r; a_UpdatedAt := v;
     a_RevertSkippedAt := a_RevertSkippedAt r |}.

Definition set_a_RevertSkippedAt (v : option Z) (r : Apply) : Apply :=
  {| a_ID := a_ID r; a_ApplyIdentifier := a_ApplyIdentifier r; a_LockID := a_LockID r;
     a_PlanID := a_PlanID r; a_Database := a_Database r; a_DatabaseType := a_DatabaseType r;
     a_Repository := a_Repository r; a_PullRequest := a_PullRequest r;
     a_Environment := a_Environment r; a_Deployment := a_Deployment r; a_Caller := a_Caller r;
     a_InstallationID := a_InstallationID r; a_ExternalID := a_ExternalID r;
     a_IdempotencyKey := a_IdempotencyKey r; a_Engine := a_Engine r; a_State := a_State r;
     a_ErrorMessage := a_ErrorMessage r; a_Options := a_Options r; a_Attempt := a_Attempt r;
     a_LeaseOwner := a_LeaseOwner r; a_LeaseToken := a_LeaseToken r;
     a_LeaseAcquiredAt := a_LeaseAcquiredAt r; a_CreatedAt := a_CreatedAt r;
     a_StartedAt := a_StartedAt r; a_CompletedAt := a_CompletedAt r;
     a_UpdatedAt := a_UpdatedAt r; a_RevertSkippedAt := v |}.

(** [ParseApplyOptions(apply.Options).DeferCutover], $.defer_cutover in SQL. *)
Definition a_DeferCutover (a : Apply) : bool := ao_DeferCutover (a_Options a).

(** [Apply.IsRollback] *)
Definition IsRollback (a : Apply) : bool := ao_Rollback (a_Options a).

(** [storage.ApplyOperation], a row of table apply_operations. *)
Record ApplyOperation := {
  op_ID : Z;
  op_ApplyID : Z;
  op_Deployment : string;
  op_OperationKey : string;
  op_OperationKind : string;
  op_Target : string;
  op_ExternalID : option string;
  op_ExternalOperationID : option string;
  op_EngineResumeContext : option string;
  op_EngineResumeMetadata : option string;
  op_State : string;
  op_ErrorMessage : option string;
  op_CutoverPolicy : string;
  op_OnFailure : string;
  op_Attempt : Z;
  op_LeaseOwner : string;
  op_LeaseToken : string;
  op_LeaseAcquiredAt : option Z;
  op_StartedAt : option Z;
  op_CompletedAt : option Z;
  op_CreatedAt : Z;
  op_UpdatedAt : Z;
}.

#[global] Instance ApplyOperation_eq_dec : EqDecision ApplyOperation.
Proof. solve_decision. Defined.

Definition set_op_ExternalID (v : option string) (r : ApplyOperation) : ApplyOperation :=
  {| op_ID := op_ID r; op_ApplyID := op_ApplyID r; op_Deployment := op_Deployment r;
     op_OperationKey := op_OperationKey r; op_OperationKind := op_OperationKind r;
     op_Target := op_Target r; op_ExternalID := v;
     op_ExternalOperationID := op_ExternalOperationID r;
     op_EngineResumeContext := op_EngineResumeContext r;
     op_EngineResumeMetadata := op_EngineResumeMetadata r; op_State := op_State r;
     op_ErrorMessage := op_ErrorMessage r; op_CutoverPolicy := op_CutoverPolicy r;
     op_OnFailure := op_OnFailure r; op_Attempt := op_Attempt r;
     op_LeaseOwner := op_LeaseOwner r; op_LeaseToken := op_LeaseToken r;
     op_LeaseAcquiredAt := op_LeaseAcquiredAt r; op_StartedAt := op_StartedAt r;
     op_CompletedAt := op_CompletedAt r; op_CreatedAt := op_CreatedAt r;
     op_UpdatedAt := op_UpdatedAt r |}.

Definition set_op_ExternalOperationID (v : option string) (r : ApplyOperation) : ApplyOperation :=
  {| op_ID := op_ID r; op_ApplyID := op_ApplyID r; op_Deployment := op_Deployment r;
     op_OperationKey := op_OperationKey r; op_OperationKind := op_OperationKind r;
     op_Target := op_Target r; op_ExternalID := op_ExternalID r; op_ExternalOperationID := v;
     op_EngineResumeContext := op_EngineResumeContext r;
     op_EngineResumeMetadata := op_EngineResumeMetadata r; op_State := op_State r;
     op_ErrorMessage := op_ErrorMessage r; op_CutoverPolicy := op_CutoverPolicy r;
     op_OnFailure := op_OnFailure r; op_Attempt := op_Attempt r;
     op_LeaseOwner := op_LeaseOwner r; op_LeaseToken := op_LeaseToken r;
     op_LeaseAcquiredAt := op_LeaseAcquiredAt r; op_StartedAt := op_StartedAt r;
     op_CompletedAt := op_CompletedAt r; op_CreatedAt := op_CreatedAt r;
     op_UpdatedAt := op_UpdatedAt r |}.

Definition set_op_EngineResumeContext (v : option string) (r : ApplyOperation) : ApplyOperation :=
  {| op_ID := op_ID r; op_ApplyID := op_ApplyID r; op_Deployment := op_Deployment r;
     op_OperationKey := op_OperationKey r; op_OperationKind := op_OperationKind r;
     op_Target := op_Target r; op_ExternalID := op_ExternalID r;
     op_ExternalOperationID := op_ExternalOperationID r; op_EngineResumeContext := v;
     op_EngineResumeMetadata := op_EngineResumeMetadata r; op_State := op_State r;
     op_ErrorMessage := op_ErrorMessage r; op_CutoverPolicy := op_CutoverPolicy r;
     op_OnFailure := op_OnFailure r; op_Attempt := op_Attempt r;
     op_LeaseOwner := op_LeaseOwner r; op_LeaseToken := op_LeaseToken r;
     op_LeaseAcquiredAt := op_LeaseAcquiredAt r; op_StartedAt := op_StartedAt r;
     op_CompletedAt := op_CompletedAt r; op_CreatedAt := op_CreatedAt r;
     op_UpdatedAt := op_UpdatedAt r |}.

Definition set_op_EngineResumeMetadata (v : option string) (r : ApplyOperation) : ApplyOperation :=
  {| op_ID := op_ID r; op_ApplyID := op_ApplyID r; op_Deployment := op_Deployment r;
     op_OperationKey := op_OperationKey r; op_OperationKind := op_OperationKind r;
     op_Target := op_Target r; op_ExternalID := op_ExternalID r;
     op_ExternalOperationID := op_ExternalOperationID r;
     op_EngineResumeContext := op_EngineResumeContext r; op_EngineResumeMetadata := v;
     op_State := op_State r; op_ErrorMessage := op_ErrorMessage r;
     op_CutoverPolicy := op_CutoverPolicy r; op_OnFailure := op_OnFailure r;
     op_Attempt := op_Attempt r; op_LeaseOwner := op_LeaseOwner r;
     op_LeaseToken := op_LeaseToken r; op_LeaseAcquiredAt := op_LeaseAcquiredAt r;
     op_StartedAt := op_StartedAt r; op_CompletedAt := op_CompletedAt r;
     op_CreatedAt := op_CreatedAt r; op_UpdatedAt := op_UpdatedAt r |}.

Definition set_op_State (v : string) (r : ApplyOperation) : ApplyOperation :=
  {| op_ID := op_ID r; op_ApplyID := op_ApplyID r; op_Deployment := op_Deployment r;
     op_OperationKey := op_OperationKey r; op_OperationKind := op_OperationKind r;
     op_Target := op_Target r; op_ExternalID := op_ExternalID r;
     op_ExternalOperationID := op_ExternalOperationID r;
     op_EngineResumeContext := op_EngineResumeContext r;
     op_EngineResumeMetadata := op_EngineResumeMetadata r; op_State := v;
     op_ErrorMessage := op_ErrorMessage r; op_CutoverPolicy := op_CutoverPolicy r;
     op_OnFailure := op_OnFailure r; op_Attempt := op_Attempt r;
     op_LeaseOwner := op_LeaseOwner r; op_LeaseToken := op_LeaseToken r;
     op_LeaseAcquiredAt := op_LeaseAcquiredAt r; op_StartedAt := op_StartedAt r;
     op_CompletedAt := op_CompletedAt r; op_CreatedAt := op_CreatedAt r;
     op_UpdatedAt := op_UpdatedAt r |}.

Definition set_op_ErrorMessage (v : option string) (r : ApplyOperation) : ApplyOperation :=
  {| op_ID := op_ID r; op_ApplyID := op_ApplyID r; op_Deployment := op_Deployment r;
     op_OperationKey := op_OperationKey r; op_OperationKind := op_OperationKind r;
     op_Target := op_Target r; op_ExternalID := op_ExternalID r;
     op_ExternalOperationID := op_ExternalOperationID r;
     op_EngineResumeContext := op_EngineResumeContext r;
     op_EngineResumeMetadata := op_EngineResumeMetadata r; op_State := op_State r;
     op_ErrorMessage := v; op_CutoverPolicy := op_CutoverPolicy r;
     op_OnFailure := op_OnFailure r; op_Attempt := op_Attempt r;
     op_LeaseOwner := op_LeaseOwner r; op_LeaseToken := op_LeaseToken r;
     op_LeaseAcquiredAt := op_LeaseAcquiredAt r; op_StartedAt := op_StartedAt r;
     op_CompletedAt := op_CompletedAt r; op_CreatedAt := op_CreatedAt r;
     op_UpdatedAt := op_UpdatedAt r |}.

Definition set_op_Attempt (v : Z) (r : ApplyOperation) : ApplyOperation :=
  {| op_ID := op_ID r; op_ApplyID := op_ApplyID r; op_Deployment := op_Deployment r;
     op_OperationKey := op_OperationKey r; op_OperationKind := op_OperationKind r;
     op_Target := op_Target r; op_ExternalID := op_ExternalID r;
     op_ExternalOperationID := op_ExternalOperationID r;
     op_EngineResumeContext := op_EngineResumeContext r;
     op_EngineResumeMetadata := op_EngineResumeMetadata r; op_State := op_State r;
     op_ErrorMessage := op_ErrorMessage r; op_CutoverPolicy := op_CutoverPolicy r;
     op_OnFailure := op_OnFailure r; op_Attempt := v; op_LeaseOwner := op_LeaseOwner r;
     op_LeaseToken := op_LeaseToken r; op_LeaseAcquiredAt := op_LeaseAcquiredAt r;
     op_StartedAt := op_StartedAt r; op_CompletedAt := op_CompletedAt r;
     op_CreatedAt := op_CreatedAt r; op_UpdatedAt := op_UpdatedAt r |}.

Definition set_op_LeaseOwner (v : string) (r : ApplyOperation) : ApplyOperation :=
  {| op_ID := op_ID r; op_ApplyID := op_ApplyID r; op_Deployment := op_Deployment r;
     op_OperationKey := op_OperationKey r; op_OperationKind := op_OperationKind r;
     op_Target := op_Target r; op_ExternalID := op_ExternalID r;
     op_ExternalOperationID := op_ExternalOperationID r;
     op_EngineResumeContext := op_EngineResumeContext r;
     op_EngineResumeMetadata := op_EngineResumeMetadata r; op_State := op_State r;
     op_ErrorMessage := op_ErrorMessage r; op_CutoverPolicy := op_CutoverPolicy r;
     op_OnFailure := op_OnFailure r; op_Attempt := op_Attempt r; op_LeaseOwner := v;
     op_LeaseToken := op_LeaseToken r; op_LeaseAcquiredAt := op_LeaseAcquiredAt r;
     op_StartedAt := op_StartedAt r; op_CompletedAt := op_CompletedAt r;
     op_CreatedAt := op_CreatedAt r; op_UpdatedAt := op_UpdatedAt r |}.

Definition set_op_LeaseToken (v : string) (r : ApplyOperation) : ApplyOperation :=
  {| op_ID := op_ID r; op_ApplyID := op_ApplyID r; op_Deployment := op_Deployment r;
     op_OperationKey := op_OperationKey r; op_OperationKind := op_OperationKind r;
     op_Target := op_Target r; op_ExternalID := op_ExternalID r;
     op_ExternalOperationID := op_ExternalOperationID r;
     op_EngineResumeContext := op_EngineResumeContext r;
     op_EngineResumeMetadata := op_EngineResumeMetadata r; op_State := op_State r;
     op_ErrorMessage := op_ErrorMessage r; op_CutoverPolicy := op_CutoverPolicy r;
     op_OnFailure := op_OnFailure r; op_Attempt := op_Attempt r;
     op_LeaseOwner := op_LeaseOwner r; op_LeaseToken := v;
     op_LeaseAcquiredAt := op_LeaseAcquiredAt r; op_StartedAt := op_StartedAt r;
     op_CompletedAt := op_CompletedAt r; op_CreatedAt := op_CreatedAt r;
     op_UpdatedAt := op_UpdatedAt r |}.

Definition set_op_LeaseAcquiredAt (v : option Z) (r : ApplyOperation) : ApplyOperation :=
  {| op_ID := op_ID r; op_ApplyID := op_ApplyID r; op_Deployment := op_Deployment r;
     op_OperationKey := op_OperationKey r; op_OperationKind := op_OperationKind r;
     op_Target := op_Target r; op_ExternalID := op_ExternalID r;
     op_ExternalOperationID := op_ExternalOperationID r;
     op_EngineResumeContext := op_EngineResumeContext r;
     op_EngineResumeMetadata := op_EngineResumeMetadata r; op_State := op_State r;
     op_ErrorMessage := op_ErrorMessage r; op_CutoverPolicy := op_CutoverPolicy r;
     op_OnFailure := op_OnFailure r; op_Attempt := op_Attempt r;
     op_LeaseOwner := op_LeaseOwner r; op_LeaseToken := op_LeaseToken r;
     op_LeaseAcquiredAt := v; op_StartedAt := op_StartedAt r;
     op_CompletedAt := op_CompletedAt r; op_CreatedAt := op_CreatedAt r;
     op_UpdatedAt := op_UpdatedAt r |}.

Definition set_op_StartedAt (v : option Z) (r : ApplyOperation) : ApplyOperation :=
  {| op_ID := op_ID r; op_ApplyID := op_ApplyID r; op_Deployment := op_Deployment r;
     op_OperationKey := op_OperationKey r; op_OperationKind := op_OperationKind r;
     op_Target := op_Target r; op_ExternalID := op_ExternalID r;
     op_ExternalOperationID := op_ExternalOperationID r;
     op_EngineResumeContext := op_EngineResumeContext r;
     op_EngineResumeMetadata := op_EngineResumeMetadata r; op_State := op_State r;
     op_ErrorMessage := op_ErrorMessage r; op_CutoverPolicy := op_CutoverPolicy r;
     op_OnFailure := op_OnFailure r; op_Attempt := op_Attempt r;
     op_LeaseOwner := op_LeaseOwner r; op_LeaseToken := op_LeaseToken r;
     op_LeaseAcquiredAt := op_LeaseAcquiredAt r; op_StartedAt := v;
     op_CompletedAt := op_CompletedAt r; op_CreatedAt := op_CreatedAt r;
     op_UpdatedAt := op_UpdatedAt r |}.

Definition set_op_CompletedAt (v : option Z) (r : ApplyOperation) : ApplyOperation :=
  {| op_ID := op_ID r; op_ApplyID := op_ApplyID r; op_Deployment := op_Deployment r;
     op_OperationKey := op_OperationKey r; op_OperationKind := op_OperationKind r;
     op_Target := op_Target r; op_ExternalID := op_ExternalID r;
     op_ExternalOperationID := op_ExternalOperationID r;
     op_EngineResumeContext := op_EngineResumeContext r;
     op_EngineResumeMetadata := op_EngineResumeMetadata r; op_State := op_State r;
     op_ErrorMessage := op_ErrorMessage r; op_CutoverPolicy := op_CutoverPolicy r;
     op_OnFailure := op_OnFailure r; op_Attempt := op_Attempt r;
     op_LeaseOwner := op_LeaseOwner r; op_LeaseToken := op_LeaseToken r;
     op_LeaseAcquiredAt := op_LeaseAcquiredAt r; op_StartedAt := op_StartedAt r;
     op_CompletedAt := v; op_CreatedAt := op_CreatedAt r; op_UpdatedAt := op_UpdatedAt r |}.

Definition set_op_UpdatedAt (v : Z) (r : ApplyOperation) : ApplyOperation :=
  {| op_ID := op_ID r; op_ApplyID := op_ApplyID r; op_Deployment := op_Deployment r;
     op_OperationKey := op_OperationKey r; op_OperationKind := op_OperationKind r;
     op_Target := op_Target r; op_ExternalID := op_ExternalID r;
     op_ExternalOperationID := op_ExternalOperationID r;
     op_EngineResumeContext := op_EngineResumeContext r;
     op_EngineResumeMetadata := op_EngineResumeMetadata r; op_State := op_State r;
     op_ErrorMessage := op_ErrorMessage r; op_CutoverPolicy := op_CutoverPolicy r;
     op_OnFailure := op_OnFailure r; op_Attempt := op_Attempt r;
     op_LeaseOwner := op_LeaseOwner r; op_LeaseToken := op_LeaseToken r;
     op_LeaseAcquiredAt := op_LeaseAcquiredAt r; op_StartedAt := op_StartedAt r;
     op_CompletedAt := op_CompletedAt r; op_CreatedAt := op_CreatedAt r; op_UpdatedAt := v |}.

(** [storage.ApplyControlRequest], a row of table apply_control_requests. *)
Record ApplyControlRequest := {
  cr_ID : Z;
  cr_ApplyID : Z;
  cr_Operation : string;
  cr_Status : string;
  cr_RequestedBy : string;
  cr_ErrorMessage : option string;
  cr_Metadata : string;
  cr_CompletedAt : option Z;
  cr_CreatedAt : Z;
  cr_UpdatedAt : Z;
}.

#[global] Instance ApplyControlRequest_eq_dec : EqDecision ApplyControlRequest.
Proof. solve_decision. Defined.

Definition set_cr_Status (v : string) (r : ApplyControlRequest) : ApplyControlRequest :=
  {| cr_ID := cr_ID r; cr_ApplyID := cr_ApplyID r; cr_Operation := cr_Operation r;
     cr_Status := v; cr_RequestedBy := cr_RequestedBy r; cr_ErrorMessage := cr_ErrorMessage r;
     cr_Metadata := cr_Metadata r; cr_CompletedAt := cr_CompletedAt r;
     cr_CreatedAt := cr_CreatedAt r; cr_UpdatedAt := cr_UpdatedAt r |}.

Definition set_cr_RequestedBy (v : string) (r : ApplyControlRequest) : ApplyControlRequest :=
  {| cr_ID := cr_ID r; cr_ApplyID := cr_ApplyID r; cr_Operation := cr_Operation r;
     cr_Status := cr_Status r; cr_RequestedBy := v; cr_ErrorMessage := cr_ErrorMessage r;
     cr_Metadata := cr_Metadata r; cr_CompletedAt := cr_CompletedAt r;
     cr_CreatedAt := cr_CreatedAt r; cr_UpdatedAt := cr_UpdatedAt r |}.

Definition set_cr_ErrorMessage (v : option string) (r : ApplyControlRequest) : ApplyControlRequest :=
  {| cr_ID := cr_ID r; cr_ApplyID := cr_ApplyID r; cr_Operation := cr_Operation r;
     cr_Status := cr_Status r; cr_RequestedBy := cr_RequestedBy r; cr_ErrorMessage := v;
     cr_Metadata := cr_Metadata r; cr_CompletedAt := cr_CompletedAt r;
     cr_CreatedAt := cr_CreatedAt r; cr_UpdatedAt := cr_UpdatedAt r |}.

Definition set_cr_Metadata (v : string) (r : ApplyControlRequest) : ApplyControlRequest :=
  {| cr_ID := cr_ID r; cr_ApplyID := cr_ApplyID r; cr_Operation := cr_Operation r;
     cr_Status := cr_Status r; cr_RequestedBy := cr_RequestedBy r;
     cr_ErrorMessage := cr_ErrorMessage r; cr_Metadata := v;
     cr_CompletedAt := cr_CompletedAt r; cr_CreatedAt := cr_CreatedAt r;
     cr_UpdatedAt := cr_UpdatedAt r |}.

Definition set_cr_CompletedAt (v : option Z) (r : ApplyControlRequest) : ApplyControlRequest :=
  {| cr_ID := cr_ID r; cr_ApplyID := cr_ApplyID r; cr_Operation := cr_Operation r;
     cr_Status := cr_Status r; cr_RequestedBy := cr_RequestedBy r;
     cr_ErrorMessage := cr_ErrorMessage r; cr_Metadata := cr_Metadata r; cr_CompletedAt := v;
     cr_CreatedAt := cr_CreatedAt r; cr_UpdatedAt := cr_UpdatedAt r |}.

Definition set_cr_UpdatedAt (v : Z) (r : ApplyControlRequest) : ApplyControlRequest :=
  {| cr_ID := cr_ID r; cr_ApplyID := cr_ApplyID r; cr_Operation := cr_Operation r;
     cr_Status := cr_Status r; cr_RequestedBy := cr_RequestedBy r;
     cr_ErrorMessage := cr_ErrorMessage r; cr_Metadata := cr_Metadata r;
     cr_CompletedAt := cr_CompletedAt r; cr_CreatedAt := cr_CreatedAt r; cr_UpdatedAt := v |}.

(** The progress columns of a task. *)
Record TaskProgress := {
  tp_RowsCopied : Z;
  tp_RowsTotal : Z;
  tp_ProgressPercent : Z;
  tp_ETASeconds : Z;
  tp_ChecksumRowsChecked : Z;
  tp_ChecksumRowsTotal : Z;
}.

#[global] Instance TaskProgress_eq_dec : EqDecision TaskProgress.
Proof. solve_decision. Defined.

(** [storage.Task], a row of table tasks.  An absent table name, DDL, DDL action or
    migration id is the empty string; the options are JSON text. *)
Record TaskRec := {
  tk_ID : Z;
  tk_TaskIdentifier : string;
  tk_ApplyID : Z;
  tk_ApplyOperationID : option Z;
  tk_PlanID : Z;
  tk_Database : string;
  tk_DatabaseType : string;
  tk_Namespace : string;
  tk_TableName : string;
  tk_Shard : string;
  tk_DDL : string;
  tk_DDLAction : string;
  tk_Engine : string;
  tk_Repository : string;
  tk_PullRequest : Z;
  tk_Environment : string;
  tk_State : string;
  tk_ErrorMessage : option string;
  tk_Options : string;
  tk_Attempt : Z;
  tk_Progress : TaskProgress;
  tk_CutoverAttempts : Z;
  tk_IsInstant : bool;
  tk_ReadyToComplete : bool;
  tk_EngineMigrationID : string;
  tk_StartedAt : option Z;
  tk_CompletedAt : option Z;
  tk_CreatedAt : Z;
  tk_UpdatedAt : Z;
}.

#[global] Instance TaskRec_eq_dec : EqDecision TaskRec.
Proof. solve_decision. Defined.

Definition set_tk_ID (v : Z) (r : TaskRec) : TaskRec :=
  {| tk_ID := v; tk_TaskIdentifier := tk_TaskIdentifier r; tk_ApplyID := tk_ApplyID r;
     tk_ApplyOperationID := tk_ApplyOperationID r; tk_PlanID := tk_PlanID r;
     tk_Database := tk_Database r; tk_DatabaseType := tk_DatabaseType r;
     tk_Namespace := tk_Namespace r; tk_TableName := tk_TableName r; tk_Shard := tk_Shard r;
     tk_DDL := tk_DDL r; tk_DDLAction := tk_DDLAction r; tk_Engine := tk_Engine r;
     tk_Repository := tk_Repository r; tk_PullRequest := tk_PullRequest r;
     tk_Environment := tk_Environment r; tk_State := tk_State r;
     tk_ErrorMessage := tk_ErrorMessage r; tk_Options := tk_Options r;
     tk_Attempt := tk_Attempt r; tk_Progress := tk_Progress r;
     tk_CutoverAttempts := tk_CutoverAttempts r; tk_IsInstant := tk_IsInstant r;
     tk_ReadyToComplete := tk_ReadyToComplete r; tk_EngineMigrationID := tk_EngineMigrationID r;
     tk_StartedAt := tk_StartedAt r; tk_CompletedAt := tk_CompletedAt r;
     tk_CreatedAt := tk_CreatedAt r; tk_UpdatedAt := tk_UpdatedAt r |}.

Definition set_tk_ApplyID (v : Z) (r : TaskRec) : TaskRec :=
  {| tk_ID := tk_ID r; tk_TaskIdentifier := tk_TaskIdentifier r; tk_ApplyID := v;
     tk_ApplyOperationID := tk_ApplyOperationID r; tk_PlanID := tk_PlanID r;
     tk_Database := tk_Database r; tk_DatabaseType := tk_DatabaseType r;
     tk_Namespace := tk_Namespace r; tk_TableName := tk_TableName r; tk_Shard := tk_Shard r;
     tk_DDL := tk_DDL r; tk_DDLAction := tk_DDLAction r; tk_Engine := tk_Engine r;
     tk_Repository := tk_Repository r; tk_PullRequest := tk_PullRequest r;
     tk_Environment := tk_Environment r; tk_State := tk_State r;
     tk_ErrorMessage := tk_ErrorMessage r; tk_Options := tk_Options r;
     tk_Attempt := tk_Attempt r; tk_Progress := tk_Progress r;
     tk_CutoverAttempts := tk_CutoverAttempts r; tk_IsInstant := tk_IsInstant r;
     tk_ReadyToComplete := tk_ReadyToComplete r; tk_EngineMigrationID := tk_EngineMigrationID r;
     tk_StartedAt := tk_StartedAt r; tk_CompletedAt := tk_CompletedAt r;
     tk_CreatedAt := tk_CreatedAt r; tk_UpdatedAt := tk_UpdatedAt r |}.

Definition set_tk_ApplyOperationID (v : option Z) (r : TaskRec) : TaskRec :=
  {| tk_ID := tk_ID r; tk_TaskIdentifier := tk_TaskIdentifier r; tk_ApplyID := tk_ApplyID r;
     tk_ApplyOperationID := v; tk_PlanID := tk_PlanID r; tk_Database := tk_Database r;
     tk_DatabaseType := tk_DatabaseType r; tk_Namespace := tk_Namespace r;
     tk_TableName := tk_TableName r; tk_Shard := tk_Shard r; tk_DDL := tk_DDL r;
     tk_DDLAction := tk_DDLAction r; tk_Engine := tk_Engine r; tk_Repository := tk_Repository r;
     tk_PullRequest := tk_PullRequest r; tk_Environment := tk_Environment r;
     tk_State := tk_State r; tk_ErrorMessage := tk_ErrorMessage r; tk_Options := tk_Options r;
     tk_Attempt := tk_Attempt r; tk_Progress := tk_Progress r;
     tk_CutoverAttempts := tk_CutoverAttempts r; tk_IsInstant := tk_IsInstant r;
     tk_ReadyToComplete := tk_ReadyToComplete r; tk_EngineMigrationID := tk_EngineMigrationID r;
     tk_StartedAt := tk_StartedAt r; tk_CompletedAt := tk_CompletedAt r;
     tk_CreatedAt := tk_CreatedAt r; tk_UpdatedAt := tk_UpdatedAt r |}.

Definition set_tk_State (v : string) (r : TaskRec) : TaskRec :=
  {| tk_ID := tk_ID r; tk_TaskIdentifier := tk_TaskIdentifier r; tk_ApplyID := tk_ApplyID r;
     tk_ApplyOperationID := tk_ApplyOperationID r; tk_PlanID := tk_PlanID r;
     tk_Database := tk_Database r; tk_DatabaseType := tk_DatabaseType r;
     tk_Namespace := tk_Namespace r; tk_TableName := tk_TableName r; tk_Shard := tk_Shard r;
     tk_DDL := tk_DDL r; tk_DDLAction := tk_DDLAction r; tk_Engine := tk_Engine r;
     tk_Repository := tk_Repository r; tk_PullRequest := tk_PullRequest r;
     tk_Environment := tk_Environment r; tk_State := v; tk_ErrorMessage := tk_ErrorMessage r;
     tk_Options := tk_Options r; tk_Attempt := tk_Attempt r; tk_Progress := tk_Progress r;
     tk_CutoverAttempts := tk_CutoverAttempts r; tk_IsInstant := tk_IsInstant r;
     tk_ReadyToComplete := tk_ReadyToComplete r; tk_EngineMigrationID := tk_EngineMigrationID r;
     tk_StartedAt := tk_StartedAt r; tk_CompletedAt := tk_CompletedAt r;
     tk_CreatedAt := tk_CreatedAt r; tk_UpdatedAt := tk_UpdatedAt r |}.

Definition set_tk_ErrorMessage (v : option string) (r : TaskRec) : TaskRec :=
  {| tk_ID := tk_ID r; tk_TaskIdentifier := tk_TaskIdentifier r; tk_ApplyID := tk_ApplyID r;
     tk_ApplyOperationID := tk_ApplyOperationID r; tk_PlanID := tk_PlanID r;
     tk_Database := tk_Database r; tk_DatabaseType := tk_DatabaseType r;
     tk_Namespace := tk_Namespace r; tk_TableName := tk_TableName r; tk_Shard := tk_Shard r;
     tk_DDL := tk_DDL r; tk_DDLAction := tk_DDLAction r; tk_Engine := tk_Engine r;
     tk_Repository := tk_Repository r; tk_PullRequest := tk_PullRequest r;
     tk_Environment := tk_Environment r; tk_State := tk_State r; tk_ErrorMessage := v;
     tk_Options := tk_Options r; tk_Attempt := tk_Attempt r; tk_Progress := tk_Progress r;
     tk_CutoverAttempts := tk_CutoverAttempts r; tk_IsInstant := tk_IsInstant r;
     tk_ReadyToComplete := tk_ReadyToComplete r; tk_EngineMigrationID := tk_EngineMigrationID r;
     tk_StartedAt := tk_StartedAt r; tk_CompletedAt := tk_CompletedAt r;
     tk_CreatedAt := tk_CreatedAt r; tk_UpdatedAt := tk_UpdatedAt r |}.

Definition set_tk_Options (v : string) (r : TaskRec) : TaskRec :=
  {| tk_ID := tk_ID r; tk_TaskIdentifier := tk_TaskIdentifier r; tk_ApplyID := tk_ApplyID r;
     tk_ApplyOperationID := tk_ApplyOperationID r; tk_PlanID := tk_PlanID r;
     tk_Database := tk_Database r; tk_DatabaseType := tk_DatabaseType r;
     tk_Namespace := tk_Namespace r; tk_TableName := tk_TableName r; tk_Shard := tk_Shard r;
     tk_DDL := tk_DDL r; tk_DDLAction := tk_DDLAction r; tk_Engine := tk_Engine r;
     tk_Repository := tk_Repository r; tk_PullRequest := tk_PullRequest r;
     tk_Environment := tk_Environment r; tk_State := tk_State r;
     tk_ErrorMessage := tk_ErrorMessage r; tk_Options := v; tk_Attempt := tk_Attempt r;
     tk_Progress := tk_Progress r; tk_CutoverAttempts := tk_CutoverAttempts r;
     tk_IsInstant := tk_IsInstant r; tk_ReadyToComplete := tk_ReadyToComplete r;
     tk_EngineMigrationID := tk_EngineMigrationID r; tk_StartedAt := tk_StartedAt r;
     tk_CompletedAt := tk_CompletedAt r; tk_CreatedAt := tk_CreatedAt r;
     tk_UpdatedAt := tk_UpdatedAt r |}.

Definition set_tk_Attempt (v : Z) (r : TaskRec) : TaskRec :=
  {| tk_ID := tk_ID r; tk_TaskIdentifier := tk_TaskIdentifier r; tk_ApplyID := tk_ApplyID r;
     tk_ApplyOperationID := tk_ApplyOperationID r; tk_PlanID := tk_PlanID r;
     tk_Database := tk_Database r; tk_DatabaseType := tk_DatabaseType r;
     tk_Namespace := tk_Namespace r; tk_TableName := tk_TableName r; tk_Shard := tk_Shard r;
     tk_DDL := tk_DDL r; tk_DDLAction := tk_DDLAction r; tk_Engine := tk_Engine r;
     tk_Repository := tk_Repository r; tk_PullRequest := tk_PullRequest r;
     tk_Environment := tk_Environment r; tk_State := tk_State r;
     tk_ErrorMessage := tk_ErrorMessage r; tk_Options := tk_Options r; tk_Attempt := v;
     tk_Progress := tk_Progress r; tk_CutoverAttempts := tk_CutoverAttempts r;
     tk_IsInstant := tk_IsInstant r; tk_ReadyToComplete := tk_ReadyToComplete r;
     tk_EngineMigrationID := tk_EngineMigrationID r; tk_StartedAt := tk_StartedAt r;
     tk_CompletedAt := tk_CompletedAt r; tk_CreatedAt := tk_CreatedAt r;
     tk_UpdatedAt := tk_UpdatedAt r |}.

Definition set_tk_Progress (v : TaskProgress) (r : TaskRec) : TaskRec :=
  {| tk_ID := tk_ID r; tk_TaskIdentifier := tk_TaskIdentifier r; tk_ApplyID := tk_ApplyID r;
     tk_ApplyOperationID := tk_ApplyOperationID r; tk_PlanID := tk_PlanID r;
     tk_Database := tk_Database r; tk_DatabaseType := tk_DatabaseType r;
     tk_Namespace := tk_Namespace r; tk_TableName := tk_TableName r; tk_Shard := tk_Shard r;
     tk_DDL := tk_DDL r; tk_DDLAction := tk_DDLAction r; tk_Engine := tk_Engine r;
     tk_Repository := tk_Repository r; tk_PullRequest := tk_PullRequest r;
     tk_Environment := tk_Environment r; tk_State := tk_State r;
     tk_ErrorMessage := tk_ErrorMessage r; tk_Options := tk_Options r;
     tk_Attempt := tk_Attempt r; tk_Progress := v; tk_CutoverAttempts := tk_CutoverAttempts r;
     tk_IsInstant := tk_IsInstant r; tk_ReadyToComplete := tk_ReadyToComplete r;
     tk_EngineMigrationID := tk_EngineMigrationID r; tk_StartedAt := tk_StartedAt r;
     tk_CompletedAt := tk_CompletedAt r; tk_CreatedAt := tk_CreatedAt r;
     tk_UpdatedAt := tk_UpdatedAt r |}.

Definition set_tk_CutoverAttempts (v : Z) (r : TaskRec) : TaskRec :=
  {| tk_ID := tk_ID r; tk_TaskIdentifier := tk_TaskIdentifier r; tk_ApplyID := tk_ApplyID r;
     tk_ApplyOperationID := tk_ApplyOperationID r; tk_PlanID := tk_PlanID r;
     tk_Database := tk_Database r; tk_DatabaseType := tk_DatabaseType r;
     tk_Namespace := tk_Namespace r; tk_TableName := tk_TableName r; tk_Shard := tk_Shard r;
     tk_DDL := tk_DDL r; tk_DDLAction := tk_DDLAction r; tk_Engine := tk_Engine r;
     tk_Repository := tk_Repository r; tk_PullRequest := tk_PullRequest r;
     tk_Environment := tk_Environment r; tk_State := tk_State r;
     tk_ErrorMessage := tk_ErrorMessage r; tk_Options := tk_Options r;
     tk_Attempt := tk_Attempt r; tk_Progress := tk_Progress r; tk_CutoverAttempts := v;
     tk_IsInstant := tk_IsInstant r; tk_ReadyToComplete := tk_ReadyToComplete r;
     tk_EngineMigrationID := tk_EngineMigrationID r; tk_StartedAt := tk_StartedAt r;
     tk_CompletedAt := tk_CompletedAt r; tk_CreatedAt := tk_CreatedAt r;
     tk_UpdatedAt := tk_UpdatedAt r |}.

Definition set_tk_IsInstant (v : bool) (r : TaskRec) : TaskRec :=
  {| tk_ID := tk_ID r; tk_TaskIdentifier := tk_TaskIdentifier r; tk_ApplyID := tk_ApplyID r;
     tk_ApplyOperationID := tk_ApplyOperationID r; tk_PlanID := tk_PlanID r;
     tk_Database := tk_Database r; tk_DatabaseType := tk_DatabaseType r;
     tk_Namespace := tk_Namespace r; tk_TableName := tk_TableName r; tk_Shard := tk_Shard r;
     tk_DDL := tk_DDL r; tk_DDLAction := tk_DDLAction r; tk_Engine := tk_Engine r;
     tk_Repository := tk_Repository r; tk_PullRequest := tk_PullRequest r;
     tk_Environment := tk_Environment r; tk_State := tk_State r;
     tk_ErrorMessage := tk_ErrorMessage r; tk_Options := tk_Options r;
     tk_Attempt := tk_Attempt r; tk_Progress := tk_Progress r;
     tk_CutoverAttempts := tk_CutoverAttempts r; tk_IsInstant := v;
     tk_ReadyToComplete := tk_ReadyToComplete r; tk_EngineMigrationID := tk_EngineMigrationID r;
     tk_StartedAt := tk_StartedAt r; tk_CompletedAt := tk_CompletedAt r;
     tk_CreatedAt := tk_CreatedAt r; tk_UpdatedAt := tk_UpdatedAt r |}.

Definition set_tk_ReadyToComplete (v : bool) (r : TaskRec) : TaskRec :=
  {| tk_ID := tk_ID r; tk_TaskIdentifier := tk_TaskIdentifier r; tk_ApplyID := tk_ApplyID r;
     tk_ApplyOperationID := tk_ApplyOperationID r; tk_PlanID := tk_PlanID r;
     tk_Database := tk_Database r; tk_DatabaseType := tk_DatabaseType r;
     tk_Namespace := tk_Namespace r; tk_TableName := tk_TableName r; tk_Shard := tk_Shard r;
     tk_DDL := tk_DDL r; tk_DDLAction := tk_DDLAction r; tk_Engine := tk_Engine r;
     tk_Repository := tk_Repository r; tk_PullRequest := tk_PullRequest r;
     tk_Environment := tk_Environment r; tk_State := tk_State r;
     tk_ErrorMessage := tk_ErrorMessage r; tk_Options := tk_Options r;
     tk_Attempt := tk_Attempt r; tk_Progress := tk_Progress r;
     tk_CutoverAttempts := tk_CutoverAttempts r; tk_IsInstant := tk_IsInstant r;
     tk_ReadyToComplete := v; tk_EngineMigrationID := tk_EngineMigrationID r;
     tk_StartedAt := tk_StartedAt r; tk_CompletedAt := tk_CompletedAt r;
     tk_CreatedAt := tk_CreatedAt r; tk_UpdatedAt := tk_UpdatedAt r |}.

Definition set_tk_EngineMigrationID (v : string) (r : TaskRec) : TaskRec :=
  {| tk_ID := tk_ID r; tk_TaskIdentifier := tk_TaskIdentifier r; tk_ApplyID := tk_ApplyID r;
     tk_ApplyOperationID := tk_ApplyOperationID r; tk_PlanID := tk_PlanID r;
     tk_Database := tk_Database r; tk_DatabaseType := tk_DatabaseType r;
     tk_Namespace := tk_Namespace r; tk_TableName := tk_TableName r; tk_Shard := tk_Shard r;
     tk_DDL := tk_DDL r; tk_DDLAction := tk_DDLAction r; tk_Engine := tk_Engine r;
     tk_Repository := tk_Repository r; tk_PullRequest := tk_PullRequest r;
     tk_Environment := tk_Environment r; tk_State := tk_State r;
     tk_ErrorMessage := tk_ErrorMessage r; tk_Options := tk_Options r;
     tk_Attempt := tk_Attempt r; tk_Progress := tk_Progress r;
     tk_CutoverAttempts := tk_CutoverAttempts r; tk_IsInstant := tk_IsInstant r;
     tk_ReadyToComplete := tk_ReadyToComplete r; tk_EngineMigrationID := v;
     tk_StartedAt := tk_StartedAt r; tk_CompletedAt := tk_CompletedAt r;
     tk_CreatedAt := tk_CreatedAt r; tk_UpdatedAt := tk_UpdatedAt r |}.

Definition set_tk_StartedAt (v : option Z) (r : TaskRec) : TaskRec :=
  {| tk_ID := tk_ID r; tk_TaskIdentifier := tk_TaskIdentifier r; tk_ApplyID := tk_ApplyID r;
     tk_ApplyOperationID := tk_ApplyOperationID r; tk_PlanID := tk_PlanID r;
     tk_Database := tk_Database r; tk_DatabaseType := tk_DatabaseType r;
     tk_Namespace := tk_Namespace r; tk_TableName := tk_TableName r; tk_Shard := tk_Shard r;
     tk_DDL := tk_DDL r; tk_DDLAction := tk_DDLAction r; tk_Engine := tk_Engine r;
     tk_Repository := tk_Repository r; tk_PullRequest := tk_PullRequest r;
     tk_Environment := tk_Environment r; tk_State := tk_State r;
     tk_ErrorMessage := tk_ErrorMessage r; tk_Options := tk_Options r;
     tk_Attempt := tk_Attempt r; tk_Progress := tk_Progress r;
     tk_CutoverAttempts := tk_CutoverAttempts r; tk_IsInstant := tk_IsInstant r;
     tk_ReadyToComplete := tk_ReadyToComplete r; tk_EngineMigrationID := tk_EngineMigrationID r;
     tk_StartedAt := v; tk_CompletedAt := tk_CompletedAt r; tk_CreatedAt := tk_CreatedAt r;
     tk_UpdatedAt := tk_UpdatedAt r |}.

Definition set_tk_CompletedAt (v : option Z) (r : TaskRec) : TaskRec :=
  {| tk_ID := tk_ID r; tk_TaskIdentifier := tk_TaskIdentifier r; tk_ApplyID := tk_ApplyID r;
     tk_ApplyOperationID := tk_ApplyOperationID r; tk_PlanID := tk_PlanID r;
     tk_Database := tk_Database r; tk_DatabaseType := tk_DatabaseType r;
     tk_Namespace := tk_Namespace r; tk_TableName := tk_TableName r; tk_Shard := tk_Shard r;
     tk_DDL := tk_DDL r; tk_DDLAction := tk_DDLAction r; tk_Engine := tk_Engine r;
     tk_Repository := tk_Repository r; tk_PullRequest := tk_PullRequest r;
     tk_Environment := tk_Environment r; tk_State := tk_State r;
     tk_ErrorMessage := tk_ErrorMessage r; tk_Options := tk_Options r;
     tk_Attempt := tk_Attempt r; tk_Progress := tk_Progress r;
     tk_CutoverAttempts := tk_CutoverAttempts r; tk_IsInstant := tk_IsInstant r;
     tk_ReadyToComplete := tk_ReadyToComplete r; tk_EngineMigrationID := tk_EngineMigrationID r;
     tk_StartedAt := tk_StartedAt r; tk_CompletedAt := v; tk_CreatedAt := tk_CreatedAt r;
     tk_UpdatedAt := tk_UpdatedAt r |}.

Definition set_tk_UpdatedAt (v : Z) (r : TaskRec) : TaskRec :=
  {| tk_ID := tk_ID r; tk_TaskIdentifier := tk_TaskIdentifier r; tk_ApplyID := tk_ApplyID r;
     tk_ApplyOperationID := tk_ApplyOperationID r; tk_PlanID := tk_PlanID r;
     tk_Database := tk_Database r; tk_DatabaseType := tk_DatabaseType r;
     tk_Namespace := tk_Namespace r; tk_TableName := tk_TableName r; tk_Shard := tk_Shard r;
     tk_DDL := tk_DDL r; tk_DDLAction := tk_DDLAction r; tk_Engine := tk_Engine r;
     tk_Repository := tk_Repository r; tk_PullRequest := tk_PullRequest r;
     tk_Environment := tk_Environment r; tk_State := tk_State r;
     tk_ErrorMessage := tk_ErrorMessage r; tk_Options := tk_Options r;
     tk_Attempt := tk_Attempt r; tk_Progress := tk_Progress r;
     tk_CutoverAttempts := tk_CutoverAttempts r; tk_IsInstant := tk_IsInstant r;
     tk_ReadyToComplete := tk_ReadyToComplete r; tk_EngineMigrationID := tk_EngineMigrationID r;
     tk_StartedAt := tk_StartedAt r; tk_CompletedAt := tk_CompletedAt r;
     tk_CreatedAt := tk_CreatedAt r; tk_UpdatedAt := v |}.

(** ** The database *)

(** All tables, the AUTO_INCREMENT counter they share here, and NOW(). *)
Record store := {
  applies : list Apply;
  operations : list ApplyOperation;
  controls : list ApplyControlRequest;
  tasks : list TaskRec;
  locks : lockDB;
  nextID : Z;
  now : Z;
}.

Definition set_applies (v : list Apply) (r : store) : store :=
  {| applies := v; operations := operations r; controls := controls r; tasks := tasks r;
     locks := locks r; nextID := nextID r; now := now r |}.

Definition set_operations (v : list ApplyOperation) (r : store) : store :=
  {| applies := applies r; operations := v; controls := controls r; tasks := tasks r;
     locks := locks r; nextID := nextID r; now := now r |}.

Definition set_controls (v : list ApplyControlRequest) (r : store) : store :=
  {| applies := applies r; operations := operations r; controls := v; tasks := tasks r;
     locks := locks r; nextID := nextID r; now := now r |}.

Definition set_tasks (v : list TaskRec) (r : store) : store :=
  {| applies := applies r; operations := operations r; controls := controls r; tasks := v;
     locks := locks r; nextID := nextID r; now := now r |}.

(** ** Leases (pkg/storage/lease.go) *)

Record ApplyLease := { al_ApplyID : Z; al_Owner : string; al_Token : string }.
Record OperationLease := { ol_ApplyID : Z; ol_OperationID : Z; ol_Owner : string; ol_Token : string }.

Definition ApplyLease_Valid (l : ApplyLease) : bool := (0 <? al_ApplyID l) && (al_Token l != "").
Definition OperationLease_Valid (l : OperationLease) : bool :=
  (0 <? ol_ApplyID l) && (0 <? ol_OperationID l) && (ol_Token l != "").

(** The leases a request context carries. *)
Record leaseCtx := { ApplyLeaseFromContext : option ApplyLease;
                     OperationLeaseFromContext : option OperationLease }.

(** ** Queries *)

(** [EXISTS (SELECT 1 FROM apply_control_requests ...)] *)
Definition hasRequest (s : store) (applyID : Z) (operation : string) (statuses : list string) : bool :=
  existsb (fun cr => (cr_ApplyID cr =? applyID) && (cr_Operation cr == operation) &&
                     oneOf (cr_Status cr) statuses) (controls s).

Definition pendingStop (s : store) (applyID : Z) : bool :=
  hasRequest s applyID ControlOperationStop [ControlRequestPending].
Definition pendingStart (s : store) (applyID : Z) : bool :=
  hasRequest s applyID ControlOperationStart [ControlRequestPending].
Definition releaseLatched (s : store) (applyID : Z) : bool :=
  hasRequest s applyID ControlOperationRelease [ControlRequestPending; ControlRequestCompleted].

Definition findApply (id : Z) (s : store) : option Apply :=
  find (fun a => a_ID a =? id) (applies s).
Definition findOperation (id : Z) (s : store) : option ApplyOperation :=
  find (fun o => op_ID o =? id) (operations s).

(** The [updated_at] column is ON UPDATE CURRENT_TIMESTAMP: an UPDATE that changes
    a column and does not assign it moves it to NOW(). *)
Definition touchOp (now : Z) (f : ApplyOperation -> ApplyOperation) (o : ApplyOperation)
    : ApplyOperation :=
  let o' := f o in if decide (o' = o) then o else set_op_UpdatedAt now o'.

(** [UPDATE apply_operations SET f WHERE p] *)
Definition updateOps (p : ApplyOperation -> bool) (f : ApplyOperation -> ApplyOperation) (s : store)
    : store :=
  set_operations ((fun o => if p o then f o else o) <$> operations s) s.
Definition updateApplies (p : Apply -> bool) (f : Apply -> Apply) (s : store) : store :=
  set_applies ((fun a => if p a then f a else a) <$> applies s) s.
Definition updateControls (p : ApplyControlRequest -> bool)
    (f : ApplyControlRequest -> ApplyControlRequest) (s : store) : store :=
  set_controls ((fun c => if p c then f c else c) <$> controls s) s.
Definition updateTasks (p : TaskRec -> bool) (f : TaskRec -> TaskRec) (s : store) : store :=
  set_tasks ((fun t => if p t then f t else t) <$> tasks s) s.

(** RowsAffected of an UPDATE: matched rows with clientFoundRows, else changed rows. *)
Definition affected {R} `{EqDecision R} (foundRows : bool) (p : R -> bool) (f : R -> R)
    (rows : list R) : Z :=
  Z.of_nat (length (filter (fun r => p r && (foundRows || bool_decide (f r <> r))) rows)).

(** [COALESCE(a, b)] *)
Definition COALESCE (a b : option Z) : option Z := match a with None => b | _ => a end.

(** ** The order of rows: (created_at, id) *)

Definition opBefore (a b : ApplyOperation) : bool :=
  (op_CreatedAt a <? op_CreatedAt b) ||
  ((op_CreatedAt a =? op_CreatedAt b) && (op_ID a <? op_ID b)).

(** [ORDER BY created_at, id LIMIT 1] *)
Fixpoint firstOp (os : list ApplyOperation) : option ApplyOperation :=
  match os with
  | [] => None
  | o :: os' =>
      match firstOp os' with
      | None => Some o
      | Some m => Some (if opBefore m o then m else o)
      end
  end.

(** ** Lemmas *)

Lemma opBefore_spec a b :
  opBefore a b = true <->
  op_CreatedAt a < op_CreatedAt b \/ (op_CreatedAt a = op_CreatedAt b /\ op_ID a < op_ID b).
Proof.
  unfold opBefore. by rewrite orb_true_iff, andb_true_iff, !Z.ltb_lt, Z.eqb_eq.
Qed.

Lemma opBefore_trans a b c : opBefore a b = true -> opBefore b c = true -> opBefore a c = true.
Proof. rewrite !opBefore_spec. lia. Qed.

Lemma opBefore_irrefl a : opBefore a a = false.
Proof. apply not_true_iff_false. rewrite opBefore_spec. lia. Qed.

Lemma firstOp_elem os o : firstOp os = Some o -> o ∈ os.
Proof.
  revert o. induction os as [|x os IH]; [done|]. cbn. intros o.
  destruct (firstOp os) as [m|]; intros [= <-]; [|by left].
  destruct (opBefore m x); [right; by apply IH|by left].
Qed.

Lemma firstOp_None os : firstOp os = None -> os = [].
Proof. destruct os as [|x os]; [done|]. cbn. by destruct (firstOp os). Qed.

(** Nothing of the list comes before its first row. *)
Lemma firstOp_min os o o' : firstOp os = Some o -> o' ∈ os -> opBefore o' o = false.
Proof.
  revert o. induction os as [|x os IH]; intros o; [done|]. cbn.
  destruct (firstOp os) as [m|] eqn:E.
  - intros [= <-] [->|He]%elem_of_cons.
    + destruct (opBefore m x) eqn:Ex; [|apply opBefore_irrefl].
      apply not_true_iff_false. rewrite opBefore_spec in *. lia.
    + specialize (IH m eq_refl He). destruct (opBefore m x) eqn:Ex; [done|].
      apply not_true_iff_false. apply not_true_iff_false in Ex, IH.
      rewrite opBefore_spec in *. lia.
  - intros [= <-] [->|He]%elem_of_cons; [apply opBefore_irrefl|].
    apply firstOp_None in E. subst. by apply elem_of_nil in He.
Qed.

Lemma operations_updateOps p f s :
  operations (updateOps p f s) = (fun o => if p o then f o else o) <$> operations s.
Proof. done. Qed.

Lemma applies_updateApplies p f s :
  applies (updateApplies p f s) = (fun a => if p a then f a else a) <$> applies s.
Proof. done. Qed.

Lemma touchOp_keep {B} (g : ApplyOperation -> B) now f o :
  (forall v r, g (set_op_UpdatedAt v r) = g r) -> g (touchOp now f o) = g (f o).
Proof. intros Hg. unfold touchOp. case_decide as E; [by rewrite E | by rewrite Hg]. Qed.

Lemma find_row {R} (key : R -> Z) (rows : list R) r :
  NoDup (key <$> rows) -> r ∈ rows -> find (fun x => key x =? key r) rows = Some r.
Proof.
  intros Hnd Hr. induction rows as [|x rows IH]; [by apply elem_of_nil in Hr|].
  cbn in Hnd. apply NoDup_cons in Hnd as [Hx Hnd]. cbn. apply elem_of_cons in Hr as [->|Hr].
  - by rewrite Z.eqb_refl.
  - destruct (key x =? key r) eqn:E; [|by apply IH]. apply Z.eqb_eq in E.
    exfalso. apply Hx. rewrite E. by apply list_elem_of_fmap_2.
Qed.

Lemma row_unique {R} (key : R -> Z) (rows : list R) x y :
  NoDup (key <$> rows) -> x ∈ rows -> y ∈ rows -> key x = key y -> x = y.
Proof.
  intros Hnd Hx Hy E. pose proof (find_row key rows x Hnd Hx) as H1.
  pose proof (find_row key rows y Hnd Hy) as H2. rewrite E in H1. congruence.
Qed.

(** The statuses a query lists. *)
Lemma hasRequest_spec s applyID op sts :
  hasRequest s applyID op sts = true <->
  exists cr, cr ∈ controls s /\ cr_ApplyID cr = applyID /\ cr_Operation cr = op /\ cr_Status cr ∈ sts.
Proof.
  unfold hasRequest. rewrite existsb_elem. split.
  - intros (cr & Hin & H). exists cr. reflect_guards. by rewrite <- oneOf_elem.
  - intros (cr & Hin & <- & <- & H). exists cr. split; [done|].
    by rewrite Z.eqb_refl, eqb_refl', (proj2 (oneOf_elem _ _) H).
Qed.
