(* ===== verification/Operations.v ===== *)
(** * The apply operation store (mysqlstore/apply_operations.go)

    One row of apply_operations per deployment (and shard) of an apply.  Drivers
    claim rows in deployment order under the cutover and on-failure policies,
    write them under a lease, and cut over in the same order.  A claim is a [prog] of
    two statements, the locking SELECT and the committed write, so that the
    theorems cover what other connections commit in between; [locked] are the rows
    other transactions hold (SKIP LOCKED), [token] the fresh UUID of the lease. *)

From S2P Require Import Prelude State Sql Locks Store.

Local Open Scope string_scope.
Local Open Scope Z_scope.

(** ** States (applies.go) *)

Definition claimableApplyStates : list string :=
  [ Apply.Running; Apply.RunningDegraded; Apply.Resuming; Apply.WaitingForDeploy;
    Apply.WaitingForCutover; Apply.Recovering; "recovering_cutover"; Apply.CuttingOver;
    Apply.RevertWindow; Apply.Reverting; Apply.SkippingRevert; Apply.PreparingBranch;
    Apply.ApplyingBranchChanges; Apply.ValidatingBranch; Apply.CreatingDeployRequest;
    Apply.ValidatingDeployRequest ].

Definition terminalApplyStates : list string :=
  [ Apply.Completed; Apply.Failed; Apply.Stopped; Apply.Cancelled; Apply.Reverted ].

(** ** Creation *)

Definition insertApplyOperation (ad : ApplyOperation) (s : store) : store * res ApplyOperation :=
  let row :=
    {| op_ID := nextID s; op_ApplyID := op_ApplyID ad; op_Deployment := op_Deployment ad;
       op_OperationKey := op_OperationKey ad;
       op_OperationKind := if op_OperationKind ad == "" then ApplyOperationKindWork
                           else op_OperationKind ad;
       op_Target := op_Target ad;
       op_ExternalID := nullString (default "" (op_ExternalID ad));
       op_ExternalOperationID := nullString (default "" (op_ExternalOperationID ad));
       op_EngineResumeContext := nullString (default "" (op_EngineResumeContext ad));
       op_EngineResumeMetadata := nullString (default "" (op_EngineResumeMetadata ad));
       op_State := if op_State ad == "" then Apply.Pending else op_State ad;
       op_ErrorMessage := nullString (default "" (op_ErrorMessage ad));
       op_CutoverPolicy := if op_CutoverPolicy ad == "" then CutoverPolicyRolling
                           else op_CutoverPolicy ad;
       op_OnFailure := if op_OnFailure ad == "" then OnFailureHalt else op_OnFailure ad;
       op_Attempt := 0; op_LeaseOwner := ""; op_LeaseToken := ""; op_LeaseAcquiredAt := None;
       op_StartedAt := op_StartedAt ad; op_CompletedAt := op_CompletedAt ad;
       op_CreatedAt := now s; op_UpdatedAt := now s |} in
  if existsb (fun o => (op_ApplyID o =? op_ApplyID row) && (op_Deployment o == op_Deployment row) &&
                       (op_OperationKey o == op_OperationKey row)) (operations s)
  then (s, Err ErrApplyOperationExists)
  else ({| applies := applies s; operations := operations s ++ [row]; controls := controls s;
           tasks := tasks s; locks := locks s; nextID := nextID s + 1; now := now s |}, Ok row).

(** The store's own entry: one statement, outside any transaction. *)
Definition Insert (ad : ApplyOperation) : prog store (res Z) :=
  Exec (insertApplyOperation ad) (fun r => Ret match r with Ok row => Ok (op_ID row) | Err e => Err e end).

(** ** The write guard *)

Inductive operationWriteGuard :=
| operationGuardNone
| operationGuardApply (applyLease : ApplyLease)
| operationGuardOperation (opLease : OperationLease).

Definition operationWriteGuardFromContext (ctx : leaseCtx) : res operationWriteGuard :=
  match OperationLeaseFromContext ctx with
  | Some lease => if negb (OperationLease_Valid lease) then Err ErrApplyLeaseLost
                  else Ok (operationGuardOperation lease)
  | None =>
      match ApplyLeaseFromContext ctx with
      | Some lease => if negb (ApplyLease_Valid lease) then Err ErrApplyLeaseLost
                      else Ok (operationGuardApply lease)
      | None => Ok operationGuardNone
      end
  end.

Definition applyTokenIs (s : store) (applyID : Z) (token : string) : bool :=
  existsb (fun a => (a_ID a =? applyID) && (a_LeaseToken a == token)) (applies s).

(** [join], [predicate] and [args] of the guard, on a row. *)
Definition guardPredicate (s : store) (g : operationWriteGuard) (o : ApplyOperation) : bool :=
  match g with
  | operationGuardOperation lease => op_LeaseToken o == ol_Token lease
  | operationGuardApply lease =>
      (op_ApplyID o =? al_ApplyID lease) && applyTokenIs s (op_ApplyID o) (al_Token lease)
  | operationGuardNone => true
  end.

Section OperationStore.
Context (foundRows : bool).

Definition read {A} (f : store -> A) : store -> store * res A := fun s => (s, Ok (f s)).

Definition applyOperationMissingResult (missingOK : bool) : res unit :=
  if missingOK then Ok tt else Err ErrApplyOperationNotFound.

Definition operationLeaseOwnsRow (id : Z) (token : string) (s : store) : bool :=
  existsb (fun o => (op_ID o =? id) && (op_LeaseToken o == token)) (operations s).

Definition applyOperationExists (id : Z) (s : store) : bool :=
  existsb (fun o => op_ID o =? id) (operations s).

(** [None] when there is no row, else whether it belongs to the lease's apply. *)
Definition applyOperationLeaseMatch (id : Z) (lease : ApplyLease) (s : store) : option bool :=
  option_map (fun o => op_ApplyID o =? al_ApplyID lease) (findOperation id s).

Definition checkUpdatedOrExists (rows id : Z) (g : operationWriteGuard) (missingOK : bool)
    : prog store (res unit) :=
  if 0 <? rows then Ret (Ok tt) else
  match g with
  | operationGuardOperation lease =>
      Exec (read (operationLeaseOwnsRow id (ol_Token lease))) (fun r =>
        match r with
        | Err e => Ret (Err e)
        | Ok true => Ret (Ok tt)
        | Ok false =>
            Exec (read (applyOperationExists id)) (fun r =>
              match r with
              | Err e => Ret (Err e)
              | Ok false => Ret (applyOperationMissingResult missingOK)
              | Ok true => Ret (Err ErrApplyLeaseLost)
              end)
        end)
  | operationGuardApply lease =>
      Exec (read (fun s => applyTokenIs s (al_ApplyID lease) (al_Token lease))) (fun r =>
        match r with
        | Err e => Ret (Err e)
        | Ok false => Ret (Err ErrApplyLeaseLost)
        | Ok true =>
            Exec (read (applyOperationLeaseMatch id lease)) (fun r =>
              match r with
              | Err e => Ret (Err e)
              | Ok None => Ret (applyOperationMissingResult missingOK)
              | Ok (Some false) => Ret (Err ErrApplyLeaseLost)
              | Ok (Some true) => Ret (Ok tt)
              end)
        end)
  | operationGuardNone =>
      Exec (read (applyOperationExists id)) (fun r =>
        match r with
        | Err e => Ret (Err e)
        | Ok false => Ret (applyOperationMissingResult missingOK)
        | Ok true => Ret (Ok tt)
        end)
  end.

(** [UPDATE apply_operations ao <join> SET <set> WHERE ao.id = ? <predicate>] *)
Definition guardedUpdate (ctx : leaseCtx) (id : Z) (missingOK : bool)
    (set : store -> ApplyOperation -> ApplyOperation) : prog store (res unit) :=
  match operationWriteGuardFromContext ctx with
  | Err e => Ret (Err e)
  | Ok g =>
      Exec (fun s =>
              let p o := (op_ID o =? id) && guardPredicate s g o in
              (updateOps p (set s) s, Ok (affected foundRows p (set s) (operations s))))
        (fun r => match r with
         | Err e => Ret (Err e)
         | Ok rows => checkUpdatedOrExists rows id g missingOK
         end)
  end.

Definition execStateUpdate (ctx : leaseCtx) (id : Z)
    (set : store -> ApplyOperation -> ApplyOperation) : prog store (res unit) :=
  guardedUpdate ctx id false (fun s => touchOp (now s) (set s)).

(** ** State transitions *)

Definition UpdateState (ctx : leaseCtx) (id : Z) (newState : string) : prog store (res unit) :=
  execStateUpdate ctx id (fun _ => set_op_State newState).

Definition MarkStarted (ctx : leaseCtx) (id : Z) : prog store (res unit) :=
  execStateUpdate ctx id (fun s o =>
    set_op_State Apply.Running (set_op_StartedAt (COALESCE (op_StartedAt o) (Some (now s))) o)).

Definition MarkCompleted (ctx : leaseCtx) (id : Z) : prog store (res unit) :=
  execStateUpdate ctx id (fun s o =>
    set_op_State Apply.Completed (set_op_CompletedAt (COALESCE (op_CompletedAt o) (Some (now s))) o)).

Definition MarkFailed (ctx : leaseCtx) (id : Z) (errMsg : string) : prog store (res unit) :=
  execStateUpdate ctx id (fun s o =>
    set_op_State Apply.Failed
      (set_op_ErrorMessage (if errMsg == "" then None else Some errMsg)
        (set_op_CompletedAt (COALESCE (op_CompletedAt o) (Some (now s))) o))).

Definition MarkTerminal (ctx : leaseCtx) (id : Z) (newState : string) : prog store (res unit) :=
  execStateUpdate ctx id (fun s o =>
    set_op_State newState (set_op_CompletedAt (COALESCE (op_CompletedAt o) (Some (now s))) o)).

Definition SaveExternalOperationID (ctx : leaseCtx) (operationID : Z) (externalOperationID : string)
    : prog store (res unit) :=
  if externalOperationID == "" then Ret (Err (Errorf "external operation id is empty")) else
  execStateUpdate ctx operationID (fun _ => set_op_ExternalOperationID (Some externalOperationID)).

Definition SaveExternalID (ctx : leaseCtx) (operationID : Z) (externalID : string)
    : prog store (res unit) :=
  if externalID == "" then Ret (Err (Errorf "external id is empty")) else
  execStateUpdate ctx operationID (fun _ => set_op_ExternalID (Some externalID)).

Definition Heartbeat (ctx : leaseCtx) (id : Z) : prog store (res unit) :=
  guardedUpdate ctx id true (fun s => set_op_UpdatedAt (now s)).

(** [storage.EngineResumeState] *)
Record EngineResumeState := { rs_ApplyOperationID : Z; MigrationContext : string; Metadata : string }.

Definition SaveEngineResumeState (ctx : leaseCtx) (operationID : Z)
    (resumeState : option EngineResumeState) : prog store (res unit) :=
  match resumeState with
  | None => Ret (Err (Errorf "resume state is nil"))
  | Some rs =>
      if negb (rs_ApplyOperationID rs =? 0) && negb (rs_ApplyOperationID rs =? operationID)
      then Ret (Err (Errorf "resume state belongs to another apply_operation")) else
      let metadata := if Metadata rs == "" then "{}" else Metadata rs in
      execStateUpdate ctx operationID (fun _ o =>
        set_op_EngineResumeContext
          (if MigrationContext rs == "" then None else Some (MigrationContext rs))
          (set_op_EngineResumeMetadata (Some metadata) o))
  end.

Definition GetEngineResumeState (operationID : Z) : prog store (res EngineResumeState) :=
  Exec (read (findOperation operationID)) (fun r => Ret
    match r with
    | Err e => Err e
    | Ok None => Err ErrApplyOperationNotFound
    | Ok (Some o) =>
        match op_EngineResumeMetadata o with
        | None => Err ErrEngineResumeStateNotFound
        | Some m =>
            if m == "" then Err ErrEngineResumeStateNotFound else
            Ok {| rs_ApplyOperationID := operationID;
                  MigrationContext := default "" (op_EngineResumeContext o); Metadata := m |}
        end
    end).

(** ** Claiming the next operation *)

(** The parenthesis of [releasedFailureExemptionSQL], before its NOT. *)
Definition releasedFailure (s : store) (o earlier : ApplyOperation) : bool :=
  (op_State earlier == Apply.Failed) &&
  ((op_OnFailure o == OnFailureContinue) ||
   ((op_OnFailure o == OnFailurePause) && releaseLatched s (op_ApplyID o))).

(** The earlier sibling that blocks the start of [o]. *)
Definition copyBlockedBy (s : store) (o earlier : ApplyOperation) : bool :=
  (op_ApplyID earlier =? op_ApplyID o) && (op_Deployment earlier != op_Deployment o) &&
  opBefore earlier o &&
  (((op_CutoverPolicy o == CutoverPolicyBarrier) &&
    negb (oneOf (op_State earlier)
            [Apply.WaitingForCutover; Apply.CuttingOver; Apply.RevertWindow; Apply.Completed])) ||
   (negb (oneOf (op_CutoverPolicy o) [CutoverPolicyBarrier; CutoverPolicyParallel]) &&
    (op_State earlier != Apply.Completed))) &&
  negb (releasedFailure s o earlier).

(** [SUBSTRING_INDEX(key, '/', 1)] *)
Fixpoint namespaceOf (key : string) : string :=
  match key with
  | EmptyString => EmptyString
  | String c rest => if Ascii.eqb c "/" then EmptyString else String c (namespaceOf rest)
  end.

Definition finalizerBlockedBy (o sibling : ApplyOperation) : bool :=
  (op_ApplyID sibling =? op_ApplyID o) && (op_Deployment sibling == op_Deployment o) &&
  (op_OperationKind sibling == ApplyOperationKindWork) &&
  (namespaceOf (op_OperationKey sibling) == namespaceOf (op_OperationKey o)) &&
  (op_State sibling != Apply.Completed).

Definition isStale (s : store) (t : Z) : bool := t <? now s - ApplyLeaseStaleAfter.

Definition hasSibling (s : store) (o : ApplyOperation) : bool :=
  existsb (fun x => (op_ApplyID x =? op_ApplyID o) && negb (op_ID x =? op_ID o)) (operations s).

(** The five arms of the claim's WHERE clause. *)
Definition pendingArm (s : store) (o : ApplyOperation) : bool :=
  (op_State o == Apply.Pending) &&
  (((op_OperationKind o != ApplyOperationKindGroupFinalizer) &&
    negb (existsb (copyBlockedBy s o) (operations s))) ||
   ((op_OperationKind o == ApplyOperationKindGroupFinalizer) &&
    negb (existsb (finalizerBlockedBy o) (operations s)))) &&
  negb (pendingStop s (op_ApplyID o)).

Definition staleArm (s : store) (o : ApplyOperation) : bool :=
  oneOf (op_State o) claimableApplyStates && isStale s (op_UpdatedAt o) &&
  negb ((op_State o == Apply.WaitingForCutover) &&
        oneOf (op_CutoverPolicy o) [CutoverPolicyBarrier; CutoverPolicyParallel] &&
        hasSibling s o).

Definition stoppedArm (s : store) (o : ApplyOperation) : bool :=
  (op_State o == Apply.Stopped) && pendingStart s (op_ApplyID o).

Definition deployArm (s : store) (o : ApplyOperation) : bool :=
  oneOf (op_State o) claimableApplyStates &&
  existsb (fun a => (a_ID a =? op_ApplyID o) && (a_State a == Apply.WaitingForDeploy)) (applies s) &&
  existsb (fun cr =>
    (cr_ApplyID cr =? op_ApplyID o) && (cr_Operation cr == ControlOperationStart) &&
    (cr_Status cr == ControlRequestPending) &&
    (match op_LeaseAcquiredAt o with
     | None => true
     | Some t => (t <? cr_UpdatedAt cr) || isStale s (op_UpdatedAt o)
     end)) (controls s).

Definition retryArm (s : store) (o : ApplyOperation) : bool :=
  (op_State o == Apply.FailedRetryable) &&
  existsb (fun a => (a_ID a =? op_ApplyID o) &&
    (((a_State a == Apply.FailedRetryable) && (a_Attempt a <? maxRecoveryAttempts) &&
      (now s - retryableRecoveryFreshnessDays * day <=? a_UpdatedAt a)) ||
     (oneOf (a_State a) claimableApplyStates && isStale s (a_UpdatedAt a)))) (applies s).

Definition claimableOperation (s : store) (o : ApplyOperation) : bool :=
  pendingArm s o || staleArm s o || stoppedArm s o || deployArm s o || retryArm s o.

Definition leaseOp (owner token : string) (s : store) (o : ApplyOperation) : ApplyOperation :=
  set_op_LeaseOwner owner (set_op_LeaseToken token (set_op_LeaseAcquiredAt (Some (now s))
    (set_op_UpdatedAt (now s) o))).

(** The row as it is returned to the driver: the state it was claimed in. *)
Definition claimedOp (owner token : string) (s : store) (ad : ApplyOperation) : ApplyOperation :=
  set_op_LeaseOwner owner (set_op_LeaseToken token (set_op_LeaseAcquiredAt (Some (now s)) ad)).

(** The switch on [ad.State] and the commit. *)
Definition claimOperation (owner token : string) (ad : ApplyOperation) (s : store)
    : store * res (option ApplyOperation) :=
  if op_State ad == Apply.Pending then
    let p o := (op_ID o =? op_ID ad) && (op_State o == Apply.Pending) &&
               negb (pendingStop s (op_ApplyID ad)) in
    if existsb p (operations s) then
      (updateOps p (fun o => leaseOp owner token s
          (set_op_State Apply.Running
            (set_op_StartedAt (COALESCE (op_StartedAt o) (Some (now s))) o))) s,
       Ok (Some (claimedOp owner token s ad)))
    else (s, Ok None)
  else if op_State ad == Apply.Stopped then
    let p o := (op_ID o =? op_ID ad) && (op_State o == Apply.Stopped) in
    if existsb p (operations s) then
      (updateOps p (fun o => leaseOp owner token s (set_op_State Apply.Resuming o)) s,
       Ok (Some (claimedOp owner token s ad)))
    else (s, Ok None)
  else
    let s1 := updateOps (fun o => op_ID o =? op_ID ad) (leaseOp owner token s) s in
    if op_State ad == Apply.FailedRetryable then
      let redispatch a := (a_ID a =? op_ApplyID ad) && (a_State a == Apply.FailedRetryable) in
      let bumped := existsb redispatch (applies s) in
      let s2 := if bumped
                then updateOps (fun o => op_ID o =? op_ID ad)
                       (fun o => touchOp (now s) (set_op_Attempt (op_Attempt o + 1)) o) s1
                else s1 in
      let charge a := redispatch a && (a_Attempt a <? maxRecoveryAttempts) &&
                      existsb (fun o => (op_ApplyID o =? a_ID a) && negb (op_ID o =? op_ID ad))
                              (operations s) in
      let s3 := updateApplies charge
                  (fun a => set_a_UpdatedAt (now s) (set_a_Attempt (a_Attempt a + 1) a)) s2 in
      (s3, Ok (Some (claimedOp owner token s
              (if bumped then set_op_Attempt (op_Attempt ad + 1) ad else ad))))
    else (s1, Ok (Some (claimedOp owner token s ad))).

Definition FindNextApplyOperation (locked : Z -> bool) (owner token : string)
    : prog store (res (option ApplyOperation)) :=
  if owner == "" then Ret (Err ErrApplyLeaseLost) else
  Exec (read (fun s => firstOp (filter
          (fun o => claimableOperation s o && negb (locked (op_ID o))) (operations s))))
    (fun r => match r with
     | Err e => Ret (Err e)
     | Ok None => Ret (Ok None)
     | Ok (Some ad) => Exec (claimOperation owner token ad) Ret
     end).

(** ** Claiming the next cutover *)

Definition cutoverEligible (s : store) (o : ApplyOperation) : bool :=
  oneOf (op_CutoverPolicy o) [CutoverPolicyBarrier; CutoverPolicyParallel] && hasSibling s o &&
  existsb (fun a => (a_ID a =? op_ApplyID o) && negb (a_DeferCutover a)) (applies s).

Definition cutoverBlockedBy (s : store) (o earlier : ApplyOperation) : bool :=
  (op_ApplyID earlier =? op_ApplyID o) && opBefore earlier o &&
  (op_State earlier != Apply.Completed) && negb (releasedFailure s o earlier).

Definition cutoverStartArm (s : store) (o : ApplyOperation) : bool :=
  (op_State o == Apply.WaitingForCutover) &&
  negb (existsb (cutoverBlockedBy s o) (operations s)) &&
  negb (pendingStop s (op_ApplyID o)).

Definition claimableCutover (s : store) (o : ApplyOperation) : bool :=
  cutoverEligible s o &&
  (cutoverStartArm s o ||
   (oneOf (op_State o) [Apply.CuttingOver; Apply.RevertWindow] && isStale s (op_UpdatedAt o))).

Definition claimCutover (owner token : string) (ad : ApplyOperation) (s : store)
    : store * res (option ApplyOperation) :=
  if op_State ad == Apply.WaitingForCutover then
    let p o := (op_ID o =? op_ID ad) && (op_State o == Apply.WaitingForCutover) &&
               negb (pendingStop s (op_ApplyID ad)) in
    if existsb p (operations s) then
      (updateOps p (fun o => leaseOp owner token s (set_op_State Apply.CuttingOver o)) s,
       Ok (Some (claimedOp owner token s ad)))
    else (s, Ok None)
  else (updateOps (fun o => op_ID o =? op_ID ad) (leaseOp owner token s) s,
        Ok (Some (claimedOp owner token s ad))).

Definition FindNextApplyOperationCutover (locked : Z -> bool) (owner token : string)
    : prog store (res (option ApplyOperation)) :=
  if owner == "" then Ret (Err ErrApplyLeaseLost) else
  Exec (read (fun s => firstOp (filter
          (fun o => claimableCutover s o && negb (locked (op_ID o))) (operations s))))
    (fun r => match r with
     | Err e => Ret (Err e)
     | Ok None => Ret (Ok None)
     | Ok (Some ad) => Exec (claimCutover owner token ad) Ret
     end).

(** ** Writes over all operations of an apply *)

Definition applyLeaseFromContext (ctx : leaseCtx) (applyID : Z) : res (option ApplyLease) :=
  match ApplyLeaseFromContext ctx with
  | None => Ok None
  | Some lease =>
      if negb (ApplyLease_Valid lease) then Err ErrApplyLeaseLost
      else if negb (al_ApplyID lease =? applyID) then Err ErrApplyLeaseLost
      else Ok (Some lease)
  end.

Definition confirmLeaseOnZeroRows (rows : Z) (lease : ApplyLease) : prog store (res Z) :=
  if rows =? 0 then
    Exec (read (fun s => applyTokenIs s (al_ApplyID lease) (al_Token lease))) (fun r => Ret
      match r with
      | Err e => Err e
      | Ok true => Ok rows
      | Ok false => Err ErrApplyLeaseLost
      end)
  else Ret (Ok rows).

Definition deleteOps (p : ApplyOperation -> bool) (s : store) : store * res Z :=
  (set_operations (filter (fun o => negb (p o)) (operations s)) s,
   Ok (Z.of_nat (length (filter (fun o => p o) (operations s))))).

Definition DeleteByApply (ctx : leaseCtx) (applyID : Z) : prog store (res unit) :=
  match applyLeaseFromContext ctx applyID with
  | Err e => Ret (Err e)
  | Ok None =>
      Exec (deleteOps (fun o => op_ApplyID o =? applyID))
        (fun r => Ret (match r with Ok _ => Ok tt | Err e => Err e end))
  | Ok (Some lease) =>
      Exec (fun s => deleteOps (fun o => (op_ApplyID o =? applyID) &&
                                 applyTokenIs s (op_ApplyID o) (al_Token lease)) s)
        (fun r => match r with
         | Err e => Ret (Err e)
         | Ok rows => pbind (confirmLeaseOnZeroRows rows lease)
                        (fun r => Ret (match r with Ok _ => Ok tt | Err e => Err e end))
         end)
  end.

Definition stopPending (authorized : store -> bool) (applyID : Z) (s : store) : store * res Z :=
  let p o := (op_ApplyID o =? applyID) && (op_State o == Apply.Pending) && authorized s in
  let f := fun o => set_op_UpdatedAt (now s) (set_op_State Apply.Stopped o) in
  (updateOps p f s, Ok (affected foundRows p f (operations s))).

Definition MarkPendingStoppedByApply (ctx : leaseCtx) (applyID : Z) : prog store (res Z) :=
  match OperationLeaseFromContext ctx with
  | Some opLease =>
      if negb (OperationLease_Valid opLease) then Ret (Err ErrApplyLeaseLost)
      else if negb (ol_ApplyID opLease =? applyID) then Ret (Err ErrApplyLeaseLost)
      else
        Exec (stopPending (fun s => existsb (fun o =>
                (op_ApplyID o =? applyID) && (op_ID o =? ol_OperationID opLease) &&
                (op_LeaseToken o == ol_Token opLease)) (operations s)) applyID)
          (fun r => match r with
           | Err e => Ret (Err e)
           | Ok rows =>
               if rows =? 0 then
                 Exec (read (operationLeaseOwnsRow (ol_OperationID opLease) (ol_Token opLease)))
                   (fun r => Ret (match r with
                    | Err e => Err e
                    | Ok true => Ok rows
                    | Ok false => Err ErrApplyLeaseLost
                    end))
               else Ret (Ok rows)
           end)
  | None =>
      match applyLeaseFromContext ctx applyID with
      | Err e => Ret (Err e)
      | Ok None => Exec (stopPending (fun _ => true) applyID) Ret
      | Ok (Some lease) =>
          Exec (stopPending (fun s => applyTokenIs s applyID (al_Token lease)) applyID)
            (fun r => match r with
             | Err e => Ret (Err e)
             | Ok rows => confirmLeaseOnZeroRows rows lease
             end)
      end
  end.
End OperationStore.

(** ** Lemmas: what a claim read and wrote *)

Lemma Is_true_filter {A} (p : A -> bool) (l : list A) x :
  x ∈ filter (fun y => p y) l <-> x ∈ l /\ p x = true.
Proof. rewrite list_elem_of_filter, Is_true_true. tauto. Qed.

(** A claim that returned a row: the row was the first claimable one when the
    SELECT ran, and the write ran later, after interference. *)
Lemma claim_run (select : store -> ApplyOperation -> bool)
    (write : ApplyOperation -> store -> store * res (option ApplyOperation))
    (locked : Z -> bool) (env : nat -> envStep store) (s s' : store) c n :
  runE env 0
    (Exec (read (fun s => firstOp (filter
            (fun o => select s o && negb (locked (op_ID o))) (operations s))))
      (fun r => match r with
       | Err e => Ret (Err e)
       | Ok None => Ret (Ok None)
       | Ok (Some ad) => Exec (write ad) Ret
       end)) s = (s', Ok (Some c), n) ->
  let s0 := interfere (env 0%nat) s in
  let s1 := interfere (env 1%nat) s0 in
  exists ad, ad ∈ operations s0 /\ select s0 ad = true /\ locked (op_ID ad) = false /\
    (forall o, o ∈ operations s0 -> select s0 o = true -> locked (op_ID o) = false ->
       opBefore o ad = false) /\
    write ad s1 = (s', Ok (Some c)).
Proof.
  cbn [runE]. destruct (fault (env 0%nat)) as [e|]; [by intros|]. cbn [read].
  destruct (firstOp _) as [ad|] eqn:E; [|by intros].
  cbn [runE]. destruct (fault (env 1%nat)) as [e|]; [by intros|].
  destruct (write ad _) as [s2 r] eqn:Ew. cbn [runE]. intros [= <- -> _].
  pose proof (firstOp_elem _ _ E) as Hin. apply Is_true_filter in Hin as [Hin Hp].
  apply andb_true_iff in Hp as [Hsel Hl%negb_true_iff].
  exists ad. repeat (split; [done|]). split; [|done].
  intros o Ho Hs Hlo. eapply firstOp_min; [exact E|]. apply Is_true_filter.
  split; [done|]. by rewrite Hs, Hlo.
Qed.

Lemma claimedOp_state owner token s ad : op_State (claimedOp owner token s ad) = op_State ad.
Proof. done. Qed.

(** The states an operation claim of a pending row needs. *)
Lemma claimOperation_pending owner token ad s s' c :
  op_State ad = Apply.Pending ->
  claimOperation owner token ad s = (s', Ok (Some c)) ->
  pendingStop s (op_ApplyID ad) = false /\
  c = claimedOp owner token s ad /\
  (exists o, o ∈ operations s /\ op_ID o = op_ID ad /\ op_State o = Apply.Pending) /\
  (forall o', o' ∈ operations s' -> op_ID o' = op_ID ad ->
     op_State o' = Apply.Running /\ op_LeaseToken o' = token \/
     exists o, o ∈ operations s /\ o' = o /\ op_State o <> Apply.Pending).
Proof.
  intros Hp. unfold claimOperation. rewrite Hp. change (Apply.Pending == Apply.Pending) with true.
  cbn iota. destruct (existsb _ _) eqn:E; [|by intros]. intros [= <- <-].
  apply existsb_elem in E as (o & Ho & H).
  apply andb_true_iff in H as [[Hid Hs]%andb_true_iff Hstop%negb_true_iff]. reflect_guards.
  repeat split; [done| |].
  - by exists o.
  - intros o' Ho' Hid'. rewrite operations_updateOps in Ho'.
    apply list_elem_of_fmap in Ho' as (x & -> & Hx).
    destruct (_ && _) eqn:Ex; [by left|]. right. exists x. repeat split; [done|].
    intros Hst. rewrite Hid', Hst, Hstop, Z.eqb_refl in Ex. done.
Qed.

Lemma claimOperation_state owner token ad s s' c :
  claimOperation owner token ad s = (s', Ok (Some c)) -> op_State c = op_State ad.
Proof.
  unfold claimOperation. intros H.
  repeat match type of H with context [if ?b then _ else _] => destruct b end; simplify_eq/=; try done.
  all: by repeat case_match.
Qed.

Lemma claimable_pending s o :
  op_State o = Apply.Pending -> claimableOperation s o = true -> pendingArm s o = true.
Proof.
  intros Hp. unfold claimableOperation, staleArm, stoppedArm, deployArm, retryArm.
  rewrite Hp. cbn [oneOf existsb claimableApplyStates].
  change (oneOf Apply.Pending claimableApplyStates) with false.
  change (Apply.Pending == Apply.Stopped) with false.
  change (Apply.Pending == Apply.FailedRetryable) with false.
  by rewrite !andb_false_l, !orb_false_r.
Qed.

(** The parent apply a redispatch of [ad] charges. *)
Definition chargesBudget (s : store) (ad : ApplyOperation) (a : Apply) : bool :=
  (a_ID a =? op_ApplyID ad) && (a_State a == Apply.FailedRetryable) &&
  (a_Attempt a <? maxRecoveryAttempts) &&
  existsb (fun o => (op_ApplyID o =? a_ID a) && negb (op_ID o =? op_ID ad)) (operations s).

Lemma claimOperation_retry owner token ad s s' c :
  op_State ad = Apply.FailedRetryable ->
  claimOperation owner token ad s = (s', Ok (Some c)) ->
  op_ID c = op_ID ad /\ op_ApplyID c = op_ApplyID ad /\
  applies s' = (fun a => if chargesBudget s ad a
                         then set_a_UpdatedAt (now s) (set_a_Attempt (a_Attempt a + 1) a)
                         else a) <$> applies s.
Proof.
  intros Hr. unfold claimOperation. rewrite Hr.
  change (Apply.FailedRetryable == Apply.Pending) with false.
  change (Apply.FailedRetryable == Apply.Stopped) with false.
  change (Apply.FailedRetryable == Apply.FailedRetryable) with true.
  cbv zeta iota. intros [= <- <-]. by destruct (existsb _ _).
Qed.

Lemma claimable_retry s ad a :
  op_State ad = Apply.FailedRetryable -> claimableOperation s ad = true ->
  NoDup (a_ID <$> applies s) -> a ∈ applies s -> a_ID a = op_ApplyID ad ->
  a_State a = Apply.FailedRetryable -> a_Attempt a < maxRecoveryAttempts.
Proof.
  intros Hretry Hc Hids Ha Hparent Hstate.
  unfold claimableOperation, pendingArm, staleArm, stoppedArm, deployArm in Hc.
  rewrite Hretry in Hc. change (oneOf Apply.FailedRetryable claimableApplyStates) with false in Hc.
  change (Apply.FailedRetryable == Apply.Pending) with false in Hc.
  change (Apply.FailedRetryable == Apply.Stopped) with false in Hc.
  unfold retryArm in Hc. apply andb_true_iff in Hc as [_ Hr].
  apply existsb_elem in Hr as (a0 & Ha0 & H0). apply andb_true_iff in H0 as [Hid0%Z.eqb_eq H0].
  assert (a0 = a) as -> by (apply (row_unique a_ID (applies s)); try done; congruence).
  rewrite Hstate in H0. change (oneOf Apply.FailedRetryable claimableApplyStates) with false in H0.
  rewrite andb_false_l, orb_false_r in H0. apply andb_true_iff in H0 as [[_ H0]%andb_true_iff _].
  by apply Z.ltb_lt.
Qed.

(** What an earlier sibling may be when a later operation starts its copy. *)
Definition copyUnblocked (s : store) (o earlier : ApplyOperation) : Prop :=
  op_CutoverPolicy o = CutoverPolicyParallel \/
  op_State earlier = Apply.Completed \/
  (op_CutoverPolicy o = CutoverPolicyBarrier /\
   op_State earlier ∈ [Apply.WaitingForCutover; Apply.CuttingOver; Apply.RevertWindow]) \/
  (op_State earlier = Apply.Failed /\
   (op_OnFailure o = OnFailureContinue \/
    (op_OnFailure o = OnFailurePause /\ releaseLatched s (op_ApplyID o) = true))).

Lemma releasedFailure_spec s o e :
  releasedFailure s o e = true <->
  op_State e = Apply.Failed /\
  (op_OnFailure o = OnFailureContinue \/
   (op_OnFailure o = OnFailurePause /\ releaseLatched s (op_ApplyID o) = true)).
Proof.
  unfold releasedFailure. rewrite andb_true_iff, orb_true_iff, andb_true_iff.
  by rewrite !String.eqb_eq.
Qed.

Lemma copy_gate s o e :
  existsb (copyBlockedBy s o) (operations s) = false ->
  e ∈ operations s -> op_ApplyID e = op_ApplyID o -> op_Deployment e <> op_Deployment o ->
  opBefore e o = true -> copyUnblocked s o e.
Proof.
  intros Hno He Ha Hd Hb. unfold copyUnblocked. rewrite <- releasedFailure_spec.
  destruct (releasedFailure s o e) eqn:Er; [by do 3 right|].
  destruct (decide (op_CutoverPolicy o = CutoverPolicyParallel)) as [|Hnp]; [by left|].
  destruct (decide (op_State e = Apply.Completed)) as [|Hnc]; [by right; left|].
  destruct (decide (op_CutoverPolicy o = CutoverPolicyBarrier)) as [Hbar|Hnb].
  - do 2 right. left. split; [done|].
    destruct (oneOf (op_State e) [Apply.WaitingForCutover; Apply.CuttingOver; Apply.RevertWindow;
      Apply.Completed]) eqn:Eo; [apply oneOf_elem in Eo; set_solver|].
    assert (copyBlockedBy s o e = true) as Hblk.
    { unfold copyBlockedBy. rewrite Ha, Z.eqb_refl, Hb, Er, Hbar, Eo.
      by rewrite (proj2 (String.eqb_neq _ _) Hd). }
    apply not_true_iff_false in Hno. destruct Hno. apply existsb_elem. by exists e.
  - exfalso. apply not_true_iff_false in Hno. apply Hno. apply existsb_elem. exists e.
    split; [done|]. unfold copyBlockedBy. rewrite Ha, Z.eqb_refl, Hb, Er.
    rewrite (proj2 (String.eqb_neq _ _) Hd), (proj2 (String.eqb_neq _ _) Hnc).
    cbn [oneOf existsb]. rewrite (proj2 (String.eqb_neq _ _) Hnb), (proj2 (String.eqb_neq _ _) Hnp).
    done.
Qed.

Lemma cutover_gate s o e :
  existsb (cutoverBlockedBy s o) (operations s) = false ->
  e ∈ operations s -> op_ApplyID e = op_ApplyID o -> opBefore e o = true ->
  op_State e = Apply.Completed \/ releasedFailure s o e = true.
Proof.
  intros Hno He Ha Hb. destruct (releasedFailure s o e) eqn:Er; [by right|left].
  destruct (decide (op_State e = Apply.Completed)) as [|Hnc]; [done|]. exfalso.
  apply not_true_iff_false in Hno. apply Hno. apply existsb_elem. exists e. split; [done|].
  unfold cutoverBlockedBy. by rewrite Ha, Z.eqb_refl, Hb, Er, (proj2 (String.eqb_neq _ _) Hnc).
Qed.

(** ** Lemmas: guarded writes *)

(** The answer of a guarded write: whether the caller's lease covers the row. *)
Definition guardAnswer (s : store) (g : operationWriteGuard) (id : Z) (missingOK : bool) : res unit :=
  match g with
  | operationGuardNone =>
      match findOperation id s with
      | None => applyOperationMissingResult missingOK
      | Some _ => Ok tt
      end
  | operationGuardOperation lease =>
      match findOperation id s with
      | None => applyOperationMissingResult missingOK
      | Some o => if op_LeaseToken o == ol_Token lease then Ok tt else Err ErrApplyLeaseLost
      end
  | operationGuardApply lease =>
      if negb (applyTokenIs s (al_ApplyID lease) (al_Token lease)) then Err ErrApplyLeaseLost else
      match findOperation id s with
      | None => applyOperationMissingResult missingOK
      | Some o => if op_ApplyID o =? al_ApplyID lease then Ok tt else Err ErrApplyLeaseLost
      end
  end.

Lemma findOperation_Some id s o : findOperation id s = Some o -> o ∈ operations s /\ op_ID o = id.
Proof.
  unfold findOperation. intros [H1 H2]%find_some. split; [by apply list_elem_of_In|by apply Z.eqb_eq].
Qed.

Lemma findOperation_update p f s id :
  (forall o, op_ID (f o) = op_ID o) ->
  findOperation id (updateOps p f s) = option_map (fun o => if p o then f o else o) (findOperation id s).
Proof.
  intros Hid. unfold findOperation. rewrite operations_updateOps.
  induction (operations s) as [|x os IH]; [done|]. cbn.
  assert ((op_ID (if p x then f x else x) =? id) = (op_ID x =? id)) as ->
    by (case_match; rewrite ?Hid; done).
  by destruct (op_ID x =? id).
Qed.

Lemma exists_find id s : applyOperationExists id s = match findOperation id s with Some _ => true | None => false end.
Proof.
  unfold applyOperationExists, findOperation. induction (operations s) as [|x os IH]; [done|].
  cbn. by destruct (op_ID x =? id).
Qed.

Lemma owns_find id token s :
  NoDup (op_ID <$> operations s) ->
  operationLeaseOwnsRow id token s =
    match findOperation id s with Some o => op_LeaseToken o == token | None => false end.
Proof.
  intros Hnd. unfold operationLeaseOwnsRow. apply eq_true_iff_eq. rewrite existsb_elem. split.
  - intros (o & Ho & H). reflect_guards. subst. unfold findOperation.
    rewrite (find_row op_ID _ o Hnd Ho). by apply String.eqb_eq.
  - destruct (findOperation id s) as [o|] eqn:E; [|done]. intros H.
    apply findOperation_Some in E as [Ho Hid]. exists o. split; [done|].
    by rewrite Hid, Z.eqb_refl, H.
Qed.

Lemma affected_pos {R} `{EqDecision R} fr p (f : R -> R) rows :
  0 < affected fr p f rows -> exists r, r ∈ rows /\ p r = true.
Proof.
  unfold affected. intros H. destruct (filter _ rows) as [|r l] eqn:E; [cbn in H; lia|].
  assert (Hin : r ∈ r :: l) by (by left). rewrite <- E in Hin.
  apply list_elem_of_filter in Hin as [Hp Hr]. exists r. split; [done|].
  apply Is_true_true in Hp. by apply andb_true_iff in Hp as [? _].
Qed.

Lemma affected_zero {R} `{EqDecision R} fr p (f : R -> R) rows r :
  affected fr p f rows <= 0 -> r ∈ rows -> p r = true -> f r = r.
Proof.
  unfold affected. intros H Hr Hp. destruct (decide (f r = r)) as [|Hne]; [done|]. exfalso.
  assert (Hin : r ∈ filter (fun r => p r && (fr || bool_decide (f r <> r))) rows).
  { apply list_elem_of_filter. split; [|done]. by rewrite Hp, bool_decide_true, orb_true_r. }
  destruct (filter _ rows); [by apply elem_of_nil in Hin|cbn in H; lia].
Qed.

Lemma guard_hit s g id missingOK o :
  NoDup (op_ID <$> operations s) ->
  o ∈ operations s -> op_ID o = id -> guardPredicate s g o = true ->
  guardAnswer s g id missingOK = Ok tt.
Proof.
  intros Hnd Ho <- Hg. unfold guardAnswer, findOperation. rewrite (find_row op_ID _ o Hnd Ho).
  destruct g as [|lease|lease]; cbn in Hg; [done| |by rewrite Hg].
  reflect_guards. rewrite H in *. by rewrite H0, Z.eqb_refl.
Qed.

(** The read-only check after an UPDATE that affected no row. *)
Lemma check_run s g id missingOK :
  NoDup (op_ID <$> operations s) ->
  run (checkUpdatedOrExists 0 id g missingOK) s = (s, guardAnswer s g id missingOK).
Proof.
  intros Hnd. unfold checkUpdatedOrExists, guardAnswer. cbn [Z.ltb Z.compare].
  destruct g as [|lease|lease]; rewrite run_Exec; cbn [read fst snd].
  - rewrite exists_find. by destruct (findOperation id s).
  - destruct (applyTokenIs _ _ _); [|done]. cbn [negb]. rewrite run_Exec. cbn [read fst snd].
    unfold applyOperationLeaseMatch. destruct (findOperation id s) as [o|]; [|done]. cbn.
    by destruct (op_ApplyID o =? _).
  - rewrite owns_find by done. destruct (findOperation id s) as [o|] eqn:E.
    + destruct (_ == _); [done|]. rewrite run_Exec. cbn [read fst snd]. by rewrite exists_find, E.
    + rewrite run_Exec. cbn [read fst snd]. by rewrite exists_find, E.
Qed.

Lemma fmap_opID_update p f s :
  (forall o, op_ID (f o) = op_ID o) ->
  op_ID <$> operations (updateOps p f s) = op_ID <$> operations s.
Proof.
  intros Hid. rewrite operations_updateOps, <- list_fmap_compose. apply list_fmap_ext.
  intros _ o _. cbn. by case_match.
Qed.

(** A guarded write, alone: it changes the row exactly when the lease covers it,
    and answers whether it does. *)
Lemma guardedUpdate_run fr ctx id missingOK set s g :
  operationWriteGuardFromContext ctx = Ok g ->
  NoDup (op_ID <$> operations s) -> (forall o, op_ID (set s o) = op_ID o) ->
  run (guardedUpdate fr ctx id missingOK set) s =
    (updateOps (fun o => (op_ID o =? id) && guardPredicate s g o) (set s) s,
     guardAnswer s g id missingOK).
Proof.
  intros Hg Hnd Hid. unfold guardedUpdate. rewrite Hg, run_Exec. cbn [fst snd].
  set (p := fun o => (op_ID o =? id) && guardPredicate s g o).
  set (n := affected fr p (set s) (operations s)).
  destruct (0 <? n) eqn:En.
  - unfold checkUpdatedOrExists. rewrite En, run_Ret. f_equal. symmetry. apply Z.ltb_lt in En.
    destruct (affected_pos _ _ _ _ En) as (o & Ho & Hp). unfold p in Hp. reflect_guards.
    by apply (guard_hit s g id missingOK o).
  - apply Z.ltb_ge in En.
    assert (Hsame : updateOps p (set s) s = s).
    { destruct s as [ap os cs ts ls nx nw]. unfold updateOps, set_operations. cbn in *. f_equal.
      rewrite <- (list_fmap_id os) at 2. apply list_fmap_ext. intros i o Ho%list_elem_of_lookup_2.
      destruct (p o) eqn:Ep; [|done]. by apply (affected_zero fr p _ os). }
    rewrite Hsame. assert (Hn : n = 0) by (unfold n, affected in *; lia). rewrite Hn.
    by apply check_run.
Qed.

(** ** Examples: a rollout over three deployments *)

Definition exampleOp (id : Z) (deployment st policy onFailure : string) : ApplyOperation :=
  {| op_ID := id; op_ApplyID := 1; op_Deployment := deployment; op_OperationKey := "";
     op_OperationKind := ApplyOperationKindWork; op_Target := ""; op_ExternalID := None;
     op_ExternalOperationID := None; op_EngineResumeContext := None;
     op_EngineResumeMetadata := None; op_State := st; op_ErrorMessage := None;
     op_CutoverPolicy := policy; op_OnFailure := onFailure; op_Attempt := 0; op_LeaseOwner := "";
     op_LeaseToken := ""; op_LeaseAcquiredAt := None; op_StartedAt := None; op_CompletedAt := None;
     op_CreatedAt := 10; op_UpdatedAt := 1000 |}.

Definition exampleApply (st : string) : Apply :=
  {| a_ID := 1; a_ApplyIdentifier := "apply-1"; a_LockID := 1; a_PlanID := 1;
     a_Database := "orders"; a_DatabaseType := "mysql"; a_Repository := "org/repo";
     a_PullRequest := 7; a_Environment := "production"; a_Deployment := "us"; a_Caller := "cli";
     a_InstallationID := 0;
     a_ExternalID := ""; a_IdempotencyKey := None; a_Engine := "spirit"; a_State := st;
     a_ErrorMessage := ""; a_Options := noOptions; a_Attempt := 0; a_LeaseOwner := "";
     a_LeaseToken := ""; a_LeaseAcquiredAt := None; a_CreatedAt := 10; a_StartedAt := None;
     a_CompletedAt := None; a_UpdatedAt := 1000; a_RevertSkippedAt := None |}.

Definition exampleRequest (operation status : string) : ApplyControlRequest :=
  {| cr_ID := 90; cr_ApplyID := 1; cr_Operation := operation; cr_Status := status;
     cr_RequestedBy := "op"; cr_ErrorMessage := None; cr_Metadata := "{}"; cr_CompletedAt := None;
     cr_CreatedAt := 1000; cr_UpdatedAt := 1000 |}.

Definition exampleStore (a : Apply) (os : list ApplyOperation) (cs : list ApplyControlRequest) : store :=
  {| applies := [a]; operations := os; controls := cs; tasks := [];
     locks := {| lk_rows := ∅; lk_nextID := 1; lk_now := 1000 |}; nextID := 100; now := 1000 |}.

(** ** Properties *)

(** C2: copies start in deployment order.  When a claim starts a pending operation,
    whatever other connections did around its two statements, the row was still
    pending and no stop was pending when the write ran, and when the row was
    chosen every earlier operation of another deployment of the apply was
    completed, or (under barrier) parked at or past the cutover barrier, or
    terminally failed under continue or a released pause; only the parallel
    policy starts without waiting, and an unknown policy waits like rolling; a
    namespace's finalizer starts only after all its shards completed. *)
Theorem copy_starts_in_order (env : nat -> envStep store) (locked : Z -> bool)
    (owner token : string) (s s' : store) (c : ApplyOperation) (n : nat)
    (Hrun : runE env 0 (FindNextApplyOperation locked owner token) s = (s', Ok (Some c), n))
    (Hstarted : op_State c = Apply.Pending) :
  let s0 := interfere (env 0%nat) s in
  let s1 := interfere (env 1%nat) s0 in
  exists ad, ad ∈ operations s0 /\ op_ID ad = op_ID c /\ op_State ad = Apply.Pending /\
    pendingStop s0 (op_ApplyID ad) = false /\ pendingStop s1 (op_ApplyID ad) = false /\
    (exists o, o ∈ operations s1 /\ op_ID o = op_ID c /\ op_State o = Apply.Pending) /\
    (op_OperationKind ad <> ApplyOperationKindGroupFinalizer ->
     forall e, e ∈ operations s0 -> op_ApplyID e = op_ApplyID ad ->
       op_Deployment e <> op_Deployment ad -> opBefore e ad = true -> copyUnblocked s0 ad e) /\
    (op_OperationKind ad = ApplyOperationKindGroupFinalizer ->
     forall e, e ∈ operations s0 -> op_ApplyID e = op_ApplyID ad ->
       op_Deployment e = op_Deployment ad -> op_OperationKind e = ApplyOperationKindWork ->
       namespaceOf (op_OperationKey e) = namespaceOf (op_OperationKey ad) ->
       op_State e = Apply.Completed).
Proof.
  unfold FindNextApplyOperation in Hrun. destruct (owner == ""); [done|].
  apply (claim_run claimableOperation (claimOperation owner token)) in Hrun
    as (ad & Had & Hc & _ & _ & Hw). cbv zeta in *.
  rewrite (claimOperation_state _ _ _ _ _ _ Hw) in Hstarted.
  apply claimable_pending in Hc; [|done]. unfold pendingArm in Hc.
  apply andb_true_iff in Hc as [[_ Hgate]%andb_true_iff Hstop%negb_true_iff].
  destruct (claimOperation_pending _ _ _ _ _ _ Hstarted Hw) as (Hstop1 & -> & Hrow & _).
  exists ad. repeat (split; [done|]). split.
  - intros Hk e He Ha Hd Hb. apply orb_true_iff in Hgate as [Hg|Hg]; reflect_guards; [|done].
    by apply copy_gate.
  - intros Hk e He Ha Hd Hkw Hns. apply orb_true_iff in Hgate as [Hg|Hg]; reflect_guards; [done|].
    match goal with H : existsb (finalizerBlockedBy _) _ = false |- _ => rename H into Hno end.
    destruct (decide (op_State e = Apply.Completed)) as [|Hnc]; [done|]. exfalso.
    apply not_true_iff_false in Hno. apply Hno. apply existsb_elem. exists e. split; [done|].
    unfold finalizerBlockedBy. rewrite Ha, Hd, Hkw, Hns, Z.eqb_refl, !eqb_refl'.
    by rewrite (proj2 (String.eqb_neq _ _) Hnc).
Qed.

Lemma copy_starts_in_order_witness :
  let s := exampleStore (exampleApply Apply.Running)
    [ exampleOp 1 "us" Apply.Completed CutoverPolicyRolling OnFailureHalt;
      exampleOp 2 "eu" Apply.Pending CutoverPolicyRolling OnFailureHalt;
      exampleOp 3 "au" Apply.Pending CutoverPolicyRolling OnFailureHalt ] [] in
  exists ad, ad ∈ operations s /\ op_ID ad = 2.
Proof.
  intros s.
  destruct (copy_starts_in_order (fun _ => quiet) (fun _ => false) "w" "t" s
    (run (FindNextApplyOperation (fun _ => false) "w" "t") s).1
    (claimedOp "w" "t" s (exampleOp 2 "eu" Apply.Pending CutoverPolicyRolling OnFailureHalt)) 2
    eq_refl eq_refl) as (ad & Had & Hid & _).
  by exists ad.
Defined.

(** C3: cutovers start in deployment order.  When a cutover claim starts a parked
    operation, whatever other connections did around its two statements, every
    earlier operation of the apply - the same deployment's included - was completed,
    or terminally failed under continue or a released pause, when the row was chosen;
    the apply is a fan-out under an ordered policy not started with manual
    defer-cutover; no stop was pending when the row was chosen nor when the write ran;
    and the write takes the operation out of the parked state. *)
Theorem cutover_starts_in_order (env : nat -> envStep store) (locked : Z -> bool)
    (owner token : string) (s s' : store) (c : ApplyOperation) (n : nat)
    (Hrun : runE env 0 (FindNextApplyOperationCutover locked owner token) s = (s', Ok (Some c), n))
    (Hstarted : op_State c = Apply.WaitingForCutover) :
  let s0 := interfere (env 0%nat) s in
  let s1 := interfere (env 1%nat) s0 in
  exists ad, ad ∈ operations s0 /\ op_ID ad = op_ID c /\
    IsOrderedCutoverPolicy (op_CutoverPolicy ad) = true /\ hasSibling s0 ad = true /\
    (exists a, a ∈ applies s0 /\ a_ID a = op_ApplyID ad /\ a_DeferCutover a = false) /\
    pendingStop s0 (op_ApplyID ad) = false /\ pendingStop s1 (op_ApplyID ad) = false /\
    (forall e, e ∈ operations s0 -> op_ApplyID e = op_ApplyID ad -> opBefore e ad = true ->
       op_State e = Apply.Completed \/ releasedFailure s0 ad e = true) /\
    (forall o, o ∈ operations s' -> op_ID o = op_ID c ->
       op_State o <> Apply.WaitingForCutover).
Proof.
  unfold FindNextApplyOperationCutover in Hrun. destruct (owner == ""); [done|].
  apply (claim_run claimableCutover (claimCutover owner token)) in Hrun
    as (ad & Had & Hc & _ & _ & Hw). cbv zeta in *.
  assert (Hst : op_State c = op_State ad /\ op_ID c = op_ID ad).
  { unfold claimCutover in Hw. by repeat case_match; simplify_eq. }
  destruct Hst as [Hst Hid]. rewrite Hst in Hstarted. rewrite Hid.
  unfold claimableCutover in Hc. apply andb_true_iff in Hc as [He Hc]. rewrite Hstarted in Hc.
  change (oneOf Apply.WaitingForCutover [Apply.CuttingOver; Apply.RevertWindow]) with false in Hc.
  rewrite andb_false_l, orb_false_r in Hc. unfold cutoverStartArm in Hc.
  apply andb_true_iff in Hc as [[_ Hgate%negb_true_iff]%andb_true_iff Hstop%negb_true_iff].
  unfold cutoverEligible in He. apply andb_true_iff in He as [[Hpol Hsib]%andb_true_iff Hdef].
  unfold claimCutover in Hw. rewrite Hstarted in Hw.
  change (Apply.WaitingForCutover == Apply.WaitingForCutover) with true in Hw.
  destruct (existsb _ _) eqn:Ex in Hw; [|done]. injection Hw as <- _.
  apply existsb_elem in Ex as (o & Ho & Hp).
  apply andb_true_iff in Hp as [[Hoid Hwait]%andb_true_iff Hstop1%negb_true_iff].
  exists ad. split; [done|]. split; [done|]. split.
  { cbn [oneOf existsb] in Hpol. unfold IsOrderedCutoverPolicy. by rewrite orb_false_r in Hpol. }
  split; [done|]. split.
  { apply existsb_elem in Hdef as (a & Ha & H). exists a. reflect_guards. done. }
  split; [done|]. split; [done|]. split.
  - intros e He Ha Hb. by apply cutover_gate.
  - intros o' Ho' Hid'. rewrite operations_updateOps in Ho'.
    apply list_elem_of_fmap in Ho' as (x & -> & Hx). destruct (_ && _) eqn:Ep; [done|].
    intros Hwx. rewrite Hid', Hwx, Hstop1, Z.eqb_refl in Ep. done.
Qed.

Lemma cutover_starts_in_order_witness :
  let s := exampleStore (exampleApply Apply.WaitingForCutover)
    [ exampleOp 1 "us" Apply.Completed CutoverPolicyBarrier OnFailureHalt;
      exampleOp 2 "eu" Apply.WaitingForCutover CutoverPolicyBarrier OnFailureHalt;
      exampleOp 3 "au" Apply.WaitingForCutover CutoverPolicyBarrier OnFailureHalt ] [] in
  exists ad, ad ∈ operations s /\ op_ID ad = 2.
Proof.
  intros s.
  destruct (cutover_starts_in_order (fun _ => quiet) (fun _ => false) "w" "t" s
    (run (FindNextApplyOperationCutover (fun _ => false) "w" "t") s).1
    (claimedOp "w" "t" s (exampleOp 2 "eu" Apply.WaitingForCutover CutoverPolicyBarrier OnFailureHalt)) 2
    eq_refl eq_refl) as (ad & Had & Hid & _).
  by exists ad.
Defined.

(** Leases fence writes.  A lease-guarded write of an operation (a state
    transition, the heartbeat, engine resume state) changes the row exactly when
    the caller's lease is current - the operation's own token, or the parent
    apply's token for that apply's operations - changes no other row, and answers
    lease lost otherwise and not found for a missing row; this holds for both
    RowsAffected semantics, repeated writes included. *)
Theorem operation_writes_fenced (fr : bool) (ctx : leaseCtx) (id : Z) (missingOK : bool)
    (set : store -> ApplyOperation -> ApplyOperation) (s : store) (g : operationWriteGuard)
    (Hg : operationWriteGuardFromContext ctx = Ok g)
    (Hnd : NoDup (op_ID <$> operations s)) (Hid : forall o, op_ID (set s o) = op_ID o) :
  let '(s', r) := run (guardedUpdate fr ctx id missingOK set) s in
  r = guardAnswer s g id missingOK /\
  (forall i, i <> id -> findOperation i s' = findOperation i s) /\
  (forall o, findOperation id s = Some o ->
     findOperation id s' = Some (if guardPredicate s g o then set s o else o) /\
     (r = Ok tt <-> guardPredicate s g o = true)).
Proof.
  rewrite (guardedUpdate_run fr ctx id missingOK set s g Hg Hnd Hid).
  split; [done|]. split.
  - intros i Hi. rewrite findOperation_update by done.
    destruct (findOperation i s) as [o|] eqn:E; [|done]. cbn.
    apply findOperation_Some in E as [_ <-]. by rewrite (proj2 (Z.eqb_neq _ _) Hi).
  - intros o Ho. rewrite findOperation_update by done. rewrite Ho. cbn.
    pose proof (findOperation_Some _ _ _ Ho) as [Hin Hoid]. rewrite Hoid, Z.eqb_refl. split; [done|].
    unfold guardAnswer. rewrite Ho. destruct g as [|lease|lease]; cbn [guardPredicate].
    + done.
    + destruct (op_ApplyID o =? al_ApplyID lease) eqn:E; reflect_guards.
      * rewrite E. cbn [andb]. by destruct (applyTokenIs _ _ _).
      * cbn [andb]. by destruct (applyTokenIs _ _ _).
    + by destruct (_ == _).
Qed.

Lemma operation_writes_fenced_witness :
  let s := exampleStore (exampleApply Apply.Running)
    [ set_op_LeaseToken "t2" (exampleOp 1 "us" Apply.Running CutoverPolicyRolling OnFailureHalt) ] [] in
  let ctx := {| ApplyLeaseFromContext := None; OperationLeaseFromContext :=
      Some {| ol_ApplyID := 1; ol_OperationID := 1; ol_Owner := "w"; ol_Token := "t1" |} |} in
  (run (UpdateState false ctx 1 Apply.Completed) s).2 = Err ErrApplyLeaseLost.
Proof.
  intros s ctx.
  exact (proj1 (operation_writes_fenced false ctx 1 false
    (fun s => touchOp (now s) (set_op_State Apply.Completed)) s
    (operationGuardOperation {| ol_ApplyID := 1; ol_OperationID := 1; ol_Owner := "w"; ol_Token := "t1" |})
    eq_refl (NoDup_singleton _) (fun o => touchOp_keep op_ID _ _ _ (fun _ _ => eq_refl)))).
Defined.

(** Automatic retries are bounded.  Re-claiming a failed_retryable operation of
    a fan-out apply that is itself failed_retryable only happens while the apply
    has retry budget, and consumes exactly one unit of it: the apply's attempt
    count grows by one and stays within the budget of ten. *)
Theorem redispatch_charges_budget (locked : Z -> bool) (owner token : string) (s s' : store)
    (c : ApplyOperation) (a : Apply)
    (Hrun : run (FindNextApplyOperation locked owner token) s = (s', Ok (Some c)))
    (Hretry : op_State c = Apply.FailedRetryable)
    (Hids : NoDup (a_ID <$> applies s)) (Ha : a ∈ applies s) (Hparent : a_ID a = op_ApplyID c)
    (Hstate : a_State a = Apply.FailedRetryable)
    (Hfanout : exists o, o ∈ operations s /\ op_ApplyID o = a_ID a /\ op_ID o <> op_ID c) :
  a_Attempt a < maxRecoveryAttempts /\
  exists a', a' ∈ applies s' /\ a_ID a' = a_ID a /\ a_Attempt a' = a_Attempt a + 1 /\
             a_Attempt a' <= maxRecoveryAttempts.
Proof.
  unfold FindNextApplyOperation in Hrun. destruct (owner == ""); [done|].
  apply run_runE in Hrun as [n E].
  apply (claim_run claimableOperation (claimOperation owner token)) in E
    as (ad & Had & Hc & _ & _ & Hw). cbn [quiet interfere] in *.
  rewrite (claimOperation_state _ _ _ _ _ _ Hw) in Hretry.
  destruct (claimOperation_retry _ _ _ _ _ _ Hretry Hw) as (Hcid & Hcap & Happ).
  rewrite Hcid in Hfanout. rewrite Hcap in Hparent.
  pose proof (claimable_retry s ad a Hretry Hc Hids Ha Hparent Hstate) as Hlt.
  split; [done|]. exists (set_a_UpdatedAt (now s) (set_a_Attempt (a_Attempt a + 1) a)).
  split; [|cbn; repeat split; lia].
  rewrite Happ. apply list_elem_of_fmap. exists a. split; [|done].
  destruct Hfanout as (o & Ho & Hoa & Hne). unfold chargesBudget.
  rewrite Hparent, Hstate, Z.eqb_refl, (proj2 (Z.ltb_lt _ _) Hlt).
  change (Apply.FailedRetryable == Apply.FailedRetryable) with true. cbn [andb].
  assert (existsb (fun o0 => (op_ApplyID o0 =? op_ApplyID ad) && negb (op_ID o0 =? op_ID ad))
    (operations s) = true) as ->; [|done].
  apply existsb_elem. exists o. split; [done|].
  by rewrite Hoa, Hparent, Z.eqb_refl, (proj2 (Z.eqb_neq _ _) Hne).
Qed.

Lemma redispatch_charges_budget_witness :
  let ad := exampleOp 2 "eu" Apply.FailedRetryable CutoverPolicyRolling OnFailureHalt in
  let s := exampleStore (exampleApply Apply.FailedRetryable)
    [ exampleOp 1 "us" Apply.Completed CutoverPolicyRolling OnFailureHalt; ad ] [] in
  a_Attempt (exampleApply Apply.FailedRetryable) < maxRecoveryAttempts.
Proof.
  intros ad s.
  refine (proj1 (redispatch_charges_budget (fun _ => false) "w" "t" s
    (run (FindNextApplyOperation (fun _ => false) "w" "t") s).1
    (claimedOp "w" "t" s (set_op_Attempt 1 ad)) (exampleApply Apply.FailedRetryable)
    eq_refl eq_refl (NoDup_singleton _) _ eq_refl eq_refl _)).
  - by left.
  - eexists. split; [by left|]. by split.
Defined.

Definition noLease : leaseCtx :=
  {| ApplyLeaseFromContext := None; OperationLeaseFromContext := None |}.

(** A stop turns never-started operations into ungated ones.  Stop
    reconciliation moves every pending operation of the apply to stopped without
    starting it; once a start is requested, each of them is claimable at once,
    although it never ran and whatever its cutover policy says about the earlier
    deployments, because the stopped arm of the claim has no ordering gate. *)
Theorem stopped_pending_restarts_ungated (fr : bool) (s s2 : store) (applyID : Z)
    (o : ApplyOperation) (Ho : o ∈ operations s) (Ha : op_ApplyID o = applyID)
    (Hpending : op_State o = Apply.Pending)
    (Hops : operations s2 = operations (run (MarkPendingStoppedByApply fr noLease applyID) s).1)
    (Hstart : pendingStart s2 applyID = true) :
  exists o', o' ∈ operations s2 /\ op_ID o' = op_ID o /\ op_State o' = Apply.Stopped /\
    op_StartedAt o' = op_StartedAt o /\ claimableOperation s2 o' = true.
Proof.
  exists (set_op_UpdatedAt (now s) (set_op_State Apply.Stopped o)). split; [|split; [done|split; [done|split; [done|]]]].
  - rewrite Hops. unfold MarkPendingStoppedByApply. cbn [noLease OperationLeaseFromContext].
    unfold applyLeaseFromContext. cbn [noLease ApplyLeaseFromContext]. rewrite run_Exec, run_Ret.
    unfold stopPending. cbn [fst]. rewrite operations_updateOps. apply list_elem_of_fmap.
    exists o. split; [|done]. by rewrite Ha, Hpending, Z.eqb_refl.
  - unfold claimableOperation. apply orb_true_iff. left. apply orb_true_iff. left.
    apply orb_true_iff. right. unfold stoppedArm. cbn. by rewrite Ha, Hstart.
Qed.

Lemma stopped_pending_restarts_ungated_witness :
  let us := exampleOp 1 "us" Apply.Stopped CutoverPolicyRolling OnFailureHalt in
  let eu := exampleOp 2 "eu" Apply.Pending CutoverPolicyRolling OnFailureHalt in
  let s := exampleStore (exampleApply Apply.Running) [us; eu] [] in
  let s1 := (run (MarkPendingStoppedByApply true noLease 1) s).1 in
  let s2 := set_controls [exampleRequest ControlOperationStart ControlRequestPending] s1 in
  exists o', o' ∈ operations s2 /\ op_ID o' = 2 /\ op_State o' = Apply.Stopped /\
    op_StartedAt o' = None /\ claimableOperation s2 o' = true.
Proof.
  intros us eu s s1 s2. apply (stopped_pending_restarts_ungated true s s2 1 eu).
  - right. by left.
  - reflexivity.
  - reflexivity.
  - reflexivity.
  - reflexivity.
Defined.

(** Engine resume state round trip.  What a driver whose lease covers the
    operation saves is what is read back for it, with an empty metadata stored as
    the empty JSON object, and nothing else of the operation's lifecycle changes. *)
Theorem resume_state_roundtrip (fr : bool) (ctx : leaseCtx) (g : operationWriteGuard) (s : store)
    (o : ApplyOperation) (rs : EngineResumeState)
    (Hg : operationWriteGuardFromContext ctx = Ok g) (Hnd : NoDup (op_ID <$> operations s))
    (Ho : o ∈ operations s) (Hlease : guardPredicate s g o = true)
    (Howner : rs_ApplyOperationID rs = op_ID o) :
  let '(s', r) := run (SaveEngineResumeState fr ctx (op_ID o) (Some rs)) s in
  r = Ok tt /\
  (run (GetEngineResumeState (op_ID o)) s').2 =
    Ok {| rs_ApplyOperationID := op_ID o; MigrationContext := MigrationContext rs;
          Metadata := if Metadata rs == "" then "{}" else Metadata rs |} /\
  (forall o', findOperation (op_ID o) s' = Some o' ->
     op_State o' = op_State o /\ op_LeaseToken o' = op_LeaseToken o).
Proof.
  unfold SaveEngineResumeState. rewrite Howner, Z.eqb_refl, andb_false_r.
  unfold execStateUpdate. set (m := if Metadata rs == "" then "{}" else Metadata rs).
  set (f := fun x => set_op_EngineResumeContext
    (if MigrationContext rs == "" then None else Some (MigrationContext rs))
    (set_op_EngineResumeMetadata (Some m) x)).
  assert (Hkeep : forall x, op_ID (touchOp (now s) f x) = op_ID x)
    by (intros x; by rewrite touchOp_keep).
  change (guardedUpdate fr ctx (op_ID o) false _)
    with (guardedUpdate fr ctx (op_ID o) false (fun s => touchOp (now s) f)).
  rewrite (guardedUpdate_run fr ctx (op_ID o) false (fun s => touchOp (now s) f) s g Hg Hnd Hkeep).
  assert (Hf : findOperation (op_ID o) s = Some o) by (unfold findOperation; by apply find_row).
  rewrite (guard_hit s g (op_ID o) false o) by done. split; [done|].
  assert (Hf' : findOperation (op_ID o) (updateOps (fun x => (op_ID x =? op_ID o) && guardPredicate s g x)
    (touchOp (now s) f) s) = Some (touchOp (now s) f o)).
  { rewrite findOperation_update by done. rewrite Hf. cbn. by rewrite Z.eqb_refl, Hlease. }
  unfold GetEngineResumeState. rewrite run_Exec, run_Ret. cbn [read fst snd]. rewrite Hf'. split.
  - rewrite !touchOp_keep by done. unfold f. cbn.
    assert ((m == "") = false) as ->.
    { unfold m. destruct (Metadata rs == "") eqn:E; [done|]. exact E. }
    by destruct (MigrationContext rs == "") eqn:E; reflect_guards; [rewrite E|].
  - intros o' [= <-]. by rewrite !touchOp_keep.
Qed.

Lemma resume_state_roundtrip_witness :
  let o := exampleOp 1 "us" Apply.Running CutoverPolicyRolling OnFailureHalt in
  let s := exampleStore (exampleApply Apply.Running) [o] [] in
  let rs := {| rs_ApplyOperationID := 1; MigrationContext := "ctx"; Metadata := "" |} in
  (run (GetEngineResumeState 1) (run (SaveEngineResumeState true noLease 1 (Some rs)) s).1).2 =
    Ok {| rs_ApplyOperationID := 1; MigrationContext := "ctx"; Metadata := "{}" |}.
Proof.
  intros o s rs.
  refine (proj1 (proj2 (resume_state_roundtrip true noLease operationGuardNone s o rs
    eq_refl (NoDup_singleton _) _ eq_refl eq_refl))).
  by left.
Defined.
