(* ===== verification/Applies.v ===== *)
(** * The apply store (mysqlstore/applies.go)

    Creation, update, claiming, expiry and reapplication of applies, and the
    invariant they keep: one active apply per physical target.  Creations, updates
    into an active state, claims of stopped applies and reapplications run under
    the target lock (GET_LOCK on the database, type and environment) with the rows
    they change locked, so each is one atomic function on the store; a returned
    error rolls the transaction back.  [ci] is the collation of table locks. *)

From S2P Require Import Prelude State Sql Locks Store Operations.

Local Open Scope string_scope.
Local Open Scope Z_scope.

(** ** Targets *)

Definition isActiveApplyState (applyState : string) : bool := negb (IsTerminalApplyState applyState).

Definition hasApplyTarget (database dbType environment : string) : bool :=
  (database != "") && (dbType != "") && (environment != "").

(** [slices.Sort] of the distinct deployments. *)
Definition stringLe (a b : string) : Prop := String.leb a b = true.
#[global] Instance stringLe_dec a b : Decision (stringLe a b).
Proof. unfold stringLe. apply _. Defined.

Fixpoint dedupeLoop (seen : list string) (deployments : list string) : list string :=
  match deployments with
  | [] => []
  | d :: rest => if oneOf d seen then dedupeLoop seen rest else d :: dedupeLoop (d :: seen) rest
  end.

Definition dedupeDeployments (deployments : list string) : list string :=
  merge_sort stringLe (dedupeLoop [] deployments).

Definition operationDeploymentsForApply (s : store) (applyID : Z) : list string :=
  op_Deployment <$> filter (fun o => op_ApplyID o = applyID) (operations s).

(** The row of another apply that owns one of the deployments. *)
Definition conflicts (s : store) (database dbType environment : string) (deployments : list string)
    (excludeApplyID : Z) (a : Apply) : bool :=
  (a_Database a == database) && (a_DatabaseType a == dbType) && (a_Environment a == environment) &&
  negb (oneOf (a_State a) terminalApplyStates) &&
  (oneOf (a_Deployment a) deployments ||
   existsb (fun o => (op_ApplyID o =? a_ID a) && oneOf (op_Deployment o) deployments) (operations s)) &&
  (negb (0 <? excludeApplyID) || negb (a_ID a =? excludeApplyID)).

Definition checkNoActiveApplyForTargets (s : store) (database dbType environment : string)
    (deployments : list string) (excludeApplyID : Z) : res unit :=
  let deployments := dedupeDeployments deployments in
  if (length deployments =? 0)%nat
  then Err (Errorf "active apply target requires at least one deployment") else
  if existsb (conflicts s database dbType environment deployments excludeApplyID) (applies s)
  then Err ErrActiveApplyExists else Ok tt.

(** The target of an update: the caller's, or the stored row's when incomplete. *)
Definition applyTargetForUpdate (s : store) (apply : Apply) : string * string * string * string :=
  if hasApplyTarget (a_Database apply) (a_DatabaseType apply) (a_Environment apply) &&
     (a_Deployment apply != "")
  then (a_Database apply, a_DatabaseType apply, a_Environment apply, a_Deployment apply)
  else match findApply (a_ID apply) s with
       | Some a => (a_Database a, a_DatabaseType a, a_Environment a, a_Deployment a)
       | None => ("", "", "", "")
       end.

(** ** Creation *)

(** The caller's apply with the lock intent it expects. *)
Record ApplyInput := {
  in_apply : Apply;
  ExpectedLockOwner : string;
  ExpectedPendingPlanID : string;
}.

Section Create.
Context (ci : string -> string).

(** [Ok] carries the apply's lock id. *)
Definition verifyExpectedLockIntent (s : store) (i : ApplyInput) : res Z :=
  let apply := in_apply i in
  if ExpectedLockOwner i == "" then
    if ExpectedPendingPlanID i != ""
    then Err (Errorf "expected pending plan ID set without an expected lock owner")
    else Ok (a_LockID apply)
  else
    match lk_rows (locks s) !! lockKey ci (a_Database apply) (a_DatabaseType apply) with
    | Some row =>
        if ownerIs ci (ExpectedLockOwner i) row && planIs ci (ExpectedPendingPlanID i) row
        then Ok (l_ID row) else Err ErrLockIntentChanged
    | None => Err ErrLockIntentChanged
    end.

Definition insertApply (apply : Apply) (lockID : Z) (s : store) : store * res Z :=
  let row :=
    {| a_ID := nextID s; a_ApplyIdentifier := a_ApplyIdentifier apply; a_LockID := lockID;
       a_PlanID := a_PlanID apply; a_Database := a_Database apply;
       a_DatabaseType := a_DatabaseType apply; a_Repository := a_Repository apply;
       a_PullRequest := a_PullRequest apply; a_Environment := a_Environment apply;
       a_Deployment := a_Deployment apply; a_Caller := a_Caller apply;
       a_InstallationID := a_InstallationID apply;
       a_ExternalID := a_ExternalID apply; a_IdempotencyKey := nullString (default "" (a_IdempotencyKey apply));
       a_Engine := a_Engine apply; a_State := a_State apply;
       a_ErrorMessage := a_ErrorMessage apply; a_Options := a_Options apply;
       a_Attempt := a_Attempt apply; a_LeaseOwner := ""; a_LeaseToken := "";
       a_LeaseAcquiredAt := None; a_CreatedAt := now s; a_StartedAt := None;
       a_CompletedAt := None; a_UpdatedAt := now s; a_RevertSkippedAt := None |} in
  if existsb (fun a => (a_ApplyIdentifier a == a_ApplyIdentifier row) ||
               match a_IdempotencyKey a, a_IdempotencyKey row with
               | Some k, Some k' => k == k' | _, _ => false end) (applies s)
  then (s, Err (ErrApplyIDExists))
  else ({| applies := applies s ++ [row]; operations := operations s; controls := controls s;
           tasks := tasks s; locks := locks s; nextID := nextID s + 1; now := now s |},
        Ok (nextID s)).

(** [writeRows] inserts the apply's children; an error rolls everything back. *)
Definition createWithRows (i : ApplyInput) (newDeployments : list string)
    (writeRows : Z -> store -> store * res unit) (s : store) : store * res Z :=
  let apply := in_apply i in
  let lockTarget := isActiveApplyState (a_State apply) in
  if lockTarget && negb (hasApplyTarget (a_Database apply) (a_DatabaseType apply) (a_Environment apply))
  then (s, Err (Errorf "active apply target is required")) else
  match verifyExpectedLockIntent s i with
  | Err e => (s, Err e)
  | Ok lockID =>
      match (if lockTarget
             then checkNoActiveApplyForTargets s (a_Database apply) (a_DatabaseType apply)
                    (a_Environment apply) newDeployments 0
             else Ok tt) with
      | Err e => (s, Err e)
      | Ok _ =>
          match insertApply apply lockID s with
          | (_, Err e) => (s, Err e)
          | (s1, Ok id) =>
              match writeRows id s1 with
              | (_, Err e) => (s, Err e)
              | (s2, Ok _) => (s2, Ok id)
              end
          end
      end
  end.

Definition Create (i : ApplyInput) (s : store) : store * res Z :=
  createWithRows i [a_Deployment (in_apply i)] (fun _ s => (s, Ok tt)) s.

Definition setOpApply (applyID : Z) (o : ApplyOperation) : ApplyOperation :=
  {| op_ID := op_ID o; op_ApplyID := applyID; op_Deployment := op_Deployment o;
     op_OperationKey := op_OperationKey o; op_OperationKind := op_OperationKind o; op_Target := op_Target o;
     op_ExternalID := op_ExternalID o; op_ExternalOperationID := op_ExternalOperationID o;
     op_EngineResumeContext := op_EngineResumeContext o;
     op_EngineResumeMetadata := op_EngineResumeMetadata o; op_State := op_State o;
     op_ErrorMessage := op_ErrorMessage o; op_CutoverPolicy := op_CutoverPolicy o;
     op_OnFailure := op_OnFailure o; op_Attempt := op_Attempt o; op_LeaseOwner := op_LeaseOwner o;
     op_LeaseToken := op_LeaseToken o; op_LeaseAcquiredAt := op_LeaseAcquiredAt o;
     op_StartedAt := op_StartedAt o; op_CompletedAt := op_CompletedAt o;
     op_CreatedAt := op_CreatedAt o; op_UpdatedAt := op_UpdatedAt o |}.

(** Inserts the operations in order and returns their identifiers. *)
Fixpoint insertOperations (applyID : Z) (ops : list ApplyOperation) (s : store)
    : store * res (list Z) :=
  match ops with
  | [] => (s, Ok [])
  | op :: rest =>
      match insertApplyOperation (setOpApply applyID op) s with
      | (_, Err e) => (s, Err e)
      | (s1, Ok row) =>
          match insertOperations applyID rest s1 with
          | (s2, Ok ids) => (s2, Ok (op_ID row :: ids))
          | (s2, Err e) => (s2, Err e)
          end
      end
  end.

(** The VALUES of an inserted task: absent options are the empty object. *)
Definition taskRow (id applyID : Z) (opID : option Z) (t : TaskRec) : TaskRec :=
  set_tk_ID id (set_tk_ApplyID applyID (set_tk_ApplyOperationID opID
    (set_tk_ErrorMessage (nullString (default "" (tk_ErrorMessage t)))
    (set_tk_Options (nullJSON (tk_Options t)) t)))).

(** [insertTask]; task identifiers are unique. *)
Definition insertTask (applyID : Z) (opID : option Z) (t : TaskRec) (s : store) : store * res unit :=
  if existsb (fun t' => tk_TaskIdentifier t' == tk_TaskIdentifier t) (tasks s)
  then (s, Err (SqlErr mysqlErrDuplicateKey))
  else ({| applies := applies s; operations := operations s; controls := controls s;
           tasks := tasks s ++ [taskRow (nextID s) applyID opID t];
           locks := locks s; nextID := nextID s + 1; now := now s |}, Ok tt).

Fixpoint insertTasks (applyID : Z) (ts : list (TaskRec * option Z)) (s : store) : store * res unit :=
  match ts with
  | [] => (s, Ok tt)
  | (t, opID) :: rest =>
      match insertTask applyID opID t s with
      | (s1, Ok _) => insertTasks applyID rest s1
      | (s1, Err e) => (s1, Err e)
      end
  end.

(** The operation each task is linked to, by the number of operations. *)
Definition linkTask (opIDs : list Z) (t : TaskRec) : res (option Z) :=
  match opIDs with
  | [] => match tk_ApplyOperationID t with
          | None => Ok None
          | Some _ => Err (Errorf "apply has no operations")
          end
  | [id] => match tk_ApplyOperationID t with
            | None => Ok (Some id)
            | Some k => if k =? id then Ok (Some k)
                        else Err (Errorf "does not match any inserted operation")
            end
  | _ => match tk_ApplyOperationID t with
         | None => Err (Errorf "missing apply_operation_id")
         | Some k => if existsb (Z.eqb k) opIDs then Ok (Some k)
                     else Err (Errorf "does not match any inserted operation")
         end
  end.

Fixpoint linkTasks (opIDs : list Z) (ts : list TaskRec) : res (list (TaskRec * option Z)) :=
  match ts with
  | [] => Ok []
  | t :: rest =>
      let? k := linkTask opIDs t in
      let? ks := linkTasks opIDs rest in
      Ok ((t, k) :: ks)
  end.

Definition insertApplyTasksAndOperations (ts : list TaskRec) (ops : list ApplyOperation)
    (applyID : Z) (s : store) : store * res unit :=
  match insertOperations applyID ops s with
  | (s1, Err e) => (s1, Err e)
  | (s1, Ok opIDs) =>
      match linkTasks opIDs ts with
      | Err e => (s1, Err e)
      | Ok linked => insertTasks applyID linked s1
      end
  end.

Definition CreateWithTasksAndOperations (i : ApplyInput) (ts : list TaskRec)
    (ops : list ApplyOperation) (s : store) : store * res Z :=
  createWithRows i (a_Deployment (in_apply i) :: (op_Deployment <$> ops))
    (insertApplyTasksAndOperations ts ops) s.

Definition CreateWithTasks (i : ApplyInput) (ts : list TaskRec) (s : store) : store * res Z :=
  CreateWithTasksAndOperations i ts [] s.

(** [storage.ApplyOperationWithTasks]; a nil pointer is [None]. *)
Record OpGroup := { g_Operation : option ApplyOperation; g_Tasks : list (option TaskRec);
                    AllowTaskless : bool }.

Fixpoint insertGroupTasks (applyID opID : Z) (ts : list (option TaskRec)) (s : store)
    : store * res unit :=
  match ts with
  | [] => (s, Ok tt)
  | None :: _ => (s, Err (Errorf "grouped operation has a nil task"))
  | Some t :: rest =>
      match insertTask applyID (Some opID) t s with
      | (s1, Ok _) => insertGroupTasks applyID opID rest s1
      | (s1, Err e) => (s1, Err e)
      end
  end.

Fixpoint insertGroups (applyID : Z) (groups : list (option OpGroup)) (s : store) : store * res unit :=
  match groups with
  | [] => (s, Ok tt)
  | None :: _ => (s, Err (Errorf "grouped operation is nil"))
  | Some g :: rest =>
      match g_Operation g with
      | None => (s, Err (Errorf "grouped operation is missing its operation row"))
      | Some op =>
          if (length (g_Tasks g) =? 0)%nat &&
             (op_OperationKind op != ApplyOperationKindGroupFinalizer) && negb (AllowTaskless g)
          then (s, Err (Errorf "grouped work operation has no tasks")) else
          match insertApplyOperation (setOpApply applyID op) s with
          | (s1, Err e) => (s1, Err e)
          | (s1, Ok row) =>
              match insertGroupTasks applyID (op_ID row) (g_Tasks g) s1 with
              | (s2, Err e) => (s2, Err e)
              | (s2, Ok _) => insertGroups applyID rest s2
              end
          end
      end
  end.

Definition insertApplyGroupedOperations (groups : list (option OpGroup)) (applyID : Z) (s : store)
    : store * res unit :=
  if (length groups =? 0)%nat then (s, Err (Errorf "grouped operations are empty"))
  else insertGroups applyID groups s.

Definition groupDeployments (groups : list (option OpGroup)) : list string :=
  omap (fun g => match g with
                 | Some g => op_Deployment <$> g_Operation g
                 | None => None end) groups.

Definition CreateWithGroupedOperations (i : ApplyInput) (groups : list (option OpGroup)) (s : store)
    : store * res Z :=
  createWithRows i (a_Deployment (in_apply i) :: groupDeployments groups)
    (insertApplyGroupedOperations groups) s.
End Create.

(** ** Update *)

Definition operationLeaseOnly (ctx : leaseCtx) : bool :=
  match OperationLeaseFromContext ctx, ApplyLeaseFromContext ctx with
  | Some _, None => true
  | _, _ => false
  end.

(** [hasOptions] is [len(apply.Options) > 0]. *)
Definition Update (ctx : leaseCtx) (hasOptions : bool) (apply : Apply) (s : store)
    : store * res unit :=
  if operationLeaseOnly ctx then (s, Err ErrApplyLeaseLost) else
  match applyLeaseFromContext ctx (a_ID apply) with
  | Err e => (s, Err e)
  | Ok lease =>
      let lockTarget := isActiveApplyState (a_State apply) in
      let '(database, dbType, environment, deployment) :=
        if lockTarget then applyTargetForUpdate s apply
        else (a_Database apply, a_DatabaseType apply, a_Environment apply, a_Deployment apply) in
      let shouldLockTarget := lockTarget && hasApplyTarget database dbType environment in
      match (if shouldLockTarget
             then checkNoActiveApplyForTargets s database dbType environment
                    (operationDeploymentsForApply s (a_ID apply) ++ [deployment]) (a_ID apply)
             else Ok tt) with
      | Err e => (s, Err e)
      | Ok _ =>
          let p a := (a_ID a =? a_ID apply) &&
                     match lease with Some l => a_LeaseToken a == al_Token l | None => true end in
          let f a := set_a_State (a_State apply) (set_a_ErrorMessage (a_ErrorMessage apply)
                       (set_a_Attempt (a_Attempt apply) (set_a_ExternalID (a_ExternalID apply)
                       (set_a_Options (if hasOptions then a_Options apply else a_Options a)
                       (set_a_StartedAt (a_StartedAt apply)
                       (set_a_CompletedAt (a_CompletedAt apply) (set_a_UpdatedAt (now s) a))))))) in
          match lease with
          | Some l =>
              if negb (existsb p (applies s)) && negb (applyTokenIs s (al_ApplyID l) (al_Token l))
              then (s, Err ErrApplyLeaseLost) else (updateApplies p f s, Ok tt)
          | None => (updateApplies p f s, Ok tt)
          end
      end
  end.

(** ** The projection's compare-and-swap *)

Inductive derivedStateGuard :=
| derivedUnguarded
| derivedApplyLease (l : ApplyLease)
| derivedOperationLease (l : OperationLease) (applyID : Z).

Definition derivedStateGuardForContext (ctx : leaseCtx) (applyID : Z) : res derivedStateGuard :=
  match OperationLeaseFromContext ctx with
  | Some l =>
      if negb (OperationLease_Valid l) then Err ErrApplyLeaseLost
      else if negb (ol_ApplyID l =? applyID) then Err ErrApplyLeaseLost
      else Ok (derivedOperationLease l applyID)
  | None =>
      match applyLeaseFromContext ctx applyID with
      | Err e => Err e
      | Ok (Some l) => Ok (derivedApplyLease l)
      | Ok None => Ok derivedUnguarded
      end
  end.

Definition ensureOperationLeaseOwnsApply (l : OperationLease) (applyID : Z) (s : store) : bool :=
  existsb (fun o => (op_ID o =? ol_OperationID l) && (op_ApplyID o =? applyID) &&
                    (op_LeaseToken o == ol_Token l)) (operations s).

Definition derivedGuardHolds (s : store) (g : derivedStateGuard) (a : Apply) : bool :=
  match g with
  | derivedUnguarded => true
  | derivedApplyLease l => a_LeaseToken a == al_Token l
  | derivedOperationLease l applyID => ensureOperationLeaseOwnsApply l applyID s
  end.

Definition ensureStillOwned (g : derivedStateGuard) (s : store) : bool :=
  match g with
  | derivedUnguarded => true
  | derivedApplyLease l => applyTokenIs s (al_ApplyID l) (al_Token l)
  | derivedOperationLease l applyID => ensureOperationLeaseOwnsApply l applyID s
  end.

Definition UpdateDerivedState (foundRows : bool) (ctx : leaseCtx) (applyID : Z)
    (expectedState newState errorMessage : string) (startedAt completedAt : option Z)
    : prog store (res bool) :=
  match derivedStateGuardForContext ctx applyID with
  | Err e => Ret (Err e)
  | Ok g =>
      Exec (fun s =>
        let p a := (a_ID a =? applyID) && (a_State a == expectedState) && derivedGuardHolds s g a in
        let f a := set_a_State newState (set_a_ErrorMessage errorMessage
                     (set_a_StartedAt (COALESCE (a_StartedAt a) startedAt)
                     (set_a_CompletedAt completedAt (set_a_UpdatedAt (now s) a)))) in
        (updateApplies p f s, Ok (affected foundRows p f (applies s))))
      (fun r => match r with
       | Err e => Ret (Err e)
       | Ok rows =>
           if 0 <? rows then Ret (Ok true) else
           Exec (read (ensureStillOwned g)) (fun r => match r with
             | Err e => Ret (Err e)
             | Ok false => Ret (Err ErrApplyLeaseLost)
             | Ok true =>
                 if negb (IsState newState [expectedState]) then Ret (Ok false) else
                 Exec (read (findApply applyID)) (fun r => Ret match r with
                   | Err e => Err e
                   | Ok None => Ok false
                   | Ok (Some a) => Ok (IsState (a_State a) [expectedState])
                   end)
             end)
       end)
  end.

(** ** Claims *)

Definition hasTasks (s : store) (applyID : Z) : bool :=
  existsb (fun t => tk_ApplyID t =? applyID) (tasks s).
Definition hasOperations (s : store) (applyID : Z) : bool :=
  existsb (fun o => op_ApplyID o =? applyID) (operations s).

(** [a.updated_at >= NOW() - INTERVAL 1 DAY] *)
Definition isFresh (s : store) (t : Z) : bool := now s - retryableRecoveryFreshnessDays * day <=? t.

(** The WHERE clause of FindNextApply and ClaimApplyByID, arm by arm. *)
Definition claimableApply (s : store) (a : Apply) : bool :=
  ((a_State a == Apply.Pending) && (hasTasks s (a_ID a) || hasOperations s (a_ID a))) ||
  (oneOf (a_State a) claimableApplyStates && isStale s (a_UpdatedAt a)) ||
  ((a_State a == Apply.FailedRetryable) && (a_Attempt a <? maxRecoveryAttempts) &&
   isFresh s (a_UpdatedAt a)) ||
  ((a_State a == Apply.Pending) && pendingStart s (a_ID a)) ||
  ((a_State a == Apply.Stopped) && pendingStart s (a_ID a)) ||
  ((a_State a == Apply.WaitingForDeploy) &&
   existsb (fun cr =>
     (cr_ApplyID cr =? a_ID a) && (cr_Operation cr == ControlOperationStart) &&
     (cr_Status cr == ControlRequestPending) &&
     (match a_LeaseAcquiredAt a with
      | None => true
      | Some t => t <? cr_UpdatedAt cr
      end || isStale s (a_UpdatedAt a))) (controls s)).

(** The WHERE clause of FindNextApplyForStopReconciliation. *)
Definition stopReconcilable (s : store) (a : Apply) : bool :=
  oneOf (a_State a) (Apply.Pending :: Apply.Paused :: claimableApplyStates) &&
  pendingStop s (a_ID a) &&
  existsb (fun o => (op_ApplyID o =? a_ID a) && (op_State o == Apply.Pending)) (operations s) &&
  negb (existsb (fun o => (op_ApplyID o =? a_ID a) && oneOf (op_State o) claimableApplyStates)
          (operations s)).

(** [ORDER BY a.created_at LIMIT 1]; a tie goes to the row stored first. *)
Fixpoint firstApply (l : list Apply) : option Apply :=
  match l with
  | [] => None
  | a :: l' =>
      match firstApply l' with
      | None => Some a
      | Some m => Some (if a_CreatedAt m <? a_CreatedAt a then m else a)
      end
  end.

Inductive claimOutcome :=
| claimLostRace | claimAcquired | claimAcquiredCommitted | claimRefusedActiveTarget.

Definition claimedAndComplete (o : claimOutcome) : bool :=
  match o with claimAcquiredCommitted => true | _ => false end.

Definition isStartingClaim (applyState : string) : bool :=
  IsState applyState [Apply.Pending; Apply.Stopped; Apply.FailedRetryable].

Definition leaseApply (owner token : string) (s : store) (a : Apply) : Apply :=
  set_a_LeaseOwner owner (set_a_LeaseToken token (set_a_LeaseAcquiredAt (Some (now s)) a)).

(** The SET clause of the guarded transition of a row claimed in state [from]. *)
Definition transitionSet (from targetState owner token : string) (s : store) (a : Apply) : Apply :=
  set_a_State targetState (set_a_UpdatedAt (now s) (leaseApply owner token s
    (set_a_Attempt (if from == Apply.FailedRetryable then a_Attempt a + 1 else a_Attempt a)
    (set_a_CompletedAt None
    (set_a_ErrorMessage (if from == Apply.FailedRetryable then "" else a_ErrorMessage a) a))))).

(** Whether the transition won, with the apply as the driver then has it. *)
Definition transitionClaimToState (apply : Apply) (targetState owner token : string) (s : store)
    : store * option Apply :=
  let p a := (a_ID a =? a_ID apply) && (a_State a == a_State apply) in
  if existsb p (applies s) then
    (updateApplies p (transitionSet (a_State apply) targetState owner token s) s,
     Some (if IsState (a_State apply) [Apply.FailedRetryable]
           then set_a_Attempt (a_Attempt apply + 1) (set_a_ErrorMessage "" apply) else apply))
  else (s, None).

Definition failPendingStartControlRequestTx (applyID : Z) (reason : string) (s : store) : store :=
  updateControls (fun cr => (cr_ApplyID cr =? applyID) && (cr_Operation cr == ControlOperationStart) &&
                            (cr_Status cr == ControlRequestPending))
    (fun cr => set_cr_Status ControlRequestFailed (set_cr_ErrorMessage (Some reason)
       (set_cr_CompletedAt (COALESCE (cr_CompletedAt cr) (Some (now s)))
       (set_cr_UpdatedAt (now s) cr)))) s.

Definition refuseStoppedClaimForActiveTarget (apply : Apply) (database dbType environment : string)
    (s : store) : store * res (claimOutcome * Apply) :=
  let reason := ("start refused: another active apply exists for " ++ database ++ "/" ++ dbType ++
                 "/" ++ environment)%string in
  (failPendingStartControlRequestTx (a_ID apply) reason s, Ok (claimRefusedActiveTarget, apply)).

Definition claimStoppedApplyUnderTargetLock (apply : Apply) (owner token : string) (s : store)
    : store * res (claimOutcome * Apply) :=
  let '(database, dbType, environment, deployment) := applyTargetForUpdate s apply in
  if negb (hasApplyTarget database dbType environment)
  then (s, Err (Errorf "stopped apply is missing target metadata for claim re-check")) else
  match checkNoActiveApplyForTargets s database dbType environment
          (operationDeploymentsForApply s (a_ID apply) ++ [deployment]) (a_ID apply) with
  | Err ErrActiveApplyExists =>
      refuseStoppedClaimForActiveTarget apply database dbType environment s
  | Err e => (s, Err e)
  | Ok _ =>
      match transitionClaimToState apply Apply.Resuming owner token s with
      | (s', Some apply') => (s', Ok (claimAcquiredCommitted, apply'))
      | (s', None) => (s', Ok (claimLostRace, apply))
      end
  end.

Definition persistApplyClaim (apply : Apply) (owner token : string) (s : store)
    : store * res (claimOutcome * Apply) :=
  let apply := leaseApply owner token s apply in
  if IsState (a_State apply) [Apply.Stopped]
  then claimStoppedApplyUnderTargetLock apply owner token s
  else if isStartingClaim (a_State apply) then
    match transitionClaimToState apply Apply.Running owner token s with
    | (s', Some apply') => (s', Ok (claimAcquired, apply'))
    | (s', None) => (s', Ok (claimLostRace, apply))
    end
  else (updateApplies (fun a => a_ID a =? a_ID apply)
          (fun a => set_a_UpdatedAt (now s) (leaseApply owner token s a)) s,
        Ok (claimAcquired, apply)).

(** The tail the three claims share; a transaction that is not committed has no
    effect. *)
Definition finishClaim (acceptCommitted : bool) (s : store)
    (r : store * res (claimOutcome * Apply)) : store * res (option Apply) :=
  match r with
  | (_, Err e) => (s, Err e)
  | (s', Ok (outcome, apply)) =>
      if claimedAndComplete outcome then (s', Ok (if acceptCommitted then Some apply else None)) else
      match outcome with
      | claimAcquired => (s', Ok (Some apply))
      | claimRefusedActiveTarget => (s', Ok None)
      | _ => (s, Ok None)
      end
  end.

Definition FindNextApply (locked : Z -> bool) (owner token : string) (s : store)
    : store * res (option Apply) :=
  if owner == "" then (s, Err ErrApplyLeaseLost) else
  match firstApply (filter (fun a => claimableApply s a && negb (locked (a_ID a))) (applies s)) with
  | None => (s, Ok None)
  | Some apply => finishClaim true s (persistApplyClaim apply owner token s)
  end.

Definition ClaimApplyByID (locked : Z -> bool) (applyID : Z) (owner token : string) (s : store)
    : store * res (option Apply) :=
  if owner == "" then (s, Err ErrApplyLeaseLost) else
  match find (fun a => (a_ID a =? applyID) && claimableApply s a && negb (locked (a_ID a)))
          (applies s) with
  | None => (s, Ok None)
  | Some apply => finishClaim true s (persistApplyClaim apply owner token s)
  end.

Definition FindNextApplyForStopReconciliation (locked : Z -> bool) (owner token : string) (s : store)
    : store * res (option Apply) :=
  if owner == "" then (s, Err ErrApplyLeaseLost) else
  match firstApply (filter (fun a => stopReconcilable s a && negb (locked (a_ID a))) (applies s)) with
  | None => (s, Ok None)
  | Some apply => finishClaim false s (persistApplyClaim apply owner token s)
  end.

(** ** Heartbeat, expiry and reapplication *)

Definition Heartbeat (foundRows : bool) (ctx : leaseCtx) (applyID : Z) : prog store (res unit) :=
  if operationLeaseOnly ctx then Ret (Err ErrApplyLeaseLost) else
  match applyLeaseFromContext ctx applyID with
  | Err e => Ret (Err e)
  | Ok lease =>
      Exec (fun s =>
        let p a := (a_ID a =? applyID) &&
                   match lease with Some l => a_LeaseToken a == al_Token l | None => true end in
        let f := set_a_UpdatedAt (now s) in
        (updateApplies p f s, Ok (affected foundRows p f (applies s))))
      (fun r => match r with
       | Err e => Ret (Err e)
       | Ok rows =>
           match lease with
           | None => Ret (Ok tt)
           | Some l => pbind (confirmLeaseOnZeroRows rows l)
                         (fun r => Ret (match r with Ok _ => Ok tt | Err e => Err e end))
           end
       end)
  end.

Definition CheckLease (lease : ApplyLease) (s : store) : res unit :=
  if negb (ApplyLease_Valid lease) then Err ErrApplyLeaseLost
  else if applyTokenIs s (al_ApplyID lease) (al_Token lease) then Ok tt else Err ErrApplyLeaseLost.

Inductive RetryableExpirationReason :=
| RetryableExpirationAttemptBudget | RetryableExpirationRecoveryWindow.

Definition retryableExpirationReason (a : Apply) : RetryableExpirationReason :=
  if maxRecoveryAttempts <=? a_Attempt a then RetryableExpirationAttemptBudget
  else RetryableExpirationRecoveryWindow.

(** The rows ExpireRetryable selects. *)
Definition expirable (s : store) (a : Apply) : bool :=
  (a_State a == Apply.FailedRetryable) &&
  ((maxRecoveryAttempts <=? a_Attempt a) ||
   (a_UpdatedAt a <? now s - retryableRecoveryFreshnessDays * day)).

Definition ExpireRetryable (s : store)
    : store * res (list (Apply * RetryableExpirationReason)) :=
  let expired := filter (fun a => expirable s a) (applies s) in
  let expiring id := existsb (fun a => a_ID a =? id) expired in
  let s1 := updateTasks (fun t => negb (oneOf (tk_State t) TerminalTaskStates) && expiring (tk_ApplyID t))
              (fun t => set_tk_State Task.Failed
                 (set_tk_CompletedAt (COALESCE (tk_CompletedAt t) (Some (now s)))
                 (set_tk_UpdatedAt (now s) t))) s in
  let s2 := updateOps (fun o => (op_State o == Apply.FailedRetryable) && expiring (op_ApplyID o))
              (fun o => set_op_State Apply.Failed
                 (set_op_CompletedAt (COALESCE (op_CompletedAt o) (Some (now s)))
                 (set_op_UpdatedAt (now s) o))) s1 in
  let s3 := updateApplies (fun a => expiring (a_ID a))
              (fun a => set_a_State Apply.Failed
                 (set_a_CompletedAt (COALESCE (a_CompletedAt a) (Some (now s)))
                 (set_a_UpdatedAt (now s) a))) s2 in
  if (length expired =? 0)%nat then (s, Ok []) else
  (s3, Ok ((fun a => (set_a_State Apply.Failed (set_a_CompletedAt (Some (now s))
                        (set_a_UpdatedAt (now s) a)), retryableExpirationReason a)) <$> expired)).

(** [updated_at] keeps its value: the write does not renew the heartbeat. *)
Definition SetRevertSkipped (applyID at_ : Z) (s : store) : store * res unit :=
  (updateApplies (fun a => a_ID a =? applyID) (set_a_RevertSkippedAt (Some at_)) s, Ok tt).

(** Deletion of the rows [p] selects, with their operations, in one transaction. *)
Definition deleteApplies (p : Apply -> bool) (s : store) : store :=
  set_applies (filter (fun a => negb (p a)) (applies s))
    (set_operations (filter (fun o => negb (existsb (fun a => p a && (a_ID a =? op_ApplyID o)) (applies s)))
       (operations s)) s).

Definition Delete (id : Z) (s : store) : store * res unit :=
  let s1 := set_operations (filter (fun o => negb (op_ApplyID o =? id)) (operations s)) s in
  if existsb (fun a => a_ID a =? id) (applies s)
  then (set_applies (filter (fun a => negb (a_ID a =? id)) (applies s)) s1, Ok tt)
  else (s, Err ErrApplyNotFound).

Definition DeleteByPR (repo : string) (pr : Z) (s : store) : store * res unit :=
  (deleteApplies (fun a => (a_Repository a == repo) && (a_PullRequest a =? pr)) s, Ok tt).

(** The operation states that rule a reapplication out. *)
Definition rejectNonReappliableOperations (s : store) (applyID : Z) : res unit :=
  if existsb (fun o => (op_ApplyID o =? applyID) &&
                oneOf (op_State o) [Apply.Stopped; Apply.Cancelled; Apply.Reverted]) (operations s)
  then Err ErrApplyNotReappliable else Ok tt.

(** The three UPDATEs of a reapplication; the operation of a task by LEFT JOIN. *)
Definition reapplyTask (s : store) (applyID : Z) (t : TaskRec) : bool :=
  (tk_ApplyID t =? applyID) && oneOf (tk_State t) [Task.Failed; Task.Cancelled] &&
  match tk_ApplyOperationID t with
  | None => true
  | Some opID => existsb (fun o => (op_ID o =? opID) && (op_ApplyID o =? tk_ApplyID t) &&
                                   (op_State o == Apply.Failed)) (operations s)
  end.

Definition reapplyOp (s : store) (o : ApplyOperation) : ApplyOperation :=
  set_op_State Apply.FailedRetryable (set_op_ErrorMessage None
    (set_op_CompletedAt None (set_op_UpdatedAt (now s) (set_op_LeaseOwner ""
    (set_op_LeaseToken "" (set_op_LeaseAcquiredAt None o)))))).

Definition reapplyRow (s : store) (a : Apply) : Apply :=
  set_a_State Apply.FailedRetryable (set_a_ErrorMessage "" (set_a_Attempt 0
    (set_a_CompletedAt None (set_a_UpdatedAt (now s) (set_a_LeaseOwner "" (set_a_LeaseToken ""
    (set_a_LeaseAcquiredAt None a))))))).

Definition reapplyWrites (applyID : Z) (s : store) : store :=
  let s1 := updateTasks (reapplyTask s applyID)
              (fun t => set_tk_State Task.FailedRetryable (set_tk_ErrorMessage None
                 (set_tk_CompletedAt None (set_tk_UpdatedAt (now s) t)))) s in
  let s2 := updateOps (fun o => (op_ApplyID o =? applyID) && (op_State o == Apply.Failed))
              (reapplyOp s) s1 in
  updateApplies (fun a => (a_ID a =? applyID) && (a_State a == Apply.Failed)) (reapplyRow s) s2.

Definition ReapplyFailed (applyID : Z) (s : store) : store * res Apply :=
  match findApply applyID s with
  | None => (s, Err ErrApplyNotFound)
  | Some apply =>
      if negb (IsState (a_State apply) [Apply.Failed]) then (s, Err ErrApplyNotReappliable) else
      match a_CompletedAt apply with
      | None => (s, Err ErrApplyNotReappliable)
      | Some completedAt =>
          if completedAt <? now s - ReapplyFailureFreshnessDays * day
          then (s, Err ErrApplyNotReappliable) else
          let '(database, dbType, environment, deployment) := applyTargetForUpdate s apply in
          if negb (hasApplyTarget database dbType environment) || (deployment == "")
          then (s, Err ErrApplyNotReappliable) else
          match checkNoActiveApplyForTargets s database dbType environment
                  (operationDeploymentsForApply s applyID ++ [deployment]) applyID with
          | Err e => (s, Err e)
          | Ok _ =>
              match rejectNonReappliableOperations s applyID with
              | Err e => (s, Err e)
              | Ok _ =>
                  if existsb (fun a => (a_ID a =? applyID) && (a_State a == Apply.Failed)) (applies s)
                  then (reapplyWrites applyID s, Ok (reapplyRow s apply))
                  else (s, Err ErrApplyNotReappliable)
              end
          end
      end
  end.


(** ** One active apply per physical target *)

Definition activeRow (a : Apply) : bool := negb (oneOf (a_State a) terminalApplyStates).

Definition sameTarget (a b : Apply) : Prop :=
  a_Database a = a_Database b /\ a_DatabaseType a = a_DatabaseType b /\
  a_Environment a = a_Environment b.

(** A row with a complete target; the others name no physical database. *)
Definition complete (a : Apply) : bool :=
  hasApplyTarget (a_Database a) (a_DatabaseType a) (a_Environment a).

(** The deployments of an apply: its own and those of its operations. *)
Definition owns (s : store) (a : Apply) (d : string) : Prop :=
  d = a_Deployment a \/
  exists o, o ∈ operations s /\ op_ApplyID o = a_ID a /\ op_Deployment o = d.

Definition exclusive (s : store) : Prop :=
  forall a b, a ∈ applies s -> b ∈ applies s -> a_ID a <> a_ID b ->
    activeRow a = true -> activeRow b = true -> complete a = true -> sameTarget a b ->
    forall d, owns s a d -> owns s b d -> False.

(** Identifiers are unique and come from the counter. *)
Record applies_wf (s : store) : Prop := {
  wf_nodup : NoDup (a_ID <$> applies s);
  wf_next : 0 < nextID s;
  wf_ids : forall a, a ∈ applies s -> 0 < a_ID a < nextID s;
  wf_ops : forall o, o ∈ operations s -> op_ApplyID o < nextID s;
}.

Definition oneActive (s : store) : Prop := exclusive s /\ applies_wf s.

(** No other active apply owns a deployment of [a]. *)
Definition clear (s : store) (a : Apply) : Prop :=
  forall b, b ∈ applies s -> a_ID b <> a_ID a -> activeRow b = true -> sameTarget a b ->
    forall d, owns s a d -> owns s b d -> False.

(** *** The overlap check *)

Lemma dedupeLoop_elem seen ds d : d ∉ seen -> (d ∈ dedupeLoop seen ds <-> d ∈ ds).
Proof.
  revert seen. induction ds as [|x ds IH]; intros seen Hd; [done|]. cbn [dedupeLoop].
  destruct (oneOf x seen) eqn:E.
  - apply oneOf_elem in E. rewrite IH by done. rewrite elem_of_cons. split; [by right|].
    intros [->|]; [by destruct Hd|done].
  - rewrite !elem_of_cons. destruct (decide (d = x)) as [->|Hne]; [tauto|].
    rewrite IH; [done|]. rewrite elem_of_cons. tauto.
Qed.

Lemma dedupeDeployments_elem ds d : d ∈ dedupeDeployments ds <-> d ∈ ds.
Proof.
  unfold dedupeDeployments. rewrite merge_sort_Permutation. apply dedupeLoop_elem.
  apply not_elem_of_nil.
Qed.

Lemma check_clear s db ty env ds ex a d :
  checkNoActiveApplyForTargets s db ty env ds ex = Ok tt ->
  a ∈ applies s -> a_ID a <> ex -> activeRow a = true ->
  a_Database a = db -> a_DatabaseType a = ty -> a_Environment a = env ->
  d ∈ ds -> owns s a d -> False.
Proof.
  unfold checkNoActiveApplyForTargets. destruct (_ =? 0)%nat; [done|].
  destruct (existsb _ _) eqn:E; [done|]. intros _ Ha Hid Hact <- <- <- Hd Howns.
  apply not_true_iff_false in E. apply E, existsb_elem. exists a. split; [done|].
  unfold conflicts. rewrite !eqb_refl'. unfold activeRow in Hact. rewrite Hact. cbn [andb].
  apply andb_true_iff. split.
  - apply dedupeDeployments_elem in Hd. destruct Howns as [->|(o & Ho & Hoa & <-)].
    + by rewrite (proj2 (oneOf_elem _ _) Hd).
    + apply orb_true_iff. right. apply existsb_elem. exists o. split; [done|].
      by rewrite Hoa, Z.eqb_refl, (proj2 (oneOf_elem _ _) Hd).
  - rewrite (proj2 (Z.eqb_neq _ _) Hid). apply orb_true_r.
Qed.

Lemma operationDeployments_elem s id d :
  d ∈ operationDeploymentsForApply s id <->
  exists o, o ∈ operations s /\ op_ApplyID o = id /\ op_Deployment o = d.
Proof.
  unfold operationDeploymentsForApply. rewrite list_elem_of_fmap. split.
  - intros (o & -> & [E Ho]%list_elem_of_filter). by exists o.
  - intros (o & Ho & E & <-). exists o. split; [done|]. by apply list_elem_of_filter.
Qed.

(** The check an existing row makes before it becomes active. *)
Lemma check_row_clear s a :
  checkNoActiveApplyForTargets s (a_Database a) (a_DatabaseType a) (a_Environment a)
    (operationDeploymentsForApply s (a_ID a) ++ [a_Deployment a]) (a_ID a) = Ok tt ->
  clear s a.
Proof.
  intros Hc b Hb Hid Hact (E1 & E2 & E3) d Ha Hd.
  eapply check_clear; [exact Hc|exact Hb|done|done|done|done|done| |exact Hd].
  apply elem_of_app. destruct Ha as [->|Ho]; [right; by left|left].
  by apply operationDeployments_elem.
Qed.

(** *** Frame lemmas *)

Definition keepsTarget (f : Apply -> Apply) : Prop :=
  forall a, a_ID (f a) = a_ID a /\ a_Database (f a) = a_Database a /\
    a_DatabaseType (f a) = a_DatabaseType a /\ a_Environment (f a) = a_Environment a /\
    a_Deployment (f a) = a_Deployment a.

(** Every operation of [s'] is one of [s], up to the columns a write may change. *)
Definition opsWithin (s s' : store) : Prop :=
  forall o', o' ∈ operations s' ->
    exists o, o ∈ operations s /\ op_ApplyID o = op_ApplyID o' /\ op_Deployment o = op_Deployment o'.

Lemma opsWithin_refl s s' : operations s' = operations s -> opsWithin s s'.
Proof. intros E o Ho. rewrite E in Ho. by exists o. Qed.

Lemma owns_within s s' a a' d :
  opsWithin s s' -> a_ID a' = a_ID a -> a_Deployment a' = a_Deployment a ->
  owns s' a' d -> owns s a d.
Proof.
  intros Hw Ei Ed [->|(o' & Ho' & Eo & <-)]; [by left|].
  destruct (Hw o' Ho') as (o & Ho & E1 & E2). right. exists o. by rewrite E1, E2, Eo.
Qed.

(** A write that activates at most one row, and that one only when it is clear. *)
Lemma oneActive_map (f : Apply -> Apply) (id : Z) s s' :
  applies s' = f <$> applies s -> keepsTarget f -> opsWithin s s' -> nextID s' = nextID s ->
  (forall a, a ∈ applies s -> activeRow (f a) = true ->
     activeRow a = true \/ (a_ID a = id /\ (complete a = true -> clear s a))) ->
  oneActive s -> oneActive s'.
Proof.
  intros Ea Hf Hops En Hact [Hex Hwf]. split.
  - intros a' b' Ha' Hb' Hne HA HB Hcp Hst d Hda Hdb. rewrite Ea in Ha', Hb'.
    apply list_elem_of_fmap in Ha' as (a & -> & Ha), Hb' as (b & -> & Hb).
    destruct (Hf a) as (Ia & Da & Ta & Va & Pa), (Hf b) as (Ib & Db & Tb & Vb & Pb).
    apply (owns_within s s' a) in Hda; [|done..]. apply (owns_within s s' b) in Hdb; [|done..].
    unfold sameTarget in Hst. rewrite Da, Ta, Va, Db, Tb, Vb in Hst. rewrite Ia, Ib in Hne.
    unfold complete in Hcp. rewrite Da, Ta, Va in Hcp.
    destruct (Hact a Ha HA) as [Aa|[Ea1 Ca]], (Hact b Hb HB) as [Ab|[Eb1 Cb]].
    + exact (Hex a b Ha Hb Hne Aa Ab Hcp Hst d Hda Hdb).
    + destruct Hst as (Q1 & Q2 & Q3). unfold complete in Cb. rewrite <- Q1, <- Q2, <- Q3 in Cb.
      apply (Cb Hcp a Ha Hne Aa) with d; done.
    + apply (Ca Hcp b Hb (not_eq_sym Hne) Ab Hst) with d; done.
    + congruence.
  - destruct Hwf as [Hnd Hn Hids Hoo]. split.
    + rewrite Ea, <- list_fmap_compose. rewrite (list_fmap_ext _ a_ID); [done|].
      intros i a _. apply Hf.
    + by rewrite En.
    + rewrite Ea. intros a' Ha'. apply list_elem_of_fmap in Ha' as (a & -> & Ha).
      rewrite En. destruct (Hf a) as (-> & _). by apply Hids.
    + intros o' Ho'. destruct (Hops o' Ho') as (o & Ho & <- & _). rewrite En. by apply Hoo.
Qed.

Lemma keepsTarget_if (p : Apply -> bool) f : keepsTarget f -> keepsTarget (fun a => if p a then f a else a).
Proof. intros Hf a. destruct (p a); [apply Hf|done]. Qed.

Definition keepsOwner (f : ApplyOperation -> ApplyOperation) : Prop :=
  forall o, op_ApplyID (f o) = op_ApplyID o /\ op_Deployment (f o) = op_Deployment o.

Lemma opsWithin_update (p : ApplyOperation -> bool) f s s' :
  keepsOwner f -> operations s' = (fun o => if p o then f o else o) <$> operations s ->
  opsWithin s s'.
Proof.
  intros Hf E o' Ho'. rewrite E in Ho'. apply list_elem_of_fmap in Ho' as (o & -> & Ho).
  exists o. split; [done|]. destruct (p o); [|done]. by destruct (Hf o) as [-> ->].
Qed.

Lemma opsWithin_trans s1 s2 s3 : opsWithin s1 s2 -> opsWithin s2 s3 -> opsWithin s1 s3.
Proof.
  intros H12 H23 o3 H3. destruct (H23 o3 H3) as (o2 & H2 & E1 & E2).
  destruct (H12 o2 H2) as (o1 & H1 & F1 & F2). exists o1. by rewrite F1, F2.
Qed.

(** Writes to operations alone. *)
Lemma oneActive_ops s s' :
  applies s' = applies s -> opsWithin s s' -> nextID s' = nextID s -> oneActive s -> oneActive s'.
Proof.
  intros Ea Hw En. apply (oneActive_map (fun a => a) 0); [by rewrite list_fmap_id|done..|].
  intros a _. by left.
Qed.

(** Writes to applies that activate no row. *)
Lemma oneActive_applies p f s :
  keepsTarget f ->
  (forall a, a ∈ applies s -> p a = true -> activeRow (f a) = true -> activeRow a = true) ->
  oneActive s -> oneActive (updateApplies p f s).
Proof.
  intros Hf Ha. apply (oneActive_map (fun a => if p a then f a else a) 0).
  - done.
  - by apply keepsTarget_if.
  - by apply opsWithin_refl.
  - done.
  - intros a Hin. destruct (p a) eqn:E; [|by left]. intros H. left. by apply Ha.
Qed.

Lemma oneActive_updateOps p f s : keepsOwner f -> oneActive s -> oneActive (updateOps p f s).
Proof. intros Hf. apply oneActive_ops; [done| |done]. by eapply opsWithin_update. Qed.

(** The write that activates the row [id] alone. *)
Lemma oneActive_activate (p : Apply -> bool) f a s s' :
  keepsTarget f -> applies s' = (fun x => if p x then f x else x) <$> applies s ->
  opsWithin s s' -> nextID s' = nextID s -> a ∈ applies s -> (complete a = true -> clear s a) ->
  (forall x, p x = true -> a_ID x = a_ID a) -> oneActive s -> oneActive s'.
Proof.
  intros Hf Ea Hw En Ha Hc Hp [Hex Hwf]. apply (oneActive_map (fun x => if p x then f x else x) (a_ID a) s s');
    [done|by apply keepsTarget_if|done|done| |done].
  intros x Hx. destruct (p x) eqn:E; [|by left]. intros _. right.
  pose proof (Hp x E) as Ex. split; [done|].
  by rewrite (row_unique a_ID _ x a (wf_nodup _ Hwf) Hx Ha Ex).
Qed.

(** *** Creation *)

(** What the row writers of a creation do: they add operations of the new apply. *)
Definition addsOps (id : Z) (ds : list string) (s s' : store) : Prop :=
  applies s' = applies s /\ nextID s <= nextID s' /\
  exists new, operations s' = (operations s ++ new)%list /\
    forall o, o ∈ new -> op_ApplyID o = id /\ op_Deployment o ∈ ds.

Lemma addsOps_refl id ds s : addsOps id ds s s.
Proof.
  split; [done|]. split; [lia|]. exists []. split; [by rewrite app_nil_r|].
  intros o Ho. by apply elem_of_nil in Ho.
Qed.

Lemma addsOps_trans id ds s1 s2 s3 :
  addsOps id ds s1 s2 -> addsOps id ds s2 s3 -> addsOps id ds s1 s3.
Proof.
  intros (A1 & N1 & n1 & O1 & P1) (A2 & N2 & n2 & O2 & P2).
  split; [congruence|]. split; [lia|]. exists (n1 ++ n2)%list. split.
  - by rewrite O2, O1, app_assoc.
  - intros o [Ho|Ho]%elem_of_app; [by apply P1|by apply P2].
Qed.

Lemma addsOps_mono id ds ds' s s' : (forall d, d ∈ ds -> d ∈ ds') -> addsOps id ds s s' -> addsOps id ds' s s'.
Proof.
  intros Hd (A & N & n & O & P). repeat (split; [done|]). exists n. split; [done|].
  intros o Ho. destruct (P o Ho). auto.
Qed.

Lemma insertApplyOperation_adds id op s s' row :
  insertApplyOperation (setOpApply id op) s = (s', Ok row) -> addsOps id [op_Deployment op] s s'.
Proof.
  unfold insertApplyOperation. destruct (existsb _ _); [done|]. intros [= <- _].
  split; [done|]. split; [cbn; lia|]. eexists. split; [done|].
  intros o Ho. apply list_elem_of_singleton in Ho as ->. split; [done|]. by left.
Qed.

Lemma insertTask_adds id opID t s s' r ds : insertTask id opID t s = (s', r) -> addsOps id ds s s'.
Proof.
  unfold insertTask. destruct (existsb _ _); intros [= <- _]; [apply addsOps_refl|].
  split; [done|]. split; [cbn; lia|]. exists []. split; [by rewrite app_nil_r|].
  intros o Ho. by apply elem_of_nil in Ho.
Qed.

Lemma insertOperations_adds id ops s s' ids :
  insertOperations id ops s = (s', Ok ids) -> addsOps id (op_Deployment <$> ops) s s'.
Proof.
  revert s s' ids. induction ops as [|op ops IH]; intros s s' ids; cbn [insertOperations].
  { intros [= <- _]. apply addsOps_refl. }
  destruct (insertApplyOperation _ s) as [s1 [row|e]] eqn:E1; [|done].
  destruct (insertOperations id ops s1) as [s2 [l|e]] eqn:E2; [|done]. intros [= <- _].
  apply insertApplyOperation_adds in E1. apply IH in E2.
  eapply addsOps_trans; eapply addsOps_mono; [|exact E1| |exact E2].
  - intros d Hd. apply list_elem_of_singleton in Hd as ->. by left.
  - intros d Hd. right. exact Hd.
Qed.

Lemma insertTasks_adds id ts s s' r ds : insertTasks id ts s = (s', r) -> addsOps id ds s s'.
Proof.
  revert s. induction ts as [|[t k] ts IH]; intros s; cbn [insertTasks].
  { intros [= <- _]. apply addsOps_refl. }
  destruct (insertTask id k t s) as [s1 [u|e]] eqn:E1.
  - intros H. eapply addsOps_trans; [by eapply insertTask_adds|by apply IH].
  - intros [= <- _]. by eapply insertTask_adds.
Qed.

Lemma insertApplyTasksAndOperations_adds ts ops id s s' :
  insertApplyTasksAndOperations ts ops id s = (s', Ok tt) ->
  addsOps id (op_Deployment <$> ops) s s'.
Proof.
  unfold insertApplyTasksAndOperations.
  destruct (insertOperations id ops s) as [s1 [ids|e]] eqn:E1; [|done].
  destruct (linkTasks ids ts) as [linked|e]; [|done]. intros H.
  eapply addsOps_trans; [by eapply insertOperations_adds|by eapply insertTasks_adds].
Qed.

Lemma insertGroupTasks_adds id opID ts s s' r ds :
  insertGroupTasks id opID ts s = (s', r) -> addsOps id ds s s'.
Proof.
  revert s. induction ts as [|[t|] ts IH]; intros s; cbn [insertGroupTasks];
    [intros [= <- _]; apply addsOps_refl| |intros [= <- _]; apply addsOps_refl].
  destruct (insertTask _ _ t s) as [s1 [u|e]] eqn:E1.
  - intros H. eapply addsOps_trans; [by eapply insertTask_adds|by apply IH].
  - intros [= <- _]. by eapply insertTask_adds.
Qed.

Lemma insertGroups_adds id gs s s' :
  insertGroups id gs s = (s', Ok tt) -> addsOps id (groupDeployments gs) s s'.
Proof.
  revert s. induction gs as [|[g|] gs IH]; intros s; cbn [insertGroups];
    [intros [= <-]; apply addsOps_refl| |done].
  unfold groupDeployments. cbn [omap list_omap]. destruct (g_Operation g) as [op|]; [|done].
  destruct (_ && _ && _); [done|].
  destruct (insertApplyOperation _ s) as [s1 [row|e]] eqn:E1; [|done].
  destruct (insertGroupTasks _ _ _ s1) as [s2 [u|e]] eqn:E2; [|done]. intros H. cbn [fmap option_fmap option_map].
  apply insertApplyOperation_adds in E1. apply (insertGroupTasks_adds _ _ _ _ _ _ []) in E2.
  apply IH in H. eapply addsOps_trans; [|eapply addsOps_trans]; eapply addsOps_mono;
    [|exact E1| |exact E2| |exact H].
  - intros d Hd. apply list_elem_of_singleton in Hd as ->. by left.
  - intros d Hd. by apply elem_of_nil in Hd.
  - intros d Hd. right. exact Hd.
Qed.

Lemma terminal_agree st :
  st ∈ applyStates -> isActiveApplyState st = negb (oneOf st terminalApplyStates).
Proof. intros H. by elem_cases H. Qed.

(** A new row whose deployments no active row owns. *)
Lemma oneActive_insert s s' row (ds : list string) :
  oneActive s -> a_ID row = nextID s ->
  applies s' = (applies s ++ [row])%list -> nextID s < nextID s' ->
  (exists new, operations s' = (operations s ++ new)%list /\
     forall o, o ∈ new -> op_ApplyID o = nextID s /\ op_Deployment o ∈ ds) ->
  a_Deployment row ∈ ds ->
  (activeRow row = true -> forall a d, a ∈ applies s -> activeRow a = true -> sameTarget row a ->
     d ∈ ds -> owns s a d -> False) ->
  oneActive s'.
Proof.
  intros [Hex [Hnd Hn Hids Hoo]] Hid Ea Hlt (new & Eo & Hnew) Hdep Hclear.
  assert (Hold : forall a d, a ∈ applies s -> owns s' a d -> owns s a d).
  { intros a d Ha [->|(o & Ho & Hoa & <-)]; [by left|]. rewrite Eo in Ho.
    apply elem_of_app in Ho as [Ho|Ho]; [right; by exists o|].
    destruct (Hnew o Ho) as [E _]. specialize (Hids a Ha). lia. }
  assert (Hrow : forall d, owns s' row d -> d ∈ ds).
  { intros d [->|(o & Ho & Hoa & <-)]; [done|]. rewrite Eo in Ho.
    apply elem_of_app in Ho as [Ho|Ho]; [|by apply Hnew].
    specialize (Hoo o Ho). lia. }
  split.
  - intros a b Ha Hb Hne HA HB Hcp Hst d Hda Hdb. rewrite Ea in Ha, Hb.
    apply elem_of_app in Ha as [Ha|Ha%list_elem_of_singleton],
      Hb as [Hb|Hb%list_elem_of_singleton]; subst.
    + exact (Hex a b Ha Hb Hne HA HB Hcp Hst d (Hold _ _ Ha Hda) (Hold _ _ Hb Hdb)).
    + destruct Hst as (Q1 & Q2 & Q3).
      by apply (Hclear HB a d Ha HA (conj (eq_sym Q1) (conj (eq_sym Q2) (eq_sym Q3))));
        [apply Hrow|apply Hold].
    + by apply (Hclear HA b d Hb HB Hst); [apply Hrow|apply Hold].
    + done.
  - split.
    + rewrite Ea, fmap_app, NoDup_app. split; [done|]. split; [|apply NoDup_singleton].
      intros i Hi Hi'. apply list_elem_of_singleton in Hi' as ->.
      apply list_elem_of_fmap in Hi as (a & E & Ha). specialize (Hids a Ha). lia.
    + lia.
    + intros a Ha. rewrite Ea in Ha. apply elem_of_app in Ha as [Ha|Ha%list_elem_of_singleton].
      * specialize (Hids a Ha). lia.
      * subst. lia.
    + intros o Ho. rewrite Eo in Ho. apply elem_of_app in Ho as [Ho|Ho].
      * specialize (Hoo o Ho). lia.
      * destruct (Hnew o Ho). lia.
Qed.

Section Preservation.
Context (ci : string -> string).

Lemma insertApply_row apply lockID s s1 id :
  insertApply apply lockID s = (s1, Ok id) ->
  exists row, applies s1 = (applies s ++ [row])%list /\ operations s1 = operations s /\
    nextID s1 = nextID s + 1 /\ id = nextID s /\ a_ID row = nextID s /\
    a_State row = a_State apply /\ a_Deployment row = a_Deployment apply /\ sameTarget row apply.
Proof.
  unfold insertApply. destruct (existsb _ _); [done|]. intros [= <- <-].
  eexists. split; [reflexivity|]. by repeat split.
Qed.

Lemma createWithRows_oneActive i ds writeRows s :
  a_State (in_apply i) ∈ applyStates -> a_Deployment (in_apply i) ∈ ds ->
  (forall id s s', writeRows id s = (s', Ok tt) -> addsOps id ds s s') ->
  oneActive s -> oneActive (createWithRows ci i ds writeRows s).1.
Proof.
  intros Hst Hdep Hw Hs. unfold createWithRows. set (apply := in_apply i) in *.
  destruct (isActiveApplyState _ && _); [done|].
  destruct (verifyExpectedLockIntent ci s i) as [lockID|e]; [|done].
  destruct (if isActiveApplyState _ then _ else _) as [[]|e] eqn:Ec; [|done].
  destruct (insertApply apply lockID s) as [s1 [id|e]] eqn:Ei; [|done].
  destruct (writeRows id s1) as [s2 [[]|e]] eqn:Ew; [|done]. cbn [fst].
  destruct (insertApply_row _ _ _ _ _ Ei) as (row & Ea & Eo & En & -> & Hrid & Hrs & Hrd & Hrt).
  destruct (Hw _ _ _ Ew) as (Ea2 & En2 & new & Eo2 & Hnew).
  eapply (oneActive_insert s s2 row ds); [done|done|congruence|lia| |by rewrite Hrd|].
  { exists new. by rewrite Eo2, Eo. }
  unfold activeRow at 1. rewrite Hrs. fold apply in Hst. rewrite <- (terminal_agree _ Hst).
  intros Hact a d Ha Haa Hsame Hd Hown. rewrite Hact in Ec.
  destruct Hrt as (R1 & R2 & R3), Hsame as (S1 & S2 & S3).
  eapply (check_clear s _ _ _ ds 0 a d); [exact Ec|done| |done|congruence..|done|done].
  destruct Hs as [_ Hwf]. pose proof (wf_ids _ Hwf a Ha). lia.
Qed.

(** The target an update or claim of a stored row works on is the row's. *)
Lemma applyTargetForUpdate_stored s a apply :
  applies_wf s -> a ∈ applies s -> a_ID apply = a_ID a -> sameTarget apply a ->
  a_Deployment apply = a_Deployment a ->
  applyTargetForUpdate s apply =
    (a_Database a, a_DatabaseType a, a_Environment a, a_Deployment a).
Proof.
  intros Hwf Ha Hid (E1 & E2 & E3) E4. unfold applyTargetForUpdate.
  rewrite E1, E2, E3, E4, Hid. destruct (_ && _); [done|].
  unfold findApply. by rewrite (find_row a_ID _ a (wf_nodup _ Hwf) Ha).
Qed.

Lemma Update_oneActive ctx hasOptions a apply s :
  a_State apply ∈ applyStates -> a ∈ applies s -> a_ID apply = a_ID a -> sameTarget apply a ->
  a_Deployment apply = a_Deployment a ->
  oneActive s -> oneActive (Update ctx hasOptions apply s).1.
Proof.
  intros Hst Ha Hid Hsame Hdep Hs. unfold Update.
  destruct (operationLeaseOnly ctx); [done|].
  destruct (applyLeaseFromContext ctx _) as [lease|e]; [|done].
  rewrite (applyTargetForUpdate_stored s a apply); [|apply Hs|done..].
  set (p := fun x : Apply => _ && _). set (f := fun x : Apply => set_a_State _ _).
  assert (Hp : forall x, p x = true -> a_ID x = a_ID a).
  { intros x Hx. apply andb_true_iff in Hx as [Hx _]. apply Z.eqb_eq in Hx. congruence. }
  assert (Hok : (isActiveApplyState (a_State apply) = true -> complete a = true -> clear s a) ->
                oneActive (updateApplies p f s)).
  { intros Hc. destruct (isActiveApplyState (a_State apply)) eqn:Eact.
    - by apply (oneActive_activate p f a s); [..|apply opsWithin_refl| | |apply Hc| |].
    - apply oneActive_applies; [done| |done]. intros x _ _.
      change (activeRow (f x)) with (negb (oneOf (a_State apply) terminalApplyStates)).
      by rewrite <- (terminal_agree _ Hst), Eact. }
  destruct (isActiveApplyState (a_State apply)) eqn:Eact.
  - rewrite Hid. cbn [andb]. fold (complete a).
    destruct (if complete a then _ else _) as [[]|e] eqn:Ec; [|done].
    assert (Hc : complete a = true -> clear s a).
    { intros Hcp. rewrite Hcp in Ec. by apply check_row_clear. }
    specialize (Hok (fun _ => Hc)). destruct lease as [l|]; [|done]. by destruct (_ && _).
  - cbn [andb]. specialize (Hok (fun H => ltac:(done))).
    destruct lease as [l|]; [|done]. by destruct (_ && _).
Qed.
End Preservation.

(** *** Claims, expiry and reapplication *)

(** A claimed row that does not go through the target lock was active. *)
Lemma starting_active st :
  IsState st [Apply.Stopped] = false -> isStartingClaim st = true ->
  oneOf st terminalApplyStates = false.
Proof.
  intros H1 H2. apply not_true_iff_false. rewrite oneOf_elem. intros H3.
  by elem_cases H3; vm_compute in H1, H2.
Qed.

Lemma transition_applies apply target owner token s s' r :
  transitionClaimToState apply target owner token s = (s', r) ->
  s' = s \/
  s' = updateApplies (fun a => (a_ID a =? a_ID apply) && (a_State a == a_State apply))
         (transitionSet (a_State apply) target owner token s) s.
Proof. unfold transitionClaimToState. destruct (existsb _ _); intros [= <- _]; auto. Qed.

Lemma persistApplyClaim_oneActive a owner token s :
  a ∈ applies s -> oneActive s -> oneActive (persistApplyClaim a owner token s).1.
Proof.
  intros Ha Hs. unfold persistApplyClaim. set (apply := leaseApply owner token s a).
  destruct (IsState (a_State apply) [Apply.Stopped]) eqn:Est.
  - unfold claimStoppedApplyUnderTargetLock.
    rewrite (applyTargetForUpdate_stored s a apply); [|apply Hs|done..].
    destruct (negb _); [done|]. change (a_ID apply) with (a_ID a).
    destruct (checkNoActiveApplyForTargets _ _ _ _ _ _) as [[]|e] eqn:Ec.
    + apply check_row_clear in Ec.
      destruct (transitionClaimToState _ _ _ _ _) as [s' r] eqn:Et.
      assert (oneActive s') as H; [|by destruct r].
      apply transition_applies in Et as [->| ->]; [done|].
      eapply (oneActive_activate _ _ a s);
        [..|reflexivity|by apply opsWithin_refl|done|done|done| |done]; [done|].
      by intros x [Hx%Z.eqb_eq _]%andb_true_iff.
    + destruct e; try done. by apply (oneActive_ops s); [|apply opsWithin_refl| |].
  - destruct (isStartingClaim (a_State apply)) eqn:Esc.
    + destruct (transitionClaimToState _ _ _ _ _) as [s' r] eqn:Et.
      assert (oneActive s') as H; [|by destruct r].
      apply transition_applies in Et as [->| ->]; [done|].
      apply oneActive_applies; [done| |done].
      intros x _ [_ Hx%eqb_true_iff]%andb_true_iff _. unfold activeRow.
      by rewrite Hx, (starting_active _ Est Esc).
    + by apply oneActive_applies.
Qed.

Lemma finishClaim_oneActive b s r : oneActive s -> oneActive r.1 -> oneActive (finishClaim b s r).1.
Proof. intros H1 H2. by destruct r as [s' [[[] a]|e]]. Qed.

Lemma firstApply_elem l a : firstApply l = Some a -> a ∈ l.
Proof.
  revert a. induction l as [|x l IH]; [done|]. cbn. intros a.
  destruct (firstApply l) as [m|]; intros [= <-]; [|by left].
  destruct (_ <? _); [right; by apply IH|by left].
Qed.

Lemma firstApply_min l a b : firstApply l = Some a -> b ∈ l -> a_CreatedAt a <= a_CreatedAt b.
Proof.
  revert a. induction l as [|x l IH]; intros a; [done|]. cbn.
  destruct (firstApply l) as [m|] eqn:E.
  - intros [= <-] [->|Hb]%elem_of_cons.
    + destruct (Z.ltb_spec (a_CreatedAt m) (a_CreatedAt x)); lia.
    + specialize (IH m eq_refl Hb). destruct (Z.ltb_spec (a_CreatedAt m) (a_CreatedAt x)); lia.
  - intros [= <-] [->|Hb]%elem_of_cons; [lia|]. destruct l as [|y l]; [by apply elem_of_nil in Hb|].
    cbn in E. by destruct (firstApply l).
Qed.

Lemma firstApply_None l : firstApply l = None -> l = [].
Proof. destruct l as [|x l]; [done|]. cbn. by destruct (firstApply l). Qed.

Lemma claims_oneActive s (c : store * res (option Apply)) (sel : option Apply) owner token b :
  (forall a, sel = Some a -> a ∈ applies s) ->
  c = (if owner == "" then (s, Err ErrApplyLeaseLost) else
       match sel with
       | None => (s, Ok None)
       | Some apply => finishClaim b s (persistApplyClaim apply owner token s)
       end) ->
  oneActive s -> oneActive c.1.
Proof.
  intros Hsel -> Hs. destruct (owner == ""); [done|]. destruct sel as [a|]; [|done].
  apply finishClaim_oneActive; [done|]. apply persistApplyClaim_oneActive; [by apply Hsel|done].
Qed.

Lemma FindNextApply_oneActive locked owner token s :
  oneActive s -> oneActive (FindNextApply locked owner token s).1.
Proof.
  eapply claims_oneActive; [|reflexivity]. intros a Ha. apply firstApply_elem in Ha.
  by apply Is_true_filter in Ha as [Ha _].
Qed.

Lemma StopReconciliation_oneActive locked owner token s :
  oneActive s -> oneActive (FindNextApplyForStopReconciliation locked owner token s).1.
Proof.
  eapply claims_oneActive; [|reflexivity]. intros a Ha. apply firstApply_elem in Ha.
  by apply Is_true_filter in Ha as [Ha _].
Qed.

Lemma ClaimApplyByID_oneActive locked id owner token s :
  oneActive s -> oneActive (ClaimApplyByID locked id owner token s).1.
Proof.
  eapply claims_oneActive; [|reflexivity]. intros a Ha. apply find_some in Ha as [Ha _].
  by apply list_elem_of_In.
Qed.

Lemma ExpireRetryable_oneActive s : oneActive s -> oneActive (ExpireRetryable s).1.
Proof.
  intros Hs. unfold ExpireRetryable. destruct (_ =? 0)%nat; [done|]. cbn [fst].
  apply oneActive_applies; [done|done|]. apply oneActive_updateOps; [done|].
  by apply (oneActive_ops s); [|apply opsWithin_refl| |].
Qed.

Lemma ReapplyFailed_oneActive id s : oneActive s -> oneActive (ReapplyFailed id s).1.
Proof.
  intros Hs. unfold ReapplyFailed. destruct (findApply id s) as [a|] eqn:Ef; [|done].
  apply find_some in Ef as [Ha%list_elem_of_In Eid%Z.eqb_eq].
  destruct (negb _); [done|]. destruct (a_CompletedAt a) as [c|]; [|done].
  destruct (c <? _); [done|].
  rewrite (applyTargetForUpdate_stored s a a); [|apply Hs|done..].
  destruct (_ || _); [done|]. rewrite <- Eid.
  destruct (checkNoActiveApplyForTargets _ _ _ _ _ _) as [[]|e] eqn:Ec; [|done].
  apply check_row_clear in Ec. destruct (rejectNonReappliableOperations s _); [|done].
  destruct (existsb _ _); [|done]. cbn [fst].
  eapply (oneActive_activate _ _ a s); [|reflexivity| | |done|done| |done]; [done| |done|].
  - eapply opsWithin_update; [|reflexivity]. done.
  - by intros x [Hx%Z.eqb_eq _]%andb_true_iff.
Qed.

(** Deletion of applies and operations. *)
Lemma oneActive_delete (p : Apply -> bool) (q : ApplyOperation -> bool) s s' :
  applies s' = filter (fun a => p a) (applies s) ->
  operations s' = filter (fun o => q o) (operations s) -> nextID s' = nextID s ->
  oneActive s -> oneActive s'.
Proof.
  intros Ea Eo En [Hex [Hnd Hn Hids Hoo]].
  assert (Hw : opsWithin s s').
  { intros o Ho. rewrite Eo in Ho. apply Is_true_filter in Ho as [Ho _]. by exists o. }
  split.
  - intros a b Ha Hb Hne HA HB Hc Hst d Hda Hdb. rewrite Ea in Ha, Hb.
    apply Is_true_filter in Ha as [Ha _], Hb as [Hb _].
    apply (Hex a b Ha Hb Hne HA HB Hc Hst d); by eapply owns_within.
  - split.
    + rewrite Ea. clear - Hnd. induction (applies s) as [|x l IH]; [done|]. cbn in Hnd.
      apply NoDup_cons in Hnd as [Hx Hnd]. rewrite filter_cons. case_decide; [|by apply IH].
      cbn. apply NoDup_cons. split; [|by apply IH]. intros (y & Ey & Hy)%list_elem_of_fmap.
      apply Is_true_filter in Hy as [Hy _]. apply Hx. rewrite Ey. by apply list_elem_of_fmap_2.
    + by rewrite En.
    + intros a Ha. rewrite Ea in Ha. apply Is_true_filter in Ha as [Ha _]. rewrite En. by apply Hids.
    + intros o Ho. destruct (Hw o Ho) as (o' & Ho' & <- & _). rewrite En. by apply Hoo.
Qed.

Lemma Delete_oneActive id s : oneActive s -> oneActive (Delete id s).1.
Proof.
  intros Hs. unfold Delete. destruct (existsb _ _); [|done].
  by apply (oneActive_delete (fun a => negb (a_ID a =? id)) (fun o => negb (op_ApplyID o =? id)) s).
Qed.

Lemma DeleteByPR_oneActive repo pr s : oneActive s -> oneActive (DeleteByPR repo pr s).1.
Proof. by eapply oneActive_delete. Qed.

(** What a reapplication writes, column by column. *)
Lemma reapplyRow_fields s a :
  a_ID (reapplyRow s a) = a_ID a /\ a_State (reapplyRow s a) = Apply.FailedRetryable /\
  a_Attempt (reapplyRow s a) = 0 /\ a_LeaseToken (reapplyRow s a) = "" /\
  a_UpdatedAt (reapplyRow s a) = now s.
Proof. done. Qed.

Lemma reapplyOp_fields s o :
  op_ID (reapplyOp s o) = op_ID o /\ op_ApplyID (reapplyOp s o) = op_ApplyID o /\
  op_State (reapplyOp s o) = Apply.FailedRetryable.
Proof. done. Qed.

(** A retryable apply with budget left and a recent failure is claimable, and so
    are its retryable operations. *)
Lemma retryable_claimable s a :
  a_State a = Apply.FailedRetryable -> (a_Attempt a <? maxRecoveryAttempts) = true ->
  isFresh s (a_UpdatedAt a) = true -> claimableApply s a = true.
Proof.
  intros Hs Ha Hf. unfold claimableApply. rewrite Hs, Ha, Hf.
  change (Apply.FailedRetryable == Apply.FailedRetryable) with true. cbn [andb].
  rewrite orb_true_r. done.
Qed.

Lemma retryable_operation_claimable s o a :
  a ∈ applies s -> op_State o = Apply.FailedRetryable -> a_ID a = op_ApplyID o ->
  a_State a = Apply.FailedRetryable -> (a_Attempt a <? maxRecoveryAttempts) = true ->
  isFresh s (a_UpdatedAt a) = true -> claimableOperation s o = true.
Proof.
  intros Ha Ho Hid Hs Hat Hf. unfold claimableOperation. apply orb_true_iff. right.
  unfold retryArm. rewrite Ho. change (Apply.FailedRetryable == Apply.FailedRetryable) with true.
  apply (existsb_row _ _ a Ha). unfold isFresh in Hf. by rewrite Hid, Z.eqb_refl, Hs, Hat, Hf.
Qed.

(** *** Statements of the other operations *)

Definition reopens (expectedState newState : string) : bool :=
  oneOf expectedState terminalApplyStates && negb (oneOf newState terminalApplyStates).

Lemma read_preserves {A R} (I : store -> Prop) (f : store -> A) (k : res A -> prog store R) :
  (forall a, preserves I (k a)) -> preserves I (Exec (read f) k).
Proof. by intros Hk. Qed.

Lemma UpdateDerivedState_preserves foundRows ctx id expected new msg st ct :
  reopens expected new = false ->
  preserves oneActive (UpdateDerivedState foundRows ctx id expected new msg st ct).
Proof.
  intros Hre. unfold UpdateDerivedState.
  destruct (derivedStateGuardForContext ctx id) as [g|e]; [|done]. split.
  - intros s Hs. cbn [fst]. apply oneActive_applies; [done| |done].
    intros a _ Hp. reflect_guards. unfold reopens in Hre. unfold activeRow.
    change (a_State (set_a_State new _)) with new. intros Hn.
    rewrite Hn, andb_true_r in Hre. by simplify_eq/=; rewrite Hre.
  - intros [rows|e]; [|done]. destruct (0 <? rows); [done|]. apply read_preserves.
    intros [[]|e]; try done. destruct (negb _); [done|]. by apply read_preserves.
Qed.

Lemma Heartbeat_preserves foundRows ctx id : preserves oneActive (Heartbeat foundRows ctx id).
Proof.
  unfold Heartbeat. destruct (operationLeaseOnly ctx); [done|].
  destruct (applyLeaseFromContext ctx id) as [lease|e]; [|done]. split.
  - intros s Hs. by apply oneActive_applies.
  - intros [rows|e]; [|done]. destruct lease as [l|]; [|done]. apply preserves_bind; [|done].
    unfold confirmLeaseOnZeroRows. destruct (rows =? 0); [|done]. by apply read_preserves.
Qed.

Lemma checkUpdated_preserves I rows id g b : preserves I (checkUpdatedOrExists rows id g b).
Proof.
  unfold checkUpdatedOrExists. destruct (0 <? rows); [done|].
  destruct g; apply read_preserves; intros [x|e]; try done; destruct x; try done;
    apply read_preserves; intros [y|e]; try done; repeat case_match; done.
Qed.

Lemma guardedUpdate_preserves foundRows ctx id b set :
  (forall s, keepsOwner (set s)) -> preserves oneActive (guardedUpdate foundRows ctx id b set).
Proof.
  intros Hset. unfold guardedUpdate. destruct (operationWriteGuardFromContext ctx) as [g|e]; [|done].
  split.
  - intros s Hs. cbn [fst]. by apply oneActive_updateOps.
  - intros [rows|e]; [|done]. apply checkUpdated_preserves.
Qed.

Lemma execStateUpdate_preserves foundRows ctx id set :
  (forall s, keepsOwner (set s)) -> preserves oneActive (execStateUpdate foundRows ctx id set).
Proof.
  intros Hset. apply guardedUpdate_preserves. intros s o.
  rewrite !touchOp_keep by done. apply Hset.
Qed.

Lemma claimOperation_oneActive owner token ad s :
  oneActive s -> oneActive (claimOperation owner token ad s).1.
Proof.
  intros Hs. unfold claimOperation.
  destruct (op_State ad == Apply.Pending); [destruct (existsb _ _); [by apply oneActive_updateOps|done]|].
  destruct (op_State ad == Apply.Stopped); [destruct (existsb _ _); [by apply oneActive_updateOps|done]|].
  destruct (op_State ad == Apply.FailedRetryable); [|by apply oneActive_updateOps].
  cbn [fst]. apply oneActive_applies; [done|done|].
  destruct (existsb _ _); [|by apply oneActive_updateOps].
  apply oneActive_updateOps; [|by apply oneActive_updateOps].
  intros o. by rewrite !touchOp_keep by done.
Qed.

Lemma claimCutover_oneActive owner token ad s :
  oneActive s -> oneActive (claimCutover owner token ad s).1.
Proof.
  intros Hs. unfold claimCutover. destruct (_ == _); [|by apply oneActive_updateOps].
  destruct (existsb _ _); [by apply oneActive_updateOps|done].
Qed.

Lemma deleteOps_oneActive p s : oneActive s -> oneActive (deleteOps p s).1.
Proof.
  apply oneActive_ops; [done| |done]. intros o Ho. cbn in Ho.
  apply list_elem_of_filter in Ho as [_ Ho]. by exists o.
Qed.

(** *** Every operation of the two stores *)

Definition call {A} (p : prog store (res A)) : prog store unit := pbind p (fun _ => Ret tt).
Definition atomically {A} (f : store -> store * res A) : prog store unit :=
  Exec f (fun _ => Ret tt).

(** A caller of Update passes a row it loaded, with new values of the columns it
    may change; the target columns are never written. *)
Definition loadAndUpdate (ctx : leaseCtx) (hasOptions : bool) (id : Z) (state : string)
    (change : Apply -> Apply) (s : store) : store * res unit :=
  match findApply id s with
  | None => (s, Err ErrApplyNotFound)
  | Some a => Update ctx hasOptions (set_a_State state (change a)) s
  end.

Inductive storeCall (ci : string -> string) (foundRows : bool) : prog store unit -> Prop :=
| call_Create i :
    a_State (in_apply i) ∈ applyStates -> storeCall ci foundRows (atomically (Create ci i))
| call_CreateWithTasksAndOperations i ts ops :
    a_State (in_apply i) ∈ applyStates ->
    storeCall ci foundRows (atomically (CreateWithTasksAndOperations ci i ts ops))
| call_CreateWithGroupedOperations i groups :
    a_State (in_apply i) ∈ applyStates ->
    storeCall ci foundRows (atomically (CreateWithGroupedOperations ci i groups))
| call_Update ctx hasOptions id st change :
    st ∈ applyStates -> keepsTarget change ->
    storeCall ci foundRows (atomically (loadAndUpdate ctx hasOptions id st change))
| call_UpdateDerivedState ctx id expected new msg started completed :
    reopens expected new = false ->
    storeCall ci foundRows
      (call (UpdateDerivedState foundRows ctx id expected new msg started completed))
| call_FindNextApply locked owner token :
    storeCall ci foundRows (atomically (FindNextApply locked owner token))
| call_ClaimApplyByID locked id owner token :
    storeCall ci foundRows (atomically (ClaimApplyByID locked id owner token))
| call_StopReconciliation locked owner token :
    storeCall ci foundRows (atomically (FindNextApplyForStopReconciliation locked owner token))
| call_ApplyHeartbeat ctx id : storeCall ci foundRows (call (Heartbeat foundRows ctx id))
| call_SetRevertSkipped id at_ : storeCall ci foundRows (atomically (SetRevertSkipped id at_))
| call_Delete id : storeCall ci foundRows (atomically (Delete id))
| call_DeleteByPR repo pr : storeCall ci foundRows (atomically (DeleteByPR repo pr))
| call_ExpireRetryable : storeCall ci foundRows (atomically ExpireRetryable)
| call_ReapplyFailed id : storeCall ci foundRows (atomically (ReapplyFailed id))
| call_operationUpdate ctx id set :
    (forall s, keepsOwner (set s)) ->
    storeCall ci foundRows (call (execStateUpdate foundRows ctx id set))
| call_OperationHeartbeat ctx id :
    storeCall ci foundRows (call (Operations.Heartbeat foundRows ctx id))
| call_FindNextApplyOperation locked owner token :
    storeCall ci foundRows (call (FindNextApplyOperation locked owner token))
| call_FindNextApplyOperationCutover locked owner token :
    storeCall ci foundRows (call (FindNextApplyOperationCutover locked owner token))
| call_DeleteByApply ctx id : storeCall ci foundRows (call (DeleteByApply ctx id))
| call_MarkPendingStoppedByApply ctx id :
    storeCall ci foundRows (call (MarkPendingStoppedByApply foundRows ctx id)).

Lemma confirmLease_preserves I rows l : preserves I (confirmLeaseOnZeroRows rows l).
Proof. unfold confirmLeaseOnZeroRows. destruct (rows =? 0); [|done]. by apply read_preserves. Qed.

Lemma DeleteByApply_preserves ctx id : preserves oneActive (DeleteByApply ctx id).
Proof.
  unfold DeleteByApply. destruct (applyLeaseFromContext ctx id) as [[l|]|e]; [| |done]; split;
    try (intros s; apply deleteOps_oneActive); [|done].
  intros [rows|e]; [|done]. apply preserves_bind; [apply confirmLease_preserves|done].
Qed.

Lemma MarkPendingStopped_preserves foundRows ctx id :
  preserves oneActive (MarkPendingStoppedByApply foundRows ctx id).
Proof.
  assert (Hs : forall auth s, oneActive s -> oneActive (stopPending foundRows auth id s).1).
  { intros auth s. by apply oneActive_updateOps. }
  unfold MarkPendingStoppedByApply. destruct (OperationLeaseFromContext ctx) as [l|].
  - destruct (negb _); [done|]. destruct (negb _); [done|]. split; [intros s; apply Hs|].
    intros [rows|e]; [|done]. destruct (rows =? 0); [by apply read_preserves|done].
  - destruct (applyLeaseFromContext ctx id) as [[l|]|e]; [| |done]; (split; [intros s; apply Hs|]).
    + intros [rows|e]; [apply confirmLease_preserves|done].
    + done.
Qed.

Lemma loadAndUpdate_oneActive ctx hasOptions id st change s :
  st ∈ applyStates -> keepsTarget change -> oneActive s ->
  oneActive (loadAndUpdate ctx hasOptions id st change s).1.
Proof.
  intros Hst Hch Hs. unfold loadAndUpdate. destruct (findApply id s) as [a|] eqn:Ef; [|done].
  apply find_some in Ef as [Ha%list_elem_of_In _]. destruct (Hch a) as (E1 & E2 & E3 & E4 & E5).
  by apply (Update_oneActive _ _ a).
Qed.

Lemma storeCall_preserves ci foundRows p : storeCall ci foundRows p -> preserves oneActive p.
Proof.
  destruct 1 as [i Hi|i ts ops Hi|i groups Hi| | | | | | | | | | | | | | | | |];
    try (apply preserves_bind; [|done]); try (split; [|done]).
  - intros s. by apply createWithRows_oneActive; [|left|intros ? ? ? [= <-]; apply addsOps_refl].
  - intros s. apply createWithRows_oneActive; [done|by left|]. intros n s1 s2 H.
    eapply addsOps_mono; [|by eapply insertApplyTasksAndOperations_adds]. by right.
  - intros s. apply createWithRows_oneActive; [done|by left|]. intros n s1 s2.
    unfold insertApplyGroupedOperations. destruct (_ =? 0)%nat; [done|]. intros H.
    eapply addsOps_mono; [|by eapply insertGroups_adds]. by right.
  - intros s. by apply loadAndUpdate_oneActive.
  - by apply UpdateDerivedState_preserves.
  - intros s. apply FindNextApply_oneActive.
  - intros s. apply ClaimApplyByID_oneActive.
  - intros s. apply StopReconciliation_oneActive.
  - apply Heartbeat_preserves.
  - intros s. by apply oneActive_applies.
  - intros s. apply Delete_oneActive.
  - intros s. apply DeleteByPR_oneActive.
  - intros s. apply ExpireRetryable_oneActive.
  - intros s. apply ReapplyFailed_oneActive.
  - by apply execStateUpdate_preserves.
  - by apply guardedUpdate_preserves.
  - unfold FindNextApplyOperation. destruct (owner == ""); [done|]. apply read_preserves.
    intros [[ad|]|e]; [|done..]. split; [|done]. intros s. apply claimOperation_oneActive.
  - unfold FindNextApplyOperationCutover. destruct (owner == ""); [done|]. apply read_preserves.
    intros [[ad|]|e]; [|done..]. split; [|done]. intros s. apply claimCutover_oneActive.
  - apply DeleteByApply_preserves.
  - apply MarkPendingStopped_preserves.
Qed.

(** ** Lemmas on claims *)

(** What a claim does to the claimed row. *)
Definition claimedRow (owner token : string) (s : store) (a : Apply) : Apply :=
  if IsState (a_State a) [Apply.Stopped] then transitionSet (a_State a) Apply.Resuming owner token s a
  else if isStartingClaim (a_State a)
  then transitionSet (a_State a) Apply.Running owner token s a
  else set_a_UpdatedAt (now s) (leaseApply owner token s a).

Lemma updateApplies_ext (p q : Apply -> bool) f g s :
  (forall a, a ∈ applies s -> (if p a then f a else a) = (if q a then g a else a)) ->
  updateApplies p f s = updateApplies q g s.
Proof.
  intros H. unfold updateApplies. f_equal. apply list_fmap_ext. intros i a Ha. apply H.
  by eapply list_elem_of_lookup_2.
Qed.

Lemma transition_row s a target owner token :
  applies_wf s -> a ∈ applies s ->
  updateApplies (fun x => (a_ID x =? a_ID a) && (a_State x == a_State a))
    (transitionSet (a_State a) target owner token s) s =
  updateApplies (fun x => a_ID x =? a_ID a) (transitionSet (a_State a) target owner token s) s.
Proof.
  intros Hwf Ha. apply updateApplies_ext. intros x Hx.
  destruct (Z.eqb_spec (a_ID x) (a_ID a)) as [E|E]; [|done].
  rewrite (row_unique a_ID _ x a (wf_nodup _ Hwf) Hx Ha E). by rewrite eqb_refl'.
Qed.

Lemma updateApplies_self s a f g :
  applies_wf s -> a ∈ applies s -> f a = g a ->
  updateApplies (fun x => a_ID x =? a_ID a) f s = updateApplies (fun x => a_ID x =? a_ID a) g s.
Proof.
  intros Hwf Ha E. apply updateApplies_ext. intros x Hx.
  destruct (Z.eqb_spec (a_ID x) (a_ID a)) as [Ex|Ex]; [|done].
  by rewrite (row_unique a_ID _ x a (wf_nodup _ Hwf) Hx Ha Ex).
Qed.

Lemma transition_wins s a apply target owner token :
  applies_wf s -> a ∈ applies s -> a_ID apply = a_ID a -> a_State apply = a_State a ->
  exists apply', transitionClaimToState apply target owner token s =
    (updateApplies (fun x => a_ID x =? a_ID a) (transitionSet (a_State a) target owner token s) s,
     Some apply') /\ a_ID apply' = a_ID a /\ a_LeaseToken apply' = a_LeaseToken apply.
Proof.
  intros Hwf Ha Ei Es. unfold transitionClaimToState. rewrite Ei, Es.
  rewrite (existsb_row _ (applies s) a) by (try done; by rewrite Z.eqb_refl, eqb_refl').
  rewrite transition_row by done. eexists. split; [done|]. by destruct (IsState _ _).
Qed.

(** The claim of a stored row: it always succeeds, except that a stopped row whose
    target has another active apply is refused. *)
Lemma persistApplyClaim_spec s a owner token :
  applies_wf s -> a ∈ applies s -> complete a = true ->
  (exists outcome apply',
     persistApplyClaim a owner token s =
       (updateApplies (fun x => a_ID x =? a_ID a) (claimedRow owner token s) s,
        Ok (outcome, apply')) /\
     (outcome = claimAcquired \/ outcome = claimAcquiredCommitted) /\
     (outcome = claimAcquiredCommitted -> IsState (a_State a) [Apply.Stopped] = true) /\
     a_ID apply' = a_ID a /\ a_LeaseToken apply' = token) \/
  (IsState (a_State a) [Apply.Stopped] = true /\ exists reason apply',
     persistApplyClaim a owner token s =
       (failPendingStartControlRequestTx (a_ID a) reason s,
        Ok (claimRefusedActiveTarget, apply')) /\
     checkNoActiveApplyForTargets s (a_Database a) (a_DatabaseType a) (a_Environment a)
       (operationDeploymentsForApply s (a_ID a) ++ [a_Deployment a]) (a_ID a) =
       Err ErrActiveApplyExists).
Proof.
  intros Hwf Ha Hcp. unfold persistApplyClaim. set (apply := leaseApply owner token s a).
  change (a_State apply) with (a_State a).
  destruct (IsState (a_State a) [Apply.Stopped]) eqn:Est.
  - unfold claimStoppedApplyUnderTargetLock.
    rewrite (applyTargetForUpdate_stored s a apply) by done.
    unfold complete in Hcp. rewrite Hcp. cbn [negb]. change (a_ID apply) with (a_ID a).
    destruct (checkNoActiveApplyForTargets _ _ _ _ _ _) as [[]|e] eqn:Ec.
    + left. destruct (transition_wins s a apply Apply.Resuming owner token) as (ap & -> & E1 & E2);
        [done..|].
      exists claimAcquiredCommitted, ap. split; [|repeat split; auto; done].
      f_equal. apply updateApplies_self; [done..|]. unfold claimedRow. by rewrite Est.
    + unfold checkNoActiveApplyForTargets in Ec.
      destruct (length _ =? 0)%nat eqn:El.
      { exfalso. apply Nat.eqb_eq, length_zero_iff_nil in El.
        assert (a_Deployment a ∈ dedupeDeployments (operationDeploymentsForApply s (a_ID a) ++ [a_Deployment a])) as Hin.
        { apply dedupeDeployments_elem, elem_of_app. right. by left. }
        rewrite El in Hin. by apply elem_of_nil in Hin. }
      destruct (existsb _ _); [|done]. injection Ec as <-. right. split; [done|].
      by eexists _, _.
  - left. destruct (isStartingClaim (a_State a)) eqn:Esc.
    + destruct (transition_wins s a apply Apply.Running owner token) as (ap & -> & E1 & E2); [done..|].
      exists claimAcquired, ap. split; [|repeat split; auto; done].
      f_equal. apply updateApplies_self; [done..|]. unfold claimedRow. by rewrite Est, Esc.
    + exists claimAcquired, apply. split; [|repeat split; auto; done].
      f_equal. change (a_ID apply) with (a_ID a). apply updateApplies_self; [done..|]. unfold claimedRow. by rewrite Est, Esc.
Qed.

Lemma updateApplies_none p f s : existsb p (applies s) = false -> updateApplies p f s = s.
Proof.
  intros H. destruct s as [l ? ? ? ? ? ?]. unfold updateApplies, set_applies. cbn in *. f_equal.
  induction l as [|a l IH]; [done|]. cbn in H |- *. apply orb_false_iff in H as [H1 H2].
  by rewrite H1, IH.
Qed.

Lemma affected_none {R} `{EqDecision R} b (p : R -> bool) f (rows : list R) :
  existsb p rows = false -> affected b p f rows = 0.
Proof.
  intros Hp. unfold affected. induction rows as [|r rows IH]; [done|]. cbn in Hp.
  apply orb_false_iff in Hp as [H1 H2]. cbn. rewrite H1. by apply IH.
Qed.

Lemma existsb_impl {A} (p q : A -> bool) l :
  (forall x, p x = true -> q x = true) -> existsb q l = false -> existsb p l = false.
Proof.
  intros Hpq. rewrite <- !not_true_iff_false, !existsb_elem. intros H (x & Hx & Hp).
  apply H. exists x. auto.
Qed.

(** The claimed row is not claimable again while its lease is fresh. *)
Lemma claimedRow_not_claimable owner token s s'' a :
  let r := claimedRow owner token s a in
  now s'' <= now s + ApplyLeaseStaleAfter ->
  (forall cr, cr ∈ controls s'' -> cr_ApplyID cr = a_ID a -> cr_UpdatedAt cr <= now s) ->
  claimableApply s'' r = false.
Proof.
  intros r Hnow Hcr.
  assert (Er : a_UpdatedAt r = now s /\ a_LeaseAcquiredAt r = Some (now s) /\ a_ID r = a_ID a).
  { unfold r, claimedRow. by destruct (IsState (a_State a) _), (isStartingClaim (a_State a)). }
  destruct Er as (Eu & El & Ei).
  assert (Es : oneOf (a_State r) [Apply.Pending; Apply.Stopped; Apply.FailedRetryable] = false).
  { unfold r, claimedRow. destruct (IsState (a_State a) _) eqn:E1; [done|].
    destruct (isStartingClaim (a_State a)) eqn:E2; [done|].
    change (a_State (set_a_UpdatedAt _ _)) with (a_State a).
    apply not_true_iff_false. rewrite oneOf_elem. intros H. unfold isStartingClaim in E2.
    remember (a_State a) as st eqn:Est. clear - H E2. by elem_cases H; vm_compute in E2. }
  assert (Hst : isStale s'' (a_UpdatedAt r) = false).
  { unfold isStale. rewrite Eu. apply Z.ltb_ge. lia. }
  cbn [oneOf existsb] in Es. apply orb_false_iff in Es as [E1 Es].
  apply orb_false_iff in Es as [E2 Es]. apply orb_false_iff in Es as [E3 _].
  unfold claimableApply. rewrite E1, E2, E3, Hst, El, Ei, andb_false_r. cbn [andb orb].
  apply andb_false_iff. right. apply not_true_iff_false. rewrite existsb_elem.
  intros (cr & Hin & H). reflect_guards. specialize (Hcr cr Hin).
  rewrite orb_false_r in *. match goal with H : (_ <? _) = true |- _ => apply Z.ltb_lt in H end.
  lia.
Qed.

Lemma IsState_canonical a b : a ∈ applyStates -> b ∈ applyStates -> IsState a [b] = (a == b).
Proof. intros Ha Hb. elem_cases Ha; elem_cases Hb; done. Qed.

(** The columns the projection writes. *)
Definition derivedSet (new msg : string) (started completed : option Z) (s : store) (a : Apply)
    : Apply :=
  set_a_State new (set_a_ErrorMessage msg (set_a_StartedAt (COALESCE (a_StartedAt a) started)
    (set_a_CompletedAt completed (set_a_UpdatedAt (now s) a)))).

Lemma derivedGuard_owned ctx id g s a :
  derivedStateGuardForContext ctx id = Ok g -> applies_wf s -> a ∈ applies s -> a_ID a = id ->
  derivedGuardHolds s g a = ensureStillOwned g s.
Proof.
  intros Hg Hwf Ha Hid. destruct g as [|l|l k]; [done| |done]. cbn.
  assert (Hl : al_ApplyID l = id).
  { unfold derivedStateGuardForContext, applyLeaseFromContext in Hg.
    destruct (OperationLeaseFromContext ctx); [by break_in Hg|].
    destruct (ApplyLeaseFromContext ctx) as [l'|]; [|done].
    destruct (negb (ApplyLease_Valid l')); [done|].
    destruct (negb (al_ApplyID l' =? id)) eqn:E; [done|]. injection Hg as ->. by reflect_guards. }
  rewrite Hl. unfold applyTokenIs. destruct (a_LeaseToken a == al_Token l) eqn:E.
  - symmetry. apply (existsb_row _ _ a Ha). by rewrite Hid, Z.eqb_refl, E.
  - symmetry. apply not_true_iff_false. rewrite existsb_elem. intros (x & Hx & Hp). reflect_guards.
    rewrite (row_unique a_ID _ x a (wf_nodup _ Hwf) Hx Ha) in *; congruence.
Qed.

Lemma updateApplies_fix (p : Apply -> bool) f s :
  (forall a, a ∈ applies s -> p a = true -> f a = a) -> updateApplies p f s = s.
Proof.
  intros H. rewrite (updateApplies_ext p (fun _ => false) f f).
  - apply updateApplies_none. clear H. by induction (applies s).
  - intros a Ha. destruct (p a) eqn:E; [by apply H|done].
Qed.

(** The re-reads of UpdateDerivedState after an update of zero rows. *)
Lemma derived_reread g id expected new s :
  run (Exec (read (ensureStillOwned g)) (fun r => match r with
         | Err e => Ret (Err e)
         | Ok false => Ret (Err ErrApplyLeaseLost)
         | Ok true =>
             if negb (IsState new [expected]) then Ret (Ok false) else
             Exec (read (findApply id)) (fun r => Ret match r with
               | Err e => Err e
               | Ok None => Ok false
               | Ok (Some a) => Ok (IsState (a_State a) [expected])
               end)
         end)) s =
  (s, if negb (ensureStillOwned g s) then Err ErrApplyLeaseLost else
      Ok (IsState new [expected] &&
          match findApply id s with Some a => IsState (a_State a) [expected] | None => false end)).
Proof.
  rewrite run_Exec. cbn [read fst snd]. destruct (ensureStillOwned g s); [|done]. cbn [negb].
  destruct (IsState new [expected]); [|done]. cbn [negb andb]. rewrite run_Exec. cbn [read fst snd].
  by destruct (findApply id s).
Qed.

Lemma affected_row_pos {R} `{EqDecision R} b (p : R -> bool) f (rows : list R) r :
  r ∈ rows -> p r = true -> b = true \/ f r <> r -> 0 < affected b p f rows.
Proof.
  intros Hr Hp Hb. unfold affected.
  assert (r ∈ filter (fun x => p x && (b || bool_decide (f x <> x))) rows) as Hin.
  { apply Is_true_filter. split; [done|]. rewrite Hp. destruct Hb as [->|Hb]; [done|].
    by rewrite bool_decide_eq_true_2, orb_true_r. }
  destruct (filter _ rows); [by apply elem_of_nil in Hin|]. cbn. lia.
Qed.

Lemma UpdateDerivedState_run (foundRows : bool) (ctx : leaseCtx) (id : Z)
    (expected new msg : string) (started completed : option Z) (s : store)
    (Hwf : applies_wf s) (Hexp : expected ∈ applyStates) (Hnew : new ∈ applyStates)
    (Hst : forall a, a ∈ applies s -> a_State a ∈ applyStates) :
  run (UpdateDerivedState foundRows ctx id expected new msg started completed) s =
    match derivedStateGuardForContext ctx id with
    | Err e => (s, Err e)
    | Ok g =>
        if negb (ensureStillOwned g s) then (s, Err ErrApplyLeaseLost) else
        match findApply id s with
        | None => (s, Ok false)
        | Some a =>
            if a_State a == expected
            then (updateApplies (fun x => a_ID x =? id) (derivedSet new msg started completed s) s,
                  Ok true)
            else (s, Ok false)
        end
    end.
Proof.
  unfold UpdateDerivedState. destruct (derivedStateGuardForContext ctx id) as [g|e] eqn:Eg; [|done].
  rewrite run_Exec. cbn [fst snd]. set (p := fun a : Apply => _ && _ && _).
  set (f := fun a : Apply => set_a_State new _).
  change (derivedSet new msg started completed s) with f.
  destruct (existsb p (applies s)) eqn:Ep.
  - apply existsb_elem in Ep as (a & Ha & Hp). unfold p in Hp. apply andb_true_iff in Hp as [Hp Hg].
    apply andb_true_iff in Hp as [Hid%Z.eqb_eq Hs].
    rewrite <- (derivedGuard_owned ctx id g s a Eg Hwf Ha Hid), Hg. cbn [negb].
    assert (Hfind : findApply id s = Some a).
    { subst id. by apply (find_row a_ID); [apply Hwf|]. }
    rewrite Hfind, Hs.
    assert (Hext : updateApplies p f s = updateApplies (fun x => a_ID x =? id) f s).
    { apply updateApplies_ext. intros x Hx. unfold p.
      destruct (Z.eqb_spec (a_ID x) id) as [E|E]; [|done].
      rewrite (row_unique a_ID _ x a (wf_nodup _ Hwf) Hx Ha ltac:(congruence)). by rewrite Hs, Hg. }
    destruct (Z.ltb_spec 0 (affected foundRows p f (applies s))) as [Hpos|Hzero].
    { by rewrite run_Ret, Hext. }
    assert (Hfa : f a = a).
    { destruct (decide (f a = a)) as [|Hne]; [done|].
      assert (0 < affected foundRows p f (applies s)); [|lia].
      apply (affected_row_pos _ _ _ _ a Ha); [|by right]. unfold p. by rewrite Hid, Z.eqb_refl, Hs, Hg. }
    assert (Hfix : updateApplies p f s = s).
    { apply updateApplies_fix. intros x Hx Hpx. unfold p in Hpx. reflect_guards.
      by rewrite (row_unique a_ID _ x a (wf_nodup _ Hwf) Hx Ha ltac:(congruence)). }
    rewrite <- Hext, Hfix, derived_reread, Hfind.
    rewrite <- (derivedGuard_owned ctx id g s a Eg Hwf Ha Hid), Hg. cbn [negb].
    apply eqb_true_iff in Hs. rewrite !IsState_canonical by auto.
    assert (new = expected) as -> by (apply (f_equal a_State) in Hfa; cbn in Hfa; congruence).
    by rewrite Hs, eqb_refl'.
  - rewrite updateApplies_none, affected_none by done. cbn [Z.ltb Z.compare].
    rewrite derived_reread. destruct (negb (ensureStillOwned g s)) eqn:Eo; [done|].
    destruct (findApply id s) as [a|] eqn:Ef; [|by rewrite andb_false_r].
    apply find_some in Ef as [Ha%list_elem_of_In Hid]. rewrite (IsState_canonical (a_State a)) by auto.
    destruct (a_State a == expected) eqn:Es; [|by rewrite andb_false_r].
    apply not_true_iff_false in Ep. destruct Ep. apply (existsb_row _ _ a Ha). unfold p.
    apply Z.eqb_eq in Hid as Hid'. apply negb_false_iff in Eo.
    by rewrite Hid, Es, (derivedGuard_owned ctx id g s a Eg Hwf Ha Hid').
Qed.

(** ** Examples *)

Definition withDeployment (d : string) (a : Apply) : Apply :=
  {| a_ID := a_ID a; a_ApplyIdentifier := ("apply-" ++ d)%string; a_LockID := a_LockID a;
     a_PlanID := a_PlanID a; a_Database := a_Database a; a_DatabaseType := a_DatabaseType a;
     a_Repository := a_Repository a; a_PullRequest := a_PullRequest a;
     a_Environment := a_Environment a; a_Deployment := d; a_Caller := a_Caller a;
     a_InstallationID := a_InstallationID a; a_ExternalID := a_ExternalID a;
     a_IdempotencyKey := a_IdempotencyKey a; a_Engine := a_Engine a; a_State := a_State a;
     a_ErrorMessage := a_ErrorMessage a; a_Options := a_Options a;
     a_Attempt := a_Attempt a; a_LeaseOwner := a_LeaseOwner a; a_LeaseToken := a_LeaseToken a;
     a_LeaseAcquiredAt := a_LeaseAcquiredAt a; a_CreatedAt := a_CreatedAt a;
     a_StartedAt := a_StartedAt a; a_CompletedAt := a_CompletedAt a; a_UpdatedAt := a_UpdatedAt a;
     a_RevertSkippedAt := a_RevertSkippedAt a |}.

Definition exampleInput (d : string) : ApplyInput :=
  {| in_apply := withDeployment d (exampleApply Apply.Pending);
     ExpectedLockOwner := ""; ExpectedPendingPlanID := "" |}.

Lemma exampleStore_wf a os cs :
  a_ID a = 1 -> (forall o, o ∈ os -> op_ApplyID o = 1) -> applies_wf (exampleStore a os cs).
Proof.
  intros Ha Ho. split; cbn.
  - apply NoDup_singleton.
  - lia.
  - intros b Hb. apply list_elem_of_singleton in Hb as ->. lia.
  - intros o H. rewrite (Ho o H). lia.
Defined.

Lemma exampleStore_oneActive a os cs :
  a_ID a = 1 -> (forall o, o ∈ os -> op_ApplyID o = 1) -> oneActive (exampleStore a os cs).
Proof.
  intros Ha Ho. split; [|by apply exampleStore_wf]. intros x y Hx Hy.
  apply list_elem_of_singleton in Hx as ->, Hy as ->. by intros.
Defined.

Lemma no_operations (o : ApplyOperation) : o ∈ [] -> op_ApplyID o = 1.
Proof. intros H. by apply elem_of_nil in H. Defined.

(** ** Properties *)

(** C1: one active apply per target.  Two distinct applies that are both active (not
    completed, failed, stopped, cancelled or reverted) and name the same database,
    type and environment, all three given, never share a deployment, neither their own
    nor one of their operations.  If this holds in a store whose apply identifiers are
    unique and below its counter, with no operation of an apply yet to come
    ([oneActive]), it still holds after every interleaving of any number of the
    calls of [storeCall], statement by statement and with failing statements.
    These are all writes of the apply and operation stores (CreateWithTasks is the
    creation without operations) but one: the operation store's Insert, which the
    program's own code never calls, checks no other apply and can break the
    property ([insert_unguarded]).  Calls write states of state.Apply, a caller of
    Update keeps the target columns it loaded, writes to an operation keep its apply
    and deployment, and UpdateDerivedState is not asked to move a terminal apply
    back to an active state. *)
Theorem one_active_apply_per_target (ci : string -> string) (foundRows : bool)
    (ps ps' : list (prog store unit)) (s s' : store) :
  Forall (storeCall ci foundRows) ps -> oneActive s -> rtc pool_step (ps, s) (ps', s') ->
  forall a b d, a ∈ applies s' -> b ∈ applies s' -> a_ID a <> a_ID b ->
    activeRow a = true -> activeRow b = true -> complete a = true -> sameTarget a b ->
    owns s' a d -> owns s' b d -> False.
Proof.
  intros Hps Hs Hrun a b d Ha Hb Hne HA HB Hc Hst Hda Hdb.
  destruct (pool_invariant oneActive _ _ Hrun) as [_ [Hex _]]; [|done|].
  - eapply Forall_impl; [exact Hps|]. apply storeCall_preserves.
  - exact (Hex a b Ha Hb Hne HA HB Hc Hst d Hda Hdb).
Qed.

(** The operation store's Insert adds an operation on a deployment that another
    active apply of the target owns. *)
Lemma insert_unguarded :
  let s := (Create (fun x => x) (exampleInput "eu") (exampleStore (exampleApply Apply.Running) [] [])).1 in
  let s' := (run (Insert (exampleOp 0 "eu" Apply.Pending CutoverPolicyRolling OnFailureHalt)) s).1 in
  oneActive s /\ ~ oneActive s'.
Proof.
  intros s s'. split.
  - apply (createWithRows_oneActive (fun x => x) (exampleInput "eu")); [by left|by left|intros ? ? ? [= <-]; apply addsOps_refl|].
    apply exampleStore_oneActive; [done|apply no_operations].
  - intros [Hex _]. set (a := exampleApply Apply.Running).
    assert (exists b, b ∈ applies s' /\ a_ID a <> a_ID b /\ activeRow b = true /\ sameTarget a b /\ a_Deployment b = "eu")
      as (b & Hb & Hne & Hact & Hst & Hd) by (eexists; split; [right; left|by repeat split]).
    apply (Hex a b) with "eu"; [by left|done|done|done|done|done|done| |by left].
    right. eexists. split; [left|by split].
Qed.

Lemma one_active_apply_per_target_witness :
  let s := exampleStore (exampleApply Apply.Running) [] [] in
  let s' := (Create (fun x => x) (exampleInput "eu") s).1 in
  length (applies s') = 2%nat /\
  forall b, b ∈ applies s' -> a_ID b = 100 -> activeRow b = true ->
    sameTarget (exampleApply Apply.Running) b -> ~ owns s' b "us".
Proof.
  intros s s'. split; [reflexivity|]. intros b Hb Hid Hact Hst Hown.
  apply (one_active_apply_per_target (fun x => x) true
           [atomically (Create (fun x => x) (exampleInput "eu"))] [Ret tt] s s')
    with (a := exampleApply Apply.Running) (b := b) (d := "us").
  - constructor; [|constructor]. apply call_Create. by left.
  - apply exampleStore_oneActive; [reflexivity|apply no_operations].
  - apply rtc_once. apply (pool_exec [] [] _ (Create (fun x => x) (exampleInput "eu"))).
  - by left.
  - done.
  - rewrite Hid. done.
  - reflexivity.
  - done.
  - reflexivity.
  - done.
  - by left.
  - done.
Defined.

(** C25: no apply is stranded.  An apply in a state of state.Apply whose heartbeat
    is older than the lease window and whose rows were committed is, unless it is
    terminal or paused, either claimable by FindNextApply or expired by
    ExpireRetryable, and never both; a paused apply with a pending stop request, a
    pending operation and none being driven is claimed for stop reconciliation. *)
Theorem no_apply_stranded (s : store) (a : Apply)
    (Hst : a_State a ∈ applyStates) (Hstale : isStale s (a_UpdatedAt a) = true)
    (Hrows : hasTasks s (a_ID a) || hasOperations s (a_ID a) = true) :
  (oneOf (a_State a) terminalApplyStates = false -> a_State a <> Apply.Paused ->
     xorb (claimableApply s a) (expirable s a) = true) /\
  (a_State a = Apply.Paused -> pendingStop s (a_ID a) = true ->
     (exists o, o ∈ operations s /\ op_ApplyID o = a_ID a /\ op_State o = Apply.Pending) ->
     (forall o, o ∈ operations s -> op_ApplyID o = a_ID a ->
        op_State o ∉ claimableApplyStates) ->
     stopReconcilable s a = true).
Proof.
  split.
  - unfold claimableApply, expirable. rewrite Hstale, Hrows. intros Ht Hp.
    destruct (String.eqb_spec (a_State a) Apply.FailedRetryable) as [E|E].
    + rewrite E. unfold isFresh. cbn [String.eqb Ascii.eqb Bool.eqb oneOf existsb claimableApplyStates orb andb].
      rewrite (Z.leb_antisym (a_UpdatedAt a)), (Z.leb_antisym (a_Attempt a)), orb_false_r.
      destruct (a_Attempt a <? maxRecoveryAttempts), (a_UpdatedAt a <? _); done.
    + rewrite andb_false_l, xorb_false_r. rewrite !andb_true_r.
      remember (a_State a) as st eqn:Es. clear Es. elem_cases Hst; done.
  - intros Hp Hstop (o & Ho & Hoa & Hos) Hidle. unfold stopReconcilable. rewrite Hp, Hstop.
    rewrite (existsb_row _ _ o Ho) by (by rewrite Hoa, Hos, Z.eqb_refl). cbn [andb oneOf].
    apply negb_true_iff, not_true_iff_false. rewrite existsb_elem. intros (x & Hx & Hp').
    apply andb_true_iff in Hp' as [Hxa%Z.eqb_eq Hxs%oneOf_elem]. by eapply Hidle.
Qed.

Lemma no_apply_stranded_witness :
  let a := exampleApply Apply.Reverting in
  let s := {| applies := [a]; operations := [exampleOp 1 "us" Apply.Running "rolling" "halt"];
              controls := []; tasks := []; locks := {| lk_rows := ∅; lk_nextID := 1; lk_now := 0 |};
              nextID := 100; now := 2000 |} in
  xorb (claimableApply s a) (expirable s a) = true.
Proof.
  intros a s. apply (no_apply_stranded s a).
  - apply oneOf_elem. reflexivity.
  - reflexivity.
  - reflexivity.
  - reflexivity.
  - discriminate.
Defined.

(** The claim of an apply.  FindNextApply returns the oldest claimable row
    that no other transaction holds, writes the fresh lease on that row and
    nothing else: pending and failed_retryable applies become running (a
    failed_retryable one charged one attempt and its error cleared), a stopped one
    resuming, others keep their state.  The row is then not claimable again while
    its lease is fresh and no newer control request arrives. *)
Theorem FindNextApply_claims_oldest_apply (locked : Z -> bool) (owner token : string)
    (s s' : store) (c : Apply)
    (Hwf : applies_wf s) (Hcp : forall a, a ∈ applies s -> complete a = true)
    (Hclaim : FindNextApply locked owner token s = (s', Ok (Some c))) :
  exists a, a ∈ applies s /\ claimableApply s a = true /\ locked (a_ID a) = false /\
    (forall b, b ∈ applies s -> claimableApply s b = true -> locked (a_ID b) = false ->
       a_CreatedAt a <= a_CreatedAt b) /\
    a_ID c = a_ID a /\ a_LeaseToken c = token /\
    s' = updateApplies (fun x => a_ID x =? a_ID a) (claimedRow owner token s) s /\
    (forall s'', now s'' <= now s + ApplyLeaseStaleAfter ->
       (forall cr, cr ∈ controls s'' -> cr_ApplyID cr = a_ID a -> cr_UpdatedAt cr <= now s) ->
       claimableApply s'' (claimedRow owner token s a) = false).
Proof.
  unfold FindNextApply in Hclaim. destruct (owner == ""); [done|].
  destruct (firstApply _) as [a|] eqn:Ef; [|done].
  pose proof (firstApply_elem _ _ Ef) as Hin. apply Is_true_filter in Hin as [Ha Hsel].
  apply andb_true_iff in Hsel as [Hsel Hl%negb_true_iff].
  exists a. split; [done|]. split; [done|]. split; [done|]. split.
  { intros b Hb Hcb Hlb. eapply firstApply_min; [exact Ef|]. apply Is_true_filter.
    split; [done|]. by rewrite Hcb, Hlb. }
  destruct (persistApplyClaim_spec s a owner token Hwf Ha (Hcp a Ha))
    as [(o & ap & E & Ho & _ & Ei & Et)|(_ & reason & ap & E & _)]; rewrite E in Hclaim; [|done].
  assert (s' = updateApplies (fun x => a_ID x =? a_ID a) (claimedRow owner token s) s /\ c = ap)
    as [-> ->] by (destruct Ho as [-> | ->]; by injection Hclaim as <- <-).
  repeat (split; [done|]). intros s'' Hn Hcr. by apply claimedRow_not_claimable.
Qed.

Lemma FindNextApply_claims_oldest_apply_witness :
  let a := exampleApply Apply.FailedRetryable in
  let s := exampleStore a [] [] in
  exists c, (FindNextApply (fun _ => false) "op-1" "tok" s).2 = Ok (Some c) /\
    a_LeaseToken c = "tok" /\
    a_State <$> applies (FindNextApply (fun _ => false) "op-1" "tok" s).1 = [Apply.Running].
Proof.
  intros a s. eexists. split; [reflexivity|].
  destruct (FindNextApply_claims_oldest_apply (fun _ => false) "op-1" "tok" s
              (FindNextApply (fun _ => false) "op-1" "tok" s).1
              (set_a_Attempt 1 (set_a_ErrorMessage "" (leaseApply "op-1" "tok" s a))))
    as (b & Hb & _ & _ & _ & _ & Ht & Hs & _).
  - apply exampleStore_wf; [reflexivity|apply no_operations].
  - intros b Hb. apply list_elem_of_singleton in Hb as ->. reflexivity.
  - reflexivity.
  - split; [exact Ht|]. rewrite Hs. apply list_elem_of_singleton in Hb as ->. reflexivity.
Defined.

(** C27: a displaced driver is fenced.  Once the apply row no longer holds the
    lease's token, every write under that lease fails and leaves all tables as
    they were: Update, Heartbeat, CheckLease and the projection's
    compare-and-swap. *)
Theorem displaced_driver_fenced (foundRows hasOptions : bool) (l : ApplyLease) (apply : Apply)
    (s : store) (expected new msg : string) (started completed : option Z)
    (Hid : a_ID apply = al_ApplyID l)
    (Hlost : applyTokenIs s (al_ApplyID l) (al_Token l) = false) :
  let ctx := {| ApplyLeaseFromContext := Some l; OperationLeaseFromContext := None |} in
  (exists e, Update ctx hasOptions apply s = (s, Err e)) /\
  run (Heartbeat foundRows ctx (al_ApplyID l)) s = (s, Err ErrApplyLeaseLost) /\
  CheckLease l s = Err ErrApplyLeaseLost /\
  run (UpdateDerivedState foundRows ctx (al_ApplyID l) expected new msg started completed) s =
    (s, Err ErrApplyLeaseLost).
Proof.
  intros ctx. pose proof Hlost as Hnone. unfold applyTokenIs in Hnone.
  assert (Hctx : applyLeaseFromContext ctx (al_ApplyID l) =
            if ApplyLease_Valid l then Ok (Some l) else Err ErrApplyLeaseLost).
  { unfold applyLeaseFromContext. cbn. rewrite Z.eqb_refl. by destruct (ApplyLease_Valid l). }
  split; [|split; [|split]].
  - unfold Update. cbn [operationLeaseOnly ctx OperationLeaseFromContext]. rewrite Hid, Hctx.
    destruct (ApplyLease_Valid l); [|by eexists].
    destruct (if isActiveApplyState _ then _ else _) as [[[db ty] env] dep].
    destruct (if _ && _ then _ else _) as [[]|e]; [|by eexists].
    rewrite Hnone, Hlost. by eexists.
  - unfold Heartbeat. cbn [operationLeaseOnly ctx OperationLeaseFromContext]. rewrite Hctx.
    destruct (ApplyLease_Valid l); [|done]. rewrite run_Exec. cbn [fst snd].
    rewrite updateApplies_none, affected_none by done.
    unfold confirmLeaseOnZeroRows. cbn [Z.eqb]. rewrite run_bind, run_Exec. cbn [read fst snd].
    by rewrite Hlost.
  - unfold CheckLease. rewrite Hlost. by destruct (negb _).
  - unfold UpdateDerivedState, derivedStateGuardForContext. cbn [ctx OperationLeaseFromContext].
    rewrite Hctx. destruct (ApplyLease_Valid l); [|done].
    assert (Hz : existsb (fun a => (a_ID a =? al_ApplyID l) && (a_State a == expected) &&
              derivedGuardHolds s (derivedApplyLease l) a) (applies s) = false).
    { eapply existsb_impl; [|exact Hnone]. intros a Ha. cbn in Ha. reflect_guards.
      apply andb_true_iff. split; [by apply Z.eqb_eq|by apply eqb_true_iff]. }
    rewrite run_Exec. cbn [fst snd]. rewrite updateApplies_none, affected_none by done.
    cbn [Z.ltb Z.compare]. rewrite run_Exec. cbn [read fst snd ensureStillOwned]. by rewrite Hlost.
Qed.

Lemma displaced_driver_fenced_witness :
  let s := exampleStore (set_a_LeaseToken "new" (exampleApply Apply.Running)) [] [] in
  let l := {| al_ApplyID := 1; al_Owner := "w"; al_Token := "old" |} in
  let ctx := {| ApplyLeaseFromContext := Some l; OperationLeaseFromContext := None |} in
  run (UpdateDerivedState true ctx 1 Apply.Running Apply.Completed "" None None) s =
    (s, Err ErrApplyLeaseLost).
Proof.
  intros s l ctx.
  refine (proj2 (proj2 (proj2 (displaced_driver_fenced true false l (exampleApply Apply.Running) s
    Apply.Running Apply.Completed "" None None eq_refl _)))).
  reflexivity.
Defined.

(** Atomic creation.  A creation that fails leaves every table as it was.  One
    that succeeds appends the apply with the next identifier and the caller's state
    and target, and only under the caller's recorded lock intent: when an expected
    owner is given, the lock of the database is held by it with the expected
    pending plan, and the apply records that lock's id. *)
Theorem create_contract (ci : string -> string) (i : ApplyInput) (ds : list string)
    (writeRows : Z -> store -> store * res unit) (s : store)
    (Hrows : forall id s1 s2, writeRows id s1 = (s2, Ok tt) -> addsOps id ds s1 s2) :
  match createWithRows ci i ds writeRows s with
  | (s', Err _) => s' = s
  | (s', Ok id) =>
      id = nextID s /\
      (exists row, applies s' = (applies s ++ [row])%list /\ a_ID row = id /\
         a_State row = a_State (in_apply i) /\ sameTarget row (in_apply i) /\
         a_Deployment row = a_Deployment (in_apply i)) /\
      (exists new, operations s' = (operations s ++ new)%list /\
         forall o, o ∈ new -> op_ApplyID o = id /\ op_Deployment o ∈ ds) /\
      (ExpectedLockOwner i <> "" -> exists lk,
         lk_rows (locks s) !! lockKey ci (a_Database (in_apply i)) (a_DatabaseType (in_apply i))
           = Some lk /\
         ownerIs ci (ExpectedLockOwner i) lk = true /\
         planIs ci (ExpectedPendingPlanID i) lk = true)
  end.
Proof.
  unfold createWithRows. destruct (_ && _); [done|].
  destruct (verifyExpectedLockIntent ci s i) as [lockID|e] eqn:Ev; [|done].
  destruct (if isActiveApplyState _ then _ else _) as [[]|e]; [|done].
  destruct (insertApply (in_apply i) lockID s) as [s1 [id|e]] eqn:Ei; [|done].
  destruct (writeRows id s1) as [s2 [[]|e]] eqn:Ew; [|done].
  destruct (insertApply_row _ _ _ _ _ Ei) as (row & Ea & Eo & En & -> & R1 & R2 & R3 & R4).
  destruct (Hrows _ _ _ Ew) as (Ea2 & En2 & new & Eo2 & Hnew).
  split; [done|]. split; [|split].
  - exists row. by rewrite Ea2, Ea.
  - exists new. by rewrite Eo2, Eo.
  - intros Hown. unfold verifyExpectedLockIntent in Ev.
    rewrite (proj2 (eqb_false_iff _ _) Hown) in Ev.
    destruct (lk_rows (locks s) !! _) as [lk|] eqn:El; [|done].
    destruct (_ && _) eqn:Eb; [|done]. apply andb_true_iff in Eb as [Eb1 Eb2]. by exists lk.
Qed.

Lemma create_contract_witness :
  let s := exampleStore (exampleApply Apply.Running) [] [] in
  (Create (fun x => x) (exampleInput "eu") s).2 = Ok 100 /\
  (Create (fun x => x) (exampleInput "us") s) = (s, Err ErrActiveApplyExists) /\
  match Create (fun x => x) (exampleInput "eu") s with
  | (s', Ok id) => id = nextID s
  | (s', Err _) => s' = s
  end.
Proof.
  intros s. split; [reflexivity|]. split; [reflexivity|].
  pose proof (create_contract (fun x => x) (exampleInput "eu") ["eu"] (fun _ s => (s, Ok tt)) s)
    as H. unfold Create. cbn [in_apply exampleInput a_Deployment withDeployment].
  destruct (createWithRows _ _ _ _ _) as [s' [id|e]]; apply H.
  - intros id' s1 s2 [= <-]. apply addsOps_refl.
  - intros id' s1 s2 [= <-]. apply addsOps_refl.
Defined.

Lemma in_updateApplies p f s a : a ∈ applies s -> p a = true -> f a ∈ applies (updateApplies p f s).
Proof.
  intros Ha Hp. rewrite applies_updateApplies. apply list_elem_of_fmap. exists a. by rewrite Hp.
Qed.

(** Reapplication.  ReapplyFailed succeeds only on a failed apply that
    completed within a day, has a complete target with no other active apply on
    it, and has no stopped, cancelled or reverted operation.  The row then is
    failed_retryable with a fresh budget and no lease, and both it and each of its
    operations that had failed are claimable at once; any refusal changes nothing. *)
Theorem reapply_makes_claimable (s s' : store) (id : Z) (r : res Apply)
    (Hwf : applies_wf s) (Hrun : ReapplyFailed id s = (s', r)) :
  match r with
  | Err _ => s' = s
  | Ok _ => exists a, a ∈ applies s /\ a_ID a = id /\ a_State a = Apply.Failed /\
      (exists t, a_CompletedAt a = Some t /\ now s - day <= t) /\ clear s a /\
      (forall o, o ∈ operations s -> op_ApplyID o = id ->
         op_State o ∉ [Apply.Stopped; Apply.Cancelled; Apply.Reverted]) /\
      (exists a', a' ∈ applies s' /\ a_ID a' = id /\ a_Attempt a' = 0 /\ a_LeaseToken a' = "" /\
         claimableApply s' a' = true) /\
      (forall o, o ∈ operations s -> op_ApplyID o = id -> op_State o = Apply.Failed ->
         exists o', o' ∈ operations s' /\ op_ID o' = op_ID o /\ claimableOperation s' o' = true)
  end.
Proof.
  unfold ReapplyFailed in Hrun. destruct (findApply id s) as [a|] eqn:Ef; [|by simplify_eq].
  apply find_some in Ef as [Ha%list_elem_of_In Eid%Z.eqb_eq].
  destruct (negb _); [by simplify_eq|]. destruct (a_CompletedAt a) as [c|] eqn:Ecm; [|by simplify_eq].
  destruct (Z.ltb_spec c (now s - ReapplyFailureFreshnessDays * day)) as [|Hc]; [by simplify_eq|].
  rewrite (applyTargetForUpdate_stored s a a) in Hrun by done.
  destruct (_ || _); [by simplify_eq|]. rewrite <- Eid in *.
  destruct (checkNoActiveApplyForTargets _ _ _ _ _ _) as [[]|e] eqn:Ec; [|by simplify_eq].
  apply check_row_clear in Ec. unfold rejectNonReappliableOperations in Hrun.
  destruct (existsb (fun o => _ && oneOf _ _) _) eqn:Erej; [by simplify_eq|].
  destruct (existsb _ (applies s)) eqn:Eex; [|by simplify_eq].
  injection Hrun as <- <-. apply existsb_elem in Eex as (x & Hx & [Hxi%Z.eqb_eq Hxs%eqb_true_iff]%andb_true_iff).
  rewrite (row_unique a_ID _ x a (wf_nodup _ Hwf) Hx Ha Hxi) in Hxs.
  exists a. split; [done|]. split; [done|]. split; [done|]. split.
  { exists c. split; [done|]. unfold ReapplyFailureFreshnessDays in Hc. lia. }
  split; [done|]. split.
  { intros o Ho Hoa Hos%oneOf_elem. apply not_true_iff_false in Erej. apply Erej.
    apply (existsb_row _ _ o Ho). by rewrite Hoa, Z.eqb_refl. }
  destruct (reapplyRow_fields s a) as (F1 & F2 & F3 & F4 & F5). set (f := reapplyRow s) in *.
  unfold reapplyWrites. fold f.
  set (p := fun a0 : Apply => (a_ID a0 =? a_ID a) && (a_State a0 == Apply.Failed)).
  match goal with |- context [updateApplies p f ?x] => set (s2 := x) end.
  assert (Hfa : f a ∈ applies (updateApplies p f s2)).
  { apply in_updateApplies; [done|]. unfold p. by rewrite Hxs, Z.eqb_refl. }
  assert (Hfresh : (now s - retryableRecoveryFreshnessDays * day <=? now s) = true)
    by (apply Z.leb_le; unfold retryableRecoveryFreshnessDays, day; lia).
  split.
  - exists (f a). repeat (split; [done|]). apply (retryable_claimable _ (f a)); [done|by rewrite F3|].
    rewrite F5. exact Hfresh.
  - intros o Ho Hoa Hos. destruct (reapplyOp_fields s o) as (G1 & G2 & G3).
    exists (reapplyOp s o). split; [|split; [done|]].
    + change (operations (updateApplies p f s2)) with (operations s2). unfold s2.
      rewrite operations_updateOps. apply list_elem_of_fmap. exists o.
      by rewrite Hoa, Hos, Z.eqb_refl.
    + apply (retryable_operation_claimable _ _ (f a) Hfa); [done|congruence|done|by rewrite F3|].
      rewrite F5. exact Hfresh.
Qed.

Lemma reapply_makes_claimable_witness :
  let a := set_a_CompletedAt (Some 900) (exampleApply Apply.Failed) in
  let o := exampleOp 1 "us" Apply.Failed CutoverPolicyRolling OnFailureHalt in
  let s := exampleStore a [o] [] in
  exists o', o' ∈ operations (ReapplyFailed 1 s).1 /\ op_ID o' = 1 /\
    claimableOperation (ReapplyFailed 1 s).1 o' = true.
Proof.
  intros a o s.
  destruct (reapply_makes_claimable s (ReapplyFailed 1 s).1 1 (ReapplyFailed 1 s).2)
    as (b & _ & _ & _ & _ & _ & _ & _ & Hop).
  - apply exampleStore_wf; [reflexivity|]. intros x Hx. apply list_elem_of_singleton in Hx as ->.
    reflexivity.
  - apply surjective_pairing.
  - apply (Hop o); [by left|reflexivity|reflexivity].
Defined.

(** The projection's compare-and-swap.  UpdateDerivedState writes the apply row
    exactly when the caller still holds the lease it presents and the row is in the
    state the projection was computed from, and then reports a swap, also when the
    write changes no column; a lost lease is an error and a row in another state
    reports no swap, both without a change. *)
Theorem derived_state_cas (foundRows : bool) (ctx : leaseCtx) (id : Z)
    (expected new msg : string) (started completed : option Z) (s : store)
    (Hwf : applies_wf s) (Hexp : expected ∈ applyStates) (Hnew : new ∈ applyStates)
    (Hst : forall a, a ∈ applies s -> a_State a ∈ applyStates) :
  run (UpdateDerivedState foundRows ctx id expected new msg started completed) s =
    match derivedStateGuardForContext ctx id with
    | Err e => (s, Err e)
    | Ok g =>
        if negb (ensureStillOwned g s) then (s, Err ErrApplyLeaseLost) else
        match findApply id s with
        | None => (s, Ok false)
        | Some a =>
            if a_State a == expected
            then (updateApplies (fun x => a_ID x =? id) (derivedSet new msg started completed s) s,
                  Ok true)
            else (s, Ok false)
        end
    end.
Proof. by apply UpdateDerivedState_run. Qed.

Lemma derived_state_cas_witness :
  let s := exampleStore (exampleApply Apply.Running) [] [] in
  let ctx := {| ApplyLeaseFromContext := None; OperationLeaseFromContext := None |} in
  run (UpdateDerivedState true ctx 1 Apply.Running Apply.Completed "" None (Some 1000)) s =
    (updateApplies (fun x => a_ID x =? 1) (derivedSet Apply.Completed "" None (Some 1000) s) s,
     Ok true).
Proof.
  intros s ctx. apply (derived_state_cas true ctx 1 Apply.Running Apply.Completed "" None (Some 1000) s).
  - apply exampleStore_wf; [reflexivity|apply no_operations].
  - apply oneOf_elem. reflexivity.
  - apply oneOf_elem. reflexivity.
  - intros a Ha. apply list_elem_of_singleton in Ha as ->. apply oneOf_elem. reflexivity.
Defined.
