(* ===== verification/Control.v ===== *)
(** * Control requests and the release latch

    mysqlstore/control_requests.go: the durable user intents (start, stop,
    release, ...) of an apply, one row per apply and operation, and
    storage/release_latch.go: whether a rollout paused by a failure was released.
    A request reads the row of its key under a row lock; when there is none the
    read locks nothing, so the insert is a statement of its own and two
    first-time callers may race for the unique key. *)

From S2P Require Import Prelude State Sql Locks Store Operations.

Local Open Scope string_scope.
Local Open Scope Z_scope.

(** ** The store *)

Definition findRequest (s : store) (applyID : Z) (operation : string) : option ApplyControlRequest :=
  find (fun cr => (cr_ApplyID cr =? applyID) && (cr_Operation cr == operation)) (controls s).

(** The locking read of requestPending, with the reset of a settled request. *)
Definition requestExisting (req : ApplyControlRequest) (s : store)
    : store * res (option (ApplyControlRequest * bool)) :=
  match findRequest s (cr_ApplyID req) (cr_Operation req) with
  | None => (s, Ok None)
  | Some existing =>
      if cr_Status existing == ControlRequestPending then (s, Ok (Some (existing, true))) else
      let set cr := set_cr_Status ControlRequestPending (set_cr_RequestedBy (cr_RequestedBy req)
                      (set_cr_ErrorMessage None (set_cr_Metadata (nullJSON (cr_Metadata req))
                      (set_cr_CompletedAt None (set_cr_UpdatedAt (now s) cr))))) in
      (updateControls (fun cr => cr_ID cr =? cr_ID existing) set s, Ok (Some (set existing, false)))
  end.

(** INSERT under the unique key on apply and operation. *)
Definition insertRequest (req : ApplyControlRequest) (s : store) : store * res ApplyControlRequest :=
  match findRequest s (cr_ApplyID req) (cr_Operation req) with
  | Some _ => (s, Err (SqlErr mysqlErrDuplicateKey))
  | None =>
      let row :=
        {| cr_ID := nextID s; cr_ApplyID := cr_ApplyID req; cr_Operation := cr_Operation req;
           cr_Status := ControlRequestPending; cr_RequestedBy := cr_RequestedBy req;
           cr_ErrorMessage := nullString (default "" (cr_ErrorMessage req));
           cr_Metadata := nullJSON (cr_Metadata req); cr_CompletedAt := None;
           cr_CreatedAt := now s; cr_UpdatedAt := now s |} in
      ({| applies := applies s; operations := operations s; controls := controls s ++ [row];
          tasks := tasks s; locks := locks s; nextID := nextID s + 1; now := now s |}, Ok row)
  end.

(** [Ok (req, alreadyPending)] *)
Definition requestPending (req : ApplyControlRequest)
    : prog store (res (ApplyControlRequest * bool)) :=
  Exec (requestExisting req) (fun r => match r with
    | Err e => Ret (Err e)
    | Ok (Some result) => Ret (Ok result)
    | Ok None =>
        Exec (insertRequest req) (fun r => Ret match r with
          | Err e => Err e
          | Ok created => Ok (created, false)
          end)
    end).

Definition RequestPending (req : ApplyControlRequest)
    : prog store (res (ApplyControlRequest * bool)) :=
  withLockRetry (pbind (requestPending req) (fun r => match r with
    | Ok result => Ret (Ok result)
    | Err e => if negb (isDuplicateKeyError e) then Ret (Err e) else requestPending req
    end)).

Definition GetPending (applyID : Z) (operation : string) (s : store) : option ApplyControlRequest :=
  find (fun cr => (cr_ApplyID cr =? applyID) && (cr_Operation cr == operation) &&
                  (cr_Status cr == ControlRequestPending)) (controls s).

Definition GetByOperation (applyID : Z) (operation : string) (s : store)
    : option ApplyControlRequest := findRequest s applyID operation.

(** The UPDATE that CompletePending and FailPending share, up to its SET clause. *)
Definition settlePending (foundRows : bool) (ctx : leaseCtx) (applyID : Z) (operation : string)
    (set : ApplyControlRequest -> ApplyControlRequest) : prog store (res unit) :=
  match applyLeaseFromContext ctx applyID with
  | Err e => Ret (Err e)
  | Ok lease =>
      Exec (fun s =>
        let p cr := (cr_ApplyID cr =? applyID) && (cr_Operation cr == operation) &&
                    (cr_Status cr == ControlRequestPending) &&
                    match lease with
                    | Some l => applyTokenIs s (cr_ApplyID cr) (al_Token l)
                    | None => true
                    end in
        let f cr := set (set_cr_CompletedAt (COALESCE (cr_CompletedAt cr) (Some (now s)))
                          (set_cr_UpdatedAt (now s) cr)) in
        (updateControls p f s, Ok (affected foundRows p f (controls s))))
      (fun r => match r with
       | Err e => Ret (Err e)
       | Ok rows =>
           match lease with
           | None => Ret (Ok tt)
           | Some l => pbind (confirmLeaseOnZeroRows rows l)
                         (fun r => Ret (match r with Ok _ => Ok tt | Err e => Err e end))
           end
       end)
  end.

Definition CompletePending (foundRows : bool) (ctx : leaseCtx) (applyID : Z) (operation : string)
    : prog store (res unit) :=
  settlePending foundRows ctx applyID operation (set_cr_Status ControlRequestCompleted).

Definition FailPending (foundRows : bool) (ctx : leaseCtx) (applyID : Z)
    (operation errorMessage : string) : prog store (res unit) :=
  settlePending foundRows ctx applyID operation
    (fun cr => set_cr_Status ControlRequestFailed (set_cr_ErrorMessage (nullString errorMessage) cr)).

(** ** The release latch *)

Definition ReleasesPausedRollout (r : option ApplyControlRequest) : bool :=
  match r with
  | None => false
  | Some r => (cr_Operation r == ControlOperationRelease) &&
              ((cr_Status r == ControlRequestPending) || (cr_Status r == ControlRequestCompleted))
  end.

Definition AnyPauseOnFailure (ops : list ApplyOperation) : bool :=
  existsb (fun op => op_OnFailure op == OnFailurePause) ops.

(** [stor] and its control-request store are present. *)
Definition ReleaseLatched (applyID : Z) (ops : list ApplyOperation) : prog store (res bool) :=
  if negb (AnyPauseOnFailure ops) then Ret (Ok false) else
  Exec (read (GetByOperation applyID ControlOperationRelease)) (fun r => Ret match r with
    | Err e => Err e
    | Ok req => Ok (ReleasesPausedRollout req)
    end).

(** ** One row per apply and operation *)

Definition requestKey (cr : ApplyControlRequest) : Z * string := (cr_ApplyID cr, cr_Operation cr).

Record controls_wf (s : store) : Prop := {
  cw_keys : NoDup (requestKey <$> controls s);
  cw_ids : NoDup (cr_ID <$> controls s);
  cw_next : forall cr, cr ∈ controls s -> cr_ID cr < nextID s;
}.

Lemma findRequest_Some s id op cr :
  findRequest s id op = Some cr -> cr ∈ controls s /\ requestKey cr = (id, op).
Proof.
  intros H. apply find_some in H as [Hin H]. split; [by apply list_elem_of_In|].
  unfold requestKey. reflect_guards. congruence.
Qed.

Lemma findRequest_None s id op cr :
  findRequest s id op = None -> cr ∈ controls s -> requestKey cr <> (id, op).
Proof.
  intros H Hin E. unfold requestKey in E. simplify_eq. apply list_elem_of_In in Hin.
  pose proof (find_none _ _ H cr Hin) as Hn. cbn in Hn. by rewrite Z.eqb_refl, eqb_refl' in Hn.
Qed.

(** A row of a table with unique keys is the row its key finds. *)
Lemma findRequest_row s cr :
  NoDup (requestKey <$> controls s) -> cr ∈ controls s ->
  findRequest s (cr_ApplyID cr) (cr_Operation cr) = Some cr.
Proof.
  intros Hnd Hin. destruct (findRequest s _ _) as [x|] eqn:E.
  - apply findRequest_Some in E as [Hx E]. f_equal.
    revert Hnd Hx Hin E. generalize (controls s). induction l as [|y l IH]; [by intros _ ?%elem_of_nil|].
    cbn. rewrite NoDup_cons. intros [Hy Hnd] Hx Hc E.
    apply elem_of_cons in Hx as [->|Hx], Hc as [->|Hc]; [done| | |by apply IH].
    + destruct Hy. rewrite E. change (cr_ApplyID cr, cr_Operation cr) with (requestKey cr).
      by apply list_elem_of_fmap_2.
    + destruct Hy. change (requestKey y) with (cr_ApplyID y, cr_Operation y). rewrite <- E.
      by apply list_elem_of_fmap_2.
  - by destruct (findRequest_None s _ _ cr E Hin).
Qed.

Lemma controls_wf_update (p : ApplyControlRequest -> bool) f s :
  (forall cr, requestKey (f cr) = requestKey cr /\ cr_ID (f cr) = cr_ID cr) ->
  controls_wf s -> controls_wf (updateControls p f s).
Proof.
  intros Hf [Hk Hi Hn].
  assert (Hg : forall cr, requestKey (if p cr then f cr else cr) = requestKey cr /\
                          cr_ID (if p cr then f cr else cr) = cr_ID cr).
  { intros cr. destruct (p cr); [apply Hf|done]. }
  split; cbn [updateControls set_controls controls nextID].
  - rewrite <- list_fmap_compose. rewrite (list_fmap_ext _ requestKey); [done|].
    intros i cr _. apply Hg.
  - rewrite <- list_fmap_compose. rewrite (list_fmap_ext _ cr_ID); [done|]. intros i cr _. apply Hg.
  - intros cr (x & -> & Hx)%list_elem_of_fmap. destruct (Hg x) as [_ ->]. by apply Hn.
Qed.

Lemma insertRequest_wf req s : controls_wf s -> controls_wf (insertRequest req s).1.
Proof.
  intros Hw. unfold insertRequest. destruct (findRequest s _ _) as [x|] eqn:E; [done|].
  destruct Hw as [Hk Hi Hn]. split; cbn [fst controls nextID].
  - rewrite fmap_app, NoDup_app. split; [done|]. split; [|apply NoDup_singleton].
    intros k Hk' Hin. apply list_elem_of_singleton in Hin as ->.
    apply list_elem_of_fmap in Hk' as (cr & Ecr & Hcr).
    by apply (findRequest_None s _ _ cr E Hcr).
  - rewrite fmap_app, NoDup_app. split; [done|]. split; [|apply NoDup_singleton].
    intros k Hk' Hin. apply list_elem_of_singleton in Hin as ->.
    apply list_elem_of_fmap in Hk' as (cr & Ecr & Hcr). specialize (Hn cr Hcr). cbn in Ecr. lia.
  - intros cr [Hcr|Hcr]%elem_of_app; [specialize (Hn cr Hcr); lia|].
    apply list_elem_of_singleton in Hcr as ->. cbn. lia.
Qed.

Lemma requestExisting_wf req s : controls_wf s -> controls_wf (requestExisting req s).1.
Proof.
  intros Hw. unfold requestExisting. destruct (findRequest s _ _) as [x|]; [|done].
  destruct (_ == _); [done|]. by apply controls_wf_update.
Qed.

Lemma requestPending_preserves req : preserves controls_wf (requestPending req).
Proof.
  split; [apply requestExisting_wf|]. intros [[r|]|e]; [done| |done].
  split; [apply insertRequest_wf|done].
Qed.

Lemma RequestPending_preserves req : preserves controls_wf (RequestPending req).
Proof.
  apply retryLoop_preserves. apply preserves_bind; [apply requestPending_preserves|].
  intros [r|e]; [done|]. destruct (negb _); [done|apply requestPending_preserves].
Qed.

Lemma settlePending_preserves I foundRows ctx id op set :
  (forall p s, I s -> I (updateControls p (fun cr => set
     (set_cr_CompletedAt (COALESCE (cr_CompletedAt cr) (Some (now s))) (set_cr_UpdatedAt (now s) cr))) s)) ->
  preserves I (settlePending foundRows ctx id op set).
Proof.
  intros H. unfold settlePending. destruct (applyLeaseFromContext ctx id) as [lease|e]; [|done].
  split; [intros s Hs; by apply H|]. intros [rows|e]; [|done]. destruct lease as [l|]; [|done].
  apply preserves_bind; [|done]. unfold confirmLeaseOnZeroRows. destruct (rows =? 0); [|done].
  by split.
Qed.

(** The release latch is kept by writes that only complete or reset requests. *)
Lemma latched_update (p : ApplyControlRequest -> bool) f s id :
  (forall cr, cr ∈ controls s -> p cr = true -> cr_Operation cr = ControlOperationRelease ->
     cr_ApplyID (f cr) = cr_ApplyID cr /\ cr_Operation (f cr) = cr_Operation cr /\
     cr_Status (f cr) ∈ [ControlRequestPending; ControlRequestCompleted]) ->
  releaseLatched s id = true -> releaseLatched (updateControls p f s) id = true.
Proof.
  intros Hf. unfold releaseLatched. rewrite !hasRequest_spec. intros (cr & Hin & <- & E2 & E3).
  exists (if p cr then f cr else cr). split; [by apply list_elem_of_fmap; exists cr|].
  destruct (p cr) eqn:Ep; [|done]. destruct (Hf cr Hin Ep E2) as (-> & -> & ?). done.
Qed.

Lemma latched_request req s id :
  releaseLatched s id = true -> releaseLatched (requestExisting req s).1 id = true.
Proof.
  intros H. unfold requestExisting. destruct (findRequest s _ _) as [x|]; [|done].
  destruct (_ == _); [done|]. apply latched_update; [|done]. intros cr _ _ _.
  repeat (split; [done|]). by left.
Qed.

Lemma latched_insert req s id :
  releaseLatched s id = true -> releaseLatched (insertRequest req s).1 id = true.
Proof.
  intros H. unfold insertRequest. destruct (findRequest s _ _) as [x|]; [done|].
  unfold releaseLatched in *. apply hasRequest_spec in H as (cr & Hin & H). apply hasRequest_spec.
  exists cr. split; [|done]. apply elem_of_app. by left.
Qed.

Lemma latched_RequestPending req id :
  preserves (fun s => releaseLatched s id = true) (RequestPending req).
Proof.
  assert (Hr : preserves (fun s => releaseLatched s id = true) (requestPending req)).
  { split; [intros s; apply latched_request|]. intros [[r|]|e]; [done| |done].
    split; [intros s; apply latched_insert|done]. }
  apply retryLoop_preserves. apply preserves_bind; [done|]. intros [r|e]; [done|]. by destruct (negb _).
Qed.

(** The calls of the control request store; [latchSafe] leaves out the failing of
    a release. *)
Inductive controlCall (foundRows : bool) : prog store unit -> Prop :=
| call_RequestPending req : controlCall foundRows (pbind (RequestPending req) (fun _ => Ret tt))
| call_CompletePending ctx id op :
    controlCall foundRows (pbind (CompletePending foundRows ctx id op) (fun _ => Ret tt))
| call_FailPending ctx id op msg :
    controlCall foundRows (pbind (FailPending foundRows ctx id op msg) (fun _ => Ret tt)).

Inductive latchSafe (foundRows : bool) : prog store unit -> Prop :=
| safe_RequestPending req : latchSafe foundRows (pbind (RequestPending req) (fun _ => Ret tt))
| safe_CompletePending ctx id op :
    latchSafe foundRows (pbind (CompletePending foundRows ctx id op) (fun _ => Ret tt))
| safe_FailPending ctx id op msg :
    op <> ControlOperationRelease ->
    latchSafe foundRows (pbind (FailPending foundRows ctx id op msg) (fun _ => Ret tt)).

Lemma controlCall_preserves foundRows p : controlCall foundRows p -> preserves controls_wf p.
Proof.
  intros [req|ctx id op|ctx id op msg]; apply preserves_bind; try done;
    [apply RequestPending_preserves|apply settlePending_preserves..];
    intros q s; by apply controls_wf_update.
Qed.

Lemma latchSafe_preserves foundRows p id :
  latchSafe foundRows p -> preserves (fun s => releaseLatched s id = true) p.
Proof.
  intros [req|ctx id' op|ctx id' op msg Hop]; (apply preserves_bind; [|done]).
  - apply latched_RequestPending.
  - apply settlePending_preserves. intros q s. apply latched_update. intros cr _ _ _.
    repeat (split; [done|]). right. by left.
  - unfold FailPending, settlePending. destruct (applyLeaseFromContext ctx id') as [lease|e]; [|done].
    split.
    + intros s. apply latched_update. intros cr _ Hp Hr. reflect_guards. congruence.
    + intros [rows|e]; [|done]. destruct lease as [l|]; [|done]. apply preserves_bind; [|done].
      unfold confirmLeaseOnZeroRows. destruct (rows =? 0); [|done]. by split.
Qed.

Lemma find_fmap {R} (p : R -> bool) f (l : list R) :
  (forall r, p (f r) = p r) -> find p (f <$> l) = f <$> find p l.
Proof.
  intros H. induction l as [|r l IH]; [done|]. cbn. rewrite H. destruct (p r); [done|apply IH].
Qed.

Lemma findRequest_update (p : ApplyControlRequest -> bool) f s id op :
  (forall cr, requestKey (f cr) = requestKey cr) ->
  findRequest (updateControls p f s) id op =
    (fun cr => if p cr then f cr else cr) <$> findRequest s id op.
Proof.
  intros Hf. apply find_fmap. intros cr. destruct (p cr); [|done].
  specialize (Hf cr). unfold requestKey in Hf. by injection Hf as -> ->.
Qed.

Lemma GetPending_find s id op :
  NoDup (requestKey <$> controls s) ->
  GetPending id op s =
    match findRequest s id op with
    | Some cr => if cr_Status cr == ControlRequestPending then Some cr else None
    | None => None
    end.
Proof.
  intros Hnd. unfold GetPending. destruct (find _ _) as [y|] eqn:Ef.
  - apply find_some in Ef as [Hy%list_elem_of_In Hp]. apply andb_true_iff in Hp as [Hp Hs].
    apply andb_true_iff in Hp as [H1%Z.eqb_eq H2%eqb_true_iff]. subst.
    by rewrite (findRequest_row s y Hnd Hy), Hs.
  - destruct (findRequest s id op) as [x|] eqn:E; [|done].
    apply findRequest_Some in E as [Hx Hk]. apply list_elem_of_In in Hx.
    pose proof (find_none _ _ Ef x Hx) as Hn. cbn in Hn. unfold requestKey in Hk.
    injection Hk as K1 K2. rewrite K1, K2, Z.eqb_refl, eqb_refl' in Hn. cbn in Hn. by rewrite Hn.
Qed.

Lemma findRequest_app s row id op s' :
  controls s' = (controls s ++ [row])%list -> findRequest s (cr_ApplyID row) (cr_Operation row) = None ->
  findRequest s' id op =
    if decide ((id, op) = requestKey row) then Some row else findRequest s id op.
Proof.
  intros E Hn. unfold findRequest in *. rewrite E. clear E. case_decide as Ek.
  - unfold requestKey in Ek. injection Ek as -> ->. revert Hn. induction (controls s) as [|x l IH]; cbn.
    + by rewrite Z.eqb_refl, eqb_refl'.
    + destruct (_ && _); [done|apply IH].
  - clear Hn. induction (controls s) as [|x l IH]; cbn.
    + destruct (_ && _) eqn:Eb; [|done]. reflect_guards. destruct Ek. unfold requestKey. congruence.
    + destruct (_ && _); [done|apply IH].
Qed.

(** Alone, a request is one attempt. *)
Lemma RequestPending_run req s :
  run (RequestPending req) s =
    match requestExisting req s with
    | (s', Ok (Some r)) => (s', Ok r)
    | (s', Ok None) => match insertRequest req s' with
                       | (s'', Ok row) => (s'', Ok (row, false))
                       | (s'', Err e) => (s'', Err e)
                       end
    | (s', Err e) => (s', Err e)
    end.
Proof.
  assert (E : forall n, fst (runE (fun _ => quiet) n (pbind (requestPending req) (fun r => match r with
      | Ok result => Ret (Ok result)
      | Err e => if negb (isDuplicateKeyError e) then Ret (Err e) else requestPending req
      end)) s) = match requestExisting req s with
    | (s', Ok (Some r)) => (s', Ok r)
    | (s', Ok None) => match insertRequest req s' with
                       | (s'', Ok row) => (s'', Ok (row, false))
                       | (s'', Err e) => (s'', Err e)
                       end
    | (s', Err e) => (s', Err e)
    end).
  { intros n. rewrite runE_quiet. rewrite run_bind. unfold requestPending. rewrite !run_Exec.
    unfold requestExisting. destruct (findRequest s _ _) as [x|] eqn:Ef.
    - by destruct (_ == _).
    - cbn [fst snd]. rewrite !run_Exec. unfold insertRequest. rewrite Ef. done. }
  unfold run, RequestPending. rewrite withLockRetry_first; [apply E|]. specialize (E 0%nat).
  destruct (runE _ 0 _ s) as [[s' r] n]. cbn in E |- *.
  unfold requestExisting in E. destruct (findRequest s _ _) as [x|] eqn:Ef.
  - destruct (_ == _); by injection E as _ ->.
  - unfold insertRequest in E. rewrite Ef in E. by injection E as _ ->.
Qed.

(** ** Properties *)

(** One durable request per intent.  In every interleaving of the calls of the
    control request store, with failing statements, a store with at most one row
    per apply and operation keeps at most one: two rows of the same apply and
    operation are the same row. *)
Theorem control_requests_unique (foundRows : bool) (ps ps' : list (prog store unit)) (s s' : store) :
  Forall (controlCall foundRows) ps -> controls_wf s -> rtc pool_step (ps, s) (ps', s') ->
  forall c d, c ∈ controls s' -> d ∈ controls s' -> cr_ApplyID c = cr_ApplyID d ->
    cr_Operation c = cr_Operation d -> c = d.
Proof.
  intros Hps Hw Hrun c d Hc Hd E1 E2.
  destruct (pool_invariant controls_wf _ _ Hrun) as [_ Hw']; [|done|].
  - eapply Forall_impl; [exact Hps|]. apply controlCall_preserves.
  - pose proof (findRequest_row _ c (cw_keys _ Hw') Hc) as F1.
    pose proof (findRequest_row _ d (cw_keys _ Hw') Hd) as F2.
    rewrite E1, E2 in F1. cbn [snd] in *. congruence.
Qed.

Lemma control_requests_unique_witness :
  let req := exampleRequest ControlOperationStop "" in
  let s := exampleStore (exampleApply Apply.Running) [] [] in
  let s' := (insertRequest req s).1 in
  forall c d, c ∈ controls s' -> d ∈ controls s' -> cr_ApplyID c = cr_ApplyID d ->
    cr_Operation c = cr_Operation d -> c = d.
Proof.
  intros req s s'. eapply (control_requests_unique true
    [pbind (RequestPending req) (fun _ => Ret tt)] _ s s').
  - constructor; [apply call_RequestPending|constructor].
  - split; cbn; [apply NoDup_nil_2..|]. intros cr H. by apply elem_of_nil in H.
  - eapply rtc_l; [apply (pool_exec [] [])|]. eapply rtc_l; [apply (pool_exec [] [])|].
    apply rtc_refl.
Defined.

(** The race of two first requests.  When another caller inserts the request
    between this caller's read and its insert, this caller's duplicate-key error
    is turned into a re-read: it returns the winner's row as already pending and
    changes nothing. *)
Theorem request_race_loser_joins (env : nat -> envStep store) (req win : ApplyControlRequest)
    (s : store) :
  let s0 := interfere (env 0%nat) s in
  let s1 := interfere (env 1%nat) s0 in
  let s2 := interfere (env 2%nat) s1 in
  (forall n, fault (env n) = None) ->
  findRequest s0 (cr_ApplyID req) (cr_Operation req) = None ->
  (exists w, findRequest s1 (cr_ApplyID req) (cr_Operation req) = Some w) ->
  findRequest s2 (cr_ApplyID req) (cr_Operation req) = Some win ->
  cr_Status win = ControlRequestPending ->
  runE env 0 (RequestPending req) s = (s2, Ok (win, true), 3%nat).
Proof.
  intros s0 s1 s2 Hf H0 [w H1] H2 Hp. unfold RequestPending.
  assert (E : runE env 0 (pbind (requestPending req) (fun r => match r with
      | Ok result => Ret (Ok result)
      | Err e => if negb (isDuplicateKeyError e) then Ret (Err e) else requestPending req
      end)) s = (s2, Ok (win, true), 3%nat)).
  { cbn [requestPending pbind runE]. rewrite Hf. fold s0. unfold requestExisting at 1. rewrite H0.
    cbn [runE pbind]. rewrite Hf. fold s1. unfold insertRequest. rewrite H1. cbn.
    rewrite Hf. fold s2. unfold requestExisting. rewrite H2, Hp. done. }
  rewrite withLockRetry_first; rewrite E; done.
Qed.

Lemma request_race_loser_joins_witness :
  let req := exampleRequest ControlOperationStop "" in
  let s := exampleStore (exampleApply Apply.Running) [] [] in
  let env n := {| interfere := if (n =? 1)%nat then fun s => (insertRequest req s).1 else fun s => s;
                  fault := None |} in
  exists s' win, runE env 0 (RequestPending req) s = (s', Ok (win, true), 3%nat).
Proof.
  intros req s env. eexists _, _.
  apply (request_race_loser_joins env req
           (default req (head (controls (insertRequest req s).1))) s).
  - intros n. reflexivity.
  - reflexivity.
  - eexists. reflexivity.
  - reflexivity.
  - reflexivity.
Defined.

(** The release latch is one-way and both readers agree on it.  Once a release
    is pending or completed, no interleaving of requests, completions and failures
    of other intents closes the latch again; and what the projection reads through
    ReleaseLatched is what the claim gates' SQL reads, for a rollout that uses the
    pause policy at all. *)
Theorem release_latch_one_way (foundRows : bool) (ps ps' : list (prog store unit)) (s s' : store)
    (id : Z) (ops : list ApplyOperation) :
  Forall (latchSafe foundRows) ps -> releaseLatched s id = true ->
  rtc pool_step (ps, s) (ps', s') ->
  releaseLatched s' id = true /\
  (NoDup (requestKey <$> controls s') ->
   run (ReleaseLatched id ops) s' = (s', Ok (AnyPauseOnFailure ops && releaseLatched s' id))).
Proof.
  intros Hps Hl Hrun.
  destruct (pool_invariant (fun s => releaseLatched s id = true) _ _ Hrun) as [_ Hl']; [|done|].
  { eapply Forall_impl; [exact Hps|]. intros p. apply latchSafe_preserves. }
  cbn [snd] in Hl'. split; [done|]. intros Hk. unfold ReleaseLatched.
  destruct (AnyPauseOnFailure ops); [|done]. cbn [negb andb]. rewrite run_Exec. cbn [read fst snd].
  rewrite run_Ret, Hl'. unfold GetByOperation. unfold releaseLatched in Hl'.
  apply hasRequest_spec in Hl' as (cr & Hin & <- & E2 & E3).
  rewrite <- E2 at 1. rewrite (findRequest_row _ cr Hk Hin). unfold ReleasesPausedRollout.
  rewrite E2, eqb_refl'. by elem_cases E3; match goal with H : cr_Status cr = _ |- _ => rewrite H | _ => idtac end.
Qed.

Lemma release_latch_one_way_witness :
  let s := exampleStore (exampleApply Apply.Paused) []
             [exampleRequest ControlOperationRelease ControlRequestPending] in
  let noLease := {| ApplyLeaseFromContext := None; OperationLeaseFromContext := None |} in
  let s' := (run (CompletePending true noLease 1 ControlOperationRelease) s).1 in
  s' <> s /\ releaseLatched s' 1 = true.
Proof.
  intros s noLease s'. split; [discriminate|].
  refine (proj1 (release_latch_one_way true
    [pbind (CompletePending true noLease 1 ControlOperationRelease) (fun _ => Ret tt)] _ s s' 1 []
    _ _ _)).
  - constructor; [apply safe_CompletePending|constructor].
  - reflexivity.
  - eapply rtc_l; [apply (pool_exec [] [])|]. apply rtc_refl.
Defined.

(** A request is durable and idempotent.  On a store with unique keys a
    request always succeeds, and afterwards the request it returns is the pending
    one of its apply and operation.  It reports an earlier pending request exactly
    when there was one, and then changes nothing; otherwise the pending row carries
    the new requester and metadata, with no error and no completion time left from
    an earlier settled request.  Requests of other keys are untouched. *)
Theorem request_pending_contract (req : ApplyControlRequest) (s : store) (Hw : controls_wf s) :
  exists s' r already,
    run (RequestPending req) s = (s', Ok (r, already)) /\
    GetPending (cr_ApplyID req) (cr_Operation req) s' = Some r /\
    already = bool_decide (GetPending (cr_ApplyID req) (cr_Operation req) s <> None) /\
    (already = true -> s' = s) /\
    (already = false -> cr_RequestedBy r = cr_RequestedBy req /\
       cr_Metadata r = nullJSON (cr_Metadata req) /\ cr_CompletedAt r = None) /\
    (forall id op, (id, op) <> requestKey req -> findRequest s' id op = findRequest s id op).
Proof.
  rewrite RequestPending_run. rewrite (GetPending_find s) by apply Hw.
  pose proof (requestExisting_wf req s Hw) as Hw1. unfold requestExisting in *.
  destruct (findRequest s (cr_ApplyID req) (cr_Operation req)) as [x|] eqn:Ef.
  - destruct (cr_Status x == ControlRequestPending) eqn:Es.
    + exists s, x, true. split; [done|]. rewrite (GetPending_find s) by apply Hw.
      by rewrite Ef, Es, bool_decide_eq_true_2.
    + eexists _, _, false. split; [reflexivity|]. cbn [fst] in Hw1. split.
      { rewrite GetPending_find by apply Hw1. rewrite findRequest_update by done.
        rewrite Ef. cbn [fmap option_fmap option_map]. by rewrite Z.eqb_refl. }
      split; [done|]. split; [done|]. split; [done|]. intros id op Hne.
      rewrite findRequest_update by done. destruct (findRequest s id op) as [y|] eqn:Ey; [|done].
      cbn. destruct (Z.eqb_spec (cr_ID y) (cr_ID x)) as [E|]; [|done].
      apply findRequest_Some in Ef as [Hx Kx], Ey as [Hy Ky]. destruct Hne.
      rewrite <- Ky, (row_unique cr_ID _ y x (cw_ids _ Hw) Hy Hx E). exact Kx.
  - pose proof (insertRequest_wf req s Hw) as Hw2. unfold insertRequest in *. rewrite Ef in *.
    eexists _, _, false. split; [reflexivity|]. cbn [fst] in Hw2. split.
    { rewrite GetPending_find by apply Hw2.
      erewrite (findRequest_app s); [|reflexivity|exact Ef]. by rewrite decide_True. }
    split; [done|]. split; [done|]. split; [done|]. intros id op Hne.
    erewrite (findRequest_app s); [|reflexivity|exact Ef]. by rewrite decide_False.
Qed.

Lemma exampleStore_controls_wf a os : controls_wf (exampleStore a os []).
Proof. split; cbn; [apply NoDup_nil_2..|]. intros cr H. by apply elem_of_nil in H. Defined.

Lemma request_pending_contract_witness :
  let s := exampleStore (exampleApply Apply.Running) [] [] in
  exists s' r already, run (RequestPending (exampleRequest ControlOperationStop "")) s =
    (s', Ok (r, already)) /\ GetPending 1 ControlOperationStop s' = Some r.
Proof.
  intros s.
  destruct (request_pending_contract (exampleRequest ControlOperationStop "") s
              (exampleStore_controls_wf _ _)) as (s' & r & b & H1 & H2 & _).
  by exists s', r, b.
Defined.
