(* ===== verification/Projection.v ===== *)
(** * The rollout projection and the operator's settlements (pkg/api/operator.go)

    The operator settles a driven operation row from a derived state
    ([persistOperationState]) and then the parent apply from all its operation
    rows ([updateApplyStateFromOperations]), under the policy-aware aggregate of
    State.v, the release latch of Control.v and the compare-and-swap of Applies.v.
    Also here: the reconciliation of an operation with a terminal parent, the stop
    settlements, and the cutover-barrier predicates of pkg/tern/cutover_barrier.go.
    Logging and metrics are left out; [clockNow] is the service clock.  A function
    that returns no error in Go (it logs) is a [prog store unit] here. *)

From S2P Require Import Prelude State Sql Locks Store Operations Applies Control.

Local Open Scope string_scope.
Local Open Scope Z_scope.

(** ** The operations of an apply in deployment order *)

Definition opLe (a b : ApplyOperation) : Prop := opBefore b a = false.
#[global] Instance opLe_dec a b : Decision (opLe a b).
Proof. unfold opLe. apply _. Defined.

Definition ListByApply (applyID : Z) (s : store) : list ApplyOperation :=
  merge_sort opLe (filter (fun o => op_ApplyID o = applyID) (operations s)).

(** ** Failure reasons *)

Definition errorText (m : option string) : string := default "" m.

Fixpoint firstFailedTaskError (ts : list TaskRec) : string :=
  match ts with
  | [] => ""
  | t :: ts' =>
      if IsState (tk_State t) [Task.Failed] && (errorText (tk_ErrorMessage t) != "")
      then errorText (tk_ErrorMessage t) else firstFailedTaskError ts'
  end.

Fixpoint firstFailedOperationMessage (ops : list ApplyOperation) : string :=
  match ops with
  | [] => ""
  | op :: ops' =>
      if IsState (op_State op) [Apply.Failed] && (errorText (op_ErrorMessage op) != "")
      then ("deployment " ++ op_Deployment op ++ " failed: " ++ errorText (op_ErrorMessage op))%string
      else firstFailedOperationMessage ops'
  end.

(** ** Projection *)

Record applyProjectionResult := {
  Swapped : bool;
  PreviousState : string;
  DerivedState : string;
  BecameTerminal : bool;
  OperationCount : nat;
}.

Definition anyPauseOnFailure (ops : list ApplyOperation) : bool :=
  existsb (fun op => op_OnFailure op == OnFailurePause) ops.

(** The child of an operation row, given whether the rollout was released. *)
Definition childOf (released : bool) (op : ApplyOperation) : RolloutChild :=
  let isContinue := op_OnFailure op == OnFailureContinue in
  let isPause := op_OnFailure op == OnFailurePause in
  {| rc_State := op_State op;
     ContinueOnFailure := isContinue || (isPause && released);
     PauseOnFailure := isPause && negb released |}.

Definition reopensContinuableFailedRollout (reopen : bool) (applyState base derived : string) : bool :=
  reopen && IsState applyState [Apply.Failed] && IsState base [Apply.Failed] &&
  IsState derived [Apply.RunningDegraded].

Definition projectedStartedAt (clockNow : Z) (apply : Apply) (derived : string) : option Z :=
  match a_StartedAt apply with
  | None => if IsState derived [Apply.Pending] then None else Some clockNow
  | Some _ => None
  end.

Definition projectedCompletedAt (clockNow : Z) (apply : Apply) (derived : string) : option Z :=
  if IsState derived [Apply.Stopped] then None
  else if IsTerminalApplyState derived then
    match a_CompletedAt apply with Some t => Some t | None => Some clockNow end
  else None.

Definition projectedErrorMessage (apply : Apply) (ops : list ApplyOperation) (derived : string)
    : string :=
  if IsState derived [Apply.Failed] then
    let msg := firstFailedOperationMessage ops in
    if msg != "" then msg else a_ErrorMessage apply
  else a_ErrorMessage apply.

Section Operator.
Context (foundRows : bool) (clockNow : Z).

(** From the release latch on. *)
Definition projectFrom (ctx : leaseCtx) (apply : Apply) (reopen : bool)
    (ops : list ApplyOperation) (released : bool) : prog store (res applyProjectionResult) :=
  let children := childOf released <$> ops in
  let base := DeriveApplyState (op_State <$> ops) in
  let derived := DeriveRolloutApplyState children in
  if IsTerminalApplyState (a_State apply) && negb (IsTerminalApplyState derived) &&
     negb (reopensContinuableFailedRollout reopen (a_State apply) base derived)
  then Ret (Err (Errorf "child operations derive non-terminal state from terminal parent state")) else
  let startedAt := projectedStartedAt clockNow apply derived in
  let unchanged := {| Swapped := false; PreviousState := a_State apply; DerivedState := derived;
                      BecameTerminal := false; OperationCount := length ops |} in
  if IsState (a_State apply) [derived] && bool_decide (startedAt = None)
  then Ret (Ok unchanged) else
  pbind (UpdateDerivedState foundRows ctx (a_ID apply) (a_State apply) derived
           (projectedErrorMessage apply ops derived) startedAt
           (projectedCompletedAt clockNow apply derived))
    (fun r => Ret match r with
     | Err e => Err e
     | Ok false => Ok unchanged
     | Ok true =>
         Ok {| Swapped := true; PreviousState := a_State apply; DerivedState := derived;
               BecameTerminal := negb (IsTerminalApplyState (a_State apply)) &&
                                 IsTerminalApplyState derived;
               OperationCount := length ops |}
     end).

Definition updateApplyStateFromOperations (ctx : leaseCtx) (apply : Apply) (reopen : bool)
    : prog store (res applyProjectionResult) :=
  Exec (read (ListByApply (a_ID apply))) (fun r => match r with
    | Err e => Ret (Err e)
    | Ok ops =>
        if (length ops =? 0)%nat then Ret (Err (Errorf "no apply_operations rows")) else
        if anyPauseOnFailure ops then
          Exec (read (GetByOperation (a_ID apply) ControlOperationRelease)) (fun r => match r with
            | Err e => Ret (Err e)
            | Ok releaseReq =>
                projectFrom ctx apply reopen ops (ReleasesPausedRollout releaseReq)
            end)
        else projectFrom ctx apply reopen ops false
    end).

(** ** Settling an operation row *)

Definition settled_as {A} (r : res A) : res bool :=
  match r with Ok _ => Ok true | Err e => Err e end.

Definition persistOperationState (ctx : leaseCtx) (op : ApplyOperation)
    (derived errorMessage : string) : prog store (res bool) :=
  if IsState derived [Apply.Completed] then
    pbind (Operations.MarkCompleted foundRows ctx (op_ID op)) (fun r => Ret (settled_as r))
  else if IsState derived [Apply.Failed] then
    pbind (Operations.MarkFailed foundRows ctx (op_ID op) errorMessage) (fun r => Ret (settled_as r))
  else if IsState derived [Apply.Stopped] then
    pbind (UpdateState foundRows ctx (op_ID op) derived) (fun r => Ret (settled_as r))
  else if IsState derived [Apply.FailedRetryable] then
    pbind (UpdateState foundRows ctx (op_ID op) derived) (fun r => Ret (settled_as r))
  else if IsState derived [Apply.WaitingForCutover] then
    pbind (UpdateState foundRows ctx (op_ID op) derived) (fun r => Ret (settled_as r))
  else if IsTerminalApplyState derived then
    pbind (MarkTerminal foundRows ctx (op_ID op) derived) (fun r => Ret (settled_as r))
  else Ret (Ok false).

Definition markOperationFromApplyState (ctx : leaseCtx) (op : ApplyOperation) (apply : Apply)
    : prog store (res bool) :=
  persistOperationState ctx op (a_State apply) (a_ErrorMessage apply).

Definition reconcileClaimedOperationFromTerminalParent (ctx : leaseCtx) (op : ApplyOperation)
    (parent : Apply) : prog store unit :=
  pbind (markOperationFromApplyState ctx op parent) (fun r => match r with
    | Ok true => pbind (updateApplyStateFromOperations ctx parent false) (fun _ => Ret tt)
    | _ => Ret tt
    end).

Definition reconcileUnclaimableParent (ctx : leaseCtx) (op : ApplyOperation) : prog store unit :=
  Exec (read (findApply (op_ApplyID op))) (fun r => match r with
    | Ok (Some parent) =>
        if IsTerminalApplyState (a_State parent)
        then reconcileClaimedOperationFromTerminalParent ctx op parent else Ret tt
    | _ => Ret tt
    end).

(** ** Settling a stop *)

Definition markPendingOperationsStopped (ctx : leaseCtx) (apply : Apply) : prog store (res unit) :=
  pbind (MarkPendingStoppedByApply foundRows ctx (a_ID apply))
    (fun r => Ret (match r with Ok _ => Ok tt | Err e => Err e end)).

Definition stopPendingOperationsForPendingStop (ctx : leaseCtx) (apply : Apply)
    : prog store (res unit) :=
  Exec (read (GetPending (a_ID apply) ControlOperationStop)) (fun r => match r with
    | Err e => Ret (Err e)
    | Ok None => Ret (Ok tt)
    | Ok (Some _) => markPendingOperationsStopped ctx apply
    end).

Definition completePendingStopIfApplyResolved (ctx : leaseCtx) (applyID : Z) : prog store (res unit) :=
  Exec (read (findApply applyID)) (fun r => match r with
    | Err e => Ret (Err e)
    | Ok None => Ret (Err ErrApplyNotFound)
    | Ok (Some apply) =>
        if negb (IsTerminalApplyState (a_State apply)) then Ret (Ok tt) else
        Exec (read (GetPending (a_ID apply) ControlOperationStop)) (fun r => match r with
          | Err e => Ret (Err e)
          | Ok None => Ret (Ok tt)
          | Ok (Some _) => CompletePending foundRows ctx (a_ID apply) ControlOperationStop
          end)
    end).
End Operator.

(** ** The cutover barrier (pkg/tern/cutover_barrier.go) *)

Definition isCutoverDriveState (opState : string) : bool :=
  IsState opState [Apply.WaitingForCutover; Apply.CuttingOver; Apply.RevertWindow].

Definition shouldAutoDeferCutover (multiOperation : bool) (op : option ApplyOperation) : bool :=
  multiOperation && match op with Some op => IsOrderedCutoverPolicy (op_CutoverPolicy op) | None => false end.

Definition shouldReleaseAtCutoverBarrier (apply : Apply) (multiOperation : bool)
    (op : option ApplyOperation) : bool :=
  negb (a_DeferCutover apply) && shouldAutoDeferCutover multiOperation op.

Definition effectiveCopyDriveOptions (apply : Apply) (multiOperation : bool)
    (op : option ApplyOperation) : ApplyOptions :=
  let opts := a_Options apply in
  if negb (ao_DeferCutover opts) && shouldAutoDeferCutover multiOperation op
  then {| ao_AllowUnsafe := ao_AllowUnsafe opts; ao_Branch := ao_Branch opts; ao_DeferCutover := true;
          ao_DeferDeploy := ao_DeferDeploy opts; ao_SkipRevert := ao_SkipRevert opts;
          ao_Volume := ao_Volume opts; ao_Target := ao_Target opts; ao_Rollback := ao_Rollback opts |}
  else opts.

(** ** Lemmas *)

Lemma opBefore_trich a b : opBefore a b = false -> opBefore b a = false ->
  op_CreatedAt a = op_CreatedAt b /\ op_ID a = op_ID b.
Proof. rewrite <- !not_true_iff_false, !opBefore_spec. lia. Qed.

#[global] Instance opLe_total : Total opLe.
Proof.
  intros a b. unfold opLe. rewrite <- !not_true_iff_false, !opBefore_spec. lia.
Qed.

#[global] Instance opLe_trans : Transitive opLe.
Proof.
  intros a b c. unfold opLe. rewrite <- !not_true_iff_false, !opBefore_spec. lia.
Qed.

Lemma ListByApply_elem id s o : o ∈ ListByApply id s <-> o ∈ operations s /\ op_ApplyID o = id.
Proof.
  unfold ListByApply. rewrite merge_sort_Permutation, list_elem_of_filter. tauto.
Qed.

Lemma ListByApply_sorted id s : StronglySorted opLe (ListByApply id s).
Proof. apply StronglySorted_merge_sort; apply _. Qed.

Lemma ListByApply_ext id s s' : operations s' = operations s -> ListByApply id s' = ListByApply id s.
Proof. unfold ListByApply. by intros ->. Qed.

(** The release flag the projection computes, as the claim gates read it. *)
Lemma released_agree s id :
  NoDup (requestKey <$> controls s) ->
  ReleasesPausedRollout (GetByOperation id ControlOperationRelease s) = releaseLatched s id.
Proof.
  intros Hk. unfold GetByOperation, releaseLatched.
  destruct (findRequest s id ControlOperationRelease) as [cr|] eqn:E.
  - apply findRequest_Some in E as [Hin Ek]. unfold requestKey in Ek. injection Ek as K1 K2.
    cbn. rewrite K2, eqb_refl'. cbn [andb].
    destruct (hasRequest s id ControlOperationRelease _) eqn:Eh.
    + apply hasRequest_spec in Eh as (x & Hx & X1 & X2 & X3).
      assert (x = cr) as ->.
      { pose proof (findRequest_row s x Hk Hx) as F1. pose proof (findRequest_row s cr Hk Hin) as F2.
        rewrite X1, X2 in F1. rewrite K1, K2 in F2. congruence. }
      by apply oneOf_elem in X3; cbn in X3; rewrite orb_false_r in X3.
    + apply not_true_iff_false in Eh. apply not_true_iff_false. intros H. apply Eh.
      apply hasRequest_spec. exists cr. repeat (split; [done|]). apply oneOf_elem. cbn.
      by rewrite orb_false_r.
  - symmetry. apply not_true_iff_false. intros (x & Hx & X1 & X2 & _)%hasRequest_spec.
    apply (findRequest_None s _ _ x E Hx). unfold requestKey. congruence.
Qed.

(** The projection's reads, run alone. *)
Definition releasedFor (s : store) (id : Z) (ops : list ApplyOperation) : bool :=
  anyPauseOnFailure ops && ReleasesPausedRollout (GetByOperation id ControlOperationRelease s).

Lemma projection_run fr clock ctx apply reopen s :
  run (updateApplyStateFromOperations fr clock ctx apply reopen) s =
    let ops := ListByApply (a_ID apply) s in
    if (length ops =? 0)%nat then (s, Err (Errorf "no apply_operations rows")) else
    run (projectFrom fr clock ctx apply reopen ops (releasedFor s (a_ID apply) ops)) s.
Proof.
  unfold updateApplyStateFromOperations, releasedFor. rewrite run_Exec. cbn [read fst snd].
  destruct (_ =? 0)%nat; [done|]. destruct (anyPauseOnFailure _); [|done].
  rewrite run_Exec. done.
Qed.

(** A branch that returns without a write. *)
Ltac unchanged H :=
  cbn [fst snd] in H; rewrite ?run_Ret in H; apply pair_eq in H as [<- _]; by left.

(** What the projection does to the store: nothing, or one swap of the parent row. *)
Lemma projectFrom_effect fr clock ctx apply reopen ops released s s' r :
  applies_wf s -> a_State apply ∈ applyStates ->
  (forall a, a ∈ applies s -> a_State a ∈ applyStates) ->
  run (projectFrom fr clock ctx apply reopen ops released) s = (s', r) ->
  let derived := DeriveRolloutApplyState (childOf released <$> ops) in
  s' = s \/
  (exists a, findApply (a_ID apply) s = Some a /\ a_State a = a_State apply /\
     (exists r', r = Ok r' /\ Swapped r' = true /\ DerivedState r' = derived) /\
     s' = updateApplies (fun x => a_ID x =? a_ID apply)
            (derivedSet derived (projectedErrorMessage apply ops derived)
               (projectedStartedAt clock apply derived) (projectedCompletedAt clock apply derived) s) s /\
     (IsTerminalApplyState (a_State apply) = true -> IsTerminalApplyState derived = false ->
        reopensContinuableFailedRollout reopen (a_State apply) (DeriveApplyState (op_State <$> ops))
          derived = true)).
Proof.
  intros Hwf Hst Hcanon Hrun derived. unfold projectFrom in Hrun. fold derived in Hrun.
  assert (Hdc : derived ∈ applyStates) by apply DeriveRollout_canonical. clearbody derived.
  destruct (_ && _ && negb (reopensContinuableFailedRollout _ _ _ _)) eqn:Eg;
    [unchanged Hrun|].
  destruct (IsState (a_State apply) [derived] && _);
    [unchanged Hrun|].
  rewrite run_bind in Hrun. rewrite (UpdateDerivedState_run fr ctx) in Hrun;
    [|done..].
  destruct (derivedStateGuardForContext ctx _) as [g|e]; [|unchanged Hrun].
  destruct (negb (ensureStillOwned g s)); [unchanged Hrun|].
  destruct (findApply (a_ID apply) s) as [a|] eqn:Ef; [|unchanged Hrun].
  destruct (a_State a == a_State apply) eqn:Es; [|unchanged Hrun].
  cbn [fst snd] in Hrun. rewrite run_Ret in Hrun. apply pair_eq in Hrun as [<- <-]. right. exists a.
  apply eqb_true_iff in Es. split; [done|]. split; [done|]. split; [by eexists|]. split; [done|].
  intros Ht Hd. rewrite Ht, Hd in Eg. cbn in Eg. by apply negb_false_iff.
Qed.

Lemma running_degraded_child ops released :
  DeriveRolloutApplyState (childOf released <$> ops) = Apply.RunningDegraded ->
  exists op, op ∈ ops /\ IsState (op_State op) [Apply.Failed] = true /\
    op_OnFailure op ∈ [OnFailureContinue; OnFailurePause].
Proof.
  rewrite DeriveRolloutApplyState_table.
  destruct (anyTask Apply.Failed _) eqn:Ea; cbn [negb].
  2: { intros E. pose proof (DeriveApplyState_range (rc_State <$> (childOf released <$> ops))) as H.
       rewrite E in H. by apply oneOf_elem in H. }
  destruct (existsb failsClosed _) eqn:Ec; [done|]. intros _.
  apply anyTask_child in Ea as (c & Hc & Hf). apply list_elem_of_fmap in Hc as (op & -> & Hop).
  exists op. split; [done|]. split; [done|].
  destruct (failsClosed (childOf released op)) eqn:E.
  { exfalso. rewrite <- not_true_iff_false, existsb_elem in Ec. apply Ec.
    exists (childOf released op). split; [by apply list_elem_of_fmap_2|done]. }
  unfold failsClosed in E. rewrite Hf in E. cbn in E. apply oneOf_elem. cbn.
  destruct (op_OnFailure op == OnFailureContinue); [done|]. cbn in E |- *.
  by destruct (op_OnFailure op == OnFailurePause).
Qed.

Lemma findApply_row s a : applies_wf s -> a ∈ applies s -> findApply (a_ID a) s = Some a.
Proof. intros Hwf Ha. by apply (find_row a_ID); [apply Hwf|]. Qed.

Lemma IsState_self st : st ∈ applyStates -> IsState st [st] = true.
Proof. intros H. by rewrite IsState_canonical, eqb_refl'. Qed.

Lemma find_updateApplies id f s a :
  (forall x, a_ID (f x) = a_ID x) -> findApply id s = Some a ->
  findApply id (updateApplies (fun x => a_ID x =? id) f s) = Some (f a).
Proof.
  intros Hf. unfold findApply, updateApplies. cbn. induction (applies s) as [|x l IH]; [done|]. cbn.
  destruct (a_ID x =? id) eqn:E; [rewrite Hf, E; by intros [= ->]|]. by rewrite E.
Qed.

(** A projection whose row already holds the derived state does nothing. *)
Lemma projectFrom_same fr clock ctx apply reopen ops released s :
  let derived := DeriveRolloutApplyState (childOf released <$> ops) in
  a_State apply = derived -> projectedStartedAt clock apply derived = None ->
  exists r, run (projectFrom fr clock ctx apply reopen ops released) s = (s, Ok r) /\
    Swapped r = false /\ DerivedState r = derived.
Proof.
  intros derived Hs Hn. unfold projectFrom. fold derived.
  assert (Hdc : derived ∈ applyStates) by apply DeriveRollout_canonical. clearbody derived.
  rewrite Hs. destruct (IsTerminalApplyState derived); cbn [negb andb];
    rewrite IsState_self, Hn, bool_decide_eq_true_2 by done; cbn [andb];
    eexists; (split; [apply run_Ret|done]).
Qed.

Lemma release_reads_same s s' id ops :
  controls s' = controls s -> releasedFor s' id ops = releasedFor s id ops.
Proof. intros E. unfold releasedFor, GetByOperation, findRequest. by rewrite E. Qed.

(** A projection of the stored row that returns has swapped it, or found it in the
    derived state with nothing to stamp. *)
Lemma projectFrom_stored fr clock ctx apply reopen ops released s s' r :
  let derived := DeriveRolloutApplyState (childOf released <$> ops) in
  applies_wf s -> (forall x, x ∈ applies s -> a_State x ∈ applyStates) ->
  findApply (a_ID apply) s = Some apply ->
  run (projectFrom fr clock ctx apply reopen ops released) s = (s', Ok r) ->
  DerivedState r = derived /\
  ((s' = s /\ a_State apply = derived /\ projectedStartedAt clock apply derived = None) \/
   s' = updateApplies (fun x => a_ID x =? a_ID apply)
          (derivedSet derived (projectedErrorMessage apply ops derived)
             (projectedStartedAt clock apply derived) (projectedCompletedAt clock apply derived) s) s).
Proof.
  intros derived Hwf Hcanon Hload Hrun. unfold projectFrom in Hrun. fold derived in Hrun.
  assert (Hdc : derived ∈ applyStates) by apply DeriveRollout_canonical. clearbody derived.
  assert (Hac : a_State apply ∈ applyStates).
  { apply Hcanon. apply find_some in Hload as [H _]. by apply list_elem_of_In. }
  destruct (_ && _ && negb (reopensContinuableFailedRollout _ _ _ _)).
  { rewrite run_Ret in Hrun. by apply pair_eq in Hrun as [_ ?]. }
  destruct (IsState (a_State apply) [derived] && _) eqn:Eu.
  - rewrite run_Ret in Hrun. apply pair_eq in Hrun as [<- Hr]. apply andb_true_iff in Eu as [Es En].
    rewrite IsState_canonical in Es by done. apply eqb_true_iff in Es.
    apply bool_decide_eq_true in En. assert (r = _) as -> by (symmetry; exact (f_equal (fun x =>
      match x with Ok y => y | Err _ => r end) Hr)). split; [done|]. by left.
  - rewrite run_bind, (UpdateDerivedState_run fr ctx) in Hrun by done.
    destruct (derivedStateGuardForContext ctx _) as [g|e];
      [|cbn [fst snd] in Hrun; rewrite run_Ret in Hrun; by apply pair_eq in Hrun as [_ ?]].
    destruct (negb (ensureStillOwned g s));
      [cbn [fst snd] in Hrun; rewrite run_Ret in Hrun; by apply pair_eq in Hrun as [_ ?]|].
    rewrite Hload, eqb_refl' in Hrun. cbn [fst snd] in Hrun. rewrite run_Ret in Hrun.
    apply pair_eq in Hrun as [<- Hr]. assert (r = _) as -> by (symmetry; exact (f_equal (fun x =>
      match x with Ok y => y | Err _ => r end) Hr)). split; [done|]. by right.
Qed.

(** *** Operation rows *)

Lemma execState_hit fr ctx g id set s o :
  operationWriteGuardFromContext ctx = Ok g -> NoDup (op_ID <$> operations s) ->
  (forall x, op_ID (set s x) = op_ID x) -> o ∈ operations s -> op_ID o = id ->
  guardPredicate s g o = true ->
  exists s', run (execStateUpdate fr ctx id set) s = (s', Ok tt) /\ applies s' = applies s /\
    controls s' = controls s /\ findOperation id s' = Some (touchOp (now s) (set s) o).
Proof.
  intros Hg Hnd Hid Ho <- Hp. unfold execStateUpdate.
  rewrite (guardedUpdate_run fr ctx _ false _ s g) by (try done; intros x; by rewrite touchOp_keep).
  rewrite (guard_hit s g _ false o) by done. eexists. split; [done|]. split; [done|]. split; [done|].
  rewrite findOperation_update by (intros x; by rewrite touchOp_keep).
  unfold findOperation. rewrite (find_row op_ID _ o Hnd Ho). cbn. by rewrite Z.eqb_refl, Hp.
Qed.

(** What persistOperationState makes of the row's state and completion time. *)
Definition settledRow (derived : string) (s : store) (o : ApplyOperation) (o' : ApplyOperation) : Prop :=
  op_State o' = derived /\
  (if oneOf derived [Apply.Stopped; Apply.FailedRetryable; Apply.WaitingForCutover]
   then op_CompletedAt o' = op_CompletedAt o
   else op_CompletedAt o' = COALESCE (op_CompletedAt o) (Some (now s))).

Lemma persist_hit fr ctx g s o derived msg :
  operationWriteGuardFromContext ctx = Ok g -> NoDup (op_ID <$> operations s) ->
  o ∈ operations s -> guardPredicate s g o = true ->
  derived ∈ [Apply.Completed; Apply.Failed; Apply.Stopped; Apply.FailedRetryable;
             Apply.WaitingForCutover; Apply.Cancelled; Apply.Reverted] ->
  exists s' o', run (persistOperationState fr ctx o derived msg) s = (s', Ok true) /\
    applies s' = applies s /\ controls s' = controls s /\
    findOperation (op_ID o) s' = Some o' /\ settledRow derived s o o'.
Proof.
  intros Hg Hnd Ho Hp Hd.
  assert (H : forall set, (forall x, op_ID (set s x) = op_ID x) ->
    op_State (set s o) = derived ->
    (if oneOf derived [Apply.Stopped; Apply.FailedRetryable; Apply.WaitingForCutover]
     then op_CompletedAt (set s o) = op_CompletedAt o
     else op_CompletedAt (set s o) = COALESCE (op_CompletedAt o) (Some (now s))) ->
    exists s' o', run (pbind (execStateUpdate fr ctx (op_ID o) set) (fun r => Ret (settled_as r))) s =
      (s', Ok true) /\ applies s' = applies s /\ controls s' = controls s /\
      findOperation (op_ID o) s' = Some o' /\ settledRow derived s o o').
  { intros set Hid Hst Hct.
    destruct (execState_hit fr ctx g (op_ID o) set s o Hg Hnd Hid Ho eq_refl Hp)
      as (s' & E & Ea & Ec & Ef).
    exists s', (touchOp (now s) (set s) o). rewrite run_bind, E. repeat (split; [done|]).
    unfold settledRow. by rewrite !touchOp_keep. }
  unfold persistOperationState. elem_cases Hd; vm_compute (IsState _ _); vm_compute (IsTerminalApplyState _);
    (apply H; [done|done|reflexivity]).
Qed.

(** *** Stopping the pending operations *)

Lemma stopped_ops fr apply s :
  let s' := (run (markPendingOperationsStopped fr noLease apply) s).1 in
  (run (markPendingOperationsStopped fr noLease apply) s).2 = Ok tt /\
  applies s' = applies s /\ controls s' = controls s /\
  operations s' = (fun o => if (op_ApplyID o =? a_ID apply) && (op_State o == Apply.Pending) && true
                            then set_op_UpdatedAt (now s) (set_op_State Apply.Stopped o) else o)
                    <$> operations s.
Proof.
  cbv zeta. unfold markPendingOperationsStopped. rewrite run_bind.
  change (MarkPendingStoppedByApply fr noLease (a_ID apply))
    with (Exec (stopPending fr (fun _ => true) (a_ID apply)) (@Ret store (res Z))).
  rewrite run_Exec. done.
Qed.

(** *** The projection writes no operation row *)

Lemma run_preserves {R} (I : store -> Prop) (p : prog store R) s :
  preserves I p -> I s -> I (run p s).1.
Proof.
  intros Hp Hs. destruct (run p s) as [s' r] eqn:E. apply run_runE in E as [n E].
  eapply runE_preserves; [|exact Hp|exact Hs|exact E]. intros m x Hx. exact Hx.
Qed.

Lemma projection_keeps_operations fr clock ctx apply reopen l :
  preserves (fun s => operations s = l) (updateApplyStateFromOperations fr clock ctx apply reopen).
Proof.
  assert (Hp : forall ops rel, preserves (fun s => operations s = l)
                 (projectFrom fr clock ctx apply reopen ops rel)).
  { intros ops rel. unfold projectFrom. destruct (_ && _); [done|]. destruct (_ && _); [done|].
    apply preserves_bind; [|done]. unfold UpdateDerivedState.
    destruct (derivedStateGuardForContext ctx _) as [g|e]; [|done]. split; [by intros s|].
    intros [rows|e]; [|done]. destruct (0 <? rows); [done|]. apply read_preserves.
    intros [[]|e]; try done. destruct (negb _); [done|]. by apply read_preserves. }
  apply read_preserves. intros [ops|e]; [|done]. destruct (_ =? 0)%nat; [done|].
  destruct (anyPauseOnFailure ops); [|done]. apply read_preserves. by intros [rq|e].
Qed.

(** ** Properties *)

(** C26: a terminal parent is not revived.  A run of the projection that moves an
    apply row from a terminal to a non-terminal state is the documented exception
    and nothing else: the caller allowed the reopen, the row is the projected
    apply, it was failed and becomes running_degraded, and one of its operations
    failed under the policy continue or pause. *)
Theorem projection_never_revives (fr : bool) (clock : Z) (ctx : leaseCtx) (apply : Apply)
    (reopen : bool) (s s' : store) (r : res applyProjectionResult) (a a' : Apply)
    (Hwf : applies_wf s) (Hst : a_State apply ∈ applyStates)
    (Hcanon : forall x, x ∈ applies s -> a_State x ∈ applyStates)
    (Hrun : run (updateApplyStateFromOperations fr clock ctx apply reopen) s = (s', r))
    (Ha : a ∈ applies s) (Ha' : a' ∈ applies s') (Hid : a_ID a' = a_ID a)
    (Hterm : IsTerminalApplyState (a_State a) = true)
    (Hrevived : IsTerminalApplyState (a_State a') = false) :
  reopen = true /\ a_ID a = a_ID apply /\ a_State a = Apply.Failed /\
  a_State a' = Apply.RunningDegraded /\
  exists op, op ∈ operations s /\ op_ApplyID op = a_ID apply /\
    IsState (op_State op) [Apply.Failed] = true /\
    op_OnFailure op ∈ [OnFailureContinue; OnFailurePause].
Proof.
  assert (Hs : s' <> s).
  { intros ->. rewrite (row_unique a_ID _ a' a (wf_nodup _ Hwf) Ha' Ha Hid) in Hrevived. congruence. }
  rewrite projection_run in Hrun. cbv zeta in Hrun. set (ops := ListByApply _ s) in Hrun.
  destruct (length ops =? 0)%nat; [apply pair_eq in Hrun as [<- _]; done|].
  apply projectFrom_effect in Hrun as [->|(x & Hx & Hxs & _ & Es & Hguard)]; [done| |done..].
  set (derived := DeriveRolloutApplyState _) in *.
  rewrite Es in Ha'. rewrite applies_updateApplies in Ha'.
  apply list_elem_of_fmap in Ha' as (b & -> & Hb).
  apply find_some in Hx as [Hx%list_elem_of_In Hxid%Z.eqb_eq].
  destruct (Z.eqb_spec (a_ID b) (a_ID apply)) as [Eb|Eb].
  2: { rewrite (row_unique a_ID _ b a (wf_nodup _ Hwf) Hb Ha Hid) in Hrevived. congruence. }
  change (a_ID (derivedSet derived _ _ _ s b)) with (a_ID b) in Hid.
  change (a_State (derivedSet derived _ _ _ s b)) with derived in Hrevived |- *.
  rewrite (row_unique a_ID _ x a (wf_nodup _ Hwf) Hx Ha) in Hxs by congruence.
  rewrite Hxs in Hterm. specialize (Hguard Hterm Hrevived).
  unfold reopensContinuableFailedRollout in Hguard.
  apply andb_true_iff in Hguard as [Hguard Hd]. apply andb_true_iff in Hguard as [Hguard _].
  apply andb_true_iff in Hguard as [Hre Hf].
  assert (Hdc : derived ∈ applyStates) by apply DeriveRollout_canonical.
  rewrite IsState_canonical in Hf, Hd by (try done; apply oneOf_elem; reflexivity).
  apply eqb_true_iff in Hf, Hd. repeat (split; [congruence|]).
  destruct (running_degraded_child _ _ Hd) as (op & Hop & H1 & H2). exists op.
  apply ListByApply_elem in Hop as [Hop Hoa]. done.
Qed.

(** The projection is idempotent.  Projecting an apply as it is stored, and then
    again as it is stored afterwards, swaps at most once: the second run changes
    nothing, reports no swap, and finds the row in the state the first derived. *)
Theorem projection_idempotent (fr : bool) (clock clock' : Z) (ctx : leaseCtx) (apply : Apply)
    (reopen reopen' : bool) (s s1 : store) (r : applyProjectionResult)
    (Hwf : applies_wf s) (Hcanon : forall x, x ∈ applies s -> a_State x ∈ applyStates)
    (Hload : findApply (a_ID apply) s = Some apply)
    (Hrun : run (updateApplyStateFromOperations fr clock ctx apply reopen) s = (s1, Ok r)) :
  exists apply1 r1, findApply (a_ID apply) s1 = Some apply1 /\ a_State apply1 = DerivedState r /\
    run (updateApplyStateFromOperations fr clock' ctx apply1 reopen') s1 = (s1, Ok r1) /\
    Swapped r1 = false.
Proof.
  pose proof Hload as Hin. apply find_some in Hin as [Hin%list_elem_of_In _].
  rewrite projection_run in Hrun. cbv zeta in Hrun. set (ops := ListByApply _ s) in Hrun.
  destruct (length ops =? 0)%nat eqn:El; [by apply pair_eq in Hrun as [_ ?]|].
  set (rel := releasedFor _ _ _) in Hrun. set (derived := DeriveRolloutApplyState (childOf rel <$> ops)).
  (* the row after the first run, in the derived state and with its start stamped *)
  assert (H1 : exists apply1, findApply (a_ID apply) s1 = Some apply1 /\ a_State apply1 = derived /\
            a_ID apply1 = a_ID apply /\ DerivedState r = derived /\
            projectedStartedAt clock' apply1 derived = None /\
            operations s1 = operations s /\ controls s1 = controls s).
  { apply projectFrom_stored in Hrun as [Hd [(-> & Hs & Hn)| ->]]; [..|done|done|done]; fold derived in Hd.
    - exists apply. repeat (split; [done|]). split; [|done]. revert Hn. unfold projectedStartedAt.
      fold derived. destruct (a_StartedAt apply); [done|]. by destruct (IsState derived _).
    - exists (derivedSet derived (projectedErrorMessage apply ops derived)
               (projectedStartedAt clock apply derived) (projectedCompletedAt clock apply derived) s apply).
      split; [by apply find_updateApplies|]. repeat (split; [done|]). split; [|done].
      unfold projectedStartedAt at 1. unfold derivedSet. cbn [a_StartedAt set_a_State set_a_ErrorMessage
        set_a_StartedAt]. unfold projectedStartedAt, COALESCE.
      destruct (a_StartedAt apply); [done|]. by destruct (IsState derived [Apply.Pending]). }
  destruct H1 as (apply1 & Hf & Hst & Hid & Hdr & Hsa & Eo & Ec).
  destruct (projectFrom_same fr clock' ctx apply1 reopen' ops rel s1 Hst Hsa) as (r1 & Hr1 & Hsw & _).
  exists apply1, r1. split; [done|]. split; [congruence|]. split; [|done].
  rewrite projection_run. cbv zeta. rewrite Hid, (ListByApply_ext _ _ _ Eo), (release_reads_same _ _ _ _ Ec).
  fold ops. rewrite El. exact Hr1.
Qed.

(** C39: the claim gate and the projection agree.  Take an apply whose operations share
    one failure policy (with unique control requests) and a pending operation of it
    that is not rolled out in parallel and is not the finalizer of a group.  If the
    claim gate lets it start while an earlier operation of another deployment has
    failed, the projection reports the apply as running_degraded, so such an operation
    never starts in an apply reported failed or paused because of that deployment.
    Group finalizers wait for the shards of their group only, and operations of the
    same deployment do not wait for each other, so both are outside the claim. *)
Theorem gate_agrees_with_projection (s : store) (o e : ApplyOperation)
    (Hkeys : NoDup (requestKey <$> controls s))
    (Ho : o ∈ operations s) (He : e ∈ operations s) (Hsame : op_ApplyID e = op_ApplyID o)
    (Hdep : op_Deployment e <> op_Deployment o) (Hbefore : opBefore e o = true)
    (Hfailed : op_State e = Apply.Failed) (Hpending : op_State o = Apply.Pending)
    (Hkind : op_OperationKind o <> ApplyOperationKindGroupFinalizer)
    (Hpolicy : op_CutoverPolicy o <> CutoverPolicyParallel)
    (Huniform : forall x, x ∈ operations s -> op_ApplyID x = op_ApplyID o ->
       op_OnFailure x = op_OnFailure o)
    (Hclaim : claimableOperation s o = true) :
  let ops := ListByApply (op_ApplyID o) s in
  DeriveRolloutApplyState (childOf (releasedFor s (op_ApplyID o) ops) <$> ops) = Apply.RunningDegraded.
Proof.
  intros ops. set (rel := releasedFor s (op_ApplyID o) ops).
  assert (Hrel : op_OnFailure o = OnFailureContinue \/
                 (op_OnFailure o = OnFailurePause /\ releaseLatched s (op_ApplyID o) = true)).
  { apply claimable_pending in Hclaim; [|done]. unfold pendingArm in Hclaim.
    apply andb_true_iff in Hclaim as [[_ Hgate]%andb_true_iff _].
    apply orb_true_iff in Hgate as [Hg|Hg]; reflect_guards; [|done].
    match goal with H : existsb (copyBlockedBy s o) _ = false |- _ => rename H into Hno end.
    destruct (releasedFailure s o e) eqn:Er.
    - unfold releasedFailure in Er. apply andb_true_iff in Er as [_ Er].
      apply orb_true_iff in Er as [Er|Er]; reflect_guards; auto.
    - exfalso. apply not_true_iff_false in Hno. apply Hno, (existsb_row _ _ e He).
      unfold copyBlockedBy. rewrite Er, Hsame, Z.eqb_refl, Hbefore, Hfailed.
      rewrite (proj2 (String.eqb_neq _ _) Hdep). cbn [negb andb].
      unfold oneOf. cbn [existsb]. rewrite (proj2 (String.eqb_neq _ _) Hpolicy).
      by destruct (op_CutoverPolicy o == CutoverPolicyBarrier). }
  assert (Hops : forall x, x ∈ ops -> ContinueOnFailure (childOf rel x) = true /\
                                      PauseOnFailure (childOf rel x) = false).
  { intros x [Hx Hxa]%ListByApply_elem. cbn. rewrite (Huniform x Hx Hxa).
    destruct Hrel as [->|[Hp Hl]]; [done|]. rewrite Hp. cbn.
    assert (rel = true) as ->; [|done]. unfold rel, releasedFor. rewrite released_agree, Hl by done.
    rewrite andb_true_r. apply (existsb_row _ _ o); [by apply ListByApply_elem|]. by rewrite Hp. }
  rewrite DeriveRolloutApplyState_table.
  assert (anyTask Apply.Failed (rc_State <$> (childOf rel <$> ops)) = true) as ->.
  { apply anyTask_In. exists Apply.Failed. split; [|done]. rewrite <- list_fmap_compose.
    apply list_elem_of_fmap. exists e. split; [by cbn; rewrite Hfailed|by apply ListByApply_elem]. }
  cbn [negb].
  assert (existsb failsClosed (childOf rel <$> ops) = false) as ->.
  { apply not_true_iff_false. rewrite existsb_elem. intros (c & Hc & Hf).
    apply list_elem_of_fmap in Hc as (x & -> & Hx). unfold failsClosed in Hf.
    destruct (Hops x Hx) as [E1 E2]. rewrite E1, E2, andb_false_r in Hf. done. }
  assert (pauseHeld (childOf rel <$> ops) = false) as ->.
  { clearbody rel ops. clear - Hops. induction ops as [|x l IH]; [done|]. cbn [fmap list_fmap pauseHeld].
    destruct (Hops x ltac:(by left)) as [_ E]. rewrite E, andb_false_r. cbn.
    apply IH. intros y Hy. apply Hops. by right. }
  assert (settled (childOf rel <$> ops) = false) as ->; [|done].
  apply not_true_iff_false. unfold settled. rewrite forallb_elem. intros Hall.
  specialize (Hall (childOf rel o)). cbn in Hall. rewrite Hpending in Hall.
  by discriminate Hall; apply list_elem_of_fmap_2, ListByApply_elem.
Qed.

(** Settling an operation row.  With a lease that covers the row,
    persistOperationState writes each settled state and reports it: completed,
    failed, cancelled and reverted stamp the completion time once, the resumable
    stopped, failed_retryable and waiting_for_cutover leave it as it was, and the
    parent and the control requests are untouched. *)
Theorem persist_operation_contract (fr : bool) (ctx : leaseCtx) (g : operationWriteGuard)
    (s : store) (o : ApplyOperation) (derived msg : string)
    (Hg : operationWriteGuardFromContext ctx = Ok g) (Hnd : NoDup (op_ID <$> operations s))
    (Ho : o ∈ operations s) (Hlease : guardPredicate s g o = true)
    (Hd : derived ∈ [Apply.Completed; Apply.Failed; Apply.Stopped; Apply.FailedRetryable;
                     Apply.WaitingForCutover; Apply.Cancelled; Apply.Reverted]) :
  exists s' o', run (persistOperationState fr ctx o derived msg) s = (s', Ok true) /\
    applies s' = applies s /\ controls s' = controls s /\
    findOperation (op_ID o) s' = Some o' /\ settledRow derived s o o'.
Proof. by apply (persist_hit fr ctx g). Qed.

(** A stop settles the rollout.  Once every operation of an apply is pending or
    terminal, stopping the pending ones leaves none pending, and the state derived
    from the operations is terminal, whatever the failure policies and the release
    latch. *)
Theorem stop_settles_rollout (fr released : bool) (apply : Apply) (s : store)
    (Hne : ListByApply (a_ID apply) s <> [])
    (Hops : forall o, o ∈ operations s -> op_ApplyID o = a_ID apply ->
       op_State o = Apply.Pending \/ op_State o ∈ terminalApplyStates) :
  let '(s', r) := run (markPendingOperationsStopped fr noLease apply) s in
  r = Ok tt /\
  (forall o, o ∈ operations s' -> op_ApplyID o = a_ID apply -> op_State o ∈ terminalApplyStates) /\
  IsTerminalApplyState
    (DeriveRolloutApplyState (childOf released <$> ListByApply (a_ID apply) s')) = true.
Proof.
  destruct (stopped_ops fr apply s) as (Hr & _ & _ & Eo).
  destruct (run _ s) as [s' r]. cbn [fst snd] in *. split; [done|].
  assert (Hs : forall o, o ∈ operations s' -> op_ApplyID o = a_ID apply ->
                 op_State o ∈ terminalApplyStates).
  { intros o' Ho' Ha. rewrite Eo in Ho'. apply list_elem_of_fmap in Ho' as (o & -> & Ho).
    rewrite andb_true_r in *. destruct (op_ApplyID o =? a_ID apply) eqn:Ea; cbn [andb] in *.
    2: { apply Z.eqb_neq in Ea. done. }
    apply Z.eqb_eq in Ea. destruct (op_State o == Apply.Pending) eqn:Es.
    - apply oneOf_elem. reflexivity.
    - apply eqb_false_iff in Es. by destruct (Hops o Ho Ea). }
  split; [done|]. apply settled_terminal.
  - intros E. apply Hne. apply fmap_nil_inv in E.
    destruct (ListByApply (a_ID apply) s) as [|o l] eqn:El; [done|]. exfalso.
    assert (Hin : o ∈ ListByApply (a_ID apply) s) by (rewrite El; by left).
    apply ListByApply_elem in Hin as [Hin Ha].
    set (o' := if (op_ApplyID o =? a_ID apply) && (op_State o == Apply.Pending) && true
               then set_op_UpdatedAt (now s) (set_op_State Apply.Stopped o) else o).
    assert (o' ∈ ListByApply (a_ID apply) s') as Ho'.
    { apply ListByApply_elem. split; [|unfold o'; by destruct (_ && _ && true)].
      rewrite Eo. apply list_elem_of_fmap. by exists o. }
    rewrite E in Ho'. by apply elem_of_nil in Ho'.
  - intros c (o & -> & [Ho Ha]%ListByApply_elem)%list_elem_of_fmap. cbn.
    specialize (Hs o Ho Ha). apply oneOf_elem. by elem_cases Hs.
  - apply forallb_elem. intros c (o & -> & [Ho Ha]%ListByApply_elem)%list_elem_of_fmap. cbn.
    specialize (Hs o Ho Ha). by elem_cases Hs.
Qed.

(** An operation claimed under a terminal parent mirrors it.  Whatever state the
    claimed row was in, reconciliation with a parent in a terminal state leaves the
    row in the parent's state.  In particular a healthy deployment parked at the
    cutover barrier, which expiry of the apply leaves untouched so that it may still
    cut over, is marked failed by the very claim that would cut it over. *)
Theorem reconcile_mirrors_parent (fr : bool) (clock : Z) (ctx : leaseCtx) (g : operationWriteGuard)
    (s : store) (o : ApplyOperation) (parent : Apply)
    (Hg : operationWriteGuardFromContext ctx = Ok g) (Hnd : NoDup (op_ID <$> operations s))
    (Ho : o ∈ operations s) (Hlease : guardPredicate s g o = true)
    (Hparent : a_State parent ∈ terminalApplyStates) :
  exists o', findOperation (op_ID o)
      (run (reconcileClaimedOperationFromTerminalParent fr clock ctx o parent) s).1 = Some o' /\
    op_State o' = a_State parent.
Proof.
  destruct (persist_hit fr ctx g s o (a_State parent) (a_ErrorMessage parent) Hg Hnd Ho Hlease)
    as (s1 & o' & E & _ & _ & Hf & Hset & _).
  { apply oneOf_elem. by elem_cases Hparent. }
  exists o'. split; [|done]. unfold reconcileClaimedOperationFromTerminalParent, markOperationFromApplyState.
  rewrite run_bind, E. cbn [fst snd]. rewrite <- Hf. unfold findOperation. f_equal.
  apply (run_preserves (fun s => operations s = operations s1)); [|done].
  apply preserves_bind; [apply projection_keeps_operations|done].
Qed.

(** The store of the witness: an apply whose retry budget is spent, with a failed
    first deployment and a second one parked at the barrier. *)
Definition parkedStore : store :=
  exampleStore (set_a_Attempt 10 (exampleApply Apply.FailedRetryable))
    [exampleOp 1 "us" Apply.FailedRetryable CutoverPolicyBarrier OnFailureContinue;
     exampleOp 2 "eu" Apply.WaitingForCutover CutoverPolicyBarrier OnFailureContinue] [].

Definition parkedClaimed : store :=
  (run (FindNextApplyOperationCutover (fun _ => false) "op-1" "tok") (ExpireRetryable parkedStore).1).1.

Definition parkedOp : ApplyOperation :=
  set_op_State Apply.CuttingOver (set_op_LeaseOwner "op-1" (set_op_LeaseToken "tok"
    (set_op_LeaseAcquiredAt (Some 1000)
      (exampleOp 2 "eu" Apply.WaitingForCutover CutoverPolicyBarrier OnFailureContinue)))).

Lemma reconcile_mirrors_parent_witness :
  let l := {| ol_ApplyID := 1; ol_OperationID := 2; ol_Owner := "w"; ol_Token := "tok" |} in
  let ctx := {| ApplyLeaseFromContext := None; OperationLeaseFromContext := Some l |} in
  op_State <$> operations (ExpireRetryable parkedStore).1 = [Apply.Failed; Apply.WaitingForCutover] /\
  op_State <$> operations parkedClaimed = [Apply.Failed; Apply.CuttingOver] /\
  exists parent, findApply 1 parkedClaimed = Some parent /\ a_State parent = Apply.Failed /\
  exists o', findOperation 2
    (run (reconcileClaimedOperationFromTerminalParent true 1000 ctx parkedOp parent) parkedClaimed).1
      = Some o' /\ op_State o' = a_State parent.
Proof.
  intros l ctx. split; [vm_compute; reflexivity|]. split; [vm_compute; reflexivity|].
  exists (default (exampleApply "") (findApply 1 parkedClaimed)).
  split; [vm_compute; reflexivity|]. split; [vm_compute; reflexivity|].
  apply (reconcile_mirrors_parent true 1000 ctx (operationGuardOperation l) parkedClaimed parkedOp).
  - reflexivity.
  - apply (bool_decide_unpack _). vm_compute. exact I.
  - apply list_elem_of_In. vm_compute. right. left. reflexivity.
  - reflexivity.
  - apply oneOf_elem. vm_compute. reflexivity.
Defined.

Lemma hasSibling_count s o :
  NoDup (op_ID <$> operations s) -> o ∈ operations s ->
  hasSibling s o = (1 <? length (ListByApply (op_ApplyID o) s))%nat.
Proof.
  intros Hnd Ho. assert (Hin : o ∈ ListByApply (op_ApplyID o) s) by by apply ListByApply_elem.
  destruct (hasSibling s o) eqn:E.
  - apply existsb_elem in E as (x & Hx & Hp). reflect_guards.
    assert (Hin' : x ∈ ListByApply (op_ApplyID o) s) by by apply ListByApply_elem.
    destruct (ListByApply _ s) as [|y [|z l]]; [by apply elem_of_nil in Hin| |done].
    apply list_elem_of_singleton in Hin as ->, Hin' as ->. done.
  - destruct (ListByApply _ s) as [|y [|z l]] eqn:El; [done..|]. exfalso.
    assert (Hp : ListByApply (op_ApplyID o) s ≡ₚ filter (fun x => op_ApplyID x = op_ApplyID o) (operations s))
      by apply merge_sort_Permutation.
    assert (Hnd' : NoDup (op_ID <$> ListByApply (op_ApplyID o) s)).
    { rewrite Hp. clear - Hnd. induction (operations s) as [|x l IH]; [done|].
      cbn in Hnd. apply NoDup_cons in Hnd as [Hx Hnd]. rewrite filter_cons. case_decide; [|by apply IH].
      cbn. apply NoDup_cons. split; [|by apply IH]. intros (y & Ey & Hy)%list_elem_of_fmap.
      apply list_elem_of_filter in Hy as [_ Hy]. apply Hx. rewrite Ey. by apply list_elem_of_fmap_2. }
    rewrite El in Hnd'. cbn in Hnd'. apply NoDup_cons in Hnd' as [Hyz _].
    apply not_true_iff_false in E. apply E, existsb_elem.
    assert (Hy : y ∈ ListByApply (op_ApplyID o) s) by (rewrite El; by left).
    assert (Hz : z ∈ ListByApply (op_ApplyID o) s) by (rewrite El; right; by left).
    apply ListByApply_elem in Hy as [Hy Hya], Hz as [Hz Hza].
    destruct (Z.eqb_spec (op_ID y) (op_ID o)) as [Ey|Ey].
    + exists z. split; [done|]. rewrite Hza, Z.eqb_refl. apply negb_true_iff, Z.eqb_neq.
      intros Ez. apply Hyz. apply elem_of_cons. left. congruence.
    + exists y. split; [done|]. rewrite Hya, Z.eqb_refl. by apply negb_true_iff, Z.eqb_neq.
Qed.

(** What parks is what is cut over.  The Go predicate that makes an
    operation's copy drive park at the barrier and release its claim is, on every
    row, the eligibility condition of the cutover claim's SQL, with the number of
    operations of the apply for multiOperation; and an operation that so parks is
    driven with the cutover deferred. *)
Theorem barrier_release_matches_cutover_claim (s : store) (a : Apply) (o : ApplyOperation)
    (Hwf : applies_wf s) (Hnd : NoDup (op_ID <$> operations s))
    (Ha : a ∈ applies s) (Ho : o ∈ operations s) (Hparent : op_ApplyID o = a_ID a) :
  let multiOperation := (1 <? length (ListByApply (op_ApplyID o) s))%nat in
  shouldReleaseAtCutoverBarrier a multiOperation (Some o) = cutoverEligible s o /\
  (cutoverEligible s o = true -> ao_DeferCutover (effectiveCopyDriveOptions a multiOperation (Some o)) = true).
Proof.
  cbv zeta. rewrite <- (hasSibling_count s o Hnd Ho).
  assert (E : shouldReleaseAtCutoverBarrier a (hasSibling s o) (Some o) = cutoverEligible s o).
  { unfold shouldReleaseAtCutoverBarrier, shouldAutoDeferCutover, cutoverEligible.
    assert (existsb (fun x => (a_ID x =? op_ApplyID o) && negb (a_DeferCutover x)) (applies s) =
            negb (a_DeferCutover a)) as ->.
    { rewrite Hparent. destruct (negb (a_DeferCutover a)) eqn:Ed.
      - apply (existsb_row _ _ a Ha). by rewrite Z.eqb_refl, Ed.
      - apply not_true_iff_false. rewrite existsb_elem. intros (x & Hx & Hp). reflect_guards.
        rewrite (row_unique a_ID _ x a (wf_nodup _ Hwf) Hx Ha) in *; congruence. }
    unfold IsOrderedCutoverPolicy, oneOf. cbn [existsb]. rewrite orb_false_r. btauto. }
  split; [done|]. rewrite <- E. unfold effectiveCopyDriveOptions, shouldReleaseAtCutoverBarrier, a_DeferCutover.
  by intros ->.
Qed.

(** ** Witnesses and examples *)

Definition degradedOps : list ApplyOperation :=
  [exampleOp 1 "us" Apply.Failed CutoverPolicyRolling OnFailureContinue;
   exampleOp 2 "eu" Apply.Pending CutoverPolicyRolling OnFailureContinue].

Lemma exampleStore_wf_ops a st : a_ID a = 1 -> applies_wf (exampleStore (set_a_State st a) degradedOps []).
Proof.
  intros Ha. apply exampleStore_wf; [done|]. intros o Ho. by elem_cases Ho.
Defined.

Lemma example_canonical a os cs x :
  oneOf (a_State a) applyStates = true -> x ∈ applies (exampleStore a os cs) ->
  a_State x ∈ applyStates.
Proof. intros H Hx. apply list_elem_of_singleton in Hx as ->. by apply oneOf_elem. Defined.

Lemma projection_never_revives_witness :
  let a := exampleApply Apply.Failed in
  let s := exampleStore a degradedOps [] in
  let s' := (run (updateApplyStateFromOperations true 1000 noLease a true) s).1 in
  exists a', a' ∈ applies s' /\ a_State a' = Apply.RunningDegraded.
Proof.
  intros a s s'. set (a' := default a (findApply 1 s')). exists a'.
  assert (Hin : a' ∈ applies s') by (apply list_elem_of_In; vm_compute; left; reflexivity).
  split; [exact Hin|].
  refine (proj1 (proj2 (proj2 (proj2 (projection_never_revives true 1000 noLease a true s s'
    (run (updateApplyStateFromOperations true 1000 noLease a true) s).2 a a'
    (exampleStore_wf_ops a Apply.Failed eq_refl) _ _ _ _ Hin _ eq_refl _))))).
  - apply oneOf_elem. reflexivity.
  - intros x. by apply example_canonical.
  - apply surjective_pairing.
  - by left.
  - vm_compute. reflexivity.
  - vm_compute. reflexivity.
Defined.

Lemma projection_idempotent_witness :
  let a := exampleApply Apply.Running in
  let s := exampleStore a degradedOps [] in
  let s1 := (run (updateApplyStateFromOperations true 1000 noLease a false) s).1 in
  exists apply1 r1, findApply 1 s1 = Some apply1 /\ a_State apply1 = Apply.RunningDegraded /\
    run (updateApplyStateFromOperations true 2000 noLease apply1 false) s1 = (s1, Ok r1) /\
    Swapped r1 = false.
Proof.
  intros a s s1.
  apply (projection_idempotent true 1000 2000 noLease a false false s s1
    {| Swapped := true; PreviousState := Apply.Running; DerivedState := Apply.RunningDegraded;
       BecameTerminal := false; OperationCount := 2 |}).
  - apply (exampleStore_wf_ops a Apply.Running eq_refl).
  - intros x. by apply example_canonical.
  - reflexivity.
  - vm_compute. reflexivity.
Defined.

Lemma gate_agrees_with_projection_witness :
  let s := exampleStore (exampleApply Apply.Running) degradedOps [] in
  let ops := ListByApply 1 s in
  DeriveRolloutApplyState (childOf (releasedFor s 1 ops) <$> ops) = Apply.RunningDegraded.
Proof.
  intros s ops.
  apply (gate_agrees_with_projection s
    (exampleOp 2 "eu" Apply.Pending CutoverPolicyRolling OnFailureContinue)
    (exampleOp 1 "us" Apply.Failed CutoverPolicyRolling OnFailureContinue)).
  - apply NoDup_nil_2.
  - right. by left.
  - by left.
  - reflexivity.
  - discriminate.
  - reflexivity.
  - reflexivity.
  - reflexivity.
  - discriminate.
  - discriminate.
  - intros x Hx _. by elem_cases Hx.
  - vm_compute. reflexivity.
Defined.

Lemma degraded_nodup : NoDup (op_ID <$> degradedOps).
Proof. apply (bool_decide_unpack _). vm_compute. exact I. Defined.

Lemma persist_operation_contract_witness :
  let o := exampleOp 2 "eu" Apply.Pending CutoverPolicyRolling OnFailureContinue in
  let s := exampleStore (exampleApply Apply.Running) degradedOps [] in
  exists s' o', run (persistOperationState true noLease o Apply.Completed "") s = (s', Ok true) /\
    findOperation 2 s' = Some o' /\ op_State o' = Apply.Completed.
Proof.
  intros o s. destruct (persist_operation_contract true noLease operationGuardNone s o
    Apply.Completed "" eq_refl degraded_nodup) as (s' & o' & H1 & _ & _ & H2 & H3 & _).
  - right. by left.
  - reflexivity.
  - by left.
  - by exists s', o'.
Defined.

Lemma stop_settles_rollout_witness :
  let a := exampleApply Apply.Running in
  let s := exampleStore a degradedOps [] in
  let '(s', r) := run (markPendingOperationsStopped true noLease a) s in
  r = Ok tt /\
  (forall o, o ∈ operations s' -> op_ApplyID o = a_ID a -> op_State o ∈ terminalApplyStates) /\
  IsTerminalApplyState (DeriveRolloutApplyState (childOf false <$> ListByApply (a_ID a) s')) = true.
Proof.
  intros a s. apply (stop_settles_rollout true false a s).
  - discriminate.
  - intros o Ho _. elem_cases Ho.
    + right. apply oneOf_elem. reflexivity.
    + by left.
Defined.

Lemma barrier_release_matches_cutover_claim_witness :
  let s := parkedClaimed in
  exists a, findApply 1 s = Some a /\
  shouldReleaseAtCutoverBarrier a (1 <? length (ListByApply 1 s))%nat (Some parkedOp) =
    cutoverEligible s parkedOp.
Proof.
  intros s. exists (default (exampleApply "") (findApply 1 s)). split; [vm_compute; reflexivity|].
  refine (proj1 (barrier_release_matches_cutover_claim s _ parkedOp _ _ _ _ _)).
  - split.
    + apply (bool_decide_unpack _). vm_compute. exact I.
    + vm_compute. reflexivity.
    + intros x Hx. apply list_elem_of_In in Hx. vm_compute in Hx. destruct Hx as [<-|[]].
      split; vm_compute; reflexivity.
    + intros x Hx. apply list_elem_of_In in Hx. vm_compute in Hx.
      destruct Hx as [<-|[<-|[]]]; vm_compute; reflexivity.
  - apply (bool_decide_unpack _). vm_compute. exact I.
  - apply list_elem_of_In. vm_compute. left. reflexivity.
  - apply list_elem_of_In. vm_compute. right. left. reflexivity.
  - vm_compute. reflexivity.
Defined.

(** ** The reopen and the one-active-apply rule *)

Definition rolloutStore : store :=
  exampleStore (set_a_Attempt 10 (exampleApply Apply.FailedRetryable))
    [exampleOp 1 "us" Apply.FailedRetryable CutoverPolicyParallel OnFailureContinue;
     set_op_LeaseToken "t2" (exampleOp 2 "eu" Apply.Running CutoverPolicyParallel OnFailureContinue);
     exampleOp 3 "ap" Apply.Pending CutoverPolicyParallel OnFailureContinue] [].

Definition driverCtx : leaseCtx :=
  {| ApplyLeaseFromContext := None;
     OperationLeaseFromContext := Some {| ol_ApplyID := 1; ol_OperationID := 2; ol_Owner := "w"; ol_Token := "t2" |} |}.

Definition expiredStore : store := (ExpireRetryable rolloutStore).1.
Definition secondApplyStore : store := (Create (fun x => x) (exampleInput "eu") expiredStore).1.
Definition drivenStore : store := (run (Operations.MarkCompleted true driverCtx 2) secondApplyStore).1.
Definition parentRow (s : store) : Apply := default (exampleApply "") (findApply 1 s).
Definition reopenedStore : store :=
  (run (updateApplyStateFromOperations true 1000 driverCtx (parentRow drivenStore) true) drivenStore).1.

(** The reopen of a failed parent is not checked against other applies.  From a
    store that satisfies the one-active-apply rule: an apply with a spent retry
    budget expires to failed while a deployment is still being driven under
    continue; a second apply of that deployment is then accepted; the driver
    finishes its deployment and its projection reopens the failed parent, each
    step succeeding under a valid lease, and two active applies own the same
    deployment of the same target. *)
Theorem reopen_bypasses_target_check :
  oneActive rolloutStore /\
  a_State (parentRow expiredStore) = Apply.Failed /\
  (Create (fun x => x) (exampleInput "eu") expiredStore).2 = Ok 100 /\
  (run (Operations.MarkCompleted true driverCtx 2) secondApplyStore).2 = Ok tt /\
  a_State (parentRow drivenStore) = Apply.Failed /\
  a_State (parentRow reopenedStore) = Apply.RunningDegraded /\
  ~ exclusive reopenedStore.
Proof.
  split.
  { apply exampleStore_oneActive; [reflexivity|]. intros o Ho. by elem_cases Ho. }
  do 5 (split; [vm_compute; reflexivity|]). intros H.
  apply (H (parentRow reopenedStore)
           (default (exampleApply "") (findApply 100 reopenedStore))) with "eu".
  - apply list_elem_of_In. vm_compute. left. reflexivity.
  - apply list_elem_of_In. vm_compute. right. left. reflexivity.
  - vm_compute. discriminate.
  - vm_compute. reflexivity.
  - vm_compute. reflexivity.
  - vm_compute. reflexivity.
  - vm_compute. auto.
  - right. exists (default (exampleOp 0 "" "" "" "") (findOperation 2 reopenedStore)).
    split; [apply list_elem_of_In; vm_compute; right; left; reflexivity|]. by vm_compute.
  - left. vm_compute. reflexivity.
Qed.
