(* ===== verification/Fencing.v ===== *)
(** * Fencing: what the leased stores promise a displaced driver

    A driver works under a lease and may lose it at any statement: another driver
    claims the row and rotates the token.  [LeaseFenced] is the promise the stores
    of Operations.v and Applies.v make to the operator of Projection.v about every
    leased write: once the lease of the context is lost, none of its statements
    changes a table and its result is an error.  The instances discharge the
    promise; the settlements and the projection are proved against it, with other
    connections committing between any two statements. *)
From S2P Require Import Prelude State Sql Store Operations Applies Control Projection.

Local Open Scope Z_scope.

(** ** Programs that contribute nothing *)

(** Along every execution in which [lost] holds at each statement, no statement
    changes the state and the result satisfies [Q]; statements may fail. *)
Fixpoint inert {S R} (lost : S -> Prop) (Q : R -> Prop) (p : prog S R) : Prop :=
  match p with
  | Ret r => Q r
  | Exec stmt k =>
      (forall s, lost s -> (stmt s).1 = s /\ inert lost Q (k (stmt s).2)) /\
      (forall e, inert lost Q (k (Err e)))
  end.

(** The state after what other connections commit before [k] statements from the
    [n]-th on. *)
Fixpoint drift {S} (env : nat -> envStep S) (n k : nat) (s : S) : S :=
  match k with
  | 0%nat => s
  | Datatypes.S k' => drift env (Datatypes.S n) k' (interfere (env n) s)
  end.

Lemma inert_runE {S R} (lost : S -> Prop) (Q : R -> Prop) (env : nat -> envStep S) (p : prog S R) n s s' r n' :
  keeps lost env -> inert lost Q p -> lost s -> runE env n p s = (s', r, n') ->
  Q r /\ exists k, n' = (n + k)%nat /\ s' = drift env n k s.
Proof.
  intros Henv. revert n s. induction p as [x | A stmt k IH]; intros n s Hp Hs Hrun.
  { cbn in Hrun. simplify_eq. split; [done|]. exists 0%nat. split; [lia|done]. }
  destruct Hp as [Hst Hk]. cbn in Hrun. specialize (Henv n s Hs) as Hl.
  assert (Hnext : forall a, inert lost Q (k a) ->
            runE env (Datatypes.S n) (k a) (interfere (env n) s) = (s', r, n') ->
            Q r /\ exists j, n' = (n + j)%nat /\ s' = drift env n j s).
  { intros a Ha Hr. destruct (IH a _ _ Ha Hl Hr) as (HQ & j & -> & ->). split; [done|].
    exists (Datatypes.S j). split; [lia|done]. }
  destruct (fault (env n)) as [e|]; [by eapply Hnext|].
  destruct (Hst _ Hl) as [Es Hi]. destruct (stmt _) as [s1 a]. cbn in Es, Hi. subst s1.
  by eapply Hnext.
Qed.

Lemma inert_bind {S R R'} (lost : S -> Prop) (Q : R -> Prop) (Q' : R' -> Prop) (p : prog S R)
    (f : R -> prog S R') :
  inert lost Q p -> (forall r, Q r -> inert lost Q' (f r)) -> inert lost Q' (pbind p f).
Proof.
  intros Hp Hf. induction p as [r | A stmt k IH]; cbn in *; [by apply Hf|].
  destruct Hp as [Hs Hk]. split; [|auto]. intros s Hl. destruct (Hs s Hl). auto.
Qed.

Lemma inert_weaken {S R} (lost : S -> Prop) (Q Q' : R -> Prop) (p : prog S R) :
  (forall r, Q r -> Q' r) -> inert lost Q p -> inert lost Q' p.
Proof.
  intros HQ. induction p as [r | A stmt k IH]; cbn; [apply HQ|].
  intros [Hs Hk]. split; [|auto]. intros s Hl. destruct (Hs s Hl). auto.
Qed.

Lemma inert_read {A R} (lost : store -> Prop) (Q : R -> Prop) (f : store -> A)
    (k : res A -> prog store R) :
  (forall r, inert lost Q (k r)) -> inert lost Q (Exec (read f) k).
Proof. intros H. split; [|done]. by intros s _. Qed.

(** ** The interface *)

Definition failed {A} (r : res A) : Prop := match r with Ok _ => False | Err _ => True end.

(** The lease the writes of [ctx] are guarded by is gone: the operation's, if the
    context carries one (the dual context included), else the apply's. *)
Definition leaseLost (ctx : leaseCtx) (s : store) : Prop :=
  match OperationLeaseFromContext ctx with
  | Some l => operationLeaseOwnsRow (ol_OperationID l) (ol_Token l) s = false
  | None =>
      match ApplyLeaseFromContext ctx with
      | Some l => applyTokenIs s (al_ApplyID l) (al_Token l) = false
      | None => False
      end
  end.

(** A driver writes the operation it claimed. *)
Class Covers (ctx : leaseCtx) (id : Z) : Prop :=
  covers : forall l, OperationLeaseFromContext ctx = Some l -> id = ol_OperationID l.

Class LeaseFenced (ctx : leaseCtx) {A} (p : prog store (res A)) : Prop :=
  lease_fenced : inert (leaseLost ctx) failed p.

(** ** The stores keep the promise *)

Lemma updateOps_none p f s : existsb p (operations s) = false -> updateOps p f s = s.
Proof.
  intros H. destruct s as [? l ? ? ? ? ?]. unfold updateOps, set_operations. cbn in *. f_equal.
  induction l as [|a l IH]; [done|]. cbn in H |- *. apply orb_false_iff in H as [H1 H2].
  by rewrite H1, IH.
Qed.

(** Under a lost lease no row passes the guard of an operation write. *)
Lemma guard_lost ctx g id s :
  Covers ctx id -> operationWriteGuardFromContext ctx = Ok g -> leaseLost ctx s ->
  existsb (fun o => (op_ID o =? id) && guardPredicate s g o) (operations s) = false.
Proof.
  unfold operationWriteGuardFromContext, leaseLost. intros Hc Hg Hl.
  destruct (OperationLeaseFromContext ctx) as [l|] eqn:El.
  - destruct (negb _); [done|]. injection Hg as <-. rewrite (Hc l El). exact Hl.
  - destruct (ApplyLeaseFromContext ctx) as [l|]; [|done]. destruct (negb _); [done|].
    injection Hg as <-. apply not_true_iff_false. intros (o & _ & Ho)%existsb_elem.
    cbn in Ho. reflect_guards. congruence.
Qed.

(** The check after a write of no row finds the lease lost, or fails. *)
Lemma check_lost ctx g id :
  Covers ctx id -> operationWriteGuardFromContext ctx = Ok g ->
  inert (leaseLost ctx) failed (checkUpdatedOrExists 0 id g false).
Proof.
  unfold operationWriteGuardFromContext, leaseLost. intros Hc Hg.
  destruct (OperationLeaseFromContext ctx) as [l|] eqn:El.
  - destruct (negb _); [done|]. injection Hg as <-. rewrite (Hc l El). split; [|done].
    intros s Hl. cbn [read fst snd]. rewrite Hl. split; [done|]. apply inert_read.
    by intros [[]|e].
  - destruct (ApplyLeaseFromContext ctx) as [l|].
    + destruct (negb _); [done|]. injection Hg as <-. split; [|done].
      intros s Hl. cbn [read fst snd]. by rewrite Hl.
    + injection Hg as <-. by split.
Qed.

#[export] Instance fenced_execStateUpdate fr ctx id set :
  Covers ctx id -> LeaseFenced ctx (execStateUpdate fr ctx id set).
Proof.
  intros Hc. unfold LeaseFenced, execStateUpdate, guardedUpdate.
  destruct (operationWriteGuardFromContext ctx) as [g|e] eqn:Hg; [|done]. split; [|done].
  intros s Hl. pose proof (guard_lost ctx g id s Hc Hg Hl) as Hn. cbn [fst snd].
  rewrite updateOps_none, affected_none by done. split; [done|]. by apply check_lost.
Qed.

#[export] Instance fenced_UpdateState fr ctx id st :
  Covers ctx id -> LeaseFenced ctx (UpdateState fr ctx id st).
Proof. apply _. Qed.

#[export] Instance fenced_MarkStarted fr ctx id :
  Covers ctx id -> LeaseFenced ctx (MarkStarted fr ctx id).
Proof. apply _. Qed.

#[export] Instance fenced_MarkCompleted fr ctx id :
  Covers ctx id -> LeaseFenced ctx (MarkCompleted fr ctx id).
Proof. apply _. Qed.

#[export] Instance fenced_MarkFailed fr ctx id msg :
  Covers ctx id -> LeaseFenced ctx (MarkFailed fr ctx id msg).
Proof. apply _. Qed.

#[export] Instance fenced_MarkTerminal fr ctx id st :
  Covers ctx id -> LeaseFenced ctx (MarkTerminal fr ctx id st).
Proof. apply _. Qed.

#[export] Instance fenced_SaveExternalID fr ctx id ext :
  Covers ctx id -> LeaseFenced ctx (SaveExternalID fr ctx id ext).
Proof. intros Hc. unfold SaveExternalID. destruct (_ == _); [done|apply _]. Qed.

#[export] Instance fenced_SaveExternalOperationID fr ctx id ext :
  Covers ctx id -> LeaseFenced ctx (SaveExternalOperationID fr ctx id ext).
Proof. intros Hc. unfold SaveExternalOperationID. destruct (_ == _); [done|apply _]. Qed.

#[export] Instance fenced_SaveEngineResumeState fr ctx id rs :
  Covers ctx id -> LeaseFenced ctx (SaveEngineResumeState fr ctx id rs).
Proof.
  intros Hc. unfold SaveEngineResumeState. destruct rs as [rs|]; [|done].
  destruct (_ && _); [done|apply _].
Qed.

(** The confirmation of an apply lease after a write of no row. *)
Lemma confirm_lost ctx l :
  OperationLeaseFromContext ctx = None -> ApplyLeaseFromContext ctx = Some l ->
  inert (leaseLost ctx) failed (confirmLeaseOnZeroRows 0 l).
Proof.
  intros Ho Ha. unfold confirmLeaseOnZeroRows, leaseLost. rewrite Ho, Ha. split; [|done].
  intros s Hl. cbn [read fst snd]. by rewrite Hl.
Qed.

Lemma applyLease_found ctx id l :
  applyLeaseFromContext ctx id = Ok (Some l) ->
  ApplyLeaseFromContext ctx = Some l /\ al_ApplyID l = id.
Proof.
  unfold applyLeaseFromContext. destruct (ApplyLeaseFromContext ctx) as [l'|]; [|done].
  destruct (negb (ApplyLease_Valid l')); [done|]. destruct (al_ApplyID l' =? id) eqn:E; [|done].
  intros [= ->]. by apply Z.eqb_eq in E.
Qed.

Lemma applyLease_absent ctx id :
  applyLeaseFromContext ctx id = Ok None -> ApplyLeaseFromContext ctx = None.
Proof.
  unfold applyLeaseFromContext. destruct (ApplyLeaseFromContext ctx); [|done].
  by repeat case_match.
Qed.

#[export] Instance fenced_Heartbeat fr ctx id :
  OperationLeaseFromContext ctx = None -> LeaseFenced ctx (Applies.Heartbeat fr ctx id).
Proof.
  intros Ho. unfold LeaseFenced, Applies.Heartbeat. destruct (operationLeaseOnly ctx); [done|].
  destruct (applyLeaseFromContext ctx id) as [[l|]|e] eqn:El; [| |done]; (split; [|done]); intros s Hl.
  - apply applyLease_found in El as [Ha <-]. cbn [fst snd].
    pose proof Hl as Hn. unfold leaseLost in Hn. rewrite Ho, Ha in Hn. unfold applyTokenIs in Hn.
    rewrite updateApplies_none, affected_none by done. split; [done|].
    eapply inert_bind; [by apply confirm_lost|]. by intros [r|e].
  - apply applyLease_absent in El. unfold leaseLost in Hl. by rewrite Ho, El in Hl.
Qed.

(** Under a lost lease the guard of the compare-and-swap passes no row. *)
Lemma derived_lost ctx g id s :
  derivedStateGuardForContext ctx id = Ok g -> leaseLost ctx s ->
  ensureStillOwned g s = false /\
  forall p, existsb (fun a => (a_ID a =? id) && p a && derivedGuardHolds s g a) (applies s) = false.
Proof.
  unfold derivedStateGuardForContext, leaseLost. intros Hg Hl.
  destruct (OperationLeaseFromContext ctx) as [l|].
  - destruct (negb _); [done|]. destruct (negb _); [done|]. injection Hg as <-.
    assert (Ho : ensureOperationLeaseOwnsApply l id s = false).
    { eapply existsb_impl; [|exact Hl]. intros o Hx. cbn in Hx. reflect_guards.
      apply andb_true_iff. split; [by apply Z.eqb_eq|by apply eqb_true_iff]. }
    split; [done|]. intros p. apply not_true_iff_false. intros (a & _ & Hx)%existsb_elem.
    cbn [derivedGuardHolds] in Hx. rewrite Ho, andb_false_r in Hx. done.
  - destruct (applyLeaseFromContext ctx id) as [[l|]|e] eqn:El; [| |done]; injection Hg as <-.
    + apply applyLease_found in El as [Ha <-]. rewrite Ha in Hl. split; [done|]. intros p.
      eapply existsb_impl; [|exact Hl]. intros a Hx. cbn in Hx. reflect_guards.
      apply andb_true_iff. split; [by apply Z.eqb_eq|by apply eqb_true_iff].
    + apply applyLease_absent in El. by rewrite El in Hl.
Qed.

#[export] Instance fenced_UpdateDerivedState fr ctx id expected new msg started completed :
  LeaseFenced ctx (UpdateDerivedState fr ctx id expected new msg started completed).
Proof.
  unfold LeaseFenced, UpdateDerivedState.
  destruct (derivedStateGuardForContext ctx id) as [g|e] eqn:Hg; [|done]. split; [|done].
  intros s Hl. destruct (derived_lost ctx g id s Hg Hl) as [_ Hn]. cbn [fst snd].
  rewrite updateApplies_none, affected_none by done. split; [done|]. cbn [Z.ltb Z.compare].
  split; [|done]. intros s' Hl'. cbn [read fst snd].
  destruct (derived_lost ctx g id s' Hg Hl') as [-> _]. done.
Qed.

#[export] Instance fenced_MarkPendingStoppedByApply fr ctx id :
  LeaseFenced ctx (MarkPendingStoppedByApply fr ctx id).
Proof.
  unfold LeaseFenced, MarkPendingStoppedByApply.
  assert (Hstop : forall auth s, auth s = false -> stopPending fr auth id s = (s, Ok 0)).
  { intros auth s Ha. unfold stopPending.
    assert (Hn : existsb (fun o => (op_ApplyID o =? id) && (op_State o == Apply.Pending) && auth s)
                   (operations s) = false).
    { apply not_true_iff_false. intros (o & _ & Hx)%existsb_elem. by rewrite Ha, andb_false_r in Hx. }
    by rewrite updateOps_none, affected_none. }
  destruct (OperationLeaseFromContext ctx) as [l|] eqn:Ho.
  - destruct (negb _); [done|]. destruct (negb _); [done|]. split; [|done]. intros s Hl.
    unfold leaseLost in *. rewrite Ho in *. rewrite Hstop.
    2: { eapply existsb_impl; [|exact Hl]. intros o Hx. cbn in Hx. reflect_guards.
         apply andb_true_iff. split; [by apply Z.eqb_eq|by apply eqb_true_iff]. }
    split; [done|]. cbn [snd Z.eqb]. split; [|done]. intros s' Hl'. cbn [read fst snd].
    by rewrite Hl'.
  - destruct (applyLeaseFromContext ctx id) as [[l|]|e] eqn:El; [| |done]; (split; [|done]); intros s Hl.
    + apply applyLease_found in El as [Ha <-]. rewrite Hstop.
      * split; [done|]. by apply confirm_lost.
      * unfold leaseLost in Hl. by rewrite Ho, Ha in Hl.
    + apply applyLease_absent in El. unfold leaseLost in Hl. by rewrite Ho, El in Hl.
Qed.

(** ** The operator against the interface *)

(** A fenced write, its outcome turned into an answer that reports no settlement. *)
Lemma fenced_bind {A R} ctx (p : prog store (res A)) (f : res A -> prog store R) (Q : R -> Prop) :
  LeaseFenced ctx p -> (forall e, inert (leaseLost ctx) Q (f (Err e))) ->
  inert (leaseLost ctx) Q (pbind p f).
Proof. intros Hp Hf. eapply inert_bind; [exact Hp|]. by intros [a|e]. Qed.

Definition notSettled (r : res bool) : Prop := r <> Ok true.
Definition notSwapped (r : res applyProjectionResult) : Prop :=
  match r with Ok r => Swapped r = false | Err _ => True end.

Lemma persist_inert fr ctx op derived msg :
  Covers ctx (op_ID op) ->
  inert (leaseLost ctx) notSettled (persistOperationState fr ctx op derived msg).
Proof.
  intros Hc. unfold persistOperationState.
  repeat (destruct (IsState _ _); [apply fenced_bind; [apply _|done]|]).
  destruct (IsTerminalApplyState _); [apply fenced_bind; [apply _|done]|done].
Qed.

Lemma project_inert fr clock ctx apply reopen :
  inert (leaseLost ctx) notSwapped (updateApplyStateFromOperations fr clock ctx apply reopen).
Proof.
  assert (Hp : forall ops released, inert (leaseLost ctx) notSwapped
                 (projectFrom fr clock ctx apply reopen ops released)).
  { intros ops released. unfold projectFrom. destruct (_ && _); [done|].
    destruct (_ && _); [done|]. apply fenced_bind; [apply _|done]. }
  apply inert_read. intros [ops|e]; [|done]. destruct (_ =? 0)%nat; [done|].
  destruct (anyPauseOnFailure ops); [|done]. apply inert_read. by intros [rq|e].
Qed.

Lemma reconcile_inert fr clock ctx op parent :
  Covers ctx (op_ID op) ->
  inert (leaseLost ctx) (fun _ => True)
    (reconcileClaimedOperationFromTerminalParent fr clock ctx op parent).
Proof.
  intros Hc. eapply inert_bind; [by apply persist_inert|]. by intros [[]|e].
Qed.

Lemma stop_inert fr ctx apply :
  inert (leaseLost ctx) (fun _ => True) (stopPendingOperationsForPendingStop fr ctx apply).
Proof.
  apply inert_read. intros [[rq|]|e]; [|done..]. unfold markPendingOperationsStopped.
  apply fenced_bind; [apply _|done].
Qed.

(** ** A lost lease stays lost *)

(** A write that keeps the identifiers and hands out no token equal to [token]. *)
Lemma owns_update id token p f s :
  (forall o, op_ID (f o) = op_ID o) ->
  (forall o, op_LeaseToken (f o) = op_LeaseToken o \/ op_LeaseToken (f o) <> token) ->
  operationLeaseOwnsRow id token s = false -> operationLeaseOwnsRow id token (updateOps p f s) = false.
Proof.
  intros Hid Htok. unfold operationLeaseOwnsRow. rewrite <- !not_true_iff_false, !existsb_elem.
  intros H (o' & Ho' & Hx). cbn in Ho'. apply list_elem_of_fmap in Ho' as (o & -> & Ho).
  apply H. exists o. split; [done|]. destruct (p o); [|done]. rewrite Hid in Hx.
  destruct (Htok o) as [<-|Hne]; [done|]. reflect_guards. done.
Qed.

Lemma claimOperation_keeps_lost owner token ad id lost s :
  token <> lost -> operationLeaseOwnsRow id lost s = false ->
  operationLeaseOwnsRow id lost (claimOperation owner token ad s).1 = false.
Proof.
  intros Hne Hs. unfold claimOperation.
  destruct (op_State ad == Apply.Pending); [destruct (existsb _ _); [|done]; apply owns_update; auto|].
  destruct (op_State ad == Apply.Stopped); [destruct (existsb _ _); [|done]; apply owns_update; auto|].
  assert (H1 : operationLeaseOwnsRow id lost
            (updateOps (fun o => op_ID o =? op_ID ad) (leaseOp owner token s) s) = false)
    by (apply owns_update; auto).
  destruct (op_State ad == Apply.FailedRetryable); [|done].
  match goal with |- operationLeaseOwnsRow _ _ (updateApplies _ _ ?s2, _).1 = _ =>
    change (operationLeaseOwnsRow id lost s2 = false) end.
  destruct (existsb _ _); [|done].
  apply owns_update; [..|done]; intros o; rewrite touchOp_keep by done; auto.
Qed.

Lemma claimCutover_keeps_lost owner token ad id lost s :
  token <> lost -> operationLeaseOwnsRow id lost s = false ->
  operationLeaseOwnsRow id lost (claimCutover owner token ad s).1 = false.
Proof.
  intros Hne Hs. unfold claimCutover. destruct (_ == _); [destruct (existsb _ _); [|done]|];
    apply owns_update; auto.
Qed.

(** Claims rotate to a fresh token, so they keep a lost operation lease lost. *)
Lemma claims_keep_lost ctx l locked owner token :
  OperationLeaseFromContext ctx = Some l -> token <> ol_Token l ->
  preserves (leaseLost ctx) (FindNextApplyOperation locked owner token) /\
  preserves (leaseLost ctx) (FindNextApplyOperationCutover locked owner token).
Proof.
  intros Hl Hne. unfold leaseLost. rewrite Hl.
  split; unfold FindNextApplyOperation, FindNextApplyOperationCutover; (destruct (owner == ""); [done|]);
    apply read_preserves; intros [[ad|]|e]; try done; (split; [|done]); intros s Hs;
    [by apply claimOperation_keeps_lost|by apply claimCutover_keeps_lost].
Qed.

(** ** Properties *)

(** Whatever the other connections commit around its statements, as long as the
    lease stays lost, the program leaves the tables exactly as they make them. *)
Definition contributesNothing {R} (ctx : leaseCtx) (Q : R -> Prop) (p : prog store R) : Prop :=
  forall env s s' r n, keeps (leaseLost ctx) env -> leaseLost ctx s ->
    runE env 0 p s = (s', r, n) -> Q r /\ s' = drift env 0 n s.

Lemma inert_contributes {R} ctx (Q : R -> Prop) (p : prog store R) :
  inert (leaseLost ctx) Q p -> contributesNothing ctx Q p.
Proof.
  intros Hp env s s' r n Henv Hs Hrun.
  destruct (inert_runE _ _ _ _ _ _ _ _ _ Henv Hp Hs Hrun) as (HQ & k & -> & ->). done.
Qed.

(** A displaced driver settles nothing.  A driver whose lease was taken over -
    the operation's lease, alone or beside the apply's, or the apply's alone - goes
    on running its settlement: it persists the outcome of its operation,
    reconciles it with a terminal parent, stops pending siblings, and projects the
    parent apply.  Whatever other connections commit between its statements, and
    whichever of its statements fail, the tables end exactly as the others made
    them; the settlement is not reported as done and the projection reports no
    swap. *)
Theorem displaced_settlement_inert (fr reopen : bool) (clock : Z) (ctx : leaseCtx)
    (op : ApplyOperation) (apply : Apply) (derived msg : string)
    (Hown : forall l, OperationLeaseFromContext ctx = Some l -> op_ID op = ol_OperationID l) :
  contributesNothing ctx notSettled (persistOperationState fr ctx op derived msg) /\
  contributesNothing ctx (fun _ => True)
    (reconcileClaimedOperationFromTerminalParent fr clock ctx op apply) /\
  contributesNothing ctx (fun _ => True) (stopPendingOperationsForPendingStop fr ctx apply) /\
  contributesNothing ctx notSwapped (updateApplyStateFromOperations fr clock ctx apply reopen).
Proof.
  split; [|split; [|split]]; apply inert_contributes;
    [by apply persist_inert|by apply reconcile_inert|apply stop_inert|apply project_inert].
Qed.

(** A driver of the operation with token t1, while another driver claims it again
    with token t2 before every statement. *)
Lemma displaced_settlement_inert_witness :
  let op := set_op_LeaseToken "t2"
              (exampleOp 1 "us" Apply.Running CutoverPolicyRolling OnFailureHalt) in
  let s := exampleStore (exampleApply Apply.Running) [op] [] in
  let l := {| ol_ApplyID := 1; ol_OperationID := 1; ol_Owner := "w"; ol_Token := "t1" |} in
  let ctx := {| ApplyLeaseFromContext := None; OperationLeaseFromContext := Some l |} in
  let claim := {| interfere := fun s => (claimOperation "w2" "t2" op s).1; fault := None |} in
  let out := runE (fun _ => claim) 0 (persistOperationState true ctx op Apply.Completed "") s in
  out.1.2 = Err ErrApplyLeaseLost /\ out.1.1 = drift (fun _ => claim) 0 out.2 s.
Proof.
  intros op s l ctx claim out. split; [vm_compute; reflexivity|].
  refine (proj2 (proj1 (displaced_settlement_inert true false 1000 ctx op
    (exampleApply Apply.Running) Apply.Completed "" _) (fun _ => claim) s out.1.1 out.1.2 out.2 _ _ _)).
  - intros l' [= <-]. reflexivity.
  - intros m t Ht. by apply claimOperation_keeps_lost.
  - reflexivity.
  - unfold out. by destruct (runE _ _ _ _) as [[s' r] n].
Defined.
