(* ===== verification/Tasks.v ===== *)
(** * The task store (mysqlstore/tasks.go)

    A task is one DDL statement of an apply, on one table and, for sharded engines,
    one shard.  The drives write tasks under the lease of their operation or apply;
    the operator writes the progress of single shards as further rows of the same
    table ([UpsertShardProgress]), which the loaders of drive tasks leave out.
    Reads normalise the stored state.  The order of rows created in the same second
    is that of insertion where the query names no tie-break. *)

From S2P Require Import Prelude GoStrings State Sql Store Operations Applies Control Projection Fencing.

Local Open Scope string_scope.
Local Open Scope Z_scope.

(** ** Loading *)

(** [ORDER BY created_at DESC] *)
Definition newerTask (a b : TaskRec) : Prop := tk_CreatedAt b <= tk_CreatedAt a.
#[global] Instance newerTask_dec a b : Decision (newerTask a b).
Proof. unfold newerTask. apply _. Defined.

(** [ORDER BY created_at DESC, id DESC] *)
Definition newerTaskID (a b : TaskRec) : Prop :=
  tk_CreatedAt b < tk_CreatedAt a \/ (tk_CreatedAt b = tk_CreatedAt a /\ tk_ID b <= tk_ID a).
#[global] Instance newerTaskID_dec a b : Decision (newerTaskID a b).
Proof. unfold newerTaskID. apply _. Defined.

(** [ORDER BY namespace, table_name, shard] *)
Definition shardOrder (a b : TaskRec) : Prop :=
  if tk_Namespace a == tk_Namespace b then
    if tk_TableName a == tk_TableName b then stringLe (tk_Shard a) (tk_Shard b)
    else stringLe (tk_TableName a) (tk_TableName b)
  else stringLe (tk_Namespace a) (tk_Namespace b).
#[global] Instance shardOrder_dec a b : Decision (shardOrder a b).
Proof. unfold shardOrder. repeat case_match; apply _. Defined.

(** [ao.operation_key = CONCAT(t.namespace, '/', t.shard, '/', t.table_name)] on a
    work operation; a NULL table name matches no key. *)
Definition keyMatches (o : ApplyOperation) (t : TaskRec) : bool :=
  (op_OperationKind o == ApplyOperationKindWork) && (tk_TableName t != "") &&
  (op_OperationKey o == tk_Namespace t ++ "/" ++ tk_Shard t ++ "/" ++ tk_TableName t).

Definition ownedBy (t : TaskRec) (o : ApplyOperation) : bool :=
  match tk_ApplyOperationID t with Some id => op_ID o =? id | None => false end.

(** The WHERE clause of GetByApplyID: the drive tasks of an apply. *)
Definition driveTask (s : store) (applyID : Z) (t : TaskRec) : bool :=
  (tk_ApplyID t =? applyID) &&
  ((tk_Shard t == "") ||
   existsb (fun o => ownedBy t o && (op_ApplyID o =? tk_ApplyID t) && keyMatches o t) (operations s)).

(** The join and WHERE clause of GetByApplyOperationID. *)
Definition driveTaskOf (s : store) (opID : Z) (t : TaskRec) : bool :=
  bool_decide (tk_ApplyOperationID t = Some opID) &&
  existsb (fun o => ownedBy t o && ((tk_Shard t == "") || keyMatches o t)) (operations s).

Section TaskStore.
Context (E : EngineNames) (foundRows : bool).

(** [scanTaskInto]: the stored state is normalised. *)
Definition scanTask (t : TaskRec) : TaskRec := set_tk_State (NormalizeTaskStatus E (tk_State t)) t.

Definition GetTask (taskIdentifier : string) (s : store) : option TaskRec :=
  scanTask <$> find (fun t => tk_TaskIdentifier t == taskIdentifier) (tasks s).

Definition GetByApplyID (applyID : Z) (s : store) : list TaskRec :=
  scanTask <$> merge_sort newerTask (List.filter (driveTask s applyID) (tasks s)).

Definition CountByApplyID (applyID : Z) (s : store) : Z :=
  Z.of_nat (length (List.filter (fun t => tk_ApplyID t =? applyID) (tasks s))).

Definition GetByApplyOperationID (applyOperationID : Z) (s : store) : list TaskRec :=
  scanTask <$> merge_sort newerTaskID (List.filter (driveTaskOf s applyOperationID) (tasks s)).

Definition GetShardProgressByApplyOperationID (applyOperationID : Z) (s : store) : list TaskRec :=
  scanTask <$> merge_sort shardOrder
    (List.filter (fun t => bool_decide (tk_ApplyOperationID t = Some applyOperationID) &&
                           (tk_Shard t != "")) (tasks s)).

Definition GetByDatabase (database : string) (s : store) : list TaskRec :=
  scanTask <$> merge_sort newerTaskID (List.filter (fun t => tk_Database t == database) (tasks s)).

Definition GetActive (s : store) : list TaskRec :=
  scanTask <$> merge_sort newerTask
    (List.filter (fun t => negb (oneOf (tk_State t) TerminalTaskStates)) (tasks s)).

Definition GetTasksByPR (repo : string) (pr : Z) (s : store) : list TaskRec :=
  scanTask <$> merge_sort newerTask
    (List.filter (fun t => (tk_Repository t == repo) && (tk_PullRequest t =? pr)) (tasks s)).

(** [storage.TaskFilter]; a zero time is [None]. *)
Record TaskFilter := {
  tf_Repository : string;
  tf_PullRequest : Z;
  tf_IncludeCompleted : bool;
  tf_Since : option Z;
}.

Definition ListTasks (f : TaskFilter) (s : store) : list TaskRec :=
  scanTask <$> merge_sort newerTask
    (List.filter (fun t =>
       ((tf_Repository f == "") ||
        ((tk_Repository t == tf_Repository f) &&
         (negb (0 <? tf_PullRequest f) || (tk_PullRequest t =? tf_PullRequest f)))) &&
       (tf_IncludeCompleted f || negb (oneOf (tk_State t) TerminalTaskStates)) &&
       match tf_Since f, tk_StartedAt t with
       | None, _ => true
       | Some since, Some started => since <=? started
       | Some _, None => false
       end) (tasks s)).

(** ** Writing *)

(** The SET clause of Update. *)
Definition setTask (s : store) (task t : TaskRec) : TaskRec :=
  set_tk_State (tk_State task) (set_tk_ErrorMessage (nullString (errorText (tk_ErrorMessage task)))
    (set_tk_Options (nullJSON (tk_Options task)) (set_tk_Attempt (tk_Attempt task)
    (set_tk_Progress (tk_Progress task) (set_tk_CutoverAttempts (tk_CutoverAttempts task)
    (set_tk_IsInstant (tk_IsInstant task) (set_tk_ReadyToComplete (tk_ReadyToComplete task)
    (set_tk_EngineMigrationID (tk_EngineMigrationID task) (set_tk_StartedAt (tk_StartedAt task)
    (set_tk_CompletedAt (tk_CompletedAt task) (set_tk_UpdatedAt (now s) t))))))))))).

(** The lease predicate of a task write, by the leases of the context. *)
Inductive taskGuard :=
| taskUnguarded
| taskOperationLease (l : OperationLease)
| taskApplyLease (l : ApplyLease).

Definition taskGuardFromContext (ctx : leaseCtx) (task : TaskRec) : res taskGuard :=
  match OperationLeaseFromContext ctx with
  | Some l => if negb (OperationLease_Valid l) then Err ErrApplyLeaseLost else Ok (taskOperationLease l)
  | None =>
      match applyLeaseFromContext ctx (tk_ApplyID task) with
      | Err e => Err e
      | Ok (Some l) => Ok (taskApplyLease l)
      | Ok None => Ok taskUnguarded
      end
  end.

Definition taskGuardHolds (s : store) (g : taskGuard) (t : TaskRec) : bool :=
  match g with
  | taskUnguarded => true
  | taskOperationLease l =>
      bool_decide (tk_ApplyOperationID t = Some (ol_OperationID l)) &&
      operationLeaseOwnsRow (ol_OperationID l) (ol_Token l) s
  | taskApplyLease l => applyTokenIs s (tk_ApplyID t) (al_Token l)
  end.

(** [ensureOperationLeaseStillOwned], [ensureApplyLeaseStillOwned] *)
Definition stillOwned (g : taskGuard) (s : store) : bool :=
  match g with
  | taskUnguarded => true
  | taskOperationLease l => operationLeaseOwnsRow (ol_OperationID l) (ol_Token l) s
  | taskApplyLease l => applyTokenIs s (al_ApplyID l) (al_Token l)
  end.

Definition verifyLeaseStillOwned (g : taskGuard) : prog store (res unit) :=
  Exec (read (stillOwned g)) (fun r => Ret match r with
    | Err e => Err e
    | Ok true => Ok tt
    | Ok false => Err ErrApplyLeaseLost
    end).

Definition UpdateTask (ctx : leaseCtx) (task : TaskRec) : prog store (res unit) :=
  match taskGuardFromContext ctx task with
  | Err e => Ret (Err e)
  | Ok g =>
      Exec (fun s =>
        let p t := (tk_ID t =? tk_ID task) && taskGuardHolds s g t in
        (updateTasks p (setTask s task) s, Ok (affected foundRows p (setTask s task) (tasks s))))
      (fun r => match r with
       | Err e => Ret (Err e)
       | Ok rows =>
           match g with
           | taskUnguarded => Ret (Ok tt)
           | _ => if rows =? 0 then verifyLeaseStillOwned g else Ret (Ok tt)
           end
       end)
  end.

(** The row of a shard under an operation. *)
Definition findShardTask (opID : Z) (task : TaskRec) (s : store) : option TaskRec :=
  find (fun t => bool_decide (tk_ApplyOperationID t = Some opID) &&
                 (tk_Namespace t == tk_Namespace task) && (tk_TableName t == tk_TableName task) &&
                 (tk_Shard t == tk_Shard task)) (tasks s).

Definition verifyOperationBelongsToApply (operationID applyID : Z) : prog store (res unit) :=
  Exec (read (findOperation operationID)) (fun r => Ret match r with
    | Err e => Err e
    | Ok None => Err (Errorf "shard progress references an apply_operation that does not exist")
    | Ok (Some o) =>
        if op_ApplyID o =? applyID then Ok tt
        else Err (Errorf "shard progress apply_operation belongs to another apply")
    end).

(** INSERT ... SELECT from the leased row: no row when the lease is gone. *)
Definition insertShardStatement (g : taskGuard) (task : TaskRec) (s : store) : store * res Z :=
  if negb (stillOwned g s) then (s, Ok 0)
  else match insertTask (tk_ApplyID task) (tk_ApplyOperationID task) task s with
       | (s', Ok _) => (s', Ok 1)
       | (s', Err e) => (s', Err e)
       end.

(** [insertShardTaskGuarded], [insertShardTaskGuardedByApply] *)
Definition insertShardTaskGuarded (g : taskGuard) (task : TaskRec) : prog store (res unit) :=
  Exec (insertShardStatement g task) (fun r => match r with
    | Err e => Ret (Err e)
    | Ok rows => if rows =? 0 then verifyLeaseStillOwned g else Ret (Ok tt)
    end).

(** The operation lease of the context, when it is for this operation. *)
Definition shardOperationLease (ctx : leaseCtx) (opID : Z) : res (option OperationLease) :=
  match OperationLeaseFromContext ctx with
  | None => Ok None
  | Some l =>
      if negb (OperationLease_Valid l) then Err ErrApplyLeaseLost
      else if negb (opID =? ol_OperationID l)
      then Err (Errorf "upsert shard progress targets another operation than the held lease")
      else Ok (Some l)
  end.

(** The lease a shard row is written under: the operation's before the apply's. *)
Definition shardGuard (ctx : leaseCtx) (opID applyID : Z) : res taskGuard :=
  let? opLease := shardOperationLease ctx opID in
  let? applyLease := applyLeaseFromContext ctx applyID in
  match opLease, applyLease with
  | Some l, _ => Ok (taskOperationLease l)
  | None, Some l => Ok (taskApplyLease l)
  | None, None => Err (Errorf "upsert shard progress requires an operation or apply lease")
  end.

Definition UpsertShardProgress (ctx : leaseCtx) (task : TaskRec) : prog store (res unit) :=
  match tk_ApplyOperationID task with
  | None => Ret (Err (Errorf "upsert shard progress requires apply_operation_id"))
  | Some opID =>
      match shardGuard ctx opID (tk_ApplyID task) with
      | Err e => Ret (Err e)
      | Ok g =>
          if tk_TableName task == "" then Ret (Err (Errorf "upsert shard progress requires a table name"))
          else if tk_Shard task == "" then Ret (Err (Errorf "upsert shard progress requires a non-empty shard"))
          else
          Exec (read (findShardTask opID task)) (fun r => match r with
            | Err e => Ret (Err e)
            | Ok (Some row) => UpdateTask ctx (set_tk_ID (tk_ID row) task)
            | Ok None =>
                pbind (verifyOperationBelongsToApply opID (tk_ApplyID task)) (fun r => match r with
                | Err e => Ret (Err e)
                | Ok _ => insertShardTaskGuarded g task
                end)
            end)
      end
  end.
End TaskStore.

(** ** A displaced driver writes no task *)

(** [mine] names the rows of the task's apply: rows do not move between applies, and
    those of the task's operation are among them. *)
Definition rowsAgree (mine : Z -> Prop) (task : TaskRec) (s : store) : Prop :=
  forall t, t ∈ tasks s ->
    (mine (tk_ID t) <-> tk_ApplyID t = tk_ApplyID task) /\
    (is_Some (tk_ApplyOperationID task) -> tk_ApplyOperationID t = tk_ApplyOperationID task -> mine (tk_ID t)).

(** The lease is gone. *)
Definition taskLeaseLost (ctx : leaseCtx) (mine : Z -> Prop) (task : TaskRec) (s : store) : Prop :=
  leaseLost ctx s /\ rowsAgree mine task s.

Lemma updateTasks_none p f s : existsb p (tasks s) = false -> updateTasks p f s = s.
Proof.
  intros H. destruct s as [? ? ? l ? ? ?]. unfold updateTasks, set_tasks. cbn in *. f_equal.
  induction l as [|a l IH]; [done|]. cbn in H |- *. apply orb_false_iff in H as [H1 H2].
  by rewrite H1, IH.
Qed.

Lemma applyLease_own ctx applyID l :
  applyLeaseFromContext ctx applyID = Ok (Some l) ->
  ApplyLeaseFromContext ctx = Some l /\ al_ApplyID l = applyID.
Proof.
  unfold applyLeaseFromContext. destruct (ApplyLeaseFromContext ctx) as [l'|]; [|done].
  destruct (negb (ApplyLease_Valid l')); [done|]. destruct (negb _) eqn:E; [done|].
  intros [= <-]. reflect_guards. by split.
Qed.

(** Under a lost lease the guard of a task write is not owned any more. *)
Lemma guard_not_owned ctx task g s :
  taskGuardFromContext ctx task = Ok g -> leaseLost ctx s -> g <> taskUnguarded /\ stillOwned g s = false.
Proof.
  unfold taskGuardFromContext, leaseLost. destruct (OperationLeaseFromContext ctx) as [l|].
  - destruct (negb _); [done|]. by intros [= <-] H.
  - destruct (applyLeaseFromContext _ _) as [[l|]|e] eqn:E; [..|done].
    + apply applyLease_own in E as [-> _]. by intros [= <-] H.
    + unfold applyLeaseFromContext in E. destruct (ApplyLeaseFromContext ctx) as [l|]; [|done].
      by repeat case_match.
Qed.

Lemma guard_holds_owned ctx task g s t :
  taskGuardFromContext ctx task = Ok g -> g <> taskUnguarded -> tk_ApplyID t = tk_ApplyID task ->
  taskGuardHolds s g t = true -> stillOwned g s = true.
Proof.
  unfold taskGuardFromContext. intros Hg Hne Ht.
  destruct (OperationLeaseFromContext ctx) as [l|].
  - destruct (negb _); [done|]. injection Hg as <-. cbn. by intros [_ H]%andb_true_iff.
  - destruct (applyLeaseFromContext _ _) as [[l|]|e] eqn:E; [|by injection Hg as <-|done].
    injection Hg as <-. apply applyLease_own in E as [_ E]. cbn. by rewrite Ht, <- E.
Qed.

Lemma verify_lost (Q : store -> Prop) g :
  (forall s, Q s -> stillOwned g s = false) -> inert Q failed (verifyLeaseStillOwned g).
Proof. intros H. split; [|done]. intros s Hs. cbn. by rewrite (H s Hs). Qed.

Lemma UpdateTask_inert fr ctx task (Q : store -> Prop) :
  (forall s, Q s -> leaseLost ctx s /\
     forall t, t ∈ tasks s -> tk_ID t = tk_ID task -> tk_ApplyID t = tk_ApplyID task) ->
  inert Q failed (UpdateTask fr ctx task).
Proof.
  intros HQ. unfold UpdateTask. destruct (taskGuardFromContext ctx task) as [g|e] eqn:Eg; [|done].
  split; [|done]. intros s Hs. destruct (HQ s Hs) as [Hl Hrows].
  destruct (guard_not_owned _ _ _ _ Eg Hl) as [Hne Ho].
  assert (Hno : existsb (fun t => (tk_ID t =? tk_ID task) && taskGuardHolds s g t) (tasks s) = false).
  { apply not_true_iff_false. intros (t & Ht & Hp)%existsb_elem. reflect_guards.
    pose proof (guard_holds_owned _ _ _ s t Eg Hne ltac:(eauto) ltac:(done)). congruence. }
  cbn [fst snd]. rewrite updateTasks_none, affected_none by done. split; [done|].
  destruct g; [done|..]; apply verify_lost; intros s' Hs'; destruct (HQ s' Hs');
    by eapply guard_not_owned.
Qed.

Lemma shardGuard_not_owned ctx opID task g s :
  shardGuard ctx opID (tk_ApplyID task) = Ok g -> leaseLost ctx s -> stillOwned g s = false.
Proof.
  unfold shardGuard, shardOperationLease, leaseLost.
  destruct (OperationLeaseFromContext ctx) as [l|].
  - destruct (negb (OperationLease_Valid l)); [done|]. destruct (negb _); [done|].
    destruct (applyLeaseFromContext _ _); [|done]. by intros [= <-].
  - destruct (applyLeaseFromContext _ _) as [[l|]|e] eqn:E; [..|done]; [|done].
    apply applyLease_own in E as [-> _]. by intros [= <-].
Qed.

Lemma UpsertShardProgress_inert fr ctx mine task :
  inert (taskLeaseLost ctx mine task) failed (UpsertShardProgress fr ctx task).
Proof.
  unfold UpsertShardProgress. destruct (tk_ApplyOperationID task) as [opID|] eqn:Eop; [|done].
  destruct (shardGuard _ _ _) as [g|e] eqn:Eg; [|done].
  destruct (tk_TableName task == ""); [done|]. destruct (tk_Shard task == ""); [done|].
  assert (Hins : inert (taskLeaseLost ctx mine task) failed (insertShardTaskGuarded g task)).
  { split; [|done]. intros s [Hl _]. unfold insertShardStatement.
    rewrite (shardGuard_not_owned _ _ _ _ _ Eg Hl). split; [done|]. cbn.
    apply verify_lost. intros s' [Hl' _]. by eapply shardGuard_not_owned. }
  split; [|done]. intros s [Hl Hrows]. cbn [read fst snd]. split; [done|].
  destruct (findShardTask opID task s) as [row|] eqn:Ef.
  - apply UpdateTask_inert. intros s' [Hl' Hr']. split; [done|]. intros t Ht Hid. apply Hr'; [done|].
    cbn in Hid. rewrite Hid. apply find_some in Ef as [Hin Hp]. reflect_guards.
    apply Hrows; [by apply list_elem_of_In|by rewrite Eop|congruence].
  - eapply (inert_bind _ (fun _ => True)); [|by intros [u|e] _].
    split; [|done]. intros s' _. split; [done|]. cbn. by destruct (findOperation opID s').
Qed.

(** The tables end as the other connections make them and the write is reported as
    failed. *)
Definition writesNothing (ctx : leaseCtx) (mine : Z -> Prop) (task : TaskRec) (p : prog store (res unit)) : Prop :=
  forall env s s' r n, keeps (taskLeaseLost ctx mine task) env -> taskLeaseLost ctx mine task s ->
    runE env 0 p s = (s', r, n) -> failed r /\ s' = drift env 0 n s.

(** A displaced driver writes no task.  Once the lease a drive works under - its
    operation's, else its apply's - is not the current one any more, neither the
    update of a task nor the progress of a shard changes a table, whatever other
    connections commit between its statements and whichever of its statements fail;
    both report an error. *)
Theorem displaced_task_writes_inert (fr : bool) (ctx : leaseCtx) (mine : Z -> Prop) (task : TaskRec)
    (Htask : mine (tk_ID task)) :
  writesNothing ctx mine task (UpdateTask fr ctx task) /\
  writesNothing ctx mine task (UpsertShardProgress fr ctx task).
Proof.
  split; intros env s s' r n Henv Hs Hrun.
  - destruct (inert_runE _ failed _ _ _ _ _ _ _ Henv ltac:(apply UpdateTask_inert; intros s0 [Hl Hr];
      split; [exact Hl|]; intros t Ht E; apply (Hr t Ht); by rewrite E) Hs Hrun) as (HQ & k & -> & ->). done.
  - destruct (inert_runE _ failed _ _ _ _ _ _ _ Henv (UpsertShardProgress_inert fr ctx mine task) Hs Hrun)
      as (HQ & k & -> & ->). done.
Qed.

(** ** Reflected shard progress stays out of the drives *)

Lemma filter_update {R} (q p : R -> bool) (f : R -> R) (l : list R) :
  (forall x, x ∈ l -> p x = true -> q x = false /\ q (f x) = false) ->
  List.filter q ((fun x => if p x then f x else x) <$> l) = List.filter q l.
Proof.
  induction l as [|x l IH]; intros H; [done|]. cbn.
  rewrite IH by (intros y Hy; apply H; by right). destruct (p x) eqn:Ep; [|done].
  destruct (H x ltac:(by left) Ep) as [-> ->]. done.
Qed.

Lemma shardGuard_task ctx opID task task' g :
  shardGuard ctx opID (tk_ApplyID task) = Ok g -> tk_ApplyID task' = tk_ApplyID task ->
  taskGuardFromContext ctx task' = Ok g /\ g <> taskUnguarded /\
  (forall l, g = taskOperationLease l -> ol_OperationID l = opID) /\
  (forall l, g = taskApplyLease l -> al_ApplyID l = tk_ApplyID task).
Proof.
  unfold shardGuard, shardOperationLease, taskGuardFromContext. intros Hg ->.
  destruct (OperationLeaseFromContext ctx) as [l|].
  - destruct (negb (OperationLease_Valid l)) eqn:Ev; [done|].
    destruct (negb (opID =? ol_OperationID l)) eqn:Eo; [done|]. reflect_guards.
    destruct (applyLeaseFromContext _ _); [|done]. injection Hg as <-.
    repeat split; [done|by intros ? [= ->]|by intros ? ?].
  - destruct (applyLeaseFromContext _ _) as [[l|]|e] eqn:E; [|done..]. injection Hg as <-.
    apply applyLease_own in E as [_ E]. repeat split; [done|by intros ? ?|by intros ? [= <-]].
Qed.

(** The guard of a shard row is that its lease is current. *)
Lemma shardGuard_holds ctx opID task g s row :
  shardGuard ctx opID (tk_ApplyID task) = Ok g -> tk_ApplyOperationID row = Some opID ->
  tk_ApplyID row = tk_ApplyID task -> taskGuardHolds s g row = stillOwned g s.
Proof.
  intros Hg Hop Hap. destruct (shardGuard_task _ _ _ task _ Hg eq_refl) as (_ & Hne & Ho & Ha).
  destruct g as [|l|l]; [done|..]; cbn.
  - rewrite Hop, (Ho l eq_refl). by rewrite bool_decide_eq_true_2.
  - by rewrite Hap, (Ha l eq_refl).
Qed.

(** An accepted update of a shard row wrote it, and no other row. *)
Lemma shard_update_run fr ctx opID task g s s' row :
  NoDup (tk_ID <$> tasks s) -> shardGuard ctx opID (tk_ApplyID task) = Ok g -> row ∈ tasks s ->
  tk_ApplyOperationID row = Some opID -> tk_ApplyID row = tk_ApplyID task ->
  run (UpdateTask fr ctx (set_tk_ID (tk_ID row) task)) s = (s', Ok tt) ->
  exists p, s' = updateTasks p (setTask s (set_tk_ID (tk_ID row) task)) s /\ p row = true /\
    forall t, t ∈ tasks s -> p t = true -> t = row.
Proof.
  intros Hnd Hg Hin Hop Hap Hrun.
  destruct (shardGuard_task _ _ _ (set_tk_ID (tk_ID row) task) _ Hg eq_refl) as (Htg & Hne & _).
  pose proof (shardGuard_holds _ _ _ _ s _ Hg Hop Hap) as Hh.
  unfold UpdateTask in Hrun. rewrite Htg, run_Exec in Hrun. cbn [fst snd] in Hrun.
  set (p := fun t => (tk_ID t =? tk_ID (set_tk_ID (tk_ID row) task)) && taskGuardHolds s g t) in *.
  assert (Hone : forall t, t ∈ tasks s -> p t = true -> t = row).
  { intros t Ht Hp. unfold p in Hp. reflect_guards. by eapply (row_unique tk_ID). }
  destruct (stillOwned g s) eqn:Eo.
  - exists p. split; [|split; [|exact Hone]].
    + destruct g; [done|..]; (destruct (_ =? 0); [|by injection Hrun as <-]); unfold verifyLeaseStillOwned in Hrun;
        rewrite run_Exec in Hrun; by injection Hrun as <- _.
    + unfold p. cbn. by rewrite Z.eqb_refl, Hh.
  - exfalso. assert (Hno : existsb p (tasks s) = false).
    { apply not_true_iff_false. intros (t & Ht & Hp)%existsb_elem. rewrite (Hone t Ht Hp) in Hp.
      unfold p in Hp. rewrite Hh in Hp. by reflect_guards. }
    rewrite affected_none, updateTasks_none in Hrun by done. cbn in Hrun.
    destruct g; [done|..]; unfold verifyLeaseStillOwned in Hrun; rewrite run_Exec in Hrun; cbn [read fst snd] in Hrun;
      rewrite Eo in Hrun; done.
Qed.

(** The row is the one of the task's table and shard under the operation. *)
Definition shardRow (opID : Z) (task t : TaskRec) : Prop :=
  tk_ApplyOperationID t = Some opID /\ tk_Namespace t = tk_Namespace task /\
  tk_TableName t = tk_TableName task /\ tk_Shard t = tk_Shard task.

Lemma shardRow_not_drive opID task t s :
  shardRow opID task t -> tk_Shard task <> "" ->
  (forall o, o ∈ operations s -> op_ID o = opID -> keyMatches o task = false) ->
  (forall id, driveTask s id t = false) /\ (forall id, driveTaskOf s id t = false).
Proof.
  intros (Hop & Hns & Htab & Hsh) Hne Hkey.
  assert (Hm : forall o, keyMatches o t = keyMatches o task) by (intros o; unfold keyMatches; by rewrite Hns, Htab, Hsh).
  assert (Hs : (tk_Shard t == "") = false) by (rewrite Hsh; by apply eqb_false_iff).
  assert (Hno : forall o, o ∈ operations s -> ownedBy t o = true -> keyMatches o t = false).
  { intros o Ho Hown. unfold ownedBy in Hown. rewrite Hop in Hown. rewrite Hm. apply Hkey; [done|by reflect_guards]. }
  split; intros id; [unfold driveTask|unfold driveTaskOf]; apply not_true_iff_false;
    intros [_ H]%andb_true_iff; rewrite Hs in H; cbn in H; apply existsb_elem in H as (o & Ho & H); reflect_guards;
    assert (keyMatches o t = false) by eauto; congruence.
Qed.

Lemma run_upsert fr ctx task opID s s' :
  tk_ApplyOperationID task = Some opID -> run (UpsertShardProgress fr ctx task) s = (s', Ok tt) ->
  exists g, shardGuard ctx opID (tk_ApplyID task) = Ok g /\ tk_Shard task <> "" /\
    match findShardTask opID task s with
    | Some row => run (UpdateTask fr ctx (set_tk_ID (tk_ID row) task)) s = (s', Ok tt)
    | None => s' = {| applies := applies s; operations := operations s; controls := controls s;
                      tasks := (tasks s ++ [taskRow (nextID s) (tk_ApplyID task) (Some opID) task])%list;
                      locks := locks s; nextID := nextID s + 1; now := now s |}
    end.
Proof.
  intros Hop. unfold UpsertShardProgress. rewrite Hop. destruct (shardGuard _ _ _) as [g|e] eqn:Eg; [|done].
  destruct (tk_TableName task == ""); [done|]. destruct (tk_Shard task == "") eqn:Es; [done|]. reflect_guards.
  rewrite run_Exec. cbn [read fst snd]. intros Hrun. exists g. split; [done|]. split; [done|].
  destruct (findShardTask opID task s) as [row|]; [done|].
  rewrite run_bind in Hrun. unfold verifyOperationBelongsToApply in Hrun.
  rewrite run_Exec, run_Ret in Hrun. cbn [read fst snd] in Hrun.
  destruct (findOperation opID s) as [o|]; [|done]. destruct (op_ApplyID o =? _); [|done].
  unfold insertShardTaskGuarded in Hrun. rewrite run_Exec in Hrun. unfold insertShardStatement in Hrun.
  destruct (stillOwned g s) eqn:Eo; cbn [negb fst snd] in Hrun.
  - unfold insertTask in Hrun. destruct (existsb _ _); cbn in Hrun; [done|]. rewrite Hop in Hrun. by injection Hrun as <-.
  - cbn in Hrun. by rewrite Eo in Hrun.
Qed.

(** The progress of a shard is reflected without entering the drives.  When the
    operation's key does not name the shard (the row is a read-model of an unsharded
    drive), an accepted [UpsertShardProgress] leaves the drive tasks of every apply
    and of every operation exactly as they were, and the shard listing of the
    operation has the row with the reported state and progress. *)
Theorem shard_progress_reflected (E : EngineNames) (fr : bool) (ctx : leaseCtx) (task : TaskRec) (opID : Z)
    (s s' : store)
    (Hids : NoDup (tk_ID <$> tasks s))
    (Hop : tk_ApplyOperationID task = Some opID)
    (Hrows : forall t, t ∈ tasks s -> tk_ApplyOperationID t = Some opID -> tk_ApplyID t = tk_ApplyID task)
    (Hkey : forall o, o ∈ operations s -> op_ID o = opID -> keyMatches o task = false)
    (Hrun : run (UpsertShardProgress fr ctx task) s = (s', Ok tt)) :
  (forall id, GetByApplyID E id s' = GetByApplyID E id s) /\
  (forall id, GetByApplyOperationID E id s' = GetByApplyOperationID E id s) /\
  exists row, row ∈ GetShardProgressByApplyOperationID E opID s' /\ shardRow opID task row /\
    tk_State row = NormalizeTaskStatus E (tk_State task) /\ tk_Progress row = tk_Progress task.
Proof.
  destruct (run_upsert _ _ _ _ _ _ Hop Hrun) as (g & Hg & Hne & Hr).
  assert (Hlist : forall t, t ∈ tasks s' -> shardRow opID task t -> tk_State t = tk_State task ->
            tk_Progress t = tk_Progress task ->
            exists row, row ∈ GetShardProgressByApplyOperationID E opID s' /\ shardRow opID task row /\
              tk_State row = NormalizeTaskStatus E (tk_State task) /\ tk_Progress row = tk_Progress task).
  { intros t Ht Hs Hst Hp. exists (scanTask E t). split; [|by rewrite <- Hst].
    apply list_elem_of_fmap_2. rewrite merge_sort_Permutation. apply list_elem_of_In, filter_In.
    split; [by apply list_elem_of_In|]. destruct Hs as (-> & _ & _ & ->). rewrite bool_decide_eq_true_2 by done.
    by apply negb_true_iff, eqb_false_iff. }
  destruct (findShardTask opID task s) as [row|] eqn:Ef.
  - apply find_some in Ef as [Hin Hp]. apply list_elem_of_In in Hin. reflect_guards.
    assert (Hrow : shardRow opID task row) by done.
    destruct (shard_update_run _ _ _ _ _ _ _ _ Hids Hg Hin ltac:(done) ltac:(eauto) Hr) as (p & -> & Hprow & Hone).
    destruct (shardRow_not_drive _ _ _ s Hrow Hne Hkey) as [Hd Hdo].
    destruct (shardRow_not_drive opID task (setTask s (set_tk_ID (tk_ID row) task) row) s Hrow Hne Hkey) as [Hd' Hdo'].
    split; [|split].
    + intros id. unfold GetByApplyID. f_equal. f_equal. apply filter_update. intros t Ht Hpt.
      by rewrite (Hone t Ht Hpt).
    + intros id. unfold GetByApplyOperationID. f_equal. f_equal. apply filter_update. intros t Ht Hpt.
      by rewrite (Hone t Ht Hpt).
    + apply (Hlist (setTask s (set_tk_ID (tk_ID row) task) row)); [|exact Hrow|done|done]. cbn.
      apply list_elem_of_fmap. exists row. by rewrite Hprow.
  - subst s'. set (new := taskRow (nextID s) (tk_ApplyID task) (Some opID) task) in *.
    assert (Hnew : shardRow opID task new) by done.
    destruct (shardRow_not_drive _ _ _ s Hnew Hne Hkey) as [Hd Hdo].
    assert (Hf : forall q : TaskRec -> bool, q new = false -> List.filter q (tasks s ++ [new])%list = List.filter q (tasks s)).
    { intros q Hq. rewrite List.filter_app. cbn. by rewrite Hq, app_nil_r. }
    split; [|split].
    + intros id. unfold GetByApplyID. cbn [tasks operations]. f_equal. f_equal. apply Hf, Hd.
    + intros id. unfold GetByApplyOperationID. cbn [tasks operations]. f_equal. f_equal. apply Hf, Hdo.
    + apply (Hlist new); [|exact Hnew|done|done]. cbn. apply elem_of_app. right. by left.
Qed.

(** ** A store with tasks *)

Definition noProgress : TaskProgress :=
  {| tp_RowsCopied := 0; tp_RowsTotal := 0; tp_ProgressPercent := 0; tp_ETASeconds := 0;
     tp_ChecksumRowsChecked := 0; tp_ChecksumRowsTotal := 0 |}.

Definition exampleTask (id : Z) (identifier table shard st : string) : TaskRec :=
  {| tk_ID := id; tk_TaskIdentifier := identifier; tk_ApplyID := 1; tk_ApplyOperationID := Some 1; tk_PlanID := 1;
     tk_Database := "orders"; tk_DatabaseType := "mysql"; tk_Namespace := "main"; tk_TableName := table;
     tk_Shard := shard; tk_DDL := "ALTER TABLE t"; tk_DDLAction := "alter"; tk_Engine := "spirit";
     tk_Repository := "org/repo"; tk_PullRequest := 1; tk_Environment := "staging"; tk_State := st;
     tk_ErrorMessage := None; tk_Options := "{}"; tk_Attempt := 0; tk_Progress := noProgress;
     tk_CutoverAttempts := 0; tk_IsInstant := false; tk_ReadyToComplete := false; tk_EngineMigrationID := "";
     tk_StartedAt := None; tk_CompletedAt := None; tk_CreatedAt := 100; tk_UpdatedAt := 100 |}.

Definition withTasks (ts : list TaskRec) (s : store) : store := set_tasks ts s.

(** The operation was claimed again with token t2; its former driver holds t1. *)
Lemma displaced_task_writes_inert_witness :
  let op := set_op_LeaseToken "t2" (exampleOp 1 "us" Apply.Running CutoverPolicyRolling OnFailureHalt) in
  let task := exampleTask 7 "task_7" "t" "" Task.Running in
  let s := withTasks [task] (exampleStore (exampleApply Apply.Running) [op] []) in
  let l := {| ol_ApplyID := 1; ol_OperationID := 1; ol_Owner := "w"; ol_Token := "t1" |} in
  let ctx := {| ApplyLeaseFromContext := None; OperationLeaseFromContext := Some l |} in
  run (UpdateTask true ctx (set_tk_State Task.Completed task)) s = (s, Err ErrApplyLeaseLost) /\
  failed (run (UpdateTask true ctx (set_tk_State Task.Completed task)) s).2.
Proof.
  intros op task s l ctx. split; [vm_compute; reflexivity|].
  refine (proj1 (proj1 (displaced_task_writes_inert true ctx (fun id => id = 7)
    (set_tk_State Task.Completed task) eq_refl) (fun _ => quiet) s _ _ _ _ _ eq_refl)).
  - by intros m t Ht.
  - split; [reflexivity|]. intros t [->|[]%elem_of_nil]%elem_of_cons. split; [by split|done].
Defined.

(** The drive of an unsharded operation reports the progress of shard -80. *)
Lemma shard_progress_reflected_witness :
  let op := set_op_LeaseToken "t1" (exampleOp 1 "us" Apply.Running CutoverPolicyRolling OnFailureHalt) in
  let drive := exampleTask 7 "task_7" "t" "" Task.Running in
  let task := exampleTask 0 "task_8" "t" "-80" Task.Running in
  let s := withTasks [drive] (exampleStore (exampleApply Apply.Running) [op] []) in
  let l := {| ol_ApplyID := 1; ol_OperationID := 1; ol_Owner := "w"; ol_Token := "t1" |} in
  let ctx := {| ApplyLeaseFromContext := None; OperationLeaseFromContext := Some l |} in
  let s' := (run (UpsertShardProgress true ctx task) s).1 in
  GetByApplyID documentedNames 1 s' = [drive] /\
  exists row, row ∈ GetShardProgressByApplyOperationID documentedNames 1 s' /\ shardRow 1 task row /\
    tk_State row = NormalizeTaskStatus documentedNames (tk_State task) /\ tk_Progress row = tk_Progress task.
Proof.
  intros op drive task s l ctx s'.
  destruct (shard_progress_reflected documentedNames true ctx task 1 s s') as (H1 & _ & H3).
  - vm_compute. repeat constructor; by intros ?%elem_of_nil.
  - reflexivity.
  - by intros t [->|[]%elem_of_nil]%elem_of_cons _.
  - by intros o [->|[]%elem_of_nil]%elem_of_cons _.
  - vm_compute. reflexivity.
  - split; [rewrite H1; vm_compute; reflexivity|exact H3].
Defined.
