(* ===== verification/Plane.v ===== *)
(** * The data plane: engine, client and control requests (pkg/tern)

    A [LocalClient] drives the tasks of an apply on an engine of its own process.
    The state is the store, what the engine would answer now, the commands it was
    sent, the cancel handles of the client, and the same of the remote data plane that
    a [GRPCClient] asks; the environment moves all of them between two statements.  Here are the engine's interface, the client's
    credentials and cancel handles, the control-request helpers of
    control_requests.go, and the shared task transitions of local_apply.go and
    local_apply_failure.go.  An engine call that fails without an answer is a
    transient error.  Log rows, observers and wake-ups are left out. *)

From S2P Require Import Prelude GoStrings State Convert Sql Store Operations Applies Control Projection Fencing Tasks.

Local Open Scope string_scope.
Local Open Scope Z_scope.

Definition DatabaseTypeMySQL := "mysql".
Definition DatabaseTypeVitess := "vitess".

(** ** The engine (pkg/engine/engine.go, errors.go) *)

Record ResumeState := { rs_MigrationContext : string; rs_Metadata : string }.

(** An error of an engine; [ee_Permanent] when it wraps a PermanentError. *)
Record engineErr := { ee_Message : string; ee_Permanent : bool }.

Definition IsRetryable (e : engineErr) : bool := negb (ee_Permanent e).

(** One table of a change: its name, its DDL and the action of a grouped change. *)
Record EngineTableChange := { et_Table : string; et_DDL : string; et_Action : string }.

(** [engine.SchemaChange]; [ec_VSchemaChanged] is its metadata key. *)
Record EngineChange := {
  ec_Namespace : string;
  ec_Shard : string;
  ec_Tables : list EngineTableChange;
  ec_VSchemaChanged : bool;
}.

(** [engine.ApplyRequest]; the plan it comes from and its schema files are left out. *)
Record EngineApplyRequest := {
  ar_Database : string;
  ar_Changes : list EngineChange;
  ar_TargetShards : list string;
  ar_Options : gmap string string;
  ar_ResumeState : option ResumeState;
  ar_Credentials : string;
}.

Record EngineApplyResult := { er_Accepted : bool; er_Message : string; er_ResumeState : option ResumeState }.

(** What an engine calls back while it applies: OnEvent with the state of the event,
    and OnStateChange. *)
Inductive engineEvent :=
| OnEvent (newState : string)
| OnStateChange (rs : option ResumeState).

Record ShardProgress := {
  sd_Shard : string;
  sd_State : string;
  sd_Progress : TaskProgress;
  sd_CutoverAttempts : Z;
}.

Record TableProgress := {
  tb_Namespace : string;
  tb_Table : string;
  tb_Progress : TaskProgress;
  tb_IsInstant : bool;
  tb_Shards : list ShardProgress;
  tb_StartedAt : option Z;
  tb_CompletedAt : option Z;
}.

Record EngineProgress := {
  ep_Result : ProgressResult;
  ep_Tables : list TableProgress;
  ep_ResumeState : option ResumeState;
}.

Inductive ControlOperation :=
  ControlStart | ControlStop | ControlCancel | ControlCutover | ControlRevert | ControlSkipRevert.
#[global] Instance ControlOperation_eq_dec : EqDecision ControlOperation.
Proof. solve_decision. Defined.

Record ControlRequest := { ct_Database : string; ct_ResumeState : option ResumeState; ct_Credentials : string }.
Record ControlResult := { cl_Accepted : bool; cl_Message : string }.
(** [engine.VolumeRequest] *)
Record VolumeRequest := {
  vq_Database : string;
  vq_Volume : Z;
  vq_ResumeState : option ResumeState;
  vq_Credentials : string;
}.
Record VolumeResult := { vr_Accepted : bool; vr_PreviousVolume : Z; vr_NewVolume : Z; vr_Message : string }.

Abbreviation eres A := (result engineErr A).

(** [schema.SchemaFiles]: the files of each namespace. *)
Definition SchemaFiles := gmap string (gmap string string).

(** What the engine answers now.  A nil result is [None]; an engine without a
    resume-state validator accepts every resume state, and one that cannot look up
    the signal of a deferred cutover answers [None]. *)
Record engineView := {
  ev_Plan : string -> SchemaFiles -> string -> eres (list EngineChange);
  ev_CutoverSignal : string -> string -> option (eres bool);
  ev_Apply : EngineApplyRequest -> list engineEvent * eres EngineApplyResult;
  ev_Progress : string -> string -> option ResumeState -> eres EngineProgress;
  ev_Control : ControlOperation -> ControlRequest -> eres (option ControlResult);
  ev_Volume : VolumeRequest -> eres (option VolumeResult);
  ev_Validate : ControlOperation -> option ResumeState -> option string;
}.

(** The commands an engine was sent. *)
Inductive engineCall :=
| CallApply (req : EngineApplyRequest)
| CallControl (op : ControlOperation) (req : ControlRequest)
| CallVolume (req : VolumeRequest).

(** ** A remote data plane (pkg/proto/ternv1, as grpc_client.go uses it) *)

(** [codes.Code] of gRPC. *)
Inductive grpcCode :=
| codes_OK | codes_Canceled | codes_Unknown | codes_InvalidArgument | codes_DeadlineExceeded | codes_NotFound
| codes_AlreadyExists | codes_PermissionDenied | codes_ResourceExhausted | codes_FailedPrecondition | codes_Aborted
| codes_OutOfRange | codes_Unimplemented | codes_Internal | codes_Unavailable | codes_DataLoss | codes_Unauthenticated.
#[global] Instance grpcCode_eq_dec : EqDecision grpcCode.
Proof. solve_decision. Defined.

(** An error of a remote call: a gRPC status, the end of the caller's context, or any
    other error. *)
Inductive remoteErr :=
| statusErr (code : grpcCode) (message : string)
| contextErr (message : string)
| plainErr (e : engineErr).

Abbreviation rres A := (result remoteErr A).

(** [ternv1.ShardProgress] and [ternv1.TableProgress]. *)
Record ProtoShard := {
  ph_Shard : string;
  ph_Status : string;
  ph_RowsCopied : Z;
  ph_RowsTotal : Z;
  ph_EtaSeconds : Z;
  ph_CutoverAttempts : Z;
}.
Record ProtoTable := {
  pt_Namespace : string;
  pt_TableName : string;
  pt_Status : string;
  pt_Progress : TaskProgress;
  pt_Shards : list ProtoShard;
}.

(** [ternv1.ProgressResponse] *)
Record RemoteProgressResponse := {
  pg_State : ProtoState;
  pg_Tables : list ProtoTable;
  pg_ErrorMessage : string;
  pg_Metadata : gmap string string;
  pg_Volume : Z;
}.

(** [ternv1.TableChange] and [ternv1.ApplyRequest]. *)
Record ProtoTableChange := {
  pc_TableName : string;
  pc_Ddl : string;
  pc_ChangeType : ChangeType;
  pc_Namespace : string;
  pc_IsUnsafe : bool;
  pc_UnsafeReason : string;
}.
Record RemoteApplyRequest := {
  ra_PlanId : string;
  ra_Options : gmap string string;
  ra_Database : string;
  ra_Type : string;
  ra_DdlChanges : list ProtoTableChange;
  ra_SchemaFiles : SchemaFiles;
  ra_Environment : string;
  ra_Target : string;
  ra_Caller : string;
  ra_TargetShards : list string;
  ra_IdempotencyKey : string;
}.
(** [ternv1.ApplyResponse] *)
Record RemoteApplyResponse := {
  rr_Accepted : bool;
  rr_ApplyId : string;
  rr_ApplyOperationId : string;
  rr_ErrorMessage : string;
}.

(** What the remote data plane answers now; the calls name an apply of its own and its
    environment.  A nil response is [None]. *)
Record remoteView := {
  rv_Apply : RemoteApplyRequest -> rres (option RemoteApplyResponse);
  rv_Progress : string -> string -> rres RemoteProgressResponse;
  rv_Control : ControlOperation -> string -> string -> rres (option ControlResult);
}.

(** The commands it was sent. *)
Inductive remoteCall :=
| SentApply (req : RemoteApplyRequest)
| SentControl (op : ControlOperation) (applyID environment : string).

(** ** The state of the plane *)

(** [cancelApply] and its generation; a context is named by a number. *)
Record cancelState := { cn_Generation : Z; cn_Cancel : option Z; cn_Done : list Z }.

Record plane := {
  pl_db : store;
  pl_engine : engineView;
  pl_calls : list engineCall;
  pl_cancels : cancelState;
  pl_remote : remoteView;
  pl_sent : list remoteCall;
}.

Definition set_pl_db (d : store) (w : plane) : plane :=
  {| pl_db := d; pl_engine := pl_engine w; pl_calls := pl_calls w; pl_cancels := pl_cancels w;
     pl_remote := pl_remote w; pl_sent := pl_sent w |}.
Definition set_pl_calls (c : list engineCall) (w : plane) : plane :=
  {| pl_db := pl_db w; pl_engine := pl_engine w; pl_calls := c; pl_cancels := pl_cancels w;
     pl_remote := pl_remote w; pl_sent := pl_sent w |}.
Definition set_pl_cancels (c : cancelState) (w : plane) : plane :=
  {| pl_db := pl_db w; pl_engine := pl_engine w; pl_calls := pl_calls w; pl_cancels := c;
     pl_remote := pl_remote w; pl_sent := pl_sent w |}.
Definition set_pl_sent (c : list remoteCall) (w : plane) : plane :=
  {| pl_db := pl_db w; pl_engine := pl_engine w; pl_calls := pl_calls w; pl_cancels := pl_cancels w;
     pl_remote := pl_remote w; pl_sent := c |}.

(** A store operation on the plane. *)
Definition onStore {R} : prog store R -> prog plane R := focus pl_db set_pl_db.

Definition readStore {A} (f : store -> A) : prog plane (res A) := onStore (Exec (read f) Ret).

Definition execStore {A} (f : store -> store * res A) : prog plane (res A) := onStore (Exec f Ret).

(** Sequencing of programs, and early return of an error. *)
Notation "'let!' x ':=' p 'in' k" := (pbind p (fun x => k))
  (at level 10, x pattern, p at level 200, k at level 200) : go_scope.
Notation "'try!' x ':=' p 'in' k" :=
  (pbind p (fun r => match r with Ok x => k | Err err => Ret (Err err) end))
  (at level 10, x pattern, p at level 200, k at level 200) : go_scope.

Definition transportError : engineErr := {| ee_Message := "transport error"; ee_Permanent := false |}.

(** A question to the engine, and a command, which it records. *)
Definition askEngine {A} (f : engineView -> eres A) : prog plane (eres A) :=
  Exec (fun w => (w, Ok (f (pl_engine w)))) (fun r => Ret match r with Ok a => a | Err _ => Err transportError end).

Definition commandEngine {A} (c : engineCall) (f : engineView -> eres A) : prog plane (eres A) :=
  Exec (fun w => (set_pl_calls (pl_calls w ++ [c])%list w, Ok (f (pl_engine w))))
       (fun r => Ret match r with Ok a => a | Err _ => Err transportError end).

(** A question to the remote data plane, and a command, which it records; a call that
    is cut off may have been received or not. *)
Definition cutOff : remoteErr := statusErr codes_Unavailable "transport error".

Definition askRemote {A} (f : remoteView -> rres A) : prog plane (rres A) :=
  Exec (fun w => (w, Ok (f (pl_remote w)))) (fun r => Ret match r with Ok a => a | Err _ => Err cutOff end).

Definition commandRemote {A} (c : remoteCall) (f : remoteView -> rres A) : prog plane (rres A) :=
  Exec (fun w => (set_pl_sent (pl_sent w ++ [c])%list w, Ok (f (pl_remote w))))
       (fun r => Ret match r with Ok a => a | Err _ => Err cutOff end).

(** [ctx.Err() != nil] of the context a drive runs under. *)
Definition cancelled (id : Z) : prog plane bool :=
  Exec (fun w => (w, Ok (existsb (Z.eqb id) (cn_Done (pl_cancels w)))))
       (fun r => Ret match r with Ok b => b | Err _ => true end).

(** ** Cancel handles (local_apply.go) *)

Definition setApplyCancel (id : Z) : prog plane (res Z) :=
  Exec (fun w => let c := pl_cancels w in
          (set_pl_cancels {| cn_Generation := cn_Generation c + 1; cn_Cancel := Some id; cn_Done := cn_Done c |} w,
           Ok (cn_Generation c + 1))) Ret.

Definition clearApplyCancel (generation : Z) : prog plane (res unit) :=
  Exec (fun w => let c := pl_cancels w in
          (if cn_Generation c =? generation
           then set_pl_cancels {| cn_Generation := cn_Generation c; cn_Cancel := None; cn_Done := cn_Done c |} w
           else w, Ok tt)) Ret.

(** [applyCancelHandle] *)
Record applyCancelHandle := { hd_generation : Z; hd_cancel : option Z }.

Definition handleOf (w : plane) : applyCancelHandle :=
  {| hd_generation := cn_Generation (pl_cancels w); hd_cancel := cn_Cancel (pl_cancels w) |}.

Definition cancelHandle (h : applyCancelHandle) (c : cancelState) : cancelState :=
  {| cn_Generation := cn_Generation c;
     cn_Cancel := if cn_Generation c =? hd_generation h then None else cn_Cancel c;
     cn_Done := match hd_cancel h with Some id => id :: cn_Done c | None => cn_Done c end |}.

(** In-process locks: no statement fails. *)
Definition currentApplyCancel {R} (k : applyCancelHandle -> prog plane R) : prog plane R :=
  Exec (fun w => (w, Ok (handleOf w)))
       (fun r => k match r with Ok h => h | Err _ => {| hd_generation := 0; hd_cancel := None |} end).

Definition cancelApplyHandle (h : applyCancelHandle) : prog plane (res unit) :=
  Exec (fun w => (set_pl_cancels (cancelHandle h (pl_cancels w)) w, Ok tt)) Ret.

(** ** The client (local_client.go) *)

(** [DBName] of the parsed DSN and the DSN with another one: the MySQL driver's. *)
Record clientConfig := {
  lc_Type : string;
  lc_Database : string;
  lc_TargetDSN : string;
  lc_HasEngine : bool;
  mysqlDSNDatabase : string -> res string;
  mysqlDSNWithDatabase : string -> string -> res string;
}.

Definition mysqlDSNHasDatabase (c : clientConfig) (dsn : string) : res bool :=
  let? database := mysqlDSNDatabase c dsn in Ok (database != "").

Definition credentialsForMySQLNamespace (c : clientConfig) (namespace : string) : res string :=
  if lc_Type c != DatabaseTypeMySQL then Ok (lc_TargetDSN c) else
  let? hasDatabase := mysqlDSNHasDatabase c (lc_TargetDSN c) in
  if hasDatabase then Ok (lc_TargetDSN c)
  else if namespace == "" then Err (Errorf "MySQL namespace is required for a namespace-free target DSN")
  else mysqlDSNWithDatabase c (lc_TargetDSN c) namespace.

Definition credentialsForTask (c : clientConfig) (task : TaskRec) : res string :=
  if lc_Type c != DatabaseTypeMySQL then Ok (lc_TargetDSN c)
  else credentialsForMySQLNamespace c (tk_Namespace task).

Definition stopTerminatesChange (databaseType : string) : bool := databaseType == DatabaseTypeVitess.

(** ** Progress of a table (progress_keys.go) *)

Definition progressTableKey (namespace table : string) : string := namespace ++ String "000" table.

Definition indexEngineTableProgress (tables : list TableProgress) : gmap string TableProgress :=
  fold_left (fun index tp => <[progressTableKey (tb_Namespace tp) (tb_Table tp) := tp]> index) tables ∅.

Definition engineProgressForTask (index : gmap string TableProgress) (task : TaskRec) : option TableProgress :=
  index !! progressTableKey (tk_Namespace task) (tk_TableName task).

(** ** Control requests (control_requests.go) *)

Definition findApplyByIdentifier (identifier : string) (s : store) : option Apply :=
  find (fun a => a_ApplyIdentifier a == identifier) (applies s).

Section Plane.
Context (E : EngineNames) (foundRows hasOptions : bool) (clockNow : Z) (ctx : leaseCtx).

Definition pendingControlRequest (apply : Apply) (operation : string)
    : prog plane (res (option ApplyControlRequest)) :=
  readStore (GetPending (a_ID apply) operation).

Definition hasPendingStartControlRequest (apply : Apply) : prog plane (res bool) :=
  try! req := pendingControlRequest apply ControlOperationStart in
  Ret (Ok (match req with Some _ => true | None => false end)).

Definition ensureApplyLeaseForControlRequest (apply : Apply) : prog plane (res unit) :=
  match ApplyLeaseFromContext ctx with
  | None => Ret (Ok tt)
  | Some lease =>
      if negb (ApplyLease_Valid lease) then Ret (Err ErrApplyLeaseLost)
      else if negb (al_ApplyID lease =? a_ID apply) then Ret (Err ErrApplyLeaseLost)
      else try! r := readStore (CheckLease lease) in Ret r
  end.

Definition completePendingControlRequests (apply : Apply) (operation : string) : prog plane (res unit) :=
  try! _ := ensureApplyLeaseForControlRequest apply in
  onStore (CompletePending foundRows ctx (a_ID apply) operation).

Definition failPendingControlRequests (apply : Apply) (operation errorMessage : string) : prog plane (res unit) :=
  try! _ := ensureApplyLeaseForControlRequest apply in
  onStore (FailPending foundRows ctx (a_ID apply) operation errorMessage).

Fixpoint completeAll (apply : Apply) (operations : list string) : prog plane (res unit) :=
  match operations with
  | [] => Ret (Ok tt)
  | op :: rest => try! _ := completePendingControlRequests apply op in completeAll apply rest
  end.

Definition completePendingRequestsForTerminalApply (apply : Apply) : prog plane (res unit) :=
  completeAll apply [ControlOperationStop; ControlOperationRevert; ControlOperationSkipRevert; ControlOperationVolume].

Definition updateApply (apply : Apply) : prog plane (res unit) :=
  execStore (Applies.Update ctx hasOptions apply).

Definition loadApply (applyID : Z) : prog plane (res Apply) :=
  try! apply := readStore (findApply applyID) in
  Ret match apply with Some a => Ok a | None => Err ErrApplyNotFound end.

(** The apply as the caller has it afterwards. *)
Definition markApplyCuttingOverForControlRequest (apply : Apply) : prog plane (res Apply) :=
  if negb (IsState (a_State apply) [Apply.WaitingForCutover; Apply.Running]) then Ret (Ok apply) else
  let apply' := set_a_State Apply.CuttingOver (set_a_UpdatedAt clockNow apply) in
  try! _ := updateApply apply' in Ret (Ok apply').

Definition applyReadyForCutoverRequest (apply : Apply) : prog plane (res bool) :=
  if IsState (a_State apply) [Apply.WaitingForCutover; Apply.CuttingOver] then Ret (Ok true)
  else if negb (IsState (a_State apply) [Apply.Running]) then Ret (Ok false)
  else try! ts := readStore (GetByApplyID E (a_ID apply)) in
       Ret (Ok (existsb (fun t => IsState (tk_State t) [Task.WaitingForCutover; Task.CuttingOver]) ts)).

Definition cutoverRequestResolvedByApplyState (applyState : string) : bool :=
  IsState applyState [Apply.RevertWindow; Apply.Completed; Apply.Reverted].

Definition cutoverRequestFailedByApplyState (applyState : string) : bool :=
  IsTerminalApplyState applyState && negb (cutoverRequestResolvedByApplyState applyState).

(** The stored apply when it is terminal and its stop request was completed. *)
Definition completePendingStopIfStoredApplyResolved (apply : Apply) : prog plane (res (option Apply)) :=
  try! stored := loadApply (a_ID apply) in
  if negb (IsTerminalApplyState (a_State stored)) then Ret (Ok None)
  else try! _ := completePendingControlRequests stored ControlOperationStop in Ret (Ok (Some stored)).

(** ** Task transitions (local_apply.go, local_apply_failure.go) *)

(** The task as the drive has it afterwards; a failed write is only logged. *)
Definition transitionTaskState (task : TaskRec) (newState : string) : prog plane TaskRec :=
  let task' := set_tk_State newState (set_tk_UpdatedAt clockNow task) in
  let! _ := onStore (UpdateTask foundRows ctx task') in Ret task'.

Definition markTaskFailed (task : TaskRec) (errMsg : string) : prog plane TaskRec :=
  transitionTaskState (set_tk_ErrorMessage (Some errMsg) (set_tk_CompletedAt (Some clockNow) task)) Task.Failed.

Definition markTaskRetryable (task : TaskRec) (errMsg : string) : prog plane TaskRec :=
  transitionTaskState (set_tk_ErrorMessage (Some errMsg) (set_tk_CompletedAt None task)) Task.FailedRetryable.

(** [for _, task := range tasks] with a body that may change the task. *)
Fixpoint eachTask (body : TaskRec -> prog plane TaskRec) (tasks : list TaskRec) : prog plane (list TaskRec) :=
  match tasks with
  | [] => Ret []
  | t :: rest => let! t' := body t in let! rest' := eachTask body rest in Ret (t' :: rest')
  end.

Definition markTasksRunning (tasks : list TaskRec) : prog plane (list TaskRec) :=
  eachTask (fun task => transitionTaskState (set_tk_StartedAt (Some clockNow) task) Task.Running) tasks.

(** The transition of a failed drive's task: a terminal one is left alone, and an
    error it already has is kept. *)
Definition failOpenTask (newState errMsg : string) (completedAt : option Z) (task : TaskRec) : prog plane TaskRec :=
  if IsTerminalTaskState (tk_State task) then Ret task
  else transitionTaskState
         (set_tk_ErrorMessage (Some (if errorText (tk_ErrorMessage task) == "" then errMsg
                                     else errorText (tk_ErrorMessage task)))
            (set_tk_CompletedAt completedAt task)) newState.

(** The apply unless the stored one is terminal already, which is adopted. *)
Definition settleApply (apply settled : Apply) : prog plane Apply :=
  let! fresh := readStore (findApply (a_ID apply)) in
  match fresh with
  | Ok (Some stored) =>
      if IsTerminalApplyState (a_State stored) then Ret stored
      else let! _ := updateApply settled in Ret settled
  | _ => let! _ := updateApply settled in Ret settled
  end.

Definition failApplyWithTasks (apply : Apply) (tasks : list TaskRec) (errMsg : string)
    : prog plane (Apply * list TaskRec) :=
  let! tasks' := eachTask (failOpenTask Task.Failed errMsg (Some clockNow)) tasks in
  let! apply' := settleApply apply
    (set_a_State Apply.Failed (set_a_ErrorMessage errMsg (set_a_CompletedAt (Some clockNow)
      (set_a_UpdatedAt clockNow apply)))) in
  Ret (apply', tasks').

Definition markApplyRetryableWithTasks (apply : Apply) (tasks : list TaskRec) (errMsg : string)
    : prog plane (Apply * list TaskRec) :=
  let! tasks' := eachTask (failOpenTask Task.FailedRetryable errMsg None) tasks in
  let! apply' := settleApply apply
    (set_a_State Apply.FailedRetryable (set_a_ErrorMessage errMsg (set_a_CompletedAt None
      (set_a_UpdatedAt clockNow apply)))) in
  Ret (apply', tasks').
End Plane.

(** ** Running alone *)

Lemma set_pl_db_same w : set_pl_db (pl_db w) w = w.
Proof. by destruct w. Qed.

Lemma run_onStore {R} (p : prog store R) w :
  run (onStore p) w = (set_pl_db (run p (pl_db w)).1 w, (run p (pl_db w)).2).
Proof.
  revert w. induction p as [r | A stmt k IH]; intros w; [rewrite !run_Ret; by destruct w|].
  unfold onStore. cbn [focus]. rewrite !run_Exec. destruct (stmt (pl_db w)) as [s a] eqn:Es. cbn [fst snd].
  change (run (onStore (k a)) (set_pl_db s w) = (set_pl_db (run (k a) s).1 w, (run (k a) s).2)).
  by rewrite IH.
Qed.

Lemma run_readStore {A} (f : store -> A) w : run (readStore f) w = (w, Ok (f (pl_db w))).
Proof. unfold readStore. rewrite run_onStore. cbn. by rewrite set_pl_db_same. Qed.

Lemma run_execStore {A} (f : store -> store * res A) w :
  run (execStore f) w = (set_pl_db (f (pl_db w)).1 w, (f (pl_db w)).2).
Proof. unfold execStore. rewrite run_onStore, run_Exec. by destruct (f (pl_db w)). Qed.

Lemma run_commandEngine {A} c (f : engineView -> eres A) w :
  run (commandEngine c f) w = (set_pl_calls (pl_calls w ++ [c])%list w, f (pl_engine w)).
Proof. done. Qed.

Lemma run_askEngine {A} (f : engineView -> eres A) w : run (askEngine f) w = (w, f (pl_engine w)).
Proof. done. Qed.

(** ** Programs that leave a part of the plane alone *)

(** Along every execution in which [cond] holds at each statement, no statement
    changes [view], [cond] goes on to hold, and the result satisfies [Q]; statements
    may fail. *)
Fixpoint keepsView {X R} (view : plane -> X) (cond : plane -> Prop) (Q : R -> Prop) (p : prog plane R) : Prop :=
  match p with
  | Ret r => Q r
  | Exec stmt k =>
      (forall w, cond w -> view (stmt w).1 = view w /\ cond (stmt w).1 /\ keepsView view cond Q (k (stmt w).2)) /\
      (forall e, keepsView view cond Q (k (Err e)))
  end.

(** No statement of the run changes [view]. *)
Fixpoint leaves {X R} (view : plane -> X) (env : nat -> envStep plane) (n : nat) (p : prog plane R) (w : plane) : Prop :=
  match p with
  | Ret _ => True
  | Exec stmt k =>
      let w := interfere (env n) w in
      match fault (env n) with
      | Some e => leaves view env (Datatypes.S n) (k (Err e)) w
      | None => view (stmt w).1 = view w /\ leaves view env (Datatypes.S n) (k (stmt w).2) (stmt w).1
      end
  end.

(** The engine may be sent commands, the store is left alone. *)
Abbreviation storeQuiet := (keepsView pl_db).
Abbreviation leavesStore := (leaves pl_db).

Section KeepsView.
Context {X : Type} (view : plane -> X).

Lemma keepsView_run {R} (cond : plane -> Prop) (Q : R -> Prop) env (p : prog plane R) n w w' r n' :
  keeps cond env -> keepsView view cond Q p -> cond w -> runE env n p w = (w', r, n') ->
  Q r /\ leaves view env n p w.
Proof.
  intros Henv. revert n w. induction p as [x | A stmt k IH]; intros n w Hp Hw Hrun.
  { cbn in Hrun. by simplify_eq. }
  destruct Hp as [Hst Hk]. cbn in Hrun |- *. specialize (Henv n w Hw) as Hc.
  destruct (fault (env n)) as [e|]; [by eapply IH|].
  destruct (Hst _ Hc) as (Es & Hc' & Hq). destruct (stmt _) as [w1 a]. cbn in *.
  destruct (IH a (Datatypes.S n) w1 Hq Hc' Hrun). by repeat split.
Qed.

Lemma keepsView_bind {R R'} (cond : plane -> Prop) (Q : R -> Prop) (Q' : R' -> Prop) (p : prog plane R)
    (f : R -> prog plane R') :
  keepsView view cond Q p -> (forall r, Q r -> keepsView view cond Q' (f r)) -> keepsView view cond Q' (pbind p f).
Proof.
  intros Hp Hf. induction p as [r | A stmt k IH]; cbn in *; [by apply Hf|].
  destruct Hp as [Hs Hk]. split; [|auto]. intros w Hw. destruct (Hs w Hw) as (? & ? & ?). auto.
Qed.

(** A read of the store, with what it returns in a state that satisfies [cond]. *)
Lemma keepsView_read {A} (cond : plane -> Prop) (f : store -> A) :
  keepsView view cond (fun r => failed r \/ exists w, cond w /\ r = Ok (f (pl_db w))) (readStore f).
Proof.
  split; [|by left]. intros w Hw. cbn. split; [by destruct w|]. split; [by destruct w|]. right. by exists w.
Qed.

Lemma keepsView_query {A R} (cond : plane -> Prop) (f : store -> A) (g : res A -> R) :
  keepsView view cond (fun _ => True) (onStore (Exec (read f) (fun r => Ret (g r)))).
Proof. split; [|done]. intros w Hw. cbn. split; [by destruct w|]. split; [by destruct w|done]. Qed.

Lemma keepsView_try {A B} (cond : plane -> Prop) (Q : A -> Prop) (Q' : res B -> Prop)
    (p : prog plane (res A)) (k : A -> prog plane (res B)) :
  keepsView view cond (fun r => match r with Ok a => Q a | Err _ => True end) p ->
  (forall e, Q' (Err e)) -> (forall a, Q a -> keepsView view cond Q' (k a)) ->
  keepsView view cond Q' (try! x := p in k x).
Proof. intros Hp He Hk. eapply keepsView_bind; [exact Hp|]. intros [a|e] H; [by apply Hk|apply He]. Qed.

Lemma keepsView_weaken {R} (cond : plane -> Prop) (Q Q' : R -> Prop) (p : prog plane R) :
  (forall r, Q r -> Q' r) -> keepsView view cond Q p -> keepsView view cond Q' p.
Proof.
  intros HQ. induction p as [r | A stmt k IH]; cbn; [apply HQ|].
  intros [Hs Hk]. split; [|auto]. intros w Hw. destruct (Hs w Hw) as (? & ? & ?). auto.
Qed.

(** A store operation whose statements keep [view] and [cond]. *)
Lemma keepsView_store {R} (cond : plane -> Prop) (I : store -> store -> Prop) (p : prog store R) :
  (forall s, preserves (I s) p) -> (forall s, I s s) ->
  (forall w s, cond w -> I (pl_db w) s -> view (set_pl_db s w) = view w /\ cond (set_pl_db s w)) ->
  keepsView view cond (fun _ => True) (onStore p).
Proof.
  intros Hp Hrefl Hkeep. induction p as [r | A stmt k IH]; cbn; [done|]. split.
  - intros w Hw. destruct (stmt (pl_db w)) as [s a] eqn:Es. cbn.
    assert (I (pl_db w) s) as Hi by (destruct (Hp (pl_db w)) as [Hs _]; specialize (Hs _ (Hrefl _)); by rewrite Es in Hs).
    destruct (Hkeep w s Hw Hi). repeat split; [done..|]. apply IH. intros s0. apply (Hp s0).
  - intros e. apply IH. intros s0. apply (Hp s0).
Qed.

(** Alone, the view is the same at the end. *)
Lemma keepsView_alone {R} (Q : R -> Prop) (p : prog plane R) w :
  keepsView view (fun _ => True) Q p -> view (run p w).1 = view w /\ Q (run p w).2.
Proof.
  revert w. induction p as [r | A stmt k IH]; intros w Hp; [by rewrite run_Ret|].
  rewrite run_Exec. destruct Hp as [Hs _]. destruct (Hs w I) as (Hv & _ & Hk). rewrite <- Hv. by apply IH.
Qed.
End KeepsView.

Lemma preserves_True {S R} (p : prog S R) : preserves (fun _ => True) p.
Proof. induction p as [r | A stmt k IH]; cbn; auto. Qed.

(** A store operation sends the engine no command. *)
Lemma calls_onStore {R} (p : prog store R) : keepsView pl_calls (fun _ => True) (fun _ => True) (onStore p).
Proof. apply (keepsView_store _ _ (fun _ _ => True)); [|done..]. intros s. apply preserves_True. Qed.

Lemma calls_request foundRows ctx apply operation set :
  keepsView pl_calls (fun _ => True) (fun r => match r with Ok _ | Err _ => True end)
    (try! _ := ensureApplyLeaseForControlRequest ctx apply in
     onStore (settlePending foundRows ctx (a_ID apply) operation set)).
Proof.
  eapply (keepsView_try _ _ (fun _ => True)); [|done|].
  - unfold ensureApplyLeaseForControlRequest. destruct (ApplyLeaseFromContext ctx) as [l|]; [|done].
    repeat case_match; try done. eapply keepsView_bind; [apply keepsView_read|]. by intros [[]|] _.
  - intros [] _. eapply keepsView_weaken; [|apply calls_onStore]. by intros [].
Qed.

(** A condition that depends only on the store and the engine's answers. *)
Class StoreEngineCond (cond : plane -> Prop) : Prop :=
  store_engine_cond : forall w w', pl_db w' = pl_db w -> pl_engine w' = pl_engine w -> cond w -> cond w'.

Lemma keepsView_ask {A X} (view : plane -> X) cond (f : engineView -> eres A) :
  keepsView view cond (fun _ => True) (askEngine f).
Proof. split; [|done]. by intros w Hw. Qed.

Lemma storeQuiet_command {A} cond `{!StoreEngineCond cond} c (f : engineView -> eres A) :
  storeQuiet cond (fun r => r = Err transportError \/ exists w, cond w /\ r = f (pl_engine w)) (commandEngine c f).
Proof.
  split; [|by left]. intros w Hw. cbn. split; [done|]. split; [by apply (store_engine_cond w)|].
  right. by exists w.
Qed.

(** ** Settling a request changes only the request *)

(** All of the plane but the control requests and what the engine would answer. *)
Definition work (w : plane) :=
  (applies (pl_db w), operations (pl_db w), tasks (pl_db w), pl_calls w, pl_cancels w).

(** The stores differ at most in the requests of [operation]. *)
Definition sameOthers (operation : string) (s s' : store) : Prop :=
  applies s' = applies s /\ operations s' = operations s /\ tasks s' = tasks s /\
  forall cr, cr_Operation cr <> operation -> (cr ∈ controls s' <-> cr ∈ controls s).

(** A condition that does not depend on the requests of [operation]. *)
Class RequestCond (operation : string) (cond : plane -> Prop) : Prop :=
  request_cond : forall w s, cond w -> sameOthers operation (pl_db w) s -> cond (set_pl_db s w).

Lemma elem_update_other {R} (p : R -> bool) f (q : R -> Prop) (l : list R) x :
  (forall y, p y = true -> ~ q y /\ ~ q (f y)) -> q x -> x ∈ ((fun y => if p y then f y else y) <$> l) <-> x ∈ l.
Proof.
  intros Hp Hq. rewrite list_elem_of_fmap. split.
  - intros (y & -> & Hy). destruct (p y) eqn:Ep; [|done]. by destruct (Hp y Ep).
  - intros Hx. exists x. split; [|done]. destruct (p x) eqn:Ep; [|done]. by destruct (Hp x Ep).
Qed.

Lemma settlePending_others foundRows ctx applyID operation set s0 :
  (forall cr, cr_Operation (set cr) = cr_Operation cr) ->
  preserves (sameOthers operation s0) (settlePending foundRows ctx applyID operation set).
Proof.
  intros Hset. unfold settlePending. destruct (applyLeaseFromContext ctx applyID) as [lease|e]; [|done]. split.
  - intros s (Ha & Ho & Ht & Hc). cbn. split; [done|]. split; [done|]. split; [done|].
    intros cr Hcr. rewrite <- (Hc cr Hcr). refine (elem_update_other _ _ (fun c => cr_Operation c <> operation) _ _ _ Hcr).
    intros y Hy. reflect_guards. rewrite Hset. cbn. split; congruence.
  - intros [rows|e]; [|done]. destruct lease as [l|]; [|done].
    apply preserves_bind; [|done]. unfold confirmLeaseOnZeroRows. destruct (rows =? 0); [|done]. by split.
Qed.

Lemma settle_keeps_work foundRows ctx applyID operation set cond `{!RequestCond operation cond} :
  (forall cr, cr_Operation (set cr) = cr_Operation cr) ->
  keepsView work cond (fun _ => True) (onStore (settlePending foundRows ctx applyID operation set)).
Proof.
  intros Hset. apply (keepsView_store _ _ (sameOthers operation)).
  - intros s0. by apply settlePending_others.
  - done.
  - intros w s Hw Hs. split; [|by apply (request_cond w s)].
    destruct Hs as (Ha & Ho & Ht & _). unfold work. cbn. by rewrite Ha, Ho, Ht.
Qed.

Lemma request_keeps_work foundRows ctx apply operation set cond `{!RequestCond operation cond} :
  (forall cr, cr_Operation (set cr) = cr_Operation cr) ->
  keepsView work cond (fun r => match r with Ok _ | Err _ => True end)
    (try! _ := ensureApplyLeaseForControlRequest ctx apply in
     onStore (settlePending foundRows ctx (a_ID apply) operation set)).
Proof.
  intros Hset. eapply (keepsView_try _ _ (fun _ => True)); [|done|].
  - unfold ensureApplyLeaseForControlRequest. destruct (ApplyLeaseFromContext ctx) as [l|]; [|done].
    repeat case_match; try done. eapply keepsView_bind; [apply keepsView_read|]. by intros [[]|] _.
  - intros [] _. eapply keepsView_weaken; [|by apply settle_keeps_work]. by intros [].
Qed.

Lemma completePending_keeps_work foundRows ctx apply operation cond `{!RequestCond operation cond} :
  keepsView work cond (fun r => match r with Ok _ | Err _ => True end)
    (completePendingControlRequests foundRows ctx apply operation).
Proof. by apply request_keeps_work. Qed.

Lemma failPending_keeps_work foundRows ctx apply operation message cond `{!RequestCond operation cond} :
  keepsView work cond (fun r => match r with Ok _ | Err _ => True end)
    (failPendingControlRequests foundRows ctx apply operation message).
Proof. by apply request_keeps_work. Qed.
