(* ===== verification/Stopping.v ===== *)
(** * Stop and cancel of a driven apply (tern/local_control.go)

    A stop or cancel request is durable: it is recorded for the instance that owns
    the apply, which processes it between two steps of its drive.  The owner first
    stops the engine, then cancels its drive, then records the outcome in the tasks
    and the apply, and completes the request last.  A change in its revert window is
    live and is neither stopped nor cancelled. *)

From S2P Require Import Prelude GoStrings State Convert Sql Store Operations Applies Control Projection Fencing Tasks Plane.

Local Open Scope string_scope.
Local Open Scope Z_scope.

(** ** Tasks of a request *)

Definition hasLiveEngineWork (taskState : string) : bool :=
  IsState taskState [Task.Running; Task.WaitingForCutover; Task.CuttingOver; Task.Recovering;
                     Task.WaitingForDeploy; Task.FailedRetryable].

(** [targetApplyID > 0 && task.ApplyID != targetApplyID] skips the task. *)
Definition targeted (targetApplyID : Z) (task : TaskRec) : bool :=
  negb ((0 <? targetApplyID) && negb (tk_ApplyID task =? targetApplyID)).

Definition firstRevertWindowTask (tasks : list TaskRec) (targetApplyID : Z) : option TaskRec :=
  find (fun t => targeted targetApplyID t && IsState (tk_State t) [Task.RevertWindow]) tasks.

Definition revertWindowStopRejectionMessage (applyIdentifier : string) : string :=
  "schema change " ++ applyIdentifier ++ " is in the revert window and has already been applied: " ++
  "use revert to undo it or skip-revert to finalize it".

(** The first failed task with a message, hard failures before retryable ones. *)
Definition firstFailedTaskError (tasks : list TaskRec) : string :=
  let failedIn st := find (fun t => IsState (tk_State t) [st] && (errorText (tk_ErrorMessage t) != "")) tasks in
  match failedIn Task.Failed, failedIn Task.FailedRetryable with
  | Some t, _ | None, Some t => "table " ++ tk_TableName t ++ " failed: " ++ errorText (tk_ErrorMessage t)
  | None, None => ""
  end.

Definition ensureApplyFailureMessage (apply : Apply) (tasks : list TaskRec) : Apply :=
  if a_ErrorMessage apply != "" then apply
  else if negb (IsState (a_State apply) [Apply.Failed]) && negb (IsState (a_State apply) [Apply.FailedRetryable])
  then apply
  else if firstFailedTaskError tasks != "" then set_a_ErrorMessage (firstFailedTaskError tasks) apply else apply.

Definition operationRowSettlesWithTasklessApply (currentState settledState : string) : bool :=
  if negb (IsApplyOperationTerminal currentState) then true
  else IsState settledState [Apply.Cancelled] && IsState currentState [Apply.Stopped].

(** [ternv1.StopResponse] and [CancelResponse]. *)
Record StopResponse := {
  sr_Accepted : bool;
  sr_ErrorMessage : string;
  sr_StoppedCount : Z;
  sr_SkippedCount : Z;
}.

Definition accepted (message : string) (stopped skipped : Z) : StopResponse :=
  {| sr_Accepted := true; sr_ErrorMessage := message; sr_StoppedCount := stopped; sr_SkippedCount := skipped |}.

(** [(handled, err)] with the apply as the owner has it afterwards. *)
Record handledResult := { hr_Apply : Apply; hr_Handled : bool; hr_Err : option StoreErr }.

Definition handledBy (apply : Apply) (handled : bool) (err : option StoreErr) : prog plane handledResult :=
  Ret {| hr_Apply := apply; hr_Handled := handled; hr_Err := err |}.

Definition controlRequestCaller (req : ApplyControlRequest) : string :=
  if cr_RequestedBy req == "" then "unknown" else cr_RequestedBy req.

Section Stopping.
Context (E : EngineNames) (foundRows hasOptions : bool) (clockNow : Z) (ctx : leaseCtx) (cfg : clientConfig).

Abbreviation completePending := (completePendingControlRequests foundRows ctx).
Abbreviation failPending := (failPendingControlRequests foundRows ctx).
Abbreviation update := (updateApply hasOptions ctx).

(** ** The engine *)

Definition applyOperationIDForTask (task : TaskRec) : res Z :=
  match tk_ApplyOperationID task with
  | Some id => if id =? 0 then Err (Errorf "task has no apply_operation_id for engine resume state") else Ok id
  | None => Err (Errorf "task has no apply_operation_id for engine resume state")
  end.

Definition loadEngineResumeState (task : TaskRec) : prog plane (res ResumeState) :=
  match applyOperationIDForTask task with
  | Err e => Ret (Err e)
  | Ok operationID =>
      try! stored := onStore (GetEngineResumeState operationID) in
      Ret (Ok {| rs_MigrationContext := MigrationContext stored; rs_Metadata := Metadata stored |})
  end.

Definition buildControlRequest (task : TaskRec) (creds : string) (operation : ControlOperation)
    : prog plane (res ControlRequest) :=
  try! resume :=
    (if lc_Type cfg == DatabaseTypeVitess
     then try! rs := loadEngineResumeState task in Ret (Ok (Some rs))
     else Ret (Ok None)) in
  let! invalid := askEngine (fun v => Ok (ev_Validate v operation resume)) in
  Ret match invalid with
      | Ok (Some message) => Err (Errorf message)
      | _ => Ok {| ct_Database := lc_Database cfg; ct_ResumeState := resume; ct_Credentials := creds |}
      end.

(** One command of the engine for the targeted tasks: the first one with live
    work; the credentials it was sent with, if there was one. *)
Definition controlEngineForTasks (operation : ControlOperation) (tasks : list TaskRec) (targetApplyID : Z)
    : prog plane (res (option string)) :=
  if negb (lc_HasEngine cfg) then Ret (Err (Errorf "no engine configured")) else
  match find (fun t => targeted targetApplyID t && negb (IsTerminalTaskState (tk_State t)) &&
                       hasLiveEngineWork (tk_State t)) tasks with
  | None => Ret (Ok None)
  | Some task =>
      match credentialsForTask cfg task with
      | Err e => Ret (Err e)
      | Ok creds =>
          try! req := buildControlRequest task creds operation in
          let! r := commandEngine (CallControl operation req) (fun v => ev_Control v operation req) in
          Ret match r with
              | Err e => Err (Errorf (ee_Message e))
              | Ok _ => Ok (Some creds)
              end
      end
  end.

Definition stopEngineForTasks := controlEngineForTasks ControlStop.
Definition cancelEngineForTasks := controlEngineForTasks ControlCancel.

Definition snapshotEngineProgress (creds : option string) : prog plane (gmap string TableProgress) :=
  if negb (lc_HasEngine cfg) then Ret ∅ else
  match creds with
  | None => Ret ∅
  | Some dsn =>
      let! progress := askEngine (fun v => ev_Progress v (lc_Database cfg) dsn None) in
      Ret match progress with Err _ => ∅ | Ok p => indexEngineTableProgress (ep_Tables p) end
  end.

(** ** Recording the outcome *)

(** The counts of stopped and skipped tasks, and the first apply among them. *)
Fixpoint markTasksWithState (tasks : list TaskRec) (targetApplyID : Z) (progress : gmap string TableProgress)
    (newState : string) (stopped skipped applyID : Z) : prog plane (Z * Z * Z) :=
  match tasks with
  | [] => Ret (stopped, skipped, applyID)
  | task :: rest =>
      if negb (targeted targetApplyID task)
      then markTasksWithState rest targetApplyID progress newState stopped skipped applyID else
      let applyID := if (applyID =? 0) && (0 <? tk_ApplyID task) then tk_ApplyID task else applyID in
      if IsTerminalTaskState (tk_State task)
      then markTasksWithState rest targetApplyID progress newState stopped (skipped + 1) applyID else
      let task := match engineProgressForTask progress task with
                  | Some et => set_tk_Progress (tb_Progress et) task
                  | None => task
                  end in
      let! _ := transitionTaskState foundRows clockNow ctx task newState in
      markTasksWithState rest targetApplyID progress newState (stopped + 1) skipped applyID
  end.

Definition markApplyStopped (applyID : Z) : prog plane (res unit) :=
  try! apply := loadApply applyID in
  if IsTerminalApplyState (a_State apply) && negb (IsState (a_State apply) [Apply.Stopped]) then Ret (Ok tt)
  else update (set_a_State Apply.Stopped (set_a_CompletedAt None (set_a_UpdatedAt clockNow apply))).

Definition markApplyCancelled (applyID : Z) : prog plane (res unit) :=
  try! apply := loadApply applyID in
  update (set_a_State Apply.Cancelled (set_a_CompletedAt (Some clockNow) (set_a_UpdatedAt clockNow apply))).

(** The apply a stop of terminal tasks settles: derived from its tasks. *)
Definition derivedApply (apply : Apply) (tasks : list TaskRec) : Apply :=
  let derived := DeriveApplyState (tk_State <$> tasks) in
  let apply := set_a_State derived (set_a_UpdatedAt clockNow apply) in
  let apply := if IsState derived [Apply.Failed] && (a_ErrorMessage apply == "")
               then set_a_ErrorMessage (firstFailedTaskError tasks) apply else apply in
  if IsTerminalApplyState derived then set_a_CompletedAt (Some clockNow) apply else apply.

Definition handleStopAllTasksTerminal (applyID skippedCount : Z) : prog plane (res StopResponse) :=
  try! apply := loadApply applyID in
  if IsTerminalApplyState (a_State apply)
  then Ret (Ok (accepted ("Schema change already " ++ a_State apply) 0 skippedCount)) else
  try! tasks := readStore (GetByApplyID E applyID) in
  let apply := derivedApply apply tasks in
  try! _ := update apply in
  Ret (Ok (accepted ("Schema change already " ++ a_State apply) 0 skippedCount)).

(** ** Applies without tasks *)

Definition resolveTasklessApplyForSettle (targetApply : Apply) : prog plane (res Apply) :=
  try! tasks := readStore (GetByApplyID E (a_ID targetApply)) in
  match tasks with
  | _ :: _ => Ret (Err (Errorf "its tasks are outside this client's database scope"))
  | [] => loadApply (a_ID targetApply)
  end.

(** A failed write is only logged. *)
Fixpoint settleRows (operationState : string) (ops : list ApplyOperation) : prog plane unit :=
  match ops with
  | [] => Ret tt
  | op :: rest =>
      if negb (operationRowSettlesWithTasklessApply (op_State op) operationState)
      then settleRows operationState rest else
      let! _ := onStore (if IsState operationState [Apply.Stopped]
                         then UpdateState foundRows ctx (op_ID op) operationState
                         else MarkTerminal foundRows ctx (op_ID op) operationState) in
      settleRows operationState rest
  end.

Definition settleOperationRowsForTasklessApply (apply : Apply) (operationState : string) : prog plane unit :=
  let! ops := readStore (ListByApply (a_ID apply)) in
  match ops with Err _ => Ret tt | Ok ops => settleRows operationState ops end.

Definition settleStopForTasklessApply (targetApply : Apply) : prog plane (res StopResponse) :=
  try! apply := resolveTasklessApplyForSettle targetApply in
  if IsTerminalApplyState (a_State apply)
  then Ret (Ok (accepted ("Schema change already " ++ a_State apply) 0 0)) else
  try! _ := markApplyStopped (a_ID apply) in
  let! _ := settleOperationRowsForTasklessApply apply Apply.Stopped in
  Ret (Ok (accepted "" 0 0)).

Definition settleCancelForTasklessApply (targetApply : Apply) : prog plane (res StopResponse) :=
  try! apply := resolveTasklessApplyForSettle targetApply in
  if IsTerminalApplyState (a_State apply) && negb (IsState (a_State apply) [Apply.Stopped])
  then Ret (Ok (accepted "" 0 0)) else
  try! _ := markApplyCancelled (a_ID apply) in
  let! _ := settleOperationRowsForTasklessApply apply Apply.Cancelled in
  Ret (Ok (accepted "" 0 0)).

(** ** The owner's stop and cancel *)

(** The apply the request names; [None] when it names none. *)
Definition resolveTarget (applyId : string) : prog plane (res (option Apply)) :=
  if applyId == "" then Ret (Ok None) else
  try! apply := readStore (findApplyByIdentifier applyId) in
  Ret match apply with Some a => Ok (Some a) | None => Err ErrApplyNotFound end.

Definition targetID (target : option Apply) : Z := match target with Some a => a_ID a | None => 0 end.

Definition resolveRevertWindowApplyIdentifier (applyId : string) (target : option Apply) (revertTask : TaskRec)
    : prog plane string :=
  if applyId != "" then Ret applyId else
  if match target with Some a => a_ApplyIdentifier a != "" | None => false end
  then Ret match target with Some a => a_ApplyIdentifier a | None => "" end else
  let! apply := readStore (findApply (tk_ApplyID revertTask)) in
  Ret match apply with Ok (Some a) => a_ApplyIdentifier a | _ => tk_TaskIdentifier revertTask end.

Definition rejectRevertWindow {A} (applyId : string) (target : option Apply) (revertTask : TaskRec)
    : prog plane (res A) :=
  let! identifier := resolveRevertWindowApplyIdentifier applyId target revertTask in
  Ret (Err (Errorf (revertWindowStopRejectionMessage identifier))).

(** What follows the engine's stop; [creds] are those it was stopped with. *)
Definition recordStop (tasks : list TaskRec) (target : option Apply) (creds : option string)
    : prog plane (res StopResponse) :=
  let terminalState := if stopTerminatesChange (lc_Type cfg) then Task.Cancelled else Task.Stopped in
  let! progress := (if stopTerminatesChange (lc_Type cfg) then Ret ∅ else snapshotEngineProgress creds) in
  let! (stopped, skipped, applyID) := markTasksWithState tasks (targetID target) progress terminalState 0 0 0 in
  try! _ := (if (0 <? applyID) && (0 <? stopped)
             then if terminalState == Task.Cancelled then markApplyCancelled applyID else markApplyStopped applyID
             else Ret (Ok tt)) in
  if (stopped =? 0) && (skipped =? 0) then
    match target with
    | None => Ret (Err (Errorf "no active schema change"))
    | Some apply => settleStopForTasklessApply apply
    end
  else if (stopped =? 0) && (0 <? skipped) && (0 <? applyID) then
    match target with
    | Some apply =>
        if IsTerminalApplyState (a_State apply) && negb (IsState (a_State apply) [Apply.Completed])
        then Ret (Ok (accepted "" 0 skipped)) else handleStopAllTasksTerminal applyID skipped
    | None => handleStopAllTasksTerminal applyID skipped
    end
  else Ret (Ok {| sr_Accepted := 0 <? stopped; sr_ErrorMessage := ""; sr_StoppedCount := stopped;
                  sr_SkippedCount := skipped |}).

Definition stopOwnedApply (applyId : string) : prog plane (res StopResponse) :=
  if lc_Type cfg == DatabaseTypeVitess
  then Ret (Err (Errorf "stop not supported for this schema change; use cancel to permanently cancel it")) else
  try! tasks := readStore (GetByDatabase E (lc_Database cfg)) in
  try! target := resolveTarget applyId in
  match firstRevertWindowTask tasks (targetID target) with
  | Some revertTask => rejectRevertWindow applyId target revertTask
  | None =>
      currentApplyCancel (fun applyCancel =>
      try! creds := stopEngineForTasks tasks (targetID target) in
      let! _ := cancelApplyHandle applyCancel in
      recordStop tasks target creds)
  end.

Definition recordCancel (tasks : list TaskRec) (target : option Apply) : prog plane (res StopResponse) :=
  let! (stopped, skipped, applyID) := markTasksWithState tasks (targetID target) ∅ Task.Cancelled 0 0 0 in
  try! _ := (if (0 <? applyID) && (0 <? stopped) then markApplyCancelled applyID else Ret (Ok tt)) in
  if (stopped =? 0) && (skipped =? 0) then
    match target with
    | None => Ret (Err (Errorf "no active schema change"))
    | Some apply => settleCancelForTasklessApply apply
    end
  else if (stopped =? 0) && (0 <? skipped) && (0 <? applyID) then
    match target with
    | Some apply =>
        if IsState (a_State apply) [Apply.Cancelled] then Ret (Ok (accepted "" 0 skipped))
        else try! _ := markApplyCancelled applyID in Ret (Ok (accepted "" stopped skipped))
    | None => try! _ := markApplyCancelled applyID in Ret (Ok (accepted "" stopped skipped))
    end
  else Ret (Ok (accepted "" stopped skipped)).

Definition cancelOwnedApply (applyId : string) : prog plane (res StopResponse) :=
  try! tasks := readStore (GetByDatabase E (lc_Database cfg)) in
  try! target := resolveTarget applyId in
  match firstRevertWindowTask tasks (targetID target) with
  | Some revertTask => rejectRevertWindow applyId target revertTask
  | None =>
      currentApplyCancel (fun applyCancel =>
      try! _ := cancelEngineForTasks tasks (targetID target) in
      let! _ := cancelApplyHandle applyCancel in
      recordCancel tasks target)
  end.

(** ** Pending requests *)

Definition applyHasRevertWindowTask (apply : Apply) : prog plane (res bool) :=
  try! tasks := readStore (GetByApplyID E (a_ID apply)) in
  Ret (Ok (match firstRevertWindowTask tasks (a_ID apply) with Some _ => true | None => false end)).

Definition stopHandledUnlessStartPending (apply : Apply) : prog plane handledResult :=
  let! r := hasPendingStartControlRequest apply in
  match r with
  | Err e => handledBy apply true (Some e)
  | Ok pendingStart => handledBy apply (negb pendingStart) None
  end.

(** A step whose error ends the processing with the request handled. *)
Definition orHandled {A} (apply : Apply) (p : prog plane (res A)) (k : A -> prog plane handledResult)
    : prog plane handledResult :=
  let! r := p in match r with Err e => handledBy apply true (Some e) | Ok a => k a end.

Definition acceptedOr (r : StopResponse) : option StoreErr :=
  if sr_Accepted r then None
  else Some (Errorf (if sr_ErrorMessage r != "" then sr_ErrorMessage r else "not accepted")).

Definition processPendingStopControlRequest (apply : Apply) : prog plane handledResult :=
  let! req := pendingControlRequest apply ControlOperationStop in
  match req with
  | Err e => handledBy apply false (Some e)
  | Ok None => handledBy apply false None
  | Ok (Some _) =>
      orHandled apply (completePendingStopIfStoredApplyResolved foundRows ctx apply) (fun completed =>
      match completed with
      | Some stored => stopHandledUnlessStartPending stored
      | None =>
          if IsTerminalApplyState (a_State apply) then
            orHandled apply (completePending apply ControlOperationStop) (fun _ => stopHandledUnlessStartPending apply)
          else
          orHandled apply (applyHasRevertWindowTask apply) (fun revertWindow =>
          if revertWindow : bool then
            orHandled apply (failPending apply ControlOperationStop
                               (revertWindowStopRejectionMessage (a_ApplyIdentifier apply)))
              (fun _ => handledBy apply true None)
          else
          orHandled apply (stopOwnedApply (a_ApplyIdentifier apply)) (fun resp =>
          match acceptedOr resp with
          | Some e => handledBy apply true (Some e)
          | None =>
              orHandled apply (completePendingStopIfStoredApplyResolved foundRows ctx apply) (fun completed =>
              match completed with
              | Some stored => handledBy stored true None
              | None => handledBy apply true (Some (Errorf "storage did not reach a resolved stop state"))
              end)
          end))
      end)
  end.

Definition processPendingCancelControlRequest (apply : Apply) : prog plane handledResult :=
  let! req := pendingControlRequest apply ControlOperationCancel in
  match req with
  | Err e => handledBy apply false (Some e)
  | Ok None => handledBy apply false None
  | Ok (Some _) =>
      if IsTerminalApplyState (a_State apply) && negb (IsState (a_State apply) [Apply.Stopped]) then
        orHandled apply (completePending apply ControlOperationCancel) (fun _ => handledBy apply true None)
      else
      orHandled apply (applyHasRevertWindowTask apply) (fun revertWindow =>
      if revertWindow : bool then
        orHandled apply (failPending apply ControlOperationCancel
                           (revertWindowStopRejectionMessage (a_ApplyIdentifier apply)))
          (fun _ => handledBy apply true None)
      else
      orHandled apply (cancelOwnedApply (a_ApplyIdentifier apply)) (fun resp =>
      match acceptedOr resp with
      | Some e => handledBy apply true (Some e)
      | None => orHandled apply (completePending apply ControlOperationCancel) (fun _ => handledBy apply true None)
      end))
  end.

Definition processPendingCancelOrStopControlRequest (apply : Apply) : prog plane handledResult :=
  let! r := processPendingCancelControlRequest apply in
  if hr_Handled r || match hr_Err r with Some _ => true | None => false end then Ret r
  else processPendingStopControlRequest (hr_Apply r).
End Stopping.

(** ** The engine first *)

Section Refusal.
Context (E : EngineNames) (foundRows hasOptions : bool) (clockNow : Z) (ctx : leaseCtx) (cfg : clientConfig).

(** The engine refuses [op], an open apply has live work on the client's database,
    and no task of it is in its revert window. *)
Record engineHolds (op : ControlOperation) (identifier : string) (id : Z) (w : plane) : Prop := {
  eh_engine : forall req, exists e, ev_Control (pl_engine w) op req = Err e;
  eh_live : exists t, t ∈ tasks (pl_db w) /\ tk_Database t = lc_Database cfg /\ tk_ApplyID t = id /\
              hasLiveEngineWork (NormalizeTaskStatus E (tk_State t)) = true;
  eh_target : forall a, findApplyByIdentifier identifier (pl_db w) = Some a -> a_ID a = id;
  eh_open : forall a, findApply id (pl_db w) = Some a -> IsTerminalApplyState (a_State a) = false;
  eh_window : forall t, t ∈ tasks (pl_db w) -> tk_ApplyID t = id ->
                IsState (NormalizeTaskStatus E (tk_State t)) [Task.RevertWindow] = false;
}.

#[local] Instance engineHolds_cond op identifier id : StoreEngineCond (engineHolds op identifier id).
Proof. intros w w' Hdb Hen [? ? ? ? ?]. split; rewrite ?Hdb, ?Hen; done. Qed.

Lemma live_not_terminal st :
  st ∈ taskStates_all -> hasLiveEngineWork st = true -> IsTerminalTaskState st = false.
Proof. intros Hst. elem_cases Hst; (reflexivity || (intros H; vm_compute in H; discriminate)). Qed.

Lemma elem_GetByDatabase database s t :
  t ∈ GetByDatabase E database s <-> exists t0, t0 ∈ tasks s /\ tk_Database t0 = database /\ t = scanTask E t0.
Proof.
  unfold GetByDatabase. rewrite list_elem_of_fmap. split.
  - intros (t0 & -> & H). rewrite merge_sort_Permutation in H. apply list_elem_of_In, filter_In in H as [Hin Hd].
    exists t0. split; [by apply list_elem_of_In|]. by reflect_guards.
  - intros (t0 & Hin & <- & ->). exists t0. split; [done|]. rewrite merge_sort_Permutation.
    apply list_elem_of_In, filter_In. split; [by apply list_elem_of_In|]. apply eqb_refl'.
Qed.

Lemma elem_GetByApplyID applyID s t :
  t ∈ GetByApplyID E applyID s <-> exists t0, t0 ∈ tasks s /\ driveTask s applyID t0 = true /\ t = scanTask E t0.
Proof.
  unfold GetByApplyID. rewrite list_elem_of_fmap. split.
  - intros (t0 & -> & H). rewrite merge_sort_Permutation in H. apply list_elem_of_In, filter_In in H as [Hin Hd].
    exists t0. split; [by apply list_elem_of_In|]. done.
  - intros (t0 & Hin & Hd & ->). exists t0. split; [done|]. rewrite merge_sort_Permutation.
    apply list_elem_of_In, filter_In. split; [by apply list_elem_of_In|done].
Qed.

Lemma driveTask_apply s applyID t : driveTask s applyID t = true -> tk_ApplyID t = applyID.
Proof. unfold driveTask. intros [H _]%andb_true_iff. by apply Z.eqb_eq. Qed.

(** A task of the apply with live work makes the client ask the engine. *)
Lemma control_refused op identifier id w0 target :
  engineHolds op identifier id w0 -> (forall a, target = Some a -> a_ID a = id) ->
  storeQuiet (engineHolds op identifier id) failed
    (controlEngineForTasks cfg op (GetByDatabase E (lc_Database cfg) (pl_db w0)) (targetID target)).
Proof.
  intros [_ (t & Ht & Hdb & Hid & Hlive) _ _ _] Htarget. unfold controlEngineForTasks.
  destruct (negb (lc_HasEngine cfg)); [done|].
  destruct (find _ _) as [task|] eqn:Ef.
  - destruct (credentialsForTask cfg task) as [creds|e]; [|done].
    eapply (keepsView_try _ _ (fun _ => True)); [|done|].
    { unfold buildControlRequest. eapply (keepsView_try _ _ (fun _ => True)); [|done|].
      - destruct (lc_Type cfg == DatabaseTypeVitess); [|done]. eapply (keepsView_try _ _ (fun _ => True)); [|done|done].
        unfold loadEngineResumeState. destruct (applyOperationIDForTask task); [|done].
        eapply (keepsView_try _ _ (fun _ => True)); [|done|done].
        eapply keepsView_weaken; [|apply keepsView_query]. by intros [].
      - intros resume _. eapply keepsView_bind; [apply keepsView_ask|]. by intros [[]|] _. }
    intros req _. eapply keepsView_bind; [apply storeQuiet_command; apply _|].
    intros r [->|(w & Hw & ->)]; [done|]. destruct (eh_engine _ _ _ _ Hw req) as (e & ->). done.
  - exfalso. eapply find_none in Ef; [|apply list_elem_of_In, elem_GetByDatabase; by exists t].
    change (tk_State (scanTask E t)) with (NormalizeTaskStatus E (tk_State t)) in Ef.
    assert (Ht' : targeted (targetID target) (scanTask E t) = true).
    { unfold targeted. destruct target as [a|]; cbn; [|done]. rewrite (Htarget a eq_refl), Hid, Z.eqb_refl. by destruct (0 <? id). }
    rewrite Ht', Hlive, (live_not_terminal _ (NormalizeTaskStatus_range E (tk_State t)) Hlive) in Ef. done.
Qed.

(** What a stop and a cancel share: they refuse a change in its revert window, and
    otherwise command the engine before they record anything. *)
Lemma owned_refused op identifier id (record : list TaskRec -> option Apply -> option string -> prog plane (res StopResponse)) :
  storeQuiet (engineHolds op identifier id) failed
    (try! tasks := readStore (GetByDatabase E (lc_Database cfg)) in
     try! target := resolveTarget identifier in
     match firstRevertWindowTask tasks (targetID target) with
     | Some revertTask => rejectRevertWindow identifier target revertTask
     | None =>
         currentApplyCancel (fun applyCancel =>
         try! creds := controlEngineForTasks cfg op tasks (targetID target) in
         let! _ := cancelApplyHandle applyCancel in
         record tasks target creds)
     end).
Proof.
  eapply keepsView_bind; [apply keepsView_read|]. intros r [Hr|(w0 & Hw0 & ->)]; [by destruct r|].
  eapply (keepsView_try _ _ (fun target => forall a, target = Some a -> a_ID a = id)); [|done|].
  { unfold resolveTarget. destruct (identifier == ""); [done|].
    eapply keepsView_bind; [apply keepsView_read|]. intros r [Hr|(w & Hw & ->)]; [by destruct r|].
    destruct (findApplyByIdentifier _ _) as [a|] eqn:Ea; [|done]. intros a' [= <-]. by eapply eh_target. }
  intros target Htarget. destruct (firstRevertWindowTask _ _) as [rt|].
  - unfold rejectRevertWindow, resolveRevertWindowApplyIdentifier.
    eapply (keepsView_bind _ _ (fun _ => True)); [|done].
    destruct (identifier != ""); [done|]. destruct (match target with Some _ => _ | None => _ end); [done|].
    eapply keepsView_bind; [apply keepsView_read|]. done.
  - split; [|by intros e; eapply keepsView_bind; [by eapply control_refused|]; intros [a|e'] H].
    intros w Hw. split; [done|]. split; [done|].
    eapply keepsView_bind; [by eapply control_refused|]. by intros [a|e] H.
Qed.

Lemma stop_refused identifier id :
  storeQuiet (engineHolds ControlStop identifier id) failed
    (stopOwnedApply E foundRows hasOptions clockNow ctx cfg identifier).
Proof. unfold stopOwnedApply. destruct (lc_Type cfg == DatabaseTypeVitess); [done|]. apply owned_refused. Qed.

Lemma cancel_refused identifier id :
  storeQuiet (engineHolds ControlCancel identifier id) failed
    (cancelOwnedApply E foundRows hasOptions clockNow ctx cfg identifier).
Proof.
  apply (owned_refused ControlCancel identifier id
           (fun tasks target _ => recordCancel E foundRows hasOptions clockNow ctx tasks target)).
Qed.

(** The outcome of a processing that is not reported as a success. *)
Definition notSettledYet (r : handledResult) : Prop := hr_Handled r = true -> hr_Err r <> None.

Lemma orHandled_quiet {A} cond (Q : A -> Prop) apply (p : prog plane (res A)) k :
  storeQuiet cond (fun r => match r with Ok a => Q a | Err _ => True end) p ->
  (forall a, Q a -> storeQuiet cond notSettledYet (k a)) -> storeQuiet cond notSettledYet (orHandled apply p k).
Proof. intros Hp Hk. eapply keepsView_bind; [exact Hp|]. intros [a|e] H; [by apply Hk|done]. Qed.

Lemma no_window_read op apply :
  storeQuiet (engineHolds op (a_ApplyIdentifier apply) (a_ID apply))
    (fun r => match r with Ok b => b = false | Err _ => True end) (applyHasRevertWindowTask E apply).
Proof.
  unfold applyHasRevertWindowTask. eapply keepsView_bind; [apply keepsView_read|].
  intros r [Hr|(w & Hw & ->)]; [by destruct r|]. cbn.
  destruct (firstRevertWindowTask _ _) as [t|] eqn:Ef; [|done]. exfalso.
  apply find_some in Ef as [Hin Hp]. apply list_elem_of_In, elem_GetByApplyID in Hin as (t0 & Ht0 & Hid%driveTask_apply & ->).
  apply andb_true_iff in Hp as [_ Hp].
  change (tk_State (scanTask E t0)) with (NormalizeTaskStatus E (tk_State t0)) in Hp.
  pose proof (eh_window _ _ _ _ Hw t0 Ht0 Hid). congruence.
Qed.

Lemma process_stop_refused apply :
  IsTerminalApplyState (a_State apply) = false ->
  storeQuiet (engineHolds ControlStop (a_ApplyIdentifier apply) (a_ID apply)) notSettledYet
    (processPendingStopControlRequest E foundRows hasOptions clockNow ctx cfg apply).
Proof.
  intros Hopen. unfold processPendingStopControlRequest.
  eapply keepsView_bind; [apply keepsView_read|]. intros [[req|]|e] _; [|done..].
  eapply (orHandled_quiet _ (fun completed => completed = None)).
  { unfold completePendingStopIfStoredApplyResolved. eapply (keepsView_try _ _ (fun stored => IsTerminalApplyState (a_State stored) = false)); [|done|].
    - eapply keepsView_bind; [apply keepsView_read|]. intros r [Hr|(w & Hw & ->)]; [by destruct r|].
      destruct (findApply _ _) as [a|] eqn:Ea; [|done]. by eapply eh_open.
    - intros stored ->. done. }
  intros ? ->. rewrite Hopen.
  eapply (orHandled_quiet _ (fun b => b = false)); [apply no_window_read|].
  intros ? ->. eapply (orHandled_quiet _ (fun _ => False)); [|done].
  eapply keepsView_weaken; [|apply stop_refused]. by intros [a|e].
Qed.

Lemma process_cancel_refused apply :
  IsTerminalApplyState (a_State apply) = false ->
  storeQuiet (engineHolds ControlCancel (a_ApplyIdentifier apply) (a_ID apply)) notSettledYet
    (processPendingCancelControlRequest E foundRows hasOptions clockNow ctx cfg apply).
Proof.
  intros Hopen. unfold processPendingCancelControlRequest.
  eapply keepsView_bind; [apply keepsView_read|]. intros [[req|]|e] _; [|done..]. rewrite Hopen. cbn [andb].
  eapply (orHandled_quiet _ (fun b => b = false)); [apply no_window_read|].
  intros ? ->. eapply (orHandled_quiet _ (fun _ => False)); [|done].
  eapply keepsView_weaken; [|apply cancel_refused]. by intros [a|e].
Qed.

(** The owner's processing of a pending stop, or of a pending cancel. *)
Definition ownerProcess (cancel : bool) : Apply -> prog plane handledResult :=
  if cancel then processPendingCancelControlRequest E foundRows hasOptions clockNow ctx cfg
  else processPendingStopControlRequest E foundRows hasOptions clockNow ctx cfg.
End Refusal.

(** C6: the store records a stop or a cancel only after the engine's answer.  As long as
    the engine answers the command with an error (one that cannot be reached does)
    while the open apply that the identifier names has live work on the client's
    database and no task in its revert window, the owner that processes the pending
    request changes nothing in the store, whatever other connections and the engine do
    between its statements and whichever statements fail, and it does not report the
    request as settled: the apply, its tasks and the pending request are left for the
    next attempt.  The conditions are the code's own: for an apply that has ended the
    request is completed without asking the engine, a change in its revert window is
    refused ([revert_window_protected]); and any answer without an error counts as
    obeyed, since the acceptance flag of the answer is not read
    ([unaccepted_stop_recorded]). *)
Theorem stop_needs_engine (E : EngineNames) (foundRows hasOptions : bool) (clockNow : Z) (ctx : leaseCtx)
    (cfg : clientConfig) (cancel : bool) (apply : Apply) env w w' r n
    (Hopen : IsTerminalApplyState (a_State apply) = false)
    (Hholds : engineHolds E cfg (if cancel then ControlCancel else ControlStop) (a_ApplyIdentifier apply) (a_ID apply) w)
    (Henv : keeps (engineHolds E cfg (if cancel then ControlCancel else ControlStop)
                     (a_ApplyIdentifier apply) (a_ID apply)) env)
    (Hrun : runE env 0 (ownerProcess E foundRows hasOptions clockNow ctx cfg cancel apply) w = (w', r, n)) :
  leavesStore env 0 (ownerProcess E foundRows hasOptions clockNow ctx cfg cancel apply) w /\ notSettledYet r.
Proof.
  apply and_comm. refine (keepsView_run _ _ _ _ _ _ _ _ _ _ Henv _ Hholds Hrun). destruct cancel.
  - by apply process_cancel_refused.
  - by apply process_stop_refused.
Qed.

(** ** The revert window *)

Section Window.
Context (E : EngineNames) (foundRows hasOptions : bool) (clockNow : Z) (ctx : leaseCtx) (cfg : clientConfig).

(** A drive task of the apply on the client's database is in its revert window. *)
Record inWindow (identifier : string) (id : Z) (w : plane) : Prop := {
  iw_task : exists t, t ∈ tasks (pl_db w) /\ driveTask (pl_db w) id t = true /\ tk_Database t = lc_Database cfg /\
              NormalizeTaskStatus E (tk_State t) = Task.RevertWindow;
  iw_target : forall a, findApplyByIdentifier identifier (pl_db w) = Some a -> a_ID a = id;
}.

Lemma window_found ts t id target :
  scanTask E t ∈ ts -> tk_ApplyID t = id -> NormalizeTaskStatus E (tk_State t) = Task.RevertWindow ->
  (target = 0 \/ target = id) -> exists t', firstRevertWindowTask ts target = Some t'.
Proof.
  intros Hin Hid Hst Ht. unfold firstRevertWindowTask.
  destruct (find _ ts) as [t'|] eqn:Ef; [by exists t'|]. eapply find_none in Ef; [|by apply list_elem_of_In].
  change (tk_State (scanTask E t)) with (NormalizeTaskStatus E (tk_State t)) in Ef. rewrite Hst in Ef.
  unfold targeted in Ef. change (tk_ApplyID (scanTask E t)) with (tk_ApplyID t) in Ef. rewrite Hid in Ef.
  destruct Ht as [->| ->]; [done|]. rewrite Z.eqb_refl in Ef. by destruct (0 <? id).
Qed.

Lemma window_read {X} (view : plane -> X) identifier apply :
  keepsView view (inWindow identifier (a_ID apply)) (fun r => match r with Ok b => b = true | Err _ => True end)
    (applyHasRevertWindowTask E apply).
Proof.
  unfold applyHasRevertWindowTask. eapply keepsView_bind; [apply keepsView_read|].
  intros r [Hr|(w & Hw & ->)]; [by destruct r|]. cbn. destruct (iw_task _ _ _ Hw) as (t & Ht & Hd & _ & Hst).
  destruct (window_found (GetByApplyID E (a_ID apply) (pl_db w)) t (a_ID apply) (a_ID apply)) as (t' & ->);
    [|by eapply driveTask_apply|by eauto..].
  apply elem_GetByApplyID. by exists t.
Qed.

Definition ownedCall (cancel : bool) : string -> prog plane (res StopResponse) :=
  if cancel then cancelOwnedApply E foundRows hasOptions clockNow ctx cfg
  else stopOwnedApply E foundRows hasOptions clockNow ctx cfg.

Lemma owned_window {X} (view : plane -> X) identifier id record :
  keepsView view (inWindow identifier id) failed
    (try! tasks := readStore (GetByDatabase E (lc_Database cfg)) in
     try! target := resolveTarget identifier in
     match firstRevertWindowTask tasks (targetID target) with
     | Some revertTask => rejectRevertWindow identifier target revertTask
     | None => record tasks target : prog plane (res StopResponse)
     end).
Proof.
  eapply keepsView_bind; [apply keepsView_read|]. intros r [Hr|(w0 & Hw0 & ->)]; [by destruct r|].
  eapply (keepsView_try _ _ (fun target => targetID target = 0 \/ targetID target = id)); [|done|].
  { unfold resolveTarget. destruct (identifier == ""); [by left|].
    eapply keepsView_bind; [apply keepsView_read|]. intros r [Hr|(w & Hw & ->)]; [by destruct r|].
    destruct (findApplyByIdentifier _ _) as [a|] eqn:Ea; [|done]. right. by eapply iw_target. }
  intros target Htarget. destruct (iw_task _ _ _ Hw0) as (t & Ht & Hd & Hdb & Hst).
  destruct (window_found (GetByDatabase E (lc_Database cfg) (pl_db w0)) t id (targetID target)) as (t' & ->);
    [|by eapply driveTask_apply|done..|].
  { apply elem_GetByDatabase. by exists t. }
  unfold rejectRevertWindow, resolveRevertWindowApplyIdentifier.
  eapply (keepsView_bind _ _ (fun _ => True)); [|done].
  destruct (identifier != ""); [done|]. destruct (match target with Some _ => _ | None => _ end); [done|].
  eapply keepsView_bind; [apply keepsView_read|]. done.
Qed.

Lemma owned_window_refused {X} (view : plane -> X) cancel identifier id :
  keepsView view (inWindow identifier id) failed (ownedCall cancel identifier).
Proof.
  unfold ownedCall, stopOwnedApply. destruct cancel; [apply owned_window|].
  destruct (lc_Type cfg == DatabaseTypeVitess); [done|]. apply owned_window.
Qed.

#[local] Instance inWindow_request operation identifier id : RequestCond operation (inWindow identifier id).
Proof.
  intros w s [Ht Htar] (Ha & Ho & Hts & _). split; cbn.
  - destruct Ht as (t & H1 & H2 & H3). exists t. rewrite Hts. unfold driveTask in *. by rewrite Ho.
  - unfold findApplyByIdentifier in *. by rewrite Ha.
Qed.

Lemma orHandled_keeps {A X} (view : plane -> X) cond (Q : A -> Prop) apply (p : prog plane (res A)) k :
  keepsView view cond (fun r => match r with Ok a => Q a | Err _ => True end) p ->
  (forall a, Q a -> keepsView view cond (fun _ => True) (k a)) ->
  keepsView view cond (fun _ => True) (orHandled apply p k).
Proof. intros Hp Hk. eapply keepsView_bind; [exact Hp|]. intros [a|e] H; [by apply Hk|done]. Qed.

Lemma startPending_keeps {X} (view : plane -> X) cond apply :
  keepsView view cond (fun _ => True) (stopHandledUnlessStartPending apply).
Proof.
  eapply (keepsView_bind _ _ (fun _ => True)); [|by intros [[]|]].
  eapply keepsView_bind; [apply keepsView_read|]. by intros [[]|] _.
Qed.

Lemma process_window cancel apply :
  keepsView work (inWindow (a_ApplyIdentifier apply) (a_ID apply)) (fun _ => True)
    (ownerProcess E foundRows hasOptions clockNow ctx cfg cancel apply).
Proof.
  unfold ownerProcess, processPendingCancelControlRequest, processPendingStopControlRequest.
  destruct cancel; (eapply keepsView_bind; [apply keepsView_read|]; intros [[req|]|e] _; [|done..]).
  - case_match; [by eapply orHandled_keeps; [apply completePending_keeps_work, _|]|].
    eapply orHandled_keeps; [apply window_read|]. intros ? ->. by eapply orHandled_keeps; [apply failPending_keeps_work, _|].
  - eapply (orHandled_keeps _ _ (fun _ => True)).
    { unfold completePendingStopIfStoredApplyResolved. eapply (keepsView_try _ _ (fun _ => True)); [|done|].
      - eapply keepsView_bind; [apply keepsView_read|]. by intros [[]|] _.
      - intros stored _. case_match; [done|]. eapply (keepsView_try _ _ (fun _ => True)); [|done|done].
        eapply keepsView_weaken; [|apply completePending_keeps_work, _]. by intros []. }
    intros [stored|] _; [apply startPending_keeps|].
    case_match; [eapply orHandled_keeps; [apply completePending_keeps_work, _|intros; apply startPending_keeps]|].
    eapply orHandled_keeps; [apply window_read|]. intros ? ->. by eapply orHandled_keeps; [apply failPending_keeps_work, _|].
Qed.
End Window.

(** A change in its revert window is live and is left alone.  As long as a task
    of the apply is in its revert window, the owner that processes a pending stop or
    cancel sends the engine no command, cancels no drive and changes no apply,
    operation or task, whatever else happens between its statements and whichever of
    them fail: at most the request is settled.  The stop and the cancel themselves
    change nothing at all and fail. *)
Theorem revert_window_protected (E : EngineNames) (foundRows hasOptions : bool) (clockNow : Z) (ctx : leaseCtx)
    (cfg : clientConfig) (cancel : bool) (apply : Apply) env w
    (Hwin : inWindow E cfg (a_ApplyIdentifier apply) (a_ID apply) w)
    (Henv : keeps (inWindow E cfg (a_ApplyIdentifier apply) (a_ID apply)) env) :
  leaves work env 0 (ownerProcess E foundRows hasOptions clockNow ctx cfg cancel apply) w /\
  forall w' r n,
    runE env 0 (ownedCall E foundRows hasOptions clockNow ctx cfg cancel (a_ApplyIdentifier apply)) w = (w', r, n) ->
    failed r /\
    leaves (fun u => u) env 0 (ownedCall E foundRows hasOptions clockNow ctx cfg cancel (a_ApplyIdentifier apply)) w.
Proof.
  split.
  - destruct (runE env 0 (ownerProcess E foundRows hasOptions clockNow ctx cfg cancel apply) w) as [[w' r] n] eqn:Hrun.
    by destruct (keepsView_run _ _ _ _ _ _ _ _ _ _ Henv (process_window _ _ _ _ _ _ _ _) Hwin Hrun).
  - intros w' r n Hrun. exact (keepsView_run _ _ _ _ _ _ _ _ _ _ Henv (owned_window_refused _ _ _ _ _ _ _ _ _ _) Hwin Hrun).
Qed.

(** ** A client and its engine *)

(** A client of the database orders whose credentials name it. *)
Definition exampleClient (databaseType : string) : clientConfig :=
  {| lc_Type := databaseType; lc_Database := "orders"; lc_TargetDSN := "dsn"; lc_HasEngine := true;
     mysqlDSNDatabase := fun _ => Ok "orders"; mysqlDSNWithDatabase := fun dsn _ => Ok dsn |}.

(** An engine that answers every control command with [answer]. *)
Definition exampleEngine (answer : eres (option ControlResult)) : engineView :=
  {| ev_Plan := fun _ _ _ => Err transportError; ev_CutoverSignal := fun _ _ => None;
     ev_Apply := fun _ => ([], Err transportError); ev_Progress := fun _ _ _ => Err transportError;
     ev_Control := fun _ _ => answer; ev_Volume := fun _ => Err transportError; ev_Validate := fun _ _ => None |}.

(** A remote data plane that cannot be reached. *)
Definition silentRemote : remoteView :=
  {| rv_Apply := fun _ => Err cutOff; rv_Progress := fun _ _ => Err cutOff; rv_Control := fun _ _ _ => Err cutOff |}.

Definition examplePlane (s : store) (e : engineView) : plane :=
  {| pl_db := s; pl_engine := e; pl_calls := [];
     pl_cancels := {| cn_Generation := 1; cn_Cancel := Some 7; cn_Done := [] |}; pl_remote := silentRemote; pl_sent := [] |}.

Definition noLease : leaseCtx := {| ApplyLeaseFromContext := None; OperationLeaseFromContext := None |}.

(** An answer that does not accept the stop, but is no error: the stop is recorded. *)
Lemma unaccepted_stop_recorded :
  let apply := exampleApply Apply.Running in
  let s := withTasks [exampleTask 7 "task_7" "t" "" Task.Running]
             (exampleStore apply [] [exampleRequest ControlOperationStop ControlRequestPending]) in
  let w := examplePlane s (exampleEngine (Ok (Some {| cl_Accepted := false; cl_Message := "no" |}))) in
  let p := ownerProcess documentedNames true false 50 noLease (exampleClient DatabaseTypeMySQL) false apply in
  tk_State <$> tasks (pl_db (run p w).1) = [Task.Stopped] /\
  (a_State <$> findApply 1 (pl_db (run p w).1)) = Some Apply.Stopped.
Proof. vm_compute. by split. Qed.

(** The engine cannot be reached: the request stays pending, the engine was asked. *)
Lemma stop_needs_engine_witness :
  let apply := exampleApply Apply.Running in
  let s := withTasks [exampleTask 7 "task_7" "t" "" Task.Running]
             (exampleStore apply [] [exampleRequest ControlOperationStop ControlRequestPending]) in
  let w := examplePlane s (exampleEngine (Err transportError)) in
  let p := ownerProcess documentedNames true false 50 noLease (exampleClient DatabaseTypeMySQL) false apply in
  length (pl_calls (run p w).1) = 1%nat /\ leavesStore (fun _ => quiet) 0 p w /\ notSettledYet (run p w).2.
Proof.
  intros apply s w p. split; [vm_compute; reflexivity|].
  refine (stop_needs_engine documentedNames true false 50 noLease (exampleClient DatabaseTypeMySQL) false apply
            (fun _ => quiet) w (run p w).1 _ 8 eq_refl _ _ _).
  - split.
    + intros req. by exists transportError.
    + exists (exampleTask 7 "task_7" "t" "" Task.Running). repeat split. by left.
    + by intros a [= <-].
    + by intros a [= <-].
    + by intros t [->|[]%elem_of_nil]%elem_of_cons _.
  - by intros m u Hu.
  - vm_compute. reflexivity.
Defined.

(** A stop of an apply in its revert window: the request is failed, nothing else. *)
Lemma revert_window_protected_witness :
  let apply := exampleApply Apply.RevertWindow in
  let s := withTasks [exampleTask 7 "task_7" "t" "" Task.RevertWindow]
             (exampleStore apply [] [exampleRequest ControlOperationStop ControlRequestPending]) in
  let w := examplePlane s (exampleEngine (Ok (Some {| cl_Accepted := true; cl_Message := "" |}))) in
  let p := ownerProcess documentedNames true false 50 noLease (exampleClient DatabaseTypeMySQL) false apply in
  cr_Status <$> controls (pl_db (run p w).1) = [ControlRequestFailed] /\ leaves work (fun _ => quiet) 0 p w.
Proof.
  intros apply s w p. split; [vm_compute; reflexivity|].
  refine (proj1 (revert_window_protected documentedNames true false 50 noLease (exampleClient DatabaseTypeMySQL) false
            apply (fun _ => quiet) w _ _)).
  - split; [|by intros a [= <-]]. exists (exampleTask 7 "task_7" "t" "" Task.RevertWindow). repeat split. by left.
  - by intros m u Hu.
Defined.

(** A cancel that finds every task completed still marks the apply cancelled, where
    a stop derives the state from the tasks: here the stored apply, driven by an
    owner that holds it as running, was completed already. *)
Lemma cancel_rewrites_completed :
  let s := withTasks [exampleTask 7 "task_7" "t" "" Task.Completed]
             (exampleStore (exampleApply Apply.Completed) [] [exampleRequest ControlOperationCancel ControlRequestPending;
                                                              exampleRequest ControlOperationStop ControlRequestPending]) in
  let w := examplePlane s (exampleEngine (Ok None)) in
  let after cancel := (run (ownerProcess documentedNames true false 50 noLease (exampleClient DatabaseTypeMySQL) cancel
                              (exampleApply Apply.Running)) w).1 in
  a_State <$> applies (pl_db (after true)) = [Apply.Cancelled] /\
  a_State <$> applies (pl_db (after false)) = [Apply.Completed].
Proof. vm_compute. split; reflexivity. Qed.
