(* ===== verification/LocalControl.v ===== *)
(** * Cutover, volume and revert of a driven apply (tern/local_control.go)

    A request for a cutover, a stop, a cancel or a volume change may reach any
    instance; it is recorded durably for the instance that owns the apply.  The
    owner serves it between two steps of its drive: a cutover when the apply is
    ready and no stop is pending, a volume change at once.  [errText] is the text of
    an error value and [unmarshalVolume] the JSON decoder of the volume payload. *)

From S2P Require Import Prelude GoStrings State Convert Sql Store Operations Applies Control Projection Fencing Tasks Plane Stopping.

Local Open Scope string_scope.
Local Open Scope Z_scope.

(** ** Volume levels (storage/types.go) *)

Definition MinVolume : Z := 1.
Definition MaxVolume : Z := 11.

Definition volumeInRange (volume : Z) : bool := negb ((volume <? MinVolume) || (MaxVolume <? volume)).

Definition dquote : string := String "034" "".

(** [json.Marshal] of the payload. *)
Definition marshalVolume (volume : Z) : string := "{" ++ dquote ++ "volume" ++ dquote ++ ":" ++ Itoa volume ++ "}".

Definition EncodeVolumeControlRequestMetadata (volume : Z) : res string :=
  if negb (volumeInRange volume) then Err (Errorf ("volume " ++ Itoa volume ++ " is out of range"))
  else Ok (marshalVolume volume).

(** Go's conversion to [int32]. *)
Definition int32 (z : Z) : Z := (z + 2 ^ 31) mod 2 ^ 32 - 2 ^ 31.

Definition set_ao_Volume (v : Z) (o : ApplyOptions) : ApplyOptions :=
  {| ao_AllowUnsafe := ao_AllowUnsafe o; ao_Branch := ao_Branch o; ao_DeferCutover := ao_DeferCutover o;
     ao_DeferDeploy := ao_DeferDeploy o; ao_SkipRevert := ao_SkipRevert o; ao_Volume := v;
     ao_Target := ao_Target o; ao_Rollback := ao_Rollback o |}.

(** [ternv1.CutoverResponse] and [VolumeResponse] *)
Record CutoverResponse := { cv_Accepted : bool; cv_ErrorMessage : string }.
Record VolumeResponse := { vs_Accepted : bool; vs_ErrorMessage : string; vs_NewVolume : Z }.

Definition volumeRejected (message : string) : VolumeResponse :=
  {| vs_Accepted := false; vs_ErrorMessage := message; vs_NewVolume := 0 |}.

(** What an engine or an owner that does not accept says. *)
Definition orNotAccepted (message : string) : string := if message != "" then message else "not accepted".

(** A request as it is recorded: the row's own columns are the store's. *)
Definition newRequest (apply : Apply) (operation requestedBy metadata : string) : ApplyControlRequest :=
  {| cr_ID := 0; cr_ApplyID := a_ID apply; cr_Operation := operation; cr_Status := ControlRequestPending;
     cr_RequestedBy := requestedBy; cr_ErrorMessage := None; cr_Metadata := metadata; cr_CompletedAt := None;
     cr_CreatedAt := 0; cr_UpdatedAt := 0 |}.

Definition requester (caller : string) : string := if caller == "" then "tern-grpc" else caller.

Section LocalControl.
Context (E : EngineNames) (foundRows hasOptions : bool) (clockNow : Z) (ctx : leaseCtx) (cfg : clientConfig).
Context (errText : StoreErr -> string) (unmarshalVolume : string -> option Z).

Abbreviation completePending := (completePendingControlRequests foundRows ctx).
Abbreviation failPending := (failPendingControlRequests foundRows ctx).

Definition DecodeVolumeControlRequestMetadata (metadata : string) : res Z :=
  if metadata == "" then Err (Errorf "volume control request metadata is empty") else
  match unmarshalVolume metadata with
  | None => Err (Errorf "decode volume control request metadata")
  | Some volume =>
      if negb (volumeInRange volume) then Err (Errorf ("volume " ++ Itoa volume ++ " is out of range")) else Ok volume
  end.

(** ** Requests *)

Definition getActiveTaskForDatabase (database : string) : prog plane (res (option TaskRec)) :=
  try! tasks := readStore (GetByDatabase E database) in
  Ret (Ok (find (fun t => negb (IsTerminalTaskState (tk_State t))) tasks)).

Definition resolveControlApply (applyID : string) : prog plane (res (option Apply)) :=
  if applyID != "" then
    try! apply := readStore (findApplyByIdentifier applyID) in
    Ret match apply with Some a => Ok (Some a) | None => Err ErrApplyNotFound end
  else
    try! task := getActiveTaskForDatabase (lc_Database cfg) in
    match task with
    | None => Ret (Ok None)
    | Some t => try! a := loadApply (tk_ApplyID t) in Ret (Ok (Some a))
    end.

Definition queueCutoverRequest (apply : Apply) (caller : string) : prog plane (res CutoverResponse) :=
  try! _ := onStore (RequestPending (newRequest apply ControlOperationCutover (requester caller) "")) in
  Ret (Ok {| cv_Accepted := true; cv_ErrorMessage := "" |}).

Definition requestCutover (applyId caller : string) : prog plane (res CutoverResponse) :=
  try! apply := resolveControlApply applyId in
  match apply with
  | None => Ret (Err (Errorf "no active schema change"))
  | Some a => queueCutoverRequest a caller
  end.

(** What requestStop and requestCancel share: the window check and the record. *)
Definition queueUnlessRevertWindow (apply : Apply) (operation caller : string) : prog plane (res StopResponse) :=
  try! revertWindow := applyHasRevertWindowTask E apply in
  if revertWindow : bool then Ret (Err (Errorf (revertWindowStopRejectionMessage (a_ApplyIdentifier apply)))) else
  try! _ := onStore (RequestPending (newRequest apply operation (requester caller) "")) in
  Ret (Ok (accepted "" 0 0)).

Definition requestCancel (applyId caller : string) : prog plane (res StopResponse) :=
  try! apply := resolveControlApply applyId in
  match apply with
  | None => Ret (Err (Errorf "no active schema change"))
  | Some a =>
      if IsTerminalApplyState (a_State a) && negb (IsState (a_State a) [Apply.Stopped])
      then Ret (Err (Errorf ("schema change " ++ a_ApplyIdentifier a ++ " is already terminal (state: " ++ a_State a ++ ")")))
      else queueUnlessRevertWindow a ControlOperationCancel caller
  end.

Definition requestStop (applyId caller : string) : prog plane (res StopResponse) :=
  if lc_Type cfg == DatabaseTypeVitess
  then Ret (Err (Errorf "stop not supported for this schema change; use cancel to permanently cancel it")) else
  try! apply := resolveControlApply applyId in
  match apply with
  | None => Ret (Err (Errorf "no active schema change"))
  | Some a => queueUnlessRevertWindow a ControlOperationStop caller
  end.

(** ** The owner's cutover *)

(** The first open task; of an apply parked at its cutover the first task. *)
Definition cutoverTask (apply : Apply) (tasks : list TaskRec) : option TaskRec :=
  match find (fun t => negb (IsTerminalTaskState (tk_State t))) tasks, tasks with
  | Some t, _ => Some t
  | None, t :: _ => if IsState (a_State apply) [Apply.WaitingForCutover; Apply.CuttingOver] then Some t else None
  | None, [] => None
  end.

(** The task to cut over and its apply. *)
Definition cutoverTarget (applyId : string) : prog plane (res (Apply * TaskRec)) :=
  if applyId != "" then
    try! found := readStore (findApplyByIdentifier applyId) in
    match found with
    | None => Ret (Err ErrApplyNotFound)
    | Some apply =>
        try! tasks := readStore (GetByApplyID E (a_ID apply)) in
        Ret match cutoverTask apply tasks with
            | None => Err (Errorf "no active schema change")
            | Some t => Ok (apply, t)
            end
    end
  else
    try! task := getActiveTaskForDatabase (lc_Database cfg) in
    match task with
    | None => Ret (Err (Errorf "no active schema change"))
    | Some t => try! apply := loadApply (tk_ApplyID t) in Ret (Ok (apply, t))
    end.

Definition cutover (applyId : string) : prog plane (res CutoverResponse) :=
  try! (apply, task) := cutoverTarget applyId in
  if IsState (a_State apply) [Apply.Recovering] then
    Ret (Ok {| cv_Accepted := false; cv_ErrorMessage :=
      "Schema change is recovering after restart; cutover will be available once recovery completes." |}) else
  try! stopReq := pendingControlRequest apply ControlOperationStop in
  match stopReq with
  | Some _ => Ret (Err (Errorf "schema change has a pending stop request; cutover is blocked until stop is processed"))
  | None =>
      match credentialsForTask cfg task with
      | Err e => Ret (Err e)
      | Ok creds =>
          if negb (lc_HasEngine cfg) then Ret (Err (Errorf "no engine configured")) else
          try! req := buildControlRequest cfg task creds ControlCutover in
          let! r := commandEngine (CallControl ControlCutover req) (fun v => ev_Control v ControlCutover req) in
          Ret match r with
              | Err e => Err (Errorf ("cutover failed: " ++ ee_Message e))
              | Ok None => Ok {| cv_Accepted := false; cv_ErrorMessage := "not accepted" |}
              | Ok (Some result) =>
                  if cl_Accepted result then Ok {| cv_Accepted := true; cv_ErrorMessage := "" |}
                  else Ok {| cv_Accepted := false; cv_ErrorMessage := orNotAccepted (cl_Message result) |}
              end
      end
  end.

(** The apply as the drive has it afterwards, and the error. *)
Definition orFail {A} (apply : Apply) (p : prog plane (res A)) (k : A -> prog plane (Apply * option StoreErr))
    : prog plane (Apply * option StoreErr) :=
  let! r := p in match r with Err e => Ret (apply, Some e) | Ok a => k a end.

(** The request is failed and the processing ends with [e]. *)
Definition failWith (apply : Apply) (operation message : string) (e : StoreErr) : prog plane (Apply * option StoreErr) :=
  orFail apply (failPending apply operation message) (fun _ => Ret (apply, Some e)).

Definition processPendingCutoverControlRequest (apply : Apply) : prog plane (Apply * option StoreErr) :=
  orFail apply (pendingControlRequest apply ControlOperationCutover) (fun req =>
  match req with
  | None => Ret (apply, None)
  | Some _ =>
      if cutoverRequestResolvedByApplyState (a_State apply) then
        orFail apply (completePending apply ControlOperationCutover) (fun _ => Ret (apply, None))
      else if cutoverRequestFailedByApplyState (a_State apply) then
        let message := "cutover request was not applied because apply is " ++ a_State apply in
        failWith apply ControlOperationCutover message (Errorf message)
      else if IsState (a_State apply) [Apply.Recovering] then Ret (apply, None)
      else
      orFail apply (applyReadyForCutoverRequest E apply) (fun ready =>
      if negb ready then Ret (apply, None) else
      orFail apply (pendingControlRequest apply ControlOperationStop) (fun stopReq =>
      match stopReq with
      | Some _ => Ret (apply, Some (Errorf "schema change has a pending stop request; cutover is blocked until stop is processed"))
      | None =>
          orFail apply (markApplyCuttingOverForControlRequest hasOptions clockNow ctx apply) (fun apply =>
          let! resp := cutover (a_ApplyIdentifier apply) in
          match resp with
          | Err e => failWith apply ControlOperationCutover (errText e) e
          | Ok r =>
              if cv_Accepted r
              then orFail apply (completePending apply ControlOperationCutover) (fun _ => Ret (apply, None))
              else failWith apply ControlOperationCutover (orNotAccepted (cv_ErrorMessage r))
                     (Errorf (orNotAccepted (cv_ErrorMessage r)))
          end)
      end))
  end).

(** ** Volume *)

Definition queueVolumeRequest (apply : Apply) (volume : Z) : prog plane (res VolumeResponse) :=
  match EncodeVolumeControlRequestMetadata volume with
  | Err e => Ret (Err e)
  | Ok metadata =>
      try! (controlReq, alreadyPending) :=
        onStore (RequestPending (newRequest apply ControlOperationVolume "tern-grpc" metadata)) in
      try! stored := loadApply (a_ID apply) in
      if IsTerminalApplyState (a_State stored) then
        try! _ := completePending apply ControlOperationVolume in
        Ret (Ok (volumeRejected ("Schema change " ++ a_ApplyIdentifier apply ++ " is " ++ a_State stored ++
                                 "; volume can only be adjusted while it is running")))
      else if alreadyPending : bool then
        Ret match DecodeVolumeControlRequestMetadata (cr_Metadata controlReq) with
            | Err _ => Ok (volumeRejected ("A volume adjustment is already queued for apply " ++ a_ApplyIdentifier apply))
            | Ok pendingVolume =>
                if negb (pendingVolume =? volume)
                then Ok (volumeRejected ("A volume adjustment to " ++ Itoa pendingVolume ++ " is already queued for apply " ++
                                         a_ApplyIdentifier apply))
                else Ok {| vs_Accepted := true; vs_ErrorMessage := ""; vs_NewVolume := volume |}
            end
      else Ret (Ok {| vs_Accepted := true; vs_ErrorMessage := ""; vs_NewVolume := volume |})
  end.

Definition Volume (applyId : string) (volume : Z) : prog plane (res VolumeResponse) :=
  if negb (volumeInRange volume) then Ret (Err (Errorf "volume must be between 1 and 11")) else
  try! apply := resolveControlApply applyId in
  match apply with
  | None => Ret (Err (Errorf "no active schema change"))
  | Some a =>
      if IsTerminalApplyState (a_State a) then
        Ret (Ok (volumeRejected ("Schema change " ++ a_ApplyIdentifier a ++ " is " ++ a_State a ++
                                 "; volume can only be adjusted while it is running")))
      else
      try! operations := readStore (ListByApply (a_ID a)) in
      if (1 <? length operations)%nat then
        Ret (Ok (volumeRejected ("Apply " ++ a_ApplyIdentifier a ++ " fans out to multiple deployments")))
      else queueVolumeRequest a volume
  end.

(** The apply with the options the drive goes on with. *)
Definition recordAppliedVolume (apply : Apply) (volume : Z) : prog plane (res Apply) :=
  if negb (volumeInRange volume) then Ret (Err (Errorf "engine reported applied volume out of range")) else
  try! stored := loadApply (a_ID apply) in
  let options := set_ao_Volume volume (a_Options stored) in
  try! _ := updateApply true ctx (set_a_Options options stored) in
  Ret (Ok (set_a_Options options apply)).

Definition volumeRequest (apply : Apply) (volume : Z) (creds : string) (resumeState : option ResumeState) : VolumeRequest :=
  {| vq_Database := a_Database apply; vq_Volume := volume; vq_ResumeState := resumeState; vq_Credentials := creds |}.

Definition processPendingVolumeControlRequest (apply : Apply) (creds : string) (resumeState : option ResumeState)
    : prog plane (Apply * option StoreErr) :=
  let fail message := orFail apply (failPending apply ControlOperationVolume message) (fun _ => Ret (apply, None)) in
  orFail apply (pendingControlRequest apply ControlOperationVolume) (fun req =>
  match req with
  | None => Ret (apply, None)
  | Some controlReq =>
      orFail apply (readStore (ListByApply (a_ID apply))) (fun operations =>
      if (1 <? length operations)%nat
      then fail ("apply fans out to " ++ Itoa (Z.of_nat (length operations)) ++
                 " deployments; volume adjustment is not supported for multi-deployment applies")
      else
      match DecodeVolumeControlRequestMetadata (cr_Metadata controlReq) with
      | Err e => fail ("volume request metadata is invalid: " ++ errText e)
      | Ok volume =>
          let call := volumeRequest apply volume creds resumeState in
          let! r := commandEngine (CallVolume call) (fun v => ev_Volume v call) in
          match r with
          | Err e => fail (ee_Message e)
          | Ok None => fail "not accepted"
          | Ok (Some result) =>
              if negb (vr_Accepted result) then fail (orNotAccepted (vr_Message result)) else
              orFail apply (completePending apply ControlOperationVolume) (fun _ =>
              let! recorded := recordAppliedVolume apply (vr_NewVolume result) in
              Ret (match recorded with Ok apply' => apply' | Err _ => apply end, None))
          end
      end)
  end).

Definition convergeTaskVolumeToStoredLevel (apply : Apply) (creds : string) (resumeState : option ResumeState)
    : prog plane unit :=
  let volume := int32 (ao_Volume (a_Options apply)) in
  if (volume =? 0) || negb (volumeInRange volume) then Ret tt else
  let call := volumeRequest apply volume creds resumeState in
  let! _ := commandEngine (CallVolume call) (fun v => ev_Volume v call) in Ret tt.

(** ** Revert and skip-revert *)

Definition controlSetup : prog plane (res (TaskRec * string)) :=
  try! task := getActiveTaskForDatabase (lc_Database cfg) in
  Ret match task with
      | None => Err (Errorf "no active schema change")
      | Some t =>
          if negb (lc_HasEngine cfg) then Err (Errorf "no engine configured") else
          match credentialsForTask cfg t with Err e => Err e | Ok creds => Ok (t, creds) end
      end.

(** Revert and SkipRevert: the command of the active task. *)
Definition revertCommand (operation : ControlOperation) : prog plane (res StopResponse) :=
  try! (task, creds) := controlSetup in
  try! req := buildControlRequest cfg task creds operation in
  let! r := commandEngine (CallControl operation req) (fun v => ev_Control v operation req) in
  Ret match r with
      | Err e => Err (Errorf (ee_Message e))
      | Ok _ => Ok (accepted "" 0 0)
      end.

Definition Revert := revertCommand ControlRevert.
Definition SkipRevert := revertCommand ControlSkipRevert.
End LocalControl.

(** ** A cutover is not started *)

Section Blocked.
Context (E : EngineNames) (foundRows hasOptions : bool) (clockNow : Z) (ctx : leaseCtx) (cfg : clientConfig).
Context (errText : StoreErr -> string).

(** The reasons to hold a cutover of [apply]: a stop of it is pending, or neither
    the apply nor one of its tasks is at its cutover. *)
Record stopIsPending (apply : Apply) (w : plane) : Prop := {
  sp_request : GetPending (a_ID apply) ControlOperationStop (pl_db w) <> None;
  sp_target : forall a, findApplyByIdentifier (a_ApplyIdentifier apply) (pl_db w) = Some a -> a_ID a = a_ID apply;
}.

Definition notAtCutover (apply : Apply) (w : plane) : Prop :=
  forall t, t ∈ GetByApplyID E (a_ID apply) (pl_db w) ->
    IsState (tk_State t) [Task.WaitingForCutover; Task.CuttingOver] = false.

#[local] Instance stopIsPending_request apply : RequestCond ControlOperationCutover (stopIsPending apply).
Proof.
  intros w s [Hr Ht] (Ha & _ & _ & Hc). split; cbn; [|unfold findApplyByIdentifier in *; by rewrite Ha].
  unfold GetPending in *. intros Hn. destruct (find _ (controls (pl_db w))) as [cr|] eqn:Ef; [|done].
  apply find_some in Ef as [Hin Hp]. eapply find_none in Hn; [rewrite Hp in Hn; done|].
  apply list_elem_of_In, Hc; [|by apply list_elem_of_In]. reflect_guards. intros E0.
  match goal with H : _ = ControlOperationStop |- _ => rewrite H in E0 end. done.
Qed.

#[local] Instance notAtCutover_request operation apply : RequestCond operation (notAtCutover apply).
Proof. intros w s Hn (_ & Ho & Ht & _) t Hin. apply Hn. revert Hin. unfold GetByApplyID, driveTask. cbn. by rewrite Ho, Ht. Qed.

Lemma orFail_keeps {A X} (view : plane -> X) cond (Q : A -> Prop) apply (p : prog plane (res A)) k :
  keepsView view cond (fun r => match r with Ok a => Q a | Err _ => True end) p ->
  (forall a, Q a -> keepsView view cond (fun _ => True) (k a)) ->
  keepsView view cond (fun _ => True) (orFail apply p k).
Proof. intros Hp Hk. eapply keepsView_bind; [exact Hp|]. intros [a|e] H; [by apply Hk|done]. Qed.

(** A read whose result is refused or checked by what follows. *)
Lemma orFail_reads {A X} (view : plane -> X) cond apply (f : store -> A) k :
  (forall w, cond w -> keepsView view cond (fun _ => True) (k (f (pl_db w)))) ->
  keepsView view cond (fun _ => True) (orFail apply (readStore f) k).
Proof.
  intros Hk. eapply keepsView_bind; [apply keepsView_read|].
  intros r [Hr|(w & Hw & ->)]; [by destruct r|by apply Hk].
Qed.

Definition holdsCutover (stop : bool) (apply : Apply) (w : plane) : Prop :=
  if stop then stopIsPending apply w else notAtCutover apply w.

#[local] Instance holdsCutover_request stop apply : RequestCond ControlOperationCutover (holdsCutover stop apply).
Proof.
  destruct stop; [exact (stopIsPending_request apply)|exact (notAtCutover_request _ apply)].
Qed.

Lemma process_cutover_held stop apply :
  (stop = false -> IsState (a_State apply) [Apply.WaitingForCutover; Apply.CuttingOver] = false) ->
  keepsView work (holdsCutover stop apply) (fun _ => True)
    (processPendingCutoverControlRequest E foundRows hasOptions clockNow ctx cfg errText apply).
Proof.
  intros Hstate. unfold processPendingCutoverControlRequest, pendingControlRequest.
  apply orFail_reads. intros w0 _. case_match; [|done].
  case_match; [by eapply orFail_keeps; [apply completePending_keeps_work, _|]|].
  case_match; [by eapply orFail_keeps; [apply failPending_keeps_work, _|]|]. case_match; [done|].
  apply (orFail_keeps _ _ (fun ready => stop = false -> ready = false)).
  - unfold applyReadyForCutoverRequest. destruct (IsState (a_State apply) [_; _]) eqn:Est.
    { destruct stop; [done|]. by rewrite Hstate in Est. }
    destruct (negb _); [done|]. eapply keepsView_bind; [apply keepsView_read|].
    intros r [Hr|(w & Hw & ->)]; [by destruct r|]. cbn. intros ->. rename Hw into Hn.
    apply not_true_iff_false. intros (t & Hin & Ht)%existsb_exists.
    cut (IsState (tk_State t) [Task.WaitingForCutover; Task.CuttingOver] = true); [|exact Ht].
    rewrite (Hn t); [done|by apply list_elem_of_In].
  - intros ready Hready. destruct ready; cbn [negb]; [|done]. destruct stop; [|by discriminate Hready].
    apply orFail_reads. intros w Hw. destruct (GetPending _ ControlOperationStop _) eqn:Eg; [done|].
    by destruct (sp_request _ _ Hw).
Qed.
End Blocked.

(** ** Volume of a fanned-out apply *)

Section Fanned.
Context (E : EngineNames) (foundRows : bool) (ctx : leaseCtx) (cfg : clientConfig).
Context (errText : StoreErr -> string) (unmarshalVolume : string -> option Z).

(** The apply the identifier names has more than one operation. *)
Record fannedOut (identifier : string) (id : Z) (w : plane) : Prop := {
  fo_operations : (1 < length (ListByApply id (pl_db w)))%nat;
  fo_target : exists a, findApplyByIdentifier identifier (pl_db w) = Some a /\ a_ID a = id;
}.

#[local] Instance fannedOut_request operation identifier id : RequestCond operation (fannedOut identifier id).
Proof.
  intros w s [Ho Ht] (Ha & Hops & _). split; cbn.
  - unfold ListByApply in *. by rewrite Hops.
  - unfold findApplyByIdentifier in *. by rewrite Ha.
Qed.

Lemma volume_refused identifier id volume :
  identifier <> "" ->
  keepsView (fun w => w) (fannedOut identifier id)
    (fun r => match r with Ok resp => vs_Accepted resp = false | Err _ => True end)
    (Volume E foundRows ctx cfg unmarshalVolume identifier volume).
Proof.
  intros Hne. unfold Volume. destruct (negb (volumeInRange volume)); [done|].
  eapply (keepsView_try _ _ (fun r => exists a, r = Some a /\ a_ID a = id)); [|done|].
  { unfold resolveControlApply. destruct (identifier != "") eqn:En; [|by reflect_guards].
    eapply keepsView_bind; [apply keepsView_read|]. intros r [Hr|(w & Hw & ->)]; [by destruct r|].
    destruct (fo_target _ _ _ Hw) as (a & -> & Hid). by exists a. }
  intros ? (a & -> & Hid). case_match; [done|].
  eapply keepsView_bind; [apply keepsView_read|]. intros r [Hr|(w & Hw & ->)]; [by destruct r|].
  rewrite Hid. destruct (Nat.ltb_spec 1 (length (ListByApply id (pl_db w)))) as [_|Hle]; [done|].
  pose proof (fo_operations _ _ _ Hw). lia.
Qed.

Lemma process_volume_fanned apply creds rs :
  keepsView work (fannedOut (a_ApplyIdentifier apply) (a_ID apply)) (fun _ => True)
    (processPendingVolumeControlRequest foundRows ctx errText unmarshalVolume apply creds rs).
Proof.
  unfold processPendingVolumeControlRequest, pendingControlRequest.
  apply orFail_reads. intros w0 _. case_match; [|done].
  apply orFail_reads. intros w Hw.
  destruct (Nat.ltb_spec 1 (length (ListByApply (a_ID apply) (pl_db w)))) as [_|Hle].
  - by eapply orFail_keeps; [apply failPending_keeps_work, _|].
  - pose proof (fo_operations _ _ _ Hw). lia.
Qed.
End Fanned.

(** ** An accepted volume reaches the engine *)

Section Delivered.
Context (E : EngineNames) (foundRows : bool) (ctx : leaseCtx) (cfg : clientConfig).
Context (errText : StoreErr -> string) (unmarshalVolume : string -> option Z).

Lemma decode_encode volume metadata :
  (forall v, volumeInRange v = true -> unmarshalVolume (marshalVolume v) = Some v) ->
  EncodeVolumeControlRequestMetadata volume = Ok metadata ->
  DecodeVolumeControlRequestMetadata unmarshalVolume (nullJSON metadata) = Ok volume.
Proof.
  intros Hj. unfold EncodeVolumeControlRequestMetadata. destruct (volumeInRange volume) eqn:Ev; [|done].
  intros [= <-]. unfold DecodeVolumeControlRequestMetadata. cbn [nullJSON String.eqb]. 
  change (nullJSON (marshalVolume volume)) with (marshalVolume volume).
  change (marshalVolume volume == "") with false. by rewrite (Hj _ Ev), Ev.
Qed.

(** A level that was accepted is the pending one. *)
Lemma queue_accepted apply volume w w1 resp :
  (forall v, volumeInRange v = true -> unmarshalVolume (marshalVolume v) = Some v) ->
  controls_wf (pl_db w) ->
  run (queueVolumeRequest foundRows ctx unmarshalVolume apply volume) w = (w1, Ok resp) -> vs_Accepted resp = true ->
  exists req, GetPending (a_ID apply) ControlOperationVolume (pl_db w1) = Some req /\
    DecodeVolumeControlRequestMetadata unmarshalVolume (cr_Metadata req) = Ok volume.
Proof.
  intros Hj Hwf Hrun Hacc. unfold queueVolumeRequest in Hrun.
  destruct (EncodeVolumeControlRequestMetadata volume) as [metadata|] eqn:Henc; [|by rewrite run_Ret in Hrun].
  rewrite run_bind, run_onStore in Hrun.
  destruct (request_pending_contract (newRequest apply ControlOperationVolume "tern-grpc" metadata) (pl_db w) Hwf)
    as (s' & req & already & Hreq & Hget & _ & _ & Hnew & _).
  rewrite Hreq in Hrun. cbn [fst snd] in Hrun.
  unfold loadApply in Hrun. rewrite !run_bind, run_readStore in Hrun. cbn [fst snd] in Hrun.
  destruct (findApply _ _) as [stored|]; rewrite run_Ret in Hrun; cbn [fst snd] in Hrun; [|by rewrite run_Ret in Hrun].
  destruct (IsTerminalApplyState (a_State stored)).
  { rewrite run_bind in Hrun. destruct (run (completePendingControlRequests _ _ _ _) _) as [w2 [[]|]]; cbn [fst snd] in Hrun;
      rewrite run_Ret in Hrun; by simplify_eq. }
  exists req. destruct already.
  - rewrite run_Ret in Hrun. destruct (DecodeVolumeControlRequestMetadata _ (cr_Metadata req)) as [v|] eqn:Hd; [|by simplify_eq].
    destruct (Z.eqb_spec v volume) as [->|]; cbn [negb] in Hrun; by simplify_eq.
  - rewrite run_Ret in Hrun. simplify_eq. split; [exact Hget|]. destruct (Hnew eq_refl) as (_ & -> & _).
    by apply decode_encode.
Qed.

Lemma record_calls apply volume :
  keepsView pl_calls (fun _ => True) (fun _ => True) (recordAppliedVolume ctx apply volume).
Proof.
  unfold recordAppliedVolume. destruct (negb _); [done|]. eapply (keepsView_try _ _ (fun _ => True)); [|done|].
  - eapply keepsView_bind; [apply keepsView_read|]. by intros [[]|] _.
  - intros stored _. eapply (keepsView_try _ _ (fun _ => True)); [|done|done].
    eapply keepsView_weaken; [|apply calls_onStore]. by intros [].
Qed.

Lemma serve_volume apply creds rs volume req w :
  GetPending (a_ID apply) ControlOperationVolume (pl_db w) = Some req ->
  DecodeVolumeControlRequestMetadata unmarshalVolume (cr_Metadata req) = Ok volume ->
  (length (ListByApply (a_ID apply) (pl_db w)) <= 1)%nat ->
  pl_calls (run (processPendingVolumeControlRequest foundRows ctx errText unmarshalVolume apply creds rs) w).1 =
    (pl_calls w ++ [CallVolume (volumeRequest apply volume creds rs)])%list.
Proof.
  intros Hreq Hdec Hops. unfold processPendingVolumeControlRequest, orFail, pendingControlRequest.
  rewrite run_bind, run_readStore. cbn [fst snd]. rewrite Hreq, run_bind, run_readStore. cbn [fst snd].
  destruct (Nat.ltb_spec 1 (length (ListByApply (a_ID apply) (pl_db w)))); [lia|].
  rewrite Hdec, run_bind, run_commandEngine. cbn [fst snd]. set (w1 := set_pl_calls _ w).
  change (pl_calls w ++ [CallVolume (volumeRequest apply volume creds rs)])%list with (pl_calls w1).
  assert (Hfail : forall message,
    keepsView pl_calls (fun _ => True) (fun _ => True)
      (orFail apply (failPendingControlRequests foundRows ctx apply ControlOperationVolume message) (fun _ => Ret (apply, None)))).
  { intros message. by eapply orFail_keeps; [apply calls_request|]. }
  destruct (ev_Volume _ _) as [[result|]|e]; [|by apply (keepsView_alone _ (fun _ => True)), Hfail..].
  destruct (negb (vr_Accepted result)); [by apply (keepsView_alone _ (fun _ => True)), Hfail|].
  apply (keepsView_alone _ (fun _ => True)). eapply (orFail_keeps _ _ (fun _ => True)); [apply calls_request|].
  intros _ _. eapply keepsView_bind; [apply record_calls|done].
Qed.
End Delivered.

(** ** Properties *)

(** A cutover waits for the stop and for the copy.  As long as a stop of the
    apply is pending, or neither the apply the drive holds nor one of its stored
    tasks has reached the cutover, the owner that processes a pending cutover
    request sends the engine no command and changes no apply, operation or task,
    whatever happens between its statements and whichever of them fail: at most the
    request itself is settled. *)
Theorem cutover_held (E : EngineNames) (foundRows hasOptions : bool) (clockNow : Z) (ctx : leaseCtx)
    (cfg : clientConfig) (errText : StoreErr -> string) (stop : bool) (apply : Apply) env w
    (Hstate : stop = false -> IsState (a_State apply) [Apply.WaitingForCutover; Apply.CuttingOver] = false)
    (Hhold : holdsCutover E stop apply w) (Henv : keeps (holdsCutover E stop apply) env) :
  leaves work env 0 (processPendingCutoverControlRequest E foundRows hasOptions clockNow ctx cfg errText apply) w.
Proof.
  destruct (runE env 0 (processPendingCutoverControlRequest E foundRows hasOptions clockNow ctx cfg errText apply) w)
    as [[w' r] n] eqn:Hrun.
  by destruct (keepsView_run _ _ _ _ _ _ _ _ _ _ Henv
                 (process_cutover_held E foundRows hasOptions clockNow ctx cfg errText stop apply Hstate) Hhold Hrun).
Qed.

(** A volume change is never applied to a part of a fanned-out apply.  As long
    as the apply has more than one operation, a request for a volume change is not
    accepted and changes nothing, and the owner that finds such a request pending
    retunes no engine and changes no apply, operation or task, whatever happens
    between the statements and whichever of them fail. *)
Theorem volume_never_partial (E : EngineNames) (foundRows : bool) (ctx : leaseCtx) (cfg : clientConfig)
    (errText : StoreErr -> string) (unmarshalVolume : string -> option Z) (apply : Apply) (volume : Z) creds rs env w
    (Hne : a_ApplyIdentifier apply <> "")
    (Hfan : fannedOut (a_ApplyIdentifier apply) (a_ID apply) w)
    (Henv : keeps (fannedOut (a_ApplyIdentifier apply) (a_ID apply)) env) :
  leaves work env 0 (processPendingVolumeControlRequest foundRows ctx errText unmarshalVolume apply creds rs) w /\
  forall w' r n,
    runE env 0 (Volume E foundRows ctx cfg unmarshalVolume (a_ApplyIdentifier apply) volume) w = (w', r, n) ->
    match r with Ok resp => vs_Accepted resp = false | Err _ => True end /\
    leaves (fun u => u) env 0 (Volume E foundRows ctx cfg unmarshalVolume (a_ApplyIdentifier apply) volume) w.
Proof.
  split.
  - destruct (runE env 0 (processPendingVolumeControlRequest foundRows ctx errText unmarshalVolume apply creds rs) w)
      as [[w' r] n] eqn:Hrun.
    by destruct (keepsView_run _ _ _ _ _ _ _ _ _ _ Henv (process_volume_fanned _ _ _ _ _ _ _) Hfan Hrun).
  - intros w' r n Hrun.
    exact (keepsView_run _ _ _ _ _ _ _ _ _ _ Henv (volume_refused _ _ _ _ _ _ _ _ Hne) Hfan Hrun).
Qed.

(** An accepted volume reaches the engine.  When a request for a level is
    accepted, the pending volume request of the apply carries exactly that level,
    and the owner that next serves it, as the only operation of the apply, sends the
    engine exactly one command, with that level: levels are not lost, merged or
    altered on the way through the stored payload. *)
Theorem volume_delivered (E : EngineNames) (foundRows : bool) (ctx ctx' : leaseCtx) (cfg : clientConfig)
    (errText : StoreErr -> string) (unmarshalVolume : string -> option Z) (apply : Apply) (volume : Z)
    (creds : string) (rs : option ResumeState) (w w1 : plane) (resp : VolumeResponse)
    (Hjson : forall v, volumeInRange v = true -> unmarshalVolume (marshalVolume v) = Some v)
    (Hne : a_ApplyIdentifier apply <> "")
    (Hfind : findApplyByIdentifier (a_ApplyIdentifier apply) (pl_db w) = Some apply)
    (Hwf : controls_wf (pl_db w))
    (Hrun : run (Volume E foundRows ctx cfg unmarshalVolume (a_ApplyIdentifier apply) volume) w = (w1, Ok resp))
    (Hacc : vs_Accepted resp = true) (Hops : (length (ListByApply (a_ID apply) (pl_db w1)) <= 1)%nat) :
  (exists req, GetPending (a_ID apply) ControlOperationVolume (pl_db w1) = Some req /\
     DecodeVolumeControlRequestMetadata unmarshalVolume (cr_Metadata req) = Ok volume) /\
  pl_calls (run (processPendingVolumeControlRequest foundRows ctx' errText unmarshalVolume apply creds rs) w1).1 =
    (pl_calls w1 ++ [CallVolume (volumeRequest apply volume creds rs)])%list.
Proof.
  assert (exists req, GetPending (a_ID apply) ControlOperationVolume (pl_db w1) = Some req /\
     DecodeVolumeControlRequestMetadata unmarshalVolume (cr_Metadata req) = Ok volume) as (req & Hreq & Hdec).
  { unfold Volume in Hrun. destruct (negb (volumeInRange volume)); [by rewrite run_Ret in Hrun|].
    rewrite run_bind in Hrun. unfold resolveControlApply in Hrun.
    destruct (a_ApplyIdentifier apply != "") eqn:En; [|by reflect_guards].
    rewrite run_bind, run_readStore in Hrun. cbn [fst snd] in Hrun. rewrite Hfind, run_Ret in Hrun. cbn [fst snd] in Hrun.
    destruct (IsTerminalApplyState (a_State apply)); [rewrite run_Ret in Hrun; by simplify_eq|].
    rewrite run_bind, run_readStore in Hrun. cbn [fst snd] in Hrun.
    destruct (1 <? _)%nat; [rewrite run_Ret in Hrun; by simplify_eq|]. by eapply queue_accepted. }
  split; [by exists req|]. by eapply serve_volume.
Qed.

(** ** Witnesses *)

(** The decoder on the payloads the code writes. *)
Definition sampleUnmarshal (metadata : string) : option Z :=
  find (fun v => marshalVolume v == metadata) [1; 2; 3; 4; 5; 6; 7; 8; 9; 10; 11].

Definition sampleErrText (e : StoreErr) : string := match e with Errorf m => m | _ => "storage error" end.

(** A stop and a cutover are pending: the cutover waits. *)
Lemma cutover_held_witness :
  let apply := exampleApply Apply.WaitingForCutover in
  let s := withTasks [exampleTask 7 "task_7" "t" "" Task.WaitingForCutover]
             (exampleStore apply [] [exampleRequest ControlOperationStop ControlRequestPending;
                                     exampleRequest ControlOperationCutover ControlRequestPending]) in
  let w := examplePlane s (exampleEngine (Ok (Some {| cl_Accepted := true; cl_Message := "" |}))) in
  leaves work (fun _ => quiet) 0
    (processPendingCutoverControlRequest documentedNames true false 50 noLease (exampleClient DatabaseTypeMySQL)
       sampleErrText apply) w.
Proof.
  intros apply s w.
  refine (cutover_held documentedNames true false 50 noLease (exampleClient DatabaseTypeMySQL) sampleErrText true
            apply (fun _ => quiet) w _ _ _); [done|split; [done|by intros a [= <-]]|by intros m u Hu].
Defined.

Lemma volume_never_partial_witness :
  let apply := exampleApply Apply.Running in
  let s := exampleStore apply [exampleOp 1 "us" Apply.Running CutoverPolicyRolling OnFailureHalt;
                               exampleOp 2 "eu" Apply.Pending CutoverPolicyRolling OnFailureHalt]
             [exampleRequest ControlOperationVolume ControlRequestPending] in
  let w := examplePlane s (exampleEngine (Err transportError)) in
  leaves work (fun _ => quiet) 0
    (processPendingVolumeControlRequest true noLease sampleErrText sampleUnmarshal apply "dsn" None) w.
Proof.
  intros apply s w.
  refine (proj1 (volume_never_partial documentedNames true noLease (exampleClient DatabaseTypeMySQL) sampleErrText
            sampleUnmarshal apply 3 "dsn" None (fun _ => quiet) w _ _ _)); [done|split|by intros m u Hu].
  - vm_compute. lia.
  - by exists apply.
Defined.

Lemma volume_delivered_witness :
  let apply := exampleApply Apply.Running in
  let s := exampleStore apply [exampleOp 1 "us" Apply.Running CutoverPolicyRolling OnFailureHalt] [] in
  let w := examplePlane s (exampleEngine (Err transportError)) in
  let w1 := (run (Volume documentedNames true noLease (exampleClient DatabaseTypeMySQL) sampleUnmarshal "apply-1" 7) w).1 in
  pl_calls (run (processPendingVolumeControlRequest true noLease sampleErrText sampleUnmarshal apply "dsn" None) w1).1 =
    [CallVolume (volumeRequest apply 7 "dsn" None)].
Proof.
  intros apply s w w1.
  refine (proj2 (volume_delivered documentedNames true noLease noLease (exampleClient DatabaseTypeMySQL) sampleErrText
            sampleUnmarshal apply 7 "dsn" None w w1
            {| vs_Accepted := true; vs_ErrorMessage := ""; vs_NewVolume := 7 |} _ _ _ _ _ _ _)).
  - intros v Hv. assert (1 <= v <= 11) as Hr by (unfold volumeInRange, MinVolume, MaxVolume in Hv; lia).
    assert (v ∈ [1; 2; 3; 4; 5; 6; 7; 8; 9; 10; 11]) as Hin by (rewrite !elem_of_cons; lia).
    elem_cases Hin; reflexivity.
  - done.
  - reflexivity.
  - apply exampleStore_controls_wf.
  - vm_compute. reflexivity.
  - reflexivity.
  - vm_compute. lia.
Defined.

(** The answer to a revert says nothing about the engine's: an engine that does not
    accept the revert, without an error, is reported to have accepted it. *)
Lemma revert_ignores_refusal :
  let s := withTasks [exampleTask 7 "task_7" "t" "" Task.RevertWindow] (exampleStore (exampleApply Apply.RevertWindow) [] []) in
  let w := examplePlane s (exampleEngine (Ok (Some {| cl_Accepted := false; cl_Message := "too late" |}))) in
  let '(w', r) := run (Revert documentedNames (exampleClient DatabaseTypeMySQL)) w in
  r = Ok (accepted "" 0 0) /\ length (pl_calls w') = 1%nat.
Proof. vm_compute. split; reflexivity. Qed.
