(* ===== verification/Sequential.v ===== *)
(** * The sequential drive of an apply (tern/local_apply_sequential.go)

    Without a deferred cutover each DDL statement of an apply is one call of the
    engine: the drive starts a task, polls the engine until the task is finished,
    and goes on with the next one.  Between two polls it serves the pending control
    requests of the apply.  The end of the drive settles the apply from the outcome
    of its tasks.

    A poll is one tick of a ticker; the number of ticks a drive is followed for is
    [fuel], and a drive that is still polling then has no result yet ([None]).  The
    heartbeat goroutine is part of the environment: it cancels the context the drive
    runs under, as does a stop. *)

From S2P Require Import Prelude GoStrings State Convert Sql Store Operations Applies Control Projection Fencing Tasks Plane Stopping LocalControl.

Local Open Scope string_scope.
Local Open Scope Z_scope.

(** [taskAction] *)
Inductive taskAction := taskContinue | taskFailed | taskStopped | taskSkip | taskAbort.
#[global] Instance taskAction_eq_dec : EqDecision taskAction.
Proof. solve_decision. Defined.

(** ** The heartbeat *)

Definition applyHeartbeatFailureStopsDrive (hbErr : StoreErr) (lastSuccess clock : Z) : bool :=
  bool_decide (hbErr = ErrApplyLeaseLost) || (ApplyLeaseStaleAfter <=? clock - lastSuccess).

(** The goroutine of startApplyHeartbeat over its ticks, each with its time and the
    outcome of the heartbeat write: whether and when it stops the drive. *)
Fixpoint heartbeatLoop (lastSuccess : Z) (ticks : list (Z * res unit)) : option Z :=
  match ticks with
  | [] => None
  | (clock, Ok _) :: rest => heartbeatLoop clock rest
  | (clock, Err e) :: rest =>
      if applyHeartbeatFailureStopsDrive e lastSuccess clock then Some clock else heartbeatLoop lastSuccess rest
  end.

(** ** One task *)

Definition sequentialEngineApplyRequest (task : TaskRec) (options : gmap string string) (creds : string)
    : EngineApplyRequest :=
  {| ar_Database := tk_Database task;
     ar_Changes := [{| ec_Namespace := tk_Namespace task; ec_Shard := tk_Shard task;
                       ec_Tables := [{| et_Table := tk_TableName task; et_DDL := tk_DDL task; et_Action := "" |}];
                       ec_VSchemaChanged := false |}];
     ar_TargetShards := if tk_Shard task != "" then [tk_Shard task] else [];
     ar_Options := options;
     ar_ResumeState := Some {| rs_MigrationContext := tk_TaskIdentifier task; rs_Metadata := "" |};
     ar_Credentials := creds |}.

Definition set_tp_ProgressPercent (v : Z) (p : TaskProgress) : TaskProgress :=
  {| tp_RowsCopied := tp_RowsCopied p; tp_RowsTotal := tp_RowsTotal p; tp_ProgressPercent := v;
     tp_ETASeconds := tp_ETASeconds p; tp_ChecksumRowsChecked := tp_ChecksumRowsChecked p;
     tp_ChecksumRowsTotal := tp_ChecksumRowsTotal p |}.

(** The progress fields of the first table, for a task of one statement. *)
Definition withTableProgress (p : EngineProgress) (task : TaskRec) : TaskRec :=
  match ep_Tables p with
  | [] => task
  | tp :: _ => set_tk_IsInstant (tb_IsInstant tp) (set_tk_Progress (tb_Progress tp) task)
  end.

(** The task with a terminal result of the engine, before it is written. *)
Definition finishedTask (clockNow : Z) (p : EngineProgress) (task : TaskRec) : TaskRec :=
  let retryableFailure := IsState (tk_State task) [Task.FailedRetryable] in
  let task := set_tk_CompletedAt (if retryableFailure then None else Some clockNow) task in
  let task := if pr_State (ep_Result p) == Engine.StateCompleted
              then set_tk_Progress (set_tp_ProgressPercent 100 (tk_Progress task)) task else task in
  if (pr_State (ep_Result p) == Engine.StateFailed) && (progressFailureMessage (Some (ep_Result p)) != "")
  then set_tk_ErrorMessage (Some (progressFailureMessage (Some (ep_Result p)))) task else task.

(** How a task ended, with the task and the apply the drive has then. *)
Record taskOutcome := { to_Action : taskAction; to_Task : TaskRec; to_Apply : Apply }.

Definition endTask (action : taskAction) (task : TaskRec) (apply : Apply) : taskOutcome :=
  {| to_Action := action; to_Task := task; to_Apply := apply |}.

Definition maxPollErrors : nat := 10.

Section Sequential.
Context (E : EngineNames) (foundRows hasOptions : bool) (clockNow : Z) (ctx : leaseCtx) (cfg : clientConfig).
Context (errText : StoreErr -> string) (unmarshalVolume : string -> option Z).

(** [context] is the context of the drive. *)
Context (context : Z).

Abbreviation transition := (transitionTaskState foundRows clockNow ctx).
Abbreviation markFailed := (markTaskFailed foundRows clockNow ctx).
Abbreviation markRetryable := (markTaskRetryable foundRows clockNow ctx).
Abbreviation serveStop := (processPendingCancelOrStopControlRequest E foundRows hasOptions clockNow ctx cfg).

Definition checkTaskReady (task : TaskRec) : prog plane taskAction :=
  let! done := cancelled context in
  if done : bool then Ret taskStopped else
  let! fresh := readStore (GetTask E (tk_TaskIdentifier task)) in
  Ret match fresh with
      | Err _ | Ok None => taskSkip
      | Ok (Some t) =>
          if tk_State t == Task.Stopped then taskStopped
          else if IsTerminalTaskState (tk_State t) then taskSkip else taskContinue
      end.

Definition shouldRetryEngineError (e : engineErr) : bool := (lc_Type cfg == DatabaseTypeMySQL) && IsRetryable e.

(** A failed poll: a permanent error fails the task at once, the tenth error in a
    row fails it, or leaves it to be retried. *)
Definition pollFailed (apply : Apply) (task : TaskRec) (errors : nat) (e : engineErr)
    : prog plane (nat * TaskRec * Apply + taskOutcome) :=
  if ee_Permanent e then
    let! task := markFailed task ("progress polling failed: " ++ ee_Message e) in
    Ret (inr (endTask taskFailed task apply))
  else
    let errors := Datatypes.S errors in
    if (maxPollErrors <=? errors)%nat then
      let message := "progress polling failed after " ++ Itoa (Z.of_nat errors) ++ " consecutive errors: " ++ ee_Message e in
      let! task := (if shouldRetryEngineError e then markRetryable task message else markFailed task message) in
      Ret (inr (endTask taskFailed task apply))
    else Ret (inl (errors, task, apply)).

(** One tick: the errors in a row, the task and the apply of the next one, or the
    outcome. *)
Definition pollTick (creds : string) (resumeState : option ResumeState) (errors : nat) (task : TaskRec) (apply : Apply)
    : prog plane (nat * TaskRec * Apply + taskOutcome) :=
  let! done := cancelled context in
  if done : bool then Ret (inr (endTask taskStopped task apply)) else
  let! stop := serveStop apply in
  let apply := hr_Apply stop in
  match hr_Err stop with
  | Some _ => Ret (inr (endTask taskAbort task apply))
  | None =>
  if hr_Handled stop then Ret (inr (endTask taskStopped (set_tk_State Task.Stopped task) apply)) else
  let! (apply, cutoverErr) := processPendingCutoverControlRequest E foundRows hasOptions clockNow ctx cfg errText apply in
  match cutoverErr with
  | Some _ => Ret (inr (endTask taskAbort task apply))
  | None =>
  let! (apply, volumeErr) := processPendingVolumeControlRequest foundRows ctx errText unmarshalVolume apply creds resumeState in
  if bool_decide (volumeErr = Some ErrApplyLeaseLost) then Ret (inr (endTask taskAbort task apply)) else
  let! fresh := readStore (GetTask E (tk_TaskIdentifier task)) in
  let external := match fresh with Ok (Some t) => IsTerminalTaskState (tk_State t) | _ => false end in
  match fresh, external with
  | Ok (Some t), true => Ret (inr (endTask taskContinue (set_tk_State (tk_State t) task) apply))
  | _, _ =>
      let! result := askEngine (fun v => ev_Progress v (tk_Database task) creds resumeState) in
      match result with
      | Err e => pollFailed apply task errors e
      | Ok p =>
          let task := set_tk_UpdatedAt clockNow (set_tk_State (taskStateFromProgressResult (Some (ep_Result p))) task) in
          let task := withTableProgress p task in
          if EngineState_IsTerminal (pr_State (ep_Result p)) then
            let task := finishedTask clockNow p task in
            let! task := transition task (tk_State task) in
            Ret (inr (endTask taskContinue task apply))
          else
            let! task := transition task (tk_State task) in
            Ret (inl (0%nat, task, apply))
      end
  end
  end
  end.

Fixpoint pollTaskToCompletion (fuel : nat) (creds : string) (resumeState : option ResumeState) (errors : nat)
    (task : TaskRec) (apply : Apply) : prog plane (option taskOutcome) :=
  match fuel with
  | 0%nat => Ret None
  | Datatypes.S fuel =>
      let! next := pollTick creds resumeState errors task apply in
      match next with
      | inl (errors, task, apply) => pollTaskToCompletion fuel creds resumeState errors task apply
      | inr outcome => Ret (Some outcome)
      end
  end.

(** What the drive makes of a polled task. *)
Definition polledAction (o : taskOutcome) : taskOutcome :=
  match to_Action o with
  | taskAbort | taskStopped => o
  | _ =>
      let action := if oneOf (tk_State (to_Task o)) [Task.Failed; Task.FailedRetryable] then taskFailed
                    else if tk_State (to_Task o) == Task.Stopped then taskStopped else taskContinue in
      endTask action (to_Task o) (to_Apply o)
  end.

(** The engine has the task: it is marked running and polled. *)
Definition followTask (fuel : nat) (creds : string) (result : EngineApplyResult) (apply : Apply) (task : TaskRec)
    : prog plane (option taskOutcome) :=
  let! task := transition (set_tk_StartedAt (Some clockNow) task) Task.Running in
  let! _ := convergeTaskVolumeToStoredLevel apply creds (er_ResumeState result) in
  let! polled := pollTaskToCompletion fuel creds (er_ResumeState result) 0 task apply in
  Ret (polledAction <$> polled).

Definition runEngineTask (fuel : nat) (options : gmap string string) (apply : Apply) (task : TaskRec)
    : prog plane (option taskOutcome) :=
  let! stop := serveStop apply in
  let apply := hr_Apply stop in
  match hr_Err stop with
  | Some _ => Ret (Some (endTask taskAbort task apply))
  | None =>
  if hr_Handled stop then Ret (Some (endTask taskStopped task apply)) else
  match (if lc_Type cfg == DatabaseTypeMySQL then credentialsForMySQLNamespace cfg (tk_Namespace task)
         else Ok (lc_TargetDSN cfg)) with
  | Err e => let! task := markFailed task (errText e) in Ret (Some (endTask taskFailed task apply))
  | Ok creds =>
      let req := sequentialEngineApplyRequest task options creds in
      let! r := commandEngine (CallApply req) (fun v => (ev_Apply v req).2) in
      match r with
      | Err e =>
          let! task := (if shouldRetryEngineError e then markRetryable task (ee_Message e) else markFailed task (ee_Message e)) in
          Ret (Some (endTask taskFailed task apply))
      | Ok result =>
          if negb (er_Accepted result) then
            let! task := markFailed task (er_Message result) in Ret (Some (endTask taskFailed task apply))
          else followTask fuel creds result apply task
      end
  end
  end.

(** ** The drive *)

(** How the loop over the tasks ended: with the apply, the tasks, the failed one
    and whether the drive was stopped; or the owner left. *)
Inductive loopEnd :=
| loopAborted
| loopDone (apply : Apply) (tasks : list TaskRec) (failedTask : option TaskRec) (stopped : bool).

Fixpoint sequentialLoop (fuel : nat) (options : gmap string string) (apply : Apply) (before todo : list TaskRec)
    : prog plane (option loopEnd) :=
  match todo with
  | [] => Ret (Some (loopDone apply before None false))
  | task :: rest =>
      let! stop := serveStop apply in
      let apply := hr_Apply stop in
      match hr_Err stop with
      | Some _ => Ret (Some loopAborted)
      | None =>
      if hr_Handled stop then Ret (Some (loopDone apply (before ++ todo) None true)) else
      let! action := checkTaskReady task in
      match action with
      | taskStopped => Ret (Some (loopDone apply (before ++ todo) None true))
      | taskSkip => sequentialLoop fuel options apply (before ++ [task]) rest
      | _ =>
          let! outcome := runEngineTask fuel options apply task in
          match outcome with
          | None => Ret None
          | Some o =>
              let tasks := (before ++ to_Task o :: rest)%list in
              match to_Action o with
              | taskFailed => Ret (Some (loopDone (to_Apply o) tasks (Some (to_Task o)) false))
              | taskAbort => Ret (Some loopAborted)
              | taskStopped => Ret (Some (loopDone (to_Apply o) tasks None true))
              | _ => sequentialLoop fuel options (to_Apply o) (before ++ [to_Task o]) rest
              end
          end
      end
      end
  end.

(** The pending tasks behind a permanent failure are cancelled. *)
Definition cancelIfPending (task : TaskRec) : prog plane TaskRec :=
  if tk_State task == Task.Pending then transition task Task.Cancelled else Ret task.

Definition tableFailed (task : TaskRec) : string :=
  "table " ++ tk_TableName task ++ " failed: " ++ errorText (tk_ErrorMessage task).

(** The apply the outcome calls for; a permanent failure also cancels tasks. *)
Definition finalApply (apply : Apply) (failedTask : option TaskRec) (stopped : bool) : Apply :=
  match failedTask with
  | Some t =>
      let retry := tk_State t == Task.FailedRetryable in
      set_a_CompletedAt (if retry then None else Some clockNow)
        (set_a_ErrorMessage (tableFailed t)
          (set_a_State (if retry then Apply.FailedRetryable else Apply.Failed) apply))
  | None =>
      if stopped then set_a_State Apply.Stopped apply
      else set_a_CompletedAt (Some clockNow) (set_a_State Apply.Completed apply)
  end.

Definition finalizeSequentialApply (apply : Apply) (tasks : list TaskRec) (failedTask : option TaskRec) (stopped : bool)
    : prog plane (Apply * list TaskRec) :=
  let! fresh := readStore (findApply (a_ID apply)) in
  match fresh with
  | Err _ => Ret (apply, tasks)
  | Ok stored =>
      if match stored with Some a => IsTerminalApplyState (a_State a) | None => false end then
        let apply := default apply stored in
        let! _ := completePendingRequestsForTerminalApply foundRows ctx apply in
        Ret (apply, tasks)
      else
      let permanent := match failedTask with Some t => tk_State t != Task.FailedRetryable | None => false end in
      let! tasks := (if permanent then eachTask cancelIfPending tasks else Ret tasks) in
      let apply := set_a_UpdatedAt clockNow (finalApply apply failedTask stopped) in
      let! _ := updateApply hasOptions ctx apply in
      let! _ := (if IsTerminalApplyState (a_State apply) then completePendingRequestsForTerminalApply foundRows ctx apply
                 else Ret (Ok tt)) in
      Ret (apply, tasks)
  end.

(** How the drive ended: still polling, left to another owner, or settled. *)
Inductive driveEnd := stillPolling | leftToOperator | settled (apply : Apply) (tasks : list TaskRec).

Definition executeApplySequential (fuel : nat) (options : gmap string string) (apply : Apply) (tasks : list TaskRec)
    : prog plane driveEnd :=
  let apply := set_a_UpdatedAt clockNow (set_a_StartedAt (Some clockNow) (set_a_State Apply.Running apply)) in
  let! _ := updateApply hasOptions ctx apply in
  let! loop := sequentialLoop fuel options apply [] tasks in
  match loop with
  | None => Ret stillPolling
  | Some loopAborted => Ret leftToOperator
  | Some (loopDone apply tasks failedTask stopped) =>
      let! (apply, tasks) := finalizeSequentialApply apply tasks failedTask stopped in
      Ret (settled apply tasks)
  end.
End Sequential.

(** ** Completion is justified *)

Section Justified.
Context (E : EngineNames) (foundRows hasOptions : bool) (clockNow : Z) (ctx : leaseCtx) (cfg : clientConfig).
Context (errText : StoreErr -> string) (unmarshalVolume : string -> option Z) (context : Z).

(** The store has the task as terminal, or no longer has it. *)
Definition storedEnd (task : TaskRec) (w : plane) : Prop :=
  match GetTask E (tk_TaskIdentifier task) (pl_db w) with
  | Some t => IsTerminalTaskState (tk_State t) = true
  | None => True
  end.

(** The engine answers the question after the work of [rs] on the task's database with
    an end that is neither a failure nor a stop. *)
Definition reportedEnd (task : TaskRec) (creds : string) (rs : option ResumeState) (w : plane) : Prop :=
  exists p, ev_Progress (pl_engine w) (tk_Database task) creds rs = Ok p /\
    oneOf (pr_State (ep_Result p)) [Engine.StateCompleted; Engine.StateCancelled; Engine.StateReverted] = true.

(** A statement hands the engine the change of the task, alone, and it is accepted. *)
Definition handsOver (options : gmap string string) (task : TaskRec) (creds : string) (rs : option ResumeState)
    (s : plane * plane) : Prop :=
  let req := sequentialEngineApplyRequest task options creds in
  pl_calls s.2 = (pl_calls s.1 ++ [CallApply req])%list /\
  exists result, (ev_Apply (pl_engine s.1) req).2 = Ok result /\ er_Accepted result = true /\ rs = er_ResumeState result.

(** A task keeps what identifies it. *)
Definition sameTask (t t' : TaskRec) : Prop :=
  tk_TaskIdentifier t' = tk_TaskIdentifier t /\ tk_Database t' = tk_Database t.

Lemma storedEnd_same t t' w : sameTask t t' -> storedEnd t' w -> storedEnd t w.
Proof. unfold storedEnd. by intros [-> _]. Qed.

Lemma reportedEnd_same t t' creds rs w : sameTask t t' -> reportedEnd t' creds rs w -> reportedEnd t creds rs w.
Proof. unfold reportedEnd. by intros [_ ->]. Qed.

(** A program whose trace is not looked into. *)
Lemma live_skip {R R'} (p : prog plane R) (f : R -> prog plane R') (Q : list (plane * plane) -> R' -> Prop) :
  (forall t r, observesLive (f r) (fun t' r' => Q (t ++ t')%list r')) -> observesLive (pbind p f) Q.
Proof. intros H. eapply observesSteps_bind; [apply observesSteps_any|]. by intros t r _. Qed.

Lemma live_read {A R} (f : store -> A) (k : res A -> prog plane R) Q :
  (forall w w', observesLive (k (Ok (f (pl_db w)))) (fun t r => Q ((w, w') :: t) r)) -> observesLive (let! x := readStore f in k x) Q.
Proof. intros H. apply observesSteps_exec; [done|]. intros w. apply H. Qed.

Lemma live_ask {A R} (f : engineView -> eres A) (k : eres A -> prog plane R) Q :
  (forall w w', observesLive (k (f (pl_engine w))) (fun t r => Q ((w, w') :: t) r)) -> observesLive (let! x := askEngine f in k x) Q.
Proof. intros H. apply observesSteps_exec; [done|]. intros w. apply H. Qed.

Lemma live_command {A R} c (f : engineView -> eres A) (k : eres A -> prog plane R) Q :
  (forall w w', pl_calls w' = (pl_calls w ++ [c])%list -> observesLive (k (f (pl_engine w))) (fun t r => Q ((w, w') :: t) r)) ->
  observesLive (let! x := commandEngine c f in k x) Q.
Proof. intros H. apply observesSteps_exec; [done|]. intros w. by apply H. Qed.

(** A transition keeps the task's identity and sets its state. *)
Lemma live_transition {R} task st (k : TaskRec -> prog plane R) Q :
  (forall t, observesLive (k (set_tk_State st (set_tk_UpdatedAt clockNow task))) (fun t' r => Q (t ++ t')%list r)) ->
  observesLive (let! x := transitionTaskState foundRows clockNow ctx task st in k x) Q.
Proof.
  intros H. eapply (observesSteps_bind _ _ (fun _ r => r = set_tk_State st (set_tk_UpdatedAt clockNow task))).
  - apply live_skip. intros t r. by apply observesSteps_ret.
  - intros t r ->. apply H.
Qed.

(** A poll saw the end of the work it asks for. *)
Definition polledEnd (creds : string) (rs : option ResumeState) (task : TaskRec) (t : list (plane * plane)) : Prop :=
  exists s, s ∈ t /\ (storedEnd task s.1 \/ reportedEnd task creds rs s.1).

Lemma polledEnd_last creds rs task t1 t2 : polledEnd creds rs task t2 -> polledEnd creds rs task (t1 ++ t2).
Proof. intros (s & Hs & H). exists s. split; [|done]. rewrite elem_of_app. auto. Qed.

Lemma polledEnd_same creds rs t t' l : sameTask t t' -> polledEnd creds rs t' l -> polledEnd creds rs t l.
Proof.
  intros Ht (s & Hs & [H|H]); exists s; (split; [done|]); [left; by eapply storedEnd_same|right; by eapply reportedEnd_same].
Qed.

(** A task is done with: the store had it as ended, or the drive handed its change to
    the engine and later saw the end of that work. *)
Definition justified (options : gmap string string) (task : TaskRec) (t : list (plane * plane)) : Prop :=
  (exists s, s ∈ t /\ storedEnd task s.1) \/
  exists t1 s t2 v creds rs, t = (t1 ++ s :: t2)%list /\ handsOver options task creds rs s /\ v ∈ t2 /\ reportedEnd task creds rs v.1.

Context (options : gmap string string).

Abbreviation justified' := (justified options).

Lemma justified_in task t1 t2 t3 : justified' task t2 -> justified' task (t1 ++ t2 ++ t3).
Proof.
  intros [(s & Hs & H)|(u1 & s & u2 & v & creds & rs & -> & Hh & Hv & Hr)].
  - left. exists s. split; [|done]. rewrite !elem_of_app. auto.
  - right. exists (t1 ++ u1)%list, s, (u2 ++ t3)%list, v, creds, rs. split; [by rewrite <- !app_assoc|].
    split; [done|]. split; [|done]. rewrite elem_of_app. auto.
Qed.

Lemma justified_last task t1 t2 : justified' task t2 -> justified' task (t1 ++ t2).
Proof. intros H. rewrite <- (app_nil_r t2). by apply justified_in. Qed.

Lemma justified_first task t1 t2 : justified' task t1 -> justified' task (t1 ++ t2).
Proof. intros H. apply (justified_in _ []), H. Qed.

(** What a tick may conclude: only an end it has seen lets the drive go on. *)
Definition soundTick (creds : string) (rs : option ResumeState) (task : TaskRec) (t : list (plane * plane))
    (r : nat * TaskRec * Apply + taskOutcome) : Prop :=
  match r with
  | inl (_, task', _) => sameTask task task'
  | inr o => sameTask task (to_Task o) /\ (to_Action (polledAction o) = taskContinue -> polledEnd creds rs task t)
  end.

Lemma pollFailed_sound apply task errors e creds rs :
  observesLive (pollFailed foundRows clockNow ctx cfg apply task errors e) (fun _ r => forall t, soundTick creds rs task t r).
Proof.
  unfold pollFailed, markTaskFailed, markTaskRetryable. destruct (ee_Permanent e).
  { apply live_transition. intros t. by apply observesSteps_ret. }
  destruct (_ <=? _)%nat; [|by apply observesSteps_ret].
  destruct (shouldRetryEngineError _ _); apply live_transition; intros t; by apply observesSteps_ret.
Qed.

Lemma terminal_result_finished r :
  EngineState_IsTerminal (pr_State r) = true ->
  oneOf (taskStateFromProgressResult (Some r)) [Task.Failed; Task.FailedRetryable; Task.Stopped] = false ->
  oneOf (pr_State r) [Engine.StateCompleted; Engine.StateCancelled; Engine.StateReverted] = true.
Proof.
  unfold EngineState_IsTerminal, taskStateFromProgressResult. destruct r as [st ret e m]. cbn [pr_State Retryable].
  intros Ht%oneOf_elem. elem_cases Ht; try done; destruct ret; intros H; vm_compute in H; discriminate.
Qed.

Lemma continues_state o :
  to_Action o = taskContinue -> to_Action (polledAction o) = taskContinue ->
  oneOf (tk_State (to_Task o)) [Task.Failed; Task.FailedRetryable; Task.Stopped] = false.
Proof.
  unfold polledAction. intros ->. cbn [to_Action endTask]. unfold oneOf. cbn [existsb].
  destruct (_ == Task.Failed); [done|]. destruct (_ == Task.FailedRetryable); [done|].
  by destruct (_ == Task.Stopped).
Qed.

Lemma finishedTask_same p task :
  sameTask task (finishedTask clockNow p task) /\ tk_State (finishedTask clockNow p task) = tk_State task.
Proof. unfold finishedTask. repeat case_match; done. Qed.

Lemma withTableProgress_same p task :
  sameTask task (withTableProgress p task) /\ tk_State (withTableProgress p task) = tk_State task.
Proof. unfold withTableProgress. by case_match. Qed.

Lemma pollTick_sound creds rs errors task apply :
  observesLive (pollTick E foundRows hasOptions clockNow ctx cfg errText unmarshalVolume context creds rs errors task apply)
    (soundTick creds rs task).
Proof.
  unfold pollTick. apply live_skip. intros t0 done0. destruct done0; [by apply observesSteps_ret|].
  apply live_skip. intros t1 stop. destruct (hr_Err stop); [by apply observesSteps_ret|].
  destruct (hr_Handled stop); [by apply observesSteps_ret|].
  apply live_skip. intros t2 [apply2 cutoverErr]. destruct cutoverErr; [by apply observesSteps_ret|].
  apply live_skip. intros t3 [apply3 volumeErr]. destruct (bool_decide _); [by apply observesSteps_ret|].
  apply live_read. intros w w1.
  destruct (GetTask E (tk_TaskIdentifier task) (pl_db w)) as [t|] eqn:Eg.
  1: destruct (IsTerminalTaskState (tk_State t)) eqn:Et.
  { apply observesSteps_ret. split; [done|]. intros _. do 4 apply polledEnd_last. exists (w, w1). split; [by left|].
    left. unfold storedEnd. cbn. by rewrite Eg. }
  all: apply live_ask; intros w' w2; destruct (ev_Progress _ _ _ _) as [p|e] eqn:Ep;
    [|by eapply observesSteps_impl; [apply pollFailed_sound|]].
  all: set (task1 := withTableProgress p _).
  all: assert (sameTask task task1 /\ tk_State task1 = taskStateFromProgressResult (Some (ep_Result p))) as [Hsame Hst]
    by (destruct (withTableProgress_same p (set_tk_UpdatedAt clockNow
          (set_tk_State (taskStateFromProgressResult (Some (ep_Result p))) task))); by split).
  all: destruct (EngineState_IsTerminal _) eqn:Eterm; apply live_transition; intros t4; apply observesSteps_ret; [|done].
  all: destruct (finishedTask_same p task1) as [Hsame' Hst']; split; [by destruct Hsame, Hsame'; split; etrans|].
  all: intros Hc; apply continues_state in Hc; [|done]; cbn [to_Task endTask] in Hc; change (tk_State (set_tk_State ?s _)) with s in Hc.
  all: rewrite Hst', Hst in Hc; do 4 apply polledEnd_last; exists (w', w2); split; [set_solver|].
  all: right; exists p; split; [done|]; by apply terminal_result_finished.
Qed.

Lemma sameTask_trans t1 t2 t3 : sameTask t1 t2 -> sameTask t2 t3 -> sameTask t1 t3.
Proof. intros [? ?] [? ?]. split; congruence. Qed.

Abbreviation poll := (pollTaskToCompletion E foundRows hasOptions clockNow ctx cfg errText unmarshalVolume context).
Abbreviation engineTask := (runEngineTask E foundRows hasOptions clockNow ctx cfg errText unmarshalVolume context).
Abbreviation loop := (sequentialLoop E foundRows hasOptions clockNow ctx cfg errText unmarshalVolume context).

Lemma poll_sound fuel creds rs errors task apply :
  observesLive (poll fuel creds rs errors task apply)
    (fun t r => forall o, r = Some o -> to_Action (polledAction o) = taskContinue -> polledEnd creds rs task t).
Proof.
  revert errors task apply. induction fuel as [|fuel IH]; intros errors task apply; [by apply observesSteps_ret|].
  cbn [pollTaskToCompletion]. eapply observesSteps_bind; [apply pollTick_sound|].
  intros t [[[errors' task'] apply']|o] Hs.
  - eapply observesSteps_impl; [apply IH|]. intros t' r Hr o Ho Hc. apply polledEnd_last.
    eapply polledEnd_same; [exact Hs|by eapply Hr].
  - apply observesSteps_ret. intros o' [= <-] Hc. rewrite app_nil_r. by apply Hs.
Qed.

(** The actions after which the drive takes the next task. *)
Definition goesOn (a : taskAction) : bool := match a with taskContinue | taskSkip => true | _ => false end.

Lemma polled_goesOn o : goesOn (to_Action (polledAction o)) = true -> to_Action (polledAction o) = taskContinue.
Proof. unfold polledAction. destruct (to_Action o) eqn:Ea; rewrite ?Ea; cbn; repeat case_match; done. Qed.

Lemma engineTask_sound fuel apply task :
  observesLive (engineTask fuel options apply task)
    (fun t r => forall o, r = Some o -> goesOn (to_Action o) = true -> justified' task t).
Proof.
  unfold runEngineTask. apply live_skip. intros t0 stop. destruct (hr_Err stop); [apply observesSteps_ret; by intros o [= <-]|].
  destruct (hr_Handled stop); [apply observesSteps_ret; by intros o [= <-]|].
  destruct (if lc_Type cfg == _ then _ else _) as [creds|e].
  2: { apply live_skip. intros t1 task1. apply observesSteps_ret. by intros o [= <-]. }
  apply live_command. intros u u' Hcalls. destruct (ev_Apply (pl_engine u) _).2 as [result|e] eqn:Ea.
  2: { apply live_skip. intros t2 task1. apply observesSteps_ret. by intros o [= <-]. }
  destruct (negb (er_Accepted result)) eqn:Eacc.
  { apply live_skip. intros t2 task1. apply observesSteps_ret. by intros o [= <-]. }
  unfold followTask. apply live_transition. intros t2. apply live_skip. intros t3 _.
  eapply observesSteps_bind; [apply poll_sound|]. intros t4 [o|] Ho; apply observesSteps_ret; [|done].
  intros o' [= <-] Hc%polled_goesOn. rewrite app_nil_r. apply justified_last.
  destruct (Ho o eq_refl Hc) as (s & Hs & [Hend|Hend]).
  - left. exists s. split; [set_solver|done].
  - right. exists [], (u, u'), (t2 ++ t3 ++ t4)%list, s, creds, (er_ResumeState result). split; [done|].
    split; [|by split; [set_solver|]]. split; [done|]. exists result. split; [done|]. by apply negb_false_iff in Eacc.
Qed.

Lemma ready_sound task :
  observesLive (checkTaskReady E context task) (fun t r => r = taskSkip -> justified' task t).
Proof.
  unfold checkTaskReady. apply live_skip. intros t0 done0. destruct done0; [by apply observesSteps_ret|].
  apply live_read. intros w w1. apply observesSteps_ret. intros Hr. apply justified_last. left. exists (w, w1). split; [by left|].
  unfold storedEnd. cbn [fst].
  destruct (GetTask E _ (pl_db w)) as [t|] eqn:Eg; [|done].
  destruct (_ == Task.Stopped); [done|]. by destruct (IsTerminalTaskState (tk_State t)).
Qed.

(** The loop that ends with neither a failed task nor a stop saw every task end. *)
Lemma loop_sound fuel apply before todo :
  observesLive (loop fuel options apply before todo)
    (fun t r => forall apply' tasks', r = Some (loopDone apply' tasks' None false) -> forall task, task ∈ todo -> justified' task t).
Proof.
  revert apply before. induction todo as [|task rest IH]; intros apply before.
  { apply observesSteps_ret. intros apply' tasks' _ x Hx. by apply elem_of_nil in Hx. }
  cbn [sequentialLoop]. apply live_skip. intros t0 stop. destruct (hr_Err stop); [by apply observesSteps_ret|].
  destruct (hr_Handled stop); [by apply observesSteps_ret|].
  assert (Hnext : forall ap bf t1, justified' task t1 ->
    observesLive (loop fuel options ap bf rest) (fun t r => forall apply' tasks',
      r = Some (loopDone apply' tasks' None false) -> forall x, x ∈ task :: rest -> justified' x (t0 ++ t1 ++ t))).
  { intros ap bf t1 H1. eapply observesSteps_impl; [apply IH|]. intros t r Hr apply' tasks' Hd x [->|Hx]%elem_of_cons.
    - by apply justified_in.
    - do 2 apply justified_last. by eapply Hr. }
  eapply observesSteps_bind; [apply ready_sound|]. intros t1 action Hready. cbv beta in Hready.
  destruct action; try (by apply observesSteps_ret); [..|by apply Hnext, Hready|].
  all: eapply observesSteps_bind; [apply engineTask_sound|]; intros t2 [o|] Ho; [|by apply observesSteps_ret].
  all: destruct (to_Action o) eqn:Ea; try (by apply observesSteps_ret).
  all: eapply observesSteps_impl; [apply (Hnext _ _ (t1 ++ t2)%list); apply justified_last, (Ho o eq_refl); by rewrite Ea|].
  all: intros t r Hr apply' tasks' Hd x Hx; specialize (Hr _ _ Hd x Hx); by rewrite <- !app_assoc in Hr.
Qed.

(** Finalisation either adopts a terminal stored apply or writes the outcome. *)
Lemma finalize_outcome apply tasks failedTask stopped :
  observesLive (finalizeSequentialApply foundRows hasOptions clockNow ctx apply tasks failedTask stopped)
    (fun t r => (exists s a, s ∈ t /\ findApply (a_ID apply) (pl_db s.1) = Some a /\ a = r.1) \/
                a_State r.1 = a_State (finalApply clockNow apply failedTask stopped)).
Proof.
  unfold finalizeSequentialApply. apply live_read. intros w w1.
  destruct (findApply _ (pl_db w)) as [a|] eqn:Ef; [destruct (IsTerminalApplyState (a_State a))|].
  { apply live_skip. intros t1 _. apply observesSteps_ret. left. exists (w, w1), a. split; [set_solver|done]. }
  all: apply live_skip; intros t1 ts; apply live_skip; intros t2 _; apply live_skip; intros t3 _.
  all: apply observesSteps_ret; by right.
Qed.
End Justified.

(** ** An engine that cannot be reached *)

Section GivesUp.
Context (E : EngineNames) (foundRows hasOptions : bool) (clockNow : Z) (ctx : leaseCtx) (cfg : clientConfig).
Context (errText : StoreErr -> string) (unmarshalVolume : string -> option Z) (context : Z).

Definition engineDown (w : plane) : Prop :=
  forall database creds rs, exists e, ev_Progress (pl_engine w) database creds rs = Err e.

Lemma trace_all {S R} (P : S -> Prop) (env : nat -> envStep S) (p : prog S R) n s :
  (forall m u, P (interfere (env m) u)) -> Forall P (trace env n p s).
Proof.
  intros HP. revert n s. induction p as [r | A stmt k IH]; intros n s; cbn; [constructor|].
  constructor; [done|]. destruct (fault (env n)); [apply IH|]. destruct (stmt _). apply IH.
Qed.

Lemma observes_any {S R} (p : prog S R) : observes p (fun _ _ => True).
Proof. done. Qed.

Lemma seen_skip {R R'} (p : prog plane R) (f : R -> prog plane R') (Q : list plane -> R' -> Prop) :
  (forall t r, observes (f r) (fun t' r' => Q (t ++ t')%list r')) -> observes (pbind p f) Q.
Proof. intros H. eapply observes_bind; [apply observes_any|]. by intros t r _. Qed.

(** A tick counts one more error, below the bound, or ends the poll. *)
Definition countsOn (errors : nat) (r : nat * TaskRec * Apply + taskOutcome) : Prop :=
  match r with
  | inl (errors', _, _) => errors' = Datatypes.S errors /\ (errors' < maxPollErrors)%nat
  | inr _ => True
  end.

Lemma pollFailed_counts apply task errors e :
  observes (pollFailed foundRows clockNow ctx cfg apply task errors e) (fun _ r => countsOn errors r).
Proof.
  unfold pollFailed. destruct (ee_Permanent e); [apply seen_skip; intros; by apply observes_ret|].
  destruct (Nat.leb_spec maxPollErrors (Datatypes.S errors)).
  - apply seen_skip. intros. by apply observes_ret.
  - by apply observes_ret.
Qed.

Lemma pollTick_counts creds rs errors task apply :
  observes (pollTick E foundRows hasOptions clockNow ctx cfg errText unmarshalVolume context creds rs errors task apply)
    (fun t r => Forall engineDown t -> countsOn errors r).
Proof.
  unfold pollTick. apply seen_skip. intros t0 done0. destruct done0; [by apply observes_ret|].
  apply seen_skip. intros t1 stop. destruct (hr_Err stop); [by apply observes_ret|].
  destruct (hr_Handled stop); [by apply observes_ret|].
  apply seen_skip. intros t2 [apply2 cutoverErr]. destruct cutoverErr; [by apply observes_ret|].
  apply seen_skip. intros t3 [apply3 volumeErr]. destruct (bool_decide _); [by apply observes_ret|].
  apply seen_skip. intros t4 fresh. set (external := match fresh with Ok (Some t) => _ | _ => false end).
  assert (Hask : observes (let! result := askEngine (fun v => ev_Progress v (tk_Database task) creds rs) in
      match result with
      | Err e => pollFailed foundRows clockNow ctx cfg apply3 task errors e
      | Ok p =>
          let task := set_tk_UpdatedAt clockNow (set_tk_State (taskStateFromProgressResult (Some (ep_Result p))) task) in
          let task := withTableProgress p task in
          if EngineState_IsTerminal (pr_State (ep_Result p)) then
            let task := finishedTask clockNow p task in
            let! task := transitionTaskState foundRows clockNow ctx task (tk_State task) in
            Ret (inr (endTask taskContinue task apply3))
          else
            let! task := transitionTaskState foundRows clockNow ctx task (tk_State task) in
            Ret (inl (0%nat, task, apply3))
      end) (fun t r => Forall engineDown t -> countsOn errors r)).
  { apply observes_exec.
    - intros w e. eapply observes_impl; [apply pollFailed_counts|done].
    - intros w. cbn [snd pbind]. destruct (ev_Progress _ _ _ _) as [p|e] eqn:Ep.
      + apply (observes_impl _ (fun _ _ => True)); [done|]. intros t r _ Hall. apply Forall_cons in Hall as [Hd _].
        destruct (Hd (tk_Database task) creds rs) as (e & He). congruence.
      + eapply observes_impl; [apply pollFailed_counts|done]. }
  assert (Hok : forall t r, (Forall engineDown t -> countsOn errors r) ->
    Forall engineDown (t0 ++ t1 ++ t2 ++ t3 ++ t4 ++ t) -> countsOn errors r).
  { intros t r H Hall. apply H. rewrite !Forall_app in Hall. tauto. }
  destruct fresh as [[t|]|e]; [destruct external; [by apply observes_ret|]|..];
    (eapply observes_impl; [apply Hask|apply Hok]).
Qed.

Lemma poll_ends fuel creds rs errors task apply :
  (errors < maxPollErrors)%nat -> (maxPollErrors <= errors + fuel)%nat ->
  observes (pollTaskToCompletion E foundRows hasOptions clockNow ctx cfg errText unmarshalVolume context fuel creds rs errors task apply)
    (fun t r => Forall engineDown t -> exists o, r = Some o).
Proof.
  revert errors task apply. induction fuel as [|fuel IH]; intros errors task apply Hlt Hle; [lia|].
  cbn [pollTaskToCompletion]. eapply observes_bind; [apply pollTick_counts|].
  intros t [[[errors' task'] apply']|o] Hc.
  - destruct (decide (errors' = Datatypes.S errors /\ (errors' < maxPollErrors)%nat)) as [[-> Hlt']|Hn].
    + eapply observes_impl; [apply IH; lia|]. intros t' r Hr Hall. apply Hr. apply Forall_app in Hall. tauto.
    + apply (observes_impl _ (fun _ _ => True)); [done|]. intros t' r _ Hall. apply Forall_app in Hall as [H1 _].
      by destruct (Hn (Hc H1)).
  - apply observes_ret. by exists o.
Qed.
End GivesUp.

(** ** Properties *)

(** C12: a sequential drive completes an apply only after it saw every task end.
    Whatever other connections and the engine do meanwhile, as long as no statement
    fails, a drive that settles the apply as completed has either found it stored so
    already, or has done with every task: it read, while it ran, a terminal row (or
    none) for the task from the store, or one of its statements handed the engine the
    change of that task alone, which the engine accepted, and afterwards the engine
    answered the question after the work it had returned with an end that is neither a
    failure nor a stop. *)
Theorem sequential_completed_justified (E : EngineNames) (foundRows hasOptions : bool) (clockNow : Z) (ctx : leaseCtx)
    (cfg : clientConfig) (errText : StoreErr -> string) (unmarshalVolume : string -> option Z) (context : Z)
    (fuel : nat) (options : gmap string string) (apply apply' : Apply) (tasks tasks' : list TaskRec) env w w' n
    (Hfault : forall m, fault (env m) = None)
    (Hrun : runE env 0 (executeApplySequential E foundRows hasOptions clockNow ctx cfg errText unmarshalVolume context
                          fuel options apply tasks) w = (w', settled apply' tasks', n))
    (Hcomp : a_State apply' = Apply.Completed) :
  let seen := steps env 0 (executeApplySequential E foundRows hasOptions clockNow ctx cfg errText unmarshalVolume context
                             fuel options apply tasks) w in
  (exists s, s ∈ seen /\ exists id, findApply id (pl_db s.1) = Some apply') \/
  forall task, task ∈ tasks -> justified E options task seen.
Proof.
  intros seen.
  assert (H : observesLive (executeApplySequential E foundRows hasOptions clockNow ctx cfg errText unmarshalVolume context
                              fuel options apply tasks) (fun t r => forall ap ts, r = settled ap ts -> a_State ap = Apply.Completed ->
    (exists s, s ∈ t /\ exists id, findApply id (pl_db s.1) = Some ap) \/ forall task, task ∈ tasks -> justified E options task t)).
  { unfold executeApplySequential. apply live_skip. intros t0 _. eapply observesSteps_bind; [apply loop_sound|].
    intros t1 [[|ap1 ts1 failedTask stopped]|] Hloop; try by apply observesSteps_ret.
    eapply observesSteps_bind; [apply finalize_outcome|]. intros t2 [ap ts] Hfin. apply observesSteps_ret.
    intros ap' ts' [= <- <-] Hst. cbn [fst] in Hfin. destruct Hfin as [(u & a & Hu & Hf & ->)|Hfin].
    - left. exists u. split; [rewrite !elem_of_app; auto|]. by eexists.
    - right. intros task Hin. rewrite Hst in Hfin. unfold finalApply in Hfin.
      destruct failedTask as [t|]; [by destruct (tk_State t == _) in Hfin|]. destruct stopped; [done|].
      apply justified_in. by eapply Hloop. }
  destruct (H env 0%nat w w' _ n (fun m e He => eq_ind None (fun o => match o with Some _ => False | None => True end) I (Some e) (eq_trans (eq_sym (Hfault m)) He)) Hrun apply' tasks' eq_refl Hcomp) as [?|Hall]; [by left|right].
  exact Hall.
Qed.

(** A drive does not poll a dead engine for ever.  While the engine answers no
    progress request, the poll of a task ends within ten ticks, whatever happens to
    the store between its statements and whichever statements fail. *)
Theorem poll_gives_up (E : EngineNames) (foundRows hasOptions : bool) (clockNow : Z) (ctx : leaseCtx)
    (cfg : clientConfig) (errText : StoreErr -> string) (unmarshalVolume : string -> option Z) (context : Z)
    (creds : string) (rs : option ResumeState) (task : TaskRec) (apply : Apply) env w w' r n
    (Hdown : forall m u, engineDown (interfere (env m) u))
    (Hrun : runE env 0 (pollTaskToCompletion E foundRows hasOptions clockNow ctx cfg errText unmarshalVolume context
                          maxPollErrors creds rs 0 task apply) w = (w', r, n)) :
  exists outcome, r = Some outcome.
Proof.
  refine (poll_ends E foundRows hasOptions clockNow ctx cfg errText unmarshalVolume context maxPollErrors creds rs 0 task apply
            _ _ env 0%nat w w' r n Hrun _); [unfold maxPollErrors; lia..|]. by apply trace_all.
Qed.

(** ** A drive *)

(** An engine that accepts every change and reports [st]. *)
Definition reportingEngine (st : string) : engineView :=
  {| ev_Plan := fun _ _ _ => Err transportError; ev_CutoverSignal := fun _ _ => None;
     ev_Apply := fun _ => ([], Ok {| er_Accepted := true; er_Message := ""; er_ResumeState := None |});
     ev_Progress := fun _ _ _ =>
       Ok {| ep_Result := {| pr_State := st; Retryable := false; pr_ErrorMessage := ""; pr_Message := "" |};
             ep_Tables := []; ep_ResumeState := None |};
     ev_Control := fun _ _ => Ok None; ev_Volume := fun _ => Ok None; ev_Validate := fun _ _ => None |}.

Definition exampleDrive (fuel : nat) (tasks : list TaskRec) : prog plane driveEnd :=
  executeApplySequential documentedNames true false 50 noLease (exampleClient DatabaseTypeMySQL) sampleErrText sampleUnmarshal
    9 fuel ∅ (exampleApply Apply.Pending) tasks.

Definition driveState (d : driveEnd) : string := match d with settled a _ => a_State a | _ => "" end.

(** Two tables, one after the other. *)
Lemma sequential_completed_justified_witness :
  let tasks := [exampleTask 7 "task_7" "t" "" Task.Pending; exampleTask 8 "task_8" "u" "" Task.Pending] in
  let w := examplePlane (withTasks tasks (exampleStore (exampleApply Apply.Pending) [] [])) (reportingEngine Engine.StateCompleted) in
  let '(w', d) := run (exampleDrive 3 tasks) w in
  driveState d = Apply.Completed /\ length (pl_calls w') = 2%nat /\
  forall task, task ∈ tasks -> justified documentedNames ∅ task (steps (fun _ => quiet) 0 (exampleDrive 3 tasks) w).
Proof.
  intros tasks w. destruct (run (exampleDrive 3 tasks) w) as [w' d] eqn:Hrun.
  assert (driveState d = Apply.Completed /\ length (pl_calls w') = 2%nat) as [Hd Hl]
    by (vm_compute in Hrun; injection Hrun as <- <-; by split).
  split; [exact Hd|]. split; [exact Hl|].
  destruct d as [| |a ts]; [discriminate Hd..|]. apply run_runE in Hrun as (n & Hrun).
  destruct (sequential_completed_justified documentedNames true false 50 noLease (exampleClient DatabaseTypeMySQL)
              sampleErrText sampleUnmarshal 9 3 ∅ (exampleApply Apply.Pending) a tasks ts (fun _ => quiet) w w' n
              (fun _ => eq_refl) Hrun Hd) as [(u & Hu & id & Hid)|H]; [|exact H].
  exfalso. vm_compute in Hrun. injection Hrun as _ Ha _ _. rewrite <- Ha in Hid.
  vm_compute in Hu. repeat (apply elem_of_cons in Hu as [->|Hu]; [vm_compute in Hid; case_match; discriminate Hid|]).
  by apply elem_of_nil in Hu.
Defined.

Lemma poll_gives_up_witness :
  let task := exampleTask 7 "task_7" "t" "" Task.Running in
  let w := examplePlane (withTasks [task] (exampleStore (exampleApply Apply.Running) [] [])) (exampleEngine (Ok None)) in
  let env := fun _ : nat => {| interfere := fun u => {| pl_db := pl_db u; pl_engine := exampleEngine (Ok None);
                                                      pl_calls := pl_calls u; pl_cancels := pl_cancels u; pl_remote := pl_remote u; pl_sent := pl_sent u |}; fault := None |} in
  exists o, (runE env 0 (pollTaskToCompletion documentedNames true false 50 noLease (exampleClient DatabaseTypeMySQL)
               sampleErrText sampleUnmarshal 9 maxPollErrors "dsn" None 0 task (exampleApply Apply.Running)) w).1.2 = Some o.
Proof.
  intros task w env.
  destruct (runE env 0 (pollTaskToCompletion documentedNames true false 50 noLease (exampleClient DatabaseTypeMySQL)
               sampleErrText sampleUnmarshal 9 maxPollErrors "dsn" None 0 task (exampleApply Apply.Running)) w)
    as [[w' r] n] eqn:Hrun.
  destruct (poll_gives_up documentedNames true false 50 noLease (exampleClient DatabaseTypeMySQL) sampleErrText sampleUnmarshal
              9 "dsn" None task (exampleApply Apply.Running) env w w' r n) as (o & Ho).
  - intros m u database creds rs. by exists transportError.
  - exact Hrun.
  - by exists o.
Defined.

(** ** Completed without its tasks *)

(** A read of a task that fails is a skip: the drive goes on, and settles the apply
    as completed although the engine was never sent the task's change. *)
Lemma unreadable_task_completes :
  let tasks := [exampleTask 7 "task_7" "t" "" Task.Pending] in
  let w := examplePlane (withTasks tasks (exampleStore (exampleApply Apply.Pending) [] [])) (reportingEngine Engine.StateCompleted) in
  let env := fun n : nat => {| interfere := fun u => u; fault := if (n =? 4)%nat then Some (Errorf "connection reset") else None |} in
  let '(w', d, _) := runE env 0 (exampleDrive 3 tasks) w in
  driveState d = Apply.Completed /\ pl_calls w' = [] /\ tk_State <$> Store.tasks (pl_db w') = [Task.Pending] /\
  a_State <$> applies (pl_db w') = [Apply.Completed].
Proof. vm_compute. repeat split. Qed.

(** So is a task that the store has as failed: the apply is settled as completed. *)
Lemma failed_task_skipped :
  let tasks := [exampleTask 7 "task_7" "t" "" Task.Failed] in
  let w := examplePlane (withTasks tasks (exampleStore (exampleApply Apply.Pending) [] [])) (reportingEngine Engine.StateCompleted) in
  let '(w', d) := run (exampleDrive 3 tasks) w in
  driveState d = Apply.Completed /\ pl_calls w' = [].
Proof. vm_compute. repeat split. Qed.
