(* ===== verification/Config.v ===== *)
(** * Server configuration (pkg/api/config.go)

    The YAML configuration of a server, the questions the rest of the program asks
    of it and the routing of a database and environment to the deployments that run
    its schema changes.  A Go map is a finite map; where the program ranges over
    one, the model takes the map's own order, which Go leaves open, so that only
    which of several errors is returned depends on it.  A nil pointer is [None]. *)

From S2P Require Import Prelude GoStrings Store.

Local Open Scope string_scope.
Local Open Scope Z_scope.

(** ** The configuration *)

(** [DSNFromConfigPaths] *)
Record DSNFromConfigPaths := { dp_Host : string; dp_Port : string; dp_Database : string }.

(** [DSNFromConfig] *)
Record DSNFromConfig := {
  df_ConfigRef : string;
  df_ConfigPaths : DSNFromConfigPaths;
  df_Username : string;
  df_PasswordRef : string;
}.

(** [StorageConfig] *)
Record StorageConfig := { sc_DSN : string; sc_DSNFrom : option DSNFromConfig }.

(** [GitHubConfig] *)
Record GitHubConfig := {
  gh_AppID : string;
  gh_PrivateKey : string;
  gh_WebhookSecret : string;
  gh_CheckName : string;
  gh_TrustedCheckAppSlugs : list string;
}.

(** [ExpectedTenant] *)
Record ExpectedTenant := { et_Tenant : string; et_Paths : list string; et_CheckName : string }.

(** [AggregateConfig] *)
Record AggregateConfig := { ag_Role : string; ag_ExpectedTenants : list ExpectedTenant }.

(** [RepoConfig] *)
Record RepoConfig := {
  rc_EnableChecks : option bool;
  rc_RequireUpToDateWithBase : bool;
  rc_GitHubApp : string;
  rc_Aggregate : option AggregateConfig;
  rc_AdminTeams : list string;
  rc_AdminUsers : list string;
}.

(** [DeploymentTarget] *)
Record DeploymentTarget := { dt_Target : string }.

(** [EnvironmentConfig]: a nil deployments map differs from an empty one. *)
Record EnvironmentConfig := {
  ec_DSN : string;
  ec_DSNFrom : option DSNFromConfig;
  ec_Target : string;
  ec_Deployment : string;
  ec_Deployments : option (gmap string DeploymentTarget);
  ec_DeploymentOrder : list string;
  ec_CutoverPolicy : string;
  ec_OnFailure : string;
  ec_RevertWindowDuration : string;
}.

(** [DatabaseConfig] *)
Record DatabaseConfig := {
  db_Type : string;
  db_Environments : gmap string EnvironmentConfig;
  db_AllowedRepos : list string;
  db_AllowedDirs : list string;
  db_OperatorTeams : list string;
  db_OperatorUsers : list string;
}.

(** [PRCommandAuthorizationConfig] *)
Record PRCommandAuthorizationConfig := {
  pa_Enabled : bool;
  pa_AdminTeams : list string;
  pa_AdminUsers : list string;
}.

(** [ReviewPolicyConfig] *)
Record ReviewPolicyConfig := {
  rp_Enabled : bool;
  rp_AdminTeams : list string;
  rp_AdminUsers : list string;
  rp_IncludeDatabaseOperators : option bool;
  rp_IncludeCodeowners : bool;
}.

(** [SupportChannelConfig] *)
Record SupportChannelConfig := { su_Name : string; su_URL : string }.

(** [PendingDropsConfig] *)
Record PendingDropsConfig := {
  pd_Enabled : option bool;
  pd_CleanupEnabled : option bool;
  pd_Retention : string;
}.

(** [ForwardAuthSettings]: the fields its validation reads. *)
Record ForwardAuthSettings := {
  fa_TrustedProxySPIFFE : list string;
  fa_TrustedProxyCIDRs : list string;
}.

(** [AuthConfig] *)
Record AuthConfig := {
  au_Type : string;
  au_Issuer : string;
  au_Audience : string;
  au_ForwardAuth : ForwardAuthSettings;
}.

(** [ServerConfig]; [c_TargetResolver] is [TargetResolver.Enabled()]. *)
Record ServerConfig := {
  c_Storage : StorageConfig;
  c_Auth : AuthConfig;
  c_GitHub : GitHubConfig;
  c_Apps : option (gmap string GitHubConfig);
  c_TernDeployments : gmap string (gmap string string);
  c_Databases : gmap string DatabaseConfig;
  c_TargetResolver : bool;
  c_Repos : gmap string RepoConfig;
  c_PRCommandAuthorization : PRCommandAuthorizationConfig;
  c_ReviewPolicy : ReviewPolicyConfig;
  c_SupportChannel : SupportChannelConfig;
  c_AllowedEnvironments : list string;
  c_Tenant : string;
  c_EnvironmentOrder : list string;
  c_MetricsPort : Z;
  c_OperatorClaimOperations : option bool;
  c_RequirePassingChecks : option bool;
  c_RequiredChecks : list string;
  c_RespondToUnscoped : option bool;
  c_PendingDrops : PendingDropsConfig;
}.

(** [routing.ExecutionTarget] *)
Record ExecutionTarget := {
  xt_DatabaseType : string;
  xt_Deployment : string;
  xt_Target : string;
}.

#[global] Instance ExecutionTarget_eq_dec : EqDecision ExecutionTarget.
Proof. solve_decision. Defined.

Definition DefaultGitHubCheckName := "SchemaBot".
Definition defaultEnvironmentOrder := ["staging"; "production"].
Definition DefaultMetricsPort : Z := 9102.

(** ** Databases and environments *)

(** Indexing a Go map that may be nil. *)
Definition emptyMap {A} (m : gmap string A) : bool := bool_decide (m = ∅).

Definition Database (c : ServerConfig) (name : string) : option DatabaseConfig :=
  c_Databases c !! name.

Definition DatabaseEnvironment (c : ServerConfig) (database environment : string)
    : option EnvironmentConfig :=
  match Database c database with
  | None => None
  | Some db => db_Environments db !! environment
  end.

Definition CutoverPolicyFor (c : ServerConfig) (database environment : string) : string :=
  match DatabaseEnvironment c database environment with
  | None => CutoverPolicyRolling
  | Some env => if ec_CutoverPolicy env == "" then CutoverPolicyRolling else ec_CutoverPolicy env
  end.

Definition OnFailure (c : ServerConfig) (database environment : string) : string :=
  match DatabaseEnvironment c database environment with
  | None => OnFailureHalt
  | Some env => if ec_OnFailure env == "" then OnFailureHalt else ec_OnFailure env
  end.

Definition IsEnvironmentAllowed (c : option ServerConfig) (env : string) : bool :=
  match c with
  | None => true
  | Some c => match c_AllowedEnvironments c with [] => true | allowed => oneOf env allowed end
  end.

Definition PromotionEnvironmentOrder (c : option ServerConfig) : list string :=
  match c with
  | None => defaultEnvironmentOrder
  | Some c => match c_EnvironmentOrder c with [] => defaultEnvironmentOrder | order => order end
  end.

(** The names [add] of KnownEnvironments keeps. *)
Definition addNames (seen : gset string) (names : list string) : gset string :=
  fold_left (fun seen name => if name == "" then seen else {[name]} ∪ seen) names seen.
Arguments addNames : simpl never.

Definition databaseEnvironmentNames (c : ServerConfig) : list string :=
  mbind (fun db => (map_to_list (db_Environments db)).*1) ((map_to_list (c_Databases c)).*2).

Definition KnownEnvironments (c : option ServerConfig) : list string :=
  match c with
  | None => []
  | Some cfg =>
      Sort (elements (addNames (addNames (addNames ∅ (c_AllowedEnvironments cfg))
        (PromotionEnvironmentOrder c)) (databaseEnvironmentNames cfg)))
  end.

Definition IsEnvironmentKnown (c : option ServerConfig) (env : string) : bool :=
  match c with
  | None => false
  | Some c =>
      if env == "" then false else
      let order := match c_EnvironmentOrder c with [] => defaultEnvironmentOrder | o => o end in
      if oneOf env (c_AllowedEnvironments c) || oneOf env order then true else
      existsb (fun db => bool_decide (is_Some (db_Environments db !! env)))
        ((map_to_list (c_Databases c)).*2)
  end.

(** The loop over the promotion order: what is ordered so far and what is left. *)
Definition orderStep (acc : list string * gset string) (env : string)
    : list string * gset string :=
  if bool_decide (env ∈ acc.2) then ((acc.1 ++ [env])%list, acc.2 ∖ {[env]}) else acc.

Definition OrderedEnvironments (c : option ServerConfig) (enabled : list string) : list string :=
  let enabledSet := addNames ∅ enabled in
  let '(ordered, remaining) := fold_left orderStep (PromotionEnvironmentOrder c) ([], enabledSet) in
  (ordered ++ Sort (elements remaining))%list.

(** The errors of the lookups; [DatabaseNotConfigured] is the type callers test. *)
Inductive ConfigErr :=
| ServerConfigNil
| DatabaseNotConfigured (database : string)
| EnvironmentNotConfigured (database environment : string)
| DeploymentsMapEmpty
| EmptyDeploymentKey
| OrderEmptyEntry
| OrderDuplicate (deployment : string)
| OrderUnknown (deployment : string)
| OrderMissing (deployment : string)
| MissingTarget
| MissingDeployment
| NotOneDeployment (n : nat)
| NoGitHubApp.

Definition DatabaseEnvironments (c : option ServerConfig) (database : string)
    : result ConfigErr (list string) :=
  match c with
  | None => Err ServerConfigNil
  | Some cfg =>
      match Database cfg database with
      | None => Err (DatabaseNotConfigured database)
      | Some db => Ok (OrderedEnvironments c ((map_to_list (db_Environments db)).*1))
      end
  end.

(** ** Routing *)

Definition HasLocalDSN (c : EnvironmentConfig) : bool :=
  (ec_DSN c != "") || match ec_DSNFrom c with Some _ => true | None => false end.

Definition hasEmptyKey {A} (m : gmap string A) : bool := bool_decide (is_Some (m !! "")).

(** The loop over deployment_order; [seen] are the entries before. *)
Fixpoint checkOrder (deployments : gmap string DeploymentTarget) (seen : gset string)
    (order : list string) : result ConfigErr (gset string) :=
  match order with
  | [] => Ok seen
  | deployment :: rest =>
      if deployment == "" then Err OrderEmptyEntry
      else if bool_decide (deployment ∈ seen) then Err (OrderDuplicate deployment)
      else match deployments !! deployment with
           | None => Err (OrderUnknown deployment)
           | Some _ => checkOrder deployments ({[deployment]} ∪ seen) rest
           end
  end.

Definition validateDeploymentOrder (deployments : gmap string DeploymentTarget)
    (order : list string) : result ConfigErr unit :=
  if hasEmptyKey deployments then Err EmptyDeploymentKey else
  let? seen := checkOrder deployments ∅ order in
  match filter (fun deployment => deployment ∉ seen) ((map_to_list deployments).*1) with
  | deployment :: _ => Err (OrderMissing deployment)
  | [] => Ok tt
  end.

Definition orderedDeploymentKeys (deployments : gmap string DeploymentTarget)
    (order : list string) : result ConfigErr (list string) :=
  if hasEmptyKey deployments then Err EmptyDeploymentKey else
  match order with
  | [] => Ok (Sort ((map_to_list deployments).*1))
  | _ => let? _ := validateDeploymentOrder deployments order in Ok order
  end.

(** The loop over the ordered deployments; a key that is not in the map reads the
    zero entry. *)
Fixpoint deploymentTargets (databaseType : string) (deployments : gmap string DeploymentTarget)
    (keys : list string) : result ConfigErr (list ExecutionTarget) :=
  match keys with
  | [] => Ok []
  | deployment :: rest =>
      let target := match deployments !! deployment with Some dt => dt_Target dt | None => "" end in
      if target == "" then Err MissingTarget else
      let? out := deploymentTargets databaseType deployments rest in
      Ok ({| xt_DatabaseType := databaseType; xt_Deployment := deployment; xt_Target := target |}
          :: out)
  end.

Definition ResolveDatabaseTargets (c : option ServerConfig) (database environment : string)
    : result ConfigErr (list ExecutionTarget) :=
  match c with
  | None => Err ServerConfigNil
  | Some c =>
  match Database c database with
  | None => Err (DatabaseNotConfigured database)
  | Some dbConfig =>
  match db_Environments dbConfig !! environment with
  | None => Err (EnvironmentNotConfigured database environment)
  | Some envConfig =>
      if HasLocalDSN envConfig then
        Ok [{| xt_DatabaseType := db_Type dbConfig; xt_Deployment := database;
               xt_Target := database |}]
      else match ec_Deployments envConfig with
      | Some deployments =>
          if emptyMap deployments then Err DeploymentsMapEmpty else
          let? keys := orderedDeploymentKeys deployments (ec_DeploymentOrder envConfig) in
          deploymentTargets (db_Type dbConfig) deployments keys
      | None =>
          if ec_Target envConfig == "" then Err MissingTarget
          else if ec_Deployment envConfig == "" then Err MissingDeployment
          else Ok [{| xt_DatabaseType := db_Type dbConfig; xt_Deployment := ec_Deployment envConfig;
                      xt_Target := ec_Target envConfig |}]
      end
  end end end.

Definition ResolveDatabaseTarget (c : option ServerConfig) (database environment : string)
    : result ConfigErr ExecutionTarget :=
  let? targets := ResolveDatabaseTargets c database environment in
  match targets with
  | [target] => Ok target
  | _ => Err (NotOneDeployment (length targets))
  end.

Definition ResolvePrimaryDatabaseTarget (c : option ServerConfig) (database environment : string)
    : result ConfigErr ExecutionTarget :=
  let? targets := ResolveDatabaseTargets c database environment in
  match targets with
  | target :: _ => Ok target
  | [] => Err (NotOneDeployment 0)
  end.

(** ** Repositories, checks and tenants *)

Definition IsRepoAllowed (c : option ServerConfig) (repo : string) : bool :=
  match c with
  | None => true
  | Some c => if emptyMap (c_Repos c) then true else bool_decide (is_Some (c_Repos c !! repo))
  end.

Definition AreChecksEnabled (c : option ServerConfig) (repo : string) : bool :=
  match c with
  | None => true
  | Some c =>
      if emptyMap (c_Repos c) then true else
      match c_Repos c !! repo with
      | None => true
      | Some repoConfig => default true (rc_EnableChecks repoConfig)
      end
  end.

Definition RequiresUpToDateWithBase (c : option ServerConfig) (repo : string) : bool :=
  match c with
  | None => false
  | Some c =>
      match c_Repos c !! repo with
      | None => false
      | Some repoConfig => rc_RequireUpToDateWithBase repoConfig
      end
  end.

Definition ShouldRespondToTenant (c : option ServerConfig) (tenant : string) : bool :=
  if tenant == "" then true else
  match c with None => false | Some c => c_Tenant c == tenant end.

(** The bytes of a tenant name after the first, and its first byte. *)
Definition tenantByte (first : bool) (r : ascii) : bool :=
  let n := N_of_ascii r in
  ((97 <=? n) && (n <=? 122) || (65 <=? n) && (n <=? 90) || (48 <=? n) && (n <=? 57) ||
   negb first && ((n =? 95) || (n =? 45)))%N.

Fixpoint tenantRest (s : string) : bool :=
  match s with EmptyString => true | String r s' => tenantByte false r && tenantRest s' end.

Definition isValidTenantName (tenant : string) : bool :=
  match tenant with EmptyString => true | String r s => tenantByte true r && tenantRest s end.

Definition ShouldRespondToUnscoped (c : option ServerConfig) : bool :=
  match c with None => true | Some c => default true (c_RespondToUnscoped c) end.

Definition ShouldRequirePassingChecks (c : option ServerConfig) : bool :=
  match c with None => true | Some c => default true (c_RequirePassingChecks c) end.

Definition ShouldClaimOperations (c : option ServerConfig) : bool :=
  match c with None => true | Some c => default true (c_OperatorClaimOperations c) end.

Definition MetricsListenPort (c : option ServerConfig) : Z :=
  match c with
  | None => DefaultMetricsPort
  | Some c => if c_MetricsPort c =? 0 then DefaultMetricsPort else c_MetricsPort c
  end.

Definition IsCheckRequired (c : option ServerConfig) (name : string) : bool :=
  match c with
  | None => true
  | Some c => match c_RequiredChecks c with [] => true | required => oneOf name required end
  end.

Definition CheckRunNameBase (g : GitHubConfig) : string :=
  let name := TrimSpace (gh_CheckName g) in
  if name == "" then DefaultGitHubCheckName else name.

(** [len(c.Apps) > 0] *)
Definition hasApps (c : ServerConfig) : option (gmap string GitHubConfig) :=
  match c_Apps c with
  | Some apps => if emptyMap apps then None else Some apps
  | None => None
  end.

Definition GitHubCheckNameBaseForRepo (c : option ServerConfig) (repo : string) : string :=
  match c with
  | None => DefaultGitHubCheckName
  | Some c =>
      match hasApps c with
      | Some apps =>
          match c_Repos c !! repo with
          | None => DefaultGitHubCheckName
          | Some repoConfig =>
              match apps !! rc_GitHubApp repoConfig with
              | None => DefaultGitHubCheckName
              | Some appConfig => CheckRunNameBase appConfig
              end
          end
      | None => CheckRunNameBase (c_GitHub c)
      end
  end.

Definition RepoAdmins (c : ServerConfig) (repo : string) : list string * list string :=
  match c_Repos c !! repo with
  | None => ([], [])
  | Some repoConfig => (rc_AdminTeams repoConfig, rc_AdminUsers repoConfig)
  end.

Definition PendingDropsEnabled (c : ServerConfig) : bool :=
  default true (pd_Enabled (c_PendingDrops c)).

Definition PendingDropsCleanupEnabled (c : ServerConfig) : bool :=
  if negb (PendingDropsEnabled c) then false
  else default true (pd_CleanupEnabled (c_PendingDrops c)).

(** [ResolveGitHubAppForRepo]; [configured] is what [GitHub.Configured()] finds when
    it resolves the secrets of the single-App configuration. *)
Definition ResolveGitHubAppForRepo (configured : GitHubConfig -> bool) (c : option ServerConfig)
    (repo : string) : result ConfigErr (string * GitHubConfig) :=
  match c with
  | None => Err ServerConfigNil
  | Some c =>
      match hasApps c with
      | Some apps =>
          match c_Repos c !! repo with
          | None => Err NoGitHubApp
          | Some repoConfig =>
              if rc_GitHubApp repoConfig == "" then Err NoGitHubApp else
              match apps !! rc_GitHubApp repoConfig with
              | None => Err NoGitHubApp
              | Some appCfg => Ok (rc_GitHubApp repoConfig, appCfg)
              end
          end
      | None =>
          if negb (configured (c_GitHub c)) then Err NoGitHubApp
          else Ok ("default", c_GitHub c)
      end
  end.

Definition TrustedCheckAppSlugsForRepo (configured : GitHubConfig -> bool)
    (c : option ServerConfig) (repo : string) : list string :=
  match ResolveGitHubAppForRepo configured c repo with
  | Err _ => []
  | Ok (_, app) => gh_TrustedCheckAppSlugs app
  end.

(** ** Lemmas: environments *)

Lemma elem_of_addNames x seen names :
  x ∈ addNames seen names <-> x ∈ seen \/ (x ∈ names /\ x <> "").
Proof.
  unfold addNames. revert seen. induction names as [|n names IH]; intros seen; cbn; [set_solver|].
  rewrite IH. destruct (n == "") eqn:E.
  - apply eqb_true_iff in E as ->. set_solver.
  - apply eqb_false_iff in E. set_solver.
Qed.

Lemma elem_of_databaseEnvironmentNames c env :
  env ∈ databaseEnvironmentNames c <->
  exists name db, c_Databases c !! name = Some db /\ is_Some (db_Environments db !! env).
Proof.
  unfold databaseEnvironmentNames. rewrite list_elem_of_bind. split.
  - intros (db & He & Hdb). apply list_elem_of_fmap in He as ([e ec] & -> & He).
    apply list_elem_of_fmap in Hdb as ([n db'] & -> & Hdb).
    apply elem_of_map_to_list in He, Hdb. cbn in *. eauto.
  - intros (name & db & Hdb & [ec He]). exists db. split; apply list_elem_of_fmap.
    + exists (env, ec). split; [done|]. by apply elem_of_map_to_list.
    + exists (name, db). split; [done|]. by apply elem_of_map_to_list.
Qed.

(** The loop over the promotion order. *)
Lemma orderLoop order acc (rest : gset string) :
  let r := fold_left orderStep order (acc, rest) in
  exists picked, (r.1 = (acc ++ picked)%list) /\ (picked `sublist_of` order) /\ NoDup picked /\
    (forall x, x ∈ picked <-> x ∈ order /\ x ∈ rest) /\
    (forall x, x ∈ r.2 <-> x ∈ rest /\ x ∉ order).
Proof.
  revert acc rest. induction order as [|e order IH]; intros acc rest; cbn.
  { exists []. rewrite app_nil_r. repeat split; try done; try constructor; set_solver. }
  change (orderStep (acc, rest) e) with
    (if bool_decide (e ∈ rest) then ((acc ++ [e])%list, rest ∖ {[e]}) else (acc, rest)).
  case_bool_decide as He.
  - destruct (IH (acc ++ [e])%list (rest ∖ {[e]})) as (picked & -> & Hsub & Hnd & Hin & Hout).
    exists (e :: picked). rewrite <- app_assoc. split; [done|]. split; [by constructor|]. split.
    { constructor; [|done]. rewrite Hin. set_solver. }
    split; intros x; [rewrite elem_of_cons, Hin|rewrite Hout]; [|set_solver].
    destruct (decide (x = e)); set_solver.
  - destruct (IH acc rest) as (picked & -> & Hsub & Hnd & Hin & Hout).
    exists picked. split; [done|]. split; [by constructor|]. split; [done|].
    split; intros x; [rewrite Hin|rewrite Hout]; set_solver.
Qed.

(** ** Lemmas: routing *)

Lemma hasEmptyKey_lookup {A} (m : gmap string A) k a :
  hasEmptyKey m = false -> m !! k = Some a -> k <> "".
Proof. unfold hasEmptyKey. intros H%bool_decide_eq_false Hk ->. eauto. Qed.

Lemma elem_of_keys {A} (m : gmap string A) k : k ∈ (map_to_list m).*1 <-> is_Some (m !! k).
Proof.
  split.
  - intros ([k' a] & -> & H%elem_of_map_to_list)%list_elem_of_fmap. eauto.
  - intros [a H]. apply list_elem_of_fmap. exists (k, a). split; [done|].
    by apply elem_of_map_to_list.
Qed.

Lemma checkOrder_ok m seen order seen' :
  checkOrder m seen order = Ok seen' ->
  seen' = list_to_set order ∪ seen /\ NoDup order /\ (forall x, x ∈ order -> x ∉ seen) /\
  (forall x, x ∈ order -> is_Some (m !! x)).
Proof.
  revert seen. induction order as [|d order IH]; intros seen; cbn.
  { intros [= <-]. repeat split; try constructor; set_solver. }
  destruct (d == ""); [done|]. case_bool_decide as Hs; [done|].
  destruct (m !! d) as [t|] eqn:Hd; [|done].
  intros (-> & Hnd & Hdis & Hm)%IH. split; [set_solver|]. split; [constructor; set_solver|].
  split; intros x [->|Hx]%elem_of_cons; set_solver.
Qed.

Lemma checkOrder_total m seen order :
  "" ∉ order -> NoDup order -> (forall x, x ∈ order -> (x ∉ seen) /\ is_Some (m !! x)) ->
  exists seen', checkOrder m seen order = Ok seen'.
Proof.
  revert seen. induction order as [|d order IH]; intros seen He Hnd Hx; cbn; [eauto|].
  apply NoDup_cons in Hnd as [Hd Hnd].
  destruct (Hx d) as [Hs [t Ht]]; [set_solver|].
  rewrite (proj2 (eqb_false_iff d "")) by set_solver.
  rewrite bool_decide_eq_false_2 by done. rewrite Ht. apply IH; [set_solver|done|].
  intros x Hin. split; [|apply Hx; set_solver]. specialize (Hx x ltac:(set_solver)).
  assert (x <> d) by set_solver. set_solver.
Qed.

(** What deployment_order must be, in one condition. *)
Lemma validateDeploymentOrder_spec m order :
  validateDeploymentOrder m order = Ok tt <->
  m !! "" = None /\ order ≡ₚ (map_to_list m).*1.
Proof.
  unfold validateDeploymentOrder, hasEmptyKey. split.
  - case_bool_decide as He; [done|]. apply eq_None_not_Some in He.
    destruct (checkOrder m ∅ order) as [seen|] eqn:E; [|done].
    apply checkOrder_ok in E as (-> & Hnd & _ & Hm).
    destruct (filter _ _) eqn:F; [|done]. intros _. split; [done|].
    apply NoDup_Permutation; [done|apply NoDup_fst_map_to_list|]. intros x.
    rewrite elem_of_keys. split; [apply Hm|]. intros Hx. apply elem_of_keys in Hx.
    destruct (decide (x ∈ order)) as [|Hno]; [done|]. exfalso.
    assert (Hf : x ∈ filter (fun d => d ∉ list_to_set (C := gset string) order ∪ ∅)
                   ((map_to_list m).*1)).
    { apply list_elem_of_filter. set_solver. }
    rewrite F in Hf. set_solver.
  - intros [He Hp]. rewrite bool_decide_eq_false_2 by (rewrite He; by intros [? ?]).
    assert (Hx : forall x, x ∈ order <-> is_Some (m !! x)) by (intros x; by rewrite Hp, elem_of_keys).
    destruct (checkOrder_total m ∅ order) as [seen E].
    + rewrite Hx, He. by intros [? ?].
    + rewrite Hp. apply NoDup_fst_map_to_list.
    + intros x Hin. split; [set_solver|]. by apply Hx.
    + rewrite E. apply checkOrder_ok in E as (-> & _).
      destruct (filter _ _) as [|d ds] eqn:F; [done|]. exfalso.
      assert (Hf : d ∈ filter (fun d => d ∉ list_to_set (C := gset string) order ∪ ∅)
                     ((map_to_list m).*1)) by (rewrite F; set_solver).
      apply list_elem_of_filter in Hf as [Hno Hd]. apply elem_of_keys, Hx in Hd. set_solver.
Qed.

Lemma orderedDeploymentKeys_ok m order keys :
  orderedDeploymentKeys m order = Ok keys ->
  keys ≡ₚ (map_to_list m).*1 /\ m !! "" = None /\
  keys = match order with [] => Sort ((map_to_list m).*1) | _ => order end.
Proof.
  unfold orderedDeploymentKeys, hasEmptyKey. case_bool_decide as He; [done|].
  apply eq_None_not_Some in He. destruct order as [|d order].
  - intros [= <-]. split; [apply Sort_perm|done].
  - destruct (validateDeploymentOrder m (d :: order)) as [[]|] eqn:E; [|done]. intros [= <-].
    by apply validateDeploymentOrder_spec in E as [_ ?].
Qed.

(** The targets of the deployments, one for each key and in their order. *)
Definition targetOf (ty : string) (m : gmap string DeploymentTarget) (d : string) : ExecutionTarget :=
  {| xt_DatabaseType := ty; xt_Deployment := d;
     xt_Target := match m !! d with Some dt => dt_Target dt | None => "" end |}.

Lemma deploymentTargets_spec ty m keys :
  deploymentTargets ty m keys =
    if forallb (fun d => xt_Target (targetOf ty m d) != "") keys
    then Ok (map (targetOf ty m) keys) else Err MissingTarget.
Proof.
  induction keys as [|d keys IH]; [done|]. cbn. destruct (_ == ""); [done|]. cbn.
  rewrite IH. by destruct (forallb _ keys).
Qed.

(** ** Properties *)

(** The direct membership test of the command path agrees with the sorted list
    it stands for. *)
Theorem IsEnvironmentKnown_agrees c env :
  IsEnvironmentKnown c env = true <-> env ∈ KnownEnvironments c.
Proof.
  destruct c as [c|]; cbn; [|set_solver].
  rewrite elem_of_Sort, elem_of_elements, !elem_of_addNames, elem_of_databaseEnvironmentNames.
  destruct (env == "") eqn:E.
  { apply eqb_true_iff in E. split; [done|]. intros [[[?|[_ ?]]|[_ ?]]|[_ ?]]; set_solver. }
  apply eqb_false_iff in E. destruct (oneOf env (c_AllowedEnvironments c) || _) eqn:Ho.
  - apply orb_true_iff in Ho. rewrite !oneOf_elem in Ho. split; [|done]. intros _. left.
    destruct Ho as [?|?]; [left|]; right; done.
  - apply orb_false_iff in Ho as [H1 H2]. rewrite <- not_true_iff_false, oneOf_elem in H1, H2.
    rewrite existsb_elem. split.
    + intros (db & ([n db'] & -> & Hdb)%list_elem_of_fmap & He%bool_decide_eq_true).
      apply elem_of_map_to_list in Hdb. right. cbn in *. eauto 6.
    + intros [[[?|[? _]]|[? _]]|[(n & db & Hdb & He) _]]; try set_solver.
      exists db. split; [|by apply bool_decide_eq_true].
      apply list_elem_of_fmap. exists (n, db). split; [done|]. by apply elem_of_map_to_list.
Qed.

(** The environments of a database in promotion order.  The answer lists every
    enabled environment exactly once: first those of the promotion order, in that
    order, then the others sorted. *)
Theorem OrderedEnvironments_spec c enabled :
  exists known others : list string, (OrderedEnvironments c enabled = (known ++ others)%list) /\
    (known `sublist_of` PromotionEnvironmentOrder c) /\ Sorted strle others /\
    (forall x, x ∈ known -> x ∈ PromotionEnvironmentOrder c) /\
    (forall x, x ∈ others -> x ∉ PromotionEnvironmentOrder c) /\
    NoDup (OrderedEnvironments c enabled) /\
    (forall x, x ∈ OrderedEnvironments c enabled <-> x ∈ enabled /\ x <> "").
Proof.
  unfold OrderedEnvironments.
  destruct (orderLoop (PromotionEnvironmentOrder c) [] (addNames ∅ enabled))
    as (picked & Hp & Hsub & Hnd & Hin & Hout).
  destruct (fold_left _ _ _) as [ordered rest] eqn:E. cbn in Hp, Hout. subst ordered.
  exists picked, (Sort (elements rest)). split; [done|]. split; [done|].
  split; [apply Sort_sorted|].
  assert (Ho : forall x, x ∈ Sort (elements rest) <-> (x ∈ enabled /\ x <> "") /\ x ∉ PromotionEnvironmentOrder c).
  { intros x. rewrite elem_of_Sort, elem_of_elements, Hout, elem_of_addNames. set_solver. }
  assert (Hk : forall x, x ∈ picked <-> (x ∈ enabled /\ x <> "") /\ x ∈ PromotionEnvironmentOrder c).
  { intros x. rewrite Hin, elem_of_addNames. set_solver. }
  split; [intros x; rewrite Hk; tauto|]. split; [intros x; rewrite Ho; tauto|]. split.
  - apply NoDup_app. split; [done|]. split; [intros x; rewrite Hk, Ho; tauto|].
    apply NoDup_Sort, NoDup_elements.
  - intros x. rewrite elem_of_app, Hk, Ho. destruct (decide (x ∈ PromotionEnvironmentOrder c)); tauto.
Qed.

(** The rollout order of a multi-deployment environment.  When resolution
    succeeds it returns one target for each deployment of the map and no other, in
    deployment_order when that is set (which then lists every deployment exactly
    once) and alphabetically otherwise, every target and deployment named. *)
Theorem ResolveDatabaseTargets_rollout_order c database environment dbc ec m targets
    (Hdb : c_Databases c !! database = Some dbc)
    (Hec : db_Environments dbc !! environment = Some ec)
    (Hm : ec_Deployments ec = Some m)
    (Hlocal : HasLocalDSN ec = false)
    (Hok : ResolveDatabaseTargets (Some c) database environment = Ok targets) :
  map xt_Deployment targets =
    match ec_DeploymentOrder ec with [] => Sort ((map_to_list m).*1) | order => order end /\
  map xt_Deployment targets ≡ₚ (map_to_list m).*1 /\
  Forall (fun t => m !! xt_Deployment t = Some {| dt_Target := xt_Target t |} /\
                   xt_Deployment t <> "" /\ xt_Target t <> "" /\
                   xt_DatabaseType t = db_Type dbc) targets.
Proof.
  cbn in Hok. unfold Database in Hok. rewrite Hdb, Hec, Hlocal, Hm in Hok.
  destruct (emptyMap m); [done|].
  destruct (orderedDeploymentKeys m (ec_DeploymentOrder ec)) as [keys|] eqn:Ek; [|done].
  apply orderedDeploymentKeys_ok in Ek as (Hp & He & Hkeys).
  rewrite deploymentTargets_spec in Hok. destruct (forallb _ keys) eqn:Hf; [|done].
  assert (targets = map (targetOf (db_Type dbc) m) keys) as -> by congruence.
  assert (Hmap : map xt_Deployment (map (targetOf (db_Type dbc) m) keys) = keys).
  { rewrite map_map. apply map_id. }
  rewrite Hmap. split; [by rewrite Hkeys; destruct (ec_DeploymentOrder ec)|]. split; [done|].
  apply Forall_forall. intros t (d & -> & Hd)%list_elem_of_fmap.
  apply (proj1 (forallb_elem _ _) Hf) in Hd as Ht. cbn in Ht |- *.
  rewrite Hp in Hd. apply elem_of_keys in Hd as [dt Hdt]. rewrite Hdt in Ht |- *.
  apply negb_true_iff, eqb_false_iff in Ht. split; [by destruct dt|].
  split; [|done]. intros ->. by rewrite He in Hdt.
Qed.
