(* ===== verification/Policy.v ===== *)
(** * Source, aggregate and actor policies (pkg/api)

    source_policy.go decides which repository and directory may change a database,
    aggregate_config.go which tenants a pull request must wait for, and
    actor_authorization.go who may run commands; config.go derives from the source
    policy the directories to probe. *)

From S2P Require Import Prelude GoStrings Config.

Local Open Scope string_scope.
Local Open Scope Z_scope.

(** ** Schema paths *)

Inductive PathErr := PathEmpty | PathNotRelative | PathEscapes.

#[global] Instance PathErr_eq_dec : EqDecision PathErr.
Proof. solve_decision. Defined.

Definition normalizeSchemaPath (value : string) : result PathErr string :=
  let value := TrimSpace value in
  if value == "" then Err PathEmpty
  else if value == "*" then Ok "*"
  else if HasPrefix value "/" then Err PathNotRelative
  else
    let cleaned := Clean value in
    if (cleaned == "..") || HasPrefix cleaned "../" then Err PathEscapes
    else Ok cleaned.

(** The loop over the allowed directories: an invalid one refuses the path. *)
Fixpoint underAllowedDir (allowedDirs : list string) (cleanSchemaPath : string) : bool :=
  match allowedDirs with
  | [] => false
  | allowedDir :: rest =>
      match normalizeSchemaPath allowedDir with
      | Err _ => false
      | Ok cleanAllowedDir =>
          if cleanAllowedDir == "*" then true
          else if cleanSchemaPath == cleanAllowedDir then true
          else if (cleanAllowedDir != ".") && HasPrefix cleanSchemaPath (cleanAllowedDir ++ "/")
          then true
          else underAllowedDir rest cleanSchemaPath
      end
  end.

Definition schemaPathAllowed (allowedDirs : list string) (schemaPath : string) : bool :=
  match normalizeSchemaPath schemaPath with
  | Err _ => false
  | Ok cleanSchemaPath => underAllowedDir allowedDirs cleanSchemaPath
  end.

(** ** Repositories *)

Definition repoAllowed (allowedRepos : list string) (repo : string) : bool :=
  existsb (fun allowed => (TrimSpace allowed == "*") || (TrimSpace allowed == TrimSpace repo))
    allowedRepos.

Definition noneConfigured (l : list string) : bool := match l with [] => true | _ => false end.

Definition databaseAllowsRepo (dbConfig : DatabaseConfig) (repo : string) : bool :=
  noneConfigured (db_AllowedRepos dbConfig) || repoAllowed (db_AllowedRepos dbConfig) repo.

Definition hasSourcePolicy (d : DatabaseConfig) : bool :=
  negb (noneConfigured (db_AllowedRepos d)) || negb (noneConfigured (db_AllowedDirs d)).

(** [PlanSourcePolicyRequest] *)
Record PlanSourcePolicyRequest := {
  ps_Database : string;
  ps_Repository : string;
  ps_PullRequest : Z;
  ps_SchemaPath : string;
}.

(** The [Reason] of a [SourcePolicyError]. *)
Inductive SourcePolicyReason :=
| MissingServerConfig | MissingDatabaseConfig | MissingRepository | MissingPullRequest
| MissingSchemaPath | UnauthorizedRepo | UnauthorizedSchemaDir.

#[global] Instance SourcePolicyReason_eq_dec : EqDecision SourcePolicyReason.
Proof. solve_decision. Defined.

Definition AuthorizePlanSource (c : option ServerConfig) (req : PlanSourcePolicyRequest)
    : result SourcePolicyReason unit :=
  match c with
  | None => Err MissingServerConfig
  | Some c =>
  match Database c (ps_Database req) with
  | None => Err MissingDatabaseConfig
  | Some dbConfig =>
      if negb (hasSourcePolicy dbConfig) then Ok tt
      else if TrimSpace (ps_Repository req) == "" then Err MissingRepository
      else if ps_PullRequest req <=? 0 then Err MissingPullRequest
      else if TrimSpace (ps_SchemaPath req) == "" then Err MissingSchemaPath
      else if negb (noneConfigured (db_AllowedRepos dbConfig)) &&
              negb (repoAllowed (db_AllowedRepos dbConfig) (ps_Repository req))
      then Err UnauthorizedRepo
      else if negb (noneConfigured (db_AllowedDirs dbConfig)) &&
              negb (schemaPathAllowed (db_AllowedDirs dbConfig) (ps_SchemaPath req))
      then Err UnauthorizedSchemaDir
      else Ok tt
  end end.

Definition databasesOf (c : ServerConfig) : list (string * DatabaseConfig) :=
  map_to_list (c_Databases c).

Definition RepoHasSchemaDirAllowlist (c : option ServerConfig) (repo : string) : bool :=
  match c with
  | None => false
  | Some c =>
      existsb (fun '(_, db) => negb (noneConfigured (db_AllowedDirs db)) && databaseAllowsRepo db repo)
        (databasesOf c)
  end.

Definition ownsPath (repo schemaPath : string) (db : DatabaseConfig) : bool :=
  negb (noneConfigured (db_AllowedDirs db)) && databaseAllowsRepo db repo &&
  schemaPathAllowed (db_AllowedDirs db) schemaPath.

Definition SchemaPathAllowedForRepo (c : option ServerConfig) (repo schemaPath : string) : bool :=
  match c with
  | None => false
  | Some c => existsb (fun '(_, db) => ownsPath repo schemaPath db) (databasesOf c)
  end.

Definition DatabaseForSchemaPath (c : option ServerConfig) (repo schemaPath : string)
    : option string :=
  match c with
  | None => None
  | Some c => fst <$> List.find (fun '(_, db) => ownsPath repo schemaPath db) (databasesOf c)
  end.

(** ** Directories to probe *)

(** The loop over one database's allowed directories: the directories so far, what
    was seen, and whether they are exhaustive. *)
Definition hintStep (acc : list string * gset string * bool) (dir : string)
    : list string * gset string * bool :=
  let '(dirs, seen, exhaustive) := acc in
  match normalizeSchemaPath dir with
  | Err _ => (dirs, seen, false)
  | Ok normalized =>
      if (normalized == "*") || (normalized == ".") then (dirs, seen, false)
      else if bool_decide (normalized ∈ seen) then acc
      else ((dirs ++ [normalized])%list, {[normalized]} ∪ seen, exhaustive)
  end.

Definition SchemaDirHintsForDatabase (c : ServerConfig) (repo database : string)
    : list string * bool :=
  match c_Databases c !! database with
  | None => ([], true)
  | Some db =>
      if negb (noneConfigured (db_AllowedRepos db)) && negb (repoAllowed (db_AllowedRepos db) repo)
      then ([], true)
      else if noneConfigured (db_AllowedDirs db) then ([], false)
      else
        let '(dirs, _, exhaustive) := fold_left hintStep (db_AllowedDirs db) ([], ∅, true) in
        (Sort dirs, exhaustive)
  end.

Definition repoHintStep (repo : string) (acc : list string * gset string * bool)
    (db : DatabaseConfig) : list string * gset string * bool :=
  let '(dirs, seen, exhaustive) := acc in
  if negb (noneConfigured (db_AllowedRepos db)) && negb (repoAllowed (db_AllowedRepos db) repo)
  then acc
  else if noneConfigured (db_AllowedDirs db) then (dirs, seen, false)
  else fold_left hintStep (db_AllowedDirs db) acc.

Definition SchemaDirHintsForRepo (c : ServerConfig) (repo : string) : list string * bool :=
  let '(dirs, _, exhaustive) :=
    fold_left (repoHintStep repo) ((databasesOf c).*2) ([], ∅, true) in
  (Sort dirs, exhaustive).

(** ** Aggregate roles *)

Definition AggregateRoleLeader := "leader".
Definition AggregateRoleParticipant := "participant".

Definition isLeader (a : option AggregateConfig) : bool :=
  match a with None => false | Some a => ag_Role a == AggregateRoleLeader end.

Definition AggregateRoleForRepo (c : option ServerConfig) (repo : string) : string :=
  match c with
  | None => ""
  | Some c =>
      match c_Repos c !! repo with
      | None => ""
      | Some repoConfig => match rc_Aggregate repoConfig with None => "" | Some a => ag_Role a end
      end
  end.

Definition IsAggregateLeaderForRepo (c : option ServerConfig) (repo : string) : bool :=
  AggregateRoleForRepo c repo == AggregateRoleLeader.

Definition anyPathCovered (dirs changedFiles : list string) : bool :=
  existsb (schemaPathAllowed dirs) changedFiles.

Definition ExpectedParticipantChecksForPR (c : option ServerConfig) (repo : string)
    (changedFiles : list string) : list ExpectedTenant :=
  match c with
  | None => []
  | Some c =>
      match c_Repos c !! repo with
      | None => []
      | Some repoConfig =>
          match rc_Aggregate repoConfig with
          | Some a =>
              if ag_Role a == AggregateRoleLeader
              then List.filter (fun tenant => anyPathCovered (et_Paths tenant) changedFiles)
                     (ag_ExpectedTenants a)
              else []
          | None => []
          end
      end
  end.

Definition ExpectedTenantsForPR (c : option ServerConfig) (repo : string)
    (changedFiles : list string) : list string :=
  map et_Tenant (ExpectedParticipantChecksForPR c repo changedFiles).

(** ** Actors *)

Definition PRCommandAuthorizationEnabled (c : option ServerConfig) : bool :=
  match c with None => false | Some c => pa_Enabled (c_PRCommandAuthorization c) end.

Definition ReviewPolicyEnabled (c : option ServerConfig) : bool :=
  match c with None => false | Some c => rp_Enabled (c_ReviewPolicy c) end.

Definition ReviewPolicyIncludesDatabaseOperators (c : option ServerConfig) : bool :=
  match c with
  | None => true
  | Some c => default true (rp_IncludeDatabaseOperators (c_ReviewPolicy c))
  end.

Definition ParseGitHubTeamPrincipal (value : string) : option (string * string) :=
  if TrimSpace value != value then None else
  match splitOn "/" value with
  | [org; slug] => if (org == "") || (slug == "") then None else Some (org, slug)
  | _ => None
  end.

(** [add]: the display form of each item not listed before in any spelling. *)
Definition addPrincipal (acc : list string * gset string) (item : string)
    : list string * gset string :=
  let display := TrimPrefix (TrimSpace item) "@" in
  if (display == "") || bool_decide (ToLower display ∈ acc.2) then acc
  else ((acc.1 ++ [display])%list, {[ToLower display]} ∪ acc.2).

Definition PRCommandAuthorizedPrincipals (c : option ServerConfig) (repo database : string)
    : list string :=
  match c with
  | None => []
  | Some c =>
      let '(repoAdminTeams, repoAdminUsers) := RepoAdmins c repo in
      let operators := match c_Databases c !! database with
                       | Some db => (db_OperatorTeams db ++ db_OperatorUsers db)%list
                       | None => []
                       end in
      (fold_left addPrincipal
        (pa_AdminTeams (c_PRCommandAuthorization c) ++ pa_AdminUsers (c_PRCommandAuthorization c) ++
         repoAdminTeams ++ repoAdminUsers ++ operators)%list ([], ∅)).1
  end.

(** ** Lemmas: cleaned paths *)

(** What [Clean] keeps, last element first: ordinary elements above a run of [..]. *)
Definition pathElem (e : string) : Prop :=
  e <> "" /\ e <> "." /\ e <> ".." /\ containsByte "/" e = false.

Definition keptShape (kept : list string) : Prop :=
  exists elems n, kept = (elems ++ replicate n "..")%list /\ Forall pathElem elems.

Lemma cleanStep_shape kept e :
  containsByte "/" e = false -> keptShape kept -> keptShape (cleanStep false kept e).
Proof.
  intros Hc (elems & n & -> & Hf). unfold cleanStep.
  destruct ((e == "") || (e == ".")) eqn:E1; [by exists elems, n|].
  apply orb_false_iff in E1 as [Ee Ed]. apply eqb_false_iff in Ee, Ed.
  destruct (e == "..") eqn:E2.
  - destruct elems as [|x elems].
    + destruct n as [|n]; [by exists [], 1%nat|]. by exists [], (S (S n)).
    + apply Forall_cons in Hf as [(_ & _ & Hx & _) Hf]. cbn.
      rewrite (proj2 (eqb_false_iff _ _) Hx). by exists elems, n.
  - apply eqb_false_iff in E2. exists (e :: elems), n. split; [done|]. by constructor.
Qed.

Lemma cleanFold_shape pieces kept :
  Forall (fun e => containsByte "/" e = false) pieces -> keptShape kept ->
  keptShape (fold_left (cleanStep false) pieces kept).
Proof.
  revert kept. induction pieces as [|e pieces IH]; intros kept Hf Hk; [done|].
  apply Forall_cons in Hf as [He Hf]. by apply IH; [|apply cleanStep_shape].
Qed.

Lemma Forall_splitOn s : Forall (fun e => containsByte "/" e = false) (splitOn "/" s).
Proof. apply Forall_forall. intros w. apply splitOn_pieces. Qed.

Lemma HasPrefix_app p s : HasPrefix (p ++ s) p = true.
Proof.
  unfold HasPrefix. assert (strip_prefix p (p ++ s) = Some s) as ->; [|done].
  induction p as [|c p IH]; [done|]. rewrite sapp_cons. cbn. by rewrite Ascii.eqb_refl.
Qed.

Lemma HasPrefix_split s p : HasPrefix s p = true <-> exists r, s = p ++ r.
Proof.
  split; [|intros [r ->]; apply HasPrefix_app].
  unfold HasPrefix. revert s. induction p as [|c p IH]; intros s; [by exists s|].
  destruct s as [|d s]; [done|]. cbn. destruct (Ascii.eqb_spec c d) as [->|]; [|done].
  intros [r ->]%IH. exists r. by rewrite sapp_cons.
Qed.

Lemma rev_replicate {A} n (x : A) : rev (replicate n x) = replicate n x.
Proof. rewrite rev_alt. apply reverse_replicate. Qed.

(** A repo-relative path cleans to [.] or to ordinary elements, possibly below a
    run of [..]. *)
Lemma Clean_shape v :
  v <> "" -> HasPrefix v "/" = false ->
  Clean v = "." \/
  exists elems n, (elems ++ replicate n "..")%list <> [] /\ Forall pathElem elems /\
    Clean v = joinWith "/" (replicate n ".." ++ rev elems).
Proof.
  intros Hv Hr. unfold Clean. rewrite (proj2 (eqb_false_iff _ _) Hv), Hr.
  destruct (cleanFold_shape (splitOn "/" v) []) as (elems & n & -> & Hf).
  { apply Forall_splitOn. }
  { by exists [], 0%nat. }
  rewrite rev_app_distr, rev_replicate.
  destruct (joinWith _ _ == "") eqn:E; [by left|]. right. exists elems, n.
  split; [|done]. intros [-> Hn]%app_eq_nil. by destruct n.
Qed.

(** ** Lemmas: normalized paths *)

(** The elements of a normalized path. *)
Definition components (p : string) : list string := splitOn "/" p.

(** A normalized path is [.] or a nonempty list of ordinary elements: it neither
    starts at the root nor leaves the repository. *)
Lemma joinWith_dotdot l : l <> [] -> joinWith "/" (".." :: l) = "../" ++ joinWith "/" l.
Proof. by destruct l. Qed.

Lemma normalizeSchemaPath_shape v p :
  normalizeSchemaPath v = Ok p ->
  p = "." \/ (components p <> [] /\ Forall pathElem (components p) /\ p = joinWith "/" (components p)).
Proof.
  unfold normalizeSchemaPath. destruct (TrimSpace v == "") eqn:E0; [done|].
  destruct (TrimSpace v == "*"); [intros [= <-]; right; split; [done|split; [|done]]|].
  { constructor; [|constructor]. repeat split; done. }
  destruct (HasPrefix (TrimSpace v) "/") eqn:Er; [done|]. apply eqb_false_iff in E0.
  destruct (Clean_shape _ E0 Er) as [->|(elems & n & Hne & Hf & ->)]; [intros [= <-]; by left|].
  destruct ((_ == "..") || _) eqn:Esc; [done|]. intros [= <-]. right.
  apply orb_false_iff in Esc as [Ed Ep]. apply eqb_false_iff in Ed.
  destruct n as [|n].
  - cbn in *. rewrite app_nil_r in Hne.
    assert (Hrev : Forall pathElem (rev elems)) by (by apply Forall_rev).
    assert (Hne' : rev elems <> []).
    { intros H. apply (f_equal (@rev _)) in H. by rewrite rev_involutive in H. }
    unfold components. rewrite split_join; [done|done|].
    intros e He. by eapply Forall_forall in Hrev as (_ & _ & _ & ?).
  - exfalso. cbn [replicate app] in Ed, Ep.
    destruct (replicate n ".." ++ rev elems)%list as [|x l] eqn:El; [done|].
    rewrite joinWith_dotdot in Ep by done. by rewrite HasPrefix_app in Ep.
Qed.

Lemma splitOn_sep_app sep a s :
  splitOn sep (a ++ String sep s) = (splitOn sep a ++ splitOn sep s)%list.
Proof.
  induction a as [|c a IH].
  - rewrite sapp_nil. cbn. by rewrite Ascii.eqb_refl.
  - rewrite sapp_cons. cbn [splitOn]. destruct (Ascii.eqb c sep); [by rewrite IH|].
    rewrite IH. by destruct (splitOn sep a) as [|w ws] eqn:E; [by apply splitOn_nonempty in E|].
Qed.

Lemma joinWith_app sep l1 l2 :
  l1 <> [] -> l2 <> [] -> joinWith sep (l1 ++ l2) = joinWith sep l1 ++ sep ++ joinWith sep l2.
Proof.
  induction l1 as [|x l1 IH]; intros H1 H2; [done|].
  destruct l1 as [|y l1].
  - by destruct l2.
  - change (joinWith sep ((x :: y :: l1) ++ l2)%list)
      with (x ++ sep ++ joinWith sep ((y :: l1) ++ l2)%list).
    rewrite IH by done. change (joinWith sep (x :: y :: l1)) with (x ++ sep ++ joinWith sep (y :: l1)).
    by rewrite !sapp_assoc.
Qed.

Lemma components_nonempty p : components p <> [].
Proof. apply splitOn_nonempty. Qed.

Lemma components_join p : joinWith "/" (components p) = p.
Proof. apply join_split. Qed.

(** A path lies below a directory when its elements continue the directory's. *)
Lemma below_dir cd p :
  (p == cd) || HasPrefix p (cd ++ "/") = true <-> components cd `prefix_of` components p.
Proof.
  rewrite orb_true_iff, eqb_true_iff, HasPrefix_split. split.
  - intros [->|[r ->]]; [done|]. rewrite sapp_assoc. unfold components.
    change ("/" ++ r) with (String "/" r). rewrite splitOn_sep_app. by eexists.
  - intros [l Hl]. destruct l as [|x l].
    + left. rewrite app_nil_r in Hl. by rewrite <- (components_join p), Hl, components_join.
    + right. exists (joinWith "/" (x :: l)). rewrite <- (components_join p), Hl.
      rewrite joinWith_app by (try done; apply components_nonempty).
      by rewrite components_join, sapp_assoc.
Qed.

(** What one allowed directory lets through. *)
Definition dirAllows (cd p : string) : Prop :=
  cd = "*" \/ p = cd \/ (cd <> "." /\ components cd `prefix_of` components p).

Lemma dirAllows_spec cd p :
  (cd == "*") || (p == cd) || ((cd != ".") && HasPrefix p (cd ++ "/")) = true <-> dirAllows cd p.
Proof.
  unfold dirAllows. rewrite <- below_dir, !orb_true_iff, andb_true_iff, negb_true_iff.
  rewrite !eqb_true_iff, eqb_false_iff. tauto.
Qed.

Lemma underAllowedDir_spec dirs p :
  (forall d, d ∈ dirs -> exists cd, normalizeSchemaPath d = Ok cd) ->
  underAllowedDir dirs p = true <->
  exists d cd, d ∈ dirs /\ normalizeSchemaPath d = Ok cd /\ dirAllows cd p.
Proof.
  induction dirs as [|d dirs IH]; intros Hd; [split; [done|set_solver]|].
  destruct (Hd d) as [cd Hcd]; [by left|]. cbn [underAllowedDir]. rewrite Hcd.
  assert (Hstep : (if cd == "*" then true else if p == cd then true
                   else if (cd != ".") && HasPrefix p (cd ++ "/") then true
                   else underAllowedDir dirs p) =
                  (cd == "*") || (p == cd) || ((cd != ".") && HasPrefix p (cd ++ "/")) ||
                  underAllowedDir dirs p).
  { by destruct (cd == "*"), (p == cd), (_ && _). }
  rewrite Hstep, orb_true_iff, dirAllows_spec, IH by (intros; apply Hd; by right).
  setoid_rewrite elem_of_cons. split.
  - intros [?|(d' & cd' & ? & ? & ?)]; [exists d, cd|exists d', cd']; auto.
  - intros (d' & cd' & [->|?] & H1 & H2); [left; congruence|right; eauto].
Qed.

(** ** Lemmas: probe directories *)

(** The loop keeps the directories it has and, while it stays exhaustive, adds the
    normal form of every allowed directory, none of them a wildcard or the root. *)
Definition hinted (dirs : list string) (allowed : list string) : Prop :=
  forall d, d ∈ allowed -> exists cd, normalizeSchemaPath d = Ok cd /\ cd <> "*" /\ cd <> "." /\ cd ∈ dirs.

Definition seenAll (acc : list string * gset string * bool) : Prop :=
  forall x, x ∈ acc.1.2 -> x ∈ acc.1.1.

Lemma hintLoop allowed acc :
  seenAll acc ->
  let r := fold_left hintStep allowed acc in
  seenAll r /\ (forall x, x ∈ acc.1.1 -> x ∈ r.1.1) /\
  (r.2 = true -> acc.2 = true /\ hinted r.1.1 allowed).
Proof.
  revert acc. induction allowed as [|d allowed IH]; intros acc Hs; cbn.
  { split; [done|]. split; [done|]. intros H. split; [done|]. intros x. set_solver. }
  assert (Hstep : seenAll (hintStep acc d) /\ (forall x, x ∈ acc.1.1 -> x ∈ (hintStep acc d).1.1) /\
    ((hintStep acc d).2 = true -> acc.2 = true /\ hinted (hintStep acc d).1.1 [d])).
  { destruct acc as [[dirs seen] ex]. unfold hintStep.
    destruct (normalizeSchemaPath d) as [cd|] eqn:Hd; [|split; [done|by split]].
    destruct ((cd == "*") || (cd == ".")) eqn:E; [split; [done|by split]|].
    apply orb_false_iff in E as [E1 E2]. apply eqb_false_iff in E1, E2.
    case_bool_decide as Hin; cbn.
    - split; [done|]. split; [done|]. intros ->. split; [done|]. intros x Hx.
      apply list_elem_of_singleton in Hx as ->. exists cd. auto using Hs.
    - split; [intros x; cbn; specialize (Hs x); cbn in Hs; set_solver|]. split; [set_solver|].
      intros ->. split; [done|]. intros x Hx. apply list_elem_of_singleton in Hx as ->.
      exists cd. set_solver. }
  destruct Hstep as (Hs1 & Hm1 & Hx1). destruct (IH _ Hs1) as (Hs2 & Hm2 & Hx2).
  split; [done|]. split; [auto|]. intros Hr. destruct (Hx2 Hr) as [He2 Hh2].
  destruct (Hx1 He2) as [He1 Hh1]. split; [done|]. intros x [->|Hx]%elem_of_cons; [|auto].
  destruct (Hh1 d) as (cd & ? & ? & ? & ?); [by left|]. exists cd. auto.
Qed.

(** Hinted directories lie above every path the database accepts. *)
Lemma hinted_covers dirs allowed path :
  hinted dirs allowed -> schemaPathAllowed allowed path = true ->
  exists p d, normalizeSchemaPath path = Ok p /\ d ∈ dirs /\ components d `prefix_of` components p.
Proof.
  intros Hh. unfold schemaPathAllowed. destruct (normalizeSchemaPath path) as [p|]; [|done].
  rewrite underAllowedDir_spec by (intros d Hd; destruct (Hh d Hd) as (cd & ? & _); eauto).
  intros (d & cd & Hd & Hcd & Ha). destruct (Hh d Hd) as (cd' & Hcd' & Hw & Hr & Hin).
  rewrite Hcd in Hcd'. injection Hcd' as <-. exists p, cd. split; [done|]. split; [done|].
  destruct Ha as [?|[->|[_ ?]]]; done.
Qed.

Lemma repoHintLoop repo dbs acc :
  seenAll acc ->
  let r := fold_left (repoHintStep repo) dbs acc in
  seenAll r /\ (forall x, x ∈ acc.1.1 -> x ∈ r.1.1) /\
  (r.2 = true -> acc.2 = true /\
     forall db, db ∈ dbs -> databaseAllowsRepo db repo = true -> hinted r.1.1 (db_AllowedDirs db)).
Proof.
  revert acc. induction dbs as [|db dbs IH]; intros acc Hs; cbn.
  { split; [done|]. split; [done|]. intros H. split; [done|]. intros x. set_solver. }
  assert (Hstep : seenAll (repoHintStep repo acc db) /\
    (forall x, x ∈ acc.1.1 -> x ∈ (repoHintStep repo acc db).1.1) /\
    ((repoHintStep repo acc db).2 = true -> acc.2 = true /\
       (databaseAllowsRepo db repo = true ->
        hinted (repoHintStep repo acc db).1.1 (db_AllowedDirs db)))).
  { unfold repoHintStep, databaseAllowsRepo. destruct acc as [[dirs seen] ex].
    rewrite <- negb_orb. destruct (noneConfigured (db_AllowedRepos db) || _); cbn [negb].
    - destruct (noneConfigured (db_AllowedDirs db)); [split; [done|by split]|].
      destruct (hintLoop (db_AllowedDirs db) (dirs, seen, ex) Hs) as (? & ? & Hx).
      split; [done|]. split; [done|]. intros Hr. destruct (Hx Hr); done.
    - split; [done|]. by split. }
  destruct Hstep as (Hs1 & Hm1 & Hx1). destruct (IH _ Hs1) as (Hs2 & Hm2 & Hx2).
  split; [done|]. split; [auto|]. intros Hr. destruct (Hx2 Hr) as [He2 Hh2].
  destruct (Hx1 He2) as [He1 Hh1]. split; [done|].
  intros x [->|Hx]%elem_of_cons Ha; [|by apply Hh2].
  intros d Hd. destruct (Hh1 Ha d Hd) as (cd & ? & ? & ? & ?). exists cd. auto.
Qed.

(** ** Properties *)

(** Containment of schema paths.  With valid allowed directories, a path is
    accepted exactly when it normalizes and one of the directories is the wildcard,
    the path itself, or (the root apart) a prefix of it element by element; the
    accepted path has no [..] element, so no spelling of it leaves that directory. *)
Theorem schemaPathAllowed_contained dirs path
    (Hvalid : forall d, d ∈ dirs -> exists cd, normalizeSchemaPath d = Ok cd) :
  schemaPathAllowed dirs path = true <->
  exists p d cd, normalizeSchemaPath path = Ok p /\ d ∈ dirs /\ normalizeSchemaPath d = Ok cd /\
    dirAllows cd p /\ (".." ∉ components p) /\ HasPrefix p "/" = false.
Proof.
  unfold schemaPathAllowed. destruct (normalizeSchemaPath path) as [p|e] eqn:Hp.
  2:{ split; [done|]. intros (p & ? & ? & ? & _). done. }
  rewrite (underAllowedDir_spec dirs p Hvalid).
  assert (Hin : (".." ∉ components p) /\ HasPrefix p "/" = false).
  { destruct (normalizeSchemaPath_shape _ _ Hp) as [->|(Hne & Hf & Hj)].
    - split; [|done]. unfold components. cbn. set_solver.
    - split.
      + intros H. by eapply Forall_forall in Hf as (_ & _ & ? & _); [|exact H].
      + destruct (HasPrefix p "/") eqn:E; [|done]. apply HasPrefix_split in E as [r ->].
        change ("/" ++ r) with (String "/" r) in Hf. unfold components in Hf. cbn in Hf.
        by apply Forall_cons in Hf as [(? & _) _]. }
  split.
  - intros (d & cd & Hd & Hcd & Ha). exists p, d, cd. tauto.
  - intros (p' & d & cd & [= <-] & Hd & Hcd & Ha & _). eauto.
Qed.

(** Probing is complete when it says so.  If the hints of a repository are
    reported exhaustive, every path that any of its databases accepts lies in one
    of the returned directories, so a probe of those directories misses no
    configuration. *)
Theorem SchemaDirHints_complete c repo dirs path
    (Hhints : SchemaDirHintsForRepo c repo = (dirs, true))
    (Hpath : SchemaPathAllowedForRepo (Some c) repo path = true) :
  exists p d, normalizeSchemaPath path = Ok p /\ d ∈ dirs /\ components d `prefix_of` components p.
Proof.
  unfold SchemaDirHintsForRepo in Hhints.
  destruct (repoHintLoop repo ((databasesOf c).*2) ([], ∅, true)) as (_ & _ & Hx); [by intros ?|].
  destruct (fold_left (repoHintStep repo) _ _) as [[ds seen] ex]. cbn in Hx.
  injection Hhints as <- ->. destruct (Hx eq_refl) as [_ Hall].
  apply existsb_elem in Hpath as ([name db] & Hdb & Ho). unfold ownsPath in Ho. reflect_guards.
  assert (Hh : hinted ds (db_AllowedDirs db)).
  { apply Hall; [|done]. apply list_elem_of_fmap. by exists (name, db). }
  destruct (hinted_covers _ _ _ Hh H0) as (p & d & ? & ? & ?).
  exists p, d. split; [done|]. split; [by apply elem_of_Sort|done].
Qed.

(** The root entry is no subtree.  Although allowed directories are documented
    to match themselves and their descendants, [.] accepts the repository root
    alone. *)
Theorem root_entry_allows_only_root path :
  schemaPathAllowed ["."] path = true <-> normalizeSchemaPath path = Ok ".".
Proof.
  unfold schemaPathAllowed. destruct (normalizeSchemaPath path) as [p|]; [|done].
  change (underAllowedDir ["."] p) with (if p == "." then true else false).
  destruct (p == ".") eqn:E; [apply eqb_true_iff in E as ->; done|].
  apply eqb_false_iff in E. split; [done|]. by intros [= ->].
Qed.

(** A detour through the parent stays in the directory; one out of it does not. *)
Lemma schemaPathAllowed_contained_witness :
  schemaPathAllowed ["schema/pay"] "schema/pay/x/../v2" = true /\
  schemaPathAllowed ["schema/pay"] "schema/pay/../other" <> true.
Proof.
  assert (Hv : forall d, d ∈ ["schema/pay"] -> exists cd, normalizeSchemaPath d = Ok cd).
  { intros d ->%list_elem_of_singleton. exists "schema/pay". reflexivity. }
  split.
  - apply (schemaPathAllowed_contained ["schema/pay"] "schema/pay/x/../v2" Hv).
    exists "schema/pay/v2", "schema/pay", "schema/pay".
    split; [reflexivity|]. split; [apply list_elem_of_here|]. split; [reflexivity|].
    split; [right; right; split; [congruence|exists ["v2"]; reflexivity]|].
    split; [|reflexivity]. vm_compute. set_solver.
  - vm_compute. congruence.
Defined.
