(* ===== verification/Validate.v ===== *)
(** * Validation of the configuration (ServerConfig.Validate of pkg/api/config.go)

    Every check of Validate and of the validators it calls, in the order of the
    code.  A Go [error] is [option string], [None] for nil; messages are shortened
    to their fixed text.  time.ParseDuration, url.Parse and net.ParseCIDR are
    parameters: the theorems hold whatever they accept. *)

From S2P Require Import Prelude GoStrings Store Config Policy.

Local Open Scope string_scope.
Local Open Scope Z_scope.

(** ** Errors in sequence *)

Abbreviation error := (option string).

(** [if err := e1; err != nil { return err }; e2] *)
Definition andThen (e1 e2 : error) : error := match e1 with Some m => Some m | None => e2 end.
Infix ";?" := andThen (at level 60, right associativity) : go_scope.

(** [if bad { return fmt.Errorf(msg) }] *)
Definition reject (bad : bool) (msg : string) : error := if bad then Some msg else None.

(** [for _, x := range l { if err := f(x); err != nil { return err } }] *)
Fixpoint each {A} (f : A -> error) (l : list A) : error :=
  match l with [] => None | x :: rest => f x ;? each f rest end.

Definition ofConfig {A} (r : result ConfigErr A) (msg : string) : error :=
  match r with Ok _ => None | Err _ => Some msg end.

(** [for _, x := range l] of a loop that also keeps the set of keys seen. *)
Fixpoint eachUnique {A} (check : A -> error) (key : A -> string) (msg : string)
    (seen : gset string) (l : list A) : error :=
  match l with
  | [] => None
  | x :: rest =>
      check x ;? reject (bool_decide (key x ∈ seen)) msg ;?
      eachUnique check key msg ({[key x]} ∪ seen) rest
  end.

Definition untrimmed (s : string) : bool := TrimSpace s != s.

(** ** Names, repositories, teams and users *)

Definition validateUniqueNames (names : list string) : error :=
  eachUnique (fun name => reject (name == "") "contains an empty value" ;?
                          reject (untrimmed name) "leading or trailing whitespace")
    (fun name => name) "contains duplicate value" ∅ names.

Definition validateAllowedRepos (repos : list string) : error :=
  eachUnique (fun repo => reject (TrimSpace repo == "") "contains an empty value" ;?
                          reject (untrimmed repo) "leading or trailing whitespace")
    TrimSpace "contains duplicate value" ∅ repos.

Definition validateGitHubTeamPrincipals (teams : list string) : error :=
  eachUnique (fun team => match ParseGitHubTeamPrincipal team with
                          | None => Some "contains invalid team"
                          | Some _ => None
                          end)
    ToLower "contains duplicate value" ∅ teams.

Definition validateGitHubUsers (users : list string) : error :=
  eachUnique (fun user => reject (TrimSpace user == "") "contains an empty value" ;?
                          reject (untrimmed user) "leading or trailing whitespace" ;?
                          reject (containsByte "/" user) "users must not contain /")
    ToLower "contains duplicate value" ∅ users.

Definition validatePRCommandAuthorization (config : PRCommandAuthorizationConfig) : error :=
  validateGitHubTeamPrincipals (pa_AdminTeams config) ;? validateGitHubUsers (pa_AdminUsers config).

Definition validateReviewPolicy (config : ReviewPolicyConfig) : error :=
  validateGitHubTeamPrincipals (rp_AdminTeams config) ;? validateGitHubUsers (rp_AdminUsers config).

Definition validateDatabaseActorAuthorization (db : DatabaseConfig) : error :=
  validateGitHubTeamPrincipals (db_OperatorTeams db) ;? validateGitHubUsers (db_OperatorUsers db).

Definition validateRepoActorAuthorization (repoConfig : RepoConfig) : error :=
  validateGitHubTeamPrincipals (rc_AdminTeams repoConfig) ;?
  validateGitHubUsers (rc_AdminUsers repoConfig).

(** The normal form of a directory, itself when it has none (it is refused then). *)
Definition normalDir (dir : string) : string :=
  match normalizeSchemaPath dir with Ok n => n | Err _ => dir end.

Definition invalidPath (p : string) : bool :=
  match normalizeSchemaPath p with Ok _ => false | Err _ => true end.

Definition validateDatabaseSourcePolicy (db : DatabaseConfig) : error :=
  validateAllowedRepos (db_AllowedRepos db) ;?
  eachUnique (fun dir => reject (invalidPath dir) "allowed_dirs contains invalid value")
    normalDir "allowed_dirs contains duplicate value" ∅ (db_AllowedDirs db).

(** ** Aggregate configuration *)

(** The loop over a leader's expected tenants. *)
Fixpoint validateTenants (seen : gset string) (tenants : list ExpectedTenant) : error :=
  match tenants with
  | [] => None
  | tenant :: rest =>
      let name := TrimSpace (et_Tenant tenant) in
      reject (name == "") "an entry with an empty tenant" ;?
      reject (bool_decide (name ∈ seen)) "contains duplicate tenant" ;?
      reject (TrimSpace (et_CheckName tenant) == "") "check_name is required" ;?
      reject (noneConfigured (et_Paths tenant)) "paths is empty" ;?
      each (fun p => reject (invalidPath p) "paths contains invalid value") (et_Paths tenant) ;?
      validateTenants ({[name]} ∪ seen) rest
  end.

Definition validateAggregateConfig (agg : option AggregateConfig) : error :=
  match agg with
  | None => None
  | Some agg =>
      reject (negb (oneOf (ag_Role agg) [AggregateRoleLeader; AggregateRoleParticipant]))
        "aggregate.role is required or invalid" ;?
      match ag_ExpectedTenants agg with
      | [] => reject (ag_Role agg != AggregateRoleParticipant)
                "aggregate.expected_tenants is required"
      | tenants =>
          if ag_Role agg == AggregateRoleParticipant
          then Some "aggregate.expected_tenants must be empty"
          else validateTenants ∅ tenants
      end
  end.

(** ** GitHub Apps and required checks *)

Definition validateGitHubAppsConfig (c : ServerConfig) : error :=
  let g := c_GitHub c in
  let hasGitHub := (gh_AppID g != "") || (gh_PrivateKey g != "") || (gh_WebhookSecret g != "") ||
                   (gh_CheckName g != "") || negb (noneConfigured (gh_TrustedCheckAppSlugs g)) in
  reject (hasGitHub && match c_Apps c with Some _ => true | None => false end)
    "github: and apps: are mutually exclusive" ;?
  (if hasGitHub then validateUniqueNames (gh_TrustedCheckAppSlugs g) else None) ;?
  match c_Apps c with
  | Some apps =>
      reject (emptyMap apps) "apps: contains no entries" ;?
      each (fun '(name, app) =>
        reject (name == "") "an entry with an empty name" ;?
        reject (gh_AppID app == "") "missing app-id" ;?
        reject (gh_PrivateKey app == "") "missing private-key" ;?
        reject (gh_WebhookSecret app == "") "missing webhook-secret" ;?
        validateUniqueNames (gh_TrustedCheckAppSlugs app)) (map_to_list apps) ;?
      each (fun '(_, repoConfig) =>
        reject (rc_GitHubApp repoConfig == "") "missing github_app" ;?
        match apps !! rc_GitHubApp repoConfig with
        | None => Some "references unknown github_app"
        | Some _ => None
        end) (map_to_list (c_Repos c))
  | None =>
      each (fun '(_, repoConfig) => reject (rc_GitHubApp repoConfig != "") "apps: is not configured")
        (map_to_list (c_Repos c))
  end.

(** The distinct aggregate base names: [add] drops an empty name and repetitions. *)
Definition addBase (acc : list string) (base : string) : list string :=
  if (base == "") || oneOf base acc then acc else (acc ++ [base])%list.

Definition aggregateCheckNameBases (c : ServerConfig) : list string :=
  match hasApps c with
  | Some apps => fold_left addBase (map CheckRunNameBase (map_to_list apps).*2) []
  | None => addBase [] (CheckRunNameBase (c_GitHub c))
  end.

Definition isAggregateCheckName (name base : string) : bool :=
  if name == base then true
  else HasPrefix name (base ++ " (") && HasSuffix name ")".

Definition validateRequiredChecksNotAggregate (c : ServerConfig) : error :=
  each (fun name => reject (existsb (isAggregateCheckName name) (aggregateCheckNameBases c))
                      "names SchemaBot's own aggregate check") (c_RequiredChecks c).

(** ** Connections *)

Definition orDefault (s d : string) : string := if s == "" then d else s.

Definition configPaths (c : DSNFromConfig) : DSNFromConfigPaths :=
  {| dp_Host := orDefault (dp_Host (df_ConfigPaths c)) "host";
     dp_Port := orDefault (dp_Port (df_ConfigPaths c)) "port";
     dp_Database := orDefault (dp_Database (df_ConfigPaths c)) "database" |}.

Definition DSNFromConfig_Validate (c : DSNFromConfig) : error :=
  reject (df_ConfigRef c == "") "dsn_from missing config_ref" ;?
  reject (dp_Host (configPaths c) == "") "dsn_from missing config_paths.host" ;?
  reject (dp_Database (configPaths c) == "") "dsn_from missing config_paths.database" ;?
  reject (df_Username c == "") "dsn_from missing username" ;?
  reject (df_PasswordRef c == "") "dsn_from missing password_ref".

Definition validateLocalDSNConfig (dsn : string) (dsnFrom : option DSNFromConfig) : error :=
  match dsnFrom with
  | None => None
  | Some from => reject (dsn != "") "cannot configure both dsn and dsn_from" ;?
                 DSNFromConfig_Validate from
  end.

Definition validateNoLocalRemoteRouteCollision (c : ServerConfig) : error :=
  each (fun '(database, dbConfig) =>
    match c_TernDeployments c !! database with
    | None => None
    | Some remoteEnvironments =>
        each (fun '(environment, envConfig) =>
          if negb (HasLocalDSN envConfig) then None
          else if default "" (remoteEnvironments !! environment) == "" then None
          else Some "uses a local dsn but tern_deployments also defines the deployment")
          (map_to_list (db_Environments dbConfig))
    end) (map_to_list (c_Databases c)).

(** ** The whole configuration *)

(** What the program reads of a parsed URL. *)
Record URL := { url_Scheme : string; url_Host : string; url_User : bool }.

Definition maxSupportChannelNameChars : nat := 100.
Definition maxSupportChannelURLChars : nat := 500.

(** unicode.IsControl on ASCII. *)
Definition isControl (c : ascii) : bool := let n := N_of_ascii c in ((n <? 32) || (n =? 127))%N.

Fixpoint anyByte (p : ascii -> bool) (s : string) : bool :=
  match s with EmptyString => false | String c s' => p c || anyByte p s' end.

Section Validation.
Context (ParseDuration : string -> option Z) (urlParse : string -> option URL)
  (ParseCIDR : string -> bool).

Definition validateSupportChannel (c : SupportChannelConfig) : error :=
  if (su_Name c == "") && (su_URL c == "") then None else
  reject (maxSupportChannelNameChars <? String.length (su_Name c))%nat "name too long" ;?
  reject (maxSupportChannelURLChars <? String.length (su_URL c))%nat "url too long" ;?
  reject (untrimmed (su_Name c)) "name contains leading or trailing whitespace" ;?
  reject (untrimmed (su_URL c)) "url contains leading or trailing whitespace" ;?
  reject (anyByte (fun b => Ascii.eqb b "(" || Ascii.eqb b ")" || Ascii.eqb b "\") (su_URL c))
    "url contains characters that are unsafe in Markdown links" ;?
  reject (anyByte (fun b => isSpace b || isControl b) (su_URL c))
    "url contains whitespace or control characters" ;?
  reject (su_Name c == "") "name is required when url is set" ;?
  reject (su_URL c == "") "url is required when name is set" ;?
  match urlParse (su_URL c) with
  | None => Some "url is invalid"
  | Some parsed =>
      reject (negb (oneOf (url_Scheme parsed) ["https"; "http"])) "url must use http or https" ;?
      reject (url_Host parsed == "") "url must include a host" ;?
      reject (url_User parsed) "url must not include credentials"
  end.

Definition positiveDuration (s : string) : error :=
  match ParseDuration s with
  | None => Some "not a valid duration"
  | Some d => reject (d <=? 0) "must be positive"
  end.

(** [PendingDropsRetention], of which Validate uses the error. *)
Definition validatePendingDropsRetention (c : ServerConfig) : error :=
  if pd_Retention (c_PendingDrops c) == "" then None
  else positiveDuration (pd_Retention (c_PendingDrops c)).

Definition validateRevertWindowDuration (c : EnvironmentConfig) : error :=
  if ec_RevertWindowDuration c == "" then None else positiveDuration (ec_RevertWindowDuration c).

(** The endpoint a remote deployment needs in the environment. *)
Definition validateEndpoint (c : ServerConfig) (env deployment : string) : error :=
  match c_TernDeployments c !! deployment with
  | None => Some "references unknown deployment"
  | Some endpoints => reject (default "" (endpoints !! env) == "") "deployment has no endpoint"
  end.

Definition knownPolicy (value : string) (known : list string) (hasMapRouting : bool) : error :=
  if value == "" then None else
  reject (negb hasMapRouting) "set without a deployments map" ;?
  reject (negb (oneOf value known)) "invalid value".

Definition validateEnvironment (c : ServerConfig) (env : string) (envConfig : EnvironmentConfig)
    : error :=
  let hasDSN := HasLocalDSN envConfig in
  let hasScalarRouting := (ec_Target envConfig != "") || (ec_Deployment envConfig != "") in
  let hasMapRouting := match ec_Deployments envConfig with Some _ => true | None => false end in
  validateRevertWindowDuration envConfig ;?
  reject (negb (noneConfigured (ec_DeploymentOrder envConfig)) && negb hasMapRouting)
    "sets deployment_order without a deployments map" ;?
  knownPolicy (ec_CutoverPolicy envConfig)
    [CutoverPolicyRolling; CutoverPolicyBarrier; CutoverPolicyParallel] hasMapRouting ;?
  knownPolicy (ec_OnFailure envConfig) [OnFailureHalt; OnFailureContinue; OnFailurePause]
    hasMapRouting ;?
  if hasDSN && (hasScalarRouting || hasMapRouting)
  then Some "cannot configure both local DSN and target/deployment(s)"
  else if hasScalarRouting && hasMapRouting
  then Some "cannot configure both scalar target/deployment and a deployments map"
  else if hasDSN then validateLocalDSNConfig (ec_DSN envConfig) (ec_DSNFrom envConfig)
  else match ec_Deployments envConfig with
  | Some deployments =>
      reject (emptyMap deployments) "deployments map is empty" ;?
      (if noneConfigured (ec_DeploymentOrder envConfig) then None
       else ofConfig (validateDeploymentOrder deployments (ec_DeploymentOrder envConfig))
              "deployment_order") ;?
      each (fun '(deployment, dt) =>
        reject (deployment == "") "a deployments map entry with an empty key" ;?
        reject (dt_Target dt == "") "deployment missing target" ;?
        validateEndpoint c env deployment) (map_to_list deployments)
  | None =>
      if negb hasScalarRouting then Some "missing local DSN or target/deployment(s)"
      else if ec_Target envConfig == "" then Some "missing target"
      else if ec_Deployment envConfig == "" then Some "missing deployment"
      else validateEndpoint c env (ec_Deployment envConfig)
  end.

Definition DatabaseTypes := ["mysql"; "vitess"; "strata"; "postgres"].

Definition validateDatabase (c : ServerConfig) (db : DatabaseConfig) : error :=
  reject (db_Type db == "") "missing type" ;?
  validateDatabaseSourcePolicy db ;?
  validateDatabaseActorAuthorization db ;?
  reject (negb (oneOf (db_Type db) DatabaseTypes)) "invalid type" ;?
  reject (emptyMap (db_Environments db)) "no environments configured" ;?
  each (fun '(env, envConfig) => validateEnvironment c env envConfig)
    (map_to_list (db_Environments db)).

Definition ForwardAuthSettings_validate (f : ForwardAuthSettings) : error :=
  let nonblank l := List.filter (fun s => s != "") (map TrimSpace l) in
  let cidrs := nonblank (fa_TrustedProxyCIDRs f) in
  reject (noneConfigured cidrs && noneConfigured (nonblank (fa_TrustedProxySPIFFE f)))
    "forward_auth requires at least one trust anchor" ;?
  each (fun c => reject (negb (ParseCIDR c)) "not a valid CIDR") cidrs.

Definition AuthConfig_Validate (a : AuthConfig) : error :=
  if oneOf (au_Type a) [""; "none"] then None
  else if au_Type a == "oidc" then
    reject (TrimSpace (au_Issuer a) == "") "issuer is required" ;?
    reject (untrimmed (au_Issuer a)) "issuer must not have leading or trailing whitespace" ;?
    reject (TrimSpace (au_Audience a) == "") "audience is required"
  else if au_Type a == "forward_auth" then ForwardAuthSettings_validate (au_ForwardAuth a)
  else Some "unknown auth type".

Definition Validate (c : ServerConfig) : error :=
  reject (emptyMap (c_Databases c) && negb (c_TargetResolver c))
    "databases or target_resolver is required" ;?
  validateUniqueNames (c_EnvironmentOrder c) ;?
  reject ((c_MetricsPort c <? 0) || (65535 <? c_MetricsPort c)) "metrics_port out of range" ;?
  validateUniqueNames (c_RequiredChecks c) ;?
  validatePRCommandAuthorization (c_PRCommandAuthorization c) ;?
  validateReviewPolicy (c_ReviewPolicy c) ;?
  validateSupportChannel (c_SupportChannel c) ;?
  validateGitHubAppsConfig c ;?
  validateRequiredChecksNotAggregate c ;?
  (if PendingDropsEnabled c then validatePendingDropsRetention c else None) ;?
  each (fun '(_, db) => validateDatabase c db) (map_to_list (c_Databases c)) ;?
  each (fun '(_, repoConfig) => validateAggregateConfig (rc_Aggregate repoConfig) ;?
                                validateRepoActorAuthorization repoConfig)
    (map_to_list (c_Repos c)) ;?
  validateNoLocalRemoteRouteCollision c ;?
  each (fun '(_, endpoints) =>
    reject (emptyMap endpoints) "deployment has no environments configured" ;?
    each (fun '(_, addr) => reject (addr == "") "empty address") (map_to_list endpoints))
    (map_to_list (c_TernDeployments c)) ;?
  validateLocalDSNConfig (sc_DSN (c_Storage c)) (sc_DSNFrom (c_Storage c)) ;?
  reject ((c_Tenant c != "") && negb (isValidTenantName (c_Tenant c))) "invalid tenant" ;?
  AuthConfig_Validate (c_Auth c).
End Validation.

(** ** Lemmas *)

Lemma andThen_None e1 e2 : (e1 ;? e2) = None <-> e1 = None /\ e2 = None.
Proof. destruct e1; cbn; naive_solver. Qed.

Lemma reject_None b msg : reject b msg = None <-> b = false.
Proof. by destruct b. Qed.

Lemma each_None {A} (f : A -> error) l : each f l = None <-> forall x, x ∈ l -> f x = None.
Proof.
  induction l as [|x l IH]; cbn; [set_solver|]. rewrite andThen_None, IH.
  setoid_rewrite elem_of_cons. naive_solver.
Qed.

(** A loop over a map accepts every entry. *)
Lemma each_map_None {V} (f : string * V -> error) (m : gmap string V) k v :
  each f (map_to_list m) = None -> m !! k = Some v -> f (k, v) = None.
Proof. intros H Hk. apply (proj1 (each_None _ _) H). by apply elem_of_map_to_list. Qed.

Ltac accepted := repeat match goal with
  | H : (_ ;? _) = None |- _ => apply andThen_None in H as [? H]
  | H : reject _ _ = None |- _ => apply reject_None in H
  end.

Section Routing.
Context (ParseDuration : string -> option Z) (urlParse : string -> option URL)
  (ParseCIDR : string -> bool) (c : ServerConfig).
Hypothesis Hvalid : Validate ParseDuration urlParse ParseCIDR c = None.

Lemma validated_databases :
  each (fun '(_, db) => validateDatabase ParseDuration c db) (map_to_list (c_Databases c)) = None /\
  validateNoLocalRemoteRouteCollision c = None /\
  each (fun '(_, repoConfig) => validateAggregateConfig (rc_Aggregate repoConfig) ;?
                                validateRepoActorAuthorization repoConfig)
    (map_to_list (c_Repos c)) = None.
Proof using Hvalid.
  revert Hvalid. unfold Validate. rewrite !andThen_None. tauto.
Qed.

Lemma validated_environment name db env ec :
  c_Databases c !! name = Some db -> db_Environments db !! env = Some ec ->
  validateEnvironment ParseDuration c env ec = None.
Proof using Hvalid.
  intros Hdb Hec. destruct validated_databases as [Hd _].
  apply (each_map_None _ _ name db) in Hd; [|done]. cbn in Hd. unfold validateDatabase in Hd.
  rewrite !andThen_None in Hd. destruct Hd as (_ & _ & _ & _ & _ & He).
  by apply (each_map_None _ _ env ec) in He.
Qed.
End Routing.

(** The routing a validated environment has. *)
Lemma validateEndpoint_None c env d :
  validateEndpoint c env d = None ->
  exists endpoints addr, c_TernDeployments c !! d = Some endpoints /\
    endpoints !! env = Some addr /\ addr <> "".
Proof.
  unfold validateEndpoint. destruct (c_TernDeployments c !! d) as [eps|]; [|done].
  rewrite reject_None. destruct (eps !! env) as [addr|] eqn:E; cbn; [|done].
  intros Ha. apply eqb_false_iff in Ha. eauto.
Qed.

(** Keys of a map whose entries were all accepted have no empty name. *)
Lemma hasEmptyKey_None {V} (m : gmap string V) :
  (forall k v, m !! k = Some v -> k <> "") -> hasEmptyKey m = false.
Proof. intros H. unfold hasEmptyKey. apply bool_decide_eq_false. intros [v Hv]. by apply H in Hv. Qed.

Lemma orderedDeploymentKeys_total m order :
  (forall k v, m !! k = Some v -> k <> "") ->
  (order = [] \/ validateDeploymentOrder m order = Ok tt) ->
  exists keys, orderedDeploymentKeys m order = Ok keys.
Proof.
  intros Hk Ho. unfold orderedDeploymentKeys. rewrite hasEmptyKey_None by done.
  destruct order as [|d order]; [eauto|]. destruct Ho as [?|Ho]; [done|]. rewrite Ho. eauto.
Qed.

(** A deployments map whose entries were accepted resolves to its deployments. *)
Definition remoteRoute (c : ServerConfig) (environment : string) (t : ExecutionTarget) : Prop :=
  xt_Deployment t <> "" /\ xt_Target t <> "" /\
  exists eps addr, c_TernDeployments c !! xt_Deployment t = Some eps /\
    eps !! environment = Some addr /\ addr <> "".

Lemma validated_map_routes c environment ty m order :
  emptyMap m = false -> (order = [] \/ validateDeploymentOrder m order = Ok tt) ->
  (forall k v, m !! k = Some v ->
     k <> "" /\ dt_Target v <> "" /\ validateEndpoint c environment k = None) ->
  exists keys targets, orderedDeploymentKeys m order = Ok keys /\
    deploymentTargets ty m keys = Ok targets /\ targets <> [] /\
    Forall (remoteRoute c environment) targets.
Proof.
  intros Hne Ho Hk. destruct (orderedDeploymentKeys_total m order) as [keys Hkeys]; [|done|].
  { intros k v Hkv. by apply (Hk k v). }
  exists keys, (map (targetOf ty m) keys). split; [done|].
  apply orderedDeploymentKeys_ok in Hkeys as (Hp & _ & _).
  assert (Hin : forall k, k ∈ keys -> exists v, m !! k = Some v).
  { intros k Hink. rewrite Hp in Hink. apply elem_of_keys in Hink as [v ?]; eauto. }
  rewrite deploymentTargets_spec. split; [|split].
  - assert (forallb (fun d => xt_Target (targetOf ty m d) != "") keys = true) as ->; [|done].
    apply forallb_elem. intros d Hd. destruct (Hin d Hd) as [v Hv]. cbn. rewrite Hv.
    apply negb_true_iff, eqb_false_iff. by apply (Hk d v).
  - intros Hnil%map_eq_nil. rewrite Hnil in Hp. apply Permutation_nil in Hp.
    apply fmap_nil_inv in Hp. apply map_to_list_empty_iff in Hp as ->.
    by apply bool_decide_eq_false in Hne.
  - apply Forall_forall. intros t (d & -> & Hd)%list_elem_of_fmap.
    destruct (Hin d Hd) as [v Hv]. destruct (Hk d v Hv) as (? & ? & Hep).
    unfold remoteRoute. cbn. rewrite Hv.
    split; [done|]. split; [done|]. by apply validateEndpoint_None.
Qed.

(** ** Properties *)

(** C37: a validated configuration routes.  Every environment of every database
    resolves to at least one execution target; each target names a deployment and a
    target, and is either the database's own local connection, which no remote
    deployment of the same name shadows, or a configured remote deployment with an
    endpoint for that environment. *)
Theorem validated_config_routes ParseDuration urlParse ParseCIDR c database environment db ec
    (Hvalid : Validate ParseDuration urlParse ParseCIDR c = None)
    (Hdb : c_Databases c !! database = Some db)
    (Hec : db_Environments db !! environment = Some ec) :
  exists targets, ResolveDatabaseTargets (Some c) database environment = Ok targets /\
    targets <> [] /\
    Forall (fun t =>
      if HasLocalDSN ec
      then xt_Deployment t = database /\ xt_Target t = database /\
           forall eps, c_TernDeployments c !! database = Some eps ->
             default "" (eps !! environment) = ""
      else remoteRoute c environment t) targets.
Proof.
  pose proof (validated_environment _ _ _ _ Hvalid _ _ _ _ Hdb Hec) as He.
  destruct (validated_databases _ _ _ _ Hvalid) as (_ & Hcol & _).
  cbn [ResolveDatabaseTargets]. unfold Database. rewrite Hdb, Hec.
  unfold validateEnvironment in He. rewrite !andThen_None in He. destruct He as (_ & _ & _ & _ & He).
  destruct (HasLocalDSN ec) eqn:Hl; cbn [andb] in He.
  - eexists. split; [done|]. split; [done|]. constructor; [|constructor]. split; [done|].
    split; [done|]. intros eps Heps. apply (each_map_None _ _ _ _ Hcol) in Hdb as Hc.
    cbn in Hc. rewrite Heps in Hc. apply (each_map_None _ _ _ _ Hc) in Hec as Hc'.
    cbn in Hc'. rewrite Hl in Hc'. cbn in Hc'.
    destruct (default "" _ == "") eqn:E; [by apply eqb_true_iff in E|done].
  - destruct (ec_Deployments ec) as [m|].
    + destruct (_ && true); [done|]. rewrite !andThen_None in He. destruct He as (Hne & Ho & Hm).
      apply reject_None in Hne. rewrite Hne.
      destruct (validated_map_routes c environment (db_Type db) m (ec_DeploymentOrder ec))
        as (keys & targets & -> & -> & ? & ?); eauto.
      { destruct (ec_DeploymentOrder ec) as [|d order]; [by left|right]. cbn in Ho.
        by destruct (validateDeploymentOrder m (d :: order)) as [[]|]. }
      intros k v Hkv. apply (each_map_None _ _ _ _ Hm) in Hkv. cbn in Hkv.
      rewrite !andThen_None, !reject_None in Hkv.
      destruct Hkv as (?%eqb_false_iff & ?%eqb_false_iff & ?). done.
    + cbn in He. rewrite andb_false_r in He. cbn in He.
      destruct (negb _); [done|]. destruct (ec_Target ec == "") eqn:Et; [done|].
      destruct (ec_Deployment ec == "") eqn:Ed; [done|]. apply eqb_false_iff in Et, Ed.
      eexists. split; [done|]. split; [done|]. constructor; [|constructor].
      split; [done|]. split; [done|]. by apply validateEndpoint_None.
Qed.

(** The rollout policies of a validated configuration are known ones, so the
    rollout code never sees a policy it has to guess about. *)
Theorem validated_policies_known ParseDuration urlParse ParseCIDR c database environment
    (Hvalid : Validate ParseDuration urlParse ParseCIDR c = None) :
  CutoverPolicyFor c database environment ∈
    [CutoverPolicyRolling; CutoverPolicyBarrier; CutoverPolicyParallel] /\
  OnFailure c database environment ∈ [OnFailureHalt; OnFailureContinue; OnFailurePause].
Proof.
  unfold CutoverPolicyFor, OnFailure, DatabaseEnvironment, Database.
  destruct (c_Databases c !! database) as [db|] eqn:Hdb; [|by split; left].
  destruct (db_Environments db !! environment) as [ec|] eqn:Hec; [|by split; left].
  pose proof (validated_environment _ _ _ _ Hvalid _ _ _ _ Hdb Hec) as He.
  unfold validateEnvironment in He. rewrite !andThen_None in He. destruct He as (_ & _ & Hc & Ho & _).
  unfold knownPolicy in Hc, Ho. split.
  - destruct (ec_CutoverPolicy ec == ""); [by left|]. apply oneOf_elem.
    rewrite andThen_None, !reject_None in Hc. destruct Hc as [_ Hc%negb_false_iff]. done.
  - destruct (ec_OnFailure ec == ""); [by left|]. apply oneOf_elem.
    rewrite andThen_None, !reject_None in Ho. destruct Ho as [_ Ho%negb_false_iff]. done.
Qed.

(** A configuration with one database that fans out in staging and is local in
    production. *)
Definition sampleEnvironment : EnvironmentConfig :=
  {| ec_DSN := ""; ec_DSNFrom := None; ec_Target := ""; ec_Deployment := "";
     ec_Deployments := Some (list_to_map [("pay-a", {| dt_Target := "payments" |});
                                          ("pay-b", {| dt_Target := "payments" |})]);
     ec_DeploymentOrder := ["pay-b"; "pay-a"]; ec_CutoverPolicy := "barrier"; ec_OnFailure := "pause";
     ec_RevertWindowDuration := "" |}.

Definition sampleDatabase : DatabaseConfig :=
  {| db_Type := "mysql"; db_Environments := {["staging" := sampleEnvironment]};
     db_AllowedRepos := ["org/app"]; db_AllowedDirs := ["schema/payments"];
     db_OperatorTeams := ["org/dba"]; db_OperatorUsers := ["alice"] |}.

Definition sampleConfig : ServerConfig :=
  {| c_Storage := {| sc_DSN := "env:DSN"; sc_DSNFrom := None |};
     c_Auth := {| au_Type := ""; au_Issuer := ""; au_Audience := "";
                  au_ForwardAuth := {| fa_TrustedProxySPIFFE := []; fa_TrustedProxyCIDRs := [] |} |};
     c_GitHub := {| gh_AppID := "1"; gh_PrivateKey := "k"; gh_WebhookSecret := "s"; gh_CheckName := "";
                    gh_TrustedCheckAppSlugs := [] |};
     c_Apps := None;
     c_TernDeployments := list_to_map [("pay-a", {["staging" := "a:1"]}); ("pay-b", {["staging" := "b:1"]})];
     c_Databases := {["payments" := sampleDatabase]};
     c_TargetResolver := false;
     c_Repos := {["org/app" :=
       {| rc_EnableChecks := None; rc_RequireUpToDateWithBase := false; rc_GitHubApp := "";
          rc_Aggregate := Some {| ag_Role := "leader";
            ag_ExpectedTenants := [{| et_Tenant := "bb"; et_Paths := ["schema/bb"];
                                      et_CheckName := "SchemaBot BB" |}] |};
          rc_AdminTeams := []; rc_AdminUsers := [] |}]};
     c_PRCommandAuthorization := {| pa_Enabled := true; pa_AdminTeams := ["org/admins"]; pa_AdminUsers := [] |};
     c_ReviewPolicy := {| rp_Enabled := true; rp_AdminTeams := []; rp_AdminUsers := [];
                          rp_IncludeDatabaseOperators := None; rp_IncludeCodeowners := false |};
     c_SupportChannel := {| su_Name := ""; su_URL := "" |};
     c_AllowedEnvironments := ["staging"]; c_Tenant := ""; c_EnvironmentOrder := [];
     c_MetricsPort := 0; c_OperatorClaimOperations := None; c_RequirePassingChecks := None;
     c_RequiredChecks := ["ci"]; c_RespondToUnscoped := None;
     c_PendingDrops := {| pd_Enabled := None; pd_CleanupEnabled := None; pd_Retention := "" |} |}.

Lemma validated_config_routes_witness :
  ResolveDatabaseTargets (Some sampleConfig) "payments" "staging" =
    Ok [{| xt_DatabaseType := "mysql"; xt_Deployment := "pay-b"; xt_Target := "payments" |};
        {| xt_DatabaseType := "mysql"; xt_Deployment := "pay-a"; xt_Target := "payments" |}] /\
  exists targets, ResolveDatabaseTargets (Some sampleConfig) "payments" "staging" = Ok targets /\
    targets <> [].
Proof.
  split; [by vm_compute|].
  destruct (validated_config_routes (fun _ => None) (fun _ => None) (fun _ => false) sampleConfig
              "payments" "staging" sampleDatabase sampleEnvironment) as (targets & ? & ? & _);
    [by vm_compute|by vm_compute|by vm_compute|]. exists targets. split; assumption.
Defined.
