(* ===== verification/Checks.v ===== *)
(** * Stored check state (mysqlstore/checks.go)

    One row of table [checks] per pull request, environment and database says what
    SchemaBot knows about that database's schema change, and one aggregate row per
    pull request and environment says what the visible Check Run shows.  The table
    is a finite map under its UNIQUE key.  A row is the Go struct that is scanned
    from it: a zero id stands for NULL, and so does an empty change summary (the
    writers store both that way).  Every operation is a [prog], so that other
    connections may run between its statements; [foundRows] is the connection's
    clientFoundRows. *)

From S2P Require Import Prelude State Sql Locks Store Operations Applies.

Local Open Scope string_scope.
Local Open Scope Z_scope.

(** ** Rows *)

Definition checkStatusCompleted := "completed".
Definition checkStatusInProgress := "in_progress".
Definition checkStatusQueued := "queued".
Definition checkConclusionSuccess := "success".
Definition checkConclusionFailure := "failure".
Definition checkConclusionActionRequired := "action_required".
Definition checkConclusionNeutral := "neutral".

(** [storage.Check] *)
Record Check := {
  ck_ID : Z;
  ck_Repository : string;
  ck_PullRequest : Z;
  ck_HeadSHA : string;
  ck_Environment : string;
  ck_DatabaseType : string;
  ck_DatabaseName : string;
  ck_CheckRunID : Z;
  ck_ApplyID : Z;
  ck_HasChanges : bool;
  ck_Status : string;
  ck_Conclusion : string;
  ck_BlockingReason : string;
  ck_ErrorMessage : string;
  ck_ChangeSummary : string;
  ck_CreatedAt : Z;
  ck_UpdatedAt : Z;
}.

#[global] Instance Check_eq_dec : EqDecision Check.
Proof. solve_decision. Defined.

(** The columns of idx_check_key. *)
Definition checkKey : Type := string * Z * string * string * string.
Definition keyOf (c : Check) : checkKey :=
  (ck_Repository c, ck_PullRequest c, ck_Environment c, ck_DatabaseType c, ck_DatabaseName c).

(** [storage.PlanDriftState] *)
Inductive PlanDriftState := PlanDriftNotEvaluated | PlanDriftClean | PlanDriftBlocked.

#[global] Instance PlanDriftState_eq_dec : EqDecision PlanDriftState.
Proof. solve_decision. Defined.

Definition ReviewTimeDeploymentDriftBlockingReason := "review_time_deployment_drift".

(** ** The state of the merge gate *)

(** [CheckRunOptions] of the GitHub client. *)
Record CheckRunOptions := {
  cr_Name : string;
  cr_Status : string;
  cr_Conclusion : string;
  cr_Title : string;
  cr_Summary : string;
}.

(** A Check Run call GitHub accepted; a created run got the id it is listed with. *)
Inductive ghCall :=
| CreateCheckRun (repo headSHA : string) (id : Z) (opts : CheckRunOptions)
| UpdateCheckRun (repo : string) (id : Z) (opts : CheckRunOptions).

(** [PRFile]: a changed file; a renamed one also has the path it had before. *)
Record PRFile := { pf_Filename : string; pf_PreviousFilename : string }.

(** A Check Run as GitHub lists it, with the slug of the App that created it. *)
Record CheckRunInfo := {
  ri_ID : Z;
  ri_Name : string;
  ri_AppSlug : string;
  ri_Status : string;
  ri_Conclusion : string;
}.

(** What GitHub answers about pull requests and commits. *)
Record githubView := {
  gv_HeadSHA : string -> Z -> string;
  gv_State : string -> Z -> string;
  gv_Files : string -> Z -> list PRFile;
  gv_Runs : string -> string -> list CheckRunInfo;
}.

(** The tables, the checks and the AUTO_INCREMENT of their ids, GitHub and the calls
    it accepted, newest first, and the handler's re-fold budgets and armed timers. *)
Record gate := {
  g_db : store;
  g_checks : gmap checkKey Check;
  g_nextCheck : Z;
  g_github : githubView;
  g_nextRun : Z;
  g_calls : list ghCall;
  g_refolds : gmap (string * Z) Z;
  g_timers : list (string * Z);
}.

Definition set_checks (m : gmap checkKey Check) (g : gate) : gate :=
  {| g_db := g_db g; g_checks := m; g_nextCheck := g_nextCheck g; g_github := g_github g;
     g_nextRun := g_nextRun g; g_calls := g_calls g; g_refolds := g_refolds g;
     g_timers := g_timers g |}.

Definition set_db (db : store) (g : gate) : gate :=
  {| g_db := db; g_checks := g_checks g; g_nextCheck := g_nextCheck g; g_github := g_github g;
     g_nextRun := g_nextRun g; g_calls := g_calls g; g_refolds := g_refolds g;
     g_timers := g_timers g |}.

(** ** Statements *)

Definition readGate {A} (f : gate -> A) : gate -> gate * res A := fun g => (g, Ok (f g)).

(** The columns an UPDATE of the row assigns from the Go value. *)
Definition assignCheck (check : Check) (applyID : Z) (changeSummary : string) (r : Check) : Check :=
  {| ck_ID := ck_ID r; ck_Repository := ck_Repository r; ck_PullRequest := ck_PullRequest r;
     ck_HeadSHA := ck_HeadSHA check; ck_Environment := ck_Environment r;
     ck_DatabaseType := ck_DatabaseType r; ck_DatabaseName := ck_DatabaseName r;
     ck_CheckRunID := ck_CheckRunID check; ck_ApplyID := applyID;
     ck_HasChanges := ck_HasChanges check; ck_Status := ck_Status check;
     ck_Conclusion := ck_Conclusion check; ck_BlockingReason := ck_BlockingReason check;
     ck_ErrorMessage := ck_ErrorMessage check; ck_ChangeSummary := changeSummary;
     ck_CreatedAt := ck_CreatedAt r; ck_UpdatedAt := ck_UpdatedAt r |}.

(** [COALESCE(NULLIF(new, ''), change_summary)] *)
Definition keepSummary (check r : Check) : string :=
  if ck_ChangeSummary check == "" then ck_ChangeSummary r else ck_ChangeSummary check.

(** updated_at is ON UPDATE CURRENT_TIMESTAMP. *)
Definition touchCheck (now : Z) (f : Check -> Check) (r : Check) : Check :=
  let r' := f r in
  if decide (r' = r) then r else
  {| ck_ID := ck_ID r'; ck_Repository := ck_Repository r'; ck_PullRequest := ck_PullRequest r';
     ck_HeadSHA := ck_HeadSHA r'; ck_Environment := ck_Environment r';
     ck_DatabaseType := ck_DatabaseType r'; ck_DatabaseName := ck_DatabaseName r';
     ck_CheckRunID := ck_CheckRunID r'; ck_ApplyID := ck_ApplyID r';
     ck_HasChanges := ck_HasChanges r'; ck_Status := ck_Status r';
     ck_Conclusion := ck_Conclusion r'; ck_BlockingReason := ck_BlockingReason r';
     ck_ErrorMessage := ck_ErrorMessage r'; ck_ChangeSummary := ck_ChangeSummary r';
     ck_CreatedAt := ck_CreatedAt r'; ck_UpdatedAt := now |}.

(** The row an INSERT stores. *)
Definition newRow (check : Check) (applyID : Z) (g : gate) : Check :=
  {| ck_ID := g_nextCheck g; ck_Repository := ck_Repository check;
     ck_PullRequest := ck_PullRequest check; ck_HeadSHA := ck_HeadSHA check;
     ck_Environment := ck_Environment check; ck_DatabaseType := ck_DatabaseType check;
     ck_DatabaseName := ck_DatabaseName check; ck_CheckRunID := ck_CheckRunID check;
     ck_ApplyID := applyID; ck_HasChanges := ck_HasChanges check; ck_Status := ck_Status check;
     ck_Conclusion := ck_Conclusion check; ck_BlockingReason := ck_BlockingReason check;
     ck_ErrorMessage := ck_ErrorMessage check; ck_ChangeSummary := ck_ChangeSummary check;
     ck_CreatedAt := now (g_db g); ck_UpdatedAt := now (g_db g) |}.

Definition insertCheck (check : Check) (applyID : Z) (g : gate) : gate :=
  {| g_db := g_db g; g_checks := <[keyOf check := newRow check applyID g]> (g_checks g);
     g_nextCheck := g_nextCheck g + 1; g_github := g_github g; g_nextRun := g_nextRun g;
     g_calls := g_calls g; g_refolds := g_refolds g; g_timers := g_timers g |}.

(** [UPDATE checks SET f WHERE <key> AND p]: at most one row. *)
Definition updateCheck (foundRows : bool) (k : checkKey) (p : gate -> Check -> bool)
    (f : Check -> Check) (g : gate) : gate * res Z :=
  match g_checks g !! k with
  | Some r =>
      if p g r
      then (set_checks (<[k := touchCheck (now (g_db g)) f r]> (g_checks g)) g,
            Ok (if foundRows || bool_decide (f r <> r) then 1 else 0))
      else (g, Ok 0)
  | None => (g, Ok 0)
  end.

(** [INSERT ... ON DUPLICATE KEY UPDATE] *)
Definition upsertCheck (check : Check) (g : gate) : gate * res unit :=
  match g_checks g !! keyOf check with
  | None => (insertCheck check (ck_ApplyID check) g, Ok tt)
  | Some r =>
      (set_checks (<[keyOf check := touchCheck (now (g_db g))
          (fun r => assignCheck check (ck_ApplyID check) (keepSummary check r) r) r]> (g_checks g)) g,
       Ok tt)
  end.

(** The plain INSERT of a plan result: duplicate key when the row exists. *)
Definition insertPlanCheck (check : Check) (g : gate) : gate * res unit :=
  match g_checks g !! keyOf check with
  | Some _ => (g, Err (SqlErr mysqlErrDuplicateKey))
  | None => (insertCheck check 0 g, Ok tt)
  end.

(** [status = 'in_progress' AND apply_id IS NOT NULL] *)
Definition applyInProgress (r : Check) : bool :=
  (ck_Status r == checkStatusInProgress) && negb (ck_ApplyID r =? 0).

(** The SET list of a write that did not evaluate drift.  MySQL assigns from left
    to right, so the last two columns read the new blocking reason. *)
Definition notEvaluatedSet (check r : Check) : Check :=
  let blocked := ck_BlockingReason r == ReviewTimeDeploymentDriftBlockingReason in
  let blockingReason := if blocked then ck_BlockingReason r else ck_BlockingReason check in
  let blocked' := blockingReason == ReviewTimeDeploymentDriftBlockingReason in
  {| ck_ID := ck_ID r; ck_Repository := ck_Repository r; ck_PullRequest := ck_PullRequest r;
     ck_HeadSHA := ck_HeadSHA check; ck_Environment := ck_Environment r;
     ck_DatabaseType := ck_DatabaseType r; ck_DatabaseName := ck_DatabaseName r;
     ck_CheckRunID := ck_CheckRunID check;
     ck_ApplyID := if blocked then ck_ApplyID r else 0;
     ck_HasChanges := if blocked then ck_HasChanges r else ck_HasChanges check;
     ck_Status := if blocked then ck_Status r else ck_Status check;
     ck_Conclusion := if blocked then ck_Conclusion r else ck_Conclusion check;
     ck_BlockingReason := blockingReason;
     ck_ErrorMessage := if blocked' then ck_ErrorMessage r else ck_ErrorMessage check;
     ck_ChangeSummary := if blocked' then ck_ChangeSummary r else ck_ChangeSummary check;
     ck_CreatedAt := ck_CreatedAt r; ck_UpdatedAt := ck_UpdatedAt r |}.

Definition planSet (check : Check) (drift : PlanDriftState) (r : Check) : Check :=
  match drift with
  | PlanDriftNotEvaluated => notEvaluatedSet check r
  | _ => assignCheck check 0 (ck_ChangeSummary check) r
  end.

(** [EXISTS (SELECT 1 FROM applies newer WHERE ... AND newer.id > applyID)] *)
Definition newerApply (s : store) (applyID : Z) (r : Check) : bool :=
  existsb (fun a => (a_Repository a == ck_Repository r) && (a_PullRequest a =? ck_PullRequest r) &&
                    (a_Environment a == ck_Environment r) &&
                    (a_DatabaseType a == ck_DatabaseType r) &&
                    (a_Database a == ck_DatabaseName r) && (applyID <? a_ID a)) (applies s).

(** [apply.Lease()] and the predicate it adds when it is valid. *)
Definition applyLease (a : Apply) : ApplyLease :=
  {| al_ApplyID := a_ID a; al_Owner := a_LeaseOwner a; al_Token := a_LeaseToken a |}.
Definition leasePredicate (lease : ApplyLease) (s : store) : bool :=
  if ApplyLease_Valid lease then applyTokenIs s (al_ApplyID lease) (al_Token lease) else true.

(** ** The store *)

Section CheckStore.
Context (foundRows : bool).

Definition Upsert (check : Check) : prog gate (res unit) :=
  withLockRetry (Exec (upsertCheck check) Ret).

Definition UpsertPlanResult (check : Check) (drift : PlanDriftState) : prog gate (res unit) :=
  withLockRetry (Exec (insertPlanCheck check) (fun r => match r with
    | Ok _ => Ret (Ok tt)
    | Err err =>
        if negb (isDuplicateKeyError err) then Ret (Err err) else
        Exec (updateCheck foundRows (keyOf check) (fun _ r => negb (applyInProgress r))
                (planSet check drift))
          (fun r => Ret match r with Ok _ => Ok tt | Err e => Err e end)
    end)).

Definition successfulNoOpPlanResult (check : Check) : bool :=
  (ck_Status check == "completed") && (ck_Conclusion check == checkConclusionSuccess) &&
  negb (ck_HasChanges check).

Definition RecoverApplyOwnedCheckWithNoOpPlan (check : Check) : prog gate (res bool) :=
  if negb (successfulNoOpPlanResult check) then Ret (Ok false) else
  Exec (updateCheck foundRows (keyOf check)
          (fun _ r => (ck_Status r == checkStatusInProgress) && (ck_HeadSHA r == ck_HeadSHA check) &&
                      negb (ck_ApplyID r =? 0))
          (fun r => assignCheck check 0 (keepSummary check r) r))
    (fun r => Ret match r with Ok rows => Ok (0 <? rows) | Err e => Err e end).

Definition Get (k : checkKey) : prog gate (res (option Check)) :=
  Exec (readGate (fun g => g_checks g !! k)) Ret.

Definition isPlanOnlySuccessful (check : Check) : bool :=
  (ck_Status check == "completed") && (ck_Conclusion check == checkConclusionSuccess) &&
  (ck_ApplyID check =? 0) && negb (ck_HasChanges check).

Definition MarkStalePlanSuccessful (check : Check) : prog gate (res bool) :=
  Exec (updateCheck foundRows (keyOf check)
          (fun _ r => (ck_Status r != checkStatusInProgress) && (ck_ApplyID r =? 0))
          (fun r => assignCheck check 0 (keepSummary check r) r))
    (fun r => match r with
     | Err e => Ret (Err e)
     | Ok rows =>
         if 0 <? rows then Ret (Ok true) else
         pbind (Get (keyOf check)) (fun r => Ret match r with
           | Err e => Err e
           | Ok None => Err (Errorf "stale plan check vanished after no-op update")
           | Ok (Some current) => Ok (isPlanOnlySuccessful current)
           end)
     end).

Definition clearBlock (r : Check) : Check :=
  {| ck_ID := ck_ID r; ck_Repository := ck_Repository r; ck_PullRequest := ck_PullRequest r;
     ck_HeadSHA := ck_HeadSHA r; ck_Environment := ck_Environment r;
     ck_DatabaseType := ck_DatabaseType r; ck_DatabaseName := ck_DatabaseName r;
     ck_CheckRunID := ck_CheckRunID r; ck_ApplyID := ck_ApplyID r;
     ck_HasChanges := ck_HasChanges r; ck_Status := ck_Status r; ck_Conclusion := ck_Conclusion r;
     ck_BlockingReason := ""; ck_ErrorMessage := ""; ck_ChangeSummary := ck_ChangeSummary r;
     ck_CreatedAt := ck_CreatedAt r; ck_UpdatedAt := ck_UpdatedAt r |}.

Definition ClearAggregateBlock (check : Check) : prog gate (res bool) :=
  Exec (updateCheck foundRows (keyOf check)
          (fun _ r => (ck_HeadSHA r == ck_HeadSHA check) &&
                      (ck_BlockingReason r == ck_BlockingReason check)) clearBlock)
    (fun r => Ret match r with Ok rows => Ok (0 <? rows) | Err e => Err e end).

(** The answer of a write guarded by the apply's lease. *)
Definition leasedAnswer (lease : ApplyLease) (r : res Z) : prog gate (res bool) :=
  match r with
  | Err e => Ret (Err e)
  | Ok rows =>
      if (rows =? 0) && ApplyLease_Valid lease then
        Exec (readGate (fun g => applyTokenIs (g_db g) (al_ApplyID lease) (al_Token lease)))
          (fun r => Ret match r with
           | Err e => Err e
           | Ok false => Err ErrApplyLeaseLost
           | Ok true => Ok (0 <? rows)
           end)
      else Ret (Ok (0 <? rows))
  end.

Definition CompleteForApply (check : Check) (apply : Apply) : prog gate (res bool) :=
  Exec (updateCheck foundRows (keyOf check)
          (fun g r => (ck_Status r == checkStatusInProgress) && negb (ck_ApplyID r =? 0) &&
                      (ck_ApplyID r =? a_ID apply) && negb (newerApply (g_db g) (a_ID apply) r) &&
                      leasePredicate (applyLease apply) (g_db g))
          (fun r => assignCheck check (a_ID apply) (keepSummary check r) r))
    (leasedAnswer (applyLease apply)).

Definition MarkActionRequiredForApply (check : Check) (apply : Apply) : prog gate (res bool) :=
  Exec (updateCheck foundRows (keyOf check)
          (fun g r => ((ck_ApplyID r =? 0) || (ck_ApplyID r <=? a_ID apply)) &&
                      negb (newerApply (g_db g) (a_ID apply) r) &&
                      leasePredicate (applyLease apply) (g_db g))
          (fun r => assignCheck check 0 (keepSummary check r) r))
    (leasedAnswer (applyLease apply)).

(** [ORDER BY environment, database_type, database_name] *)
Definition rowOrder (a b : Check) : Prop :=
  let lt x y := (x != y) && String.leb x y in
  lt (ck_Environment a) (ck_Environment b) ||
  ((ck_Environment a == ck_Environment b) &&
   (lt (ck_DatabaseType a) (ck_DatabaseType b) ||
    ((ck_DatabaseType a == ck_DatabaseType b) &&
     String.leb (ck_DatabaseName a) (ck_DatabaseName b)))) = true.
#[global] Instance rowOrder_dec a b : Decision (rowOrder a b).
Proof. unfold rowOrder. apply _. Defined.

Definition rowsOf (m : gmap checkKey Check) : list Check := (map_to_list m).*2.

Definition checksByPR (repo : string) (pr : Z) (g : gate) : list Check :=
  merge_sort rowOrder
    (filter (fun c => ck_Repository c = repo /\ ck_PullRequest c = pr) (rowsOf (g_checks g))).

Definition GetByPR (repo : string) (pr : Z) : prog gate (res (list Check)) :=
  Exec (readGate (checksByPR repo pr)) Ret.

Definition deleteRows (p : Check -> bool) (g : gate) : gate :=
  set_checks (filter (fun kr => p kr.2 = false) (g_checks g)) g.

Definition Delete (id : Z) : prog gate (res unit) :=
  Exec (fun g => (deleteRows (fun r => ck_ID r =? id) g,
                  if existsb (fun r => ck_ID r =? id) (rowsOf (g_checks g))
                  then Ok tt else Err ErrCheckNotFound)) Ret.

(** The rows a closed pull request gives up. *)
Definition closedDeletes (repo : string) (pr : Z) (merged : bool) (r : Check) : bool :=
  (ck_Repository r == repo) && (ck_PullRequest r =? pr) &&
  if merged
  then (ck_ApplyID r =? 0) ||
       ((ck_Status r != checkStatusInProgress) && (ck_Conclusion r == checkConclusionSuccess))
  else ck_ApplyID r =? 0.

Definition DeleteByPRRetainingBlockingApplyOwned (repo : string) (pr : Z) (merged : bool)
    : prog gate (res unit) :=
  Exec (fun g => (deleteRows (closedDeletes repo pr merged) g, Ok tt)) Ret.
End CheckStore.
