(* ===== verification/MergeFold.v ===== *)
(** * Folding stored checks into the aggregate (pkg/webhook)

    check_aggregate.go computes from the stored per-database checks of a pull
    request, and from the Check Runs of participant deployments
    (leader_participant_gate.go), the status, conclusion, title and summary of the
    one Check Run that gates its merge.  FindCheckRunByName and the trust test of
    pkg/github/client.go are included because the fold relies on them. *)

From S2P Require Import Prelude GoStrings State Store Config Policy Checks.

Local Open Scope string_scope.
Local Open Scope Z_scope.

Definition maxCheckRunTextLength : nat := Z.to_nat 65530.
Definition aggregateSentinel := "_aggregate".

(** ** Stored checks *)

Definition isAggregateCheck (c : Check) : bool :=
  (ck_DatabaseType c == aggregateSentinel) && (ck_DatabaseName c == aggregateSentinel).

Definition filterChecksByEnvironment (checks : list Check) (env : string) : list Check :=
  List.filter (fun c => negb (isAggregateCheck c) && (ck_Environment c == env)) checks.

Definition checkHasStartedApply (c : Check) : bool :=
  (ck_Status c == checkStatusInProgress) || negb (ck_ApplyID c =? 0).

(** [checkBlockReason] and its values *)
Record checkBlockReason := { br_blockingReason : string; br_message : string }.

Definition schemaRemovedAfterApplyBlock :=
  {| br_blockingReason := "schema_removed_after_apply_started";
     br_message := "The current PR no longer contains a schema change whose apply has already started; reconciliation is required before this check can pass." |}.
Definition rollbackCompletedBlock :=
  {| br_blockingReason := "rollback_completed";
     br_message := "Schema changes were rolled back in this environment; apply the PR schema changes again, or reconcile the PR and live schema before this check can pass." |}.

Definition checkBlockedByRemovedSchemaAfterApply (c : Check) : bool :=
  ck_BlockingReason c == br_blockingReason schemaRemovedAfterApplyBlock.

Definition checkBlocksPassingAggregate (c : Check) : bool :=
  if isAggregateCheck c then false
  else if checkHasStartedApply c then true
  else (ck_Conclusion c == checkConclusionFailure) ||
       (ck_Conclusion c == checkConclusionActionRequired).

Definition hasBlockingCheckForEnvironment (checks : list Check) (environment : string) : bool :=
  existsb (fun c => if (environment != aggregateSentinel) && (ck_Environment c != environment)
                    then false else checkBlocksPassingAggregate c) checks.

(** ** The fold *)

(** The contribution of one row: itself, or a blocking placeholder when it was
    stored for another commit. *)
Definition contribution (headSHA : string) (c : Check) : Check :=
  if ck_HeadSHA c == headSHA then c else
  {| ck_ID := ck_ID c; ck_Repository := ck_Repository c; ck_PullRequest := ck_PullRequest c;
     ck_HeadSHA := ck_HeadSHA c; ck_Environment := ck_Environment c;
     ck_DatabaseType := ck_DatabaseType c; ck_DatabaseName := ck_DatabaseName c;
     ck_CheckRunID := ck_CheckRunID c; ck_ApplyID := ck_ApplyID c;
     ck_HasChanges := ck_HasChanges c; ck_Status := checkStatusInProgress; ck_Conclusion := "";
     ck_BlockingReason := ck_BlockingReason c; ck_ErrorMessage := ck_ErrorMessage c;
     ck_ChangeSummary := ck_ChangeSummary c; ck_CreatedAt := ck_CreatedAt c;
     ck_UpdatedAt := ck_UpdatedAt c |}.

Definition normalizeStaleContributions (checks : list Check) (headSHA : string)
    : list Check * nat :=
  (map (contribution headSHA) checks,
   length (List.filter (fun c => ck_HeadSHA c != headSHA) checks)).

Definition anyInProgressOnCommit (checks : list Check) (headSHA : string) : bool :=
  existsb (fun c => (ck_HeadSHA c == headSHA) && (ck_Status c == checkStatusInProgress)) checks.

(** The conclusion and the status. *)
Definition computeAggregate (checks : list Check) : string * string :=
  if existsb (fun c => ck_Status c == checkStatusInProgress) checks
  then ("", checkStatusInProgress)
  else if existsb (fun c => ck_Conclusion c == checkConclusionFailure) checks
  then (checkConclusionFailure, checkStatusCompleted)
  else if existsb (fun c => ck_Conclusion c == checkConclusionActionRequired) checks
  then (checkConclusionActionRequired, checkStatusCompleted)
  else (checkConclusionSuccess, checkStatusCompleted).

(** ** Title and summary *)

Definition participantUnresolvedBlockingReason := "participant_unresolved".

Definition isUnresolvedParticipantCheck (c : Check) : bool :=
  ck_BlockingReason c == participantUnresolvedBlockingReason.

Definition isParticipantCheck (c : Check) : bool :=
  (ck_DatabaseType c == aggregateSentinel) && (ck_DatabaseName c != aggregateSentinel).

Definition allChecksAreUpToDate (checks : list Check) : bool :=
  match checks with
  | [] => false
  | _ => forallb (fun c => (ck_Status c == checkStatusCompleted) &&
                           (ck_Conclusion c == checkConclusionSuccess) &&
                           negb (ck_HasChanges c)) checks
  end.

Definition conclusionEmoji (status conclusion : string) : string :=
  if status == checkStatusInProgress then "In progress"
  else if conclusion == checkConclusionSuccess then "Applied"
  else if conclusion == checkConclusionFailure then "Failed"
  else if conclusion == checkConclusionActionRequired then "Pending"
  else if conclusion == checkConclusionNeutral then "Cancelled"
  else conclusion.

Definition checkStatusLabel (c : Check) : string :=
  if (ck_Status c == checkStatusCompleted) && (ck_Conclusion c == checkConclusionSuccess) &&
     negb (ck_HasChanges c) then "Up to date"
  else if isUnresolvedParticipantCheck c then
    if ck_Status c == checkStatusInProgress then "Waiting to report" else "Not reported"
  else conclusionEmoji (ck_Status c) (ck_Conclusion c).

Definition changeSummaryLabel (c : Check) : string :=
  if ck_ChangeSummary c == "" then "—" else ck_ChangeSummary c.

Definition newline : string := String "010" "".
Definition itoa (n : nat) : string := Itoa (Z.of_nat n).

(** [for i, c := range checks]: rows are written while the text stays within the
    limit; the first that does not is replaced by the number of rows left. *)
Fixpoint writeRows (row : Check -> string) (left_ : string) (limit : Z) (sb : string)
    (checks : list Check) : string :=
  match checks with
  | [] => sb
  | c :: rest =>
      if limit <? Z.of_nat (String.length sb + String.length (row c))
      then sb ++ newline ++ "... and " ++ itoa (length checks) ++ left_ ++ newline
      else writeRows row left_ limit (sb ++ row c) rest
  end.

Definition hasMultipleEnvironments (dbChecks : list Check) : bool :=
  match dbChecks with
  | [] => false
  | c :: rest => existsb (fun d => ck_Environment d != ck_Environment c) rest
  end.

Definition databaseRow (showEnv : bool) (c : Check) : string :=
  "| `" ++ ck_DatabaseName c ++ "` | " ++
  (if showEnv then ck_Environment c ++ " | " else "") ++ ck_DatabaseType c ++ " | " ++
  changeSummaryLabel c ++ " | " ++ checkStatusLabel c ++ " |" ++ newline.

Definition databaseHeader (showEnv : bool) : string :=
  if showEnv
  then "| Database | Environment | Type | Change | Status |" ++ newline ++
       "|----------|-------------|------|--------|--------|" ++ newline
  else "| Database | Type | Change | Status |" ++ newline ++
       "|----------|------|--------|--------|" ++ newline.

Definition renderDatabaseSection (dbChecks : list Check) (budget : Z) : string :=
  match dbChecks with
  | [] => ""
  | _ =>
      let showEnv := hasMultipleEnvironments dbChecks in
      writeRows (databaseRow showEnv) " more check(s)" budget (databaseHeader showEnv) dbChecks
  end.

Definition participantRow (c : Check) : string :=
  "| `" ++ ck_DatabaseName c ++ "` | " ++ checkStatusLabel c ++ " |" ++ newline.

Definition participantHeader : string :=
  "**Tenant deployments**" ++ newline ++ newline ++ "| Tenant | Status |" ++ newline ++
  "|--------|--------|" ++ newline.

Definition renderParticipantSection (participantChecks : list Check) : string :=
  match participantChecks with
  | [] => ""
  | _ => writeRows participantRow " more tenant(s)" (Z.of_nat maxCheckRunTextLength - 1000)
           participantHeader participantChecks
  end.

Definition buildAggregateTable (checks : list Check) : string :=
  let participantChecks := List.filter isParticipantCheck checks in
  let dbChecks := List.filter (fun c => negb (isParticipantCheck c)) checks in
  let tenantSection := renderParticipantSection participantChecks in
  let dbSection := renderDatabaseSection dbChecks
    (Z.of_nat maxCheckRunTextLength - 1000 - Z.of_nat (String.length tenantSection)) in
  if tenantSection == "" then dbSection
  else if dbSection == "" then tenantSection
  else dbSection ++ newline ++ tenantSection.

Definition countb (p : Check -> bool) (checks : list Check) : nat :=
  length (List.filter p checks).

Definition aggregateTitle (checks : list Check) (conclusion : string) : string :=
  if conclusion == checkConclusionSuccess then
    if allChecksAreUpToDate checks then "Schema up to date" else "All applies complete"
  else if conclusion == checkConclusionFailure then "Apply failed"
  else if conclusion == checkConclusionActionRequired then
    let isPending c := ck_Conclusion c == checkConclusionActionRequired in
    let pending := countb isPending checks in
    let unresolved := countb (fun c => isPending c && isUnresolvedParticipantCheck c) checks in
    if ((0 <? pending) && (unresolved =? pending))%nat then
      if (pending =? 1)%nat then "1 participant deployment has not reported"
      else itoa pending ++ " participant deployments have not reported"
    else if (pending =? 1)%nat then "1 apply pending"
    else itoa pending ++ " applies pending"
  else
    let isRunning c := ck_Status c == checkStatusInProgress in
    let inProgress := countb isRunning checks in
    let waiting := countb (fun c => isRunning c && isUnresolvedParticipantCheck c) checks in
    if ((0 <? inProgress) && (waiting =? inProgress))%nat then
      if (waiting =? 1)%nat then "Waiting for 1 participant deployment to report"
      else "Waiting for " ++ itoa waiting ++ " participant deployments to report"
    else "Apply in progress".

Definition aggregateSummary (checks : list Check) (conclusion : string) : string * string :=
  (aggregateTitle checks conclusion, buildAggregateTable checks).

(** ** Check Runs of other deployments *)

(** The client's App slug (empty while it is not known) and the trusted siblings. *)
Record ghClient := { gc_appSlug : string; gc_trustedCheckAppSlugs : list string }.

Definition isOwnAppSlug (ic : ghClient) (slug : string) : bool :=
  if slug == "" then false
  else if gc_appSlug ic == "" then false
  else EqualFold slug (gc_appSlug ic).

Definition isTrustedCheckAppSlug (ic : ghClient) (slug : string) : bool :=
  if slug == "" then false
  else if isOwnAppSlug ic slug then true
  else existsb (EqualFold slug) (gc_trustedCheckAppSlugs ic).

(** The loop over the listed runs: the newest trusted run and the untrusted slugs. *)
Definition findStep (ic : ghClient) (acc : option CheckRunInfo * list string)
    (run : CheckRunInfo) : option CheckRunInfo * list string :=
  if negb (isTrustedCheckAppSlug ic (ri_AppSlug run)) then
    (acc.1, if oneOf (ri_AppSlug run) acc.2 then acc.2 else (acc.2 ++ [ri_AppSlug run])%list)
  else match acc.1 with
  | None => (Some run, acc.2)
  | Some newest => if ri_ID newest <? ri_ID run then (Some run, acc.2) else acc
  end.

(** [None] is the error; GitHub lists the runs of that name. *)
Definition FindCheckRunByName (ic : ghClient) (runs : list CheckRunInfo) (checkName : string)
    : option (option CheckRunInfo * list string) :=
  if (gc_appSlug ic == "") && noneConfigured (gc_trustedCheckAppSlugs ic) then None
  else Some (fold_left (findStep ic)
               (List.filter (fun run => ri_Name run == checkName) runs) (None, [])).

(** ** Participants *)

Definition aggregateCheckNameForEnv (baseName env : string) : string :=
  baseName ++ " (" ++ env ++ ")".

(** [participantCheckOutcome] *)
Record participantCheckOutcome := {
  po_tenant : string;
  po_checkName : string;
  po_status : string;
  po_conclusion : string;
  po_retriable : bool;
}.

Definition unresolved (o : participantCheckOutcome) : bool :=
  po_retriable o && (po_status o == checkStatusCompleted).

Definition synthesizeParticipantCheck (outcome : participantCheckOutcome) (repo : string) (pr : Z)
    (headSHA env : string) (retryPending : bool) : Check :=
  let waits := unresolved outcome && retryPending in
  {| ck_ID := 0; ck_Repository := repo; ck_PullRequest := pr; ck_HeadSHA := headSHA;
     ck_Environment := env; ck_DatabaseType := aggregateSentinel;
     ck_DatabaseName := po_tenant outcome; ck_CheckRunID := 0; ck_ApplyID := 0;
     ck_HasChanges := po_conclusion outcome != checkConclusionSuccess;
     ck_Status := if waits then checkStatusInProgress else po_status outcome;
     ck_Conclusion := if waits then "" else po_conclusion outcome;
     ck_BlockingReason := if unresolved outcome then participantUnresolvedBlockingReason else "";
     ck_ErrorMessage := ""; ck_ChangeSummary := ""; ck_CreatedAt := 0; ck_UpdatedAt := 0 |}.

Definition blockedParticipantOutcome (tenant checkName : string) (retriable : bool)
    : participantCheckOutcome :=
  {| po_tenant := tenant; po_checkName := checkName; po_status := checkStatusCompleted;
     po_conclusion := checkConclusionActionRequired; po_retriable := retriable |}.

Definition participantCheckName (base env : string) : string :=
  if env == aggregateSentinel then base else aggregateCheckNameForEnv base env.

(** What the answer of the lookup (or its failure) means for a named participant. *)
Definition outcomeOf (tenant checkName : string)
    (answer : option (option CheckRunInfo * list string)) : participantCheckOutcome :=
  match answer with
  | None => blockedParticipantOutcome tenant checkName true
  | Some (None, _ :: _) => blockedParticipantOutcome tenant checkName false
  | Some (None, []) => blockedParticipantOutcome tenant checkName true
  | Some (Some run, _) =>
      let outcome status conclusion retriable :=
        {| po_tenant := tenant; po_checkName := checkName; po_status := status;
           po_conclusion := conclusion; po_retriable := retriable |} in
      if ri_Status run != checkStatusCompleted then outcome checkStatusInProgress "" true
      else if ri_Conclusion run == checkConclusionSuccess
      then outcome checkStatusCompleted checkConclusionSuccess false
      else if ri_Conclusion run == checkConclusionActionRequired
      then outcome checkStatusCompleted checkConclusionActionRequired false
      else outcome checkStatusCompleted checkConclusionFailure false
  end.

Definition prFilePaths (files : list PRFile) : list string := map pf_Filename files.

(** ** Lemmas: the fold *)

(** A row that lets the aggregate pass. *)
Definition passesFold (c : Check) : bool :=
  negb ((ck_Status c == checkStatusInProgress) || (ck_Conclusion c == checkConclusionFailure) ||
        (ck_Conclusion c == checkConclusionActionRequired)).

Lemma existsb_orb {A} (p q : A -> bool) l :
  existsb (fun x => p x || q x) l = existsb p l || existsb q l.
Proof. induction l as [|x l IH]; [done|]. cbn. rewrite IH. btauto. Qed.

Lemma computeAggregate_cases checks :
  computeAggregate checks =
    if forallb passesFold checks then (checkConclusionSuccess, checkStatusCompleted)
    else if existsb (fun c => ck_Status c == checkStatusInProgress) checks
    then ("", checkStatusInProgress)
    else if existsb (fun c => ck_Conclusion c == checkConclusionFailure) checks
    then (checkConclusionFailure, checkStatusCompleted)
    else (checkConclusionActionRequired, checkStatusCompleted).
Proof.
  assert (Hp : forallb passesFold checks =
    negb (existsb (fun c => ck_Status c == checkStatusInProgress) checks ||
          existsb (fun c => ck_Conclusion c == checkConclusionFailure) checks ||
          existsb (fun c => ck_Conclusion c == checkConclusionActionRequired) checks)).
  { rewrite <- !existsb_orb, <- (negb_involutive (forallb _ _)), <- existsb_negb. f_equal.
    unfold passesFold. induction checks as [|c cs IH]; [done|]. cbn. by rewrite negb_involutive, IH. }
  rewrite Hp. unfold computeAggregate.
  by destruct (existsb _ checks), (existsb _ checks), (existsb _ checks).
Qed.

(** Success is published only when every row passes. *)
Lemma computeAggregate_success checks :
  (computeAggregate checks).1 = checkConclusionSuccess <-> forallb passesFold checks = true.
Proof.
  rewrite computeAggregate_cases. destruct (forallb _ _); [done|].
  split; [|done]. by destruct (existsb _ _); [|destruct (existsb _ _)].
Qed.

Lemma computeAggregate_status checks :
  let '(conclusion, status) := computeAggregate checks in
  (status = checkStatusInProgress /\ conclusion = "") \/
  (status = checkStatusCompleted /\
   conclusion ∈ [checkConclusionSuccess; checkConclusionFailure; checkConclusionActionRequired]).
Proof.
  unfold computeAggregate. destruct (existsb _ _); [by left|].
  destruct (existsb _ _); [|destruct (existsb _ _)]; right; split; try done; set_solver.
Qed.

(** A stale row never passes. *)
Lemma contribution_passes headSHA c :
  passesFold (contribution headSHA c) = true <-> ck_HeadSHA c = headSHA /\ passesFold c = true.
Proof.
  unfold contribution. destruct (ck_HeadSHA c == headSHA) eqn:E.
  - apply eqb_true_iff in E. tauto.
  - apply eqb_false_iff in E. split; [done|tauto].
Qed.

Lemma fold_success headSHA checks :
  (computeAggregate (normalizeStaleContributions checks headSHA).1).1 = checkConclusionSuccess <->
  forall c, c ∈ checks -> ck_HeadSHA c = headSHA /\ passesFold c = true.
Proof.
  rewrite computeAggregate_success, forallb_elem. cbn. split.
  - intros H c Hc. apply contribution_passes, H, list_elem_of_fmap. eauto.
  - intros H c' (c & -> & Hc)%list_elem_of_fmap. by apply contribution_passes, H.
Qed.

(** ** Lemmas: participants *)

(** The newest of the trusted runs the loop has seen. *)
Definition newestTrusted (ic : ghClient) (runs : list CheckRunInfo) (r : option CheckRunInfo) : Prop :=
  match r with
  | None => forall x, x ∈ runs -> isTrustedCheckAppSlug ic (ri_AppSlug x) = false
  | Some run => run ∈ runs /\ isTrustedCheckAppSlug ic (ri_AppSlug run) = true /\
      forall x, x ∈ runs -> isTrustedCheckAppSlug ic (ri_AppSlug x) = true -> ri_ID x <= ri_ID run
  end.

Lemma findLoop ic runs seen r bad :
  newestTrusted ic seen r ->
  newestTrusted ic (seen ++ runs) (fold_left (findStep ic) runs (r, bad)).1.
Proof.
  revert seen r bad. induction runs as [|x runs IH]; intros seen r bad H; cbn.
  { by rewrite app_nil_r. }
  replace (seen ++ x :: runs)%list with ((seen ++ [x]) ++ runs)%list by (by rewrite <- app_assoc).
  unfold findStep at 2. cbn. destruct (isTrustedCheckAppSlug ic (ri_AppSlug x)) eqn:Ht; cbn.
  - destruct r as [run|]; cbn.
    + destruct H as (Hin & Htr & Hmax). destruct (Z.ltb_spec (ri_ID run) (ri_ID x)).
      * apply IH. split; [set_solver|]. split; [done|].
        intros y [Hy|Hy%list_elem_of_singleton]%elem_of_app Hyt; [specialize (Hmax y Hy Hyt); lia|].
        subst. lia.
      * apply IH. split; [set_solver|]. split; [done|].
        intros y [Hy|Hy%list_elem_of_singleton]%elem_of_app Hyt; [by apply Hmax|]. subst. lia.
    + apply IH. split; [set_solver|]. split; [done|].
      intros y [Hy|Hy%list_elem_of_singleton]%elem_of_app Hyt; [by rewrite H in Hyt|]. subst. lia.
  - apply IH. destruct r as [run|]; cbn in *.
    + destruct H as (Hin & Htr & Hmax). split; [set_solver|]. split; [done|].
      intros y [Hy|Hy%list_elem_of_singleton]%elem_of_app Hyt; [by apply Hmax|]. subst. congruence.
    + intros y [Hy|Hy%list_elem_of_singleton]%elem_of_app; [by apply H|]. by subst.
Qed.

Lemma FindCheckRunByName_newest ic runs name run bad :
  FindCheckRunByName ic runs name = Some (Some run, bad) ->
  run ∈ runs /\ ri_Name run = name /\ isTrustedCheckAppSlug ic (ri_AppSlug run) = true /\
  forall x, x ∈ runs -> ri_Name x = name -> isTrustedCheckAppSlug ic (ri_AppSlug x) = true ->
    ri_ID x <= ri_ID run.
Proof.
  unfold FindCheckRunByName. destruct (_ && _); [done|]. intros [= H].
  pose proof (findLoop ic (List.filter (fun run => ri_Name run == name) runs) [] None []) as Hn.
  rewrite H in Hn. cbn in Hn. destruct Hn as (Hin & Ht & Hmax); [set_solver|].
  apply list_elem_of_In, filter_In in Hin as [Hin Hname%eqb_true_iff].
  split; [by apply list_elem_of_In|]. split; [done|]. split; [done|].
  intros x Hx Hxn. apply Hmax, list_elem_of_In, filter_In.
  split; [by apply list_elem_of_In|]. by apply eqb_true_iff.
Qed.

(** The synthesized row of a participant passes only for a completed success. *)
Lemma participant_row_passes tenant name answer repo pr head env retry :
  passesFold (synthesizeParticipantCheck (outcomeOf tenant name answer) repo pr head env retry) = true
  <-> exists run bad, answer = Some (Some run, bad) /\ ri_Status run = checkStatusCompleted /\
        ri_Conclusion run = checkConclusionSuccess.
Proof.
  destruct answer as [[[run|] bad]|].
  2:{ destruct bad, retry; (split; [done|]; by intros (? & ? & [=] & _)). }
  2:{ destruct retry; (split; [done|]; by intros (? & ? & [=] & _)). }
  cbn [outcomeOf]. destruct (ri_Status run == checkStatusCompleted) eqn:Es; cbn [negb].
  2:{ apply eqb_false_iff in Es. split; [by destruct retry|]. intros (? & ? & [= <- <-] & ? & _). done. }
  apply eqb_true_iff in Es. destruct (ri_Conclusion run == checkConclusionSuccess) eqn:Ec.
  { apply eqb_true_iff in Ec. split; [|by destruct retry]. intros _. eauto 6. }
  apply eqb_false_iff in Ec. destruct (ri_Conclusion run == checkConclusionActionRequired);
    (split; [by destruct retry|]; intros (? & ? & [= <- <-] & _ & ?); done).
Qed.

(** ** Lemmas: the size of the summary *)

Lemma length_digits fuel n acc k :
  (n < 10 ^ N.of_nat k)%N -> (0 < k)%nat ->
  (String.length (digits fuel n acc) <= k + String.length acc)%nat.
Proof.
  revert n acc k. induction fuel as [|fuel IH]; intros n acc k Hn Hk; cbn [digits]; [lia|].
  destruct (n <? 10)%N eqn:E; [cbn [String.length]; lia|]. apply N.ltb_ge in E.
  destruct k as [|k]; [lia|]. destruct k as [|k]; [change (10 ^ N.of_nat 1)%N with 10%N in Hn; lia|].
  etrans; [apply (IH _ _ (S k)); [|lia]|cbn [String.length]; lia].
  rewrite Nat2N.inj_succ, N.pow_succ_r' in Hn. by apply N.Div0.div_lt_upper_bound.
Qed.

Lemma length_itoa n : (Z.of_nat n < 10 ^ 20) -> (String.length (itoa n) <= 20)%nat.
Proof.
  intros H. unfold itoa, Itoa. destruct (Z.ltb_spec (Z.of_nat n) 0); [lia|].
  unfold formatN. etrans; [apply (length_digits _ _ _ 20); [|lia]|cbn [String.length]; lia].
  apply N2Z.inj_lt. rewrite N2Z.inj_abs_N, Z.abs_eq by lia. exact H.
Qed.

(** The rows stay within the limit, and one line more when some are left out. *)
Lemma length_writeRows row left_ limit sb checks :
  (Z.of_nat (length checks) < 10 ^ 20) ->
  (Z.of_nat (String.length (writeRows row left_ limit sb checks)) <=
   Z.max (Z.of_nat (String.length sb)) limit + 30 + Z.of_nat (String.length left_)).
Proof.
  revert sb. induction checks as [|c checks IH]; intros sb Hn; cbn [writeRows]; [lia|].
  destruct (Z.ltb_spec limit (Z.of_nat (String.length sb + String.length (row c)))) as [Hl|Hl].
  - rewrite !length_sapp. pose proof (length_itoa (length (c :: checks)) Hn).
    change (String.length newline) with 1%nat. change (String.length "... and ") with 8%nat. lia.
  - etrans; [apply IH; cbn in Hn; lia|]. rewrite length_sapp. lia.
Qed.

(** ** Properties *)

(** A contribution of the commit that is not in progress. *)
Definition settledFor (headSHA : string) (c : Check) : Prop :=
  ck_HeadSHA c = headSHA /\ ck_Status c <> checkStatusInProgress.

Lemma settled_contributions headSHA checks :
  (forall c, c ∈ checks -> settledFor headSHA c) -> (normalizeStaleContributions checks headSHA).1 = checks.
Proof.
  intros H. cbn. rewrite <- (list_fmap_id checks) at 2. apply list_fmap_ext. intros i c Hc.
  apply list_elem_of_lookup_2, H in Hc as [Hc _]. unfold contribution. by rewrite (proj2 (eqb_true_iff _ _) Hc).
Qed.

Lemma existsb_conclusion checks conclusion :
  existsb (fun c => ck_Conclusion c == conclusion) checks = true <-> exists c, c ∈ checks /\ ck_Conclusion c = conclusion.
Proof. rewrite existsb_elem. by setoid_rewrite eqb_true_iff. Qed.

(** C30: the fold is fail-closed.  The aggregate concludes success for a commit
    exactly when every contributing row was stored for that commit, is not in
    progress and did not fail or ask for action.  In full: if some row was stored for
    another commit or is in progress, the aggregate is in progress without a
    conclusion; otherwise it is completed, as a failure if some row failed, otherwise
    as action required if some row asks for action, otherwise as success. *)
Theorem fold_fail_closed headSHA checks :
  let aggregate := computeAggregate (normalizeStaleContributions checks headSHA).1 in
  let concludes conclusion := exists c, c ∈ checks /\ ck_Conclusion c = conclusion in
  (aggregate.1 = checkConclusionSuccess <->
   forall c, c ∈ checks -> ck_HeadSHA c = headSHA /\ ck_Status c <> checkStatusInProgress /\
     ck_Conclusion c <> checkConclusionFailure /\
     ck_Conclusion c <> checkConclusionActionRequired) /\
  ((exists c, c ∈ checks /\ (ck_HeadSHA c <> headSHA \/ ck_Status c = checkStatusInProgress)) ->
   aggregate = ("", checkStatusInProgress)) /\
  ((forall c, c ∈ checks -> settledFor headSHA c) ->
   (concludes checkConclusionFailure -> aggregate = (checkConclusionFailure, checkStatusCompleted)) /\
   (~ concludes checkConclusionFailure -> concludes checkConclusionActionRequired ->
    aggregate = (checkConclusionActionRequired, checkStatusCompleted)) /\
   (~ concludes checkConclusionFailure -> ~ concludes checkConclusionActionRequired ->
    aggregate = (checkConclusionSuccess, checkStatusCompleted))).
Proof.
  cbn zeta. split; [|split].
  - rewrite fold_success. unfold passesFold. setoid_rewrite negb_true_iff.
    setoid_rewrite orb_false_iff. setoid_rewrite orb_false_iff. setoid_rewrite eqb_false_iff.
    split; intros H c Hc; destruct (H c Hc); tauto.
  - intros (c & Hc & Hs). unfold computeAggregate.
    rewrite (existsb_row _ _ (contribution headSHA c)); [done| |].
    + apply list_elem_of_fmap. eauto.
    + unfold contribution. destruct (ck_HeadSHA c == headSHA) eqn:E; [|done].
      apply eqb_true_iff in E. apply eqb_true_iff. tauto.
  - intros Hall. rewrite (settled_contributions _ _ Hall). unfold computeAggregate.
    destruct (existsb (fun c => ck_Status c == checkStatusInProgress) checks) eqn:Ep.
    { apply existsb_elem in Ep as (c & Hc & Hs%eqb_true_iff). by destruct (Hall c Hc). }
    rewrite <- !existsb_conclusion. split; [by intros ->|].
    split; intros Hf%not_true_iff_false; rewrite Hf; [by intros ->|by intros ->%not_true_iff_false].
Qed.

Lemma fold_fail_closed_witness :
  let row head status conclusion :=
    {| ck_ID := 1; ck_Repository := "org/app"; ck_PullRequest := 7; ck_HeadSHA := head;
       ck_Environment := "staging"; ck_DatabaseType := "mysql"; ck_DatabaseName := "pay";
       ck_CheckRunID := 0; ck_ApplyID := 0; ck_HasChanges := false; ck_Status := status;
       ck_Conclusion := conclusion; ck_BlockingReason := ""; ck_ErrorMessage := "";
       ck_ChangeSummary := ""; ck_CreatedAt := 0; ck_UpdatedAt := 0 |} in
  computeAggregate (normalizeStaleContributions [row "old" "completed" "success"] "new").1 =
    ("", checkStatusInProgress) /\
  computeAggregate (normalizeStaleContributions [row "new" "completed" "success"] "new").1 =
    (checkConclusionSuccess, checkStatusCompleted) /\
  computeAggregate (normalizeStaleContributions
    [row "new" "completed" "action_required"; row "new" "completed" "failure"] "new").1 =
    (checkConclusionFailure, checkStatusCompleted).
Proof.
  intros row. split; [|split; [reflexivity|]].
  - apply (proj1 (proj2 (fold_fail_closed "new" [row "old" "completed" "success"]))).
    exists (row "old" "completed" "success"). split; [by left|]. left. done.
  - apply (proj2 (proj2 (fold_fail_closed "new" _))).
    + intros c [->|[->|[]%elem_of_nil]%elem_of_cons]%elem_of_cons; by split.
    + exists (row "new" "completed" "failure"). split; [right; by left|done].
Defined.

(** Participants are folded fail-closed.  Whatever GitHub lists on the commit,
    whatever the lookup answers and however many retries remain, the row folded for
    an expected participant passes exactly when the newest run of that name from a
    trusted App is completed with success. *)
Theorem participant_fail_closed ic runs tenant name repo pr headSHA env retryPending :
  passesFold (synthesizeParticipantCheck
    (outcomeOf tenant name (FindCheckRunByName ic runs name)) repo pr headSHA env retryPending) = true <->
  exists run bad, FindCheckRunByName ic runs name = Some (Some run, bad) /\
    run ∈ runs /\ ri_Name run = name /\ isTrustedCheckAppSlug ic (ri_AppSlug run) = true /\
    (forall x, x ∈ runs -> ri_Name x = name -> isTrustedCheckAppSlug ic (ri_AppSlug x) = true ->
       ri_ID x <= ri_ID run) /\
    ri_Status run = checkStatusCompleted /\ ri_Conclusion run = checkConclusionSuccess.
Proof.
  rewrite participant_row_passes. split.
  - intros (run & bad & Hf & ? & ?). destruct (FindCheckRunByName_newest _ _ _ _ _ Hf) as (?&?&?&?).
    exists run, bad. tauto.
  - intros (run & bad & Hf & _ & _ & _ & _ & ? & ?). eauto.
Qed.

(** C40: the summary fits.  However many databases and tenants a pull request has,
    the rendered table stays within GitHub's limit for Check Run text. *)
Theorem aggregate_table_fits checks (Hn : Z.of_nat (length checks) < 10 ^ 20) :
  (String.length (buildAggregateTable checks) <= maxCheckRunTextLength)%nat.
Proof.
  assert (Hf : forall p, Z.of_nat (length (List.filter p checks)) < 10 ^ 20).
  { intros p. pose proof (List.filter_length_le p checks). lia. }
  unfold buildAggregateTable. set (ps := List.filter isParticipantCheck checks).
  set (ds := List.filter _ checks).
  assert (Ht : Z.of_nat (String.length (renderParticipantSection ps)) <= 64530 + 30 + 15).
  { unfold renderParticipantSection. destruct ps as [|p ps'] eqn:E; [cbn; lia|].
    etrans; [apply length_writeRows; rewrite <- E; apply Hf|]. vm_compute. done. }
  assert (Hd : forall budget, budget <= 64530 ->
    Z.of_nat (String.length (renderDatabaseSection ds budget)) <= Z.max 106 budget + 30 + 14).
  { intros budget Hb. unfold renderDatabaseSection. destruct ds as [|d ds'] eqn:E; [cbn; lia|].
    etrans; [apply length_writeRows; rewrite <- E; apply Hf|].
    assert (Z.of_nat (String.length (databaseHeader (hasMultipleEnvironments (d :: ds')))) <= 106).
    { destruct (hasMultipleEnvironments _); by vm_compute. }
    change (Z.of_nat (String.length " more check(s)")) with 14. lia. }
  assert (Hmax : Z.of_nat maxCheckRunTextLength = 65530) by (unfold maxCheckRunTextLength; lia).
  rewrite Hmax. specialize (Hd (65530 - 1000 - Z.of_nat (String.length (renderParticipantSection ps)))
    ltac:(lia)). set (t := renderParticipantSection ps) in *. set (d := renderDatabaseSection _ _) in *.
  apply Nat2Z.inj_le. rewrite Hmax.
  destruct (t == ""); [lia|]. destruct (d == ""); [lia|].
  rewrite !length_sapp. change (String.length newline) with 1%nat. lia.
Qed.

(** Five thousand unresolved participants. *)
Lemma aggregate_table_fits_witness :
  let row := synthesizeParticipantCheck (blockedParticipantOutcome "bb" "SchemaBot BB" true)
               "org/app" 7 "h1" "staging" true in
  (String.length (buildAggregateTable (replicate (Z.to_nat 5000) row)) <= maxCheckRunTextLength)%nat.
Proof.
  cbn zeta. set (row := synthesizeParticipantCheck _ _ _ _ _ _).
  apply (aggregate_table_fits (replicate (Z.to_nat 5000) row)). rewrite length_replicate. lia.
Defined.
