(* ===== verification/MergeGate.v ===== *)
(** * Publishing the aggregate Check Run (pkg/webhook/check_publisher.go)

    The writers of the one Check Run that gates a merge: the recompute from stored
    checks, the passing and failing posts, the release of stored blocks, and the
    bounded re-folds of a leader that waits for participants (participant_nudge.go).
    A GitHub call is a statement on the shared state: it may fail, and other
    deliveries run between any two calls.  A call that fails is taken not to have
    happened.  [cache] is the head commit the request's PR cache already holds. *)

From S2P Require Import Prelude GoStrings State Sql Store Config Policy Checks MergeFold.

Local Open Scope string_scope.
Local Open Scope Z_scope.

(** ** GitHub calls *)

Definition maxGitHubPRFiles : nat := Z.to_nat 3000.

Definition FetchPullRequest (cache : option string) (repo : string) (pr : Z)
    : prog gate (res string) :=
  match cache with
  | Some headSHA => Ret (Ok headSHA)
  | None => Exec (readGate (fun g => gv_HeadSHA (g_github g) repo pr)) Ret
  end.

Definition FetchPRFiles (repo : string) (pr : Z) : prog gate (res (list PRFile)) :=
  Exec (fun g => let files := gv_Files (g_github g) repo pr in
                 (g, if (maxGitHubPRFiles <=? length files)%nat
                     then Err (Errorf "PR files incomplete") else Ok files)) Ret.

Definition logCall (call : ghCall) (run : Z) (g : gate) : gate :=
  {| g_db := g_db g; g_checks := g_checks g; g_nextCheck := g_nextCheck g; g_github := g_github g;
     g_nextRun := run; g_calls := call :: g_calls g; g_refolds := g_refolds g;
     g_timers := g_timers g |}.

Definition createCheckRun (repo headSHA : string) (opts : CheckRunOptions) : prog gate (res Z) :=
  Exec (fun g => (logCall (CreateCheckRun repo headSHA (g_nextRun g) opts) (g_nextRun g + 1) g,
                  Ok (g_nextRun g))) Ret.

Definition updateCheckRun (repo : string) (id : Z) (opts : CheckRunOptions) : prog gate (res Z) :=
  Exec (fun g => (logCall (UpdateCheckRun repo id opts) (g_nextRun g) g, Ok id)) Ret.

(** ** The re-fold budget *)

Definition maxParticipantRefoldAttempts : Z := 3.

Definition set_refolds (m : gmap (string * Z) Z) (timers : list (string * Z)) (g : gate) : gate :=
  {| g_db := g_db g; g_checks := g_checks g; g_nextCheck := g_nextCheck g; g_github := g_github g;
     g_nextRun := g_nextRun g; g_calls := g_calls g; g_refolds := m; g_timers := timers |}.

Definition refoldAttempts (repo : string) (pr : Z) (g : gate) : Z :=
  default 0 (g_refolds g !! (repo, pr)).

Definition participantRefoldBudgetRemaining (repo : string) (pr : Z) : prog gate bool :=
  Exec (readGate (fun g => refoldAttempts repo pr g <? maxParticipantRefoldAttempts))
    (fun r => Ret match r with Ok b => b | Err _ => false end).

(** Arming a timer for the pull request costs one attempt of its budget. *)
Definition armRefold (repo : string) (pr : Z) (g : gate) : gate :=
  let attempts := refoldAttempts repo pr g in
  if maxParticipantRefoldAttempts <=? attempts then g
  else set_refolds (<[(repo, pr) := attempts + 1]> (g_refolds g)) ((repo, pr) :: g_timers g) g.

Definition scheduleParticipantRefold (repo : string) (pr : Z) : prog gate unit :=
  Exec (fun g => (armRefold repo pr g, Ok tt)) (fun _ => Ret tt).

Definition clearParticipantRefoldBudget (repo : string) (pr : Z) : prog gate unit :=
  Exec (fun g => (set_refolds (delete (repo, pr) (g_refolds g)) (g_timers g) g, Ok tt))
    (fun _ => Ret tt).

(** ** Rows and runs of the aggregate *)

(** The stored row of an aggregate. *)
Definition aggregateRow (repo : string) (pr : Z) (headSHA environment : string) (checkRunID : Z)
    (hasChanges : bool) (status conclusion blockingReason errorMessage : string) : Check :=
  {| ck_ID := 0; ck_Repository := repo; ck_PullRequest := pr; ck_HeadSHA := headSHA;
     ck_Environment := environment; ck_DatabaseType := aggregateSentinel;
     ck_DatabaseName := aggregateSentinel; ck_CheckRunID := checkRunID; ck_ApplyID := 0;
     ck_HasChanges := hasChanges; ck_Status := status; ck_Conclusion := conclusion;
     ck_BlockingReason := blockingReason; ck_ErrorMessage := errorMessage; ck_ChangeSummary := "";
     ck_CreatedAt := 0; ck_UpdatedAt := 0 |}.

Definition aggregateKey (repo : string) (pr : Z) (environment : string) : checkKey :=
  (repo, pr, environment, aggregateSentinel, aggregateSentinel).

(** Update the run of the same commit, or create one on the commit. *)
Definition publishRun (existing : option Check) (repo headSHA : string) (opts : CheckRunOptions)
    : prog gate (res Z) :=
  match existing with
  | Some e =>
      if negb (ck_CheckRunID e =? 0) && (ck_HeadSHA e == headSHA)
      then updateCheckRun repo (ck_CheckRunID e) opts
      else createCheckRun repo headSHA opts
  | None => createCheckRun repo headSHA opts
  end.

(** [for _, x := range l { body }] *)
Fixpoint forEach {A} (l : list A) (body : A -> prog gate unit) : prog gate unit :=
  match l with
  | [] => Ret tt
  | x :: rest => pbind (body x) (fun _ => forEach rest body)
  end.

Section Publisher.
Context (foundRows : bool) (config : ServerConfig) (ic : ghClient).

Definition scheduleLeaderRefoldIfConfigured (repo : string) (pr : Z) : prog gate unit :=
  if negb (IsAggregateLeaderForRepo (Some config) repo) then Ret tt
  else scheduleParticipantRefold repo pr.

Definition shouldPublishChecks (repo : string) : bool := AreChecksEnabled (Some config) repo.

Definition verifyHeadSHAStillCurrentForPR (cache : option string) (repo : string) (pr : Z)
    (headSHA : string) : prog gate bool :=
  if headSHA == "" then Ret false else
  pbind (FetchPullRequest cache repo pr) (fun r => Ret match r with
    | Err _ => false
    | Ok current => current == headSHA
    end).

Definition aggregateCheckNameForRepo (repo : string) : string :=
  GitHubCheckNameBaseForRepo (Some config) repo.

(** [aggregateCheckTarget]: the name of the Check Run and its environment. *)
Definition aggregateCheckTargetsForRepo (repo : string) : list (string * string) :=
  let base := aggregateCheckNameForRepo repo in
  match c_AllowedEnvironments config with
  | [] => [(base, aggregateSentinel)]
  | allowed => map (fun env => (aggregateCheckNameForEnv base env, env)) allowed
  end.

(** ** Recompute *)

Definition upsertAggregateCheckRun (repo : string) (pr : Z) (headSHA : string)
    (dbChecks : list Check) (checkName environment : string) : prog gate unit :=
  pbind (Checks.Get (aggregateKey repo pr environment)) (fun r => match r with
  | Err _ => Ret tt
  | Ok existing =>
      if match existing with Some e => ck_BlockingReason e != "" | None => false end then Ret tt
      else
        let '(contributions, staleCount) := normalizeStaleContributions dbChecks headSHA in
        let '(conclusion, status) := computeAggregate contributions in
        let '(title, summary) := aggregateSummary contributions conclusion in
        let title :=
          if (0 <? staleCount)%nat && (status == checkStatusInProgress) &&
             negb (anyInProgressOnCommit dbChecks headSHA)
          then "Awaiting results for the latest commit" else title in
        let opts := {| cr_Name := checkName; cr_Status := status;
                       cr_Conclusion := if status == checkStatusCompleted then conclusion else "";
                       cr_Title := title; cr_Summary := summary |} in
        pbind (publishRun existing repo headSHA opts) (fun r => match r with
        | Err _ => Ret tt
        | Ok checkRunID =>
            pbind (Checks.Upsert (aggregateRow repo pr headSHA environment checkRunID
                     (conclusion != checkConclusionSuccess) status conclusion "" ""))
              (fun _ => Ret tt)
        end)
  end).

Definition resolveParticipantOutcome (repo env headSHA : string) (tenant : ExpectedTenant)
    : prog gate participantCheckOutcome :=
  if et_CheckName tenant == "" then Ret (blockedParticipantOutcome (et_Tenant tenant) "" false) else
  let checkName := participantCheckName (et_CheckName tenant) env in
  Exec (readGate (fun g => FindCheckRunByName ic (gv_Runs (g_github g) repo headSHA) checkName))
    (fun r => Ret (outcomeOf (et_Tenant tenant) checkName
                     match r with Ok answer => answer | Err _ => None end)).

Fixpoint participantCheckOutcomes (repo : string) (pr : Z) (env headSHA : string)
    (expected : list ExpectedTenant) (retryPending : bool) : prog gate (list Check * bool) :=
  match expected with
  | [] => Ret ([], false)
  | tenant :: rest =>
      pbind (resolveParticipantOutcome repo env headSHA tenant) (fun outcome =>
      pbind (participantCheckOutcomes repo pr env headSHA rest retryPending) (fun '(checks, retriable) =>
      Ret (synthesizeParticipantCheck outcome repo pr headSHA env retryPending :: checks,
           po_retriable outcome || retriable)))
  end.

(** The changed files decide whom a leader waits for; [None] when they cannot be
    read. *)
Definition expectedParticipants (repo : string) (pr : Z) : prog gate (option (list ExpectedTenant)) :=
  if IsAggregateLeaderForRepo (Some config) repo then
    pbind (FetchPRFiles repo pr) (fun r => Ret match r with
      | Err _ => None
      | Ok files => Some (ExpectedParticipantChecksForPR (Some config) repo (prFilePaths files))
      end)
  else Ret (Some []).

(** The aggregate of one environment: the participants' rows join the stored ones;
    whether any participant may still resolve. *)
Definition foldEnvironment (skipEmpty : bool) (repo : string) (pr : Z) (headSHA : string)
    (rows : list Check) (expected : list ExpectedTenant) (retryPending : bool)
    (checkName env : string) : prog gate bool :=
  pbind (participantCheckOutcomes repo pr env headSHA expected retryPending)
    (fun '(participantChecks, retriable) =>
  let envChecks := (rows ++ participantChecks)%list in
  pbind (if skipEmpty && match envChecks with [] => true | _ => false end then Ret tt
         else upsertAggregateCheckRun repo pr headSHA envChecks checkName env)
    (fun _ => Ret retriable)).

(** One aggregate per allowed environment. *)
Fixpoint foldEnvironments (repo : string) (pr : Z) (headSHA : string) (dbChecks : list Check)
    (expected : list ExpectedTenant) (retryPending : bool) (allowed : list string)
    : prog gate bool :=
  match allowed with
  | [] => Ret false
  | env :: rest =>
      pbind (foldEnvironment true repo pr headSHA (filterChecksByEnvironment dbChecks env) expected
               retryPending (aggregateCheckNameForEnv (aggregateCheckNameForRepo repo) env) env)
        (fun retriable =>
      pbind (foldEnvironments repo pr headSHA dbChecks expected retryPending rest) (fun later =>
      Ret (retriable || later)))
  end.

Definition foldAggregates (repo : string) (pr : Z) (headSHA : string) (dbChecks : list Check)
    (expected : list ExpectedTenant) (retryPending : bool) : prog gate bool :=
  match c_AllowedEnvironments config with
  | [] => foldEnvironment false repo pr headSHA dbChecks expected retryPending
            (aggregateCheckNameForRepo repo) aggregateSentinel
  | allowed => foldEnvironments repo pr headSHA dbChecks expected retryPending allowed
  end.

(** The fold, and the re-fold it arms while a participant may still resolve. *)
Definition foldAndArm (repo : string) (pr : Z) (headSHA : string) (dbChecks : list Check)
    (expected : list ExpectedTenant) : prog gate unit :=
  pbind (participantRefoldBudgetRemaining repo pr) (fun retryPending =>
  pbind (foldAggregates repo pr headSHA dbChecks expected retryPending) (fun retriable =>
  if retriable then scheduleParticipantRefold repo pr
  else clearParticipantRefoldBudget repo pr)).

Definition updateAggregateCheck (cache : option string) (repo : string) (pr : Z) (headSHA : string)
    : prog gate unit :=
  if negb (shouldPublishChecks repo) then Ret tt else
  pbind (verifyHeadSHAStillCurrentForPR cache repo pr headSHA) (fun current =>
  if negb current then scheduleLeaderRefoldIfConfigured repo pr else
  pbind (Checks.GetByPR repo pr) (fun r => match r with
  | Err _ => scheduleLeaderRefoldIfConfigured repo pr
  | Ok checks =>
      let dbChecks := List.filter (fun c => negb (isAggregateCheck c)) checks in
      pbind (expectedParticipants repo pr) (fun e => match e with
      | None => scheduleParticipantRefold repo pr
      | Some expected =>
          match dbChecks, expected with
          | [], [] => Ret tt
          | _, _ => foldAndArm repo pr headSHA dbChecks expected
          end
      end)
  end)).

(** [clientForRepo]: fails or yields the client. *)
Definition clientForRepo : prog gate (res unit) := Exec (fun g => (g, Ok tt)) Ret.

Definition refoldAggregateForPR (repo : string) (pr : Z) : prog gate unit :=
  pbind clientForRepo (fun r => match r with
  | Err _ => scheduleLeaderRefoldIfConfigured repo pr
  | Ok _ =>
      Exec (readGate (fun g => (gv_HeadSHA (g_github g) repo pr, gv_State (g_github g) repo pr)))
        (fun r => match r with
        | Err _ => scheduleLeaderRefoldIfConfigured repo pr
        | Ok (headSHA, state) =>
            if state == "closed" then clearParticipantRefoldBudget repo pr
            else updateAggregateCheck None repo pr headSHA
        end)
  end).

(** ** Passing and failing posts *)

Definition postPassingAggregates (cache : option string) (repo : string) (pr : Z)
    (headSHA : string) : prog gate unit :=
  if negb (shouldPublishChecks repo) then Ret tt else
  pbind (verifyHeadSHAStillCurrentForPR cache repo pr headSHA) (fun current =>
  if negb current then Ret tt else
  pbind (Checks.GetByPR repo pr) (fun r => match r with
  | Err _ => Ret tt
  | Ok storedChecks =>
      forEach (aggregateCheckTargetsForRepo repo) (fun '(checkName, environment) =>
        if hasBlockingCheckForEnvironment storedChecks environment then Ret tt else
        let opts := {| cr_Name := checkName; cr_Status := checkStatusCompleted;
                       cr_Conclusion := checkConclusionSuccess;
                       cr_Title := "No managed schema changes";
                       cr_Summary := "This PR does not contain schema changes managed by SchemaBot." |} in
        pbind (Checks.Get (aggregateKey repo pr environment)) (fun r => match r with
        | Err _ => Ret tt
        | Ok existing =>
            if match existing with
               | Some e => (ck_HeadSHA e == headSHA) && (ck_Conclusion e == checkConclusionSuccess)
               | None => false
               end then Ret tt
            else pbind (publishRun existing repo headSHA opts) (fun r => match r with
            | Err _ => Ret tt
            | Ok checkRunID =>
                pbind (Checks.Upsert (aggregateRow repo pr headSHA environment checkRunID false
                         checkStatusCompleted checkConclusionSuccess "" "")) (fun _ => Ret tt)
            end)
        end))
  end)).

(** The text of the failure of an environment; without one, the first of the map. *)
Definition failureSummary (errors : gmap string string) (environment : string) : string :=
  match errors !! environment with
  | Some msg => msg
  | None => match map_to_list errors with (_, msg) :: _ => msg | [] => "Plan failed" end
  end.

Definition failingTargets (repo : string) (errors : gmap string string) : list (string * string) :=
  match c_AllowedEnvironments config with
  | [] => [(aggregateCheckNameForRepo repo, aggregateSentinel)]
  | allowed =>
      map (fun env => (aggregateCheckNameForEnv (aggregateCheckNameForRepo repo) env, env))
        (List.filter (fun env => bool_decide (is_Some (errors !! env))) allowed)
  end.

Definition postFailingAggregatesWithBlock (cache : option string) (repo : string) (pr : Z)
    (headSHA : string) (errors : gmap string string) (block : string) : prog gate unit :=
  if negb (shouldPublishChecks repo) then Ret tt else
  pbind (verifyHeadSHAStillCurrentForPR cache repo pr headSHA) (fun current =>
  if negb current then Ret tt else
  forEach (failingTargets repo errors) (fun '(checkName, environment) =>
    let summary := failureSummary errors environment in
    let post (blockingReason errorMessage : string) :=
      pbind (createCheckRun repo headSHA
               {| cr_Name := checkName; cr_Status := checkStatusCompleted;
                  cr_Conclusion := checkConclusionFailure; cr_Title := "Plan failed";
                  cr_Summary := summary |}) (fun r => match r with
      | Err _ => Ret tt
      | Ok id => pbind (Checks.Upsert (aggregateRow repo pr headSHA environment id false
                          checkStatusCompleted checkConclusionFailure blockingReason errorMessage))
                   (fun _ => Ret tt)
      end) in
    if block != "" then post block summary else
    pbind (Checks.Get (aggregateKey repo pr environment)) (fun r => match r with
    | Err _ => Ret tt
    | Ok (Some existing) =>
        if ck_BlockingReason existing != ""
        then post (ck_BlockingReason existing) (ck_ErrorMessage existing) else post "" ""
    | Ok None => post "" ""
    end))).

Definition allowedDatabaseEnvironments (database : string) : result ConfigErr (list string) :=
  let? environments := DatabaseEnvironments (Some config) database in
  match c_AllowedEnvironments config with
  | [] => Ok environments
  | _ => Ok (List.filter (IsEnvironmentAllowed (Some config)) environments)
  end.

(** Every database of the pull request resolves to an allowed environment. *)
Definition environmentsCovered (databases : list string) : bool :=
  forallb (fun database => match allowedDatabaseEnvironments database with
                           | Ok (_ :: _) => true
                           | _ => false
                           end) databases.

Definition clearAggregateBlocksForVerifiedPR (cache : option string) (repo : string) (pr : Z)
    (headSHA : string) (databases : list string) : prog gate unit :=
  if negb (environmentsCovered databases) then Ret tt else
  pbind (verifyHeadSHAStillCurrentForPR cache repo pr headSHA) (fun current =>
  if negb current then Ret tt else
  forEach (aggregateCheckTargetsForRepo repo) (fun '(_, environment) =>
    pbind (Checks.Get (aggregateKey repo pr environment)) (fun r => match r with
    | Ok (Some existing) =>
        if ck_BlockingReason existing == "" then Ret tt
        else pbind (Checks.ClearAggregateBlock foundRows existing) (fun _ => Ret tt)
    | _ => Ret tt
    end))).
End Publisher.

(** ** Lemmas: what a program reads and which calls it makes *)

(** Other deliveries make their own calls; here the log is this program's. *)
Definition keepsCalls (env : nat -> envStep gate) : Prop :=
  forall n g, g_calls (interfere (env n) g) = g_calls g.

(** Every run relates the states it saw, the calls it made and its result. *)
Definition effect {R} (p : prog gate R) (Q : list gate -> list ghCall -> R -> Prop) : Prop :=
  forall env n s s' r n', keepsCalls env -> runE env n p s = (s', r, n') ->
    exists new, g_calls s' = (new ++ g_calls s)%list /\ Q (trace env n p s) new r.

Lemma effect_impl {R} (p : prog gate R) (Q Q' : list gate -> list ghCall -> R -> Prop) :
  effect p Q -> (forall t new r, Q t new r -> Q' t new r) -> effect p Q'.
Proof. intros H HQ env n s s' r n' He Hr. destruct (H _ _ _ _ _ _ He Hr) as (new & ? & ?). eauto. Qed.

Lemma effect_ret {R} (r : R) (Q : list gate -> list ghCall -> R -> Prop) :
  Q [] [] r -> effect (Ret r) Q.
Proof. intros H env n s s' r' n' _ [= <- <- <-]. by exists []. Qed.

Lemma effect_bind {R R'} (p : prog gate R) (f : R -> prog gate R') Q1 Q :
  effect p Q1 ->
  (forall t new r, Q1 t new r ->
     effect (f r) (fun t' new' r' => Q (t ++ t')%list (new' ++ new)%list r')) ->
  effect (pbind p f) Q.
Proof.
  intros Hp Hf env n s s' r n' He Hr. rewrite runE_bind in Hr.
  destruct (runE env n p s) as [[s1 r1] n1] eqn:E1.
  destruct (Hp _ _ _ _ _ _ He E1) as (new & Hc & HQ).
  destruct (Hf _ _ _ HQ _ _ _ _ _ _ He Hr) as (new' & Hc' & HQ').
  exists (new' ++ new)%list. rewrite Hc', Hc, trace_bind, E1, app_assoc. done.
Qed.

(** One statement: what it logs, and how its answer continues. *)
Lemma effect_exec {R A} (stmt : gate -> gate * res A) (k : res A -> prog gate R) Q :
  (forall g e, effect (k (Err e)) (fun t new r => Q (g :: t) new r)) ->
  (forall g, exists new, g_calls (stmt g).1 = (new ++ g_calls g)%list /\
     effect (k (stmt g).2) (fun t new' r => Q (g :: t) (new' ++ new)%list r)) ->
  effect (Exec stmt k) Q.
Proof.
  intros Hfail Hok env n s s' r n' He Hr. cbn in Hr |- *.
  destruct (fault (env n)) as [e|].
  - destruct (Hfail (interfere (env n) s) e _ _ _ _ _ _ He Hr) as (new & Hc & HQ).
    exists new. rewrite Hc, He. done.
  - destruct (Hok (interfere (env n) s)) as (new & Hc & HQ).
    destruct (stmt (interfere (env n) s)) as [s1 a] eqn:E. cbn in Hc, HQ.
    destruct (HQ _ _ _ _ _ _ He Hr) as (new' & Hc' & HQ').
    exists (new' ++ new)%list. rewrite Hc', Hc, He, app_assoc. done.
Qed.

(** A program none of whose statements logs a call. *)
Definition silent {R} (p : prog gate R) : Prop :=
  forall l, preserves (fun g => g_calls g = l) p.

Lemma effect_silent {R} (p : prog gate R) : silent p -> effect p (fun _ new _ => new = []).
Proof.
  intros H env n s s' r n' He Hr. exists []. split; [|done].
  apply (runE_preserves (fun g => g_calls g = g_calls s) env p n s s' r n'); auto.
  intros m g <-. apply He.
Qed.

Lemma silent_bind {R R'} (p : prog gate R) (f : R -> prog gate R') :
  silent p -> (forall r, silent (f r)) -> silent (pbind p f).
Proof. intros Hp Hf l. apply preserves_bind; [apply Hp|]. intros r. apply Hf. Qed.

Lemma silent_Get k : silent (Checks.Get k).
Proof. by intros l. Qed.

Lemma silent_GetByPR repo pr : silent (Checks.GetByPR repo pr).
Proof. by intros l. Qed.

Lemma silent_Upsert check : silent (Checks.Upsert check).
Proof.
  intros l. apply retryLoop_preserves. split; [|done]. intros g <-. unfold upsertCheck.
  by destruct (g_checks g !! _).
Qed.

Lemma silent_updateCheck fr k p f : silent (Exec (updateCheck fr k p f) Ret).
Proof.
  intros l. split; [|done]. intros g <-. unfold updateCheck.
  destruct (g_checks g !! k) as [r|]; [|done]. by destruct (p g r).
Qed.

Lemma silent_schedule repo pr : silent (scheduleParticipantRefold repo pr).
Proof. intros l. split; [|done]. intros g <-. cbn. unfold armRefold. by destruct (_ <=? _). Qed.

Lemma silent_clear repo pr : silent (clearParticipantRefoldBudget repo pr).
Proof. by intros l. Qed.

Lemma silent_verify cache repo pr head : silent (verifyHeadSHAStillCurrentForPR cache repo pr head).
Proof. intros l. unfold verifyHeadSHAStillCurrentForPR. by destruct (head == ""), cache. Qed.

#[export] Hint Resolve silent_Get silent_GetByPR silent_Upsert silent_schedule silent_clear
  silent_verify silent_bind : schemabot.

(** ** Lemmas: the calls of the recompute *)

Definition callOptions (call : ghCall) : CheckRunOptions :=
  match call with CreateCheckRun _ _ _ o => o | UpdateCheckRun _ _ o => o end.

Definition isSuccess (call : ghCall) : Prop :=
  cr_Conclusion (callOptions call) = checkConclusionSuccess.

(** The stored aggregate carries no block. *)
Definition unblocked (repo : string) (pr : Z) (environment : string) (g : gate) : Prop :=
  match g_checks g !! aggregateKey repo pr environment with
  | Some e => ck_BlockingReason e = ""
  | None => True
  end.

Definition rowsPass (headSHA : string) (checks : list Check) : Prop :=
  forall c, c ∈ checks -> ck_HeadSHA c = headSHA /\ passesFold c = true.

(** A publishing call carries exactly its options. *)
Lemma effect_publishRun existing repo head opts :
  effect (publishRun existing repo head opts)
    (fun _ new _ => forall call, call ∈ new -> callOptions call = opts).
Proof.
  assert (Hcreate : effect (createCheckRun repo head opts)
    (fun _ new _ => forall call, call ∈ new -> callOptions call = opts)).
  { apply effect_exec; [intros; apply effect_ret; set_solver|]. intros g.
    exists [CreateCheckRun repo head (g_nextRun g) opts]. split; [done|]. apply effect_ret.
    intros call Hc. apply list_elem_of_singleton in Hc as ->. done. }
  unfold publishRun. destruct existing as [e|]; [|done]. destruct (_ && _); [|done].
  apply effect_exec; [intros; apply effect_ret; set_solver|]. intros g.
  exists [UpdateCheckRun repo (ck_CheckRunID e) opts]. split; [done|]. apply effect_ret.
  intros call Hc. apply list_elem_of_singleton in Hc as ->. done.
Qed.

Lemma effect_recompute repo pr head checks name env :
  effect (upsertAggregateCheckRun repo pr head checks name env) (fun t new _ =>
    forall call, call ∈ new -> cr_Name (callOptions call) = name /\
      (isSuccess call -> rowsPass head checks /\ exists g, g ∈ t /\ unblocked repo pr env g)).
Proof.
  unfold upsertAggregateCheckRun. cbn [Checks.Get pbind].
  apply effect_exec; [intros; apply effect_ret; set_solver|]. intros g. exists []. split; [done|].
  cbn [readGate snd]. set (existing := g_checks g !! aggregateKey repo pr env).
  destruct (match existing with Some e => ck_BlockingReason e != "" | None => false end) eqn:Hb.
  { apply effect_ret. set_solver. }
  assert (Hun : unblocked repo pr env g).
  { unfold unblocked. fold existing. destruct existing as [e|]; [|done].
    by apply negb_false_iff, eqb_true_iff in Hb. }
  destruct (normalizeStaleContributions checks head) as [contributions stale] eqn:En.
  destruct (computeAggregate contributions) as [conclusion status] eqn:Ea.
  destruct (aggregateSummary contributions conclusion) as [title summary].
  eapply effect_bind; [apply effect_publishRun|]. cbn beta. intros t new r Hnew.
  assert (Hdone : forall call, call ∈ new -> cr_Name (callOptions call) = name /\
    (isSuccess call -> rowsPass head checks)).
  { intros call Hc. unfold isSuccess. rewrite (Hnew _ Hc). cbn. split; [done|].
    intros Hs. refine (proj1 (fold_success head checks) _). rewrite En. cbn. rewrite Ea. cbn.
    destruct (status == checkStatusCompleted); [done|]. by rewrite <- Hs. }
  assert (Hfin : forall new', new' = [] -> forall t' call, call ∈ (new' ++ new ++ [])%list ->
    cr_Name (callOptions call) = name /\ (isSuccess call -> rowsPass head checks /\
      exists g', g' ∈ (g :: t ++ t')%list /\ unblocked repo pr env g')).
  { intros ? -> t' call Hc. cbn in Hc. rewrite app_nil_r in Hc. destruct (Hdone _ Hc) as [? Hs].
    split; [done|]. intros Hsucc. split; [by apply Hs|]. exists g. split; [by left|done]. }
  destruct r as [id|e].
  - eapply effect_impl; [apply effect_silent, silent_bind; [apply silent_Upsert|by intros r l]|].
    intros t' new' u ->. rewrite <- app_assoc. by apply Hfin.
  - apply effect_ret. intros call Hc. apply (Hfin [] eq_refl [] call). by rewrite app_nil_l in Hc |- *.
Qed.

(** A participant's success was seen on the commit. *)
Definition reported (ic : ghClient) (repo env headSHA : string) (t : list gate)
    (tenant : ExpectedTenant) : Prop :=
  exists g run bad, g ∈ t /\
    FindCheckRunByName ic (gv_Runs (g_github g) repo headSHA)
      (participantCheckName (et_CheckName tenant) env) = Some (Some run, bad) /\
    ri_Status run = checkStatusCompleted /\ ri_Conclusion run = checkConclusionSuccess.

Lemma reported_mono ic repo env head t t' tenant :
  (forall g, g ∈ t -> g ∈ t') -> reported ic repo env head t tenant ->
  reported ic repo env head t' tenant.
Proof. intros Hsub (g & run & bad & Hg & ?). exists g, run, bad. eauto. Qed.

Lemma effect_resolve ic repo env head tenant :
  effect (resolveParticipantOutcome ic repo env head tenant) (fun t new outcome =>
    new = [] /\ forall repo' pr retry,
      passesFold (synthesizeParticipantCheck outcome repo' pr head env retry) = true ->
      reported ic repo env head t tenant).
Proof.
  unfold resolveParticipantOutcome. destruct (et_CheckName tenant == "").
  { apply effect_ret. split; [done|]. by intros repo' pr []. }
  apply effect_exec.
  - intros g e. apply effect_ret. split; [done|]. intros repo' pr retry Hp.
    by apply participant_row_passes in Hp as (? & ? & ? & _).
  - intros g. exists []. split; [done|]. apply effect_ret. split; [done|]. intros repo' pr retry Hp.
    cbn in Hp. apply participant_row_passes in Hp as (run & bad & ? & ? & ?).
    exists g, run, bad. split; [by left|done].
Qed.

Lemma effect_participants ic repo pr env head expected retry :
  effect (participantCheckOutcomes ic repo pr env head expected retry) (fun t new r =>
    new = [] /\ (forallb passesFold r.1 = true ->
      forall tenant, tenant ∈ expected -> reported ic repo env head t tenant)).
Proof.
  induction expected as [|tenant expected IH]; cbn [participantCheckOutcomes].
  { apply effect_ret. split; [done|]. set_solver. }
  eapply effect_bind; [apply effect_resolve|]. intros t new outcome [-> Ho].
  eapply effect_bind; [apply IH|]. intros t' new' [checks retriable] [-> Hc].
  apply effect_ret. split; [done|]. cbn. rewrite andb_true_iff. intros [H1 H2] x Hx.
  rewrite app_nil_r. apply elem_of_cons in Hx as [->|Hx].
  - eapply reported_mono; [|by eapply Ho]. set_solver.
  - eapply reported_mono; [|by eapply Hc]. set_solver.
Qed.

(** Why a success call for an environment was made. *)
Definition justified (ic : ghClient) (repo : string) (pr : Z) (headSHA : string)
    (dbChecks : list Check) (expected : list ExpectedTenant) (t : list gate)
    (environment : string) : Prop :=
  rowsPass headSHA dbChecks /\
  (forall tenant, tenant ∈ expected -> reported ic repo environment headSHA t tenant) /\
  exists g, g ∈ t /\ unblocked repo pr environment g.

Lemma justified_mono ic repo pr head checks expected t t' environment :
  (forall g, g ∈ t -> g ∈ t') -> justified ic repo pr head checks expected t environment ->
  justified ic repo pr head checks expected t' environment.
Proof.
  intros Hsub (Hrows & Hrep & g & Hg & Hun). split; [done|].
  split; [intros x Hx; eapply reported_mono, Hrep; eauto|]. exists g. auto.
Qed.

Lemma rowsPass_app head a b : rowsPass head (a ++ b) <-> rowsPass head a /\ rowsPass head b.
Proof. unfold rowsPass. setoid_rewrite elem_of_app. naive_solver. Qed.

Lemma rowsPass_forallb head l : rowsPass head l -> forallb passesFold l = true.
Proof. intros H. apply forallb_elem. intros c Hc. by apply H. Qed.

(** Participants and recompute of one environment together. *)
Lemma effect_environment ic skip repo pr head rows expected retry name env :
  effect (foldEnvironment ic skip repo pr head rows expected retry name env) (fun t new _ =>
    forall call, call ∈ new -> cr_Name (callOptions call) = name /\
      (isSuccess call -> justified ic repo pr head rows expected t env)).
Proof.
  unfold foldEnvironment.
  eapply effect_bind; [apply effect_participants|]. intros t new [checks retriable] [-> Hp].
  cbn zeta. destruct (skip && _).
  { apply effect_ret. set_solver. }
  eapply effect_bind; [apply effect_recompute|]. intros t' new' u Hu.
  apply effect_ret. intros call Hc. rewrite app_nil_r in Hc. cbn in Hc.
  destruct (Hu _ Hc) as [Hname Hs]. split; [done|]. intros Hsucc.
  destruct (Hs Hsucc) as [Hr (g & Hg & Hun)].
  apply rowsPass_app in Hr as [Hr1 Hr2]. split; [done|]. split.
  - intros x Hx. eapply reported_mono; [|apply Hp; [by eapply rowsPass_forallb|done]]. set_solver.
  - exists g. split; [set_solver|done].
Qed.

(** The rows that contribute to the aggregate of an environment. *)
Definition contributing (config : ServerConfig) (dbChecks : list Check) (env : string) : list Check :=
  match c_AllowedEnvironments config with
  | [] => dbChecks
  | _ => filterChecksByEnvironment dbChecks env
  end.

Lemma effect_fold config ic repo pr head dbChecks expected retry :
  effect (foldAggregates config ic repo pr head dbChecks expected retry) (fun t new _ =>
    forall call, call ∈ new -> exists env,
      (cr_Name (callOptions call), env) ∈ aggregateCheckTargetsForRepo config repo /\
      (isSuccess call ->
       justified ic repo pr head (contributing config dbChecks env) expected t env)).
Proof.
  unfold foldAggregates, aggregateCheckTargetsForRepo, contributing.
  destruct (c_AllowedEnvironments config) as [|e0 rest].
  { eapply effect_impl; [apply effect_environment|]. intros t new r H call Hc.
    destruct (H _ Hc) as [-> Hj]. exists aggregateSentinel. split; [by left|done]. }
  generalize (e0 :: rest) as allowed. clear e0 rest. induction allowed as [|env allowed IH].
  { apply effect_ret. set_solver. }
  cbn [foldEnvironments]. eapply effect_bind; [apply effect_environment|]. intros t new retriable H1.
  eapply effect_bind; [apply IH|]. intros t' new' later H2. apply effect_ret.
  intros call Hc. rewrite app_nil_r. cbn in Hc. apply elem_of_app in Hc as [Hc|Hc].
  - destruct (H2 _ Hc) as (e & He & Hj). exists e. split; [by right|]. intros Hs.
    eapply justified_mono, Hj; [set_solver|done].
  - destruct (H1 _ Hc) as [-> Hj]. exists env. split; [by left|]. intros Hs.
    eapply justified_mono, Hj; [set_solver|done].
Qed.

(** ** Properties *)

(** What the recompute may publish, given the states it saw. *)
Definition publishable (config : ServerConfig) (ic : ghClient) (repo : string) (pr : Z)
    (headSHA : string) (t : list gate) (call : ghCall) : Prop :=
  exists environment,
    (cr_Name (callOptions call), environment) ∈ aggregateCheckTargetsForRepo config repo /\
    (isSuccess call -> exists g1 g2, g1 ∈ t /\ g2 ∈ t /\
       rowsPass headSHA (contributing config
         (List.filter (fun c => negb (isAggregateCheck c)) (checksByPR repo pr g1)) environment) /\
       (forall tenant, tenant ∈ ExpectedParticipantChecksForPR (Some config) repo
            (prFilePaths (gv_Files (g_github g2) repo pr)) ->
          reported ic repo environment headSHA t tenant) /\
       exists g3, g3 ∈ t /\ unblocked repo pr environment g3).

Lemma not_leader_no_participants config repo files :
  IsAggregateLeaderForRepo (Some config) repo = false ->
  ExpectedParticipantChecksForPR (Some config) repo files = [].
Proof.
  unfold IsAggregateLeaderForRepo, AggregateRoleForRepo, ExpectedParticipantChecksForPR.
  destruct (c_Repos config !! repo) as [rc|]; [|done]. destruct (rc_Aggregate rc) as [a|]; [|done].
  by intros ->.
Qed.

(** Whom the recompute waits for, and that it made no call to find out. *)
Lemma effect_expected config repo pr g0 :
  effect (expectedParticipants config repo pr) (fun t new e => new = [] /\
    match e with
    | None => True
    | Some expected => exists g, g ∈ (g0 :: t)%list /\
        expected = ExpectedParticipantChecksForPR (Some config) repo
                     (prFilePaths (gv_Files (g_github g) repo pr))
    end).
Proof.
  unfold expectedParticipants. destruct (IsAggregateLeaderForRepo (Some config) repo) eqn:El.
  - cbn [FetchPRFiles pbind]. apply effect_exec; [intros; by apply effect_ret|].
    intros g. exists []. split; [done|]. cbn. destruct (_ <=? _)%nat; apply effect_ret; [done|].
    split; [done|]. exists g. split; [right; by left|done].
  - apply effect_ret. split; [done|]. exists g0. split; [by left|].
    by rewrite not_leader_no_participants.
Qed.

Lemma effect_quiet {R} (p : prog gate R) Q : silent p -> (forall t r, Q t [] r) -> effect p Q.
Proof. intros Hp HQ. eapply effect_impl; [by apply effect_silent|]. intros t new r ->. apply HQ. Qed.

Lemma effect_foldAndArm config ic repo pr head dbChecks expected :
  effect (foldAndArm config ic repo pr head dbChecks expected) (fun t new _ =>
    forall call, call ∈ new -> exists environment,
      (cr_Name (callOptions call), environment) ∈ aggregateCheckTargetsForRepo config repo /\
      (isSuccess call ->
       justified ic repo pr head (contributing config dbChecks environment) expected t environment)).
Proof.
  eapply effect_bind; [apply effect_silent; by intros l|]. intros t2 new2 retry ->.
  eapply effect_bind; [apply effect_fold|]. intros t3 new3 retriable H3.
  apply effect_quiet; [destruct retriable; [apply silent_schedule|apply silent_clear]|].
  intros t4 u call Hc. rewrite app_nil_r in Hc. destruct (H3 call Hc) as (env & Hn & Hj).
  exists env. split; [done|]. intros Hs. eapply justified_mono, Hj; [set_solver|done].
Qed.

(** A justification in terms of the rows and files read makes the call publishable. *)
Lemma justified_publishable config ic repo pr head g1 g2 t t' call :
  g1 ∈ t' -> g2 ∈ t' -> (forall g, g ∈ t -> g ∈ t') ->
  (exists environment,
    (cr_Name (callOptions call), environment) ∈ aggregateCheckTargetsForRepo config repo /\
    (isSuccess call -> justified ic repo pr head (contributing config
       (List.filter (fun c => negb (isAggregateCheck c)) (checksByPR repo pr g1)) environment)
       (ExpectedParticipantChecksForPR (Some config) repo
          (prFilePaths (gv_Files (g_github g2) repo pr))) t environment)) ->
  publishable config ic repo pr head t' call.
Proof.
  intros H1 H2 Hsub (env & Hn & Hj). exists env. split; [done|]. intros Hs.
  destruct (Hj Hs) as (Hr & Hrep & g3 & Hg3 & Hun). exists g1, g2. do 3 (split; [done|]). split.
  - intros x Hx. eapply reported_mono, Hrep; done.
  - exists g3. auto.
Qed.

Lemma effect_update config ic cache repo pr headSHA :
  effect (updateAggregateCheck config ic cache repo pr headSHA)
    (fun t new _ => forall call, call ∈ new -> publishable config ic repo pr headSHA t call).
Proof.
  assert (Hlead : silent (scheduleLeaderRefoldIfConfigured config repo pr)).
  { unfold scheduleLeaderRefoldIfConfigured. destruct (negb _); [by intros l|apply silent_schedule]. }
  unfold updateAggregateCheck. destruct (negb _); [apply effect_ret; set_solver|].
  eapply effect_bind; [apply effect_silent, silent_verify|]. intros t0 new0 current ->.
  destruct (negb current); [apply effect_quiet; [done|set_solver]|].
  cbn [Checks.GetByPR pbind]. apply effect_exec.
  { intros g e. apply effect_quiet; [done|set_solver]. }
  intros g1. exists []. split; [done|]. cbn [readGate snd].
  set (dbChecks := List.filter _ _).
  eapply effect_bind; [apply (effect_expected config repo pr g1)|]. intros t1 new1 e [-> He].
  destruct e as [expected|]; [|apply effect_quiet; [apply silent_schedule|set_solver]].
  destruct He as (g2 & Hg2 & ->).
  assert (Himpl : effect (foldAndArm config ic repo pr headSHA dbChecks
      (ExpectedParticipantChecksForPR (Some config) repo (prFilePaths (gv_Files (g_github g2) repo pr))))
    (fun t new _ => forall call, call ∈ ((new ++ []) ++ []) ++ [] ->
      publishable config ic repo pr headSHA (t0 ++ g1 :: t1 ++ t)%list call)%list).
  { eapply effect_impl; [apply effect_foldAndArm|]. intros t new u H call Hc.
    rewrite !app_nil_r in Hc.
    apply (justified_publishable config ic repo pr headSHA g1 g2 t); [set_solver..|]. by apply H. }
  by destruct dbChecks, (ExpectedParticipantChecksForPR _ _ _); [apply effect_ret; set_solver| | |].
Qed.
