(* ===== verification/CheckRecords.v ===== *)
(** * Writers of stored check state (pkg/webhook)

    check_records.go and apply_check_records.go record what plans, starting applies
    and finished applies mean for a pull request; pull_request.go cleans up after a
    new commit and after a close.  Each handler is a program: other deliveries and
    the operator run between its statements. *)

From S2P Require Import Prelude GoStrings State Sql Locks Store Operations Applies Config Policy.
From S2P Require Import Checks MergeFold MergeGate.

Local Open Scope string_scope.
Local Open Scope Z_scope.

Definition putLocks (l : lockDB) (g : gate) : gate :=
  set_db {| applies := applies (g_db g); operations := operations (g_db g);
            controls := controls (g_db g); tasks := tasks (g_db g); locks := l;
            nextID := nextID (g_db g); now := now (g_db g) |} g.

Definition onLocks {R} : prog lockDB R -> prog gate R := focus (fun g => locks (g_db g)) putLocks.

(** [Applies().GetByPR] and [Applies().Get] *)
Definition createdDesc (a b : Apply) : Prop := a_CreatedAt b <= a_CreatedAt a.
#[global] Instance createdDesc_dec a b : Decision (createdDesc a b).
Proof. unfold createdDesc. apply _. Defined.

Definition appliesByPR (repo : string) (pr : Z) (s : store) : list Apply :=
  merge_sort createdDesc
    (List.filter (fun a => (a_Repository a == repo) && (a_PullRequest a =? pr)) (applies s)).

Definition applyOfID (id : Z) (s : store) : option Apply :=
  List.find (fun a => a_ID a =? id) (applies s).

(** ** Plan results *)

(** [reviewDriftState] and [reviewDriftOutcome] *)
Inductive reviewDriftState := driftNotEvaluated | driftClean | driftBlocked.

#[global] Instance reviewDriftState_eq_dec : EqDecision reviewDriftState.
Proof. solve_decision. Defined.

Record reviewDriftOutcome := { ro_state : reviewDriftState; ro_summary : string }.

Definition blocks (o : reviewDriftOutcome) : bool := bool_decide (ro_state o = driftBlocked).

Definition planDriftState (o : reviewDriftOutcome) : PlanDriftState :=
  match ro_state o with
  | driftClean => PlanDriftClean
  | driftBlocked => PlanDriftBlocked
  | driftNotEvaluated => PlanDriftNotEvaluated
  end.

(** What a schema request and its plan tell: the database, the commit, whether the
    plan lists tables or errors, and the rendered summary of its changes. *)
Record planFacts := {
  pl_HeadSHA : string;
  pl_Type : string;
  pl_Database : string;
  pl_HasTables : bool;
  pl_HasErrors : bool;
  pl_Summary : string;
}.

Definition planCheckConclusion (hasChanges hasPlanErrors driftBlocked : bool) : string :=
  if driftBlocked then checkConclusionFailure
  else if hasPlanErrors then checkConclusionFailure
  else if hasChanges then checkConclusionActionRequired
  else checkConclusionSuccess.

Definition planCheck (repo : string) (pr : Z) (plan : planFacts) (environment : string)
    (drift : reviewDriftOutcome) : Check :=
  {| ck_ID := 0; ck_Repository := repo; ck_PullRequest := pr; ck_HeadSHA := pl_HeadSHA plan;
     ck_Environment := environment; ck_DatabaseType := pl_Type plan;
     ck_DatabaseName := pl_Database plan; ck_CheckRunID := 0; ck_ApplyID := 0;
     ck_HasChanges := pl_HasTables plan; ck_Status := checkStatusCompleted;
     ck_Conclusion := planCheckConclusion (pl_HasTables plan) (pl_HasErrors plan) (blocks drift);
     ck_BlockingReason := if blocks drift then ReviewTimeDeploymentDriftBlockingReason else "";
     ck_ErrorMessage := "";
     ck_ChangeSummary := if blocks drift then ro_summary drift else pl_Summary plan;
     ck_CreatedAt := 0; ck_UpdatedAt := 0 |}.

(** The block left on a row whose schema change the pull request dropped. *)
Definition staleBlock (headSHA : string) (c : Check) : Check :=
  {| ck_ID := ck_ID c; ck_Repository := ck_Repository c; ck_PullRequest := ck_PullRequest c;
     ck_HeadSHA := headSHA; ck_Environment := ck_Environment c; ck_DatabaseType := ck_DatabaseType c;
     ck_DatabaseName := ck_DatabaseName c; ck_CheckRunID := ck_CheckRunID c;
     ck_ApplyID := ck_ApplyID c; ck_HasChanges := true;
     ck_Status := if ck_Status c == checkStatusInProgress then ck_Status c else checkStatusCompleted;
     ck_Conclusion := if ck_Status c == checkStatusInProgress then ""
                      else checkConclusionActionRequired;
     ck_BlockingReason := br_blockingReason schemaRemovedAfterApplyBlock;
     ck_ErrorMessage := br_message schemaRemovedAfterApplyBlock;
     ck_ChangeSummary := ck_ChangeSummary c; ck_CreatedAt := ck_CreatedAt c;
     ck_UpdatedAt := ck_UpdatedAt c |}.

(** The success of a row whose plan the pull request dropped. *)
Definition staleSuccess (headSHA : string) (c : Check) : Check :=
  {| ck_ID := ck_ID c; ck_Repository := ck_Repository c; ck_PullRequest := ck_PullRequest c;
     ck_HeadSHA := headSHA; ck_Environment := ck_Environment c; ck_DatabaseType := ck_DatabaseType c;
     ck_DatabaseName := ck_DatabaseName c; ck_CheckRunID := ck_CheckRunID c; ck_ApplyID := 0;
     ck_HasChanges := false; ck_Status := checkStatusCompleted;
     ck_Conclusion := checkConclusionSuccess; ck_BlockingReason := ""; ck_ErrorMessage := "";
     ck_ChangeSummary := ck_ChangeSummary c; ck_CreatedAt := ck_CreatedAt c;
     ck_UpdatedAt := ck_UpdatedAt c |}.

(** The row a starting apply claims. *)
Definition claimedCheck (applyID : Z) (c : Check) : Check :=
  {| ck_ID := ck_ID c; ck_Repository := ck_Repository c; ck_PullRequest := ck_PullRequest c;
     ck_HeadSHA := ck_HeadSHA c; ck_Environment := ck_Environment c;
     ck_DatabaseType := ck_DatabaseType c; ck_DatabaseName := ck_DatabaseName c;
     ck_CheckRunID := ck_CheckRunID c; ck_ApplyID := applyID; ck_HasChanges := true;
     ck_Status := checkStatusInProgress; ck_Conclusion := ""; ck_BlockingReason := "";
     ck_ErrorMessage := ""; ck_ChangeSummary := ck_ChangeSummary c; ck_CreatedAt := ck_CreatedAt c;
     ck_UpdatedAt := ck_UpdatedAt c |}.

(** The row of a key nothing was stored under. *)
Definition freshCheck (k : checkKey) (headSHA : string) : Check :=
  let '(repo, pr, environment, databaseType, database) := k in
  {| ck_ID := 0; ck_Repository := repo; ck_PullRequest := pr; ck_HeadSHA := headSHA;
     ck_Environment := environment; ck_DatabaseType := databaseType; ck_DatabaseName := database;
     ck_CheckRunID := 0; ck_ApplyID := 0; ck_HasChanges := false; ck_Status := "";
     ck_Conclusion := ""; ck_BlockingReason := ""; ck_ErrorMessage := ""; ck_ChangeSummary := "";
     ck_CreatedAt := 0; ck_UpdatedAt := 0 |}.

(** ** Results of applies *)

Definition isCompletedRollback (a : Apply) : bool :=
  IsRollback a && IsState (a_State a) [Apply.Completed].

Definition resultConclusion (a : Apply) (check : Check) : string :=
  if IsState (a_State a) [Apply.Completed] && checkBlockedByRemovedSchemaAfterApply check
  then checkConclusionActionRequired
  else if IsState (a_State a) [Apply.Completed] then checkConclusionSuccess
  else checkConclusionFailure.

(** The row after a result; [clear] drops the block it had. *)
Definition resultCheck (conclusion blockingReason errorMessage : string) (c : Check) : Check :=
  {| ck_ID := ck_ID c; ck_Repository := ck_Repository c; ck_PullRequest := ck_PullRequest c;
     ck_HeadSHA := ck_HeadSHA c; ck_Environment := ck_Environment c;
     ck_DatabaseType := ck_DatabaseType c; ck_DatabaseName := ck_DatabaseName c;
     ck_CheckRunID := ck_CheckRunID c; ck_ApplyID := ck_ApplyID c;
     ck_HasChanges := conclusion != checkConclusionSuccess; ck_Status := checkStatusCompleted;
     ck_Conclusion := conclusion; ck_BlockingReason := blockingReason;
     ck_ErrorMessage := errorMessage; ck_ChangeSummary := ck_ChangeSummary c;
     ck_CreatedAt := ck_CreatedAt c; ck_UpdatedAt := ck_UpdatedAt c |}.

Definition applyCheckKey : Type := string * string * string.

Definition isApplyNewer (candidate existing : Apply) : bool := a_ID existing <? a_ID candidate.

Definition latestStep (latest : gmap applyCheckKey Apply) (apply : Apply) : gmap applyCheckKey Apply :=
  let key := (a_Environment apply, a_DatabaseType apply, a_Database apply) in
  match latest !! key with
  | Some existing => if isApplyNewer apply existing then <[key := apply]> latest else latest
  | None => <[key := apply]> latest
  end.

Definition latestApplyByCheckKey (applies : list Apply) : gmap applyCheckKey Apply :=
  fold_left latestStep applies ∅.

Definition checkNeedsTerminalReconcile (check : Check) (apply : Apply) : bool :=
  if negb (IsTerminalApplyState (a_State apply)) then false
  else if ck_Status check == checkStatusInProgress then true
  else negb (ck_ApplyID check =? 0) && (ck_Conclusion check == checkConclusionSuccess) &&
       isCompletedRollback apply.

(** [closedPRDatabase] set of [inFlightAppliesForClosedPR] *)
Definition inFlightAppliesForClosedPR (applies : list Apply) : gset (string * string) :=
  list_to_set (map (fun a => (a_Database a, a_DatabaseType a))
    (List.filter (fun a => negb (IsTerminalApplyState (a_State a))) applies)).

(** ** Handlers *)

Section Handlers.
Context (ci : string -> string) (foundRows : bool) (config : ServerConfig) (ic : ghClient).

Definition upsertPlanCheckRecord (cache : option string) (repo : string) (pr : Z)
    (plan : planFacts) (environment : string) (drift : reviewDriftOutcome)
    : prog gate (res Check) :=
  if pl_HeadSHA plan == "" then Ret (Err (Errorf "schema request missing head SHA")) else
  pbind (FetchPullRequest cache repo pr) (fun r => match r with
  | Err e => Ret (Err e)
  | Ok current =>
      if current != pl_HeadSHA plan then Ret (Err (Errorf "skip stale plan check record")) else
      let check := planCheck repo pr plan environment drift in
      pbind (Checks.UpsertPlanResult foundRows check (planDriftState drift)) (fun r => Ret match r with
        | Err e => Err e
        | Ok _ => Ok check
        end)
  end).

Definition storeManualPlanCheckRecord (cache : option string) (repo : string) (pr : Z)
    (plan : planFacts) (environment : string) (drift : reviewDriftOutcome)
    : prog gate (res bool) :=
  pbind (upsertPlanCheckRecord cache repo pr plan environment drift) (fun r => match r with
  | Err e => Ret (Err e)
  | Ok check =>
      if blocks drift then Ret (Ok false)
      else Checks.RecoverApplyOwnedCheckWithNoOpPlan foundRows check
  end).

Definition storeApplyPlanCheckRecord (cache : option string) (repo : string) (pr : Z)
    (plan : planFacts) (environment : string) : prog gate (res Check) :=
  upsertPlanCheckRecord cache repo pr plan environment
    {| ro_state := driftNotEvaluated; ro_summary := "" |}.

Definition updateCheckRecordForApplyResult (repo : string) (pr : Z) (apply : Apply)
    : prog gate (res bool) :=
  pbind (Checks.Get (repo, pr, a_Environment apply, a_DatabaseType apply, a_Database apply))
    (fun r => match r with
  | Err e => Ret (Err e)
  | Ok None => Ret (Err (Errorf "no stored check state found to update after apply"))
  | Ok (Some check) =>
      if IsState (a_State apply) [Apply.Stopped] then Ret (Ok false)
      else if isCompletedRollback apply then
        Checks.MarkActionRequiredForApply foundRows
          (resultCheck checkConclusionActionRequired (br_blockingReason rollbackCompletedBlock)
             (br_message rollbackCompletedBlock) check) apply
      else
        let conclusion := resultConclusion apply check in
        let clear := conclusion == checkConclusionSuccess in
        Checks.CompleteForApply foundRows
          (resultCheck conclusion (if clear then "" else ck_BlockingReason check)
             (if clear then "" else ck_ErrorMessage check) check) apply
  end).

Definition refreshChecksForTerminalApply (cache : option string) (a : Apply) : prog gate unit :=
  pbind (updateCheckRecordForApplyResult (a_Repository a) (a_PullRequest a) a) (fun r => match r with
  | Ok true =>
      pbind clientForRepo (fun r => match r with
      | Err _ => Ret tt
      | Ok _ =>
          pbind (Checks.Get (a_Repository a, a_PullRequest a, a_Environment a, a_DatabaseType a,
                             a_Database a)) (fun r => match r with
          | Ok (Some checkRecord) =>
              updateAggregateCheck config ic cache (a_Repository a) (a_PullRequest a)
                (ck_HeadSHA checkRecord)
          | _ => Ret tt
          end)
      end)
  | _ => Ret tt
  end).

Definition updateCheckRecordForApplyStart (cache : option string) (repo : string) (pr : Z)
    (databaseType database environment : string) (applyID : Z) : prog gate (res unit) :=
  let k := (repo, pr, environment, databaseType, database) in
  let claim (check : Check) : prog gate (res unit) :=
    pbind (Checks.Upsert check) (fun r => match r with
    | Err e => Ret (Err e)
    | Ok _ =>
        Exec (readGate (fun g => applyOfID applyID (g_db g))) (fun r => match r with
        | Err e => Ret (Err e)
        | Ok None => Ret (Err (Errorf "apply missing after check claim"))
        | Ok (Some apply) =>
            pbind (if IsTerminalApplyState (a_State apply)
                   then refreshChecksForTerminalApply cache apply else Ret tt) (fun _ =>
            pbind (updateAggregateCheck config ic cache repo pr (ck_HeadSHA check)) (fun _ =>
            Ret (Ok tt)))
        end)
    end) in
  pbind (Checks.Get k) (fun r => match r with
  | Err e => Ret (Err e)
  | Ok (Some check) =>
      if ck_BlockingReason check == ReviewTimeDeploymentDriftBlockingReason
      then Ret (Err (Errorf "apply start refused: review-time deployment drift block present"))
      else claim (claimedCheck applyID check)
  | Ok None =>
      pbind (FetchPullRequest cache repo pr) (fun r => match r with
      | Err e => Ret (Err e)
      | Ok headSHA => claim (claimedCheck applyID (freshCheck k headSHA))
      end)
  end).

(** The loop of [reconcileStaleChecks]; whether any row was repaired. *)
Fixpoint reconcileRows (repo : string) (pr : Z) (latest : gmap applyCheckKey Apply)
    (checks : list Check) : prog gate (res bool) :=
  match checks with
  | [] => Ret (Ok false)
  | check :: rest =>
      if isAggregateCheck check then reconcileRows repo pr latest rest else
      match latest !! (ck_Environment check, ck_DatabaseType check, ck_DatabaseName check) with
      | None => reconcileRows repo pr latest rest
      | Some apply =>
          if negb (checkNeedsTerminalReconcile check apply) then reconcileRows repo pr latest rest else
          pbind (updateCheckRecordForApplyResult repo pr apply) (fun r => match r with
          | Err e => Ret (Err e)
          | Ok updated =>
              pbind (reconcileRows repo pr latest rest) (fun r => Ret match r with
                | Err e => Err e
                | Ok later => Ok (updated || later)
                end)
          end)
      end
  end.

Definition reconcileStaleChecks (cache : option string) (repo : string) (pr : Z)
    : prog gate (res unit) :=
  pbind (Checks.GetByPR repo pr) (fun r => match r with
  | Err e => Ret (Err e)
  | Ok checks =>
      Exec (readGate (fun g => appliesByPR repo pr (g_db g))) (fun r => match r with
      | Err e => Ret (Err e)
      | Ok applies =>
          pbind (reconcileRows repo pr (latestApplyByCheckKey applies) checks) (fun r => match r with
          | Err e => Ret (Err e)
          | Ok false => Ret (Ok tt)
          | Ok true =>
              pbind (FetchPullRequest cache repo pr) (fun r => match r with
              | Err e => Ret (Err e)
              | Ok headSHA =>
                  if headSHA == "" then Ret (Ok tt) else
                  pbind (updateAggregateCheck config ic cache repo pr headSHA) (fun _ => Ret (Ok tt))
              end)
          end)
      end)
  end).

(** ** Cleanup after a new commit *)

Definition blockStaleStartedApplyCheckState (headSHA : string) (check : Check) : prog gate bool :=
  pbind (Checks.Upsert (staleBlock headSHA check)) (fun r => Ret match r with
    | Err _ => false
    | Ok _ => true
    end).

Definition markStalePlanOnlyCheckStateSuccessful (headSHA : string) (check : Check)
    : prog gate bool :=
  pbind (Checks.MarkStalePlanSuccessful foundRows (staleSuccess headSHA check)) (fun r => Ret match r with
    | Err _ => false
    | Ok _ => true
    end).

(** The loop of [cleanupStaleChecks]; whether any row was written. *)
Fixpoint cleanupRows (headSHA : string) (affectedDatabases : gset string) (checks : list Check)
    : prog gate bool :=
  match checks with
  | [] => Ret false
  | check :: rest =>
      if isAggregateCheck check || bool_decide (ck_DatabaseName check ∈ affectedDatabases)
      then cleanupRows headSHA affectedDatabases rest
      else pbind (if checkHasStartedApply check
                  then blockStaleStartedApplyCheckState headSHA check
                  else markStalePlanOnlyCheckStateSuccessful headSHA check) (fun cleaned =>
           pbind (cleanupRows headSHA affectedDatabases rest) (fun later => Ret (cleaned || later)))
  end.

Definition cleanupStaleChecks (repo : string) (pr : Z) (headSHA : string)
    (affectedDatabases : gset string) : prog gate unit :=
  pbind clientForRepo (fun r => match r with
  | Err _ => Ret tt
  | Ok _ =>
      pbind (verifyHeadSHAStillCurrentForPR None repo pr headSHA) (fun current =>
      if negb current then Ret tt else
      pbind (Checks.GetByPR repo pr) (fun r => match r with
      | Err _ => Ret tt
      | Ok checks =>
          pbind (cleanupRows headSHA affectedDatabases checks) (fun cleaned =>
          if cleaned then updateAggregateCheck config ic None repo pr headSHA else Ret tt)
      end))
  end).

(** ** Cleanup after a close *)

Definition releaseLocksForClosedPR (repo : string) (pr : Z) (inFlight : gset (string * string))
    : prog gate unit :=
  pbind (onLocks (Locks.GetByPR ci repo pr)) (fun r => match r with
  | Err _ => Ret tt
  | Ok locks =>
      forEach locks (fun lock =>
        if bool_decide ((DatabaseName lock, DatabaseType lock) ∈ inFlight) then Ret tt
        else pbind (onLocks (Locks.Release ci (DatabaseName lock) (DatabaseType lock) (Owner lock)))
               (fun _ => Ret tt))
  end).

Definition handlePRClosed (repo : string) (pr : Z) (merged : bool) : prog gate unit :=
  pbind (clearParticipantRefoldBudget repo pr) (fun _ =>
  Exec (readGate (fun g => appliesByPR repo pr (g_db g))) (fun r => match r with
  | Err _ => Ret tt
  | Ok applies =>
      let inFlight := inFlightAppliesForClosedPR applies in
      pbind (releaseLocksForClosedPR repo pr inFlight) (fun _ =>
      if bool_decide (inFlight = ∅)
      then pbind (Checks.DeleteByPRRetainingBlockingApplyOwned repo pr merged) (fun _ => Ret tt)
      else Ret tt)
  end)).
End Handlers.
