(* ===== verification/GateInvariant.v ===== *)
(** * Invariants of the merge gate under concurrency

    Every handler that writes stored check state, as one family of operations whose
    statements interleave freely: the shape of the rows, and the protection of a
    row that a running apply has claimed. *)

From S2P Require Import Prelude GoStrings State Sql Locks Store Operations Applies Config Policy.
From S2P Require Import Validate Checks MergeFold MergeGate CheckRecords.

Local Open Scope string_scope.
Local Open Scope Z_scope.

(** ** The operations *)

Inductive gateOp :=
| OpPlan (cache : option string) (repo : string) (pr : Z) (plan : planFacts) (environment : string)
    (drift : reviewDriftOutcome)
| OpManualPlan (cache : option string) (repo : string) (pr : Z) (plan : planFacts)
    (environment : string) (drift : reviewDriftOutcome)
| OpApplyStart (cache : option string) (repo : string) (pr : Z)
    (databaseType database environment : string) (applyID : Z)
| OpApplyResult (cache : option string) (apply : Apply)
| OpReconcile (cache : option string) (repo : string) (pr : Z)
| OpAggregate (cache : option string) (repo : string) (pr : Z) (headSHA : string)
| OpRefold (repo : string) (pr : Z)
| OpPassing (cache : option string) (repo : string) (pr : Z) (headSHA : string)
| OpFailing (cache : option string) (repo : string) (pr : Z) (headSHA : string)
    (errors : gmap string string) (block : string)
| OpClearBlocks (cache : option string) (repo : string) (pr : Z) (headSHA : string)
    (databases : list string)
| OpCleanup (repo : string) (pr : Z) (headSHA : string) (affected : gset string)
| OpMarkStale (headSHA : string) (check : Check)
| OpClose (repo : string) (pr : Z) (merged : bool).

Definition void {R} (p : prog gate R) : prog gate unit := pbind p (fun _ => Ret tt).

Section Ops.
Context (ci : string -> string) (foundRows : bool) (config : ServerConfig) (ic : ghClient).

Definition gateProg (op : gateOp) : prog gate unit :=
  match op with
  | OpPlan cache repo pr plan env drift =>
      void (upsertPlanCheckRecord foundRows cache repo pr plan env drift)
  | OpManualPlan cache repo pr plan env drift =>
      void (storeManualPlanCheckRecord foundRows cache repo pr plan env drift)
  | OpApplyStart cache repo pr ty db env id =>
      void (updateCheckRecordForApplyStart foundRows config ic cache repo pr ty db env id)
  | OpApplyResult cache apply => refreshChecksForTerminalApply foundRows config ic cache apply
  | OpReconcile cache repo pr => void (reconcileStaleChecks foundRows config ic cache repo pr)
  | OpAggregate cache repo pr head => updateAggregateCheck config ic cache repo pr head
  | OpRefold repo pr => refoldAggregateForPR config ic repo pr
  | OpPassing cache repo pr head => postPassingAggregates config cache repo pr head
  | OpFailing cache repo pr head errors block =>
      postFailingAggregatesWithBlock config cache repo pr head errors block
  | OpClearBlocks cache repo pr head dbs =>
      clearAggregateBlocksForVerifiedPR foundRows config cache repo pr head dbs
  | OpCleanup repo pr head affected => cleanupStaleChecks foundRows config ic repo pr head affected
  | OpMarkStale head check => void (markStalePlanOnlyCheckStateSuccessful foundRows head check)
  | OpClose repo pr merged => handlePRClosed ci repo pr merged
  end.
End Ops.

(** ** What an invariant of the gate must respect

    The interface between the check store and the handlers: an invariant of the
    stored rows is kept by the statements of the store; [okUpsert] says which rows
    may be written blindly.  The handlers are then checked once for all
    invariants. *)

Definition shaped (c : Check) : Prop :=
  (ck_Status c = checkStatusInProgress /\ ck_Conclusion c = "") \/
  (ck_Status c = checkStatusCompleted /\
   ck_Conclusion c ∈ [checkConclusionSuccess; checkConclusionFailure; checkConclusionActionRequired]).

(** [keeps I stmt]: the statement keeps [I]. *)
Definition stmtKeeps {A} (I : gate -> Prop) (stmt : gate -> gate * res A) : Prop :=
  forall g, I g -> I (stmt g).1.

Class RowInvariant (I : gate -> Prop) (okUpsert : Check -> Prop) : Prop := {
  inv_ext g g' : g_checks g' = g_checks g -> I g -> I g';
  inv_upsert check : okUpsert check -> stmtKeeps I (upsertCheck check);
  inv_aggregate repo pr head env id changes status conclusion reason msg :
    shaped (aggregateRow repo pr head env id changes status conclusion reason msg) ->
    okUpsert (aggregateRow repo pr head env id changes status conclusion reason msg);
  inv_insertPlan check : shaped check -> stmtKeeps I (insertPlanCheck check);
  inv_updatePlan foundRows check drift : shaped check ->
    stmtKeeps I (updateCheck foundRows (keyOf check) (fun _ r => negb (applyInProgress r))
                   (planSet check drift));
  inv_markStale foundRows check : shaped check ->
    stmtKeeps I (updateCheck foundRows (keyOf check)
                   (fun _ r => (ck_Status r != checkStatusInProgress) && (ck_ApplyID r =? 0))
                   (fun r => assignCheck check 0 (keepSummary check r) r));
  inv_clear foundRows check :
    stmtKeeps I (updateCheck foundRows (keyOf check)
                   (fun _ r => (ck_HeadSHA r == ck_HeadSHA check) &&
                               (ck_BlockingReason r == ck_BlockingReason check)) clearBlock);
  inv_close repo pr merged g : I g -> I (deleteRows (closedDeletes repo pr merged) g);
}.

(** An invariant that the end of an apply keeps too. *)
Class ResultInvariant (I : gate -> Prop) : Prop := {
  inv_recover foundRows check : shaped check ->
    stmtKeeps I (updateCheck foundRows (keyOf check)
                   (fun _ r => (ck_Status r == checkStatusInProgress) &&
                               (ck_HeadSHA r == ck_HeadSHA check) && negb (ck_ApplyID r =? 0))
                   (fun r => assignCheck check 0 (keepSummary check r) r));
  inv_complete foundRows check apply : shaped check ->
    stmtKeeps I (updateCheck foundRows (keyOf check)
          (fun g r => (ck_Status r == checkStatusInProgress) && negb (ck_ApplyID r =? 0) &&
                      (ck_ApplyID r =? a_ID apply) && negb (newerApply (g_db g) (a_ID apply) r) &&
                      leasePredicate (applyLease apply) (g_db g))
          (fun r => assignCheck check (a_ID apply) (keepSummary check r) r));
  inv_markAction foundRows check apply : shaped check ->
    stmtKeeps I (updateCheck foundRows (keyOf check)
          (fun g r => ((ck_ApplyID r =? 0) || (ck_ApplyID r <=? a_ID apply)) &&
                      negb (newerApply (g_db g) (a_ID apply) r) &&
                      leasePredicate (applyLease apply) (g_db g))
          (fun r => assignCheck check 0 (keepSummary check r) r));
}.

(** ** Walking through programs *)

Lemma keeps_Exec {A R} (I : gate -> Prop) (stmt : gate -> gate * res A) (k : res A -> prog gate R) :
  stmtKeeps I stmt -> (forall a, preserves I (k a)) -> preserves I (Exec stmt k).
Proof. intros H Hk. by split. Qed.

(** The results a program can return. *)
Fixpoint returns {S R} (Q : R -> Prop) (p : prog S R) : Prop :=
  match p with
  | Ret r => Q r
  | Exec _ k => forall a, returns Q (k a)
  end.

Lemma returns_bind {S R R'} (Q : R -> Prop) (Q' : R' -> Prop) (p : prog S R) (f : R -> prog S R') :
  returns Q p -> (forall r, Q r -> returns Q' (f r)) -> returns Q' (pbind p f).
Proof. intros Hp Hf. induction p as [r|A stmt k IH]; cbn in *; [by apply Hf|]. intros a. by apply IH. Qed.

Lemma preserves_bind_returns {S R R'} (I : S -> Prop) (Q : R -> Prop) (p : prog S R)
    (f : R -> prog S R') :
  preserves I p -> returns Q p -> (forall r, Q r -> preserves I (f r)) -> preserves I (pbind p f).
Proof.
  induction p as [r|A stmt k IH]; cbn; [by intros _ ? H; apply H|].
  intros [Hs Hk] HQ Hf. split; [done|]. intros a. by apply IH.
Qed.

Lemma keeps_read {A} (I : gate -> Prop) (f : gate -> A) : stmtKeeps I (readGate f).
Proof. by intros g. Qed.

Create HintDb gate.

(** Walks through a handler: statements are closed by [gate]. *)
Ltac walk :=
  cbn beta iota zeta;
  lazymatch goal with
  | |- preserves _ (Ret _) => exact Logic.I
  | |- preserves _ (pbind _ _) => apply preserves_bind; [walk|intros ?; walk]
  | |- preserves _ (Exec _ _) => apply keeps_Exec; [solve [eauto with gate]|intros ?; walk]
  | |- preserves _ (if ?b then _ else _) => destruct b eqn:?; walk
  | |- preserves _ (match ?x with _ => _ end) => destruct x eqn:?; walk
  | |- _ => solve [eauto 3 with gate]
  end.

Lemma shaped_planCheck repo pr plan env drift : shaped (planCheck repo pr plan env drift).
Proof.
  right. split; [done|]. cbn. unfold planCheckConclusion.
  destruct (blocks drift), (pl_HasErrors plan), (pl_HasTables plan); set_solver.
Qed.

Lemma shaped_result conclusion reason msg c :
  conclusion ∈ [checkConclusionSuccess; checkConclusionFailure; checkConclusionActionRequired] ->
  shaped (resultCheck conclusion reason msg c).
Proof. by right. Qed.

Section Walk.
Context (I : gate -> Prop) (okUpsert : Check -> Prop) `{HI : RowInvariant I okUpsert}.

Lemma keeps_same {A} (stmt : gate -> gate * res A) :
  (forall g, g_checks (stmt g).1 = g_checks g) -> stmtKeeps I stmt.
Proof using HI. intros H g. by apply inv_ext. Qed.

Lemma walk_Get k : preserves I (Checks.Get k).
Proof. by apply keeps_Exec; [apply keeps_read|]. Qed.

Lemma walk_GetByPR repo pr : preserves I (Checks.GetByPR repo pr).
Proof. by apply keeps_Exec; [apply keeps_read|]. Qed.

Lemma walk_Fetch cache repo pr : preserves I (FetchPullRequest cache repo pr).
Proof. destruct cache; [done|]. by apply keeps_Exec; [apply keeps_read|]. Qed.

Lemma walk_Upsert check : okUpsert check -> preserves I (Checks.Upsert check).
Proof using HI. intros H. apply retryLoop_preserves. by apply keeps_Exec; [apply inv_upsert|]. Qed.

Lemma walk_publish existing repo head opts : preserves I (publishRun existing repo head opts).
Proof using HI.
  assert (Hc : preserves I (createCheckRun repo head opts)) by (by apply keeps_Exec; [apply keeps_same|]).
  unfold publishRun. destruct existing; [|done]. destruct (_ && _); [|done].
  by apply keeps_Exec; [apply keeps_same|].
Qed.

Lemma walk_schedule repo pr : preserves I (scheduleParticipantRefold repo pr).
Proof using HI.
  apply keeps_Exec; [|done]. apply keeps_same. intros g. cbn. unfold armRefold. by destruct (_ <=? _).
Qed.

Lemma walk_budget repo pr : preserves I (clearParticipantRefoldBudget repo pr).
Proof using HI. by apply keeps_Exec; [apply keeps_same|]. Qed.

Lemma walk_forEach {A} (l : list A) body :
  (forall x, x ∈ l -> preserves I (body x)) -> preserves I (forEach l body).
Proof.
  induction l as [|x l IH]; intros H; [done|]. cbn. apply preserves_bind; [apply H; by left|].
  intros _. apply IH. intros y Hy. apply H. by right.
Qed.

#[local] Hint Resolve keeps_read walk_Get walk_GetByPR walk_Fetch walk_publish walk_schedule
  walk_budget : gate.

Lemma walk_verify cache repo pr head : preserves I (verifyHeadSHAStillCurrentForPR cache repo pr head).
Proof. unfold verifyHeadSHAStillCurrentForPR. walk. Qed.

Lemma walk_leader config repo pr : preserves I (scheduleLeaderRefoldIfConfigured config repo pr).
Proof using HI. unfold scheduleLeaderRefoldIfConfigured. walk. Qed.

Lemma walk_client : preserves I clientForRepo.
Proof. by split. Qed.

Lemma walk_recompute repo pr head checks name env :
  preserves I (upsertAggregateCheckRun repo pr head checks name env).
Proof using HI.
  unfold upsertAggregateCheckRun. apply preserves_bind; [auto with gate|]. intros [existing|e]; [|done].
  destruct (match existing with Some e => ck_BlockingReason e != "" | None => false end); [done|].
  destruct (normalizeStaleContributions checks head) as [cs stale].
  pose proof (computeAggregate_status cs) as Hs. destruct (computeAggregate cs) as [conclusion status].
  destruct (aggregateSummary cs conclusion) as [title summary].
  apply preserves_bind; [auto with gate|]. intros [id|e]; [|done].
  apply preserves_bind; [|done]. apply walk_Upsert, inv_aggregate. exact Hs.
Qed.

Lemma walk_resolve ic repo env head tenant : preserves I (resolveParticipantOutcome ic repo env head tenant).
Proof. unfold resolveParticipantOutcome. walk. Qed.

Lemma walk_participants ic repo pr env head expected retry :
  preserves I (participantCheckOutcomes ic repo pr env head expected retry).
Proof.
  induction expected as [|tenant expected IH]; [done|]. cbn [participantCheckOutcomes].
  apply preserves_bind; [apply walk_resolve|]. intros outcome.
  apply preserves_bind; [apply IH|]. by intros [checks retriable].
Qed.

Lemma walk_environment ic skip repo pr head rows expected retry name env :
  preserves I (foldEnvironment ic skip repo pr head rows expected retry name env).
Proof using HI.
  unfold foldEnvironment. apply preserves_bind; [apply walk_participants|]. intros [checks retriable].
  apply preserves_bind; [|done]. destruct (skip && _); [done|]. apply walk_recompute.
Qed.

Lemma walk_fold config ic repo pr head rows expected retry :
  preserves I (foldAggregates config ic repo pr head rows expected retry).
Proof using HI.
  unfold foldAggregates. destruct (c_AllowedEnvironments config) as [|e0 l]; [apply walk_environment|].
  generalize (e0 :: l) as allowed. induction allowed as [|env allowed IH]; [done|].
  cbn [foldEnvironments]. apply preserves_bind; [apply walk_environment|]. intros retriable.
  by apply preserves_bind.
Qed.

Lemma walk_expected config repo pr : preserves I (expectedParticipants config repo pr).
Proof using HI.
  unfold expectedParticipants. destruct (IsAggregateLeaderForRepo _ _); [|done].
  apply preserves_bind; [|done]. by apply keeps_Exec; [apply keeps_same|].
Qed.

#[local] Hint Resolve walk_verify walk_leader walk_client walk_recompute walk_fold walk_expected
  : gate.

Lemma walk_update config ic cache repo pr head :
  preserves I (updateAggregateCheck config ic cache repo pr head).
Proof using HI.
  unfold updateAggregateCheck, foldAndArm, participantRefoldBudgetRemaining. walk.
Qed.

#[local] Hint Resolve walk_update : gate.

Lemma walk_refold config ic repo pr : preserves I (refoldAggregateForPR config ic repo pr).
Proof using HI. unfold refoldAggregateForPR. walk. Qed.

Lemma walk_passing config cache repo pr head :
  preserves I (postPassingAggregates config cache repo pr head).
Proof using HI.
  unfold postPassingAggregates. destruct (negb _); [done|].
  apply preserves_bind; [auto with gate|]. intros current. destruct (negb current); [done|].
  apply preserves_bind; [auto with gate|]. intros [stored|e]; [|done].
  apply walk_forEach. intros [name env] _. destruct (hasBlockingCheckForEnvironment stored env); [done|].
  apply preserves_bind; [auto with gate|]. intros [existing|e]; [|done].
  destruct (match existing with Some _ => _ | None => _ end); [done|].
  apply preserves_bind; [auto with gate|]. intros [id|e]; [|done].
  apply preserves_bind; [|done]. apply walk_Upsert, inv_aggregate. right. split; [done|by left].
Qed.

Lemma walk_failing config cache repo pr head errors block :
  preserves I (postFailingAggregatesWithBlock config cache repo pr head errors block).
Proof using HI.
  unfold postFailingAggregatesWithBlock. destruct (negb _); [done|].
  apply preserves_bind; [auto with gate|]. intros current. destruct (negb current); [done|].
  apply walk_forEach. intros [name env] _. cbn zeta.
  assert (Hpost : forall reason msg, preserves I (pbind (createCheckRun repo head
      {| cr_Name := name; cr_Status := checkStatusCompleted; cr_Conclusion := checkConclusionFailure;
         cr_Title := "Plan failed"; cr_Summary := failureSummary errors env |}) (fun r => match r with
      | Err _ => Ret tt
      | Ok id => pbind (Checks.Upsert (aggregateRow repo pr head env id false
                          checkStatusCompleted checkConclusionFailure reason msg)) (fun _ => Ret tt)
      end))).
  { intros reason msg. apply preserves_bind; [by apply keeps_Exec; [apply keeps_same|]|].
    intros [id|e]; [|done]. apply preserves_bind; [|done].
    apply walk_Upsert, inv_aggregate. right. split; [done|right; by left]. }
  destruct (negb _); [apply Hpost|]. apply preserves_bind; [auto with gate|].
  intros [[existing|]|e]; [|apply Hpost|done]. destruct (negb _); apply Hpost.
Qed.

Lemma walk_clearBlocks fr config cache repo pr head dbs :
  preserves I (clearAggregateBlocksForVerifiedPR fr config cache repo pr head dbs).
Proof using HI.
  unfold clearAggregateBlocksForVerifiedPR. destruct (negb _); [done|].
  apply preserves_bind; [auto with gate|]. intros current. destruct (negb current); [done|].
  apply walk_forEach. intros [name env] _. apply preserves_bind; [auto with gate|].
  intros [[existing|]|e]; [|done|done]. destruct (_ == ""); [done|].
  apply preserves_bind; [|done]. by apply keeps_Exec; [apply inv_clear|].
Qed.

Lemma walk_plan fr cache repo pr plan env drift :
  preserves I (upsertPlanCheckRecord fr cache repo pr plan env drift).
Proof using HI.
  unfold upsertPlanCheckRecord. destruct (_ == ""); [done|].
  apply preserves_bind; [auto with gate|]. intros [current|e]; [|done]. destruct (negb _); [done|].
  cbn zeta. pose proof (shaped_planCheck repo pr plan env drift) as Hs.
  apply preserves_bind; [|by intros [[]|e]]. apply retryLoop_preserves.
  apply keeps_Exec; [by apply inv_insertPlan|]. intros [[]|e]; [done|]. destruct (negb _); [done|].
  apply keeps_Exec; [by apply inv_updatePlan|]. by intros [rows|e'].
Qed.

Lemma walk_markStale fr head check : preserves I (markStalePlanOnlyCheckStateSuccessful fr head check).
Proof using HI.
  unfold markStalePlanOnlyCheckStateSuccessful, MarkStalePlanSuccessful.
  apply preserves_bind; [|done]. apply keeps_Exec.
  - apply inv_markStale. right. split; [done|by left].
  - intros [rows|e]; [|done]. destruct (0 <? rows); [done|].
    apply preserves_bind; [auto with gate|done].
Qed.

Lemma walk_onLocks {R} (p : prog lockDB R) : preserves I (onLocks p).
Proof using HI.
  unfold onLocks. induction p as [r|A stmt k IH]; [done|]. cbn. apply keeps_Exec; [|apply IH].
  apply keeps_same. intros g. by destruct (stmt (locks (g_db g))).
Qed.

Lemma walk_close ci repo pr merged : preserves I (handlePRClosed ci repo pr merged).
Proof using HI.
  unfold handlePRClosed. apply preserves_bind; [auto with gate|]. intros _.
  apply keeps_Exec; [apply keeps_read|]. intros [applies|e]; [|done].
  apply preserves_bind.
  - unfold releaseLocksForClosedPR. apply preserves_bind; [apply walk_onLocks|].
    intros [ls|e]; [|done]. apply walk_forEach. intros lock _. case_bool_decide; [done|].
    apply preserves_bind; [apply walk_onLocks|done].
  - intros _. case_bool_decide; [|done]. apply preserves_bind; [|done].
    apply keeps_Exec; [|done]. intros g. apply inv_close.
Qed.
End Walk.

(** ** Handlers that end or start applies *)

Section WalkResults.
Context (I : gate -> Prop) (okUpsert : Check -> Prop) `{HI : RowInvariant I okUpsert}
  `{HR : ResultInvariant I}.

Lemma walk_leased lease r : preserves I (leasedAnswer lease r).
Proof. unfold leasedAnswer. destruct r; [|done]. destruct (_ && _); [|done]. by apply keeps_Exec; [apply keeps_read|intros [[]|]]. Qed.

Lemma walk_result fr repo pr apply : preserves I (updateCheckRecordForApplyResult fr repo pr apply).
Proof using HI HR.
  unfold updateCheckRecordForApplyResult. apply preserves_bind; [apply walk_Get|].
  intros [[check|]|e]; [|done|done]. destruct (IsState _ _); [done|].
  destruct (isCompletedRollback apply).
  - apply keeps_Exec; [apply inv_markAction, shaped_result; set_solver|]. intros r. apply walk_leased.
  - cbn zeta. apply keeps_Exec; [apply inv_complete, shaped_result|intros r; apply walk_leased].
    unfold resultConclusion. destruct (_ && _); [set_solver|].
    destruct (IsState (a_State apply) [Apply.Completed]); set_solver.
Qed.

Lemma walk_refresh fr config ic cache a :
  preserves I (refreshChecksForTerminalApply fr config ic cache a).
Proof using HI HR.
  unfold refreshChecksForTerminalApply. apply preserves_bind; [apply walk_result|].
  intros [[]|e]; [|done|done]. apply preserves_bind; [apply walk_client|]. intros [[]|e]; [|done].
  apply preserves_bind; [apply walk_Get|]. intros [[c|]|e]; [|done|done]. by eapply walk_update.
Qed.

Lemma plan_returns fr cache repo pr plan env drift :
  returns (fun r => match r with Ok check => shaped check | Err _ => True end)
    (upsertPlanCheckRecord fr cache repo pr plan env drift).
Proof.
  unfold upsertPlanCheckRecord. destruct (_ == ""); [done|].
  apply (returns_bind (fun _ => True)); [by destruct cache|]. intros [current|e] _; [|done].
  destruct (negb _); [done|]. apply (returns_bind (fun _ => True)).
  - generalize (UpsertPlanResult fr (planCheck repo pr plan env drift) (planDriftState drift)).
    intros p. by induction p.
  - intros [[]|e] _; [|done]. apply shaped_planCheck.
Qed.

Lemma walk_manual fr cache repo pr plan env drift :
  preserves I (storeManualPlanCheckRecord fr cache repo pr plan env drift).
Proof using HI HR.
  unfold storeManualPlanCheckRecord.
  eapply preserves_bind_returns; [by eapply walk_plan|apply plan_returns|].
  intros [check|e] Hs; [|done]. destruct (blocks drift); [done|].
  unfold RecoverApplyOwnedCheckWithNoOpPlan. destruct (negb _); [done|].
  apply keeps_Exec; [by apply inv_recover|done].
Qed.

Lemma walk_reconcile fr config ic cache repo pr :
  preserves I (reconcileStaleChecks fr config ic cache repo pr).
Proof using HI HR.
  assert (Hrows : forall latest checks, preserves I (reconcileRows fr repo pr latest checks)).
  { intros latest checks. induction checks as [|c checks IH]; [done|]. cbn [reconcileRows].
    destruct (isAggregateCheck c); [done|]. destruct (latest !! _) as [a|]; [|done].
    destruct (negb _); [done|]. apply preserves_bind; [apply walk_result|].
    intros [u|e]; [|done]. apply preserves_bind; [done|]. by intros [l|e]. }
  unfold reconcileStaleChecks. apply preserves_bind; [apply walk_GetByPR|]. intros [checks|e]; [|done].
  apply keeps_Exec; [apply keeps_read|]. intros [applies|e]; [|done].
  apply preserves_bind; [apply Hrows|]. intros [[]|e]; [|done|done].
  apply preserves_bind; [apply walk_Fetch|]. intros [head|e]; [|done].
  destruct (_ == ""); [done|]. apply preserves_bind; [by eapply walk_update|done].
Qed.

Lemma walk_start fr config ic cache repo pr ty db env id :
  (forall c, okUpsert (claimedCheck id c)) ->
  preserves I (updateCheckRecordForApplyStart fr config ic cache repo pr ty db env id).
Proof using HI HR.
  intros Hok. unfold updateCheckRecordForApplyStart. cbn zeta.
  assert (Hclaim : forall c, preserves I (pbind (Checks.Upsert (claimedCheck id c)) (fun r => match r with
    | Err e => Ret (Err e)
    | Ok _ =>
        Exec (readGate (fun g => applyOfID id (g_db g))) (fun r => match r with
        | Err e => Ret (Err e)
        | Ok None => Ret (Err (Errorf "apply missing after check claim"))
        | Ok (Some apply) =>
            pbind (if IsTerminalApplyState (a_State apply)
                   then refreshChecksForTerminalApply fr config ic cache apply else Ret tt) (fun _ =>
            pbind (updateAggregateCheck config ic cache repo pr (ck_HeadSHA (claimedCheck id c))) (fun _ =>
            Ret (Ok tt)))
        end)
    end))).
  { intros c. apply preserves_bind; [exact (walk_Upsert I okUpsert _ (Hok c))|]. intros [[]|e]; [|done].
    apply keeps_Exec; [apply keeps_read|]. intros [[a|]|e]; [|done|done].
    apply preserves_bind; [destruct (IsTerminalApplyState _); [apply walk_refresh|done]|]. intros _.
    apply preserves_bind; [by eapply walk_update|done]. }
  apply preserves_bind; [apply walk_Get|]. intros [[c|]|e]; [| |done].
  - destruct (_ == _); [done|apply Hclaim].
  - apply preserves_bind; [apply walk_Fetch|]. intros [head|e]; [apply Hclaim|done].
Qed.

Lemma walk_cleanup fr config ic repo pr head affected :
  (forall c, okUpsert (staleBlock head c)) ->
  preserves I (cleanupStaleChecks fr config ic repo pr head affected).
Proof using HI.
  intros Hok.
  assert (Hrows : forall checks, preserves I (cleanupRows fr head affected checks)).
  { induction checks as [|c checks IH]; [done|]. cbn [cleanupRows]. destruct (_ || _); [done|].
    apply preserves_bind; [|by intros cleaned; apply preserves_bind].
    destruct (checkHasStartedApply c); [|by eapply walk_markStale].
    apply preserves_bind; [exact (walk_Upsert I okUpsert _ (Hok c))|done]. }
  unfold cleanupStaleChecks. apply preserves_bind; [apply walk_client|]. intros [[]|e]; [|done].
  apply preserves_bind; [apply walk_verify|]. intros current. destruct (negb current); [done|].
  apply preserves_bind; [apply walk_GetByPR|]. intros [checks|e]; [|done].
  apply preserves_bind; [apply Hrows|]. intros []; [by eapply walk_update|done].
Qed.
End WalkResults.

(** ** The shape of rows *)

Definition wfRow (k : checkKey) (r : Check) : Prop := keyOf r = k /\ shaped r.
Definition wfGate (g : gate) : Prop := map_Forall wfRow (g_checks g).

(** A touched row is the assigned one up to its time. *)
Lemma touch_wf k now f r : wfRow k (f r) -> wfRow k (touchCheck now f r).
Proof. unfold touchCheck. case_decide as E; [by rewrite E|]. done. Qed.

Lemma updateCheck_wf fr k p f :
  (forall r, wfRow k r -> wfRow k (f r)) -> stmtKeeps wfGate (updateCheck fr k p f).
Proof.
  intros Hf g Hg. unfold updateCheck. destruct (g_checks g !! k) as [r|] eqn:Hr; [|done].
  destruct (p g r); [|done]. apply map_Forall_insert_2; [|done]. by apply touch_wf, Hf, Hg.
Qed.

Lemma assign_wf check id summary r k : shaped check -> wfRow k r -> wfRow k (assignCheck check id summary r).
Proof. intros Hs [Hk _]. by split. Qed.

Lemma planSet_wf check drift r k : shaped check -> wfRow k r -> wfRow k (planSet check drift r).
Proof.
  intros Hs Hr. destruct drift; [|by apply assign_wf..]. destruct Hr as [Hk Hr].
  split; [done|]. cbn. unfold notEvaluatedSet, shaped. cbn. by destruct (_ == _).
Qed.

#[global] Instance wfGate_rows : RowInvariant wfGate shaped.
Proof.
  split.
  - intros g g' E. unfold wfGate. by rewrite E.
  - intros check Hs g Hg. unfold upsertCheck. destruct (g_checks g !! keyOf check) as [r|] eqn:Hr.
    + apply map_Forall_insert_2; [|done]. apply touch_wf, assign_wf; [done|by apply Hg].
    + by apply map_Forall_insert_2.
  - done.
  - intros check Hs g Hg. unfold insertPlanCheck. destruct (g_checks g !! keyOf check); [done|].
    by apply map_Forall_insert_2.
  - intros fr check drift Hs. apply updateCheck_wf. intros r. by apply planSet_wf.
  - intros fr check Hs. apply updateCheck_wf. intros r. by apply assign_wf.
  - intros fr check. by apply updateCheck_wf.
  - intros repo pr merged g Hg k r [Hr _]%map_lookup_filter_Some. by apply Hg.
Qed.

#[global] Instance wfGate_results : ResultInvariant wfGate.
Proof. split; intros; apply updateCheck_wf; intros r; by apply assign_wf. Qed.

(** ** Claimed rows *)

(** The row a running apply owns. *)
Definition claimed (k : checkKey) (g : gate) : Prop :=
  exists r, g_checks g !! k = Some r /\ applyInProgress r = true.

(** A key of a database, not of an aggregate. *)
Definition databaseKey (k : checkKey) : Prop := forall repo pr env, k <> aggregateKey repo pr env.

Definition keepsClaim (k : checkKey) (check : Check) : Prop :=
  keyOf check = k -> applyInProgress check = true.

Lemma updateCheck_claimed fr k k' p f :
  (forall g r, k = k' -> p g r = true -> applyInProgress r = true -> applyInProgress (f r) = true) ->
  stmtKeeps (claimed k) (updateCheck fr k' p f).
Proof.
  intros Hf g (r & Hr & Hc). unfold updateCheck.
  destruct (g_checks g !! k') as [r'|] eqn:Hr'; [|by exists r]. destruct (p g r') eqn:Hp; [|by exists r].
  destruct (decide (k = k')) as [<-|Hne].
  - rewrite Hr in Hr'. injection Hr' as <-. eexists. split; [apply lookup_insert_eq|].
    unfold touchCheck. case_decide; [done|]. by apply (Hf g r).
  - exists r. split; [|done]. cbn. by rewrite lookup_insert_ne.
Qed.

Lemma claimed_rows k : databaseKey k -> RowInvariant (claimed k) (keepsClaim k).
Proof.
  intros Hk. split.
  - intros g g' E (r & Hr & Hc). exists r. by rewrite E.
  - intros check Hok g (r & Hr & Hc). unfold upsertCheck.
    destruct (decide (keyOf check = k)) as [<-|Hne].
    + rewrite Hr. eexists. split; [apply lookup_insert_eq|]. unfold touchCheck.
      case_decide; [done|]. by apply Hok.
    + exists r. destruct (g_checks g !! keyOf check); cbn; by rewrite lookup_insert_ne.
  - intros * _ E. by destruct (Hk _ _ _ (eq_sym E)).
  - intros check _ g (r & Hr & Hc). unfold insertPlanCheck. exists r.
    destruct (g_checks g !! keyOf check) eqn:E; [done|]. cbn. rewrite lookup_insert_ne; [done|].
    intros <-. by rewrite Hr in E.
  - intros fr check drift _. apply updateCheck_claimed. intros g r _ Hp Hc. by rewrite Hc in Hp.
  - intros fr check _. apply updateCheck_claimed. intros g r _ Hp Hc. unfold applyInProgress in Hc.
    by destruct (ck_Status r == checkStatusInProgress).
  - intros fr check. by apply updateCheck_claimed.
  - intros repo pr merged g (r & Hr & Hc). exists r. split; [|done]. cbn.
    apply map_lookup_filter_Some_2; [done|]. cbn. unfold closedDeletes.
    unfold applyInProgress in Hc. reflect_guards. rewrite H, (proj2 (Z.eqb_neq _ _) H0).
    rewrite eqb_refl'. destruct merged; cbn; apply andb_false_r.
Qed.

(** Operations that neither end an apply nor block a dropped change. *)
Definition routine (op : gateOp) : bool :=
  match op with
  | OpPlan _ _ _ _ _ _ | OpAggregate _ _ _ _ | OpRefold _ _ | OpPassing _ _ _ _
  | OpFailing _ _ _ _ _ _ | OpClearBlocks _ _ _ _ _ | OpMarkStale _ _ | OpClose _ _ _ => true
  | _ => false
  end.

Section Pools.
Context (ci : string -> string) (foundRows : bool) (config : ServerConfig) (ic : ghClient).

Lemma routine_claimed k op :
  databaseKey k -> routine op = true -> preserves (claimed k) (gateProg ci foundRows config ic op).
Proof.
  intros Hk Hop. pose proof (claimed_rows k Hk).
  destruct op; try done; cbn [gateProg]; unfold void.
  - apply preserves_bind; [by eapply walk_plan|done].
  - by eapply walk_update.
  - by eapply walk_refold.
  - by eapply walk_passing.
  - by eapply walk_failing.
  - by eapply walk_clearBlocks.
  - apply preserves_bind; [by eapply walk_markStale|done].
  - by eapply walk_close.
Qed.

Lemma shaped_claimed id c : shaped (claimedCheck id c).
Proof. by left. Qed.

Lemma shaped_staleBlock head c : shaped (staleBlock head c).
Proof.
  unfold shaped, staleBlock. cbn. destruct (ck_Status c == checkStatusInProgress) eqn:E.
  - left. split; [by apply eqb_true_iff|done].
  - right. split; [done|]. right. right. by left.
Qed.

Lemma gateProg_wf op : preserves wfGate (gateProg ci foundRows config ic op).
Proof.
  destruct op; cbn [gateProg]; unfold void.
  - apply preserves_bind; [apply (walk_plan wfGate shaped)|done].
  - apply preserves_bind; [apply (walk_manual wfGate shaped)|done].
  - apply preserves_bind; [|done]. apply (walk_start wfGate shaped). intros c. apply shaped_claimed.
  - apply (walk_refresh wfGate shaped).
  - apply preserves_bind; [apply (walk_reconcile wfGate shaped)|done].
  - apply (walk_update wfGate shaped).
  - apply (walk_refold wfGate shaped).
  - apply (walk_passing wfGate shaped).
  - apply (walk_failing wfGate shaped).
  - apply (walk_clearBlocks wfGate shaped).
  - apply (walk_cleanup wfGate shaped). intros c. apply shaped_staleBlock.
  - apply preserves_bind; [apply (walk_markStale wfGate shaped)|done].
  - apply (walk_close wfGate shaped).
Qed.
End Pools.

(** ** Properties *)

(** C29: stored check state is well formed.  Whatever handlers run, however their
    statements interleave and whichever fail, every stored row stays under its own
    key and is either in progress without a conclusion or completed with one of
    success, failure and action_required. *)
Theorem check_rows_well_formed ci foundRows config ic ops pool g g'
    (Hwf : wfGate g)
    (Hsteps : rtc pool_step (map (gateProg ci foundRows config ic) ops, g) (pool, g')) :
  wfGate g'.
Proof.
  apply (pool_invariant wfGate) in Hsteps as [_ H]; [done| |done].
  apply Forall_forall. intros p (op & -> & _)%list_elem_of_fmap. apply gateProg_wf.
Qed.

(** A running apply keeps blocking.  While an apply owns the check row of a
    database (in progress, apply id set), no interleaving of plan results, aggregate
    recomputes and posts, block releases, stale-plan cleanups and pull request
    closes, with any failures, takes the row away or ends it. *)
Theorem claimed_row_protected ci foundRows config ic ops pool k g g'
    (Hk : databaseKey k) (Hops : forallb routine ops = true) (Hclaimed : claimed k g)
    (Hsteps : rtc pool_step (map (gateProg ci foundRows config ic) ops, g) (pool, g')) :
  claimed k g'.
Proof.
  apply (pool_invariant (claimed k)) in Hsteps as [_ H]; [done| |done].
  apply Forall_forall. intros p (op & -> & Hop)%list_elem_of_fmap.
  apply routine_claimed; [done|]. by apply (proj1 (forallb_elem _ _) Hops).
Qed.

(** ** Concrete states *)

Definition sampleStore : store :=
  {| applies := []; operations := []; controls := []; tasks := [];
     locks := {| lk_rows := ∅; lk_nextID := 1; lk_now := 0 |}; nextID := 1; now := 100 |}.

Definition sampleHead (head : string) : githubView :=
  {| gv_HeadSHA := fun _ _ => head; gv_State := fun _ _ => "open"; gv_Files := fun _ _ => [];
     gv_Runs := fun _ _ => [] |}.

Definition sampleRow (head status conclusion reason : string) (applyID : Z) : Check :=
  {| ck_ID := 1; ck_Repository := "org/app"; ck_PullRequest := 7; ck_HeadSHA := head;
     ck_Environment := "staging"; ck_DatabaseType := "mysql"; ck_DatabaseName := "pay";
     ck_CheckRunID := 0; ck_ApplyID := applyID; ck_HasChanges := true; ck_Status := status;
     ck_Conclusion := conclusion; ck_BlockingReason := reason; ck_ErrorMessage := "";
     ck_ChangeSummary := "1 altered"; ck_CreatedAt := 0; ck_UpdatedAt := 0 |}.

Definition sampleKey : checkKey := ("org/app", 7, "staging", "mysql", "pay").

Definition sampleGate (head : string) (rows : list Check) : gate :=
  {| g_db := sampleStore; g_checks := list_to_map (map (fun r => (keyOf r, r)) rows); g_nextCheck := 2;
     g_github := sampleHead head; g_nextRun := 1; g_calls := []; g_refolds := ∅; g_timers := [] |}.

Definition samplePlan (head : string) (hasTables : bool) : planFacts :=
  {| pl_HeadSHA := head; pl_Type := "mysql"; pl_Database := "pay"; pl_HasTables := hasTables;
     pl_HasErrors := false; pl_Summary := "" |}.

Definition sampleClient : ghClient := {| gc_appSlug := "schemabot"; gc_trustedCheckAppSlugs := [] |}.

Lemma sampleKey_database : databaseKey sampleKey.
Proof. intros repo pr env. unfold sampleKey, aggregateKey. congruence. Qed.

(** A no-op plan result that arrives while an apply runs; its INSERT meets the row. *)
Lemma claimed_row_protected_witness :
  let g := sampleGate "h1" [sampleRow "h1" "in_progress" "" "" 5] in
  let clean := {| ro_state := driftClean; ro_summary := "" |} in
  exists pool g', rtc pool_step
    (map (gateProg (fun s => s) true sampleConfig sampleClient)
       [OpPlan (Some "h2") "org/app" 7 (samplePlan "h2" false) "staging" clean], g) (pool, g') /\
    claimed sampleKey g'.
Proof.
  cbn zeta. set (g := sampleGate _ _). set (ops := [OpPlan _ _ _ _ _ _]).
  assert (H : exists pool g', rtc pool_step
    (map (gateProg (fun s => s) true sampleConfig sampleClient) ops, g) (pool, g')).
  { eexists _, _. eapply rtc_once, (pool_exec [] []). }
  destruct H as (pool & g' & H). exists pool, g'. split; [exact H|].
  apply (claimed_row_protected (fun s => s) true sampleConfig sampleClient ops pool sampleKey g g').
  - apply sampleKey_database.
  - reflexivity.
  - exists (sampleRow "h1" "in_progress" "" "" 5). split; vm_compute; reflexivity.
  - exact H.
Defined.

Lemma check_rows_well_formed_witness :
  let g := sampleGate "h1" [sampleRow "h1" "completed" "action_required" "" 0] in
  exists pool g', rtc pool_step
    (map (gateProg (fun s => s) true sampleConfig sampleClient)
       [OpMarkStale "h2" (sampleRow "h1" "completed" "action_required" "" 0)], g) (pool, g') /\
    wfGate g'.
Proof.
  cbn zeta. set (g := sampleGate _ _). set (ops := [OpMarkStale _ _]).
  assert (H : exists pool g', rtc pool_step
    (map (gateProg (fun s => s) true sampleConfig sampleClient) ops, g) (pool, g')).
  { eexists _, _. eapply rtc_once, (pool_exec [] []). }
  destruct H as (pool & g' & H). exists pool, g'. split; [exact H|].
  apply (check_rows_well_formed (fun s => s) true sampleConfig sampleClient ops pool g g').
  - apply map_Forall_singleton. split; [reflexivity|]. right. split; [reflexivity|]. right. right. by left.
  - exact H.
Defined.

(** ** Races and divergences *)

(** The environment in which another delivery commits before statement [m]. *)
Definition raceAt (m : nat) (other : gate -> gate) (n : nat) : envStep gate :=
  {| interfere := if (n =? m)%nat then other else fun g => g; fault := None |}.

Definition rowAt (k : checkKey) (g : gate) : option (string * string * string * Z) :=
  (fun r => (ck_Status r, ck_Conclusion r, ck_BlockingReason r, ck_ApplyID r)) <$> g_checks g !! k.

(** A drift block can be lost when an apply starts.  The handler refuses to
    start over a stored drift block, but a block recorded between its read and its
    unconditional write is overwritten: the row is claimed and the block is gone. *)
Theorem apply_start_drops_drift_block :
  let g := sampleGate "h1" [sampleRow "h1" "completed" "action_required" "" 0] in
  let blocked := {| ro_state := driftBlocked; ro_summary := "deployment b differs" |} in
  let other g := (run (upsertPlanCheckRecord true (Some "h1") "org/app" 7 (samplePlan "h1" true)
                         "staging" blocked) g).1 in
  let start := updateCheckRecordForApplyStart true sampleConfig sampleClient (Some "h1")
                 "org/app" 7 "mysql" "pay" "staging" 5 in
  rowAt sampleKey (other g) =
    Some ("completed", "failure", ReviewTimeDeploymentDriftBlockingReason, 0) /\
  rowAt sampleKey (run start (other g)).1 =
    Some ("completed", "failure", ReviewTimeDeploymentDriftBlockingReason, 0) /\
  rowAt sampleKey (runE (raceAt 1 other) 0 start g).1.1 = Some ("in_progress", "", "", 5).
Proof. by vm_compute. Qed.

(** The cleanup of a dropped change can take a row from a newer apply.  It
    rewrites the row it read: when a new apply claims the row in between, the row
    falls back to the old apply and is no longer in progress, so a no-op plan passes
    it while the new apply still runs. *)
Theorem stale_block_overwrites_claim :
  let g := sampleGate "h2" [sampleRow "h1" "completed" "failure" "" 4] in
  let other g := (run (Checks.Upsert (claimedCheck 5 (sampleRow "h1" "completed" "failure" "" 4))) g).1 in
  let cleanup := cleanupStaleChecks true sampleConfig sampleClient "org/app" 7 "h2" ∅ in
  let after := (runE (raceAt 3 other) 0 cleanup g).1.1 in
  rowAt sampleKey (other g) = Some ("in_progress", "", "", 5) /\
  rowAt sampleKey after =
    Some ("completed", "action_required", "schema_removed_after_apply_started", 4) /\
  rowAt sampleKey (run (upsertPlanCheckRecord true (Some "h2") "org/app" 7 (samplePlan "h2" false)
                          "staging" {| ro_state := driftClean; ro_summary := "" |}) after).1 =
    Some ("completed", "success", "", 0).
Proof. by vm_compute. Qed.

(** A stored block is released without re-verification of its condition.  The
    passing post for a pull request without managed schema changes looks at the
    per-database rows only and replaces a blocked aggregate by a success. *)
Theorem passing_post_replaces_block :
  let block := aggregateRow "org/app" 7 "h1" "staging" 9 false "completed" "failure"
                 "schema_config_discovery_failed" "" in
  let g := sampleGate "h1" [block] in
  let after := (run (postPassingAggregates sampleConfig None "org/app" 7 "h1") g).1 in
  rowAt (aggregateKey "org/app" 7 "staging") after = Some ("completed", "success", "", 0) /\
  map (fun call => cr_Conclusion (callOptions call)) (g_calls after) = ["success"] /\
  g_calls (run (updateAggregateCheck sampleConfig sampleClient None "org/app" 7 "h1") g).1 = [].
Proof. by vm_compute. Qed.

(** A file moved out of a participant's directory is not seen.  The leader
    matches only the new paths of the changed files, so a pull request that renames
    a file out of an expected participant's directory expects nobody and the
    aggregate passes, while the same file deleted there blocks until the participant
    reports. *)
Theorem renamed_out_skips_participant :
  let files f := {| gv_HeadSHA := fun _ _ => "h1"; gv_State := fun _ _ => "open";
                    gv_Files := fun _ _ => [f]; gv_Runs := fun _ _ => [] |} in
  let g f := {| g_db := sampleStore;
                g_checks := {[sampleKey := sampleRow "h1" "completed" "success" "" 0]};
                g_nextCheck := 2; g_github := files f; g_nextRun := 1; g_calls := [];
                g_refolds := ∅; g_timers := [] |} in
  let published f := map (fun call => (cr_Status (callOptions call), cr_Conclusion (callOptions call)))
    (g_calls (run (updateAggregateCheck sampleConfig sampleClient None "org/app" 7 "h1") (g f)).1) in
  published {| pf_Filename := "attic/t.sql"; pf_PreviousFilename := "schema/bb/t.sql" |} =
    [("completed", "success")] /\
  published {| pf_Filename := "schema/bb/t.sql"; pf_PreviousFilename := "" |} = [("in_progress", "")].
Proof. by vm_compute. Qed.

(** ** Contracts of the writes that end an apply *)

Section Contracts.
Context (foundRows : bool) (check : Check) (apply : Apply).

(** The guards of [CompleteForApply]. *)
Definition mayComplete (g : gate) (r : Check) : bool :=
  (ck_Status r == checkStatusInProgress) && negb (ck_ApplyID r =? 0) &&
  (ck_ApplyID r =? a_ID apply) && negb (newerApply (g_db g) (a_ID apply) r) &&
  leasePredicate (applyLease apply) (g_db g).

(** The answer when no row was written. *)
Definition missedAnswer (g : gate) : res bool :=
  if ApplyLease_Valid (applyLease apply) &&
     negb (applyTokenIs (g_db g) (a_ID apply) (a_LeaseToken apply))
  then Err ErrApplyLeaseLost else Ok false.

Definition completeSpec (g : gate) : gate * res bool :=
  match g_checks g !! keyOf check with
  | Some r =>
      if mayComplete g r
      then (set_checks (<[keyOf check := touchCheck (now (g_db g))
              (fun r => assignCheck check (a_ID apply) (keepSummary check r) r) r]> (g_checks g)) g,
            Ok true)
      else (g, missedAnswer g)
  | None => (g, missedAnswer g)
  end.

Lemma leasedAnswer_zero g : run (leasedAnswer (applyLease apply) (Ok 0)) g = (g, missedAnswer g).
Proof.
  unfold leasedAnswer, missedAnswer. cbn [Z.eqb andb].
  destruct (ApplyLease_Valid (applyLease apply)); [|done]. rewrite run_Exec. cbn.
  by destruct (applyTokenIs _ _ _).
Qed.
End Contracts.

(** The end of an apply is written once and only by its owner.  Completing a row
    succeeds exactly when the row is in progress, owned by this apply, no newer apply
    of the target exists and the apply's lease is still held; then the row takes the
    outcome.  Otherwise nothing changes and a driver whose lease was taken gets the
    lease-lost error. *)
Theorem completion_contract foundRows check apply g (Hdone : ck_Status check = checkStatusCompleted) :
  run (CompleteForApply foundRows check apply) g = completeSpec check apply g.
Proof.
  unfold CompleteForApply. rewrite run_Exec. unfold completeSpec, updateCheck.
  destruct (g_checks g !! keyOf check) as [r|]; [|apply leasedAnswer_zero].
  change (mayComplete apply g r) with
    ((ck_Status r == checkStatusInProgress) && negb (ck_ApplyID r =? 0) &&
     (ck_ApplyID r =? a_ID apply) && negb (newerApply (g_db g) (a_ID apply) r) &&
     leasePredicate (applyLease apply) (g_db g)).
  destruct (_ && leasePredicate _ _) eqn:Hg; [|apply leasedAnswer_zero]. cbn [fst snd].
  rewrite bool_decide_eq_true_2, orb_true_r; [done|].
  reflect_guards. intros E. apply (f_equal ck_Status) in E. cbn in E.
  rewrite Hdone, H in E. done.
Qed.

(** An apply of the sample database. *)
Definition sampleApply (id : Z) (state token : string) : Apply :=
  {| a_ID := id; a_ApplyIdentifier := "ap"; a_LockID := 0; a_PlanID := 0; a_Database := "pay";
     a_DatabaseType := "mysql"; a_Repository := "org/app"; a_PullRequest := 7;
     a_Environment := "staging"; a_Deployment := "pay-a"; a_Caller := ""; a_InstallationID := 0;
     a_ExternalID := ""; a_IdempotencyKey := None; a_Engine := ""; a_State := state;
     a_ErrorMessage := ""; a_Options := noOptions; a_Attempt := 0; a_LeaseOwner := "d1";
     a_LeaseToken := token; a_LeaseAcquiredAt := None; a_CreatedAt := 0; a_StartedAt := None;
     a_CompletedAt := None; a_UpdatedAt := 0; a_RevertSkippedAt := None |}.

(** The driver of apply 5 holds the lease and completes the row; with another token
    it is told that it lost the lease. *)
Lemma completion_contract_witness :
  let g := set_db (set_applies [sampleApply 5 "completed" "t1"] sampleStore)
             (sampleGate "h1" [sampleRow "h1" "in_progress" "" "" 5]) in
  let outcome := resultCheck "success" "" "" (sampleRow "h1" "in_progress" "" "" 5) in
  (run (CompleteForApply true outcome (sampleApply 5 "completed" "t1")) g).2 = Ok true /\
  (run (CompleteForApply true outcome (sampleApply 5 "completed" "t0")) g).2 = Err ErrApplyLeaseLost.
Proof.
  intros g outcome. split.
  - rewrite (completion_contract true outcome (sampleApply 5 "completed" "t1") g eq_refl). by vm_compute.
  - rewrite (completion_contract true outcome (sampleApply 5 "completed" "t0") g eq_refl). by vm_compute.
Defined.

(** Every call of a run that saw the states [t] was justified by them. *)
Definition onlyJustified (config : ServerConfig) (ic : ghClient) (repo : string) (pr : Z)
    (headSHA : string) (t : list gate) (calls : list ghCall) : Prop :=
  forall call, call ∈ calls -> publishable config ic repo pr headSHA t call.

(** C28: no unjustified success.  Run the recompute of a pull request's aggregate
    with other deliveries changing anything between its steps and any step failing.
    Every call it makes is for one of the Check Runs the deployment owns, and if a
    call concludes success then there were states during the run such that: every
    stored row of that environment, as read in one of them, was for this commit and
    passing; every participant whose paths the pull request's files touch, as read
    in one of them, had a trusted completed success on this commit; and the stored
    aggregate carried no block in one of them. *)
Theorem published_success_justified config ic env n s s' n' cache repo pr headSHA
    (Hcalls : keepsCalls env)
    (Hrun : runE env n (updateAggregateCheck config ic cache repo pr headSHA) s = (s', tt, n')) :
  exists new, g_calls s' = (new ++ g_calls s)%list /\
    onlyJustified config ic repo pr headSHA
      (trace env n (updateAggregateCheck config ic cache repo pr headSHA) s) new.
Proof. apply (effect_update config ic cache repo pr headSHA env n s s' tt n' Hcalls Hrun). Qed.

(** The stored row of staging passes and no participant is expected: the recompute
    publishes success. *)
Lemma published_success_justified_witness :
  let g := sampleGate "h1" [sampleRow "h1" "completed" "success" "" 0] in
  let p := updateAggregateCheck sampleConfig sampleClient (Some "h1") "org/app" 7 "h1" in
  exists call, call ∈ g_calls (runE (fun _ => quiet) 0 p g).1.1 /\ isSuccess call /\
    publishable sampleConfig sampleClient "org/app" 7 "h1" (trace (fun _ => quiet) 0 p g) call.
Proof.
  cbn zeta. set (g := sampleGate _ _). set (p := updateAggregateCheck _ _ _ _ _ _).
  destruct (runE (fun _ => quiet) 0 p g) as [[g' []] n'] eqn:E.
  destruct (published_success_justified sampleConfig sampleClient (fun _ => quiet) 0 g g' n'
    (Some "h1") "org/app" 7 "h1") as (new & Hnew & H); [intros n s; reflexivity|exact E|].
  change (g_calls g) with (@nil ghCall) in Hnew. rewrite app_nil_r in Hnew. cbn [fst]. rewrite Hnew.
  assert (Hc : match g_calls (runE (fun _ => quiet) 0 p g).1.1 with
               | [call] => cr_Conclusion (callOptions call) = checkConclusionSuccess
               | _ => False
               end) by (vm_compute; reflexivity).
  rewrite E in Hc. cbn [fst] in Hc. rewrite Hnew in Hc.
  destruct new as [|call [|]]; [destruct Hc| |destruct Hc].
  exists call. split; [apply list_elem_of_here|]. split; [exact Hc|apply H, list_elem_of_here].
Defined.
