(* ===== verification/Dispatch.v ===== *)
(** * Dispatch of comments, merge groups and pushes (pkg/webhook/issue_comment.go,
      participant_nudge.go, merge_group.go, push.go)

    A comment delivery is decided from the decoded payload and the server
    configuration alone: the decision is a reply and the list of what the handler does,
    in order.  Several deployments of SchemaBot receive the same comment; each decides
    by its own configuration, and the theorems say for which of them a command runs.
    Merge-group and push deliveries publish passing Check Runs and are programs on
    GitHub's view ([MergeGate]). *)

From S2P Require Import Prelude GoStrings Regexp Commands Sql Config Policy Validate Checks MergeFold.
From S2P Require Import MergeGate CheckRecords GateInvariant.

Local Open Scope string_scope.
Local Open Scope Z_scope.

(** ** The delivery *)

(** [webhookPayload], decoded; nil pointers are [None]. *)
Record commentUser := { us_Login : string; us_Type : string }.
Record webhookComment := { wc_ID : Z; wc_Body : string; wc_User : option commentUser }.
Record webhookIssue := { wi_Number : Z; wi_PullRequest : bool }.
Record webhookPayload := {
  wp_Action : string;
  wp_Issue : option webhookIssue;
  wp_Comment : option webhookComment;
  wp_Repository : option string;
  wp_Installation : option Z;
}.

(** The comments the dispatcher posts. *)
Inductive comment :=
| RenderHelpComment
| RenderInvalidEnv (actionName : string) (known : list string)
| RenderRollbackMissingArguments
| RenderRollbackMissingEnv
| RenderMissingEnv (actionName : string)
| RenderRollbackMissingApplyID (tenant : string)
| RenderInvalidCommand
| RenderUnsupportedAutoConfirm (actionName : string)
| RenderUnsupportedDeferCutover (environment : string)
| RenderUnsupportedDatabaseFlag (actionName : string).

(** What a delivery makes the handler do; [Run] starts the handler of the action. *)
Inductive event :=
| Refold
| Post (c : comment)
| AcknowledgeEyes
| Run (r : CommandResult).

Record reply := { rp_Status : Z; rp_Message : string; rp_Events : list event }.

Definition ok (message : string) (events : list event) : reply :=
  {| rp_Status := 200; rp_Message := message; rp_Events := events |}.
Definition badRequest (message : string) : reply :=
  {| rp_Status := 400; rp_Message := message; rp_Events := [] |}.

(** ** Predicates on commands *)

Definition effectiveInstallationID (contextID : option Z) (payloadID : Z) : Z :=
  if negb (payloadID =? 0) then payloadID else default 0 contextID.

Definition commandRequiresTenantTarget (r : CommandResult) : bool :=
  negb (cmd_IsHelp r) && (cmd_Found r || cmd_MissingEnv r).

Definition actionFansOutUnscoped (a : string) : bool :=
  oneOf a [action.Plan; action.Apply; action.ApplyConfirm; action.Unlock].

Definition unscopedCommandFansOut (r : CommandResult) : bool :=
  if negb (actionFansOutUnscoped (cmd_Action r)) then false
  else if cmd_Found r then true
  else cmd_MissingEnv r && (cmd_Action r == action.Plan).

Definition withCommentID (id : Z) (r : CommandResult) : CommandResult :=
  {| cmd_Action := cmd_Action r; cmd_CommentID := id; cmd_ApplyID := cmd_ApplyID r;
     cmd_Environment := cmd_Environment r; cmd_Database := cmd_Database r; cmd_Tenant := cmd_Tenant r;
     cmd_TenantError := cmd_TenantError r; cmd_SkipRevert := cmd_SkipRevert r;
     cmd_DeferCutover := cmd_DeferCutover r; cmd_AllowUnsafe := cmd_AllowUnsafe r;
     cmd_Force := cmd_Force r; cmd_AutoConfirm := cmd_AutoConfirm r; cmd_VolumeLevel := cmd_VolumeLevel r;
     cmd_VolumeLevelError := cmd_VolumeLevelError r; cmd_Found := cmd_Found r; cmd_IsHelp := cmd_IsHelp r;
     cmd_IsMention := cmd_IsMention r; cmd_MissingEnv := cmd_MissingEnv r;
     cmd_EnvironmentError := cmd_EnvironmentError r |}.

(** The actions the final switch starts a handler for, and what it answers; the plan
    handler writes its answer itself. *)
Definition startedMessage (a : string) : option string :=
  if a == action.Plan then Some ""
  else if a == action.Apply then Some "apply started"
  else if a == action.ApplyConfirm then Some "apply-confirm started"
  else if a == action.Unlock then Some "unlock started"
  else if a == action.Rollback then Some "rollback started"
  else if a == action.RollbackConfirm then Some "rollback-confirm started"
  else if a == action.Stop then Some "stop started"
  else if a == action.Cancel then Some "cancel started"
  else if a == action.Start then Some "start started"
  else if a == action.Release then Some "release started"
  else if a == action.Cutover then Some "cutover started"
  else if a == action.Volume then Some "volume started"
  else if a == action.SkipRevert then Some "skip-revert started"
  else if a == action.Revert then Some "revert started"
  else None.

Section Handler.
(** [service] is the configuration of the handler's service, [None] without one;
    [configured] whether the secrets of the single-App configuration resolve;
    [clients] whether any GitHub client is configured. *)
Context (configured : GitHubConfig -> bool) (service : option ServerConfig) (clients : bool).

Definition fansOutUnscopedCommand (repo : string) : bool :=
  match service with
  | None => false
  | Some _ => AggregateRoleForRepo service repo == AggregateRoleParticipant
  end.

(** [strings.CutSuffix(login, "[bot]")] *)
Definition isTrustedParticipantBotLogin (repo login : string) : bool :=
  if negb (HasSuffix login "[bot]") then false else
  match service with
  | None => false
  | Some _ => oneOf (TrimSuffix login "[bot]") (TrustedCheckAppSlugsForRepo configured service repo)
  end.

Definition participantCommentNudge (repo authorLogin : string) : bool :=
  match service with
  | None => false
  | Some _ => if negb (IsAggregateLeaderForRepo service repo) then false
              else isTrustedParticipantBotLogin repo authorLogin
  end.

Definition knownEnvironments : list string :=
  match service with None => [] | Some _ => KnownEnvironments service end.

Definition deploymentTenant : string := match service with None => "" | Some c => c_Tenant c end.

(** The predicates of a handler that may have no service. *)
Definition repoRefused (repo : string) : bool :=
  match service with None => false | Some _ => negb (IsRepoAllowed service repo) end.
Definition staysQuiet (r : CommandResult) : bool :=
  (cmd_Tenant r == "") &&
  match service with None => false | Some _ => negb (ShouldRespondToUnscoped service) end.

Definition acknowledgeCommand (commentID : Z) : list event :=
  if (commentID <=? 0) || negb clients then [] else [AcknowledgeEyes].

(** The acknowledgment the dispatcher can already give. *)
Definition acknowledgeAtDispatch (repo : string) (r : CommandResult) : list event :=
  if match service with None => true | Some _ => AggregateRoleForRepo service repo == "" end ||
     (cmd_Tenant r != "")
  then acknowledgeCommand (cmd_CommentID r) else [].

(** The branch of a command without its environment. *)
Definition handleMissingEnv (repo : string) (r : CommandResult) : reply :=
  if cmd_Action r == action.Plan
  then ok "multi-env plan started" (acknowledgeAtDispatch repo r ++ [Run r])
  else if cmd_Action r == action.Rollback then
    if cmd_ApplyID r == "" then ok "missing rollback arguments" [Post RenderRollbackMissingArguments]
    else ok "missing environment flag" [Post RenderRollbackMissingEnv]
  else if cmd_Action r == action.RollbackConfirm
  then ok "missing environment flag" [Post RenderRollbackMissingEnv]
  else ok "missing environment flag" [Post (RenderMissingEnv (cmd_Action r))].

(** The final switch. *)
Definition dispatchAction (repo : string) (r : CommandResult) : reply :=
  let ack := acknowledgeAtDispatch repo r in
  if cmd_Action r == action.Help then ok "help posted" (ack ++ [Post RenderHelpComment]) else
  match startedMessage (cmd_Action r) with
  | Some message => ok message (ack ++ [Run r])
  | None => ok "invalid command" (ack ++ [Post RenderInvalidCommand])
  end.

(** From the parsed command on. *)
Definition handleCommand (repo body : string) (installationID : Z) (r : CommandResult) : reply :=
  if negb (cmd_IsMention r) then ok "no SchemaBot command found" []
  else if repoRefused repo then ok "repository not registered" []
  else if cmd_TenantError r then ok "invalid tenant flag" []
  else if (cmd_Tenant r != "") &&
          match service with None => false | Some _ => negb (ShouldRespondToTenant service (cmd_Tenant r)) end
  then ok "tenant handled by another instance" []
  else if (cmd_Tenant r == "") && commandRequiresTenantTarget r && (deploymentTenant != "") &&
          negb (fansOutUnscopedCommand repo && unscopedCommandFansOut r)
  then ok "tenant target required" []
  else if cmd_IsHelp r then
    if staysQuiet r then ok "unscoped command skipped" [] else ok "help posted" [Post RenderHelpComment]
  else if cmd_EnvironmentError r then
    if staysQuiet r then ok "unscoped command skipped" []
    else ok "invalid environment value"
           (acknowledgeCommand (cmd_CommentID r) ++
            [Post (RenderInvalidEnv (cmd_Action r) knownEnvironments)])
  else if cmd_MissingEnv r then handleMissingEnv repo r
  else if cmd_Found r && (cmd_Environment r != "") &&
          match service with None => false | Some _ => negb (IsEnvironmentAllowed service (cmd_Environment r)) end
  then
    if negb (IsEnvironmentKnown service (cmd_Environment r)) then
      if staysQuiet r then ok "unscoped command skipped" []
      else ok "unknown environment"
             (acknowledgeCommand (cmd_CommentID r) ++
              [Post (RenderInvalidEnv (cmd_Action r) knownEnvironments)])
    else ok "environment handled by another instance" []
  else if cmd_Found r && (cmd_Action r == action.Rollback) && (cmd_ApplyID r == "")
  then ok "missing apply ID" [Post (RenderRollbackMissingApplyID deploymentTenant)]
  else if negb (cmd_Found r) then
    if staysQuiet r then ok "unscoped command skipped" []
    else ok "invalid command" [Post RenderInvalidCommand]
  else if installationID =? 0 then badRequest "missing installation ID in webhook payload"
  else if (cmd_Action r != action.Apply) && HasAutoConfirmFlag body
  then ok "unsupported flag" [Post (RenderUnsupportedAutoConfirm (cmd_Action r))]
  else if (cmd_Action r == action.Rollback) && HasDeferCutoverFlag body
  then ok "unsupported flag" [Post (RenderUnsupportedDeferCutover (cmd_Environment r))]
  else if negb (commandSupportsDatabaseFlag (cmd_Action r)) && HasDatabaseFlag body
  then ok "unsupported flag" [Post (RenderUnsupportedDatabaseFlag (cmd_Action r))]
  else dispatchAction repo r.

(** [payload] is [None] when the body does not decode. *)
Definition handleIssueComment (contextID : option Z) (payload : option webhookPayload) : reply :=
  match payload with
  | None => badRequest "invalid webhook payload"
  | Some p =>
      match wp_Issue p, wp_Comment p, wp_Repository p with
      | Some issue, Some c, Some repo =>
          if (wp_Action p != "created") || negb (wi_PullRequest issue)
          then ok "event ignored (not a PR comment creation)" []
          else
            let installationID := effectiveInstallationID contextID (default 0 (wp_Installation p)) in
            let requestedBy := match wc_User c with Some u => us_Login u | None => "" end in
            if match wc_User c with Some u => us_Type u == "Bot" | None => false end then
              if participantCommentNudge repo requestedBy
              then ok "participant comment triggered aggregate re-fold" [Refold]
              else ok "event ignored (comment from bot)" []
            else handleCommand repo (wc_Body c) installationID
                   (withCommentID (wc_ID c) (ParseCommand (wc_Body c)))
      | _, _, _ => ok "event ignored (not a PR comment creation)" []
      end
  end.

End Handler.

(** ** When a command runs *)

Section Routing.
Context (configured : GitHubConfig -> bool) (service : option ServerConfig) (clients : bool).

(** A command addressed to this deployment: it names the deployment's tenant, or it names
    none and the deployment has none or takes its share of such commands. *)
Definition addressed (repo : string) (r : CommandResult) : Prop :=
  cmd_TenantError r = false /\
  (cmd_Tenant r <> "" -> service <> None -> deploymentTenant service = cmd_Tenant r) /\
  (cmd_Tenant r = "" -> deploymentTenant service <> "" ->
     AggregateRoleForRepo service repo = AggregateRoleParticipant /\
     actionFansOutUnscoped (cmd_Action r) = true).

(** The flags of the whole comment fit the command. *)
Definition flagsFit (body : string) (r : CommandResult) : Prop :=
  (cmd_Action r = action.Apply \/ HasAutoConfirmFlag body = false) /\
  (cmd_Action r <> action.Rollback \/ HasDeferCutoverFlag body = false) /\
  (commandSupportsDatabaseFlag (cmd_Action r) = true \/ HasDatabaseFlag body = false).

(** A command whose environment this deployment serves, or a plan for all of them. *)
Definition served (body : string) (installationID : Z) (r : CommandResult) : Prop :=
  (cmd_MissingEnv r = true /\ cmd_Action r = action.Plan) \/
  (cmd_MissingEnv r = false /\ cmd_Found r = true /\
   (cmd_Environment r = "" \/ service = None \/ IsEnvironmentAllowed service (cmd_Environment r) = true) /\
   (cmd_Action r = action.Rollback -> cmd_ApplyID r <> "") /\ installationID <> 0 /\
   flagsFit body r /\ cmd_Action r <> action.Help /\ startedMessage (cmd_Action r) <> None).

Definition accepted (repo body : string) (installationID : Z) (r : CommandResult) : Prop :=
  cmd_IsMention r = true /\ IsRepoAllowed service repo = true /\ addressed repo r /\
  cmd_IsHelp r = false /\ cmd_EnvironmentError r = false /\ served body installationID r.

Lemma no_run_ack commentID r : Run r ∉ acknowledgeCommand clients commentID.
Proof. unfold acknowledgeCommand. destruct (_ || _); set_solver. Qed.

Lemma no_run_ack_dispatch repo r r' : Run r' ∉ acknowledgeAtDispatch service clients repo r.
Proof. unfold acknowledgeAtDispatch. destruct (_ || _); [apply no_run_ack|set_solver]. Qed.

Lemma runs_dispatch repo r r' :
  Run r' ∈ rp_Events (dispatchAction service clients repo r) <->
  r' = r /\ cmd_Action r <> action.Help /\ startedMessage (cmd_Action r) <> None.
Proof.
  unfold dispatchAction. pose proof (no_run_ack_dispatch repo r r') as Ha.
  destruct (cmd_Action r == action.Help) eqn:E; [apply eqb_true_iff in E|apply eqb_false_iff in E].
  - cbn. set_solver.
  - destruct (startedMessage (cmd_Action r)); cbn; set_solver.
Qed.

Lemma runs_missing repo r r' :
  Run r' ∈ rp_Events (handleMissingEnv service clients repo r) <-> r' = r /\ cmd_Action r = action.Plan.
Proof.
  unfold handleMissingEnv. pose proof (no_run_ack_dispatch repo r r') as Ha.
  destruct (cmd_Action r == action.Plan) eqn:E; [apply eqb_true_iff in E|apply eqb_false_iff in E].
  - cbn. set_solver.
  - repeat case_match; cbn; set_solver.
Qed.

Lemma refused_iff repo : repoRefused service repo = false <-> IsRepoAllowed service repo = true.
Proof. unfold repoRefused. destruct service; [apply negb_false_iff|done]. Qed.

Lemma tenant_refused r :
  (cmd_Tenant r != "") &&
    match service with None => false | Some _ => negb (ShouldRespondToTenant service (cmd_Tenant r)) end
  = false <->
  (cmd_Tenant r <> "" -> service <> None -> deploymentTenant service = cmd_Tenant r).
Proof.
  rewrite andb_false_iff, negb_false_iff, eqb_true_iff. unfold ShouldRespondToTenant, deploymentTenant.
  destruct service as [c|]; [|intuition]. rewrite negb_false_iff.
  destruct (cmd_Tenant r == "") eqn:E; [apply eqb_true_iff in E; intuition|].
  apply eqb_false_iff in E. rewrite eqb_true_iff. intuition congruence.
Qed.

Lemma environment_refused r :
  (cmd_Environment r != "") &&
  match service with None => false
  | Some _ => negb (IsEnvironmentAllowed service (cmd_Environment r)) end = false <->
  cmd_Environment r = "" \/ service = None \/ IsEnvironmentAllowed service (cmd_Environment r) = true.
Proof.
  rewrite andb_false_iff, negb_false_iff, eqb_true_iff.
  destruct service; [rewrite negb_false_iff|]; intuition congruence.
Qed.

Lemma unscoped_refused repo r :
  cmd_IsHelp r = false -> (cmd_MissingEnv r = true /\ cmd_Action r = action.Plan) \/ cmd_Found r = true ->
  ((cmd_Tenant r == "") && commandRequiresTenantTarget r && (deploymentTenant service != "") &&
   negb (fansOutUnscopedCommand service repo && unscopedCommandFansOut r) = false <->
   (cmd_Tenant r = "" -> deploymentTenant service <> "" ->
    AggregateRoleForRepo service repo = AggregateRoleParticipant /\
    actionFansOutUnscoped (cmd_Action r) = true)).
Proof.
  intros Hh Hs. unfold commandRequiresTenantTarget, unscopedCommandFansOut, fansOutUnscopedCommand, deploymentTenant.
  rewrite Hh. cbn [negb andb].
  assert (cmd_Found r || cmd_MissingEnv r = true) as -> by (destruct Hs as [[-> _]| ->]; [apply orb_true_r|done]).
  assert (Hf : (if negb (actionFansOutUnscoped (cmd_Action r)) then false
                else if cmd_Found r then true else cmd_MissingEnv r && (cmd_Action r == action.Plan)) =
               actionFansOutUnscoped (cmd_Action r)).
  { destruct (actionFansOutUnscoped (cmd_Action r)); [|done]. cbn. destruct (cmd_Found r); [done|].
    destruct Hs as [[-> ->]|?]; done. }
  rewrite Hf. destruct service as [c|]; [|rewrite ?andb_false_r; intuition].
  destruct (cmd_Tenant r == "") eqn:Et, (c_Tenant c == "") eqn:Ec,
    (AggregateRoleForRepo (Some c) repo == AggregateRoleParticipant) eqn:Er;
    rewrite ?eqb_true_iff, ?eqb_false_iff in Et; rewrite ?eqb_true_iff, ?eqb_false_iff in Ec;
    rewrite ?eqb_true_iff, ?eqb_false_iff in Er;
    destruct (actionFansOutUnscoped (cmd_Action r)); cbn; intuition congruence.
Qed.

Lemma flags_refused body r :
  ((cmd_Action r != action.Apply) && HasAutoConfirmFlag body = false /\
   (cmd_Action r == action.Rollback) && HasDeferCutoverFlag body = false /\
   negb (commandSupportsDatabaseFlag (cmd_Action r)) && HasDatabaseFlag body = false) <->
  flagsFit body r.
Proof.
  unfold flagsFit. rewrite !andb_false_iff, !negb_false_iff, eqb_true_iff, eqb_false_iff. done.
Qed.

Lemma rollback_refused r :
  (cmd_Action r == action.Rollback) && (cmd_ApplyID r == "") = false <->
  (cmd_Action r = action.Rollback -> cmd_ApplyID r <> "").
Proof.
  rewrite andb_false_iff, !eqb_false_iff. destruct (decide (cmd_Action r = action.Rollback)); intuition.
Qed.

(** Whichever branch is taken, nothing runs. *)
Ltac no_run := cbn [negb]; repeat match goal with
  | |- context [rp_Events (if ?b then _ else _)] => destruct b
  end; cbn [rp_Events ok]; rewrite ?elem_of_app, ?list_elem_of_singleton, ?elem_of_nil;
  intuition congruence.

Lemma runs_command repo body installationID r r' :
  Run r' ∈ rp_Events (handleCommand service clients repo body installationID r) <->
  r' = r /\ accepted repo body installationID r.
Proof.
  unfold handleCommand, accepted, addressed. rewrite <- refused_iff, <- tenant_refused.
  assert (Hack : Run r' ∉ acknowledgeCommand clients (cmd_CommentID r)) by apply no_run_ack.
  destruct (cmd_IsMention r); [|no_run]. destruct (repoRefused service repo); [no_run|].
  destruct (cmd_TenantError r); [no_run|]. cbn [negb].
  match goal with |- context [(cmd_Tenant r != "") && ?m] =>
    destruct ((cmd_Tenant r != "") && m) eqn:Ht end; [no_run|].
  destruct (cmd_IsHelp r) eqn:Hh; [no_run|]. destruct (cmd_EnvironmentError r) eqn:He; [no_run|].
  pose proof (unscoped_refused repo r Hh) as Hun.
  match goal with |- context [if ?b then ok "tenant target required" [] else _] =>
    set (refused := b) in *; destruct refused eqn:Hr end.
  { split; [no_run|]. intros (_ & _ & _ & (_ & _ & Ha) & _ & _ & Hs). exfalso.
    assert (H : true = false); [|done]. apply Hun; [|done].
    destruct Hs as [H|(_ & H & _)]; [by left|by right]. }
  destruct (cmd_MissingEnv r) eqn:Hm.
  { rewrite runs_missing. unfold served. rewrite Hm. split.
    - intros [-> Hp]. assert (Ha := proj1 (Hun (or_introl (conj eq_refl Hp))) eq_refl). tauto.
    - intros (-> & _ & _ & _ & _ & _ & [[_ H]|[? _]]); done. }
  assert (Ha : cmd_Found r = true -> _) by (intros H; exact (proj1 (Hun (or_intror H)) eq_refl)).
  unfold served. rewrite Hm. clear Hun Hr. destruct (cmd_Found r) eqn:Hf; [|no_run].
  specialize (Ha eq_refl). rewrite !andb_true_l, <- environment_refused, <- rollback_refused, <- flags_refused.
  match goal with |- context [(cmd_Environment r != "") && ?m] =>
    destruct ((cmd_Environment r != "") && m) end; [no_run|].
  destruct ((cmd_Action r == action.Rollback) && (cmd_ApplyID r == "")); [no_run|].
  destruct (Z.eqb_spec installationID 0) as [E|E]; [no_run|]. cbn [negb].
  destruct ((cmd_Action r != action.Apply) && HasAutoConfirmFlag body); [no_run|].
  destruct ((cmd_Action r == action.Rollback) && HasDeferCutoverFlag body); [no_run|].
  destruct (negb (commandSupportsDatabaseFlag (cmd_Action r)) && HasDatabaseFlag body); [no_run|].
  rewrite runs_dispatch. intuition congruence.
Qed.

End Routing.
Lemma runs_comment configured service clients contextID payload r :
  Run r ∈ rp_Events (handleIssueComment configured service clients contextID payload) <->
  exists p issue c repo,
    payload = Some p /\ wp_Action p = "created" /\
    wp_Issue p = Some issue /\ wi_PullRequest issue = true /\
    wp_Comment p = Some c /\ (forall u, wc_User c = Some u -> us_Type u <> "Bot") /\
    wp_Repository p = Some repo /\
    r = withCommentID (wc_ID c) (ParseCommand (wc_Body c)) /\
    accepted service repo (wc_Body c)
      (effectiveInstallationID contextID (default 0 (wp_Installation p))) r.
Proof.
  unfold handleIssueComment. split.
  - destruct payload as [p|]; [|cbn; set_solver].
    destruct (wp_Issue p) as [issue|] eqn:Ei; [|cbn; set_solver].
    destruct (wp_Comment p) as [c|] eqn:Ec; [|cbn; set_solver].
    destruct (wp_Repository p) as [repo|] eqn:Er; [|cbn; set_solver].
    destruct ((wp_Action p != "created") || negb (wi_PullRequest issue)) eqn:Ea; [cbn; set_solver|].
    apply orb_false_iff in Ea as [Ea%negb_false_iff%eqb_true_iff Ep%negb_false_iff].
    destruct (match wc_User c with Some u => us_Type u == "Bot" | None => false end) eqn:Eb.
    { destruct (participantCommentNudge _ _ _ _); cbn; set_solver. }
    rewrite runs_command. intros [-> H]. exists p, issue, c, repo. repeat (split; [done|]).
    split; [|auto]. intros u Hu. rewrite Hu in Eb. by apply eqb_false_iff in Eb.
  - intros (p & issue & c & repo & -> & Ha & Hi & Hp & Hc & Hu & Hr & -> & H).
    rewrite Hi, Hc, Hr, Ha, Hp. cbn [negb orb].
    destruct (match wc_User c with Some u => us_Type u == "Bot" | None => false end) eqn:Eb.
    { destruct (wc_User c) as [u|]; [|done]. apply eqb_true_iff in Eb. by destruct (Hu u eq_refl). }
    change ("created" != "created") with false. cbn match. by apply runs_command.
Qed.

(** A command without its environment names none. *)
Lemma missing_environment body :
  cmd_MissingEnv (ParseCommand body) = true -> cmd_Environment (ParseCommand body) = "".
Proof.
  unfold ParseCommand. destruct (firstDirectiveLine _); [|done]. destruct (extractTenant s) as [tenant err].
  destruct (MatchString helpRegex s); [done|]. destruct (FindStringSubmatch commandRegex s); [|done].
  destruct (specByName _) as [spec|]; [|done]. unfold applySpec.
  destruct (if cs_SupportsVolumeLevel spec then _ else _) as [v ve].
  destruct (extractEnvironment s) as [env envErr]. cbn. intros H%negb_true_iff.
  apply orb_false_iff in H as [_ H]. by apply negb_false_iff, eqb_true_iff in H.
Qed.

Lemma served_environment c body id r :
  served (Some c) body id r -> (cmd_MissingEnv r = true -> cmd_Environment r = "") ->
  cmd_Environment r = "" \/ IsEnvironmentAllowed (Some c) (cmd_Environment r) = true.
Proof. intros [[Hm _]|(_ & _ & [H|[H|H]] & _)] He; auto; done. Qed.

(** Who runs a command.  A comment delivery starts the handler of a command exactly
    when it is a newly created comment of a person on a pull request, the repository is
    one the deployment serves, and the command read from the comment is addressed to this
    deployment, names an environment it serves (or is a plan for all of them), carries
    the apply identifier a rollback needs and no flag its action does not take.  In
    every other case nothing is run. *)
Theorem command_runs_exactly configured service clients contextID payload r :
  Run r ∈ rp_Events (handleIssueComment configured service clients contextID payload) <->
  exists p issue c repo,
    payload = Some p /\ wp_Action p = "created" /\
    wp_Issue p = Some issue /\ wi_PullRequest issue = true /\
    wp_Comment p = Some c /\ (forall u, wc_User c = Some u -> us_Type u <> "Bot") /\
    wp_Repository p = Some repo /\
    r = withCommentID (wc_ID c) (ParseCommand (wc_Body c)) /\
    accepted service repo (wc_Body c)
      (effectiveInstallationID contextID (default 0 (wp_Installation p))) r.
Proof. apply runs_comment. Qed.

(** C35: one deployment per command.  If two deployments that receive the same comment
    both run a command, it is the same command; if they serve disjoint environments,
    it names no environment; and whatever they serve, if it names a tenant, that is
    the tenant of both. *)
Theorem command_routed_once configured1 configured2 c1 c2 clients1 clients2 ctx1 ctx2 payload r1 r2
    (H1 : Run r1 ∈ rp_Events (handleIssueComment configured1 (Some c1) clients1 ctx1 payload))
    (H2 : Run r2 ∈ rp_Events (handleIssueComment configured2 (Some c2) clients2 ctx2 payload)) :
  r1 = r2 /\
  ((forall env, IsEnvironmentAllowed (Some c1) env = true -> IsEnvironmentAllowed (Some c2) env = false) ->
   cmd_Environment r1 = "") /\
  (cmd_Tenant r1 <> "" -> c_Tenant c1 = cmd_Tenant r1 /\ c_Tenant c2 = cmd_Tenant r1).
Proof.
  apply runs_comment in H1 as (p & i & c & repo & -> & _ & _ & _ & Hc & _ & Hr & -> & A1).
  apply runs_comment in H2 as (p2 & i2 & c' & repo' & [= <-] & _ & _ & _ & Hc' & _ & Hr' & -> & A2).
  rewrite Hc in Hc'. injection Hc' as <-. rewrite Hr in Hr'. injection Hr' as <-. split; [done|].
  destruct A1 as (_ & _ & (_ & T1 & _) & _ & _ & S1), A2 as (_ & _ & (_ & T2 & _) & _ & _ & S2).
  split; [intros Hdisjoint|intros Ht; split; [by apply T1|by apply T2]].
  destruct (served_environment _ _ _ _ S1 (missing_environment _)) as [H|E1]; [done|].
  destruct (served_environment _ _ _ _ S2 (missing_environment _)) as [H|E2]; [done|].
  by rewrite (Hdisjoint _ E1) in E2.
Qed.

(** The sample configuration for other environments. *)
Definition servingOnly (envs : list string) : ServerConfig :=
  let c := sampleConfig in
  {| c_Storage := c_Storage c; c_Auth := c_Auth c; c_GitHub := c_GitHub c; c_Apps := c_Apps c;
     c_TernDeployments := c_TernDeployments c; c_Databases := c_Databases c;
     c_TargetResolver := c_TargetResolver c; c_Repos := c_Repos c;
     c_PRCommandAuthorization := c_PRCommandAuthorization c; c_ReviewPolicy := c_ReviewPolicy c;
     c_SupportChannel := c_SupportChannel c; c_AllowedEnvironments := envs; c_Tenant := c_Tenant c;
     c_EnvironmentOrder := c_EnvironmentOrder c; c_MetricsPort := c_MetricsPort c;
     c_OperatorClaimOperations := c_OperatorClaimOperations c;
     c_RequirePassingChecks := c_RequirePassingChecks c; c_RequiredChecks := c_RequiredChecks c;
     c_RespondToUnscoped := c_RespondToUnscoped c; c_PendingDrops := c_PendingDrops c |}.

Definition sampleComment (body : string) : option webhookPayload :=
  Some {| wp_Action := "created"; wp_Issue := Some {| wi_Number := 7; wi_PullRequest := true |};
          wp_Comment := Some {| wc_ID := 5; wc_Body := body;
                                wc_User := Some {| us_Login := "ann"; us_Type := "User" |} |};
          wp_Repository := Some "org/app"; wp_Installation := Some 3 |}.

(** An unlock names no environment, so both deployments run it. *)
Lemma command_routed_once_witness :
  let r := withCommentID 5 (ParseCommand "schemabot unlock") in
  Run r ∈ rp_Events (handleIssueComment (fun _ => true) (Some (servingOnly ["staging"])) true None
                       (sampleComment "schemabot unlock")) /\
  cmd_Environment r = "".
Proof.
  intros r. pose proof (command_routed_once (fun _ => true) (fun _ => true) (servingOnly ["staging"])
    (servingOnly ["production"]) true true None None (sampleComment "schemabot unlock") r r) as H.
  assert (H1 : Run r ∈ rp_Events (handleIssueComment (fun _ => true) (Some (servingOnly ["staging"])) true
    None (sampleComment "schemabot unlock"))) by (vm_compute; apply list_elem_of_here).
  assert (H2 : Run r ∈ rp_Events (handleIssueComment (fun _ => true) (Some (servingOnly ["production"])) true
    None (sampleComment "schemabot unlock"))) by (vm_compute; apply list_elem_of_here).
  split; [exact H1|]. destruct (H H1 H2) as (_ & He & _). apply He. intros env. cbn.
  destruct (env == "staging") eqn:E; [|done]. apply eqb_true_iff in E. by subst.
Defined.

(** A flag anywhere in the comment counts against a command, also in its prose: the
    plan is refused because another line mentions x-y. *)
Theorem prose_flag_refuses :
  let body := "schemabot plan -e staging" ++ String Regexp.newline "the x-y chart is unaffected" in
  cmd_Action (ParseCommand body) = action.Plan /\
  handleIssueComment (fun _ => true) (Some sampleConfig) true None (sampleComment body) =
  ok "unsupported flag" [Post (RenderUnsupportedAutoConfirm action.Plan)].
Proof. vm_compute. done. Qed.

(** ** Merge groups and pushes *)

(** [mergeGroupPayload] and [pushPayload], decoded. *)
Record mergeGroupPayload := {
  mg_Action : string;
  mg_HeadSHA : string;
  mg_Repository : string;
  mg_Installation : Z;
}.
Record pushPayload := {
  pp_Ref : string;
  pp_After : string;
  pp_Deleted : bool;
  pp_Repository : string;
  pp_DefaultBranch : string;
  pp_Installation : Z;
}.

(** [passingAggregateCheckContent] *)
Record passingAggregateCheckContent := { pc_title : string; pc_summary : string }.

Definition serverError (message : string) : reply :=
  {| rp_Status := 500; rp_Message := message; rp_Events := [] |}.

Definition passingOptions (content : passingAggregateCheckContent) (name : string) : CheckRunOptions :=
  {| cr_Name := name; cr_Status := checkStatusCompleted; cr_Conclusion := checkConclusionSuccess;
     cr_Title := pc_title content; cr_Summary := pc_summary content |}.

(** [strings.Trim(headSHA, "0") == ""] *)
Definition allZeros (sha : string) : bool := allBytes (isByte "0") sha.

Section Passing.
Context (config : ServerConfig) (ic : ghClient).

Definition isAggregateParticipant (repo : string) : bool :=
  AggregateRoleForRepo (Some config) repo == AggregateRoleParticipant.

(** The run of one target: the listed one of a trusted App is updated, else one is
    created. *)
Definition postPassing (repo headSHA : string) (content : passingAggregateCheckContent) (name : string)
    : prog gate (res Z) :=
  Exec (readGate (fun g => FindCheckRunByName ic (gv_Runs (g_github g) repo headSHA) name))
    (fun r => match r with
     | Ok (Some (Some existing, _)) => updateCheckRun repo (ri_ID existing) (passingOptions content name)
     | _ => createCheckRun repo headSHA (passingOptions content name)
     end).

Fixpoint postPassingTargets (repo headSHA : string) (content : passingAggregateCheckContent)
    (targets : list (string * string)) : prog gate (res unit) :=
  match targets with
  | [] => Ret (Ok tt)
  | (name, _) :: rest =>
      pbind (postPassing repo headSHA content name) (fun r => match r with
      | Err e => Ret (Err e)
      | Ok _ => postPassingTargets repo headSHA content rest
      end)
  end.

Definition postPassingAggregateChecks (repo headSHA : string) (content : passingAggregateCheckContent)
    : prog gate (res unit) :=
  postPassingTargets repo headSHA content (aggregateCheckTargetsForRepo config repo).

(** What both deliveries do from their commit on. *)
Definition publishPassing (what : string) (repo headSHA : string) (installationID : Z)
    (content : passingAggregateCheckContent) (posted silent : string) : prog gate reply :=
  if negb (IsRepoAllowed (Some config) repo) then Ret (ok "repository not registered" [])
  else if isAggregateParticipant repo then Ret (ok silent [])
  else if negb (shouldPublishChecks config repo) then Ret (ok "check publishing disabled" [])
  else pbind clientForRepo (fun r => match r with
  | Err _ => Ret (serverError "failed to initialize GitHub client")
  | Ok _ =>
      pbind (postPassingAggregateChecks repo headSHA content) (fun r => match r with
      | Err _ => Ret (serverError ("failed to post " ++ what ++ " checks"))
      | Ok _ => Ret (ok posted [])
      end)
  end).

Definition mergeGroupContent : passingAggregateCheckContent :=
  {| pc_title := "Schema changes verified before merge queue";
     pc_summary := "Schema changes in queued pull requests are applied and verified by SchemaBot before " ++
       "they enter the merge queue, so no additional verification is required for this merge group." |}.

Definition handleMergeGroup (contextID : option Z) (payload : option mergeGroupPayload) : prog gate reply :=
  match payload with
  | None => Ret (badRequest "invalid merge_group payload")
  | Some p =>
      let installationID := effectiveInstallationID contextID (mg_Installation p) in
      if mg_Action p != "checks_requested" then Ret (ok "merge_group action ignored" [])
      else if installationID =? 0 then Ret (badRequest "missing installation ID in merge_group payload")
      else if mg_HeadSHA p == "" then Ret (badRequest "missing merge_group head_sha in merge_group payload")
      else publishPassing "merge_group" (mg_Repository p) (mg_HeadSHA p) installationID mergeGroupContent
             "merge_group checks posted" "merge_group ignored (aggregate participant, staying silent)"
  end.

Definition pushContent : passingAggregateCheckContent :=
  {| pc_title := "Schema changes are verified before merge";
     pc_summary := "SchemaBot gates schema changes on pull requests before they reach the default branch, " ++
       "so commits on the default branch require no additional verification. " ++
       "This check also keeps SchemaBot selectable as a required-check source in branch rulesets." |}.

Definition handlePush (contextID : option Z) (payload : option pushPayload) : prog gate reply :=
  match payload with
  | None => Ret (badRequest "invalid push payload")
  | Some p =>
      if (pp_DefaultBranch p == "") || (pp_Ref p != "refs/heads/" ++ pp_DefaultBranch p)
      then Ret (ok "push ignored: not the default branch" [])
      else if pp_Deleted p || (pp_After p == "") || allZeros (pp_After p)
      then Ret (ok "push ignored: branch deletion" [])
      else
        let installationID := effectiveInstallationID contextID (pp_Installation p) in
        if installationID =? 0 then Ret (badRequest "missing installation ID in push payload")
        else publishPassing "default-branch" (pp_Repository p) (pp_After p) installationID pushContent
               "default-branch checks posted" "push ignored (aggregate participant, staying silent)"
  end.

(** ** What a merge group is answered *)

(** The call publishes a passing run of that name on the commit. *)
Definition passesOn (repo headSHA name : string) (call : ghCall) : Prop :=
  cr_Name (callOptions call) = name /\ isSuccess call /\
  match call with
  | CreateCheckRun repo' sha _ _ => repo' = repo /\ sha = headSHA
  | UpdateCheckRun repo' _ _ => repo' = repo
  end.

Lemma effect_postPassing repo headSHA content name :
  effect (postPassing repo headSHA content name) (fun _ new r =>
    match r with
    | Ok _ => exists call, new = [call] /\ passesOn repo headSHA name call
    | Err _ => new = []
    end).
Proof.
  assert (Hcreate : effect (createCheckRun repo headSHA (passingOptions content name))
    (fun _ new r => match r with
       | Ok _ => exists call, new = [call] /\ passesOn repo headSHA name call
       | Err _ => new = [] end)).
  { apply effect_exec; [intros; by apply effect_ret|].
    intros g'. eexists [_]. split; [done|]. apply effect_ret. by eexists. }
  unfold postPassing. apply effect_exec; [intros g e; exact Hcreate|].
  intros g. exists []. split; [done|]. cbn [readGate snd].
  eapply effect_impl; [|intros t new r H; rewrite app_nil_r; exact H].
  destruct (FindCheckRunByName _ _ _) as [[[existing|] bad]|]; try exact Hcreate.
  apply effect_exec; [intros; by apply effect_ret|].
  intros g'. eexists [_]. split; [done|]. apply effect_ret. by eexists.
Qed.

(** The targets are published in order, one call each, until one fails. *)
Lemma effect_postTargets repo headSHA content targets :
  effect (postPassingTargets repo headSHA content targets) (fun _ new r =>
    exists posted missed, map fst targets = (posted ++ missed)%list /\
      Forall2 (passesOn repo headSHA) posted (rev new) /\ (r = Ok tt <-> missed = [])).
Proof.
  induction targets as [|[name env] targets IH]; cbn [postPassingTargets map fst].
  { apply effect_ret. exists [], []. repeat split; constructor. }
  eapply effect_bind; [apply effect_postPassing|]. intros t new [id|e]; cbn.
  - intros (call & -> & Hcall). eapply effect_impl; [exact IH|].
    intros t' new' r (posted & missed & Hn & Hf & Hr). exists (name :: posted), missed.
    rewrite Hn, rev_app_distr. cbn. repeat split; [constructor; done|by apply Hr|by apply Hr].
  - intros ->. apply effect_ret. exists [], (name :: map fst targets).
    repeat split; [constructor|done|done].
Qed.

Lemma effect_client : effect clientForRepo (fun _ new _ => new = []).
Proof.
  apply effect_exec; [intros; by apply effect_ret|]. intros g. exists []. split; [done|]. by apply effect_ret.
Qed.

(** The deployment's Check Runs were published in order, one call each, up to the first
    failure, and only for a repository it publishes for; the delivery is answered as
    posted only when all of them are. *)
Definition passingOutcome (repo headSHA posted : string) (new : list ghCall) (r : reply) : Prop :=
  exists done missed,
    map fst (aggregateCheckTargetsForRepo config repo) = (done ++ missed)%list /\
    Forall2 (passesOn repo headSHA) done (rev new) /\
    (new <> [] -> IsRepoAllowed (Some config) repo = true /\ isAggregateParticipant repo = false /\
                  AreChecksEnabled (Some config) repo = true) /\
    (rp_Message r = posted -> missed = []).

Lemma no_calls repo headSHA posted r :
  rp_Message r <> posted -> effect (Ret r) (fun _ new r => passingOutcome repo headSHA posted new r).
Proof.
  intros Hr. apply effect_ret. exists [], (map fst (aggregateCheckTargetsForRepo config repo)).
  repeat split; done.
Qed.

Lemma effect_publishPassing what repo headSHA id content posted silent :
  posted <> silent ->
  posted ∉ ["check publishing disabled"; "repository not registered"; "failed to initialize GitHub client";
            "failed to post " ++ what ++ " checks"] ->
  effect (publishPassing what repo headSHA id content posted silent)
    (fun _ new r => passingOutcome repo headSHA posted new r).
Proof.
  intros Hs Hp. unfold publishPassing, shouldPublishChecks.
  destruct (IsRepoAllowed (Some config) repo) eqn:Ha; [|apply no_calls; set_solver].
  destruct (isAggregateParticipant repo) eqn:Hi; [by apply no_calls|].
  destruct (AreChecksEnabled (Some config) repo) eqn:He; [|apply no_calls; set_solver].
  cbn [negb]. eapply effect_bind; [apply effect_client|]. intros t new [[]|e] ->.
  2: { eapply effect_impl; [apply (no_calls repo headSHA posted); set_solver|]. intros t' new r H. by rewrite app_nil_r. }
  eapply effect_bind; [apply effect_postTargets|].
  intros t' new [[]|e] (d & m & Hn & Hf & Hr); apply effect_ret; exists d, m; rewrite app_nil_l, app_nil_r;
    (split; [done|]); (split; [done|]); (split; [done|]).
  - intros _. by apply Hr.
  - cbn. set_solver.
Qed.

End Passing.

(** Merge queues are not wedged and not fooled.  A merge-group delivery, with other
    deliveries in between and any call failing, publishes a passing Check Run on the
    group's commit under each name the deployment gates and under no other, in order and
    one call each, and only for a registered repository it publishes for and does not
    merely take part in.  It answers that the checks are posted only when every one of
    them is; after a failed call it answers with an error, so that the delivery is sent
    again. *)
Theorem merge_group_publishes config ic contextID p env n s s' r n'
    (Hcalls : keepsCalls env)
    (Hrun : runE env n (handleMergeGroup config ic contextID (Some p)) s = (s', r, n')) :
  exists new, g_calls s' = (new ++ g_calls s)%list /\
    passingOutcome config (mg_Repository p) (mg_HeadSHA p) "merge_group checks posted" new r /\
    (new <> [] -> mg_Action p = "checks_requested" /\ mg_HeadSHA p <> "").
Proof.
  revert env n s s' r n' Hcalls Hrun.
  change (effect (handleMergeGroup config ic contextID (Some p)) (fun _ new r =>
    passingOutcome config (mg_Repository p) (mg_HeadSHA p) "merge_group checks posted" new r /\
    (new <> [] -> mg_Action p = "checks_requested" /\ mg_HeadSHA p <> ""))).
  assert (Hno : forall r, rp_Message r <> "merge_group checks posted" ->
    effect (Ret r) (fun _ new r =>
      passingOutcome config (mg_Repository p) (mg_HeadSHA p) "merge_group checks posted" new r /\
      (new <> [] -> mg_Action p = "checks_requested" /\ mg_HeadSHA p <> ""))).
  { intros r Hr. apply effect_ret. split; [|done].
    exists [], (map fst (aggregateCheckTargetsForRepo config (mg_Repository p))). repeat split; done. }
  unfold handleMergeGroup.
  destruct (mg_Action p == "checks_requested") eqn:Ha; [|by apply Hno]. apply eqb_true_iff in Ha.
  destruct (_ =? 0); [by apply Hno|].
  destruct (mg_HeadSHA p == "") eqn:Hh; [by apply Hno|]. apply eqb_false_iff in Hh. cbn [negb].
  eapply effect_impl; [apply effect_publishPassing; [done|set_solver]|]. auto.
Qed.

(** The leader of the sample repository publishes its staging check. *)
Lemma merge_group_publishes_witness :
  let p := {| mg_Action := "checks_requested"; mg_HeadSHA := "m1"; mg_Repository := "org/app";
              mg_Installation := 3 |} in
  let run := runE (fun _ => quiet) 0 (handleMergeGroup sampleConfig sampleClient None (Some p))
               (sampleGate "h1" []) in
  run.1.2 = ok "merge_group checks posted" [] /\ length (g_calls run.1.1) = 1%nat /\
  passingOutcome sampleConfig "org/app" "m1" "merge_group checks posted" (g_calls run.1.1) run.1.2.
Proof.
  intros p run. split; [by vm_compute|]. split; [by vm_compute|].
  destruct run as [[g' r] n'] eqn:E.
  destruct (merge_group_publishes sampleConfig sampleClient None p (fun _ => quiet) 0 (sampleGate "h1" [])
    g' r n') as (new & Hc & H & _); [intros n s; reflexivity|exact E|].
  change (g_calls (sampleGate "h1" [])) with (@nil ghCall) in Hc. rewrite app_nil_r in Hc. cbn [fst snd].
  rewrite Hc. exact H.
Defined.
