(* ===== verification/Promotion.v ===== *)
(** * Gates before an apply: promotion order and passing checks (pkg/webhook)

    check_prior_env.go lets an apply reach an environment only after every earlier
    environment of the promotion order has a successful check, read from the store
    for environments this instance owns and from GitHub for the others; waiting for
    a check is bounded.  apply_gating.go lets it proceed only when the other checks
    of the pull request pass, from the commit statuses and check runs that
    pkg/github/client.go reads.  Each gate answers what it blocks on, as the comment
    it posts; [None] lets the apply proceed. *)

From S2P Require Import Prelude GoStrings State Sql Store Config Policy Validate Checks MergeFold.
From S2P Require Import MergeGate GateInvariant.

Local Open Scope string_scope.
Local Open Scope Z_scope.

(** ** The promotion gate *)

Inductive PriorEnvBlock :=
| BlockedByUnlistedEnvironment (environment : string) (order : list string)
| BlockedByPriorEnvCheckError (priorEnv operation : string)
| BlockedByMissingPriorEnvCheck (priorEnv : string)
| BlockedByUntrustedPriorEnvCheck (priorEnv checkName : string) (apps : list string)
| BlockedByPriorEnvInProgress (database environment priorEnv : string)
| BlockedByPriorEnv (database environment priorEnv status action : string).

Definition scopedTargetMissingFromPromotionOrder (config : option ServerConfig)
    (environment : string) : bool :=
  match config with
  | None => false
  | Some c => match c_AllowedEnvironments c with
              | [] => false
              | _ => negb (oneOf environment (PromotionEnvironmentOrder config))
              end
  end.

Definition promotionGateEnvironments (config : option ServerConfig) (environment : string)
    (environments : list string) : list string :=
  match config with
  | None => environments
  | Some c =>
      let order := PromotionEnvironmentOrder config in
      match c_AllowedEnvironments c with
      | _ :: _ => if oneOf environment order then order else OrderedEnvironments config environments
      | [] => OrderedEnvironments config environments
      end
  end.

Definition shouldRetryStoredPriorEnvCheck (check : option Check) : bool :=
  match check with None => true | Some c => ck_Status c == checkStatusInProgress end.

Definition shouldRetryGitHubPriorEnvCheck (check : option CheckRunInfo) : bool :=
  match check with
  | None => true
  | Some r => (ri_Status r == checkStatusQueued) || (ri_Status r == checkStatusInProgress)
  end.

Definition defaultPriorEnvCheckMaxAttempts : Z := 4.

(** The prior environments: those listed before the first occurrence of the target;
    none when it is not listed. *)
Fixpoint before (environment : string) (environments : list string) : option (list string) :=
  match environments with
  | [] => None
  | e :: rest => if e == environment then Some []
                 else match before environment rest with
                      | Some l => Some (e :: l)
                      | None => None
                      end
  end.

Section Promotion.
Context (config : option ServerConfig) (ic : ghClient) (cache : option string).
Context (priorEnvCheckMaxAttempts : Z).

Definition priorEnvCheckMaxAttemptCount : Z :=
  if priorEnvCheckMaxAttempts <=? 0 then defaultPriorEnvCheckMaxAttempts
  else priorEnvCheckMaxAttempts.

(** The timer, or the cancellation of the request. *)
Definition waitBeforePriorEnvCheckRetry : prog gate (res unit) := Exec (fun g => (g, Ok tt)) Ret.

(** The attempts [attempt .. attempts]; [left_] of them remain. *)
Fixpoint waitForLocal (k : checkKey) (left_ : nat) (attempt attempts : Z)
    : prog gate (res (option Check)) :=
  match left_ with
  | O => Ret (Ok None)
  | S left' =>
      pbind (Checks.Get k) (fun r => match r with
      | Err e => Ret (Err e)
      | Ok check =>
          if negb (shouldRetryStoredPriorEnvCheck check) || (attempt =? attempts)
          then Ret (Ok check)
          else pbind waitBeforePriorEnvCheckRetry (fun w => match w with
               | Err e => Ret (Err e)
               | Ok _ => waitForLocal k left' (attempt + 1) attempts
               end)
      end)
  end.

Definition waitForLocalPriorEnvCheck (repo : string) (pr : Z) (database dbType priorEnv : string)
    : prog gate (res (option Check)) :=
  let attempts := priorEnvCheckMaxAttemptCount in
  waitForLocal (repo, pr, priorEnv, dbType, database) (Z.to_nat attempts) 1 attempts.

Fixpoint waitForGitHub (repo headSHA checkName : string) (left_ : nat) (attempt attempts : Z)
    (untrustedApps : list string) : prog gate (res (option CheckRunInfo * list string)) :=
  match left_ with
  | O => Ret (Ok (None, untrustedApps))
  | S left' =>
      Exec (fun g => (g, match FindCheckRunByName ic (gv_Runs (g_github g) repo headSHA) checkName with
                         | None => Err (Errorf "cannot verify check run ownership")
                         | Some answer => Ok answer
                         end))
        (fun r => match r with
        | Err e => Ret (Err e)
        | Ok (checkResult, untrusted) =>
            if negb (shouldRetryGitHubPriorEnvCheck checkResult) || (attempt =? attempts)
            then Ret (Ok (checkResult, untrusted))
            else pbind waitBeforePriorEnvCheckRetry (fun w => match w with
                 | Err e => Ret (Err e)
                 | Ok _ => waitForGitHub repo headSHA checkName left' (attempt + 1) attempts untrusted
                 end)
        end)
  end.

Definition waitForGitHubPriorEnvCheck (repo headSHA checkName : string)
    : prog gate (res (option CheckRunInfo * list string)) :=
  let attempts := priorEnvCheckMaxAttemptCount in
  waitForGitHub repo headSHA checkName (Z.to_nat attempts) 1 attempts [].

(** The [default] branch of both switches. *)
Definition blockedByPriorEnv (database environment priorEnv conclusion : string) : PriorEnvBlock :=
  if conclusion == checkConclusionFailure
  then BlockedByPriorEnv database environment priorEnv "failed"
         ("Fix the issue and re-apply " ++ priorEnv)
  else BlockedByPriorEnv database environment priorEnv "has pending changes"
         ("Apply " ++ priorEnv ++ " first").

Definition checkPriorEnvViaLocal (repo : string) (pr : Z)
    (database dbType environment priorEnv : string) : prog gate (option PriorEnvBlock) :=
  pbind (waitForLocalPriorEnvCheck repo pr database dbType priorEnv) (fun r => Ret match r with
  | Err _ => Some (BlockedByPriorEnvCheckError priorEnv "read SchemaBot storage")
  | Ok None => Some (BlockedByMissingPriorEnvCheck priorEnv)
  | Ok (Some check) =>
      if ck_Conclusion check == checkConclusionSuccess then None
      else if ck_Status check == checkStatusInProgress
      then Some (BlockedByPriorEnvInProgress database environment priorEnv)
      else Some (blockedByPriorEnv database environment priorEnv (ck_Conclusion check))
  end).

Definition priorEnvCheckName (repo priorEnv : string) : string :=
  aggregateCheckNameForEnv (GitHubCheckNameBaseForRepo config repo) priorEnv.

(** The answer of the wait decides. *)
Definition judgePriorEnvRun (database environment priorEnv checkName : string)
    (r : res (option CheckRunInfo * list string)) : option PriorEnvBlock :=
  match r with
  | Err _ => Some (BlockedByPriorEnvCheckError priorEnv "query check runs")
  | Ok (None, _ :: _ as untrustedApps) =>
      Some (BlockedByUntrustedPriorEnvCheck priorEnv checkName untrustedApps)
  | Ok (None, []) => Some (BlockedByMissingPriorEnvCheck priorEnv)
  | Ok (Some run, _) =>
      if (ri_Status run == checkStatusCompleted) && (ri_Conclusion run == checkConclusionSuccess)
      then None
      else if (ri_Status run == checkStatusInProgress) || (ri_Status run == checkStatusQueued)
      then Some (BlockedByPriorEnvInProgress database environment priorEnv)
      else Some (blockedByPriorEnv database environment priorEnv (ri_Conclusion run))
  end.

Definition checkPriorEnvViaGitHub (repo : string) (pr : Z)
    (database environment priorEnv : string) : prog gate (option PriorEnvBlock) :=
  pbind clientForRepo (fun r => match r with
  | Err _ => Ret (Some (BlockedByPriorEnvCheckError priorEnv "create GitHub client"))
  | Ok _ =>
      pbind (FetchPullRequest cache repo pr) (fun r => match r with
      | Err _ => Ret (Some (BlockedByPriorEnvCheckError priorEnv "fetch PR details"))
      | Ok headSHA =>
          let checkName := priorEnvCheckName repo priorEnv in
          pbind (waitForGitHubPriorEnvCheck repo headSHA checkName) (fun r =>
          Ret (judgePriorEnvRun database environment priorEnv checkName r))
      end)
  end).

Definition checkPriorEnv (repo : string) (pr : Z) (database dbType environment priorEnv : string)
    : prog gate (option PriorEnvBlock) :=
  if IsEnvironmentAllowed config priorEnv
  then checkPriorEnvViaLocal repo pr database dbType environment priorEnv
  else checkPriorEnvViaGitHub repo pr database environment priorEnv.

Fixpoint checkPriorEnvs (repo : string) (pr : Z) (database dbType environment : string)
    (priors : list string) : prog gate (option PriorEnvBlock) :=
  match priors with
  | [] => Ret None
  | priorEnv :: rest =>
      pbind (checkPriorEnv repo pr database dbType environment priorEnv) (fun blocked =>
      match blocked with
      | Some b => Ret (Some b)
      | None => checkPriorEnvs repo pr database dbType environment rest
      end)
  end.

Definition checkPriorEnvironments (repo : string) (pr : Z) (database dbType environment : string)
    (environments : list string) : prog gate (option PriorEnvBlock) :=
  if scopedTargetMissingFromPromotionOrder config environment
  then Ret (Some (BlockedByUnlistedEnvironment environment (PromotionEnvironmentOrder config)))
  else
    match before environment (promotionGateEnvironments config environment environments) with
    | None => Ret None
    | Some priors => checkPriorEnvs repo pr database dbType environment priors
    end.

End Promotion.

(** ** The passing-checks gate *)

(** [CheckStatusRow] and [PRCheckStatus] *)
Record CheckStatusRow := {
  cs_Name : string;
  cs_Status : string;
  cs_Conclusion : string;
  cs_AppSlug : string;
}.

Record PRCheckStatus := {
  pc_Row : CheckStatusRow;
  pc_IsSchemaBot : bool;
}.
Coercion pc_Row : PRCheckStatus >-> CheckStatusRow.

Definition mapLegacyStatusState (state : string) : string * string :=
  let u := ToUpper state in
  if oneOf u ["PENDING"; "EXPECTED"] then ("in_progress", "")
  else if u == "SUCCESS" then ("completed", "success")
  else if u == "FAILURE" then ("completed", "failure")
  else if u == "ERROR" then ("completed", "error")
  else ("completed", ToLower state).

(** The pages of the combined status: context and state of each. *)
Definition fetchCommitStatusRows (pages : res (list (list (string * string))))
    : res (list CheckStatusRow) :=
  match pages with
  | Err e => Err e
  | Ok pages => Ok (map (fun '(context, state) =>
      let '(status, conclusion) := mapLegacyStatusState state in
      {| cs_Name := context; cs_Status := status; cs_Conclusion := conclusion; cs_AppSlug := "" |})
      (concat pages))
  end.

(** The pages of the check runs. *)
Definition fetchCheckRunRows (pages : res (list (list CheckRunInfo))) : res (list CheckStatusRow) :=
  match pages with
  | Err e => Err e
  | Ok pages => Ok (map (fun run =>
      {| cs_Name := ri_Name run; cs_Status := ToLower (ri_Status run);
         cs_Conclusion := ToLower (ri_Conclusion run); cs_AppSlug := ri_AppSlug run |})
      (concat pages))
  end.

Definition checkRowsContainRequiredChecks (rows : list CheckStatusRow)
    (requiredChecks : list string) : bool :=
  forallb (fun required => existsb (fun row => cs_Name row == required) rows) requiredChecks.

(** What GitHub answers for one commit. *)
Record commitAnswers := {
  ca_Statuses : res (list (list (string * string)));
  ca_CheckRuns : res (list (list CheckRunInfo));
}.

Definition fetchPRCheckStatuses (answers : commitAnswers) (requiredChecks : list string)
    : res (list CheckStatusRow) :=
  match fetchCommitStatusRows (ca_Statuses answers) with
  | Err e => Err e
  | Ok statusRows =>
      if negb (noneConfigured requiredChecks) &&
         checkRowsContainRequiredChecks statusRows requiredChecks
      then Ok statusRows
      else match fetchCheckRunRows (ca_CheckRuns answers) with
           | Err e => Err e
           | Ok checkRows => Ok (statusRows ++ checkRows)%list
           end
  end.

Definition GetPRCheckStatuses (ic : ghClient) (answers : commitAnswers)
    (requiredChecks : list string) : res (list PRCheckStatus) :=
  match fetchPRCheckStatuses answers requiredChecks with
  | Err e => Err e
  | Ok rows => Ok (map (fun r => {| pc_Row := r;
                                    pc_IsSchemaBot := isTrustedCheckAppSlug ic (cs_AppSlug r) |}) rows)
  end.

(** [templates.BlockingCheck] *)
Record BlockingCheck := { bc_Name : string; bc_State : string }.

Definition isPassingCheckConclusion (conclusion : string) : bool :=
  oneOf conclusion ["success"; "neutral"; "skipped"].

Definition isAggregateCheckName (name aggregateBase : string) : bool :=
  if name == aggregateBase then true
  else HasPrefix name (aggregateBase ++ " (") && HasSuffix name ")".

Section PassingChecks.
Context (config : ServerConfig).

Definition statusesContainRequiredCheck (statuses : list PRCheckStatus) : bool :=
  if noneConfigured (c_RequiredChecks config) then false
  else existsb (fun s => negb (pc_IsSchemaBot s) && IsCheckRequired (Some config) (cs_Name s)) statuses.

(** The first two guards of both loops: the statuses that can block. *)
Definition considered (statuses : list PRCheckStatus) : list PRCheckStatus :=
  let filterRequiredChecks := statusesContainRequiredCheck statuses in
  List.filter (fun s => negb (pc_IsSchemaBot s) &&
                        negb (filterRequiredChecks && negb (IsCheckRequired (Some config) (cs_Name s))))
    statuses.

Definition filterNonPassingNonSchemaBotChecks (statuses : list PRCheckStatus) : list BlockingCheck :=
  map (fun s : PRCheckStatus => {| bc_Name := cs_Name s; bc_State := cs_Conclusion s |})
    (List.filter (fun s : PRCheckStatus => (cs_Status s == "completed") &&
                           negb (isPassingCheckConclusion (cs_Conclusion s)))
       (considered statuses)).

Definition filterInProgressNonSchemaBotChecks (statuses : list PRCheckStatus) : list BlockingCheck :=
  map (fun s : PRCheckStatus => {| bc_Name := cs_Name s; bc_State := cs_Status s |})
    (List.filter (fun s : PRCheckStatus => oneOf (cs_Status s) ["in_progress"; "queued"; "pending"])
       (considered statuses)).

Definition missingRequiredStateNotReported := "not reported".

Definition missingRequiredChecks (statuses : list PRCheckStatus) : list BlockingCheck :=
  map (fun name => {| bc_Name := name; bc_State := missingRequiredStateNotReported |})
    (List.filter (fun name => negb (oneOf name (map (fun s : PRCheckStatus => cs_Name s) statuses)))
       (c_RequiredChecks config)).

(** The checks the warning names, and whether each can gate the apply. *)
Definition flagUntrustedAggregateNamedChecks (repo : string) (statuses : list PRCheckStatus)
    : list (PRCheckStatus * bool) :=
  let aggregateBase := GitHubCheckNameBaseForRepo (Some config) repo in
  let filterRequiredChecks := statusesContainRequiredCheck statuses in
  map (fun s : PRCheckStatus =>
         (s, negb (filterRequiredChecks && negb (IsCheckRequired (Some config) (cs_Name s)))))
    (List.filter (fun s : PRCheckStatus =>
        negb (pc_IsSchemaBot s) && isAggregateCheckName (cs_Name s) aggregateBase)
       statuses).

Inductive CheckGateBlock :=
| BlockedByCheckStatusError
| BlockedByNonPassingChecks (checks : list BlockingCheck)
| BlockedByInProgressChecks (inProgress notReported : list BlockingCheck).

Definition enforcePassingChecks (ic : ghClient) (answers : commitAnswers) : option CheckGateBlock :=
  if negb (ShouldRequirePassingChecks (Some config)) then None else
  match GetPRCheckStatuses ic answers (c_RequiredChecks config) with
  | Err _ => Some BlockedByCheckStatusError
  | Ok statuses =>
      let notPassing := filterNonPassingNonSchemaBotChecks statuses in
      let inProgress := filterInProgressNonSchemaBotChecks statuses in
      let notReported := missingRequiredChecks statuses in
      match notPassing with
      | _ :: _ => Some (BlockedByNonPassingChecks notPassing)
      | [] => match inProgress, notReported with
              | [], [] => None
              | _, _ => Some (BlockedByInProgressChecks inProgress notReported)
              end
      end
  end.

End PassingChecks.

(** ** Lemmas *)

Lemma before_split environment environments l :
  before environment environments = Some l <->
  exists l2, environments = (l ++ environment :: l2)%list /\ environment ∉ l.
Proof.
  revert l. induction environments as [|e rest IH]; intros l; cbn.
  { split; [done|]. intros ([|] & ? & ?); destruct l; done. }
  destruct (e == environment) eqn:E; reflect_guards.
  - split.
    + intros [= <-]. exists rest. set_solver.
    + intros (l2 & Heq & Hn). destruct l as [|x l]; [done|]. injection Heq as -> _. set_solver.
  - destruct (before environment rest) as [l0|] eqn:Eb.
    + destruct (proj1 (IH l0) eq_refl) as (l2 & -> & Hn). split.
      * intros [= <-]. exists l2. set_solver.
      * intros (l3 & Heq & Hn'). destruct l as [|x l]; [by injection Heq as -> _|].
        injection Heq as -> Heq. assert (H : Some l0 = Some l); [|by injection H as ->].
        apply IH. exists l3. set_solver.
    + split; [done|]. intros (l3 & Heq & Hn'). destruct l as [|x l]; [by injection Heq as -> _|].
      injection Heq as -> Heq. discriminate (proj2 (IH l)). exists l3. set_solver.
Qed.

Section PromotionLemmas.
Context (config : option ServerConfig) (ic : ghClient) (cache : option string) (max : Z).
Context (repo : string) (pr : Z) (database dbType : string).

Let attempts : nat := Z.to_nat (priorEnvCheckMaxAttemptCount max).

(** The head commit the remote lookup uses: the cached one, or one GitHub gave. *)
Definition headRead (t : list gate) (headSHA : string) : Prop :=
  match cache with
  | Some h => headSHA = h
  | None => exists g, g ∈ t /\ headSHA = gv_HeadSHA (g_github g) repo pr
  end.

(** Some state read during the gate proves the environment applied: its stored check,
    or the answer of the lookup on GitHub. *)
Definition foundPrior (t : list gate) (priorEnv : string) : Prop :=
  if IsEnvironmentAllowed config priorEnv
  then exists g c, g ∈ t /\ g_checks g !! ((repo, pr, priorEnv, dbType, database) : checkKey) = Some c /\
         ck_Conclusion c = checkConclusionSuccess
  else exists g headSHA run bad, g ∈ t /\ headRead t headSHA /\
         FindCheckRunByName ic (gv_Runs (g_github g) repo headSHA) (priorEnvCheckName config repo priorEnv)
           = Some (Some run, bad) /\
         ri_Status run = checkStatusCompleted /\ ri_Conclusion run = checkConclusionSuccess.

(** The App of a run is this one, or one configured as trusted. *)
Definition ownOrTrusted (slug : string) : Prop :=
  slug <> "" /\
  ((gc_appSlug ic <> "" /\ EqualFold slug (gc_appSlug ic) = true) \/
   exists trusted, trusted ∈ gc_trustedCheckAppSlugs ic /\ EqualFold slug trusted = true).

(** The same, in terms of the Check Runs that GitHub lists for the head commit: the
    newest of the environment's name by the own or a trusted App is a completed
    success. *)
Definition provenPrior (t : list gate) (priorEnv : string) : Prop :=
  if IsEnvironmentAllowed config priorEnv
  then exists g c, g ∈ t /\ g_checks g !! ((repo, pr, priorEnv, dbType, database) : checkKey) = Some c /\
         ck_Conclusion c = checkConclusionSuccess
  else exists g headSHA run, g ∈ t /\ headRead t headSHA /\
         run ∈ gv_Runs (g_github g) repo headSHA /\ ri_Name run = priorEnvCheckName config repo priorEnv /\
         ownOrTrusted (ri_AppSlug run) /\
         (forall x, x ∈ gv_Runs (g_github g) repo headSHA -> ri_Name x = ri_Name run -> ownOrTrusted (ri_AppSlug x) ->
            ri_ID x <= ri_ID run) /\
         ri_Status run = checkStatusCompleted /\ ri_Conclusion run = checkConclusionSuccess.

Lemma trusted_iff slug : isTrustedCheckAppSlug ic slug = true <-> ownOrTrusted slug.
Proof.
  unfold isTrustedCheckAppSlug, isOwnAppSlug, ownOrTrusted.
  destruct (slug == "") eqn:Es; reflect_guards; [by split; [|intros [? _]]|].
  destruct (gc_appSlug ic == "") eqn:Ea; reflect_guards; [|destruct (EqualFold slug (gc_appSlug ic)) eqn:Ef];
    rewrite ?existsb_elem; [|tauto|]; (split; [by auto|]); intros [_ [[? ?]|?]]; congruence || done.
Qed.

Lemma found_proven t priorEnv : foundPrior t priorEnv -> provenPrior t priorEnv.
Proof.
  unfold foundPrior, provenPrior. destruct (IsEnvironmentAllowed config priorEnv); [done|].
  intros (g & h & run & bad & Hg & Hh & (Hin & Hname & Ht & Hmax)%FindCheckRunByName_newest & Hs).
  exists g, h, run. do 4 (split; [done|]). split; [by apply trusted_iff|]. split; [|done].
  intros x Hx Hxn Hxt. apply Hmax; [done|congruence|by apply trusted_iff].
Qed.

Lemma headRead_mono t t' headSHA : t ⊆ t' -> headRead t headSHA -> headRead t' headSHA.
Proof. unfold headRead. destruct cache; [done|]. intros Hs (g & Hg & ->). exists g. auto. Qed.

Lemma foundPrior_mono t t' priorEnv : t ⊆ t' -> foundPrior t priorEnv -> foundPrior t' priorEnv.
Proof.
  unfold foundPrior. intros Hs. destruct (IsEnvironmentAllowed config priorEnv).
  - intros (g & c & Hg & H). exists g, c. auto.
  - intros (g & h & run & bad & Hg & Hh & H). exists g, h, run, bad.
    split; [auto|]. split; [by eapply headRead_mono|done].
Qed.

Lemma observes_waitForLocal k left_ attempt last :
  observes (waitForLocal k left_ attempt last) (fun t r =>
    (length t <= 2 * left_)%nat /\
    match r with Ok (Some c) => exists g, g ∈ t /\ g_checks g !! k = Some c | _ => True end).
Proof.
  revert attempt. induction left_ as [|left_ IH]; intros attempt; [by apply observes_ret|].
  cbn [waitForLocal Checks.Get pbind]. apply observes_exec.
  { intros s e. apply observes_ret. cbn. lia. }
  intros g. cbn [readGate snd]. destruct (_ || _) eqn:E.
  - apply observes_ret. cbn [length]. split; [lia|]. destruct (g_checks g !! k) eqn:Ek; [|done].
    exists g. set_solver.
  - apply observes_exec; [intros; apply observes_ret; cbn; lia|]. intros g'. cbn.
    eapply observes_impl; [apply IH|]. intros t r [Hl Hr]. cbn [length]. split; [lia|].
    destruct r as [[c|]|]; [|done..]. destruct Hr as (g0 & Hg0 & H0). exists g0. set_solver.
Qed.

Lemma observes_waitForGitHub headSHA name left_ attempt last bad :
  observes (waitForGitHub ic repo headSHA name left_ attempt last bad) (fun t r =>
    (length t <= 2 * left_)%nat /\
    match r with
    | Ok (Some run, bad') => exists g, g ∈ t /\
        FindCheckRunByName ic (gv_Runs (g_github g) repo headSHA) name = Some (Some run, bad')
    | _ => True
    end).
Proof.
  revert attempt bad. induction left_ as [|left_ IH]; intros attempt bad; [by apply observes_ret|].
  cbn [waitForGitHub]. apply observes_exec.
  { intros s e. apply observes_ret. cbn. lia. }
  intros g. cbn [snd].
  destruct (FindCheckRunByName ic _ name) as [[found bad']|] eqn:Ef;
    [|apply observes_ret; cbn; lia].
  destruct (_ || _) eqn:E.
  - apply observes_ret. cbn [length]. split; [lia|]. destruct found; [|done].
    exists g. set_solver.
  - apply observes_exec; [intros; apply observes_ret; cbn; lia|]. intros g'. cbn.
    eapply observes_impl; [apply IH|]. intros t r [Hl Hr]. cbn [length]. split; [lia|].
    destruct r as [[[run|] bad0]|]; [|done..]. destruct Hr as (g0 & Hg0 & H0). exists g0. set_solver.
Qed.

Lemma observes_prior environment priorEnv :
  observes (checkPriorEnv config ic cache max repo pr database dbType environment priorEnv)
    (fun t r => (length t <= 2 * attempts + 2)%nat /\ (r = None -> foundPrior t priorEnv)).
Proof.
  unfold checkPriorEnv, foundPrior. destruct (IsEnvironmentAllowed config priorEnv) eqn:Ea.
  - eapply observes_bind; [apply observes_waitForLocal|]. fold attempts. intros t r [Hl Hr].
    apply observes_ret. rewrite app_nil_r. split; [lia|]. destruct r as [[c|]|]; [|done..].
    destruct (ck_Conclusion c == checkConclusionSuccess) eqn:Ec; reflect_guards.
    + intros _. destruct Hr as (g & Hg & Hc). eauto.
    + by destruct (ck_Status c == checkStatusInProgress).
  - apply observes_exec; [intros; apply observes_ret; cbn; split; [lia|done]|].
    intros g0. cbn [snd]. eapply (observes_bind (FetchPullRequest cache repo pr) _
      (fun t r => (length t <= 1)%nat /\ match r with Ok h => headRead t h | Err _ => True end)).
    { unfold FetchPullRequest, headRead. destruct cache as [h|].
      - apply observes_ret. cbn. split; [lia|done].
      - apply observes_exec; [intros; apply observes_ret; cbn; split; [lia|done]|].
        intros g. apply observes_ret. cbn. split; [lia|]. exists g. set_solver. }
    intros t r [Hl Hr]. destruct r as [headSHA|]; [|apply observes_ret; rewrite app_nil_r; cbn; split; [lia|done]].
    eapply observes_bind; [apply observes_waitForGitHub|]. fold attempts. intros t' r' [Hl' Hr'].
    apply observes_ret. rewrite app_nil_r. cbn [length]. rewrite length_app. split; [lia|].
    unfold judgePriorEnvRun. destruct r' as [[[run|] bad]|]; [|by destruct bad|done].
    destruct (_ && _) eqn:Es; [|by destruct (_ || _)]. intros _. reflect_guards.
    destruct Hr' as (g & Hg & Hf). exists g, headSHA, run, bad. split; [set_solver|]. split; [|tauto].
    eapply headRead_mono, Hr. set_solver.
Qed.

Lemma observes_priors environment priors :
  observes (checkPriorEnvs config ic cache max repo pr database dbType environment priors)
    (fun t r => (length t <= length priors * (2 * attempts + 2))%nat /\
                (r = None -> forall priorEnv, priorEnv ∈ priors -> foundPrior t priorEnv)).
Proof.
  induction priors as [|p priors IH]; [apply observes_ret; cbn; split; [lia|set_solver]|].
  cbn [checkPriorEnvs]. eapply observes_bind; [apply observes_prior|]. intros t r [Hl Hr].
  destruct r as [b|].
  - apply observes_ret. rewrite app_nil_r. cbn [length]. split; [lia|done].
  - eapply observes_impl; [apply IH|]. intros t' r' [Hl' Hr']. cbn [length]. rewrite length_app.
    split; [lia|]. intros -> priorEnv [->|Hin]%elem_of_cons.
    + eapply foundPrior_mono, Hr; [set_solver|done].
    + eapply foundPrior_mono, Hr'; [set_solver|done|done].
Qed.

End PromotionLemmas.

(** The gate alone, without failures: the waits return what is stored. *)
Lemma run_waitForLocal k left_ attempt last g :
  last = attempt + Z.of_nat left_ ->
  run (waitForLocal k (S left_) attempt last) g = (g, Ok (g_checks g !! k)).
Proof.
  revert attempt. induction left_ as [|left_ IH]; intros attempt Hl; cbn [waitForLocal Checks.Get pbind];
    rewrite run_Exec; cbn [readGate fst snd].
  - replace (attempt =? last) with true by (symmetry; apply Z.eqb_eq; lia). by rewrite orb_true_r.
  - destruct (_ || _) eqn:E; [done|]. cbn [waitBeforePriorEnvCheckRetry pbind]. rewrite run_Exec.
    cbn [fst snd]. apply IH. lia.
Qed.

Lemma run_waitForGitHub ic repo headSHA name left_ attempt last bad g answer :
  last = attempt + Z.of_nat left_ ->
  FindCheckRunByName ic (gv_Runs (g_github g) repo headSHA) name = Some answer ->
  run (waitForGitHub ic repo headSHA name (S left_) attempt last bad) g = (g, Ok answer).
Proof.
  intros Hl Hf. revert attempt bad Hl.
  induction left_ as [|left_ IH]; intros attempt bad Hl; cbn [waitForGitHub]; rewrite run_Exec;
    cbn [fst snd]; rewrite Hf; destruct answer as [found bad'].
  - replace (attempt =? last) with true by (symmetry; apply Z.eqb_eq; lia). by rewrite orb_true_r.
  - destruct (_ || _) eqn:E; [done|]. cbn [waitBeforePriorEnvCheckRetry pbind]. rewrite run_Exec.
    cbn [fst snd]. apply (IH (attempt + 1) bad'). lia.
Qed.

Lemma attempts_positive max : exists k, Z.to_nat (priorEnvCheckMaxAttemptCount max) = S k /\
  priorEnvCheckMaxAttemptCount max = 1 + Z.of_nat k.
Proof.
  unfold priorEnvCheckMaxAttemptCount. destruct (max <=? 0) eqn:E.
  - by exists 3%nat.
  - apply Z.leb_gt in E. exists (Z.to_nat (max - 1)). lia.
Qed.

Lemma run_prior config ic cache max repo pr database dbType environment priorEnv g :
  foundPrior config ic cache repo pr database dbType [g] priorEnv ->
  run (checkPriorEnv config ic cache max repo pr database dbType environment priorEnv) g = (g, None).
Proof.
  unfold foundPrior, checkPriorEnv. destruct (attempts_positive max) as (k & Ek & Ek').
  destruct (IsEnvironmentAllowed config priorEnv).
  - intros (g' & c & ->%list_elem_of_singleton & Hc & Hs). unfold checkPriorEnvViaLocal, waitForLocalPriorEnvCheck.
    rewrite run_bind, Ek, run_waitForLocal by done. cbn [fst snd]. by rewrite Hc, Hs.
  - intros (g' & h & r & bad & ->%list_elem_of_singleton & Hh & Hf & Hst & Hco).
    unfold checkPriorEnvViaGitHub, clientForRepo. rewrite run_bind, run_Exec, run_Ret. cbn [fst snd].
    rewrite run_bind.
    assert (Hp : run (FetchPullRequest cache repo pr) g = (g, Ok h)).
    { unfold headRead in Hh. unfold FetchPullRequest. destruct cache as [h'|]; [by subst|].
      destruct Hh as (g' & ->%list_elem_of_singleton & ->). done. }
    rewrite Hp. cbn [fst snd]. rewrite run_bind. unfold waitForGitHubPriorEnvCheck.
    rewrite Ek, (run_waitForGitHub _ _ _ _ _ _ _ _ _ (Some r, bad)) by done.
    cbn [fst snd]. rewrite run_Ret. unfold judgePriorEnvRun. by rewrite Hst, Hco.
Qed.

(** What a run of the whole gate shows. *)
Lemma observes_gate config ic cache max repo pr database dbType environment environments :
  let order := promotionGateEnvironments config environment environments in
  observes (checkPriorEnvironments config ic cache max repo pr database dbType environment environments)
    (fun t r =>
      (r = None -> scopedTargetMissingFromPromotionOrder config environment = false /\
         forall earlier later, order = (earlier ++ environment :: later)%list -> environment ∉ earlier ->
         forall priorEnv, priorEnv ∈ earlier ->
           foundPrior config ic cache repo pr database dbType t priorEnv) /\
      (forall earlier later, order = (earlier ++ environment :: later)%list -> environment ∉ earlier ->
         (length t <= length earlier * (2 * Z.to_nat (priorEnvCheckMaxAttemptCount max) + 2))%nat) /\
      (environment ∉ order -> t = [])).
Proof.
  cbn zeta.
  unfold checkPriorEnvironments. destruct (scopedTargetMissingFromPromotionOrder config environment) eqn:Em.
  { apply observes_ret. cbn. split; [done|]. split; [lia|done]. }
  set (order := promotionGateEnvironments _ _ _). destruct (before environment order) as [l|] eqn:Eb.
  - eapply observes_impl; [apply observes_priors|]. intros t r [Hl Hr].
    destruct (proj1 (before_split _ _ _) Eb) as (l2 & Ho & Hn).
    assert (forall earlier later, order = (earlier ++ environment :: later)%list -> environment ∉ earlier -> earlier = l) as Hu.
    { intros earlier later Heq Hni. assert (E : before environment order = Some earlier) by (apply before_split; eauto). congruence. }
    split; [|split].
    + intros Hnone. split; [done|]. intros earlier later Heq Hni. rewrite (Hu _ _ Heq Hni). by apply Hr.
    + intros earlier later Heq Hni. by rewrite (Hu _ _ Heq Hni).
    + rewrite Ho. set_solver.
  - assert (forall earlier later, order = (earlier ++ environment :: later)%list -> environment ∉ earlier -> False) as Hu.
    { intros earlier later Heq Hni. assert (E : before environment order = Some earlier) by (apply before_split; eauto). congruence. }
    apply observes_ret. split; [|split; [|done]].
    + intros _. split; [done|]. intros earlier later Heq Hni. by destruct (Hu _ _ Heq Hni).
    + intros earlier later Heq Hni. by destruct (Hu _ _ Heq Hni).
Qed.

(** ** Properties *)

(** C31: the promotion gate.  Run it with other deliveries changing anything between
    its steps and any step failing.  If it lets the apply proceed, the target is in
    the promotion order of a scoped instance, and every environment before it was
    proven applied by a state read during the run: a stored check that concluded
    success, or, for an environment of another instance, among the Check Runs that
    GitHub listed for the head commit, the newest one of that environment's name whose
    App is this one or a configured trusted one is completed with success.  The gate
    sends at most [2 * attempts + 2] statements per earlier environment, and none for
    a target that the order does not list. *)
Theorem promotion_gate_sound config ic cache max env n s s' r n' repo pr database dbType
    environment environments
    (Hrun : runE env n (checkPriorEnvironments config ic cache max repo pr database dbType
                          environment environments) s = (s', r, n')) :
  let order := promotionGateEnvironments config environment environments in
  let t := trace env n (checkPriorEnvironments config ic cache max repo pr database dbType
                          environment environments) s in
  (r = None -> scopedTargetMissingFromPromotionOrder config environment = false /\
     forall earlier later, order = (earlier ++ environment :: later)%list -> environment ∉ earlier ->
     forall priorEnv, priorEnv ∈ earlier ->
       provenPrior config ic cache repo pr database dbType t priorEnv) /\
  (forall earlier later, order = (earlier ++ environment :: later)%list -> environment ∉ earlier ->
     (length t <= length earlier * (2 * Z.to_nat (priorEnvCheckMaxAttemptCount max) + 2))%nat) /\
  (environment ∉ order -> t = []).
Proof.
  cbv zeta. destruct (observes_gate config ic cache max repo pr database dbType environment environments
           env n s s' r n' Hrun) as (Hnone & Hbound). split; [|done].
  intros Hr. destruct (Hnone Hr) as [Hm Hall]. split; [done|]. intros earlier later Ho Hn priorEnv Hp.
  by eapply found_proven, Hall.
Qed.

(** The promotion gate opens.  Alone and without failures, a gate whose earlier
    environments are all proven applied lets the apply proceed. *)
Theorem promotion_gate_opens config ic cache max repo pr database dbType environment environments g
    (Hlisted : scopedTargetMissingFromPromotionOrder config environment = false)
    (Hproven : forall earlier later,
       promotionGateEnvironments config environment environments = (earlier ++ environment :: later)%list ->
       environment ∉ earlier ->
       forall priorEnv, priorEnv ∈ earlier ->
         foundPrior config ic cache repo pr database dbType [g] priorEnv) :
  run (checkPriorEnvironments config ic cache max repo pr database dbType environment environments) g
    = (g, None).
Proof.
  unfold checkPriorEnvironments. rewrite Hlisted.
  destruct (before environment _) as [l|] eqn:Eb; [|done].
  destruct (proj1 (before_split _ _ _) Eb) as (l2 & Ho & Hn). specialize (Hproven l l2 Ho Hn).
  clear Eb Ho Hn. induction l as [|p l IH]; [done|]. cbn [checkPriorEnvs].
  rewrite run_bind, run_prior by (apply Hproven; set_solver). cbn [fst snd]. apply IH. set_solver.
Qed.

(** The sample instance owns staging; an apply to production passes once the stored
    check of staging concluded success. *)
Lemma promotion_gate_sound_witness :
  let g := sampleGate "h1" [sampleRow "h1" "completed" "success" "" 5] in
  provenPrior (Some sampleConfig) sampleClient None "org/app" 7 "pay" "mysql"
    (trace (fun _ => quiet) 0 (checkPriorEnvironments (Some sampleConfig) sampleClient None 0 "org/app" 7
       "pay" "mysql" "production" ["staging"; "production"]) g) "staging".
Proof.
  cbn zeta. set (g := sampleGate _ _). set (p := checkPriorEnvironments _ _ _ _ _ _ _ _ _ _).
  assert (E : runE (fun _ => quiet) 0 p g = (g, None, 1%nat)) by reflexivity.
  destruct (promotion_gate_sound (Some sampleConfig) sampleClient None 0 (fun _ => quiet) 0 g g None 1
    "org/app" 7 "pay" "mysql" "production" ["staging"; "production"] E) as [H _].
  destruct (H eq_refl) as [_ H']. apply (H' ["staging"] []); [reflexivity|set_solver|set_solver].
Defined.

Lemma promotion_gate_opens_witness :
  let g := sampleGate "h1" [sampleRow "h1" "completed" "success" "" 5] in
  run (checkPriorEnvironments (Some sampleConfig) sampleClient None 0 "org/app" 7 "pay" "mysql"
         "production" ["staging"; "production"]) g = (g, None).
Proof.
  cbn zeta. set (g := sampleGate _ _).
  apply (promotion_gate_opens (Some sampleConfig) sampleClient None 0 "org/app" 7 "pay" "mysql"
           "production" ["staging"; "production"] g); [reflexivity|].
  intros [|e earlier] later Heq Hni priorEnv Hin; [set_solver|].
  assert (Hs : e :: earlier = ["staging"]).
  { cbv in Heq. injection Heq as <- Heq. destruct earlier as [|e2 earlier]; [reflexivity|].
    injection Heq as <- _. set_solver. }
  rewrite Hs in Hin. apply list_elem_of_singleton in Hin as ->. cbv beta delta [foundPrior].
  exists g, (sampleRow "h1" "completed" "success" "" 5).
  split; [set_solver|]. split; vm_compute; reflexivity.
Defined.

(** A stale success promotes.  The stored check of the earlier environment is
    compared with nothing but success: staging's success for an earlier commit lets
    the apply of the current head proceed, where the aggregate of the same rows
    would wait.  A push whose plan for staging is not stored yet is in this state. *)
Theorem stale_prior_success_promotes :
  let row := sampleRow "h1" "completed" "success" "" 5 in
  let g := sampleGate "h2" [row] in
  gv_HeadSHA (g_github g) "org/app" 7 = "h2" /\
  run (checkPriorEnvironments (Some sampleConfig) sampleClient None 0 "org/app" 7 "pay" "mysql"
         "production" ["staging"; "production"]) g = (g, None) /\
  computeAggregate (normalizeStaleContributions [row] "h2").1 = ("", checkStatusInProgress).
Proof. repeat split. Qed.

(** ** Lemmas: passing checks *)

Lemma map_filter_nil {A B} (f : A -> B) (p : A -> bool) l :
  map f (List.filter p l) = [] <-> forall x, x ∈ l -> p x = false.
Proof.
  induction l as [|a l IH]; cbn; [set_solver|]. destruct (p a) eqn:E; cbn.
  - split; [done|]. intros H. specialize (H a). rewrite E in H. set_solver.
  - rewrite IH. set_solver.
Qed.

(** A status can block unless SchemaBot's own Apps made it or, when some required
    check is reported by another App, it is not a required one. *)
Definition gates (config : ServerConfig) (statuses : list PRCheckStatus) (s : PRCheckStatus) : Prop :=
  s ∈ statuses /\ pc_IsSchemaBot s = false /\
  (statusesContainRequiredCheck config statuses = true -> cs_Name s ∈ c_RequiredChecks config).

Lemma statusesContainRequiredCheck_configured config statuses :
  statusesContainRequiredCheck config statuses = true -> c_RequiredChecks config <> [].
Proof. unfold statusesContainRequiredCheck. by destruct (c_RequiredChecks config). Qed.

Lemma elem_of_considered config statuses s : s ∈ considered config statuses <-> gates config statuses s.
Proof.
  unfold considered, gates. rewrite list_elem_of_In, filter_In, <- list_elem_of_In.
  rewrite andb_true_iff, !negb_true_iff, andb_false_iff, negb_false_iff.
  destruct (statusesContainRequiredCheck config statuses) eqn:E.
  - apply statusesContainRequiredCheck_configured in E. unfold IsCheckRequired.
    destruct (c_RequiredChecks config) as [|a l] eqn:Er; [done|]. rewrite oneOf_elem. intuition congruence.
  - intuition congruence.
Qed.

(** The passing-checks gate, exactly.  With the gate on, an apply proceeds if
    and only if GitHub's statuses could be read, every required check is reported,
    and each status that can block neither completed with a conclusion other than
    success, neutral or skipped, nor is in progress, queued or pending. *)
Theorem passing_checks_gate config ic answers
    (Hon : ShouldRequirePassingChecks (Some config) = true) :
  enforcePassingChecks config ic answers = None <->
  exists statuses, GetPRCheckStatuses ic answers (c_RequiredChecks config) = Ok statuses /\
    (forall name, name ∈ c_RequiredChecks config -> exists s, s ∈ statuses /\ cs_Name (pc_Row s) = name) /\
    (forall s, gates config statuses s ->
       (cs_Status s = "completed" -> isPassingCheckConclusion (cs_Conclusion s) = true) /\
       cs_Status s ∉ ["in_progress"; "queued"; "pending"]).
Proof.
  unfold enforcePassingChecks. rewrite Hon. cbn [negb].
  destruct (GetPRCheckStatuses ic answers _) as [statuses|e]; [|split; [done|by intros (? & ? & _)]].
  trans (filterNonPassingNonSchemaBotChecks config statuses = [] /\
         filterInProgressNonSchemaBotChecks config statuses = [] /\
         missingRequiredChecks config statuses = []).
  { destruct (filterNonPassingNonSchemaBotChecks config statuses); [|intuition discriminate].
    destruct (filterInProgressNonSchemaBotChecks config statuses), (missingRequiredChecks config statuses);
      intuition discriminate. }
  unfold filterNonPassingNonSchemaBotChecks, filterInProgressNonSchemaBotChecks, missingRequiredChecks.
  rewrite !map_filter_nil. setoid_rewrite elem_of_considered.
  setoid_rewrite negb_false_iff. setoid_rewrite oneOf_elem. setoid_rewrite list_elem_of_fmap.
  setoid_rewrite andb_false_iff. setoid_rewrite negb_false_iff.
  assert (Hb : forall s : PRCheckStatus, oneOf (cs_Status s) ["in_progress"; "queued"; "pending"] = false <->
                 cs_Status s ∉ ["in_progress"; "queued"; "pending"]).
  { intros s. rewrite <- oneOf_elem. by destruct (oneOf _ _). }
  setoid_rewrite Hb. split.
  - intros (H1 & H2 & H3). exists statuses. split; [done|]. split.
    + intros name Hn. destruct (H3 name Hn) as (s & -> & Hs). eauto.
    + intros s Hg. split; [|by apply H2]. intros Hc. destruct (H1 s Hg) as [Hf|Hp];
      [by rewrite Hc in Hf|]. by apply oneOf_elem.
  - intros (st & [= <-] & H1 & H2). split; [|split].
    + intros s Hg. destruct (cs_Status s == "completed") eqn:E; reflect_guards; [right|by left].
      by apply oneOf_elem, H2.
    + intros s Hg. by apply H2.
    + intros name Hn. destruct (H1 name Hn) as (s & Hs & <-). eauto.
Qed.

Definition sampleRun (name slug status conclusion : string) : CheckRunInfo :=
  {| ri_ID := 1; ri_Name := name; ri_AppSlug := slug; ri_Status := status; ri_Conclusion := conclusion |}.

Lemma passing_checks_gate_witness :
  let answers := {| ca_Statuses := Ok [[("ci", "pending")]]; ca_CheckRuns := Ok [] |} in
  enforcePassingChecks sampleConfig sampleClient answers <> None.
Proof.
  cbn zeta. intros H. apply passing_checks_gate in H; [|reflexivity].
  destruct H as (statuses & Hst & _ & H). injection Hst as <-.
  match type of H with forall s, gates _ [?x] s -> _ => destruct (H x) as [_ Hp] end.
  { split; [set_solver|]. split; [reflexivity|]. intros _. vm_compute. apply list_elem_of_here. }
  apply Hp. apply list_elem_of_here.
Defined.

(** A check that has not started does not block.  GitHub also reports check runs
    as waiting (on a deployment protection rule) or requested: neither loop knows
    these statuses, so an apply proceeds although the required check has not run. *)
Theorem waiting_check_does_not_block :
  let answers status := {| ca_Statuses := Ok []; ca_CheckRuns := Ok [[sampleRun "ci" "github-actions" status ""]] |} in
  enforcePassingChecks sampleConfig sampleClient (answers "waiting") = None /\
  enforcePassingChecks sampleConfig sampleClient (answers "requested") = None /\
  enforcePassingChecks sampleConfig sampleClient (answers "queued") <> None.
Proof. repeat split. done. Qed.
