(* ===== verification/Reviews.v ===== *)
(** * Who may apply: actor authorization and the review gate (pkg/webhook, pkg/github)

    actor_authorization.go decides whether the author of a pull request command is an
    admin or operator of the database; review_gate.go whether somebody other than the
    author of the pull request, whom the review policy names, approved it last.  The
    answers of GitHub and the CODEOWNERS library are parameters. *)

From S2P Require Import Prelude GoStrings Sql Config Policy Validate.

Local Open Scope string_scope.
Local Open Scope Z_scope.

(** [codeowners.Owner]: its value and whether its type is [TeamOwner]. *)
Record Owner := { ow_Value : string; ow_Team : bool }.

(** [ReviewInfo] *)
Record ReviewInfo := { rv_User : string; rv_State : string; rv_SubmittedAt : Z }.

(** The fields of [PullRequestInfo] the gate reads. *)
Record PullRequestInfo := { pi_BaseRef : string; pi_User : string }.

Inductive ActorErr :=
| ConfigUnavailable
| ClientNil
| InvalidConfiguredTeam (team : string)
| MembershipUnreadable (org slug : string) (e : StoreErr)
| FetchFailed (what : string) (e : StoreErr)
| DatabaseNotConfigured (database : string)
| NoConfiguredReviewers (database : string).

(** ** Reviews *)

Definition ReviewApproved := "APPROVED".
Definition ReviewCommented := "COMMENTED".

Definition reviewStep (latest : gmap string (string * Z)) (r : ReviewInfo)
    : gmap string (string * Z) :=
  if rv_User r == "" then latest
  else if EqualFold (rv_State r) ReviewCommented then latest
  else
    let key := ToLower (rv_User r) in
    match latest !! key with
    | Some cur => if rv_SubmittedAt r <? cur.2 then latest
                  else <[key := (rv_State r, rv_SubmittedAt r)]> latest
    | None => <[key := (rv_State r, rv_SubmittedAt r)]> latest
    end.

Definition approvedIn (latest : gmap string (string * Z)) : list string :=
  map fst (List.filter (fun '(_, info) => EqualFold info.1 ReviewApproved) (map_to_list latest)).

(** The order in which Go ranges over the map is [approvedIn]'s up to [range]. *)
Definition GetApprovedReviewers (range : list string -> list string) (reviews : list ReviewInfo)
    : list string :=
  range (approvedIn (fold_left reviewStep reviews ∅)).

(** ** Owners *)

Definition TeamParts (o : Owner) : string * string :=
  match splitOn "/" (ow_Value o) with
  | org :: (_ :: _ as rest) => (org, joinWith "/" rest)
  | _ => (ow_Value o, "")
  end.

Section Owners.
Context (ownerString : Owner -> string).

Definition ownerStep (acc : gset string * list Owner) (o : Owner) : gset string * list Owner :=
  let key := ToLower (ownerString o) in
  if bool_decide (key ∈ acc.1) then acc else ({[key]} ∪ acc.1, (acc.2 ++ [o])%list).

Definition OwnersFromRuleset (rules : list (list Owner)) : list Owner :=
  (fold_left ownerStep (concat rules) (∅, [])).2.

Definition OwnerName (o : Owner) : string := TrimPrefix (ownerString o) "@".
Definition OwnerNames (owners : list Owner) : list string := map OwnerName owners.
End Owners.

Definition appendUniqueString (values : list string) (value : string) : list string :=
  if existsb (fun existing => EqualFold existing value) values then values
  else (values ++ [value])%list.

Definition matchedUserPrincipal (allowedUsers : list string) (actor : string) : option string :=
  List.find (fun user => EqualFold user actor) allowedUsers.

(** [ActorAuthorizationResult] *)
Record ActorAuthorizationResult := {
  ar_Allowed : bool;
  ar_Reason : string;
  ar_MatchedPrincipal : string;
}.

Definition ActorAuthReasonDisabled := "disabled".
Definition ActorAuthReasonAllowedAdminTeam := "allowed_admin_team".
Definition ActorAuthReasonAllowedAdminUser := "allowed_admin_user".
Definition ActorAuthReasonAllowedRepoAdminTeam := "allowed_repo_admin_team".
Definition ActorAuthReasonAllowedRepoAdminUser := "allowed_repo_admin_user".
Definition ActorAuthReasonAllowedOperatorTeam := "allowed_operator_team".
Definition ActorAuthReasonAllowedOperatorUser := "allowed_operator_user".
Definition ActorAuthReasonMissingActor := "missing_actor".
Definition ActorAuthReasonMissingServerConfig := "missing_server_config".
Definition ActorAuthReasonMissingDatabaseConfig := "missing_database_config".
Definition ActorAuthReasonNoConfiguredPrincipal := "no_configured_principal".
Definition ActorAuthReasonNotAuthorized := "not_authorized".
Definition ActorAuthReasonGitHubError := "github_error".

Definition denied (reason : string) : ActorAuthorizationResult :=
  {| ar_Allowed := false; ar_Reason := reason; ar_MatchedPrincipal := "" |}.
Definition allowed (reason principal : string) : ActorAuthorizationResult :=
  {| ar_Allowed := true; ar_Reason := reason; ar_MatchedPrincipal := principal |}.

Section Actors.
(** GitHub's list of the members of a team. *)
Context (ListTeamMembers : string -> string -> res (list string)).

Definition IsTeamMember (org slug login : string) : result ActorErr bool :=
  match ListTeamMembers org slug with
  | Err e => Err (MembershipUnreadable org slug e)
  | Ok members => Ok (existsb (fun member => EqualFold member login) members)
  end.

Fixpoint actorInAnyTeam (teams : list string) (actor : string) : result ActorErr (option string) :=
  match teams with
  | [] => Ok None
  | team :: rest =>
      match ParseGitHubTeamPrincipal team with
      | None => Err (InvalidConfiguredTeam team)
      | Some (org, slug) =>
          match IsTeamMember org slug actor with
          | Err e => Err e
          | Ok true => Ok (Some team)
          | Ok false => actorInAnyTeam rest actor
          end
      end
  end.

(** ** Actor authorization *)

Definition answer : Type := ActorAuthorizationResult * option ActorErr.

(** One group of teams: a match allows, an error denies, otherwise go on. *)
Definition viaTeams (client : bool) (teams : list string) (actor reason : string) (k : answer)
    : answer :=
  match teams with
  | [] => k
  | _ => if negb client then (denied ActorAuthReasonGitHubError, Some ClientNil)
         else match actorInAnyTeam teams actor with
              | Err e => (denied ActorAuthReasonGitHubError, Some e)
              | Ok (Some principal) => (allowed reason principal, None)
              | Ok None => k
              end
  end.

Definition viaUsers (users : list string) (actor reason : string) (k : answer) : answer :=
  match matchedUserPrincipal users actor with
  | Some principal => (allowed reason principal, None)
  | None => k
  end.

(** [service] is the configuration of the handler's service, if it has one. *)
Definition authorizeConfiguredDatabaseActor (service : option ServerConfig) (client : bool)
    (actor repo database : string) : answer :=
  match service with
  | None => (denied ActorAuthReasonMissingServerConfig, Some ConfigUnavailable)
  | Some config =>
      if TrimSpace actor == "" then (denied ActorAuthReasonMissingActor, None) else
      match Database config database with
      | None => (denied ActorAuthReasonMissingDatabaseConfig, None)
      | Some dbConfig =>
          let authConfig := c_PRCommandAuthorization config in
          let '(repoAdminTeams, repoAdminUsers) := RepoAdmins config repo in
          let teamCount := (length (pa_AdminTeams authConfig) + length repoAdminTeams +
                            length (db_OperatorTeams dbConfig))%nat in
          let principalCount := (teamCount + length (pa_AdminUsers authConfig) +
                                 length repoAdminUsers + length (db_OperatorUsers dbConfig))%nat in
          if (principalCount =? 0)%nat then (denied ActorAuthReasonNoConfiguredPrincipal, None) else
          viaTeams client (pa_AdminTeams authConfig) actor ActorAuthReasonAllowedAdminTeam
          (viaUsers (pa_AdminUsers authConfig) actor ActorAuthReasonAllowedAdminUser
          (viaTeams client repoAdminTeams actor ActorAuthReasonAllowedRepoAdminTeam
          (viaUsers repoAdminUsers actor ActorAuthReasonAllowedRepoAdminUser
          (viaTeams client (db_OperatorTeams dbConfig) actor ActorAuthReasonAllowedOperatorTeam
          (viaUsers (db_OperatorUsers dbConfig) actor ActorAuthReasonAllowedOperatorUser
          (denied ActorAuthReasonNotAuthorized, None))))))
      end
  end.

Definition authorizePRCommandActor (service : option ServerConfig) (client : bool)
    (actor repo database : string) : answer :=
  match service with
  | None => (denied ActorAuthReasonMissingServerConfig, Some ConfigUnavailable)
  | Some config =>
      if negb (PRCommandAuthorizationEnabled (Some config))
      then (allowed ActorAuthReasonDisabled "", None)
      else if TrimSpace actor == "" then (denied ActorAuthReasonMissingActor, None)
      else authorizeConfiguredDatabaseActor service client actor repo database
  end.

Definition actorAuthorizationMetricStatus (a : answer) : string :=
  match a.2 with
  | Some _ => "error"
  | None => if ar_Reason a.1 == ActorAuthReasonDisabled then "skipped"
            else if ar_Allowed a.1 then "allowed" else "denied"
  end.

(** The comment a blocked command gets; [None] lets it run. *)
Inductive ActorBlock :=
| AuthorizationUnavailable
| CommandDatabaseNotConfigured
| CommandNotAuthorized (principals : list string).

Definition enforcePRCommandActorAuthorization (service : option ServerConfig) (client : bool)
    (repo requestedBy database : string) : option ActorBlock :=
  match authorizePRCommandActor service client requestedBy repo database with
  | (_, Some _) => Some AuthorizationUnavailable
  | (result, None) =>
      if negb (ar_Allowed result) then
        if ar_Reason result == ActorAuthReasonMissingDatabaseConfig
        then Some CommandDatabaseNotConfigured
        else Some (CommandNotAuthorized (PRCommandAuthorizedPrincipals service repo database))
      else None
  end.

(** ** The review gate *)

(** [reviewGatePolicy] *)
Record reviewGatePolicy := {
  gp_AdminTeams : list string;
  gp_AdminUsers : list string;
  gp_RepoAdminTeams : list string;
  gp_RepoAdminUsers : list string;
  gp_OperatorTeams : list string;
  gp_OperatorUsers : list string;
  gp_CodeownerReviewers : gset string;
  gp_RequiredReviewers : list string;
}.

Definition matchTeams (teams : list string) (reviewer : string) (k : result ActorErr (option string))
    : result ActorErr (option string) :=
  match teams with
  | [] => k
  | _ => match actorInAnyTeam teams reviewer with
         | Err e => Err e
         | Ok (Some principal) => Ok (Some principal)
         | Ok None => k
         end
  end.

Definition matchUsers (users : list string) (reviewer : string) (k : result ActorErr (option string))
    : result ActorErr (option string) :=
  match matchedUserPrincipal users reviewer with
  | Some principal => Ok (Some principal)
  | None => k
  end.

Definition Matches (p : reviewGatePolicy) (reviewer : string) : result ActorErr (option string) :=
  matchTeams (gp_AdminTeams p) reviewer
  (matchUsers (gp_AdminUsers p) reviewer
  (matchTeams (gp_RepoAdminTeams p) reviewer
  (matchUsers (gp_RepoAdminUsers p) reviewer
  (matchTeams (gp_OperatorTeams p) reviewer
  (matchUsers (gp_OperatorUsers p) reviewer
  (if bool_decide (ToLower reviewer ∈ gp_CodeownerReviewers p)
   then Ok (Some "CODEOWNERS") else Ok None)))))).

Section Codeowners.
(** The CODEOWNERS library: a ruleset, its parser, the owners of its rules, and the
    owners of the rule a path matches ([None] is a nil list: no rule, or no owners). *)
Context {ruleset : Type} (ParseFile : string -> res ruleset) (Rules : ruleset -> list (list Owner)).
Context (Match : ruleset -> string -> res (option (list Owner))).
Context (ownerString : Owner -> string).
(** A file at a ref; [None] is a 404. *)
Context (FetchFileContent : string -> string -> res (option string)).

Fixpoint firstCodeowners (paths : list string) (ref : string)
    : result ActorErr (option ruleset) :=
  match paths with
  | [] => Ok None
  | p :: rest =>
      match FetchFileContent p ref with
      | Err e => Err (FetchFailed "fetch CODEOWNERS" e)
      | Ok None => firstCodeowners rest ref
      | Ok (Some content) =>
          match ParseFile content with
          | Err e => Err (FetchFailed "parse CODEOWNERS" e)
          | Ok rules => Ok (Some rules)
          end
      end
  end.

Definition FetchCodeownersRuleset (ref : string) : result ActorErr (option ruleset) :=
  firstCodeowners [".github/CODEOWNERS"; "CODEOWNERS"; "docs/CODEOWNERS"] ref.

Definition matchReviewGateCodeowners (baseRef schemaPath : string)
    : result ActorErr (option (list Owner)) :=
  match FetchCodeownersRuleset baseRef with
  | Err e => Err e
  | Ok None => Ok None
  | Ok (Some rules) =>
      let all := Some (OwnersFromRuleset ownerString (Rules rules)) in
      if schemaPath == "" then Ok all else
      match Match rules (TrimSuffix schemaPath "/" ++ "/.schema") with
      | Err e => Err (FetchFailed "match CODEOWNERS" e)
      | Ok (Some owners) => Ok (Some owners)
      | Ok None => Ok all
      end
  end.

(** The CODEOWNERS loop: teams are expanded to their members. *)
Fixpoint expandOwners (owners : list Owner) (reviewers : gset string)
    : result ActorErr (gset string) :=
  match owners with
  | [] => Ok reviewers
  | owner :: rest =>
      if ow_Team owner then
        let '(org, slug) := TeamParts owner in
        match ListTeamMembers org slug with
        | Err e => Err (MembershipUnreadable org slug e)
        | Ok members => expandOwners rest (list_to_set (map ToLower members) ∪ reviewers)
        end
      else expandOwners rest ({[ToLower (ow_Value owner)]} ∪ reviewers)
  end.

Definition appendRequiredReviewers (required : list string) (groups : list (list string))
    : list string := fold_left appendUniqueString (concat groups) required.

Definition loadReviewGatePolicy (service : option ServerConfig)
    (repo baseRef database schemaPath : string) : result ActorErr reviewGatePolicy :=
  match service with
  | None => Err ConfigUnavailable
  | Some config =>
      let reviewPolicy := c_ReviewPolicy config in
      let '(repoAdminTeams, repoAdminUsers) := RepoAdmins config repo in
      let required := appendRequiredReviewers []
        [rp_AdminTeams reviewPolicy; rp_AdminUsers reviewPolicy; repoAdminTeams; repoAdminUsers] in
      let policy operatorTeams operatorUsers codeowners required :=
        {| gp_AdminTeams := rp_AdminTeams reviewPolicy; gp_AdminUsers := rp_AdminUsers reviewPolicy;
           gp_RepoAdminTeams := repoAdminTeams; gp_RepoAdminUsers := repoAdminUsers;
           gp_OperatorTeams := operatorTeams; gp_OperatorUsers := operatorUsers;
           gp_CodeownerReviewers := codeowners; gp_RequiredReviewers := required |} in
      let withCodeowners operatorTeams operatorUsers required :=
        if rp_IncludeCodeowners reviewPolicy then
          match matchReviewGateCodeowners baseRef schemaPath with
          | Err e => Err e
          | Ok owners =>
              let owners := default [] owners in
              match expandOwners owners ∅ with
              | Err e => Err e
              | Ok reviewers => Ok (policy operatorTeams operatorUsers reviewers
                                     (appendRequiredReviewers required [OwnerNames ownerString owners]))
              end
          end
        else Ok (policy operatorTeams operatorUsers ∅ required) in
      if ReviewPolicyIncludesDatabaseOperators (Some config) then
        match Database config database with
        | None => Err (DatabaseNotConfigured database)
        | Some dbConfig =>
            withCodeowners (db_OperatorTeams dbConfig) (db_OperatorUsers dbConfig)
              (appendRequiredReviewers required [db_OperatorTeams dbConfig; db_OperatorUsers dbConfig])
        end
      else withCodeowners [] [] required
  end.

(** [ReviewGateResult] *)
Record ReviewGateResult := {
  rg_Approved : bool;
  rg_RequiredReviewers : list string;
  rg_PRAuthor : string;
}.

(** The loop over the valid approvers. *)
Fixpoint anyMatches (policy : reviewGatePolicy) (reviewers : list string) : result ActorErr bool :=
  match reviewers with
  | [] => Ok false
  | reviewer :: rest =>
      match Matches policy reviewer with
      | Err e => Err e
      | Ok (Some _) => Ok true
      | Ok None => anyMatches policy rest
      end
  end.

(** [Ok None]: the gate is off. *)
Definition checkReviewGate (range : list string -> list string) (service : option ServerConfig)
    (fetchPullRequest : res PullRequestInfo) (listReviews : res (list ReviewInfo))
    (repo database schemaPath : string) : result ActorErr (option ReviewGateResult) :=
  if negb (ReviewPolicyEnabled service) then Ok None else
  match fetchPullRequest with
  | Err e => Err (FetchFailed "fetch PR info" e)
  | Ok prInfo =>
      match listReviews with
      | Err e => Err (FetchFailed "fetch PR reviews" e)
      | Ok reviews =>
          match loadReviewGatePolicy service repo (pi_BaseRef prInfo) database schemaPath with
          | Err e => Err e
          | Ok policy =>
              if noneConfigured (gp_RequiredReviewers policy)
              then Err (NoConfiguredReviewers database)
              else
                let validApprovers :=
                  List.filter (fun reviewer => negb (EqualFold reviewer (pi_User prInfo)))
                    (GetApprovedReviewers range reviews) in
                match anyMatches policy validApprovers with
                | Err e => Err e
                | Ok approved => Ok (Some {| rg_Approved := approved;
                                             rg_RequiredReviewers := gp_RequiredReviewers policy;
                                             rg_PRAuthor := pi_User prInfo |})
                end
          end
      end
  end.

(** Whether the apply is blocked. *)
Definition enforceReviewGate (range : list string -> list string) (service : option ServerConfig)
    (fetchPullRequest : res PullRequestInfo) (listReviews : res (list ReviewInfo))
    (repo database schemaPath : string) : bool :=
  match checkReviewGate range service fetchPullRequest listReviews repo database schemaPath with
  | Err _ => true
  | Ok (Some gateResult) => negb (rg_Approved gateResult)
  | Ok None => false
  end.

End Codeowners.
End Actors.

(** ** Lemmas: the latest decisive review *)

Definition decisive (user : string) (r : ReviewInfo) : bool :=
  negb (rv_User r == "") && negb (EqualFold (rv_State r) ReviewCommented) &&
  (ToLower (rv_User r) == user).

(** The latest decisive review of a user, the later one of two at the same time. *)
Definition latestDecisive (user : string) (reviews : list ReviewInfo) : option ReviewInfo :=
  fold_left (fun acc r => match acc with
    | Some cur => if rv_SubmittedAt r <? rv_SubmittedAt cur then acc else Some r
    | None => Some r
    end) (List.filter (decisive user) reviews) None.

Lemma latestDecisive_snoc user reviews r :
  latestDecisive user (reviews ++ [r]) =
  if decisive user r then
    match latestDecisive user reviews with
    | Some cur => if rv_SubmittedAt r <? rv_SubmittedAt cur then Some cur else Some r
    | None => Some r
    end
  else latestDecisive user reviews.
Proof.
  unfold latestDecisive. rewrite List.filter_app. cbn. destruct (decisive user r); cbn.
  - rewrite fold_left_app. cbn. by destruct (fold_left _ _ _).
  - by rewrite app_nil_r.
Qed.

Lemma latestDecisive_latest user reviews r :
  latestDecisive user reviews = Some r ->
  r ∈ reviews /\ decisive user r = true /\
  forall r', r' ∈ reviews -> decisive user r' = true -> rv_SubmittedAt r' <= rv_SubmittedAt r.
Proof.
  revert r. induction reviews as [|x reviews IH] using rev_ind; intros r; [done|].
  rewrite latestDecisive_snoc. destruct (decisive user x) eqn:Ed.
  - destruct (latestDecisive user reviews) as [cur|] eqn:El.
    + destruct (IH cur eq_refl) as (Hin & Hd & Hmax). destruct (_ <? _) eqn:E; intros [= <-].
      * split; [set_solver|]. split; [done|]. intros r' [H|H]%elem_of_app Hr'; [auto|].
        apply list_elem_of_singleton in H as ->. lia.
      * split; [set_solver|]. split; [done|]. intros r' [H|H]%elem_of_app Hr'.
        -- specialize (Hmax r' H Hr'). lia.
        -- apply list_elem_of_singleton in H as ->. lia.
    + intros [= <-]. split; [set_solver|]. split; [done|].
      intros r' [H|H]%elem_of_app Hr'; [|by apply list_elem_of_singleton in H as ->].
      exfalso. clear -El H Hr'. induction reviews as [|y reviews IH'] using rev_ind; [set_solver|].
      rewrite latestDecisive_snoc in El. apply elem_of_app in H as [H|H%list_elem_of_singleton].
      * destruct (decisive user y); [by destruct (latestDecisive user reviews) as [c|]; [destruct (_ <? _)|]|auto].
      * subst. rewrite Hr' in El. by destruct (latestDecisive user reviews) as [c|]; [destruct (_ <? _)|].
  - intros H. destruct (IH r H) as (Hin & Hd & Hmax). split; [set_solver|]. split; [done|].
    intros r' [H'|H']%elem_of_app Hr'; [auto|]. apply list_elem_of_singleton in H' as ->. congruence.
Qed.

(** The map of the loop is the reference definition, user by user. *)
Lemma reviewLoop user reviews :
  fold_left reviewStep reviews ∅ !! user =
  match latestDecisive user reviews with
  | Some r => Some (rv_State r, rv_SubmittedAt r)
  | None => None
  end.
Proof.
  induction reviews as [|r reviews IH] using rev_ind; [done|].
  rewrite fold_left_app, latestDecisive_snoc. cbn. set (m := fold_left reviewStep reviews ∅) in *.
  unfold reviewStep, decisive. destruct (rv_User r == "") eqn:Eu; [done|].
  destruct (EqualFold (rv_State r) ReviewCommented) eqn:Ec; [done|]. cbn [negb andb].
  destruct (ToLower (rv_User r) == user) eqn:Ek; reflect_guards.
  - subst user. rewrite IH. destruct (latestDecisive _ reviews) as [cur|]; cbn.
    + destruct (_ <? _); [by rewrite IH|by rewrite lookup_insert_eq].
    + by rewrite lookup_insert_eq.
  - destruct (m !! ToLower (rv_User r)) as [cur|]; [destruct (_ <? _)|];
      rewrite ?lookup_insert_ne by done; done.
Qed.

Lemma elem_of_approved range reviews user :
  (forall l, range l ≡ₚ l) ->
  user ∈ GetApprovedReviewers range reviews <->
  exists r, latestDecisive user reviews = Some r /\ EqualFold (rv_State r) ReviewApproved = true.
Proof.
  intros Hr. unfold GetApprovedReviewers, approvedIn. rewrite Hr, list_elem_of_fmap.
  setoid_rewrite list_elem_of_In. setoid_rewrite filter_In. setoid_rewrite <- list_elem_of_In.
  split.
  - intros ([u info] & -> & Hin%elem_of_map_to_list & Ha). rewrite reviewLoop in Hin. cbn.
    destruct (latestDecisive u reviews) as [r|]; [|done]. injection Hin as <-. eauto.
  - intros (r & Hl & Ha). exists (user, (rv_State r, rv_SubmittedAt r)). split; [done|].
    split; [|done]. apply elem_of_map_to_list. by rewrite reviewLoop, Hl.
Qed.

(** ** Lemmas: principals *)

Section Principals.
Context (ListTeamMembers : string -> string -> res (list string)).

(** GitHub lists the actor, in any spelling, as a member of the team. *)
Definition inTeam (actor team : string) : Prop :=
  exists org slug members, ParseGitHubTeamPrincipal team = Some (org, slug) /\
    ListTeamMembers org slug = Ok members /\
    exists member, member ∈ members /\ EqualFold member actor = true.

(** The actor is named by a list of teams, by a list of users. *)
Definition viaSomeTeam (actor : string) (teams : list string) : Prop :=
  exists team, team ∈ teams /\ inTeam actor team.
Definition viaSomeUser (actor : string) (users : list string) : Prop :=
  exists user, user ∈ users /\ EqualFold user actor = true.

Lemma actorInAnyTeam_ok teams actor r :
  actorInAnyTeam ListTeamMembers teams actor = Ok r ->
  match r with Some team => team ∈ teams /\ inTeam actor team | None => ~ viaSomeTeam actor teams end.
Proof.
  induction teams as [|t teams IH]; cbn; [intros [= <-] (? & ? & _); set_solver|].
  destruct (ParseGitHubTeamPrincipal t) as [[org slug]|] eqn:Ep; [|done]. unfold IsTeamMember.
  destruct (ListTeamMembers org slug) as [ms|] eqn:El; [|done].
  destruct (existsb _ ms) eqn:Ee.
  - intros [= <-]. split; [set_solver|]. exists org, slug, ms. split; [done|]. split; [done|].
    apply existsb_exists in Ee as (m & Hm & E). exists m. by rewrite list_elem_of_In.
  - intros H. specialize (IH H). destruct r as [team|]; [set_solver|].
    intros (team & [->|Hin]%elem_of_cons & Ht); [|apply IH; by exists team].
    destruct Ht as (o & s & ms' & Ep' & El' & m & Hm & E). rewrite Ep in Ep'. injection Ep' as <- <-.
    rewrite El in El'. injection El' as <-.
    assert (existsb (fun member => EqualFold member actor) ms = true); [|congruence].
    apply existsb_exists. exists m. by rewrite <- list_elem_of_In.
Qed.

Lemma matchedUserPrincipal_spec users actor :
  match matchedUserPrincipal users actor with
  | Some user => user ∈ users /\ EqualFold user actor = true
  | None => ~ viaSomeUser actor users
  end.
Proof.
  unfold matchedUserPrincipal. destruct (List.find _ users) as [u|] eqn:E.
  - apply find_some in E as [? ?]. by rewrite list_elem_of_In.
  - intros (u & Hu & He). apply list_elem_of_In in Hu.
    pose proof (find_none _ _ E u Hu) as Hu'. cbn in Hu'. congruence.
Qed.

(** An answer that errs denies, and one that does not allows exactly when [M]. *)
Definition decides (a : answer) (M : Prop) : Prop :=
  (a.2 <> None -> ar_Allowed a.1 = false) /\ (a.2 = None -> (ar_Allowed a.1 = true <-> M)).

Lemma viaTeams_decides client teams actor reason k M :
  decides k M ->
  decides (viaTeams ListTeamMembers client teams actor reason k) (viaSomeTeam actor teams \/ M).
Proof.
  intros [He Hk]. unfold viaTeams. destruct teams as [|t teams].
  { split; [done|]. intros H. rewrite (Hk H). split; [by right|]. intros [(? & ? & _)|]; [set_solver|done]. }
  destruct (negb client); [done|]. destruct (actorInAnyTeam _ _ _) as [[team|]|] eqn:E; [|split..|done].
  - apply actorInAnyTeam_ok in E as [? ?]. split; [done|]. intros _. split; [|done].
    intros _. left. by exists team.
  - done.
  - intros H. rewrite (Hk H). apply actorInAnyTeam_ok in E. tauto.
Qed.

Lemma viaUsers_decides users actor reason k M :
  decides k M -> decides (viaUsers users actor reason k) (viaSomeUser actor users \/ M).
Proof.
  intros [He Hk]. unfold viaUsers. pose proof (matchedUserPrincipal_spec users actor) as Hs.
  destruct (matchedUserPrincipal users actor) as [u|]; split; [done| |done|].
  - intros _. split; [|done]. intros _. left. by exists u.
  - intros H. rewrite (Hk H). tauto.
Qed.

(** [Ok (Some _)] exactly when [M]. *)
Definition matches (a : result ActorErr (option string)) (M : Prop) : Prop :=
  match a with Ok (Some _) => M | Ok None => ~ M | Err _ => True end.

Lemma matchTeams_matches teams reviewer k M :
  matches k M ->
  matches (matchTeams ListTeamMembers teams reviewer k) (viaSomeTeam reviewer teams \/ M).
Proof.
  intros Hk. unfold matchTeams. destruct teams as [|t teams].
  { destruct k as [[|]|]; cbn in *; [by right| |done]. intros [(? & ? & _)|]; [set_solver|done]. }
  destruct (actorInAnyTeam _ _ _) as [[team|]|] eqn:E; [left|..|done].
  - apply actorInAnyTeam_ok in E as [? ?]. by exists team.
  - apply actorInAnyTeam_ok in E. destruct k as [[|]|]; cbn in *; tauto.
Qed.

Lemma matchUsers_matches users reviewer k M :
  matches k M -> matches (matchUsers users reviewer k) (viaSomeUser reviewer users \/ M).
Proof.
  intros Hk. unfold matchUsers. pose proof (matchedUserPrincipal_spec users reviewer) as Hs.
  destruct (matchedUserPrincipal users reviewer) as [u|]; [left; by exists u|].
  destruct k as [[|]|]; cbn in *; tauto.
Qed.

(** Whom the review policy names. *)
Definition policyNames (p : reviewGatePolicy) (reviewer : string) : Prop :=
  viaSomeTeam reviewer (gp_AdminTeams p) \/ viaSomeUser reviewer (gp_AdminUsers p) \/
  viaSomeTeam reviewer (gp_RepoAdminTeams p) \/ viaSomeUser reviewer (gp_RepoAdminUsers p) \/
  viaSomeTeam reviewer (gp_OperatorTeams p) \/ viaSomeUser reviewer (gp_OperatorUsers p) \/
  ToLower reviewer ∈ gp_CodeownerReviewers p.

Lemma Matches_matches p reviewer : matches (Matches ListTeamMembers p reviewer) (policyNames p reviewer).
Proof.
  apply matchTeams_matches, matchUsers_matches, matchTeams_matches, matchUsers_matches,
    matchTeams_matches, matchUsers_matches. by case_bool_decide.
Qed.

Lemma anyMatches_ok p reviewers approved :
  anyMatches ListTeamMembers p reviewers = Ok approved ->
  approved = true <-> exists reviewer, reviewer ∈ reviewers /\ policyNames p reviewer.
Proof.
  induction reviewers as [|r reviewers IH]; cbn.
  { intros [= <-]. split; [done|]. intros (? & ? & _). set_solver. }
  pose proof (Matches_matches p r) as Hm. destruct (Matches ListTeamMembers p r) as [[q|]|]; [| |done].
  - intros [= <-]. split; [|done]. intros _. exists r. set_solver.
  - intros H. rewrite (IH H). split; [set_solver|]. intros (x & [->|Hx]%elem_of_cons & Hp); [done|eauto].
Qed.

(** The admins of the server and of the repository, and the operators of the
    database: whom actor authorization accepts. *)
Definition authorizedActor (config : ServerConfig) (repo : string) (db : DatabaseConfig)
    (actor : string) : Prop :=
  viaSomeTeam actor (pa_AdminTeams (c_PRCommandAuthorization config)) \/
  viaSomeUser actor (pa_AdminUsers (c_PRCommandAuthorization config)) \/
  viaSomeTeam actor (RepoAdmins config repo).1 \/ viaSomeUser actor (RepoAdmins config repo).2 \/
  viaSomeTeam actor (db_OperatorTeams db) \/ viaSomeUser actor (db_OperatorUsers db).

Lemma length_zero_none (P : list string -> Prop) : forall l, length l = 0%nat -> P [] -> P l.
Proof. by intros []. Qed.

Lemma nobody_configured config repo db actor :
  (length (pa_AdminTeams (c_PRCommandAuthorization config)) + length (RepoAdmins config repo).1 +
   length (db_OperatorTeams db) + length (pa_AdminUsers (c_PRCommandAuthorization config)) +
   length (RepoAdmins config repo).2 + length (db_OperatorUsers db))%nat = 0%nat ->
  ~ authorizedActor config repo db actor.
Proof.
  intros H. assert (Ht : forall l, length l = 0%nat -> ~ viaSomeTeam actor l).
  { intros l Hl. apply (length_zero_none (fun l => ~ viaSomeTeam actor l) l Hl). intros (? & ? & _). set_solver. }
  assert (Hu : forall l, length l = 0%nat -> ~ viaSomeUser actor l).
  { intros l Hl. apply (length_zero_none (fun l => ~ viaSomeUser actor l) l Hl). intros (? & ? & _). set_solver. }
  unfold authorizedActor. intros [|[|[|[|[|]]]]]; [eapply Ht|eapply Hu|eapply Ht|eapply Hu|eapply Ht|eapply Hu];
    eauto; lia.
Qed.

Lemma authorize_decides config client actor repo database db :
  TrimSpace actor <> "" -> Database config database = Some db ->
  decides (authorizeConfiguredDatabaseActor ListTeamMembers (Some config) client actor repo database)
    (authorizedActor config repo db actor).
Proof.
  intros Ha Hd. unfold authorizeConfiguredDatabaseActor.
  destruct (TrimSpace actor == "") eqn:E; reflect_guards; [done|]. rewrite Hd.
  pose proof (nobody_configured config repo db actor) as Hn. unfold authorizedActor in *.
  destruct (RepoAdmins config repo) as [rt ru]. cbn [fst snd] in *.
  destruct (_ =? 0)%nat eqn:Ec.
  - apply Nat.eqb_eq in Ec. split; [done|]. intros _. cbn. split; [done|]. intros H. exfalso. apply Hn, H. lia.
  - assert (Hlast : decides (denied ActorAuthReasonNotAuthorized, None) False) by (split; done).
    eapply viaUsers_decides, viaTeams_decides, viaUsers_decides, viaTeams_decides, viaUsers_decides,
      viaTeams_decides in Hlast. 
    destruct Hlast as [H1 H2]. split; [exact H1|]. intros H. rewrite (H2 H). tauto.
Qed.
End Principals.

(** ** Properties *)

(** Actor authorization, exactly.  With authorization on, a command whose checks
    could be completed runs if and only if its author is named and is, in any
    spelling, an admin of the server or of the repository or an operator of the very
    database; a check that could not be completed blocks the command. *)
Theorem actor_authorization_exact members config client actor repo database
    (Hon : PRCommandAuthorizationEnabled (Some config) = true) :
  let a := authorizePRCommandActor members (Some config) client actor repo database in
  let blocked := enforcePRCommandActorAuthorization members (Some config) client repo actor database in
  (a.2 <> None -> blocked = Some AuthorizationUnavailable) /\
  (a.2 = None -> (blocked = None <->
     TrimSpace actor <> "" /\
     exists db, Database config database = Some db /\ authorizedActor members config repo db actor)).
Proof.
  cbn zeta. unfold enforcePRCommandActorAuthorization. set (a := authorizePRCommandActor _ _ _ _ _ _).
  assert (Ha : decides a (TrimSpace actor <> "" /\
     exists db, Database config database = Some db /\ authorizedActor members config repo db actor)).
  { unfold a, authorizePRCommandActor. rewrite Hon. cbn [negb].
    destruct (TrimSpace actor == "") eqn:E; reflect_guards; [split; [done|]; cbn; intuition congruence|].
    destruct (Database config database) as [db|] eqn:Ed.
    - destruct (authorize_decides members config client actor repo database db E Ed) as [H1 H2].
      split; [exact H1|]. intros H. rewrite (H2 H). split; [eauto|]. intros (_ & db' & [= <-] & Hd). done.
    - unfold authorizeConfiguredDatabaseActor. destruct (TrimSpace actor == "") eqn:E2; [by reflect_guards|].
      rewrite Ed. split; [done|]. cbn. intros _. split; [done|]. by intros (_ & db & ? & _). }
  clearbody a. destruct a as [result [e|]], Ha as [_ Hk]; cbn in *; (split; [done|]); [done|].
  intros _. rewrite <- (Hk eq_refl). destruct (ar_Allowed result); cbn; [done|].
  destruct (_ == _); split; done.
Qed.

(** Alice operates the payments database. *)
Lemma actor_authorization_exact_witness :
  let members org slug : res (list string) := Ok (if slug == "admins" then ["root"] else []) in
  enforcePRCommandActorAuthorization members (Some sampleConfig) true "org/app" "Alice" "payments" = None /\
  enforcePRCommandActorAuthorization members (Some sampleConfig) true "org/app" "mallory" "payments" <> None.
Proof.
  cbn zeta. set (members := fun org slug : string => _).
  split.
  - apply (actor_authorization_exact members sampleConfig true "Alice" "org/app" "payments"); [reflexivity..|].
    split; [vm_compute; congruence|]. exists sampleDatabase. split; [reflexivity|].
    do 5 right. exists "alice". split; [apply list_elem_of_here|reflexivity].
  - vm_compute. congruence.
Defined.

(** C34: the review gate, exactly.  Take any order in which Go ranges over the approvers,
    with the policy on.  A gate that could be evaluated lets the apply proceed if and
    only if some user other than the author of the pull request (in any spelling),
    whose latest decisive review approves, is named by the policy; every failure to
    evaluate it blocks.  The order matters only for whether an unreadable team is met
    before a match: then the same reviews pass in one order and block in another
    ([review_gate_order]). *)
Theorem review_gate_exact {ruleset : Type} members (ParseFile : string -> res ruleset) Rules Match
    ownerString FetchFileContent range service fetchPR listReviews repo database schemaPath
    (Hrange : forall l, range l ≡ₚ l)
    (Hon : ReviewPolicyEnabled service = true) :
  let gate := checkReviewGate members ParseFile Rules Match ownerString FetchFileContent range service
                fetchPR listReviews repo database schemaPath in
  let blocked := enforceReviewGate members ParseFile Rules Match ownerString FetchFileContent range service
                   fetchPR listReviews repo database schemaPath in
  match gate with
  | Err _ => blocked = true
  | Ok _ => exists prInfo reviews policy, fetchPR = Ok prInfo /\ listReviews = Ok reviews /\
      loadReviewGatePolicy members ParseFile Rules Match ownerString FetchFileContent service repo
        (pi_BaseRef prInfo) database schemaPath = Ok policy /\
      (blocked = false <-> exists user review,
         latestDecisive user reviews = Some review /\ EqualFold (rv_State review) ReviewApproved = true /\
         EqualFold user (pi_User prInfo) = false /\ policyNames members policy user)
  end.
Proof.
  cbn zeta. unfold enforceReviewGate, checkReviewGate. rewrite Hon. cbn [negb].
  destruct fetchPR as [prInfo|]; [|done]. destruct listReviews as [reviews|]; [|done].
  destruct (loadReviewGatePolicy _ _ _ _ _ _ _ _ _ _ _) as [policy|] eqn:Ep; [|done].
  destruct (noneConfigured _); [done|].
  set (valid := List.filter _ _). destruct (anyMatches members policy valid) as [approved|] eqn:Em; [|done].
  exists prInfo, reviews, policy. do 3 (split; [done|]). rewrite negb_false_iff. cbn.
  rewrite (anyMatches_ok members policy valid approved Em). unfold valid.
  setoid_rewrite list_elem_of_In. setoid_rewrite filter_In. setoid_rewrite <- list_elem_of_In.
  setoid_rewrite (elem_of_approved range reviews _ Hrange). setoid_rewrite negb_true_iff.
  split; [intros (u & ((r & ? & ?) & ?) & ?)|intros (u & r & ? & ? & ? & ?)]; eauto 10.
Qed.

(** Two admin teams, one of which cannot be read; Alice is in the other. *)
Definition awayConfig : ServerConfig :=
  {| c_Storage := c_Storage sampleConfig; c_Auth := c_Auth sampleConfig; c_GitHub := c_GitHub sampleConfig;
     c_Apps := c_Apps sampleConfig; c_TernDeployments := c_TernDeployments sampleConfig;
     c_Databases := c_Databases sampleConfig; c_TargetResolver := c_TargetResolver sampleConfig;
     c_Repos := c_Repos sampleConfig; c_PRCommandAuthorization := c_PRCommandAuthorization sampleConfig;
     c_ReviewPolicy := {| rp_Enabled := true; rp_AdminTeams := ["org/admins"; "org/away"]; rp_AdminUsers := []; rp_IncludeDatabaseOperators := None;
                          rp_IncludeCodeowners := false |};
     c_SupportChannel := c_SupportChannel sampleConfig;
     c_AllowedEnvironments := c_AllowedEnvironments sampleConfig; c_Tenant := c_Tenant sampleConfig;
     c_EnvironmentOrder := c_EnvironmentOrder sampleConfig; c_MetricsPort := c_MetricsPort sampleConfig;
     c_OperatorClaimOperations := c_OperatorClaimOperations sampleConfig;
     c_RequirePassingChecks := c_RequirePassingChecks sampleConfig;
     c_RequiredChecks := c_RequiredChecks sampleConfig; c_RespondToUnscoped := c_RespondToUnscoped sampleConfig;
     c_PendingDrops := c_PendingDrops sampleConfig |}.

(** Alice and Carol approve; the gate passes if Alice is looked at first. *)
Lemma review_gate_order :
  let members org slug := if slug == "admins" then Ok ["alice"] else Err (Errorf "unreadable") in
  let reviews := [{| rv_User := "alice"; rv_State := "APPROVED"; rv_SubmittedAt := 1 |};
                  {| rv_User := "carol"; rv_State := "APPROVED"; rv_SubmittedAt := 2 |}] in
  let blocked range := enforceReviewGate members (fun _ => Ok tt) (fun _ => []) (fun _ _ => Ok None) ow_Value
    (fun _ _ => Ok None) range (Some awayConfig) (Ok {| pi_BaseRef := "main"; pi_User := "bob" |}) (Ok reviews)
    "org/app" "payments" "schema/payments" in
  blocked (fun l => l) <> blocked (fun l => List.rev l).
Proof. vm_compute. discriminate. Qed.

(** Alice, who operates the database, approved Bob's change after asking for changes. *)
Lemma review_gate_exact_witness :
  let reviews := [{| rv_User := "Alice"; rv_State := "CHANGES_REQUESTED"; rv_SubmittedAt := 1 |};
                  {| rv_User := "bob"; rv_State := "APPROVED"; rv_SubmittedAt := 2 |};
                  {| rv_User := "alice"; rv_State := "APPROVED"; rv_SubmittedAt := 3 |}] in
  enforceReviewGate (fun _ _ => Ok []) (fun _ => Ok tt) (fun _ => []) (fun _ _ => Ok None) ow_Value
    (fun _ _ => Ok None) (fun l => l) (Some sampleConfig)
    (Ok {| pi_BaseRef := "main"; pi_User := "bob" |}) (Ok reviews) "org/app" "payments" "schema/payments"
    = false.
Proof.
  cbn zeta. set (reviews := [_; _; _]). set (pr := {| pi_BaseRef := _; pi_User := _ |}).
  pose proof (review_gate_exact (fun _ _ => Ok []) (fun _ => Ok tt) (fun _ => []) (fun _ _ => Ok None)
    ow_Value (fun _ _ => Ok None) (fun l => l) (Some sampleConfig) (Ok pr) (Ok reviews)
    "org/app" "payments" "schema/payments" (fun l => Permutation_refl l) eq_refl) as H.
  cbv zeta in H.
  match type of H with match ?g with _ => _ end =>
    let v := eval vm_compute in g in change g with v in H end.
  destruct H as (prInfo & rs & policy & Hp & Hr & Hl & H). injection Hp as <-. injection Hr as <-.
  apply H. exists "alice", {| rv_User := "alice"; rv_State := "APPROVED"; rv_SubmittedAt := 3 |}.
  split; [reflexivity|]. split; [reflexivity|]. split; [reflexivity|].
  vm_compute in Hl. injection Hl as <-. do 5 right. left. exists "alice".
  split; [apply list_elem_of_here|reflexivity].
Defined.
