(* ===== verification/Drift.v ===== *)
(** * Reviewed changes against live schemas (pkg/tern, pkg/api)

    At review time the change sets of a database's deployments are compared with the
    primary's (change_set_compare.go, plan_rollup.go, plan_deployment_diffs.go); when
    a deployment that did not plan is asked to apply, the dispatched changes are
    compared with what it would plan itself (local_plan_drift.go,
    namespacesFromApplyRequest of local_client.go).  Both count changes by a key with
    canonicalized DDL and fail closed.  Spirit's statement package and the TiDB
    parser are parameters. *)

From S2P Require Import Prelude GoStrings State Sql Convert Config.

Local Open Scope string_scope.
Local Open Scope Z_scope.

(** ** Data *)

(** [ternv1.TableChange], [SchemaChange] and [ShardPlan]; a nil entry is [None]. *)
Record TableChange := {
  tc_Namespace : string;
  tc_TableName : string;
  tc_Ddl : string;
  tc_ChangeType : ChangeType;
  tc_IsUnsafe : bool;
  tc_UnsafeReason : string;
}.

Record SchemaChange := {
  sc_Namespace : string;
  sc_Metadata : gmap string string;
  sc_TableChanges : list (option TableChange);
}.

Record ShardPlan := {
  sp_Shard : string;
  sp_Namespace : string;
  sp_Changes : list (option TableChange);
}.

(** [ChangeSet] *)
Record ChangeSet := {
  cs_Changes : list (option SchemaChange);
  cs_Shards : list (option ShardPlan);
}.

(** [driftChangeKey]: namespace, shard, table, operation and canonical DDL. *)
Definition driftChangeKey : Type := string * string * string * string * string.
Abbreviation driftChangeMultiset := (gmap driftChangeKey nat).

(** [ms[key]++] *)
Definition bump (ms : driftChangeMultiset) (key : driftChangeKey) : driftChangeMultiset :=
  <[key := S (default 0%nat (ms !! key))]> ms.

(** [ms[key]], which is zero for an absent key *)
Definition count (ms : driftChangeMultiset) (key : driftChangeKey) : nat := default 0%nat (ms !! key).

Inductive DriftErr :=
| NilEntry
| EmptyShardName (namespace : string)
| EmptyTableName
| VSchemaAsTableChange (table : string)
| Unclassifiable (table : string)
| EmptyDDL
| UnparseableDDL
| NotOneStatement (n : nat)
| NotDDL
| NoShardCarries (namespace : string)
| NoArtifact (namespace : string)
| MalformedDispatch (what : string)
| PlanFailed (e : StoreErr)
| Drifted (missing unexpected : list string)
| ReplanDrifted (location reviewed replanned : string)
| VSchemaDrifted (missing unexpected : list string)
| RollupContract (what : string)
| DiffFailed (what : string)
| UnusableBaseline (cause : DriftErr).

Section Statements.
Context {ST : Type} `{!StatementTypes ST}.
(** [statement.Classify], [StatementType.IsDDL], [statement.New] of Spirit, and the
    text TiDB restores for a CREATE TABLE or DROP TABLE. *)
Context (Classify : string -> option (list ST)) (IsDDL : ST -> bool).
Record Statement := { stm_Schema : string; stm_Table : string; stm_Alter : string }.
Context (New : string -> option (list Statement)) (Restore : string -> option string).

Definition restoreCanonical (ddl : string) : string := default ddl (Restore ddl).

Definition Canonicalize (ddl : string) : string :=
  match New ddl with
  | None | Some [] => ddl
  | Some (stmt :: _) =>
      if stm_Alter stmt != "" then
        if stm_Schema stmt != ""
        then "ALTER TABLE `" ++ stm_Schema stmt ++ "`.`" ++ stm_Table stmt ++ "` " ++ stm_Alter stmt
        else "ALTER TABLE `" ++ stm_Table stmt ++ "` " ++ stm_Alter stmt
      else restoreCanonical ddl
  end.

(** [ddl.ClassifyStatement] and [ClassifyStatementOp] *)
Definition ClassifyStatement (stmt : string) : option ST :=
  match Classify stmt with Some [t] => Some t | _ => None end.

Definition ClassifyStatementOp (stmt : string) : option string :=
  match ClassifyStatement stmt with Some t => Some (StatementTypeToOp t) | None => None end.

Definition canonicalDDLForDrift (raw : string) : result DriftErr string :=
  let raw := TrimSpace raw in
  if raw == "" then Err EmptyDDL else
  match Classify raw with
  | None => Err UnparseableDDL
  | Some [t] => if negb (IsDDL t) then Err NotDDL else Ok (Canonicalize raw)
  | Some results => Err (NotOneStatement (length results))
  end.

Definition materializedTableChangeOperation (ch : TableChange) : result DriftErr string :=
  let op := protoChangeTypeToDDLAction (ST := ST) (tc_ChangeType ch) in
  if op != "unknown" then Ok op
  else if TrimSpace (tc_Ddl ch) == "" then Err (Unclassifiable (tc_TableName ch))
  else match ClassifyStatementOp (tc_Ddl ch) with
       | None => Err (Unclassifiable (tc_TableName ch))
       | Some op => Ok op
       end.

Definition isVSchema (ch : TableChange) : bool :=
  match tc_ChangeType ch with CHANGE_TYPE_VSCHEMA => true | _ => false end.

Definition driftKeyForTableChange (namespace shard : string) (tc : option TableChange)
    : result DriftErr driftChangeKey :=
  match tc with
  | None => Err NilEntry
  | Some tc =>
      if TrimSpace (tc_TableName tc) == "" then Err EmptyTableName
      else if isVSchema tc then Err (VSchemaAsTableChange (tc_TableName tc))
      else match materializedTableChangeOperation tc with
           | Err e => Err e
           | Ok op => match canonicalDDLForDrift (tc_Ddl tc) with
                      | Err e => Err e
                      | Ok canon => Ok (namespace, shard, tc_TableName tc, op, canon)
                      end
           end
  end.

(** ** The multiset of a change set *)

Fixpoint countChanges (namespace shard : string) (changes : list (option TableChange))
    (ms : driftChangeMultiset) : result DriftErr driftChangeMultiset :=
  match changes with
  | [] => Ok ms
  | tc :: rest =>
      match driftKeyForTableChange namespace shard tc with
      | Err e => Err e
      | Ok key => countChanges namespace shard rest (bump ms key)
      end
  end.

(** The loop over the shard rows: the multiset, the namespaces with a shard row, and
    those with a shard row that carries changes. *)
Fixpoint countShards (shards : list (option ShardPlan))
    (ms : driftChangeMultiset) (nsInShards nsShardChanges : gset string)
    : result DriftErr (driftChangeMultiset * gset string * gset string) :=
  match shards with
  | [] => Ok (ms, nsInShards, nsShardChanges)
  | None :: _ => Err NilEntry
  | Some sp :: rest =>
      let shard := TrimSpace (sp_Shard sp) in
      if shard == "" then Err (EmptyShardName (sp_Namespace sp)) else
      match countChanges (sp_Namespace sp) shard (sp_Changes sp) ms with
      | Err e => Err e
      | Ok ms =>
          countShards rest ms ({[sp_Namespace sp]} ∪ nsInShards)
            (match sp_Changes sp with
             | [] => nsShardChanges
             | _ => {[sp_Namespace sp]} ∪ nsShardChanges
             end)
      end
  end.

(** The inner loop over the collapsed table changes of one namespace. *)
Fixpoint countCollapsed (ns : string) (carried : bool) (changes : list (option TableChange))
    (ms : driftChangeMultiset) (hasTableChanges : bool)
    : result DriftErr (driftChangeMultiset * bool) :=
  match changes with
  | [] => Ok (ms, hasTableChanges)
  | None :: _ => Err NilEntry
  | Some tc :: rest =>
      if isVSchema tc then Err (VSchemaAsTableChange (tc_TableName tc))
      else if carried then countCollapsed ns carried rest ms true
      else match driftKeyForTableChange ns "" (Some tc) with
           | Err e => Err e
           | Ok key => countCollapsed ns carried rest (bump ms key) true
           end
  end.

Definition vschemaChanged (sc : SchemaChange) : bool :=
  default "" (sc_Metadata sc !! "vschema_changed") == "true".

Fixpoint countSchemaChanges (nsInShards nsShardChanges : gset string)
    (changes : list (option SchemaChange)) (ms : driftChangeMultiset) (vschema : gset string)
    : result DriftErr (driftChangeMultiset * gset string) :=
  match changes with
  | [] => Ok (ms, vschema)
  | None :: _ => Err NilEntry
  | Some sc :: rest =>
      let ns := sc_Namespace sc in
      let vschema := if vschemaChanged sc then {[ns]} ∪ vschema else vschema in
      let carried := bool_decide (ns ∈ nsShardChanges) in
      match countCollapsed ns carried (sc_TableChanges sc) ms false with
      | Err e => Err e
      | Ok (ms, hasTableChanges) =>
          if hasTableChanges && bool_decide (ns ∈ nsInShards) && negb carried
          then Err (NoShardCarries ns)
          else countSchemaChanges nsInShards nsShardChanges rest ms vschema
      end
  end.

Definition changeSetMultiset (cs : ChangeSet)
    : result DriftErr (driftChangeMultiset * gset string) :=
  match countShards (cs_Shards cs) ∅ ∅ ∅ with
  | Err e => Err e
  | Ok (ms, nsInShards, nsShardChanges) =>
      countSchemaChanges nsInShards nsShardChanges (cs_Changes cs) ms ∅
  end.

(** ** Comparison *)

(** [sortDiffItems]: lexicographic on the fields. *)
Definition keyLess (a b : driftChangeKey) : bool :=
  let '(an, ash, at_, ao, ad) := a in
  let '(bn, bs, bt, bo, bd) := b in
  if an != bn then String.ltb an bn
  else if ash != bs then String.ltb ash bs
  else if at_ != bt then String.ltb at_ bt
  else if ao != bo then String.ltb ao bo
  else String.ltb ad bd.

Definition keyLe (a b : driftChangeKey) : Prop := keyLess b a = false.
#[global] Instance keyLe_dec : RelDecision keyLe.
Proof. intros a b. unfold keyLe. solve_decision. Defined.

Definition sortDiffItems (items : list driftChangeKey) : list driftChangeKey := merge_sort keyLe items.

(** The keys of which [b] has fewer than [a]. *)
Definition fewerIn (a b : driftChangeMultiset) : list driftChangeKey :=
  map fst (List.filter (fun '(key, want) => (count b key <? want)%nat) (map_to_list a)).

Definition notIn (a b : gset string) : list string :=
  List.filter (fun ns => negb (bool_decide (ns ∈ b))) (elements a).

(** [ChangeSetDiff]; an item is the key it is made from. *)
Record ChangeSetDiff := {
  df_MissingFromCandidate : list driftChangeKey;
  df_UnexpectedInCandidate : list driftChangeKey;
  df_MissingVSchema : list string;
  df_UnexpectedVSchema : list string;
}.

Definition noDiff := {| df_MissingFromCandidate := []; df_UnexpectedInCandidate := [];
                        df_MissingVSchema := []; df_UnexpectedVSchema := [] |}.

Definition Empty (d : ChangeSetDiff) : bool :=
  match df_MissingFromCandidate d, df_UnexpectedInCandidate d,
        df_MissingVSchema d, df_UnexpectedVSchema d with
  | [], [], [], [] => true
  | _, _, _, _ => false
  end.

Definition CompareChangeSets (baseline candidate : ChangeSet) : result DriftErr ChangeSetDiff :=
  match changeSetMultiset baseline with
  | Err e => Err e
  | Ok (baseMS, baseVS) =>
      match changeSetMultiset candidate with
      | Err e => Err e
      | Ok (candMS, candVS) =>
          Ok {| df_MissingFromCandidate := sortDiffItems (fewerIn baseMS candMS);
                df_UnexpectedInCandidate := sortDiffItems (fewerIn candMS baseMS);
                df_MissingVSchema := Sort (notIn baseVS candVS);
                df_UnexpectedVSchema := Sort (notIn candVS baseVS) |}
      end
  end.

(** ** The review-time rollup *)

(** [DeploymentPlanDiff]: the fields the rollup reads. *)
Record DeploymentPlanDiff := {
  dd_DatabaseType : string;
  dd_Deployment : string;
  dd_Target : string;
  dd_Changes : list (option SchemaChange);
  dd_Shards : list (option ShardPlan);
  dd_Err : option DriftErr;
}.

Inductive DeploymentClassification := DeploymentMatch | DeploymentDiverged | DeploymentErrored.

Record DeploymentRollupEntry := {
  re_DatabaseType : string;
  re_Deployment : string;
  re_Target : string;
  re_Class : DeploymentClassification;
  re_Diff : ChangeSetDiff;
  re_Err : option DriftErr;
}.

Record PlanRollup := { ro_Entries : list DeploymentRollupEntry; ro_Clean : bool }.

Definition changeSetOf (d : DeploymentPlanDiff) : ChangeSet :=
  {| cs_Changes := dd_Changes d; cs_Shards := dd_Shards d |}.

(** The body of the loop: the entry, and whether it leaves the rollup clean. *)
Definition rollupEntry (baseline : ChangeSet) (baselineCause : option DriftErr) (primary : bool)
    (d : DeploymentPlanDiff) : DeploymentRollupEntry * bool :=
  let entry class diff err :=
    {| re_DatabaseType := dd_DatabaseType d; re_Deployment := dd_Deployment d; re_Target := dd_Target d;
       re_Class := class; re_Diff := diff; re_Err := err |} in
  match dd_Err d, primary, baselineCause with
  | Some e, _, _ => (entry DeploymentErrored noDiff (Some e), false)
  | None, true, Some cause => (entry DeploymentErrored noDiff (Some (UnusableBaseline cause)), false)
  | None, true, None => (entry DeploymentMatch noDiff None, true)
  | None, false, Some cause => (entry DeploymentErrored noDiff (Some (UnusableBaseline cause)), false)
  | None, false, None =>
      match CompareChangeSets baseline (changeSetOf d) with
      | Err e => (entry DeploymentErrored noDiff (Some e), false)
      | Ok diff => if negb (Empty diff) then (entry DeploymentDiverged diff None, false)
                   else (entry DeploymentMatch noDiff None, true)
      end
  end.

Definition RollupDeploymentDiffs (diffs : list DeploymentPlanDiff) (expectedDeployments : list string)
    : result DriftErr PlanRollup :=
  match expectedDeployments, diffs with
  | [], _ => Err (RollupContract "no expected deployments")
  | _, [] => Err (RollupContract "count")
  | _, primary :: others =>
      if negb (length diffs =? length expectedDeployments)%nat then Err (RollupContract "count")
      else if negb (bool_decide (map dd_Deployment diffs = expectedDeployments))
      then Err (RollupContract "order")
      else
        let baseline := changeSetOf primary in
        let baselineCause :=
          match dd_Err primary with
          | Some e => Some e
          | None => match CompareChangeSets baseline baseline with Err e => Some e | Ok _ => None end
          end in
        let results := rollupEntry baseline baselineCause true primary ::
                       map (rollupEntry baseline baselineCause false) others in
        Ok {| ro_Entries := map fst results; ro_Clean := forallb snd results |}
  end.

(** The PlanDiff and Plan responses: changes, shards, reported errors. *)
Record PlanResponse := {
  pr_Changes : list (option SchemaChange);
  pr_Shards : list (option ShardPlan);
  pr_Errors : list string;
}.

Definition planDiffOf (target : ExecutionTarget) (response : result DriftErr PlanResponse)
    : DeploymentPlanDiff :=
  let diff changes shards err :=
    {| dd_DatabaseType := xt_DatabaseType target; dd_Deployment := xt_Deployment target;
       dd_Target := xt_Target target; dd_Changes := changes; dd_Shards := shards; dd_Err := err |} in
  match response with
  | Err e => diff [] [] (Some e)
  | Ok resp => diff (pr_Changes resp) (pr_Shards resp)
                 (match pr_Errors resp with
                  | [] => None
                  | _ => Some (DiffFailed "plan reported errors")
                  end)
  end.

(** [planDeploymentDiff] is the answer of one deployment's RPC. *)
Definition PlanDeploymentDiffs (planDeploymentDiff : ExecutionTarget -> result DriftErr PlanResponse)
    (primaryPlan : option PlanResponse) (primaryDeployment : string) (targets : list ExecutionTarget)
    : result DriftErr (list DeploymentPlanDiff) :=
  match targets with
  | [] => Err (RollupContract "no deployment targets")
  | primary :: others =>
      match primaryPlan with
      | None => Ok (map (fun t => planDiffOf t (planDeploymentDiff t)) targets)
      | Some plan =>
          if primaryDeployment == "" then Err (RollupContract "no origin deployment")
          else if xt_Deployment primary != primaryDeployment
          then Err (RollupContract "primary invariant violated")
          else Ok (planDiffOf primary (Ok plan) ::
                   map (fun t => planDiffOf t (planDeploymentDiff t)) others)
      end
  end.

(** ** The drift guard of an apply *)

(** [engine.TableChange], [engine.SchemaChange] and [engine.PlanResult] *)
Record engineTableChange := { et_Table : string; et_DDL : string; et_Operation : ST }.
Record engineSchemaChange := {
  es_Namespace : string;
  es_Shard : string;
  es_Metadata : gmap string string;
  es_TableChanges : list engineTableChange;
}.

(** [ternv1.ApplyRequest]: the fields materialization reads. *)
Record ApplyRequest := {
  aq_DdlChanges : list (option TableChange);
  aq_TargetShards : list string;
  aq_Target : string;
  aq_Environment : string;
}.

Definition dispatchTargetShard (targetShards : list string) : result DriftErr string :=
  match targetShards with
  | [s] => let shard := TrimSpace s in
           if shard == "" then Err (MalformedDispatch "empty target shard") else Ok shard
  | _ => Err (MalformedDispatch "exactly one shard")
  end.

(** [c.config]: the database and its type. *)
Context (c_database c_type : string).

Definition planNamespace (ns : string) : string :=
  if (ns == "") || ((c_type == "mysql") && (ns == "default")) then c_database else ns.

Fixpoint countPlanned (ns shard : string) (changes : list engineTableChange) (ms : driftChangeMultiset)
    : result DriftErr driftChangeMultiset :=
  match changes with
  | [] => Ok ms
  | tc :: rest =>
      match canonicalDDLForDrift (et_DDL tc) with
      | Err e => Err e
      | Ok canon =>
          countPlanned ns shard rest
            (bump ms (ns, shard, et_Table tc, StatementTypeToOp (et_Operation tc), canon))
      end
  end.

Definition inScope (shardScoped : bool) (targetShard : string) (sc : engineSchemaChange) : bool :=
  if shardScoped then es_Shard sc == targetShard else es_Shard sc == "".

Fixpoint driftMultisetFromPlanResult (shardScoped : bool) (targetShard : string)
    (changes : list engineSchemaChange) (ms : driftChangeMultiset)
    : result DriftErr driftChangeMultiset :=
  match changes with
  | [] => Ok ms
  | sc :: rest =>
      if negb (inScope shardScoped targetShard sc)
      then driftMultisetFromPlanResult shardScoped targetShard rest ms
      else match countPlanned (planNamespace (es_Namespace sc)) (es_Shard sc) (es_TableChanges sc) ms with
           | Err e => Err e
           | Ok ms => driftMultisetFromPlanResult shardScoped targetShard rest ms
           end
  end.

Fixpoint driftMultisetFromApplyRequest (targetShard : string) (changes : list (option TableChange))
    (ms : driftChangeMultiset) : result DriftErr driftChangeMultiset :=
  match changes with
  | [] => Ok ms
  | None :: _ => Err NilEntry
  | Some ch :: rest =>
      if isVSchema ch then driftMultisetFromApplyRequest targetShard rest ms
      else match materializedTableChangeOperation ch with
           | Err e => Err e
           | Ok op =>
               match canonicalDDLForDrift (tc_Ddl ch) with
               | Err e => Err e
               | Ok canon =>
                   driftMultisetFromApplyRequest targetShard rest
                     (bump ms (planNamespace (tc_Namespace ch), targetShard, tc_TableName ch, op, canon))
               end
           end
  end.

Definition formatDriftLocation (k : driftChangeKey) : string :=
  let '(namespace, shard, table, operation, _) := k in
  (if shard != "" then namespace ++ "[" ++ shard ++ "]." ++ table else namespace ++ "." ++ table)
  ++ "/" ++ operation.

Definition formatDriftKey (k : driftChangeKey) : string :=
  formatDriftLocation k ++ " (" ++ k.2 ++ ")".

Definition compareDriftMultisets (recomputed dispatched : driftChangeMultiset) : option DriftErr :=
  match fewerIn dispatched recomputed, fewerIn recomputed dispatched with
  | [], [] => None
  | missing, unexpected =>
      Some (Drifted (Sort (map formatDriftKey missing)) (Sort (map formatDriftKey unexpected)))
  end.

Definition vschemaNamespacesFromPlanResult (changes : list engineSchemaChange) : gset string :=
  list_to_set (map (fun sc => planNamespace (es_Namespace sc))
    (List.filter (fun sc => default "" (es_Metadata sc !! "vschema_changed") == "true") changes)).

Definition vschemaNamespacesFromApplyRequest (changes : list (option TableChange)) : gset string :=
  list_to_set (map (fun ch => planNamespace (tc_Namespace ch))
    (List.filter isVSchema (omap (fun ch => ch) changes))).

Definition compareVSchemaParity (recomputed dispatched : gset string) : option DriftErr :=
  match notIn dispatched recomputed, notIn recomputed dispatched with
  | [], [] => None
  | missing, unexpected => Some (VSchemaDrifted (Sort missing) (Sort unexpected))
  end.

(** [planWithEngine] is the answer of the deployment's own plan; [None] is success. *)
Definition verifyMaterializedPlanMatchesLiveSchema
    (planWithEngine : res (list engineSchemaChange)) (req : ApplyRequest) : option DriftErr :=
  let shardScoped := match aq_TargetShards req with [] => false | _ => true end in
  match (if shardScoped then dispatchTargetShard (aq_TargetShards req) else Ok "") with
  | Err e => Some e
  | Ok targetShard =>
      match planWithEngine with
      | Err e => Some (PlanFailed e)
      | Ok changes =>
          match driftMultisetFromPlanResult shardScoped targetShard changes ∅ with
          | Err e => Some e
          | Ok recomputed =>
              match driftMultisetFromApplyRequest targetShard (aq_DdlChanges req) ∅ with
              | Err e => Some e
              | Ok dispatched =>
                  match compareDriftMultisets recomputed dispatched with
                  | Some e => Some e
                  | None =>
                      if negb shardScoped
                      then compareVSchemaParity (vschemaNamespacesFromPlanResult changes)
                             (vschemaNamespacesFromApplyRequest (aq_DdlChanges req))
                      else None
                  end
              end
          end
      end
  end.

(** A resume: the task's namespace, shard, table, action and reviewed DDL, and the
    DDL a new plan gives. *)
Definition verifyReplannedTaskDDL (namespace shard table action reviewed replanned : string)
    : option DriftErr :=
  if reviewed == "" then None else
  match canonicalDDLForDrift reviewed with
  | Err e => Some e
  | Ok reviewedCanon =>
      match canonicalDDLForDrift replanned with
      | Err e => Some e
      | Ok replannedCanon => if reviewedCanon == replannedCanon then None
                             else Some (ReplanDrifted
                                    (formatDriftLocation (namespace, shard, table, action, ""))
                                    reviewedCanon replannedCanon)
      end
  end.

End Statements.

(** ** Lemmas: multisets *)

Lemma count_bump ms key k : count (bump ms key) k = (count ms k + if decide (key = k) then 1 else 0)%nat.
Proof.
  unfold count, bump. destruct (decide (key = k)) as [->|Hne].
  - rewrite lookup_insert_eq. cbn. lia.
  - rewrite lookup_insert_ne by done. lia.
Qed.

Lemma count_keys keys ms k :
  count (fold_left bump keys ms) k = (count ms k + count_occ (decide_rel (=)) keys k)%nat.
Proof.
  revert ms. induction keys as [|key keys IH]; intros ms; cbn; [lia|].
  rewrite IH, count_bump. destruct (decide (key = k)), (decide_rel (=) key k); first [lia|congruence].
Qed.

(** Counts are positive where present. *)
Definition positive (ms : driftChangeMultiset) : Prop := forall k, ms !! k <> Some 0%nat.

Lemma positive_keys keys ms : positive ms -> positive (fold_left bump keys ms).
Proof.
  revert ms. induction keys as [|key keys IH]; intros ms Hp; cbn; [done|]. apply IH. intros k.
  unfold bump. destruct (decide (key = k)) as [->|]; [by rewrite lookup_insert_eq|by rewrite lookup_insert_ne].
Qed.

Lemma positive_ext ms ms' : positive ms -> positive ms' -> (forall k, count ms k = count ms' k) -> ms = ms'.
Proof.
  intros Hp Hp' H. apply map_eq. intros k. specialize (H k). specialize (Hp k). specialize (Hp' k).
  unfold count in H. destruct (ms !! k) as [[|n]|], (ms' !! k) as [[|n']|]; cbn in H; congruence.
Qed.

Lemma fewerIn_nil a b : fewerIn a b = [] <-> forall k, (count a k <= count b k)%nat.
Proof.
  unfold fewerIn. split.
  - intros H k. apply map_eq_nil in H. unfold count at 1. destruct (a !! k) as [n|] eqn:E; cbn; [|lia].
    destruct (count b k <? n)%nat eqn:El; [|apply Nat.ltb_ge in El; lia]. exfalso.
    assert (Hin : In (k, n) (List.filter (fun '(key, want) => (count b key <? want)%nat) (map_to_list a))).
    { apply filter_In. split; [|done]. by apply list_elem_of_In, elem_of_map_to_list. }
    by rewrite H in Hin.
  - intros H. destruct (List.filter _ _) as [|[k n] l] eqn:E; [done|]. exfalso.
    assert (Hin : In (k, n) ((k, n) :: l)) by by left. rewrite <- E in Hin.
    apply filter_In in Hin as [Hin Hlt]. apply list_elem_of_In, elem_of_map_to_list in Hin.
    specialize (H k). unfold count at 1 in H. rewrite Hin in H. cbn in H. apply Nat.ltb_lt in Hlt. lia.
Qed.

Lemma notIn_nil (a b : gset string) : notIn a b = [] <-> a ⊆ b.
Proof.
  unfold notIn. split.
  - intros H x Hx. destruct (decide (x ∈ b)) as [|Hn]; [done|]. exfalso.
    assert (Hin : In x (List.filter (fun ns => negb (bool_decide (ns ∈ b))) (elements a))).
    { apply filter_In. rewrite bool_decide_false by done. split; [|done]. apply list_elem_of_In. set_solver. }
    by rewrite H in Hin.
  - intros H. destruct (List.filter _ _) as [|x l] eqn:E; [done|]. exfalso.
    assert (Hin : In x (x :: l)) by by left. rewrite <- E in Hin. apply filter_In in Hin as [Hin Hn].
    apply list_elem_of_In in Hin. apply negb_true_iff, bool_decide_eq_false in Hn. set_solver.
Qed.

Lemma fewerIn_both a b : positive a -> positive b ->
  (fewerIn a b = [] /\ fewerIn b a = [] <-> a = b).
Proof.
  intros Ha Hb. rewrite !fewerIn_nil. split.
  - intros [H1 H2]. apply positive_ext; [done..|]. intros k. specialize (H1 k). specialize (H2 k). lia.
  - by intros ->.
Qed.

Lemma notIn_both (a b : gset string) : notIn a b = [] /\ notIn b a = [] <-> a = b.
Proof. rewrite !notIn_nil. set_solver. Qed.

Lemma keys_equal keys keys' : fold_left bump keys ∅ = fold_left bump keys' ∅ <-> keys ≡ₚ keys'.
Proof.
  assert (Hp : forall l, positive (fold_left bump l ∅)).
  { intros l. apply positive_keys. intros k. by rewrite lookup_empty. }
  rewrite (Permutation_count_occ (decide_rel (=))). split.
  - intros H k. pose proof (count_keys keys ∅ k) as H1. pose proof (count_keys keys' ∅ k) as H2.
    rewrite H in H1. unfold count at 2 in H1. unfold count at 2 in H2. rewrite lookup_empty in *.
    cbn in *. congruence.
  - intros H. apply positive_ext; [done..|]. intros k. rewrite !count_keys. by rewrite H.
Qed.

Lemma nil_merge_sort {A} (R : A -> A -> Prop) `{!forall x y, Decision (R x y)} l : merge_sort R l = [] <-> l = [].
Proof.
  split; [|by intros ->]. intros Hs. apply Permutation_nil. rewrite <- Hs. apply merge_sort_Permutation.
Qed.

Lemma nil_Sort l : Sort l = [] <-> l = [].
Proof. apply nil_merge_sort. Qed.

(** ** Lemmas: what is counted *)

(** The changes a change set counts: every change of a shard row under its trimmed
    shard, and the collapsed changes of the namespaces no shard row carries. *)
Definition occurrence : Type := string * string * option TableChange.

Definition shardOccurrences (shards : list (option ShardPlan)) : list occurrence :=
  concat (map (fun sp => match sp with
    | Some sp => map (fun tc => (sp_Namespace sp, TrimSpace (sp_Shard sp), tc)) (sp_Changes sp)
    | None => []
    end) shards).

Definition carriedByShards (shards : list (option ShardPlan)) : gset string :=
  list_to_set (concat (map (fun sp => match sp with
    | Some sp => match sp_Changes sp with [] => [] | _ => [sp_Namespace sp] end
    | None => []
    end) shards)).

Definition collapsedOccurrences (carried : gset string) (changes : list (option SchemaChange))
    : list occurrence :=
  concat (map (fun sc => match sc with
    | Some sc => if bool_decide (sc_Namespace sc ∈ carried) then []
                 else map (fun tc => (sc_Namespace sc, "", tc)) (sc_TableChanges sc)
    | None => []
    end) changes).

Definition counted (cs : ChangeSet) : list occurrence :=
  (shardOccurrences (cs_Shards cs) ++
   collapsedOccurrences (carriedByShards (cs_Shards cs)) (cs_Changes cs))%list.

Definition vschemaOf (cs : ChangeSet) : gset string :=
  list_to_set (concat (map (fun sc => match sc with
    | Some sc => if vschemaChanged sc then [sc_Namespace sc] else []
    | None => []
    end) (cs_Changes cs))).

Section Counting.
Context {ST : Type} `{!StatementTypes ST}.
Context (Classify : string -> option (list ST)) (IsDDL : ST -> bool).
Context (New : string -> option (list Statement)) (Restore : string -> option string).

Abbreviation driftKey := (driftKeyForTableChange Classify IsDDL New Restore).
Abbreviation multiset := (changeSetMultiset Classify IsDDL New Restore).

(** Each occurrence has its key, in order. *)
Definition keyedAs (l : list occurrence) (keys : list driftChangeKey) : Prop :=
  Forall2 (fun '(ns, shard, tc) key => driftKey ns shard tc = Ok key) l keys.

Lemma countChanges_keys ns shard changes ms ms' :
  countChanges Classify IsDDL New Restore ns shard changes ms = Ok ms' ->
  exists keys, keyedAs (map (fun tc => (ns, shard, tc)) changes) keys /\ ms' = fold_left bump keys ms.
Proof.
  revert ms. induction changes as [|tc changes IH]; intros ms; cbn.
  { intros [= <-]. exists []. split; [constructor|done]. }
  destruct (driftKey ns shard tc) as [key|] eqn:E; [|done]. intros H.
  destruct (IH _ H) as (keys & Hk & ->). exists (key :: keys). split; [by constructor|done].
Qed.

Lemma countShards_keys shards ms ins scs ms' ins' scs' :
  countShards Classify IsDDL New Restore shards ms ins scs = Ok (ms', ins', scs') ->
  exists keys, keyedAs (shardOccurrences shards) keys /\ ms' = fold_left bump keys ms /\
    scs' = carriedByShards shards ∪ scs.
Proof.
  revert ms ins scs. induction shards as [|[sp|] shards IH]; intros ms ins scs; [| |done].
  { intros [= <- <- <-]. exists []. split; [constructor|]. split; [done|]. unfold carriedByShards. cbn. set_solver. }
  cbn [countShards]. destruct (TrimSpace (sp_Shard sp) == ""); [done|].
  destruct (countChanges _ _ _ _ _ _ _ _) as [ms1|] eqn:E; [|done]. intros H.
  apply countChanges_keys in E as (k1 & Hk1 & ->). apply IH in H as (k2 & Hk2 & -> & ->).
  exists (k1 ++ k2)%list. split; [by apply Forall2_app|]. split; [by rewrite fold_left_app|].
  unfold carriedByShards. cbn. destruct (sp_Changes sp); cbn; set_solver.
Qed.

Lemma countCollapsed_keys ns carried changes ms has ms' has' :
  countCollapsed Classify IsDDL New Restore ns carried changes ms has = Ok (ms', has') ->
  exists keys, keyedAs (if carried then [] else map (fun tc => (ns, "", tc)) changes) keys /\
    ms' = fold_left bump keys ms.
Proof.
  revert ms has. induction changes as [|[tc|] changes IH]; intros ms has; cbn [countCollapsed]; [| |done].
  { intros [= <- <-]. exists []. split; [destruct carried; constructor|done]. }
  destruct (isVSchema tc); [done|]. destruct carried; [by apply IH|].
  destruct (driftKey ns "" (Some tc)) as [key|] eqn:E; [|done].
  intros H. destruct (IH _ _ H) as (keys & Hk & ->).
  exists (key :: keys). split; [by constructor|done].
Qed.

Lemma countSchemaChanges_keys ins scs changes ms vs ms' vs' :
  countSchemaChanges Classify IsDDL New Restore ins scs changes ms vs = Ok (ms', vs') ->
  exists keys, keyedAs (collapsedOccurrences scs changes) keys /\ ms' = fold_left bump keys ms /\
    vs' = vschemaOf {| cs_Changes := changes; cs_Shards := [] |} ∪ vs.
Proof.
  revert ms vs. induction changes as [|[sc|] changes IH]; intros ms vs; cbn [countSchemaChanges]; [| |done].
  { intros [= <- <-]. exists []. split; [constructor|]. split; [done|]. unfold vschemaOf. cbn. set_solver. }
  destruct (countCollapsed _ _ _ _ _ _ _ _ _) as [[ms1 has]|] eqn:E; [|done].
  destruct (_ && _); [done|]. intros H. apply countCollapsed_keys in E as (k1 & Hk1 & ->).
  apply IH in H as (k2 & Hk2 & -> & ->). exists (k1 ++ k2)%list. split.
  { unfold collapsedOccurrences. cbn. apply Forall2_app; [|done]. by case_bool_decide. }
  split; [by rewrite fold_left_app|]. unfold vschemaOf. cbn. destruct (vschemaChanged sc); cbn; set_solver.
Qed.

Lemma multiset_keys cs ms vs :
  multiset cs = Ok (ms, vs) ->
  exists keys, keyedAs (counted cs) keys /\ ms = fold_left bump keys ∅ /\ vs = vschemaOf cs.
Proof.
  unfold changeSetMultiset. destruct (countShards _ _ _ _ _ _ _ _) as [[[ms1 ins] scs]|] eqn:E; [|done].
  intros H. apply countShards_keys in E as (k1 & Hk1 & -> & ->).
  apply countSchemaChanges_keys in H as (k2 & Hk2 & -> & ->). rewrite union_empty_r_L in Hk2.
  exists (k1 ++ k2)%list. split; [by apply Forall2_app|]. split; [by rewrite fold_left_app|].
  by rewrite union_empty_r_L.
Qed.

Lemma keyedAs_fun l keys keys' : keyedAs l keys -> keyedAs l keys' -> keys = keys'.
Proof.
  intros H. revert keys'. induction H as [|[[ns shard] tc] key l keys Hk _ IH]; intros keys' H'.
  - by inversion H'.
  - inversion H' as [|? key' ? keys'' Hk' Hrest]; subst. f_equal; [congruence|auto].
Qed.

(** What an empty diff says, in terms of the multisets. *)
Lemma compare_multisets b c d :
  CompareChangeSets Classify IsDDL New Restore b c = Ok d ->
  Empty d = true <-> exists m, multiset b = Ok m /\ multiset c = Ok m.
Proof.
  unfold CompareChangeSets. destruct (multiset b) as [[mb vb]|] eqn:Eb; [|done].
  destruct (multiset c) as [[mc vc]|] eqn:Ec; [|done]. intros [= <-].
  trans ((fewerIn mb mc = [] /\ fewerIn mc mb = []) /\ (notIn vb vc = [] /\ notIn vc vb = [])).
  { unfold Empty. cbn. unfold sortDiffItems.
    rewrite <- (nil_merge_sort keyLe (fewerIn mb mc)), <- (nil_merge_sort keyLe (fewerIn mc mb)).
    rewrite <- (nil_Sort (notIn vb vc)), <- (nil_Sort (notIn vc vb)).
    destruct (merge_sort keyLe (fewerIn mb mc)), (merge_sort keyLe (fewerIn mc mb)),
      (Sort (notIn vb vc)), (Sort (notIn vc vb)); intuition discriminate. }
  apply multiset_keys in Eb as Hb. destruct Hb as (kb & _ & Hb & _).
  apply multiset_keys in Ec as Hc. destruct Hc as (kc & _ & Hc & _).
  rewrite fewerIn_both, notIn_both.
  - split; [intros [-> ->]; eauto|]. intros (m & [= <-] & [= -> ->]). done.
  - subst mb. apply positive_keys. intros k. by rewrite lookup_empty.
  - subst mc. apply positive_keys. intros k. by rewrite lookup_empty.
Qed.

(** Two change sets agree: both are well formed, their counted changes have the same
    keys up to order, and they change the vschema of the same namespaces. *)
Definition agree (b c : ChangeSet) : Prop :=
  (exists mb mc, multiset b = Ok mb /\ multiset c = Ok mc) /\
  vschemaOf b = vschemaOf c /\
  exists kb kc, keyedAs (counted b) kb /\ keyedAs (counted c) kc /\ kb ≡ₚ kc.

Lemma agree_multisets b c : agree b c <-> exists m, multiset b = Ok m /\ multiset c = Ok m.
Proof.
  split.
  - intros (([mb vb] & [mc vc] & Eb & Ec) & Hv & kb & kc & Hb & Hc & Hp).
    apply multiset_keys in Eb as Eb'. destruct Eb' as (kb' & Hb' & -> & ->).
    apply multiset_keys in Ec as Ec'. destruct Ec' as (kc' & Hc' & -> & ->).
    rewrite (keyedAs_fun _ _ _ Hb' Hb) in *. rewrite (keyedAs_fun _ _ _ Hc' Hc) in *.
    apply keys_equal in Hp. rewrite Eb, Ec, Hv, Hp. eauto.
  - intros ([m v] & Eb & Ec). split; [eauto|].
    apply multiset_keys in Eb as (kb & Hb & Hm & ->). apply multiset_keys in Ec as (kc & Hc & Hm' & Hv).
    split; [done|]. exists kb, kc. split; [done|]. split; [done|]. apply keys_equal. congruence.
Qed.
End Counting.

Lemma compareDriftMultisets_none a b : positive a -> positive b ->
  compareDriftMultisets a b = None <-> a = b.
Proof.
  intros Ha Hb. rewrite <- (fewerIn_both a b Ha Hb). unfold compareDriftMultisets.
  destruct (fewerIn b a), (fewerIn a b); intuition discriminate.
Qed.

Lemma compareVSchemaParity_none a b : compareVSchemaParity a b = None <-> a = b.
Proof.
  rewrite <- notIn_both. unfold compareVSchemaParity.
  destruct (notIn b a), (notIn a b); intuition discriminate.
Qed.
Section Guard.
Context {ST : Type} `{!StatementTypes ST}.
Context (Classify : string -> option (list ST)) (IsDDL : ST -> bool).
Context (New : string -> option (list Statement)) (Restore : string -> option string).
Context (database dbType : string).

(** The changes the deployment would plan in the dispatch's scope, and their keys. *)
Definition plannedChanges (shardScoped : bool) (targetShard : string)
    (changes : list (engineSchemaChange (ST := ST))) : list (string * string * engineTableChange) :=
  concat (map (fun sc => if inScope shardScoped targetShard sc
    then map (fun tc => (planNamespace database dbType (es_Namespace sc), es_Shard sc, tc))
           (es_TableChanges sc)
    else []) changes).

Definition plannedKey (p : string * string * engineTableChange (ST := ST))
    : result DriftErr driftChangeKey :=
  let '(ns, shard, tc) := p in
  match canonicalDDLForDrift Classify IsDDL New Restore (et_DDL tc) with
  | Err e => Err e
  | Ok canon => Ok (ns, shard, et_Table tc, StatementTypeToOp (et_Operation tc), canon)
  end.

(** The table changes a dispatch carries, and their keys. *)
Definition dispatchedChanges (changes : list (option TableChange)) : list TableChange :=
  List.filter (fun ch => negb (isVSchema ch)) (omap (fun ch => ch) changes).

Definition dispatchedKey (targetShard : string) (ch : TableChange) : result DriftErr driftChangeKey :=
  match materializedTableChangeOperation Classify ch with
  | Err e => Err e
  | Ok op => match canonicalDDLForDrift Classify IsDDL New Restore (tc_Ddl ch) with
             | Err e => Err e
             | Ok canon => Ok (planNamespace database dbType (tc_Namespace ch), targetShard,
                               tc_TableName ch, op, canon)
             end
  end.

Definition keys {A} (key : A -> result DriftErr driftChangeKey) (l : list A)
    (ks : list driftChangeKey) : Prop := Forall2 (fun a k => key a = Ok k) l ks.

Lemma keys_fun {A} (key : A -> result DriftErr driftChangeKey) l ks ks' :
  keys key l ks -> keys key l ks' -> ks = ks'.
Proof.
  intros Hk. revert ks'. induction Hk as [|a k l ks Ha _ IH]; intros ks' Hk'.
  - by inversion Hk'.
  - inversion Hk' as [|? k' ? ks'' Ha' Hrest]; subst. f_equal; [congruence|auto].
Qed.

Lemma countPlanned_keys ns shard changes ms ms' :
  countPlanned Classify IsDDL New Restore ns shard changes ms = Ok ms' <->
  exists ks, keys plannedKey (map (fun tc => (ns, shard, tc)) changes) ks /\ ms' = fold_left bump ks ms.
Proof.
  revert ms. induction changes as [|tc changes IH]; intros ms; cbn.
  { split; [intros [= <-]; exists []; split; [constructor|done]|].
    intros (ks & Hk & ->). by inversion Hk. }
  destruct (canonicalDDLForDrift Classify IsDDL New Restore (et_DDL tc)) as [canon|] eqn:E.
  - rewrite IH. split.
    + intros (ks & Hk & ->). eexists (_ :: ks). split; [|done]. constructor; [|done]. cbn. by rewrite E.
    + intros (ks & Hk & ->). inversion Hk as [|? k ? ks' Hkey Hks]; subst. cbn in Hkey.
      rewrite E in Hkey. injection Hkey as <-. eauto.
  - split; [done|]. intros (ks & Hk & ->). inversion Hk as [|? k ? ks' Hkey Hks]; subst. cbn in Hkey.
    by rewrite E in Hkey.
Qed.

Lemma planResult_keys shardScoped targetShard changes ms ms' :
  driftMultisetFromPlanResult Classify IsDDL New Restore database dbType shardScoped targetShard changes ms
    = Ok ms' <->
  exists ks, keys plannedKey (plannedChanges shardScoped targetShard changes) ks /\
    ms' = fold_left bump ks ms.
Proof.
  revert ms. induction changes as [|sc changes IH]; intros ms; cbn [driftMultisetFromPlanResult].
  { split; [intros [= <-]; exists []; split; [constructor|done]|].
    intros (ks & Hk & ->). by inversion Hk. }
  unfold plannedChanges. cbn [map concat]. destruct (inScope shardScoped targetShard sc) eqn:Es; cbn [negb].
  - destruct (countPlanned _ _ _ _ _ _ _ _) as [ms1|] eqn:E.
    + apply countPlanned_keys in E as (k1 & Hk1 & ->). rewrite IH. split.
      * intros (k2 & Hk2 & ->). exists (k1 ++ k2)%list. split; [by apply Forall2_app|by rewrite fold_left_app].
      * intros (ks & Hk & ->). apply Forall2_app_inv_l in Hk as (k1' & k2 & Hk1' & Hk2 & ->).
        rewrite (keys_fun _ _ _ _ Hk1' Hk1). exists k2. split; [done|by rewrite fold_left_app].
    + split; [done|]. intros (ks & Hk & ->). apply Forall2_app_inv_l in Hk as (k1 & k2 & Hk1 & Hk2 & ->).
      exfalso. assert (Hx : exists m, countPlanned Classify IsDDL New Restore
        (planNamespace database dbType (es_Namespace sc)) (es_Shard sc) (es_TableChanges sc) ms = Ok m).
      { exists (fold_left bump k1 ms). apply countPlanned_keys. eauto. }
      destruct Hx as (m & Hm). rewrite E in Hm. done.
  - apply IH.
Qed.

Lemma applyRequest_keys targetShard changes ms ms' :
  driftMultisetFromApplyRequest Classify IsDDL New Restore database dbType targetShard changes ms
    = Ok ms' <->
  (None ∉ changes) /\ exists ks, keys (dispatchedKey targetShard) (dispatchedChanges changes) ks /\
    ms' = fold_left bump ks ms.
Proof.
  revert ms. induction changes as [|[ch|] changes IH]; intros ms; cbn [driftMultisetFromApplyRequest].
  - split.
    + intros [= <-]. split; [set_solver|]. exists []. split; [constructor|done].
    + intros (_ & ks & Hk & ->). by inversion Hk.
  - assert (Hn : None ∉ Some ch :: changes <-> None ∉ changes) by set_solver. rewrite Hn.
    unfold dispatchedChanges. cbn [omap list_omap List.filter]. destruct (isVSchema ch); cbn [negb]; [apply IH|].
    assert (Hkey : forall (k : driftChangeKey), dispatchedKey targetShard ch = Ok k ->
      (driftMultisetFromApplyRequest Classify IsDDL New Restore database dbType targetShard changes (bump ms k)
         = Ok ms' <->
       (None ∉ changes) /\ exists ks, keys (dispatchedKey targetShard)
         (ch :: List.filter (fun c => negb (isVSchema c)) (omap (fun c => c) changes)) ks /\
         ms' = fold_left bump ks ms)).
    { intros k Hk. rewrite IH. split; intros (Hno & ks & Hks & ->); (split; [done|]).
      - exists (k :: ks). split; [by constructor|done].
      - inversion Hks as [|? k' ? ks' Hk' Hks']; subst. rewrite Hk in Hk'. injection Hk' as <-. eauto. }
    unfold dispatchedKey in Hkey at 1. destruct (materializedTableChangeOperation Classify ch) as [op|] eqn:Eo.
    + destruct (canonicalDDLForDrift Classify IsDDL New Restore (tc_Ddl ch)) as [canon|] eqn:Ec; [by apply Hkey|].
      split; [done|]. intros (_ & ks & Hk & ->). inversion Hk as [|? k ? ks' Hk' _]; subst.
      unfold dispatchedKey in Hk'. by rewrite Eo, Ec in Hk'.
    + split; [done|]. intros (_ & ks & Hk & ->). inversion Hk as [|? k ? ks' Hk' _]; subst.
      unfold dispatchedKey in Hk'. by rewrite Eo in Hk'.
  - split; [done|]. intros [Hn _]. set_solver.
Qed.

End Guard.

(** ** Properties *)

Section Properties.
Context {ST : Type} `{!StatementTypes ST}.
Context (Classify : string -> option (list ST)) (IsDDL : ST -> bool).
Context (New : string -> option (list Statement)) (Restore : string -> option string).

(** The comparison is exact.  When two change sets can be compared, the diff is
    empty if and only if they agree: the changes that count have the same keys up to
    order and multiplicity, and the same namespaces change their vschema. *)
Theorem compare_exact b c d
    (Hcmp : CompareChangeSets Classify IsDDL New Restore b c = Ok d) :
  Empty d = true <-> agree Classify IsDDL New Restore b c.
Proof. rewrite agree_multisets. by apply compare_multisets. Qed.

Lemma rollupEntry_clean baseline cause primary d :
  (rollupEntry Classify IsDDL New Restore baseline cause primary d).2 = true <->
  dd_Err d = None /\ cause = None /\
  (primary = false -> agree Classify IsDDL New Restore baseline (changeSetOf d)).
Proof.
  unfold rollupEntry. destruct (dd_Err d); [cbn; intuition discriminate|].
  destruct primary, cause; cbn; try (intuition discriminate).
  rewrite agree_multisets. destruct (CompareChangeSets _ _ _ _ _ _) as [diff|] eqn:E.
  - apply compare_multisets in E as <-. destruct (Empty diff); cbn; intuition discriminate.
  - cbn. split; [done|]. intros (_ & _ & H). destruct (H eq_refl) as ([m v] & Hb & Hc).
    unfold CompareChangeSets in E. by rewrite Hb, Hc in E.
Qed.

(** A clean rollup is agreement.  A rollup that answers covers exactly the
    expected deployments in rollout order, and is clean if and only if no deployment
    erred and every deployment, the primary included, agrees with the reviewed
    primary change set. *)
Theorem rollup_clean_exact primary others expected rollup
    (Hroll : RollupDeploymentDiffs Classify IsDDL New Restore (primary :: others) expected = Ok rollup) :
  map dd_Deployment (primary :: others) = expected /\
  map re_Deployment (ro_Entries rollup) = expected /\
  (ro_Clean rollup = true <-> forall d, d ∈ primary :: others ->
     dd_Err d = None /\ agree Classify IsDDL New Restore (changeSetOf primary) (changeSetOf d)).
Proof.
  unfold RollupDeploymentDiffs in Hroll. destruct expected as [|e expected]; [done|].
  destruct (negb (_ =? _)%nat); [done|].
  destruct (bool_decide _) eqn:Eo; cbn [negb] in Hroll; [|done]. apply bool_decide_eq_true in Eo.
  set (cause := match dd_Err primary with Some e => _ | None => _ end) in Hroll.
  injection Hroll as <-. split; [done|]. cbn [ro_Entries ro_Clean]. split.
  - rewrite <- Eo. rewrite map_map. cbn [map]. f_equal; [|rewrite map_map; apply map_ext]; intros;
      unfold rollupEntry; repeat (case_match; cbn; try done).
  - assert (Hc : cause = None <-> dd_Err primary = None /\
                   agree Classify IsDDL New Restore (changeSetOf primary) (changeSetOf primary)).
    { unfold cause. destruct (dd_Err primary); [intuition discriminate|]. rewrite agree_multisets.
      unfold CompareChangeSets.
      destruct (changeSetMultiset _ _ _ _ (changeSetOf primary)) as [[m v]|]; [|naive_solver].
      split; [intros _; split; [done|]; eauto|done]. }
    cbn [forallb]. rewrite andb_true_iff, rollupEntry_clean, forallb_forall. split.
    + intros ((H0 & H1 & _) & H2) d [->|Hd]%elem_of_cons; [split; [done|]; by apply Hc|].
      specialize (H2 _ (in_map _ _ _ (proj1 (list_elem_of_In _ _) Hd))).
      apply rollupEntry_clean in H2. naive_solver.
    + intros H. destruct (H primary) as [He Ha]; [set_solver|]. rewrite Hc. split; [done|].
      intros x Hx. apply in_map_iff in Hx as (d & <- & Hd). apply rollupEntry_clean. rewrite Hc.
      destruct (H d) as [? ?]; [apply elem_of_cons; right; by apply list_elem_of_In|]. done.
Qed.

Context (database dbType : string).

(** C32: the drift guard is exact.  The guard of a dispatch passes if and only if: the
    dispatch names no shard, or exactly one whose name is not blank; the deployment
    could plan; the dispatch carries no missing (nil) change; every change in scope
    could be canonicalized on both sides; the two sides have the same keys up to
    order; and, for a dispatch of the whole deployment, the same namespaces change
    their vschema. *)
Theorem drift_guard_exact planned req :
  verifyMaterializedPlanMatchesLiveSchema Classify IsDDL New Restore database dbType planned req = None <->
  exists shard changes kp kd,
    match aq_TargetShards req with
    | [] => shard = ""
    | [name] => shard = TrimSpace name /\ shard <> ""
    | _ => False
    end /\
    planned = Ok changes /\ (None ∉ aq_DdlChanges req) /\
    keys (plannedKey Classify IsDDL New Restore)
      (plannedChanges database dbType
         (match aq_TargetShards req with [] => false | _ => true end) shard changes) kp /\
    keys (dispatchedKey Classify IsDDL New Restore database dbType shard)
      (dispatchedChanges (aq_DdlChanges req)) kd /\
    kp ≡ₚ kd /\
    (aq_TargetShards req = [] ->
       vschemaNamespacesFromPlanResult database dbType changes =
       vschemaNamespacesFromApplyRequest database dbType (aq_DdlChanges req)).
Proof.
  unfold verifyMaterializedPlanMatchesLiveSchema.
  set (scoped := match aq_TargetShards req with [] => false | _ => true end).
  set (target := if scoped then _ else _).
  assert (Ht : forall shard, target = Ok shard <->
    match aq_TargetShards req with
    | [] => shard = "" | [name] => shard = TrimSpace name /\ shard <> "" | _ => False end).
  { intros shard. unfold target, scoped. destruct (aq_TargetShards req) as [|name [|]]; cbn [dispatchTargetShard];
      [naive_solver| |naive_solver]. cbv zeta. destruct (TrimSpace name == "") eqn:Es; reflect_guards; naive_solver. }
  setoid_rewrite <- Ht. clearbody target. clear Ht.
  destruct target as [shard|]; [|naive_solver]. destruct planned as [changes|]; [|naive_solver].
  assert (Hp : forall l, positive (fold_left bump l ∅)).
  { intros l. apply positive_keys. intros k. by rewrite lookup_empty. }
  destruct (driftMultisetFromPlanResult _ _ _ _ _ _ _ _ _ _) as [mp|] eqn:E1; cycle 1.
  { split; [done|]. intros (? & ? & kp & kd & [= <-] & [= <-] & _ & Hk & _). exfalso.
    pose proof (planResult_keys Classify IsDDL New Restore database dbType scoped shard changes ∅
      (fold_left bump kp ∅)) as [_ H]. rewrite E1 in H. discriminate H. eauto. }
  apply planResult_keys in E1 as (kp & Hkp & ->).
  destruct (driftMultisetFromApplyRequest _ _ _ _ _ _ _ _ _) as [md|] eqn:E2; cycle 1.
  { split; [done|]. intros (? & ? & kp' & kd & [= <-] & [= <-] & Hn & _ & Hk & _). exfalso.
    pose proof (applyRequest_keys Classify IsDDL New Restore database dbType shard (aq_DdlChanges req) ∅
      (fold_left bump kd ∅)) as [_ H]. rewrite E2 in H. discriminate H. eauto. }
  apply applyRequest_keys in E2 as (Hn & kd & Hkd & ->).
  trans (fold_left bump kp ∅ = fold_left bump kd ∅ /\ (scoped = false ->
           vschemaNamespacesFromPlanResult database dbType changes =
           vschemaNamespacesFromApplyRequest database dbType (aq_DdlChanges req))).
  { rewrite <- compareDriftMultisets_none by done. destruct (compareDriftMultisets _ _); [naive_solver|].
    destruct scoped; cbn [negb]; [naive_solver|]. rewrite compareVSchemaParity_none. naive_solver. }
  rewrite keys_equal. unfold scoped in *. split.
  - intros [Hperm Hv]. exists shard, changes, kp, kd. do 6 (split; [done|]). intros Hs. apply Hv. by rewrite Hs.
  - intros (? & ? & kp' & kd' & [= <-] & [= <-] & _ & Hkp' & Hkd' & Hperm & Hv).
    rewrite (keys_fun _ _ _ _ Hkp Hkp'), (keys_fun _ _ _ _ Hkd Hkd'). split; [done|].
    destruct (aq_TargetShards req); [auto|done].
Qed.
End Properties.

(** A dialect of two statements; the parser canonicalizes nothing. *)
Inductive sampleStatement := SampleUnknown | SampleCreate | SampleAlter | SampleDrop | SampleRename.
#[local] Instance sampleStatement_eq : EqDecision sampleStatement.
Proof. solve_decision. Defined.
#[local] Instance sampleStatements : StatementTypes sampleStatement :=
  {| StatementUnknown := SampleUnknown; StatementCreateTable := SampleCreate;
     StatementAlterTable := SampleAlter; StatementDropTable := SampleDrop;
     StatementRenameTable := SampleRename |}.

Definition sampleClassify (s : string) : option (list sampleStatement) :=
  if HasPrefix s "CREATE " then Some [SampleCreate]
  else if HasPrefix s "ALTER " then Some [SampleAlter] else None.
Definition sampleNew (s : string) : option (list Statement) := None.

Definition sampleChange (table ddl : string) : option TableChange :=
  Some {| tc_Namespace := ""; tc_TableName := table; tc_Ddl := ddl; tc_ChangeType := CHANGE_TYPE_ALTER;
          tc_IsUnsafe := false; tc_UnsafeReason := "" |}.
Definition sampleChangeSet (changes : list (option TableChange)) : ChangeSet :=
  {| cs_Changes := [Some {| sc_Namespace := "app"; sc_Metadata := ∅; sc_TableChanges := changes |}];
     cs_Shards := [] |}.
Definition sampleDiff (deployment : string) (cs : ChangeSet) : DeploymentPlanDiff :=
  {| dd_DatabaseType := "mysql"; dd_Deployment := deployment; dd_Target := "app";
     dd_Changes := cs_Changes cs; dd_Shards := cs_Shards cs; dd_Err := None |}.

Lemma compare_exact_witness :
  let a := sampleChange "t" "ALTER TABLE t ADD x INT" in
  let b := sampleChange "u" "ALTER TABLE u ADD y INT" in
  agree sampleClassify (fun _ => true) sampleNew (fun _ => None)
    (sampleChangeSet [a; b]) (sampleChangeSet [b; a]).
Proof.
  cbn zeta.
  apply (compare_exact sampleClassify (fun _ => true) sampleNew (fun _ => None) _ _ noDiff);
    vm_compute; reflexivity.
Defined.

(** Two deployments that would plan the same changes in another order; a third that
    would also drop a column is drift. *)
Lemma rollup_clean_exact_witness :
  let a := sampleChange "t" "ALTER TABLE t ADD x INT" in
  let b := sampleChange "u" "ALTER TABLE u ADD y INT" in
  let p := sampleDiff "us" (sampleChangeSet [a; b]) in
  let q := sampleDiff "eu" (sampleChangeSet [b; a]) in
  let r := sampleDiff "ap" (sampleChangeSet [b; a; sampleChange "u" "ALTER TABLE u DROP z"]) in
  agree sampleClassify (fun _ => true) sampleNew (fun _ => None) (changeSetOf p) (changeSetOf q) /\
  match RollupDeploymentDiffs sampleClassify (fun _ => true) sampleNew (fun _ => None) [p; q; r] ["us"; "eu"; "ap"] with
  | Ok rollup => ro_Clean rollup = false
  | Err _ => False
  end.
Proof.
  cbn zeta. split; [|vm_compute; reflexivity].
  set (p := sampleDiff "us" _). set (q := sampleDiff "eu" _).
  destruct (RollupDeploymentDiffs sampleClassify (fun _ => true) sampleNew (fun _ => None)
              [p; q] ["us"; "eu"]) as [rollup|] eqn:E; [|vm_compute in E; discriminate E].
  apply (rollup_clean_exact sampleClassify (fun _ => true) sampleNew (fun _ => None) p [q] ["us"; "eu"] rollup E).
  - vm_compute in E. injection E as <-. reflexivity.
  - apply list_elem_of_further, list_elem_of_here.
Defined.
