(* ===== verification/Fanout.v ===== *)
(** * From a stored plan to the operations of an apply (pkg/api, pkg/tern, pkg/storage)

    createStoredApply of plan_handlers.go turns a stored plan into operation groups:
    one per deployment, or, for a plan whose changes live on shards, one per
    deployment, shard and table with a finalizer per vschema.  The data plane keys a
    shard-scoped dispatch the same way (local_client.go), and the loaders of tasks
    match the key again (mysqlstore/tasks.go).  Also here: the shard rows of the plan
    store, the unsafe opt-in, and the options an apply carries on the wire. *)

From S2P Require Import Prelude GoStrings State Sql Convert Store Config Drift.

Local Open Scope string_scope.
Local Open Scope Z_scope.

(** ** Stored plans *)

(** [storage.TableChange] *)
Record StoredChange := {
  sg_Namespace : string;
  sg_Table : string;
  sg_DDL : string;
  sg_Operation : string;
  sg_IsUnsafe : bool;
  sg_UnsafeReason : string;
}.

(** [storage.ShardPlan] *)
Record StoredShard := {
  ss_Shard : string;
  ss_Namespace : string;
  ss_Changes : list StoredChange;
}.

(** [NamespacePlanData]: tables, embedded shards and artifacts. *)
Record NamespacePlanData := {
  nd_Tables : list StoredChange;
  nd_Shards : list StoredShard;
  nd_OriginalFilesCaptured : bool;
  nd_Artifacts : gmap string string;
}.

(** [storage.Plan]: the fields an apply is built from. *)
Record Plan := {
  pn_ID : Z;
  pn_PlanIdentifier : string;
  pn_Database : string;
  pn_DatabaseType : string;
  pn_Repository : string;
  pn_PullRequest : Z;
  pn_Namespaces : gmap string NamespacePlanData;
  pn_Shards : list StoredShard;
  pn_SchemaFiles : gmap string (gmap string string);
}.

Definition inNamespace (ns : string) (tc : StoredChange) : StoredChange :=
  if sg_Namespace tc == ""
  then {| sg_Namespace := ns; sg_Table := sg_Table tc; sg_DDL := sg_DDL tc;
          sg_Operation := sg_Operation tc; sg_IsUnsafe := sg_IsUnsafe tc;
          sg_UnsafeReason := sg_UnsafeReason tc |}
  else tc.

Definition sortedKeys {A} (m : gmap string A) : list string := Sort (map fst (map_to_list m)).

Definition tablesOf (p : Plan) (k : string) : list StoredChange :=
  match pn_Namespaces p !! k with Some nsData => nd_Tables nsData | None => [] end.

Definition FlatDDLChanges (p : Plan) : list StoredChange :=
  concat (map (fun k => map (inNamespace k) (tablesOf p k)) (sortedKeys (pn_Namespaces p))).

Definition RequiresUnsafeOptIn (tc : StoredChange) : bool :=
  sg_IsUnsafe tc || EqualFold (sg_Operation tc) "drop".

Definition UnsafeOptInReason (tc : StoredChange) : string :=
  if sg_UnsafeReason tc != "" then sg_UnsafeReason tc
  else if EqualFold (sg_Operation tc) "drop" then "DROP TABLE removes all data"
  else "unsafe schema change requires explicit opt-in".

Definition UnsafeDDLChanges (p : Plan) : list StoredChange :=
  List.filter RequiresUnsafeOptIn
    (FlatDDLChanges p ++
     concat (map (fun shard => map (inNamespace (ss_Namespace shard)) (ss_Changes shard)) (pn_Shards p)))%list.

Inductive FanoutErr :=
| UnsafeWithoutOptIn (table reason : string)
| MalformedShardChange (namespace shard : string)
| MismatchedNamespace (namespace shard table : string)
| ReservedDelimiter (label value : string)
| KeyTooLong (key : string)
| DispatchMalformed (what : string)
| MixedTables
| NullEntry
| MissingArtifact (namespace : string).

(** Control plane: every change of the stored plan. *)
Definition rejectUnsafeStoredPlanWithoutOptIn (p : Plan) (applyOpts : ApplyOptions) : option FanoutErr :=
  if ao_AllowUnsafe applyOpts then None else
  match UnsafeDDLChanges p with
  | [] => None
  | change :: _ => Some (UnsafeWithoutOptIn (sg_Table change) (UnsafeOptInReason change))
  end.

(** Data plane: the changes this dispatch applies. *)
Fixpoint rejectUnsafeDDLChangesWithoutOptIn (changes : list StoredChange) (applyOpts : ApplyOptions)
    : option FanoutErr :=
  if ao_AllowUnsafe applyOpts then None else
  match changes with
  | [] => None
  | change :: rest =>
      if RequiresUnsafeOptIn change
      then Some (UnsafeWithoutOptIn (sg_Table change) (UnsafeOptInReason change))
      else rejectUnsafeDDLChangesWithoutOptIn rest applyOpts
  end.

(** ** Operation keys *)

Definition ShardOperationKey (namespace shard table : string) : string :=
  namespace ++ "/" ++ shard ++ "/" ++ table.

Definition finalizerOperationKeySegment := "group_finalizer".
Definition finalizerOperationKey (namespace : string) : string :=
  namespace ++ "/" ++ finalizerOperationKeySegment.
Definition applyOperationKeyMaxLen : nat := 255.

Definition parseShardOperationKey (key : string) : option (string * string * string) :=
  match splitOn "/" key with
  | [namespace; shard; table] =>
      if (namespace == "") || (shard == "") || (table == "") then None
      else Some (namespace, shard, table)
  | _ => None
  end.

Definition isFinalizerOperationKey (key : string) : bool :=
  let suffix := "/" ++ finalizerOperationKeySegment in
  if HasSuffix key suffix
  then let ns := TrimSuffix key suffix in (ns != "") && negb (containsByte "/" ns)
  else false.

(** The state of the loop of [isShardedApply]: deployment, namespace, whether a
    shard was seen; [None] is the early [return false]. *)
Definition shardedStep (acc : option (string * string * bool)) (op : ApplyOperation)
    : option (string * string * bool) :=
  match acc with
  | None => None
  | Some (deployment, namespace, hasShard) =>
      let parsed := parseShardOperationKey (op_OperationKey op) in
      if match parsed with None => negb (isFinalizerOperationKey (op_OperationKey op)) | Some _ => false end
      then None
      else if (deployment != "") && (op_Deployment op != deployment) then None
      else
        let deployment := if deployment == "" then op_Deployment op else deployment in
        match parsed with
        | None => Some (deployment, namespace, hasShard)
        | Some (ns, _, _) =>
            if (namespace != "") && (ns != namespace) then None
            else Some (deployment, if namespace == "" then ns else namespace, true)
        end
  end.

Definition isShardedApply (ops : list ApplyOperation) : bool :=
  match fold_left shardedStep ops (Some ("", "", false)) with
  | Some (_, _, hasShard) => hasShard
  | None => false
  end.

Definition validateOperationKeyPart (label value : string) : option FanoutErr :=
  if containsByte "/" value then Some (ReservedDelimiter label value) else None.

Definition validateShardOperationKeyParts (namespace shard table : string) : option FanoutErr :=
  match validateOperationKeyPart "namespace" namespace with
  | Some e => Some e
  | None => match validateOperationKeyPart "shard" shard with
            | Some e => Some e
            | None => validateOperationKeyPart "table" table
            end
  end.

(** ** Building the groups *)

(** The task of a group, with what the loaders match. *)
Record DriveTask := {
  dt_PlanID : Z;
  dt_Database : string;
  dt_DatabaseType : string;
  dt_Engine : string;
  dt_Environment : string;
  dt_State : string;
  dt_Options : ApplyOptions;
  dt_Namespace : string;
  dt_TableName : string;
  dt_Shard : string;
  dt_DDL : string;
  dt_DDLAction : string;
}.

(** [ApplyOperationWithTasks]: the columns the operation is created with. *)
Record OperationGroup := {
  og_Deployment : string;
  og_Target : string;
  og_OperationKey : string;
  og_OperationKind : string;
  og_CutoverPolicy : string;
  og_OnFailure : string;
  og_Tasks : list DriveTask;
  og_AllowTaskless : bool;
}.

Definition EngineForType (dbType : string) : string :=
  if dbType == "vitess" then "planetscale"
  else if dbType == "strata" then "strata"
  else if dbType == "postgres" then "postgres"
  else "spirit".

Section Building.
Context (plan : Plan) (environment : string) (applyOpts : ApplyOptions).
Context (cutoverPolicy onFailure : string).

Definition buildApplyTask (ddlChange : StoredChange) (shard : string) : DriveTask :=
  {| dt_PlanID := pn_ID plan; dt_Database := pn_Database plan; dt_DatabaseType := pn_DatabaseType plan;
     dt_Engine := EngineForType (pn_DatabaseType plan); dt_Environment := environment;
     dt_State := "pending"; dt_Options := applyOpts; dt_Namespace := sg_Namespace ddlChange;
     dt_TableName := sg_Table ddlChange; dt_Shard := shard; dt_DDL := sg_DDL ddlChange;
     dt_DDLAction := sg_Operation ddlChange |}.

Definition buildApplyTasks (taskChanges : list StoredChange) (shard : string) : list DriveTask :=
  map (fun ddlChange => buildApplyTask ddlChange shard) taskChanges.

Definition newPendingApplyOperation (target : ExecutionTarget) (operationKey kind : string)
    (tasks : list DriveTask) (allowTaskless : bool) : OperationGroup :=
  {| og_Deployment := xt_Deployment target; og_Target := xt_Target target;
     og_OperationKey := operationKey; og_OperationKind := kind; og_CutoverPolicy := cutoverPolicy;
     og_OnFailure := onFailure; og_Tasks := tasks; og_AllowTaskless := allowTaskless |}.

Definition byShard (a b : StoredShard) : Prop := strle (ss_Shard a) (ss_Shard b).
#[global] Instance byShard_dec : RelDecision byShard.
Proof. intros a b. unfold byShard. apply _. Defined.

(** The changing shards of a namespace in shard order (Go leaves the order of equal
    names open). *)
Definition changingShardsByNamespace (shards : list StoredShard) : gmap string (list StoredShard) :=
  let changing := List.filter (fun s => match ss_Changes s with [] => false | _ => true end) shards in
  (fun ns => merge_sort byShard ns) <$>
  fold_left (fun m s => <[ss_Namespace s := (default [] (m !! ss_Namespace s) ++ [s])%list]> m)
    changing (∅ : gmap string (list StoredShard)).

Definition canBuildShardedOperationGroups (taskChanges : list StoredChange) : bool :=
  match pn_Shards plan, taskChanges with
  | [], _ | _, [] => false
  | _, _ =>
      let shardsByNamespace := changingShardsByNamespace (pn_Shards plan) in
      if bool_decide (shardsByNamespace = ∅) then false
      else forallb (fun ddlChange =>
             negb (sg_DDL ddlChange == "") && negb (sg_Table ddlChange == "") &&
             match default [] (shardsByNamespace !! sg_Namespace ddlChange) with [] => false | _ => true end)
             taskChanges
  end.

Definition vschemaFinalizerNamespaces : list string :=
  Sort (map fst (List.filter
    (fun '(_, nsData) => default "" (nd_Artifacts nsData !! "vschema.json") != "")
    (map_to_list (pn_Namespaces plan)))).

(** The groups in order; those of shard work carry the key of the map. *)
Definition keyedGroups : Type := list (option string * OperationGroup).

Definition addTask (t : DriveTask) (g : OperationGroup) : OperationGroup :=
  {| og_Deployment := og_Deployment g; og_Target := og_Target g; og_OperationKey := og_OperationKey g;
     og_OperationKind := og_OperationKind g; og_CutoverPolicy := og_CutoverPolicy g;
     og_OnFailure := og_OnFailure g; og_Tasks := (og_Tasks g ++ [t])%list;
     og_AllowTaskless := og_AllowTaskless g |}.

Fixpoint addToGroup (groupKey : string) (fresh : OperationGroup) (t : DriveTask)
    (groups : keyedGroups) : keyedGroups :=
  match groups with
  | [] => [(Some groupKey, addTask t fresh)]
  | (k, g) :: rest =>
      if bool_decide (k = Some groupKey) then (k, addTask t g) :: rest
      else (k, g) :: addToGroup groupKey fresh t rest
  end.

(** One change of one shard. *)
Definition shardChangeStep (target : ExecutionTarget) (namespace shard : string)
    (groups : keyedGroups) (ddlChange : StoredChange) : result FanoutErr keyedGroups :=
  if (TrimSpace (sg_Table ddlChange) == "") || (TrimSpace (sg_DDL ddlChange) == "") ||
     (TrimSpace (sg_Operation ddlChange) == "") then Err (MalformedShardChange namespace shard)
  else if (sg_Namespace ddlChange != "") && (sg_Namespace ddlChange != namespace)
  then Err (MismatchedNamespace namespace shard (sg_Table ddlChange))
  else match validateShardOperationKeyParts namespace shard (sg_Table ddlChange) with
  | Some e => Err e
  | None =>
      let operationKey := ShardOperationKey namespace shard (sg_Table ddlChange) in
      if (applyOperationKeyMaxLen <? String.length operationKey)%nat then Err (KeyTooLong operationKey)
      else Ok (addToGroup (xt_Deployment target ++ String "000" operationKey)
                 (newPendingApplyOperation target operationKey ApplyOperationKindWork [] false)
                 (buildApplyTask ddlChange shard) groups)
  end.

Fixpoint foldE {A B E} (f : B -> A -> result E B) (l : list A) (acc : B) : result E B :=
  match l with
  | [] => Ok acc
  | a :: rest => match f acc a with Err e => Err e | Ok acc => foldE f rest acc end
  end.

(** The changes of a target in the order of the loops: namespaces, shards, changes. *)
Definition shardWork : list (string * string * StoredChange) :=
  let shardsByNamespace := changingShardsByNamespace (pn_Shards plan) in
  concat (map (fun namespace => concat (map (fun shard =>
      map (fun ddlChange => (namespace, ss_Shard shard, ddlChange)) (ss_Changes shard))
      (default [] (shardsByNamespace !! namespace)))) (sortedKeys shardsByNamespace)).

Definition finalizerStep (target : ExecutionTarget) (groups : keyedGroups) (namespace : string)
    : result FanoutErr keyedGroups :=
  match validateOperationKeyPart "namespace" namespace with
  | Some e => Err e
  | None =>
      let operationKey := finalizerOperationKey namespace in
      if (applyOperationKeyMaxLen <? String.length operationKey)%nat then Err (KeyTooLong operationKey)
      else Ok (groups ++ [(None, newPendingApplyOperation target operationKey
                                   ApplyOperationKindGroupFinalizer [] false)])%list
  end.

Definition targetGroups (groups : keyedGroups) (target : ExecutionTarget)
    : result FanoutErr keyedGroups :=
  match foldE (fun groups '(namespace, shard, ddlChange) =>
                 shardChangeStep target namespace shard groups ddlChange) shardWork groups with
  | Err e => Err e
  | Ok groups => foldE (finalizerStep target) vschemaFinalizerNamespaces groups
  end.

Definition buildShardedApplyOperationGroups (targets : list ExecutionTarget)
    : result FanoutErr (list OperationGroup) :=
  match foldE targetGroups targets [] with
  | Err e => Err e
  | Ok groups => Ok (map snd groups)
  end.

(** The groups, and whether they are a sharded fan-out. *)
Definition buildApplyOperationGroups (taskChanges : list StoredChange) (targets : list ExecutionTarget)
    : result FanoutErr (list OperationGroup * bool) :=
  if canBuildShardedOperationGroups taskChanges then
    match buildShardedApplyOperationGroups targets with
    | Err e => Err e
    | Ok groups => Ok (groups, true)
    end
  else
    let allowTasklessWork := (length targets =? 1)%nat && (length taskChanges =? 0)%nat &&
                             negb (length vschemaFinalizerNamespaces =? 0)%nat in
    Ok (map (fun target => newPendingApplyOperation target "" ApplyOperationKindWork
               (buildApplyTasks taskChanges "") allowTasklessWork) targets, false).

End Building.

(** ** The task loaders *)

(** The WHERE clause of GetByApplyOperationID for a task of the operation. *)
Definition isDriveTask (operationKind operationKey : string) (t : DriveTask) : bool :=
  (dt_Shard t == "") ||
  ((operationKind == ApplyOperationKindWork) &&
   (operationKey == dt_Namespace t ++ "/" ++ dt_Shard t ++ "/" ++ dt_TableName t)).

(** ** Shard-scoped dispatches *)

Section Dispatch.
Context {ST : Type} `{!StatementTypes ST}.

Fixpoint scopedChanges (changes : list (option TableChange)) : result FanoutErr (list StoredChange) :=
  match changes with
  | [] => Ok []
  | None :: _ => Err NullEntry
  | Some ch :: rest =>
      let namespace := TrimSpace (tc_Namespace ch) in
      let table := TrimSpace (tc_TableName ch) in
      let ddl := TrimSpace (tc_Ddl ch) in
      if namespace == "" then Err (DispatchMalformed "empty namespace")
      else if (table == "") || (ddl == "") then Err (DispatchMalformed "empty table or DDL")
      else
        let op := protoChangeTypeToDDLAction (ST := ST) (tc_ChangeType ch) in
        if (op == "unknown") || (op == "vschema_update")
        then Err (DispatchMalformed "unsupported change type")
        else match scopedChanges rest with
             | Err e => Err e
             | Ok out => Ok ({| sg_Namespace := namespace; sg_Table := table; sg_DDL := ddl;
                                sg_Operation := op; sg_IsUnsafe := tc_IsUnsafe ch;
                                sg_UnsafeReason := tc_UnsafeReason ch |} :: out)
             end
  end.

Definition scopedDispatchDDLChanges (changes : list (option TableChange))
    : result FanoutErr (list StoredChange) :=
  match changes with
  | [] => Err (DispatchMalformed "no ddl_changes")
  | _ => scopedChanges changes
  end.

Definition shardScopedDispatchOperationKey (changes : list StoredChange) (shard : string)
    : result FanoutErr string :=
  match changes with
  | [] => Err (DispatchMalformed "no ddl changes")
  | first :: rest =>
      let namespace := sg_Namespace first in
      let table := sg_Table first in
      if existsb (fun ch => (sg_Namespace ch != namespace) || (sg_Table ch != table)) rest
      then Err MixedTables
      else match validateShardOperationKeyParts namespace shard table with
           | Some e => Err e
           | None => Ok (ShardOperationKey namespace shard table)
           end
  end.

Definition protoChangeTypeToOperation (ct : ChangeType) : string :=
  match ct with
  | CHANGE_TYPE_CREATE => StatementTypeToOp (ST := ST) StatementCreateTable
  | CHANGE_TYPE_ALTER => StatementTypeToOp (ST := ST) StatementAlterTable
  | CHANGE_TYPE_DROP => StatementTypeToOp (ST := ST) StatementDropTable
  | CHANGE_TYPE_VSCHEMA => "vschema_update"
  | _ => "other"
  end.

(** The changes of one shard of a PlanResponse. *)
Fixpoint shardChangesToStorage (namespace : string) (changes : list (option TableChange))
    : result FanoutErr (list StoredChange) :=
  match changes with
  | [] => Ok []
  | None :: _ => Err NullEntry
  | Some ch :: rest =>
      let table := TrimSpace (tc_TableName ch) in
      let changeDDL := TrimSpace (tc_Ddl ch) in
      if (table == "") || (changeDDL == "") then Err (DispatchMalformed "empty table or DDL")
      else match tc_ChangeType ch with
      | CHANGE_TYPE_CREATE | CHANGE_TYPE_ALTER | CHANGE_TYPE_DROP =>
          let cn := TrimSpace (tc_Namespace ch) in
          if (cn != "") && (cn != namespace) then Err (MismatchedNamespace namespace "" table)
          else match shardChangesToStorage namespace rest with
               | Err e => Err e
               | Ok out => Ok ({| sg_Namespace := namespace; sg_Table := table; sg_DDL := changeDDL;
                                  sg_Operation := protoChangeTypeToOperation (tc_ChangeType ch);
                                  sg_IsUnsafe := tc_IsUnsafe ch;
                                  sg_UnsafeReason := tc_UnsafeReason ch |} :: out)
               end
      | _ => Err (DispatchMalformed "unsupported change type")
      end
  end.

Fixpoint protoShardPlansToStorage (shards : list (option ShardPlan))
    : result FanoutErr (list StoredShard) :=
  match shards with
  | [] => Ok []
  | None :: _ => Err NullEntry
  | Some shard :: rest =>
      let shardName := TrimSpace (sp_Shard shard) in
      if shardName == "" then Err (DispatchMalformed "empty shard") else
      let namespace := if sp_Namespace shard == "" then "default" else sp_Namespace shard in
      match shardChangesToStorage namespace (sp_Changes shard) with
      | Err e => Err e
      | Ok changes =>
          match protoShardPlansToStorage rest with
          | Err e => Err e
          | Ok out => Ok ({| ss_Shard := shardName; ss_Namespace := namespace; ss_Changes := changes |} :: out)
          end
      end
  end.

End Dispatch.

(** ** The shard rows of the plan store *)

Definition planShardNamespace (namespace : string) : string :=
  if namespace == "" then "default" else namespace.

Definition shardLess (a b : StoredShard) : bool :=
  if ss_Namespace a != ss_Namespace b then String.ltb (ss_Namespace a) (ss_Namespace b)
  else String.ltb (ss_Shard a) (ss_Shard b).
Definition shardLe (a b : StoredShard) : Prop := shardLess b a = false.
#[global] Instance shardLe_dec : RelDecision shardLe.
Proof. intros a b. unfold shardLe. apply _. Defined.

Definition sortedShardPlans (shards : list StoredShard) : list StoredShard := merge_sort shardLe shards.

Definition withShards (nsData : NamespacePlanData) (shards : list StoredShard) : NamespacePlanData :=
  {| nd_Tables := nd_Tables nsData; nd_Shards := shards;
     nd_OriginalFilesCaptured := nd_OriginalFilesCaptured nsData; nd_Artifacts := nd_Artifacts nsData |}.

Definition renamed (ns : string) (s : StoredShard) : StoredShard :=
  {| ss_Shard := ss_Shard s; ss_Namespace := ns; ss_Changes := ss_Changes s |}.

(** [namespaces[namespace].Shards = append(...)], creating the namespace if needed *)
Definition putShard (m : gmap string NamespacePlanData) (shard : StoredShard)
    : gmap string NamespacePlanData :=
  let ns := planShardNamespace (ss_Namespace shard) in
  let nsData := default {| nd_Tables := []; nd_Shards := []; nd_OriginalFilesCaptured := false; nd_Artifacts := ∅ |} (m !! ns) in
  <[ns := withShards nsData (nd_Shards nsData ++ [renamed ns shard])%list]> m.

Definition namespacesWithShardPlans (p : Plan) : gmap string NamespacePlanData :=
  let keep nsData := match pn_Shards p with [] => nsData | _ => withShards nsData [] end in
  fold_left putShard (sortedShardPlans (pn_Shards p)) (keep <$> pn_Namespaces p).

Definition shardPlansFromNamespaces (m : gmap string NamespacePlanData) : list StoredShard :=
  sortedShardPlans (concat (map (fun '(ns, nsData) =>
    map (fun s => if ss_Namespace s == "" then renamed (planShardNamespace ns) s else s) (nd_Shards nsData))
    (map_to_list m))).

(** ** Options on the wire *)

Definition option_ (options : gmap string string) (k : string) : string := default "" (options !! k).

Definition ApplyOptionsFromMap (options : gmap string string) : ApplyOptions :=
  {| ao_AllowUnsafe := option_ options "allow_unsafe" == "true";
     ao_Branch := option_ options "branch";
     ao_DeferCutover := option_ options "defer_cutover" == "true";
     ao_DeferDeploy := option_ options "defer_deploy" == "true";
     ao_SkipRevert := option_ options "skip_revert" == "true";
     ao_Volume :=
       if option_ options "volume" != "" then
         match Atoi (option_ options "volume") with
         | Some volume => if (1 <=? volume) && (volume <=? 11) then volume else 0
         | None => 0
         end
       else 0;
     ao_Target := option_ options "target";
     ao_Rollback := option_ options "rollback" == "true" |}.

Definition putIf (b : bool) (k v : string) (m : gmap string string) : gmap string string :=
  if b then <[k := v]> m else m.

Definition Map (opts : ApplyOptions) : gmap string string :=
  putIf (ao_Rollback opts) "rollback" "true"
  (putIf (ao_Target opts != "") "target" (ao_Target opts)
  (putIf (0 <? ao_Volume opts) "volume" (Itoa (ao_Volume opts))
  (putIf (ao_SkipRevert opts) "skip_revert" "true"
  (putIf (ao_DeferDeploy opts) "defer_deploy" "true"
  (putIf (ao_DeferCutover opts) "defer_cutover" "true"
  (putIf (ao_Branch opts != "") "branch" (ao_Branch opts)
  (putIf (ao_AllowUnsafe opts) "allow_unsafe" "true" ∅))))))).

Definition MinVolume : Z := 1.
Definition MaxVolume : Z := 11.

(** ** Lemmas: the changes of a plan *)

Lemma elem_of_concat_map {A B} (f : A -> list B) l b :
  b ∈ concat (map f l) <-> exists a, a ∈ l /\ b ∈ f a.
Proof.
  rewrite list_elem_of_In, in_concat. setoid_rewrite in_map_iff. setoid_rewrite <- list_elem_of_In.
  naive_solver.
Qed.

Lemma inNamespace_unsafe ns tc : RequiresUnsafeOptIn (inNamespace ns tc) = RequiresUnsafeOptIn tc.
Proof. unfold inNamespace. by destruct (sg_Namespace tc == ""). Qed.

(** The shards grouped by namespace are the changing shards of the plan. *)
Lemma grouped_shards changing (m : gmap string (list StoredShard)) ns :
  default [] (fold_left (fun m s => <[ss_Namespace s := (default [] (m !! ss_Namespace s) ++ [s])%list]> m)
    changing m !! ns) =
  (default [] (m !! ns) ++ List.filter (fun s => ss_Namespace s == ns) changing)%list.
Proof.
  revert m. induction changing as [|s changing IH]; intros m; cbn; [by rewrite app_nil_r|].
  rewrite IH. destruct (ss_Namespace s == ns) eqn:E; reflect_guards.
  - subst. rewrite lookup_insert_eq. cbn. by rewrite <- app_assoc.
  - by rewrite lookup_insert_ne.
Qed.

Definition changing (s : StoredShard) : bool := match ss_Changes s with [] => false | _ => true end.

Lemma changingShards_perm shards ns :
  default [] (changingShardsByNamespace shards !! ns) ≡ₚ
  List.filter (fun s => ss_Namespace s == ns) (List.filter changing shards).
Proof.
  unfold changingShardsByNamespace. rewrite lookup_fmap.
  pose proof (grouped_shards (List.filter changing shards) ∅ ns) as H. rewrite lookup_empty in H. cbn in H.
  fold changing. destruct (fold_left _ _ _ !! ns) as [l|]; cbn in H |- *; rewrite <- H; [|done].
  apply merge_sort_Permutation.
Qed.

Lemma elem_of_changingShards shards ns s :
  s ∈ default [] (changingShardsByNamespace shards !! ns) <->
  s ∈ shards /\ ss_Namespace s = ns /\ changing s = true.
Proof.
  rewrite changingShards_perm, !list_elem_of_In, !filter_In. 
  destruct (ss_Namespace s == ns) eqn:E; reflect_guards; naive_solver.
Qed.

(** What the loops of the fan-out visit: every change of every shard, under the
    shard's namespace and name. *)
Lemma elem_of_shardWork plan ns shard tc :
  (ns, shard, tc) ∈ shardWork plan <->
  exists s, s ∈ pn_Shards plan /\ ss_Namespace s = ns /\ ss_Shard s = shard /\ tc ∈ ss_Changes s.
Proof.
  unfold shardWork. rewrite elem_of_concat_map. split.
  - intros (n & Hn & H). apply elem_of_concat_map in H as (s & Hs & H).
    apply list_elem_of_fmap in H as (tc' & [= -> -> ->] & Htc).
    apply elem_of_changingShards in Hs as (Hs & <- & _). exists s. done.
  - intros (s & Hs & <- & <- & Htc).
    assert (Hc : changing s = true) by (unfold changing; destruct (ss_Changes s); [set_solver|done]).
    assert (Hin : s ∈ default [] (changingShardsByNamespace (pn_Shards plan) !! ss_Namespace s))
      by by apply elem_of_changingShards.
    exists (ss_Namespace s). split.
    + unfold sortedKeys. rewrite elem_of_Sort. apply elem_of_keys.
      destruct (changingShardsByNamespace (pn_Shards plan) !! ss_Namespace s); [eauto|set_solver].
    + apply elem_of_concat_map. exists s. split; [done|]. apply list_elem_of_fmap. eauto.
Qed.

(** A change of the plan, with the namespace and the name of its shard. *)
Definition planChange (plan : Plan) (ns shard : string) (tc : StoredChange) : Prop :=
  exists s, s ∈ pn_Shards plan /\ ss_Namespace s = ns /\ ss_Shard s = shard /\ tc ∈ ss_Changes s.

(** The changes of the plan's shards, in the order of the plan, one task each. *)
Definition planTasks (plan : Plan) (task : StoredChange -> string -> DriveTask) : list DriveTask :=
  concat (map (fun s => map (fun tc => task tc (ss_Shard s)) (ss_Changes s)) (pn_Shards plan)).

Lemma concat_perm {A B} (f g : A -> list B) l :
  (forall a, f a ≡ₚ g a) -> concat (map f l) ≡ₚ concat (map g l).
Proof. intros H. induction l as [|a l IH]; [done|]. cbn. by rewrite H, IH. Qed.

Lemma concat_concat_map {A B C} (f : A -> list B) (g : B -> list C) l :
  concat (map (fun a => concat (map g (f a))) l) = concat (map g (concat (map f l))).
Proof. induction l as [|a l IH]; [done|]. cbn. by rewrite map_app, concat_app, IH. Qed.

(** Grouping by a key that is always among the listed ones loses nothing. *)
Lemma grouped_perm {A} (key : A -> string) (ks : list string) (l : list A) :
  NoDup ks -> (forall a, a ∈ l -> key a ∈ ks) ->
  concat (map (fun k => List.filter (fun a => key a == k) l) ks) ≡ₚ l.
Proof.
  intros Hnd. induction l as [|a l IH]; intros Hks.
  { clear Hnd Hks. induction ks as [|k ks IH]; [done|]. exact IH. }
  etrans; [|apply perm_skip, IH; set_solver]. assert (key a ∈ ks) as Hin by (apply Hks; left). clear IH Hks.
  assert (forall ks, key a ∉ ks ->
    concat (map (fun k => List.filter (fun b => key b == k) (a :: l)) ks) =
    concat (map (fun k => List.filter (fun b => key b == k) l) ks)) as Hskip.
  { intros ks' Hn. f_equal. apply map_ext_in. intros k Hk%list_elem_of_In. cbn.
    rewrite (proj2 (String.eqb_neq _ _)); [done|]. by intros Heq; rewrite <- Heq in Hk. }
  induction ks as [|k ks IH]; [set_solver|]. apply NoDup_cons in Hnd as [Hk Hnd].
  cbn [map concat]. destruct (decide (key a = k)) as [<-|Hne].
  - rewrite Hskip by done. cbn [List.filter]. by rewrite String.eqb_refl.
  - cbn [List.filter]. rewrite (proj2 (String.eqb_neq _ _) Hne).
    apply elem_of_cons in Hin as [?|Hin]; [done|]. rewrite (IH Hnd Hin). by rewrite <- Permutation_middle.
Qed.

(** The loops of the fan-out visit every change of the plan's shards once. *)
Lemma shardWork_tasks plan task :
  map (fun '(_, shard, tc) => task tc shard) (shardWork plan) ≡ₚ planTasks plan task.
Proof.
  unfold shardWork, planTasks. set (m := changingShardsByNamespace (pn_Shards plan)).
  set (h s := map (fun tc => task tc (ss_Shard s)) (ss_Changes s)).
  assert (concat (map h (pn_Shards plan)) = concat (map h (List.filter changing (pn_Shards plan)))) as ->.
  { induction (pn_Shards plan) as [|s l IH]; [done|]. cbn. rewrite IH. unfold changing, h.
    destruct (ss_Changes s) eqn:Ec; cbn; [done|]. by rewrite Ec. }
  trans (concat (map (fun ns => concat (map h (default [] (m !! ns)))) (sortedKeys m))).
  { apply reflexive_eq. rewrite concat_map, map_map. f_equal. apply map_ext. intros ns.
    rewrite concat_map, map_map. f_equal. apply map_ext. intros s. by rewrite map_map. }
  rewrite concat_concat_map.
  assert (concat (map (fun ns => default [] (m !! ns)) (sortedKeys m)) ≡ₚ List.filter changing (pn_Shards plan)) as Hp.
  { etrans; [apply concat_perm; exact (changingShards_perm (pn_Shards plan))|]. apply grouped_perm.
    - apply NoDup_Sort, NoDup_fst_map_to_list.
    - intros s [Hs Hc]%list_elem_of_In%filter_In. apply list_elem_of_In in Hs.
      unfold sortedKeys. rewrite elem_of_Sort. apply elem_of_keys.
      assert (s ∈ default [] (m !! ss_Namespace s)) as Hin by by apply elem_of_changingShards.
      destruct (m !! ss_Namespace s); [eauto|set_solver]. }
  by rewrite Hp.
Qed.

Lemma UnsafeDDLChanges_nil p :
  UnsafeDDLChanges p = [] ->
  (forall tc, tc ∈ FlatDDLChanges p -> RequiresUnsafeOptIn tc = false) /\
  (forall s tc, s ∈ pn_Shards p -> tc ∈ ss_Changes s -> RequiresUnsafeOptIn tc = false).
Proof.
  unfold UnsafeDDLChanges. intros H.
  assert (Hall : forall tc, tc ∈ (FlatDDLChanges p ++
     concat (map (fun shard => map (inNamespace (ss_Namespace shard)) (ss_Changes shard)) (pn_Shards p)))%list ->
     RequiresUnsafeOptIn tc = false).
  { intros tc Htc. destruct (RequiresUnsafeOptIn tc) eqn:E; [|done].
    assert (Hin : In tc []); [|done]. rewrite <- H. apply filter_In. by rewrite <- list_elem_of_In. }
  split; [set_solver|]. intros s tc Hs Htc. rewrite <- (inNamespace_unsafe (ss_Namespace s)). apply Hall.
  apply elem_of_app. right. apply elem_of_concat_map. exists s. split; [done|].
  apply list_elem_of_fmap. eauto.
Qed.

(** ** Lemmas: keys *)

Lemma key_join namespace shard table :
  ShardOperationKey namespace shard table = joinWith "/" [namespace; shard; table].
Proof. unfold ShardOperationKey. cbn [joinWith]. by rewrite ?sapp_assoc. Qed.

Lemma key_split namespace shard table :
  Forall (fun part => containsByte "/" part = false) [namespace; shard; table] ->
  splitOn "/" (ShardOperationKey namespace shard table) = [namespace; shard; table].
Proof. intros H. rewrite key_join. apply split_join; [done|]. by apply Forall_forall. Qed.

Lemma validate_parts namespace shard table :
  validateShardOperationKeyParts namespace shard table = None ->
  Forall (fun part => containsByte "/" part = false) [namespace; shard; table].
Proof.
  unfold validateShardOperationKeyParts, validateOperationKeyPart.
  destruct (containsByte "/" namespace) eqn:E1; [done|]. destruct (containsByte "/" shard) eqn:E2; [done|].
  destruct (containsByte "/" table) eqn:E3; [done|]. by repeat constructor.
Qed.

Lemma sapp_inv_l a b c : a ++ b = a ++ c -> b = c.
Proof. induction a as [|x a IH]; [done|]. rewrite !sapp_cons. intros [= H]. auto. Qed.

Definition groupKeyOf (deployment key : string) : string := deployment ++ String "000" key.

Lemma groupKey_inj d k d' k' :
  containsByte "000" d = false -> containsByte "000" d' = false ->
  groupKeyOf d k = groupKeyOf d' k' -> d = d' /\ k = k'.
Proof.
  unfold groupKeyOf. intros Hd Hd' H.
  assert (Hs : splitOn "000" (d ++ String "000" k) = splitOn "000" (d' ++ String "000" k')) by by rewrite H.
  rewrite !splitOn_app in Hs by done. injection Hs as -> _. split; [done|].
  apply sapp_inv_l in H. by injection H.
Qed.

(** ** Lemmas: the groups of a fan-out *)

Section Groups.
Context (plan : Plan) (environment : string) (applyOpts : ApplyOptions) (cutoverPolicy onFailure : string).

Abbreviation task := (buildApplyTask plan environment applyOpts).
Abbreviation step := (shardChangeStep plan environment applyOpts cutoverPolicy onFailure).

(** A group of shard work: its key is of a namespace, shard and table of the plan,
    and its tasks are changes of that table on that shard. *)
Definition shardGroup (targets : list ExecutionTarget) (g : OperationGroup) : Prop :=
  og_OperationKind g = ApplyOperationKindWork /\
  exists target ns shard table, target ∈ targets /\ og_Deployment g = xt_Deployment target /\
    og_Target g = xt_Target target /\
    og_OperationKey g = ShardOperationKey ns shard table /\
    Forall (fun part => containsByte "/" part = false) [ns; shard; table] /\
    (String.length (og_OperationKey g) <= applyOperationKeyMaxLen)%nat /\
    Forall (fun t => exists tc, t = task tc shard /\ planChange plan ns shard tc /\
                     sg_Table tc = table /\ (sg_Namespace tc = "" \/ sg_Namespace tc = ns)) (og_Tasks g).

(** A finalizer: it has no tasks. *)
Definition finalizerGroup (g : OperationGroup) : Prop :=
  og_OperationKind g = ApplyOperationKindGroupFinalizer /\ og_Tasks g = [] /\
  exists ns, ns ∈ vschemaFinalizerNamespaces plan /\ og_OperationKey g = finalizerOperationKey ns.

(** The tasks of the groups of a deployment. *)
Definition tasksFor (deployment : string) (groups : list OperationGroup) : list DriveTask :=
  concat (map og_Tasks (List.filter (fun g => og_Deployment g == deployment) groups)).

Abbreviation tasksOf d groups := (tasksFor d (map snd groups)).

(** The invariant of the loops. *)
Definition wfGroups (targets : list ExecutionTarget) (groups : keyedGroups) : Prop :=
  NoDup (omap fst groups) /\
  forall k g, (k, g) ∈ groups ->
    match k with
    | Some key => key = groupKeyOf (og_Deployment g) (og_OperationKey g) /\ og_Tasks g <> [] /\
                  shardGroup targets g
    | None => finalizerGroup g
    end.

Lemma tasksFor_cons d g groups : tasksFor d (g :: groups) = ((if og_Deployment g == d then og_Tasks g else []) ++ tasksFor d groups)%list.
Proof. unfold tasksFor. cbn. by destruct (_ == _). Qed.

Lemma tasks_addToGroup d key fresh t groups :
  og_Tasks fresh = [] -> (forall g, (Some key, g) ∈ groups -> og_Deployment g = og_Deployment fresh) ->
  tasksOf d (addToGroup key fresh t groups) ≡ₚ ((if og_Deployment fresh == d then [t] else []) ++ tasksOf d groups)%list.
Proof.
  intros Hf Hd. induction groups as [|[k g] groups IH]; cbn [addToGroup map snd].
  - rewrite tasksFor_cons. cbn. by rewrite Hf.
  - case_bool_decide as Hk; cbn [map snd]; rewrite !tasksFor_cons.
    + subst k. rewrite <- (Hd g) by left. cbn [addTask og_Deployment og_Tasks].
      destruct (og_Deployment g == d); [|done]. rewrite <- app_assoc. cbn [app]. by rewrite Permutation_middle.
    + rewrite IH by set_solver. rewrite !app_assoc. apply Permutation_app_tail, Permutation_app_comm.
Qed.

Lemma keys_addToGroup key fresh t groups :
  omap fst (addToGroup key fresh t groups) =
  if bool_decide (key ∈ omap fst groups) then omap fst groups else (omap fst groups ++ [key])%list.
Proof.
  induction groups as [|[k g] groups IH]; [done|]. cbn [addToGroup].
  destruct (decide (k = Some key)) as [->|Hk].
  - rewrite bool_decide_true by done. cbn. rewrite bool_decide_true by set_solver. done.
  - rewrite bool_decide_false by done. cbn. rewrite IH. destruct k as [k|]; [|done].
    destruct (decide (key ∈ omap fst groups)) as [Hin|Hn].
    + rewrite !bool_decide_true by set_solver. done.
    + rewrite (bool_decide_false _ Hn), bool_decide_false; [done|].
      intros [->|]%elem_of_cons; done.
Qed.

Lemma elem_addToGroup key fresh t groups k g :
  (k, g) ∈ addToGroup key fresh t groups ->
  (k, g) ∈ groups \/ (k = Some key /\ (g = addTask t fresh \/ exists g0, (Some key, g0) ∈ groups /\ g = addTask t g0)).
Proof.
  induction groups as [|[k0 g0] groups IH]; cbn.
  - intros [= -> ->]%list_elem_of_singleton. right. eauto.
  - case_bool_decide as Hk.
    + intros [[= -> ->]|Hin]%elem_of_cons; [|left; set_solver]. right. split; [done|]. right.
      exists g0. subst. set_solver.
    + intros [[= -> ->]|Hin]%elem_of_cons; [left; set_solver|].
      destruct (IH Hin) as [|[-> [|(g1 & ? & ?)]]]; [left; set_solver|right; eauto|].
      right. split; [done|]. right. exists g1. set_solver.
Qed.

Lemma wf_empty targets : wfGroups targets [].
Proof. split; [constructor|set_solver]. Qed.

(** The keys of the map tell the groups of shard work apart. *)
Lemma wf_distinct targets groups :
  wfGroups targets groups ->
  NoDup (map (fun g => (og_Deployment g, og_OperationKey g))
           (List.filter (fun g => og_OperationKind g == ApplyOperationKindWork) (map snd groups))).
Proof.
  intros [Hnd Hwf]. induction groups as [|[k g] groups IH]; [constructor|].
  assert (Hwf' : forall k g, (k, g) ∈ groups -> _) by (intros k' g' H'; apply (Hwf k' g'); set_solver).
  cbn. pose proof (Hwf k g (list_elem_of_here _ _)) as Hg. destruct k as [k|].
  - cbn in Hnd. apply NoDup_cons in Hnd as [Hn Hnd]. destruct Hg as (Hk & _ & Hkind & _).
    rewrite Hkind. cbn. constructor; [|by apply IH]. intros Hin.
    apply list_elem_of_fmap in Hin as (g' & Heq & Hin). injection Heq as Hd Ho.
    apply list_elem_of_In, filter_In in Hin as [Hin Hw].
    apply in_map_iff in Hin as ([k' g''] & [= ->] & Hin). apply list_elem_of_In in Hin.
    pose proof (Hwf' _ _ Hin) as Hg'. destruct k' as [k'|].
    + destruct Hg' as (Hk' & _). apply Hn. apply list_elem_of_omap. exists (Some k', g').
      split; [done|]. cbn. by rewrite Hk, Hk', Hd, Ho.
    + destruct Hg' as (Hkind' & _). by rewrite Hkind' in Hw.
  - destruct Hg as (Hkind & _). rewrite Hkind. cbn. by apply IH.
Qed.
Context (targets : list ExecutionTarget).
Hypothesis named : forall target, target ∈ targets -> containsByte "000" (xt_Deployment target) = false.

Lemma shardStep_wf target ns shard groups tc groups' :
  target ∈ targets -> (ns, shard, tc) ∈ shardWork plan ->
  step target ns shard groups tc = Ok groups' -> wfGroups targets groups ->
  wfGroups targets groups' /\
  forall d, tasksOf d groups' ≡ₚ ((if xt_Deployment target == d then [task tc shard] else []) ++ tasksOf d groups)%list.
Proof.
  intros Ht Hw Hstep [Hnd Hwf]. unfold shardChangeStep in Hstep.
  destruct (_ || _); [done|]. destruct (_ && _) eqn:Ens; [done|].
  destruct (validateShardOperationKeyParts _ _ _) eqn:Ev; [done|]. apply validate_parts in Ev.
  destruct (_ <? _)%nat eqn:El; [done|]. apply Nat.ltb_ge in El. injection Hstep as <-.
  set (fresh := newPendingApplyOperation _ _ _ _ _ _ _).
  assert (Hns : sg_Namespace tc = "" \/ sg_Namespace tc = ns).
  { apply andb_false_iff in Ens as [E|E]; apply negb_false_iff in E; reflect_guards; auto. }
  split; [|intros d; apply tasks_addToGroup; [done|]; intros g Hg; destruct (Hwf _ _ Hg) as
    (Hk & _ & _ & target0 & _ & _ & _ & Ht0 & Hd0 & _);
    apply groupKey_inj in Hk as [Hd _]; [done|by apply named|rewrite Hd0; by apply named]]. split.
  - rewrite keys_addToGroup. case_bool_decide; [done|]. apply NoDup_app. split; [done|].
    split; [set_solver|apply NoDup_singleton].
  - intros k g Hg. apply elem_addToGroup in Hg as [Hg|[-> [->|(g0 & Hg0 & ->)]]]; [by apply Hwf|..].
    + split; [done|]. split; [done|]. split; [done|].
      exists target, ns, shard, (sg_Table tc). do 6 (split; [done|]).
      constructor; [|done]. exists tc. split; [done|]. split; [by apply elem_of_shardWork|done].
    + destruct (Hwf _ _ Hg0) as (Hk & _ & Hkind & target0 & ns0 & shard0 & table0 & Ht0 & Hd0 & Hx0 & Hkey0 & Hp0 & Hl0 & Hts0).
      apply groupKey_inj in Hk as [Hd Hk]; [|by apply named|rewrite Hd0; by apply named].
      assert (E : [ns0; shard0; table0] = [ns; shard; sg_Table tc]).
      { rewrite <- (key_split _ _ _ Ev), <- (key_split _ _ _ Hp0). by rewrite Hk, <- Hkey0. }
      injection E as -> -> ->.
      cbn. split; [by rewrite <- Hd, <- Hk|]. split; [by destruct (og_Tasks g0)|]. split; [done|].
      exists target0, ns, shard, (sg_Table tc). do 6 (split; [done|]).
      apply Forall_app. split; [done|]. constructor; [|done].
      exists tc. split; [done|]. split; [by apply elem_of_shardWork|done].
Qed.

Lemma work_wf target work groups groups' :
  target ∈ targets -> (forall w, w ∈ work -> w ∈ shardWork plan) ->
  foldE (fun groups '(ns, shard, tc) => step target ns shard groups tc) work groups = Ok groups' ->
  wfGroups targets groups ->
  wfGroups targets groups' /\
  forall d, tasksOf d groups' ≡ₚ
    ((if xt_Deployment target == d then map (fun '(_, shard, tc) => task tc shard) work else []) ++ tasksOf d groups)%list.
Proof.
  intros Ht. revert groups. induction work as [|[[ns shard] tc] work IH]; intros groups Hw; cbn [foldE].
  { intros [= <-] H. split; [done|]. intros d. by destruct (_ == _). }
  destruct (step target ns shard groups tc) as [g1|] eqn:E; [|done]. intros Hf Hwf.
  destruct (shardStep_wf target ns shard groups tc g1 Ht (Hw _ (list_elem_of_here _ _)) E Hwf) as [Hwf1 Hp1].
  destruct (IH g1) as [H1 H2]; [set_solver|done|done|]. split; [done|]. intros d. rewrite H2, Hp1.
  destruct (_ == _); [|done]. cbn. by rewrite Permutation_middle.
Qed.

Lemma finalizers_wf target namespaces groups groups' :
  (forall ns, ns ∈ namespaces -> ns ∈ vschemaFinalizerNamespaces plan) ->
  foldE (finalizerStep cutoverPolicy onFailure target) namespaces groups = Ok groups' ->
  wfGroups targets groups -> wfGroups targets groups' /\ forall d, tasksOf d groups' = tasksOf d groups.
Proof.
  revert groups. induction namespaces as [|ns namespaces IH]; intros groups Hn; cbn [foldE].
  { intros [= <-] H. done. }
  unfold finalizerStep at 1. destruct (validateOperationKeyPart _ _); [done|]. destruct (_ <? _)%nat; [done|].
  intros Hf [Hnd Hwf]. apply IH in Hf; [|set_solver|].
  - destruct Hf as [Hwf' Hf]. split; [done|]. intros d. rewrite Hf. unfold tasksFor.
    rewrite map_app, List.filter_app, map_app, concat_app. cbn. destruct (_ == _); apply app_nil_r.
  - split; [by rewrite omap_app, app_nil_r|]. intros k g [Hg|Hg]%elem_of_app; [by apply Hwf|].
    apply list_elem_of_singleton in Hg as [= -> ->]. split; [done|]. split; [done|]. exists ns. set_solver.
Qed.

Lemma targets_wf ts groups groups' :
  (forall t, t ∈ ts -> t ∈ targets) ->
  foldE (targetGroups plan environment applyOpts cutoverPolicy onFailure) ts groups = Ok groups' ->
  wfGroups targets groups ->
  wfGroups targets groups' /\
  forall d, tasksOf d groups' ≡ₚ
    (concat (map (fun _ => planTasks plan task) (List.filter (fun t => xt_Deployment t == d) ts)) ++ tasksOf d groups)%list.
Proof.
  revert groups. induction ts as [|t ts IH]; intros groups Ht; cbn [foldE].
  { intros [= <-] H. done. }
  unfold targetGroups at 1. destruct (foldE _ (shardWork plan) groups) as [g1|] eqn:E1; [|done].
  destruct (foldE (finalizerStep _ _ _) _ g1) as [g2|] eqn:E2; [|done]. intros Hf Hwf.
  destruct (work_wf t (shardWork plan) groups g1) as [Hwf1 Hp1]; [set_solver|done|done|done|].
  destruct (finalizers_wf t (vschemaFinalizerNamespaces plan) g1 g2) as [Hwf2 Hp2]; [done|done|done|].
  destruct (IH g2) as [H1 H2]; [set_solver|done|done|]. split; [done|].
  intros d. rewrite H2, Hp2, Hp1. cbn [List.filter]. destruct (_ == d); [|done]. rewrite shardWork_tasks.
  cbn [map concat]. rewrite !app_assoc. apply Permutation_app_tail, Permutation_app_comm.
Qed.

End Groups.

(** ** Lemmas: options *)

Lemma option_putIf b k v m k' :
  option_ (putIf b k v m) k' = if b && (k' == k) then v else option_ m k'.
Proof.
  unfold option_, putIf. destruct b; cbn; [|done]. destruct (k' == k) eqn:E; reflect_guards.
  - subst. by rewrite lookup_insert_eq.
  - by rewrite lookup_insert_ne.
Qed.

Lemma option_empty k : option_ ∅ k = "".
Proof. unfold option_. by rewrite lookup_empty. Qed.

Lemma flag_read b : ((if b : bool then "true" else "") == "true") = b.
Proof. by destruct b. Qed.

Lemma text_read v : (if v != "" then v else "") = v.
Proof. destruct (v != "") eqn:E; reflect_guards; done. Qed.

(** The volume survives within the range every engine shares. *)
Lemma volume_read v :
  (if (if 0 <? v then Itoa v else "") != "" then
     match Atoi (if 0 <? v then Itoa v else "") with
     | Some volume => if (1 <=? volume) && (volume <=? 11) then volume else 0
     | None => 0
     end
   else 0) = if (MinVolume <=? v) && (v <=? MaxVolume) then v else 0.
Proof.
  unfold MinVolume, MaxVolume. destruct (0 <? v) eqn:E0; cbn [negb].
  - apply Z.ltb_lt in E0. destruct (Itoa v != "") eqn:Ei; [|reflect_guards; by apply Itoa_nonempty in Ei].
    replace (1 <=? v) with true by (symmetry; apply Z.leb_le; lia). cbn [andb].
    unfold Atoi. rewrite ParseInt_Itoa. destruct (v <=? 11) eqn:E11.
    + apply Z.leb_le in E11. destruct (_ && _) eqn:Er.
      * replace (1 <=? v) with true by (symmetry; apply Z.leb_le; lia).
        by replace (v <=? 11) with true by (symmetry; apply Z.leb_le; lia).
      * apply andb_false_iff in Er as [Er%Z.leb_gt|Er%Z.ltb_ge]; cbn in Er; lia.
    + destruct (_ && _); [|done]. by rewrite E11, andb_false_r.
  - replace (1 <=? v) with false by (symmetry; apply Z.leb_gt; apply Z.ltb_ge in E0; lia). done.
Qed.


(** ** Lemmas: the plan store *)

Definition storedShards (m : gmap string NamespacePlanData) : list StoredShard :=
  concat (map (fun '(_, nsData) => nd_Shards nsData) (map_to_list m)).

Lemma storedShards_insert m ns nsData :
  storedShards (<[ns := nsData]> m) ≡ₚ (nd_Shards nsData ++ storedShards (delete ns m))%list.
Proof.
  unfold storedShards. rewrite <- insert_delete_eq.
  rewrite (map_to_list_insert (delete ns m) ns nsData) by apply lookup_delete_eq. done.
Qed.

Lemma storedShards_lookup m ns :
  storedShards m ≡ₚ (match m !! ns with Some d => nd_Shards d | None => [] end ++ storedShards (delete ns m))%list.
Proof.
  destruct (m !! ns) as [d|] eqn:E; [|by rewrite delete_id].
  rewrite <- (insert_id m ns d E) at 1. apply storedShards_insert.
Qed.

Definition normalized (s : StoredShard) : StoredShard := renamed (planShardNamespace (ss_Namespace s)) s.

Lemma putShards_perm shards m :
  storedShards (fold_left putShard shards m) ≡ₚ (map normalized shards ++ storedShards m)%list.
Proof.
  revert m. induction shards as [|s shards IH]; intros m; [done|]. cbn [fold_left map app].
  rewrite IH. unfold putShard. rewrite storedShards_insert.
  rewrite (storedShards_lookup m (planShardNamespace (ss_Namespace s))). fold (normalized s).
  destruct (m !! planShardNamespace (ss_Namespace s)) as [d|]; cbn.
  - rewrite <- !app_assoc. cbn. rewrite <- (Permutation_middle (nd_Shards d)). symmetry. apply Permutation_middle.
  - by rewrite Permutation_middle.
Qed.

Lemma named_namespace s : ss_Namespace (normalized s) <> "".
Proof. cbn. unfold planShardNamespace. destruct (ss_Namespace s == "") eqn:E; reflect_guards; done. Qed.

Lemma keep_none (m : gmap string NamespacePlanData) :
  storedShards ((fun d => withShards d []) <$> m) = [].
Proof.
  unfold storedShards. rewrite map_to_list_fmap. induction (map_to_list m) as [|[k d] l IH]; [done|]. cbn. done.
Qed.

(** ** Properties: round trips *)

(** Shard operation keys round trip.  A key parses as shard work on a namespace,
    shard and table if and only if it is their key, none is empty and none contains
    the delimiter. *)
Theorem shard_key_roundtrip key namespace shard table :
  parseShardOperationKey key = Some (namespace, shard, table) <->
  key = ShardOperationKey namespace shard table /\
  Forall (fun part => part <> "" /\ containsByte "/" part = false) [namespace; shard; table].
Proof.
  unfold parseShardOperationKey. rewrite key_join. split.
  - intros H. pose proof (join_split "/" key) as Hj. pose proof (splitOn_pieces "/" key) as Hp.
    destruct (splitOn "/" key) as [|a [|b [|c [|]]]]; try done.
    destruct (_ || _) eqn:E; [done|]. injection H as -> -> ->. reflect_guards. split; [done|].
    repeat constructor; try tauto; apply Hp; set_solver.
  - intros [-> H]. rewrite split_join; [|done|].
    + inversion H as [|? ? [H1 _] H']; subst. inversion H' as [|? ? [H2 _] H'']; subst.
      inversion H'' as [|? ? [H3 _] _]; subst.
      destruct (namespace == "") eqn:E1; reflect_guards; [done|].
      destruct (shard == "") eqn:E2; reflect_guards; [done|].
      destruct (table == "") eqn:E3; reflect_guards; done.
    + intros w Hw. rewrite Forall_forall in H. by apply H.
Qed.

(** Options survive the wire.  Decoding the string map an apply's options are
    sent as gives the options back, the volume only where it is in the range every
    engine shares. *)
Theorem options_roundtrip o :
  ApplyOptionsFromMap (Map o) =
  {| ao_AllowUnsafe := ao_AllowUnsafe o; ao_Branch := ao_Branch o; ao_DeferCutover := ao_DeferCutover o;
     ao_DeferDeploy := ao_DeferDeploy o; ao_SkipRevert := ao_SkipRevert o;
     ao_Volume := if (MinVolume <=? ao_Volume o) && (ao_Volume o <=? MaxVolume) then ao_Volume o else 0;
     ao_Target := ao_Target o; ao_Rollback := ao_Rollback o |}.
Proof.
  unfold ApplyOptionsFromMap, Map. rewrite !option_putIf, !option_empty. cbn [String.eqb Ascii.eqb Bool.eqb].
  destruct o as [au br dc dd sr vo ta rb].
  cbn [ao_AllowUnsafe ao_Branch ao_DeferCutover ao_DeferDeploy ao_SkipRevert ao_Volume ao_Target ao_Rollback].
  rewrite !andb_false_r, !andb_true_r, !flag_read, !text_read, volume_read. done.
Qed.

(** The shard rows of a plan round trip.  Reading back what the plan store
    writes for the shard plans of a plan gives those shard plans, the nameless
    namespace as default, sorted by namespace and shard. *)
Theorem plan_shards_roundtrip p (Hshards : pn_Shards p <> []) :
  shardPlansFromNamespaces (namespacesWithShardPlans p) ≡ₚ map normalized (pn_Shards p).
Proof.
  unfold shardPlansFromNamespaces, sortedShardPlans, namespacesWithShardPlans.
  rewrite merge_sort_Permutation. 
  set (m := fold_left putShard _ _).
  assert (Hm : storedShards m ≡ₚ map normalized (pn_Shards p)).
  { unfold m. rewrite putShards_perm. destruct (pn_Shards p) as [|s l]; [done|].
    rewrite keep_none, app_nil_r. unfold sortedShardPlans. by rewrite merge_sort_Permutation. }
  assert (Hid : forall s, s ∈ storedShards m -> ss_Namespace s <> "").
  { intros s Hs. rewrite Hm in Hs. apply list_elem_of_fmap in Hs as (s' & -> & _). apply named_namespace. }
  rewrite <- Hm. apply reflexive_eq. clear Hm. unfold storedShards in *. clearbody m.
  induction (map_to_list m) as [|[k d] l IH]; [done|]. cbn in *. f_equal; [|apply IH; set_solver].
  rewrite <- (map_id (nd_Shards d)) at 2. apply map_ext_in. intros s Hs%list_elem_of_In.
  assert (ss_Namespace s <> "") by (apply Hid; set_solver).
  by destruct (ss_Namespace s == "") eqn:E; reflect_guards.
Qed.

(** ** Properties of the fan-out *)

Section FanoutProperties.
Context (plan : Plan) (environment : string) (applyOpts : ApplyOptions) (cutoverPolicy onFailure : string).

(** What a successful sharded fan-out is. *)
Lemma sharded_wf targets groups :
  (forall target, target ∈ targets -> containsByte "000" (xt_Deployment target) = false) ->
  buildShardedApplyOperationGroups plan environment applyOpts cutoverPolicy onFailure targets = Ok groups ->
  exists kg, groups = map snd kg /\ wfGroups plan environment applyOpts targets kg /\
    forall d, tasksFor d (map snd kg) ≡ₚ concat (map (fun _ => planTasks plan (buildApplyTask plan environment applyOpts))
                                        (List.filter (fun t => xt_Deployment t == d) targets)).
Proof.
  intros Hnamed Hok. unfold buildShardedApplyOperationGroups in Hok.
  destruct (foldE (targetGroups _ _ _ _ _) targets []) as [kg|] eqn:E; [|done]. injection Hok as <-.
  destruct (targets_wf plan environment applyOpts cutoverPolicy onFailure targets Hnamed targets [] kg)
    as [Hwf Hp]; [done|done|apply wf_empty|].
  exists kg. split; [done|]. split; [done|]. intros d. rewrite Hp. cbn. by rewrite app_nil_r.
Qed.

(** C33: the sharded fan-out is exact.  When it succeeds, the tasks of the groups of
    a deployment are, up to order, one for each change of each of the plan's shards,
    for each target that names the deployment (so each change once where the targets
    name distinct deployments, and nothing for other deployments).  Every group of
    work has tasks, one key of a namespace, shard and table within the column, and
    only tasks of changes of the plan to that table on that shard; every other group
    is a finalizer without tasks; and no two groups of work share deployment and key.
    The names of deployments contain no NUL byte. *)
Theorem fanout_exact targets groups
    (Hnamed : forall target, target ∈ targets -> containsByte "000" (xt_Deployment target) = false)
    (Hok : buildShardedApplyOperationGroups plan environment applyOpts cutoverPolicy onFailure targets = Ok groups) :
  (forall deployment, tasksFor deployment groups ≡ₚ
     concat (map (fun _ => planTasks plan (buildApplyTask plan environment applyOpts))
               (List.filter (fun target => xt_Deployment target == deployment) targets))) /\
  (forall g, g ∈ groups ->
     (og_Tasks g <> [] /\ shardGroup plan environment applyOpts targets g) \/ finalizerGroup plan g) /\
  NoDup (map (fun g => (og_Deployment g, og_OperationKey g))
           (List.filter (fun g => og_OperationKind g == ApplyOperationKindWork) groups)).
Proof.
  destruct (sharded_wf targets groups Hnamed Hok) as (kg & -> & Hwf & Hp). split; [done|split].
  - intros g Hg. apply list_elem_of_fmap in Hg as ([k g'] & -> & Hin). destruct Hwf as [_ Hwf].
    specialize (Hwf _ _ Hin). destruct k; [left|right]; tauto.
  - by apply (wf_distinct plan environment applyOpts targets kg).
Qed.

(** Every change of a shard plan that came over the wire names its namespace. *)
Lemma wire_changes_named {ST : Type} `{!StatementTypes ST} shards out s tc :
  protoShardPlansToStorage (ST := ST) shards = Ok out -> s ∈ out -> tc ∈ ss_Changes s ->
  sg_Namespace tc = ss_Namespace s.
Proof.
  assert (Hc : forall ns changes l tc, shardChangesToStorage (ST := ST) ns changes = Ok l -> tc ∈ l ->
            sg_Namespace tc = ns).
  { intros ns changes. induction changes as [|[ch|] changes IH]; intros l tc'; cbn; [|..|done].
    - intros [= <-]. set_solver.
    - destruct (_ || _); [done|]. destruct (tc_ChangeType ch); try done.
      all: destruct (_ && _); [done|]; destruct (shardChangesToStorage ns changes); [|done];
        intros [= <-] [->|]%elem_of_cons; [done|eauto]. }
  revert out. induction shards as [|[sp|] shards IH]; intros out; cbn; [|..|done].
  - intros [= <-]. set_solver.
  - destruct (TrimSpace (sp_Shard sp) == ""); [done|].
    destruct (shardChangesToStorage _ _) as [changes|] eqn:E; [|done].
    destruct (protoShardPlansToStorage shards) as [out'|] eqn:E'; [|done].
    intros [= <-] [->|Hs]%elem_of_cons Htc; [cbn in *; by eapply Hc|]. by eapply IH.
Qed.

(** Dispatched shard work is loadable.  A plan whose shard plans came over the
    wire fans out into groups whose tasks the task loaders return: the key of every
    group matches the namespace, shard and table of each of its tasks. *)
Theorem fanout_tasks_load {ST : Type} `{!StatementTypes ST} shards targets groups
    (Hwire : protoShardPlansToStorage (ST := ST) shards = Ok (pn_Shards plan))
    (Hnamed : forall target, target ∈ targets -> containsByte "000" (xt_Deployment target) = false)
    (Hok : buildShardedApplyOperationGroups plan environment applyOpts cutoverPolicy onFailure targets = Ok groups) :
  forall g t, g ∈ groups -> t ∈ og_Tasks g -> isDriveTask (og_OperationKind g) (og_OperationKey g) t = true.
Proof.
  intros g t Hg Ht. destruct (sharded_wf targets groups Hnamed Hok) as (kg & -> & [_ Hwf] & _).
  apply list_elem_of_fmap in Hg as ([[k|] g'] & -> & Hin); specialize (Hwf _ _ Hin); cbn in *.
  - destruct Hwf as (_ & _ & Hkind & target & ns & shard & table & _ & _ & _ & Hkey & _ & _ & Htasks).
    rewrite Forall_forall in Htasks. destruct (Htasks t Ht) as (tc & -> & Hw & Htab & _).
    destruct Hw as (s & Hs & Hns & _ & Htc).
    pose proof (wire_changes_named shards _ s tc Hwire Hs Htc) as Hn.
    unfold isDriveTask. rewrite Hkind, Hkey. cbn. rewrite Hn, Hns, Htab.
    unfold ShardOperationKey. by rewrite String.eqb_refl, orb_true_r.
  - destruct Hwf as (_ & Hnil & _). rewrite Hnil in Ht. set_solver.
Qed.

(** C38: nothing is dropped without opt-in.  If a stored plan is accepted without the
    unsafe opt-in, no task of the operations it is turned into drops a table,
    whichever way it fans out. *)
Theorem no_drop_without_opt_in targets groups sharded
    (Hnamed : forall target, target ∈ targets -> containsByte "000" (xt_Deployment target) = false)
    (Hopt : ao_AllowUnsafe applyOpts = false)
    (Hgate : rejectUnsafeStoredPlanWithoutOptIn plan applyOpts = None)
    (Hok : buildApplyOperationGroups plan environment applyOpts cutoverPolicy onFailure
             (FlatDDLChanges plan) targets = Ok (groups, sharded)) :
  forall g t, g ∈ groups -> t ∈ og_Tasks g -> EqualFold (dt_DDLAction t) "drop" = false.
Proof.
  unfold rejectUnsafeStoredPlanWithoutOptIn in Hgate. rewrite Hopt in Hgate.
  destruct (UnsafeDDLChanges plan) eqn:Eu; [|done]. apply UnsafeDDLChanges_nil in Eu as [Hflat Hshard].
  assert (Hsafe : forall tc shard, RequiresUnsafeOptIn tc = false ->
            EqualFold (dt_DDLAction (buildApplyTask plan environment applyOpts tc shard)) "drop" = false).
  { intros tc shard H. unfold RequiresUnsafeOptIn in H. by apply orb_false_iff in H as [_ ?]. }
  intros g t Hg Ht. unfold buildApplyOperationGroups in Hok. destruct (canBuildShardedOperationGroups _ _).
  - destruct (buildShardedApplyOperationGroups _ _ _ _ _ _) as [gs|] eqn:E; [|done]. injection Hok as <- <-.
    destruct (sharded_wf targets gs Hnamed E) as (kg & -> & _ & Hp).
    assert (Hin : t ∈ tasksFor (og_Deployment g) (map snd kg)).
    { unfold tasksFor. apply elem_of_concat_map. exists g. split; [|done].
      apply list_elem_of_In, filter_In. rewrite String.eqb_refl. split; [by apply list_elem_of_In|done]. }
    rewrite Hp in Hin. apply elem_of_concat_map in Hin as (_ & _ & Hin).
    apply elem_of_concat_map in Hin as (s & Hs & Hin). apply list_elem_of_fmap in Hin as (tc & -> & Htc).
    apply Hsafe. by eapply Hshard.
  - injection Hok as <- <-. apply list_elem_of_fmap in Hg as (target & -> & _). cbn in Ht.
    apply list_elem_of_fmap in Ht as (tc & -> & Htc). by apply Hsafe, Hflat.
Qed.
End FanoutProperties.

(** ** Samples *)

Definition sampleStored (ns table op ddl : string) : StoredChange :=
  {| sg_Namespace := ns; sg_Table := table; sg_DDL := ddl; sg_Operation := op; sg_IsUnsafe := false;
     sg_UnsafeReason := "" |}.
Definition sampleTables (changes : list StoredChange) : NamespacePlanData :=
  {| nd_Tables := changes; nd_Shards := []; nd_OriginalFilesCaptured := false; nd_Artifacts := ∅ |}.
Definition sampleShard (shard : string) (changes : list StoredChange) : StoredShard :=
  {| ss_Shard := shard; ss_Namespace := "commerce"; ss_Changes := changes |}.
Definition samplePlanOf (namespaces : gmap string NamespacePlanData) (shards : list StoredShard) : Plan :=
  {| pn_ID := 1; pn_PlanIdentifier := "plan-1"; pn_Database := "shop"; pn_DatabaseType := "strata"; pn_Repository := "org/app";
     pn_PullRequest := 7; pn_Namespaces := namespaces; pn_Shards := shards;
     pn_SchemaFiles := ∅ |}.

Definition addX := sampleStored "commerce" "orders" "alter" "ALTER TABLE orders ADD x INT".
Definition addY := sampleStored "commerce" "orders" "alter" "ALTER TABLE orders ADD y INT".
Definition samplePlan : Plan :=
  samplePlanOf {["commerce" := sampleTables [addX]]} [sampleShard "80-" [addX]; sampleShard "-80" [addX]].
Definition sampleTargets : list ExecutionTarget :=
  [{| xt_DatabaseType := "strata"; xt_Deployment := "us"; xt_Target := "shop" |}].

Lemma sampleTargets_named target :
  target ∈ sampleTargets -> containsByte "000" (xt_Deployment target) = false.
Proof. by intros ->%list_elem_of_singleton. Qed.

Lemma plan_shards_roundtrip_witness :
  shardPlansFromNamespaces (namespacesWithShardPlans samplePlan) ≡ₚ
  [sampleShard "80-" [addX]; sampleShard "-80" [addX]].
Proof. apply (plan_shards_roundtrip samplePlan). cbn. congruence. Defined.

Lemma fanout_exact_witness :
  exists groups, buildShardedApplyOperationGroups samplePlan "production" noOptions "rolling" "halt" sampleTargets
    = Ok groups /\
  map og_OperationKey groups = ["commerce/-80/orders"; "commerce/80-/orders"] /\
  tasksFor "us" groups ≡ₚ
    [buildApplyTask samplePlan "production" noOptions addX "80-";
     buildApplyTask samplePlan "production" noOptions addX "-80"].
Proof.
  destruct (buildShardedApplyOperationGroups samplePlan "production" noOptions "rolling" "halt" sampleTargets)
    as [groups|] eqn:E; [|vm_compute in E; discriminate E].
  exists groups. split; [reflexivity|].
  pose proof (fanout_exact samplePlan "production" noOptions "rolling" "halt" sampleTargets groups
                sampleTargets_named E) as (Hp & _ & _).
  split; [vm_compute in E; injection E as <-; reflexivity|]. exact (Hp "us").
Defined.

(** The shard plans of the sample as the data plane reports them. *)
Definition sampleWire : list (option ShardPlan) :=
  let change := Some {| tc_Namespace := ""; tc_TableName := "orders"; tc_Ddl := "ALTER TABLE orders ADD x INT";
                        tc_ChangeType := CHANGE_TYPE_ALTER; tc_IsUnsafe := false; tc_UnsafeReason := "" |} in
  [Some {| sp_Shard := " 80-"; sp_Namespace := "commerce"; sp_Changes := [change] |};
   Some {| sp_Shard := "-80"; sp_Namespace := "commerce"; sp_Changes := [change] |}].

Lemma fanout_tasks_load_witness :
  exists groups, buildShardedApplyOperationGroups samplePlan "production" noOptions "rolling" "halt" sampleTargets
    = Ok groups /\ length (concat (map og_Tasks groups)) = 2%nat /\
  forall g t, g ∈ groups -> t ∈ og_Tasks g -> isDriveTask (og_OperationKind g) (og_OperationKey g) t = true.
Proof.
  destruct (buildShardedApplyOperationGroups samplePlan "production" noOptions "rolling" "halt" sampleTargets)
    as [groups|] eqn:E; [|vm_compute in E; discriminate E].
  exists groups. split; [reflexivity|]. split; [vm_compute in E; injection E as <-; reflexivity|].
  apply (@fanout_tasks_load samplePlan "production" noOptions "rolling" "halt" _ sampleStatements
           sampleWire sampleTargets groups); [vm_compute; reflexivity|apply sampleTargets_named|exact E].
Defined.

Lemma no_drop_without_opt_in_witness :
  exists groups sharded, buildApplyOperationGroups samplePlan "production" noOptions "rolling" "halt"
    (FlatDDLChanges samplePlan) sampleTargets = Ok (groups, sharded) /\ sharded = true /\
  forall g t, g ∈ groups -> t ∈ og_Tasks g -> EqualFold (dt_DDLAction t) "drop" = false.
Proof.
  destruct (buildApplyOperationGroups samplePlan "production" noOptions "rolling" "halt"
    (FlatDDLChanges samplePlan) sampleTargets) as [[groups sharded]|] eqn:E; [|vm_compute in E; discriminate E].
  exists groups, sharded. split; [reflexivity|]. split; [vm_compute in E; injection E as _ <-; reflexivity|].
  apply (no_drop_without_opt_in samplePlan "production" noOptions "rolling" "halt" sampleTargets groups sharded);
    [apply sampleTargets_named|reflexivity|vm_compute; reflexivity|exact E].
Defined.

(** A mixed plan is not fanned out.  Shards of one namespace that diverge keep
    their own statements only while every changed namespace is sharded: one change of
    an unsharded namespace makes the whole plan one operation per deployment, built
    from the collapsed view, and the statement of the second shard is in no task. *)
Theorem mixed_plan_drops_shard_changes :
  let shards := [sampleShard "-80" [addX]; sampleShard "80-" [addY]] in
  let lone := samplePlanOf {["commerce" := sampleTables [addX]]} shards in
  let mixed := samplePlanOf (<["audit" := sampleTables [sampleStored "" "log" "create" "CREATE TABLE log (id INT)"]]>
                 {["commerce" := sampleTables [addX]]}) shards in
  let ddls p := match buildApplyOperationGroups p "production" noOptions "rolling" "halt"
                        (FlatDDLChanges p) sampleTargets with
                | Ok (groups, _) => map dt_DDL (concat (map og_Tasks groups))
                | Err _ => []
                end in
  ddls lone = [sg_DDL addX; sg_DDL addY] /\
  ddls mixed = ["CREATE TABLE log (id INT)"; sg_DDL addX].
Proof. by vm_compute. Qed.
