(* ===== verification/Conflict.v ===== *)
(** * Starting an apply on the data plane (tern/local_apply.go)

    Before a new apply is stored, the client checks that no other task works on the
    database.  The check believes the engine over the store: it settles tasks that
    the engine reports as ended, tasks the engine knows nothing about although the
    store has them in flight, and pending tasks of ended applies.  What is left
    blocks the new apply after ten attempts. *)

From S2P Require Import Prelude GoStrings State Convert Sql Store Operations Applies Control Projection Fencing Tasks Plane Fanout Stopping LocalControl Sequential.

Local Open Scope string_scope.
Local Open Scope Z_scope.

(** ** Kinds of drives *)

Definition groupedApplyMode (apply : Apply) (options : gmap string string) : string :=
  let opts := ApplyOptionsFromMap options in
  if (a_DatabaseType apply == DatabaseTypeMySQL) && ao_DeferCutover opts then "spirit_atomic_cutover"
  else if a_DatabaseType apply == DatabaseTypeVitess then "vitess_deploy_request"
  else "grouped_engine_apply".

Definition usesGroupedApply (apply : Apply) (options : gmap string string) : bool :=
  if a_DatabaseType apply == DatabaseTypeVitess then true
  else (a_DatabaseType apply == DatabaseTypeMySQL) && ao_DeferCutover (ApplyOptionsFromMap options).

(** [deriveOverallState]: a running state wins, the last one of the list. *)
Definition deriveOverallState (tasks : list TaskRec) : string :=
  let has st := existsb (fun t => tk_State t == st) tasks in
  let running := List.filter (fun t => oneOf (tk_State t) [Task.Running; Task.WaitingForCutover; Task.CuttingOver]) tasks in
  match tasks with
  | [] => Task.Pending
  | first :: _ =>
      match last running with
      | Some t => tk_State t
      | None =>
          if has Task.Failed || has Task.Cancelled then Task.Failed
          else if has Task.FailedRetryable then Task.FailedRetryable
          else if has Task.Pending then Task.Pending
          else if has Task.Stopped then Task.Stopped
          else if has Task.RevertWindow then Task.RevertWindow
          else if has Task.Completed then Task.Completed
          else tk_State first
      end
  end.

(** ** Conflicts *)

(** The plan of the new apply, as far as the check reads it. *)
Record conflictPlan := { cp_Database : string; cp_DatabaseType : string }.

Definition noActiveSchemaChange : string := "No active schema change".

(** A task that is not terminal, of the plan's type, and on the same shard unless
    one of the two is database-wide. *)
Definition mayConflict (plan : conflictPlan) (dispatchShard : string) (t : TaskRec) : bool :=
  negb ((tk_DatabaseType t != cp_DatabaseType plan) || IsTerminalTaskState (tk_State t)) &&
  negb ((dispatchShard != "") && (tk_Shard t != "") && (tk_Shard t != dispatchShard)).

Section Conflict.
Context (E : EngineNames) (foundRows : bool) (clockNow : Z) (ctx : leaseCtx) (cfg : clientConfig).

Definition tryResolveOrphanedPendingTask (t : TaskRec) : prog plane bool :=
  if negb (IsState (tk_State t) [Task.Pending]) then Ret false else
  let! apply := readStore (findApply (tk_ApplyID t)) in
  match apply with
  | Err _ | Ok None => Ret false
  | Ok (Some a) =>
      if negb (IsTerminalApplyState (a_State a)) then Ret false else
      let t' := set_tk_State Task.Cancelled (set_tk_ErrorMessage
                  (Some "Task orphaned: its apply reached a terminal state before the task started")
                  (set_tk_CompletedAt (Some clockNow) (set_tk_UpdatedAt clockNow t))) in
      let! r := onStore (UpdateTask foundRows ctx t') in
      Ret match r with Ok _ => true | Err _ => false end
  end.

Definition tryResolveStaleTask (t : TaskRec) (database : string) : prog plane bool :=
  if negb (lc_HasEngine cfg) then Ret false else
  let! result := askEngine (fun v => ev_Progress v database (lc_TargetDSN cfg) None) in
  match result with
  | Err _ => Ret false
  | Ok p =>
      if EngineState_IsTerminal (pr_State (ep_Result p)) then
        let! _ := transitionTaskState foundRows clockNow ctx (set_tk_CompletedAt (Some clockNow) t)
                    (engineStateToStorage (pr_State (ep_Result p))) in
        Ret true
      else if pr_Message (ep_Result p) == noActiveSchemaChange then
        if negb (IsInFlightTaskState (tk_State t)) then Ret false else
        let! _ := transitionTaskState foundRows clockNow ctx
                    (set_tk_ErrorMessage (Some "Task abandoned: engine has no active schema change (server may have crashed)")
                       (set_tk_CompletedAt (Some clockNow) t)) Task.Failed in
        Ret true
      else Ret false
  end.

Fixpoint findBlockingTask (plan : conflictPlan) (dispatchShard : string) (tasks : list TaskRec) : prog plane string :=
  match tasks with
  | [] => Ret ""
  | t :: rest =>
      if negb (mayConflict plan dispatchShard t) then findBlockingTask plan dispatchShard rest else
      let! orphan := tryResolveOrphanedPendingTask t in
      if orphan : bool then findBlockingTask plan dispatchShard rest else
      let! stale := tryResolveStaleTask t (cp_Database plan) in
      if stale : bool then findBlockingTask plan dispatchShard rest
      else Ret (tk_TaskIdentifier t)
  end.

Definition maxConflictAttempts : nat := 10.

(** [left_] attempts are left; the sleep between two is part of the environment. *)
Fixpoint conflictAttempts (plan : conflictPlan) (dispatchShard : string) (left_ : nat) : prog plane (res unit) :=
  match left_ with
  | 0%nat => Ret (Ok tt)
  | Datatypes.S left_ =>
      try! existingTasks := readStore (GetByDatabase E (cp_Database plan)) in
      let! blocking := findBlockingTask plan dispatchShard existingTasks in
      if blocking == "" then Ret (Ok tt)
      else match left_ with
           | 0%nat => Ret (Err (Errorf ("schema change already in progress: blocking task " ++ blocking)))
           | _ => conflictAttempts plan dispatchShard left_
           end
  end.

Definition checkActiveTaskConflict (plan : conflictPlan) (dispatchShard : string) : prog plane (res unit) :=
  conflictAttempts plan dispatchShard maxConflictAttempts.
End Conflict.

(** ** What lets an apply start *)

(** The reason for which a task does not block: its apply was seen to have ended
    before the task started, or the engine was seen to report the end of a change on
    the database, or no change at all for a task in flight. *)
Definition unblocks (cfg : clientConfig) (database : string) (t : TaskRec) (w : plane) : Prop :=
  (IsState (tk_State t) [Task.Pending] = true /\
   exists a, findApply (tk_ApplyID t) (pl_db w) = Some a /\ IsTerminalApplyState (a_State a) = true) \/
  exists p, ev_Progress (pl_engine w) database (lc_TargetDSN cfg) None = Ok p /\
    (EngineState_IsTerminal (pr_State (ep_Result p)) = true \/
     (pr_Message (ep_Result p) = noActiveSchemaChange /\ IsInFlightTaskState (tk_State t) = true)).

Section Unblocked.
Context (E : EngineNames) (foundRows : bool) (clockNow : Z) (ctx : leaseCtx) (cfg : clientConfig).

Lemma orphan_sound database t :
  observes (tryResolveOrphanedPendingTask foundRows clockNow ctx t)
    (fun tr r => r = true -> exists w, w ∈ tr /\ unblocks cfg database t w).
Proof.
  unfold tryResolveOrphanedPendingTask. destruct (IsState _ _) eqn:Ep; cbn [negb]; [|by apply observes_ret].
  apply observes_exec; [intros; by apply observes_ret|]. intros w. cbn [snd read focus pbind].
  destruct (findApply (tk_ApplyID t) (pl_db w)) as [a|] eqn:Ea; cbn [snd read focus pbind]; [|by apply observes_ret].
  destruct (IsTerminalApplyState (a_State a)) eqn:Et; cbn [negb]; [|by apply observes_ret].
  eapply observes_impl; [apply observes_any|]. intros tr r _ _. exists w. split; [by left|]. left. eauto.
Qed.

Lemma stale_sound database t :
  observes (tryResolveStaleTask foundRows clockNow ctx cfg t database)
    (fun tr r => r = true -> exists w, w ∈ tr /\ unblocks cfg database t w).
Proof.
  unfold tryResolveStaleTask. destruct (negb (lc_HasEngine cfg)); [by apply observes_ret|].
  apply observes_exec; [intros; by apply observes_ret|]. intros w. cbn [snd pbind].
  destruct (ev_Progress _ _ _ _) as [p|e] eqn:Ep; [|by apply observes_ret].
  destruct (EngineState_IsTerminal _) eqn:Et.
  { eapply observes_impl; [apply observes_any|]. intros tr r _ _. exists w. split; [by left|]. right. eauto. }
  destruct (_ == noActiveSchemaChange) eqn:Em; [|by apply observes_ret]. reflect_guards.
  destruct (IsInFlightTaskState _) eqn:Ef; cbn [negb]; [|by apply observes_ret].
  eapply observes_impl; [apply observes_any|]. intros tr r _ _. exists w. split; [by left|]. right. eauto.
Qed.

Lemma blocking_sound plan shard ts :
  Forall (fun t => tk_TaskIdentifier t <> "") ts ->
  observes (findBlockingTask foundRows clockNow ctx cfg plan shard ts)
    (fun tr r => r = "" -> forall t, t ∈ ts -> mayConflict plan shard t = true ->
       exists w, w ∈ tr /\ unblocks cfg (cp_Database plan) t w).
Proof.
  induction ts as [|t ts IH]; intros Hid; cbn [findBlockingTask].
  { apply observes_ret. intros _ t Ht. by apply elem_of_nil in Ht. }
  apply Forall_cons in Hid as [Hne Hid]. specialize (IH Hid).
  destruct (mayConflict plan shard t) eqn:Ec; cbn [negb].
  2: { eapply observes_impl; [exact IH|]. intros tr r H Hr t' [->|Ht]%elem_of_cons Hc; [congruence|by eapply H]. }
  assert (Hnext : forall tr1, (exists w, w ∈ tr1 /\ unblocks cfg (cp_Database plan) t w) ->
    observes (findBlockingTask foundRows clockNow ctx cfg plan shard ts) (fun tr r => r = "" -> forall t', t' ∈ t :: ts ->
      mayConflict plan shard t' = true -> exists w, w ∈ (tr1 ++ tr)%list /\ unblocks cfg (cp_Database plan) t' w)).
  { intros tr1 (w & Hw & Hu). eapply observes_impl; [exact IH|]. intros tr r H Hr t' [->|Ht]%elem_of_cons Hc.
    - exists w. rewrite elem_of_app. auto.
    - destruct (H Hr t' Ht Hc) as (w' & Hw' & Hu'). exists w'. rewrite elem_of_app. auto. }
  eapply observes_bind; [apply (orphan_sound (cp_Database plan))|]. intros tr1 orphan Ho. cbv beta in Ho.
  destruct orphan; [by apply Hnext, Ho|].
  eapply observes_bind; [apply stale_sound|]. intros tr2 stale Hs. cbv beta in Hs. destruct stale.
  - destruct (Hs eq_refl) as (w & Hw & Hu). eapply observes_impl; [apply (Hnext (tr1 ++ tr2)%list)|].
    + exists w. rewrite elem_of_app. auto.
    + intros tr r H Hr t' Ht Hc. specialize (H Hr t' Ht Hc). by rewrite <- app_assoc in H.
  - by apply observes_ret.
Qed.

Definition named (w : plane) : Prop := forall t, t ∈ tasks (pl_db w) -> tk_TaskIdentifier t <> "".

Lemma attempts_sound plan shard k :
  observes (conflictAttempts E foundRows clockNow ctx cfg plan shard (Datatypes.S k))
    (fun tr r => r = Ok tt -> Forall named tr -> exists w0, w0 ∈ tr /\
       forall t, t ∈ GetByDatabase E (cp_Database plan) (pl_db w0) -> mayConflict plan shard t = true ->
         exists w, w ∈ tr /\ unblocks cfg (cp_Database plan) t w).
Proof.
  induction k as [|k IH]; cbn [conflictAttempts].
  all: apply observes_exec; [intros; by apply observes_ret|]; intros w0; cbn [snd read focus pbind].
  all: destruct (decide (Forall (fun t => tk_TaskIdentifier t <> "") (GetByDatabase E (cp_Database plan) (pl_db w0)))) as [Hn|Hn];
    [|eapply observes_impl; [apply observes_any|]; intros tr r _ _ Hall; exfalso; apply Hn, Forall_forall;
      intros t (t0 & Ht0 & _ & ->)%elem_GetByDatabase; apply Forall_cons in Hall as [Hw _]; exact (Hw t0 Ht0)].
  all: eapply observes_bind; [apply (blocking_sound plan shard _ Hn)|]; intros tr1 blocking Hb; cbv beta in Hb.
  all: destruct (blocking == "") eqn:Eb; reflect_guards.
  1, 3: apply observes_ret; intros _ _; exists w0; split; [by left|]; intros t Ht Hc;
    destruct (Hb Eb t Ht Hc) as (w & Hw & Hu); exists w; split; [|done]; rewrite app_nil_r; by right.
  - by apply observes_ret.
  - eapply observes_impl; [exact IH|]. intros tr r H Hr Hall.
    assert (Forall named tr) as Htr by (apply Forall_cons in Hall as [_ Hall]; apply Forall_app in Hall; tauto).
    destruct (H Hr Htr) as (w1 & Hw1 & H1). exists w1. split; [right; rewrite elem_of_app; auto|].
    intros t Ht Hc. destruct (H1 t Ht Hc) as (w2 & Hw2 & Hu). exists w2. split; [right; rewrite elem_of_app; auto|done].
Qed.
End Unblocked.

(** ** Properties *)

(** C14: an apply starts only past tasks that are known to have ended.  Whatever
    happens between its statements and whichever of them fail, when the conflict
    check lets a new apply start there was a moment at which it read the tasks of
    the database, and for every task it read that could conflict (not terminal, of
    the same type, on the same shard or database-wide) it saw either the apply of a
    task that had not started ended, or the engine report the end of a change on
    the database, or no change for a task the store had in flight.  A resting or
    pending task blocks as long as none of this is seen. *)
Theorem conflict_check_sound (E : EngineNames) (foundRows : bool) (clockNow : Z) (ctx : leaseCtx) (cfg : clientConfig)
    (plan : conflictPlan) (shard : string) env w w' n
    (Hrun : runE env 0 (checkActiveTaskConflict E foundRows clockNow ctx cfg plan shard) w = (w', Ok tt, n))
    (Hnamed : Forall named (trace env 0 (checkActiveTaskConflict E foundRows clockNow ctx cfg plan shard) w)) :
  let seen := trace env 0 (checkActiveTaskConflict E foundRows clockNow ctx cfg plan shard) w in
  exists w0, w0 ∈ seen /\
    forall t, t ∈ GetByDatabase E (cp_Database plan) (pl_db w0) -> mayConflict plan shard t = true ->
      exists u, u ∈ seen /\ unblocks cfg (cp_Database plan) t u.
Proof. exact (attempts_sound E foundRows clockNow ctx cfg plan shard 9 env 0%nat w w' (Ok tt) n Hrun eq_refl Hnamed). Qed.

(** A task of another apply is in flight for the store, the engine has no change:
    the task is failed and the new apply may start. *)
Lemma conflict_check_sound_witness :
  let t := exampleTask 7 "task_7" "t" "" Task.Running in
  let idle := {| ev_Plan := fun _ _ _ => Err transportError; ev_CutoverSignal := fun _ _ => None;
                 ev_Apply := fun _ => ([], Err transportError);
                 ev_Progress := fun _ _ _ => Ok {| ep_Result := {| pr_State := Engine.StatePending; Retryable := false;
                   pr_ErrorMessage := ""; pr_Message := noActiveSchemaChange |}; ep_Tables := []; ep_ResumeState := None |};
                 ev_Control := fun _ _ => Ok None; ev_Volume := fun _ => Ok None; ev_Validate := fun _ _ => None |} in
  let w := examplePlane (withTasks [t] (exampleStore (exampleApply Apply.Running) [] [])) idle in
  let plan := {| cp_Database := "orders"; cp_DatabaseType := "mysql" |} in
  let p := checkActiveTaskConflict documentedNames true 50 noLease (exampleClient DatabaseTypeMySQL) plan "" in
  tk_State <$> tasks (pl_db (run p w).1) = [Task.Failed] /\
  exists w0, w0 ∈ trace (fun _ => quiet) 0 p w /\
    forall t, t ∈ GetByDatabase documentedNames "orders" (pl_db w0) -> mayConflict plan "" t = true ->
      exists u, u ∈ trace (fun _ => quiet) 0 p w /\ unblocks (exampleClient DatabaseTypeMySQL) "orders" t u.
Proof.
  intros t idle w plan p. split; [vm_compute; reflexivity|].
  refine (conflict_check_sound documentedNames true 50 noLease (exampleClient DatabaseTypeMySQL) plan ""
            (fun _ => quiet) w (run p w).1 3 _ _).
  - vm_compute. reflexivity.
  - vm_compute. repeat constructor; intros x Hx; elem_cases Hx; discriminate.
Defined.

(** ** The engine's last change is not the task's *)

(** The engine reports the end of its last change until the next one starts.  While
    the drive of an apply is between two tables, the check of another apply takes
    that report for the pending table: it marks the task completed, finds no
    conflict, and the drive skips the table and completes its apply, although the
    engine was never sent the table's change. *)
Lemma conflict_check_completes_pending_task :
  let first := exampleTask 7 "task_7" "t" "" Task.Completed in
  let second := exampleTask 8 "task_8" "u" "" Task.Pending in
  let w := examplePlane (withTasks [first; second] (exampleStore (exampleApply Apply.Running) [] []))
             (reportingEngine Engine.StateCompleted) in
  let plan := {| cp_Database := "orders"; cp_DatabaseType := "mysql" |} in
  let '(w1, r) := run (checkActiveTaskConflict documentedNames true 50 noLease (exampleClient DatabaseTypeMySQL) plan "") w in
  let '(w2, d) := run (exampleDrive 3 [second]) w1 in
  r = Ok tt /\ tk_State <$> tasks (pl_db w1) = [Task.Completed; Task.Completed] /\
  driveState d = Apply.Completed /\ pl_calls w2 = [].
Proof. vm_compute. repeat split. Qed.

(** A resting task is not left untouched: when the engine reports a failure, the
    check turns a task that waits to be retried into a failed one. *)
Lemma conflict_check_fails_resting_task :
  let t := exampleTask 7 "task_7" "t" "" Task.FailedRetryable in
  let w := examplePlane (withTasks [t] (exampleStore (exampleApply Apply.FailedRetryable) [] []))
             (reportingEngine Engine.StateFailed) in
  let plan := {| cp_Database := "orders"; cp_DatabaseType := "mysql" |} in
  let '(w1, r) := run (checkActiveTaskConflict documentedNames true 50 noLease (exampleClient DatabaseTypeMySQL) plan "") w in
  r = Ok tt /\ tk_State <$> tasks (pl_db w1) = [Task.Failed].
Proof. vm_compute. repeat split. Qed.
