(* ===== verification/Handlers.v ===== *)
(** * The control handlers of the API (pkg/api/control_handlers.go)

    Users stop, cancel, start, cut over, release, retune and revert applies through
    the HTTP API and through pull-request comments.  Both reach the functions below:
    they load the apply, check that its state allows the command and that no other
    command contradicts it, record the command as a durable control request, and
    only then try to have the data plane execute it at once.  The data plane is any
    [ternClient] (the interface tern.Client); metrics, logs and the wake-up of the
    operator are left out. *)

From S2P Require Import Prelude GoStrings State Convert Sql Store Operations Applies Control Projection Tasks Plane Fanout Stopping LocalControl Sequential.

Local Open Scope string_scope.
Local Open Scope Z_scope.

(** ** Errors and their HTTP status *)

Definition StatusOK := 200.
Definition StatusAccepted := 202.
Definition StatusBadRequest := 400.
Definition StatusNotFound := 404.
Definition StatusConflict := 409.
Definition StatusInternalServerError := 500.

(** A [controlOperationHTTPError], or any other error. *)
Inductive controlErr :=
| controlHTTPError (status : Z) (message : string)
| internalErr (e : StoreErr).

#[global] Instance controlErr_eq_dec : EqDecision controlErr.
Proof. solve_decision. Defined.

Abbreviation cres A := (result controlErr A).

Definition controlConflict (message : string) : controlErr := controlHTTPError StatusConflict message.

Definition controlOperationHTTPStatus (err : controlErr) : Z :=
  match err with controlHTTPError status _ => status | internalErr _ => StatusInternalServerError end.

Definition IsInternalControlError (err : controlErr) : bool :=
  StatusInternalServerError <=? controlOperationHTTPStatus err.

(** A call whose errors are not of the requester's making. *)
Definition stored {A} (p : prog plane (res A)) : prog plane (cres A) :=
  let! r := p in Ret match r with Ok a => Ok a | Err e => Err (internalErr e) end.

(** ** The data plane *)

(** [ternv1.ProgressResponse]: the fields the handlers read, with the status of
    every table. *)
Record RemoteProgress := { rp_State : ProtoState; rp_Tables : list string }.

(** [tern.Client]: the calls of the handlers, with the apply's identifier on the data
    plane and its environment.  StopResponse also stands for the responses of cancel,
    revert and skip-revert, whose fields are among its own. *)
Record ternClient := {
  tc_IsRemote : bool;
  tc_Progress : string -> string -> prog plane (res RemoteProgress);
  tc_Stop : string -> string -> prog plane (res (option StopResponse));
  tc_Cancel : string -> string -> prog plane (res (option StopResponse));
  tc_Volume : string -> string -> Z -> prog plane (res VolumeResponse);
  tc_Revert : string -> string -> prog plane (res StopResponse);
  tc_SkipRevert : string -> string -> prog plane (res StopResponse);
}.

(** [apitypes.StopResponse], [CancelResponse], [StartResponse], [ReleaseResponse] and
    [ControlResponse]; the latter two without counts. *)
Record apiResponse := {
  ap_Accepted : bool;
  ap_ErrorMessage : string;
  ap_Count : Z;
  ap_SkippedCount : Z;
  ap_Status : string;
}.

Definition ControlStatusAlreadyInProgress := "already_in_progress".
Definition ControlStatusAlreadyRequested := "already_requested".
Definition startResponseStatusQueued := "queued".
Definition EnginePlanetScale := "planetscale".

Definition apiOf (resp : StopResponse) (status : string) : apiResponse :=
  {| ap_Accepted := sr_Accepted resp; ap_ErrorMessage := sr_ErrorMessage resp; ap_Count := sr_StoppedCount resp;
     ap_SkippedCount := sr_SkippedCount resp; ap_Status := status |}.

Definition acceptedResponse (status : string) : apiResponse := apiOf (accepted "" 0 0) status.

(** 202 for a repeated request, 200 for a new one. *)
Definition requestStatus (status : string) : Z :=
  if status == ControlStatusAlreadyRequested then StatusAccepted else StatusOK.

(** [apitypes.ControlRequest] and the request bodies of the handlers. *)
Record controlRequestBody := { cb_ApplyID : string; cb_Environment : string; cb_Caller : string }.

Definition ternApplyIDForStoredApply (apply : Apply) : string :=
  if a_ExternalID apply != "" then a_ExternalID apply else a_ApplyIdentifier apply.

Definition storedDeploymentForApply (apply : Apply) : cres string :=
  if a_Deployment apply == ""
  then Err (internalErr (Errorf ("apply " ++ a_ApplyIdentifier apply ++ " is missing stored deployment metadata")))
  else Ok (a_Deployment apply).

Definition stopRequestCompletedByApplyState (applyState : string) : bool :=
  IsState applyState [Apply.Stopped; Apply.Cancelled] || IsTerminalApplyState applyState.

Definition storedApplyMayHaveStoppedTasksForStart (storedApplyState : string) : bool :=
  IsState storedApplyState [Apply.Stopped] || IsRunningApplyState storedApplyState.

Definition isStartRequestAllowedState (applyState : string) : bool :=
  IsState applyState [Apply.WaitingForDeploy; Apply.Pending; Apply.Running; Apply.RunningDegraded; Apply.Stopped].

Definition startNotAllowedForState (apply : Apply) : controlErr :=
  let st := a_State apply in
  controlConflict
    (if IsState st [Apply.Pending] then "schema change is pending and no start request is queued"
     else if IsRunningApplyState st then "schema change is still running; stop it before starting it again"
     else if IsState st [Apply.WaitingForCutover] then "schema change is waiting for cutover; use cutover instead of start"
     else if IsState st [Apply.CuttingOver] then "schema change is cutting over; start is not allowed"
     else if IsState st [Apply.RevertWindow] then "schema change is in revert window; use revert or skip-revert instead of start"
     else if IsState st [Apply.Paused]
     then "schema change is paused after a failed deployment; use release to continue the remaining deployments or stop to abandon them"
     else if IsState st [Apply.FailedRetryable] then "schema change is waiting for operator retry; start is not allowed"
     else if IsState st [Apply.Failed] then "schema change failed and cannot be started"
     else if IsState st [Apply.Completed] then "schema change already completed and cannot be started"
     else if IsState st [Apply.Cancelled]
     then "schema change was cancelled and cannot be started; open a new schema change to apply it again"
     else if IsState st [Apply.Reverted] then "schema change was reverted and cannot be started"
     else if IsState st [Apply.PreparingBranch; Apply.ApplyingBranchChanges; Apply.ValidatingBranch;
                         Apply.CreatingDeployRequest; Apply.ValidatingDeployRequest]
     then "schema change is in setup state " ++ NormalizeState st ++ "; start is not allowed"
     else "schema change is not stopped (current state: " ++ st ++ ")").

Definition validateStartRequestState (apply : Apply) : cres unit :=
  if negb (isStartRequestAllowedState (a_State apply)) then Err (startNotAllowedForState apply)
  else if ao_DeferDeploy (a_Options apply) && negb (IsState (a_State apply) [Apply.WaitingForDeploy])
  then Err (controlConflict ("schema change is not ready for deploy (current state: " ++ a_State apply ++ ")"))
  else Ok tt.

(** [(open, terminal)] *)
Definition stopRequestCounts (tasks : list TaskRec) : Z * Z :=
  fold_left (fun '(stopped, skipped) task =>
    if IsTerminalTaskState (tk_State task) then (stopped, skipped + 1) else (stopped + 1, skipped)) tasks (0, 0).

(** [(stopped, terminal)], by the states of the tasks. *)
Definition startCounts (states : list string) : Z * Z :=
  fold_left (fun '(started, skipped) st =>
    if IsState st [Task.Stopped] then (started + 1, skipped)
    else if IsTerminalTaskState st then (started, skipped + 1) else (started, skipped)) states (0, 0).

(** The metadata of stop, cancel and start requests, marshalled; zero counts are
    omitted. *)
Definition marshalCounts (field : string) (changed skipped : Z) : string :=
  let entry name n := if n =? 0 then [] else [dquote ++ name ++ dquote ++ ":" ++ Itoa n] in
  "{" ++ joinWith "," (entry field changed ++ entry "skipped_count" skipped)%list ++ "}".

Definition countField (operation : string) : string :=
  if operation == ControlOperationStop then "stopped_count"
  else if operation == ControlOperationCancel then "cancelled_count" else "started_count".

(** [applyControlRequestStatus]: the answer that a recorded request calls for. *)
Definition applyControlRequestStatus (controlReq : ApplyControlRequest) (operation : string) (counts : Z * Z) : StopResponse :=
  let answer accepted message :=
    {| sr_Accepted := accepted; sr_ErrorMessage := message; sr_StoppedCount := counts.1; sr_SkippedCount := counts.2 |} in
  if oneOf (cr_Status controlReq) [ControlRequestPending; ControlRequestCompleted] then answer true ""
  else if cr_Status controlReq == ControlRequestFailed then answer false (default "" (cr_ErrorMessage controlReq))
  else answer false (operation ++ " control request has unknown status: " ++ cr_Status controlReq).

Inductive readiness := cutoverRequestNotReady | cutoverRequestReady | cutoverRequestAlreadyInProgress | cutoverRequestRecovering.

Section Handlers.
Context (E : EngineNames) (foundRows hasOptions : bool) (clockNow : Z) (ctx : leaseCtx).
(** The verified caller of the context, and the decoder of the counts of a payload. *)
Context (AuthenticatedSubject : option string) (unmarshalCounts : string -> string -> option (Z * Z)).
(** The name of a wire state, of the generated protocol code. *)
Context (protoStateName : ProtoState -> string).
(** [Service.TernClient]: the client of a deployment and environment. *)
Context (TernClient : string -> string -> result string ternClient).

Definition resolveCaller (requestCaller : string) : string := default requestCaller AuthenticatedSubject.

Definition getPending (apply : Apply) (operation : string) : prog plane (cres (option ApplyControlRequest)) :=
  stored (readStore (GetPending (a_ID apply) operation)).

Definition completePendingRequest (apply : Apply) (operation : string) : prog plane (cres unit) :=
  stored (onStore (CompletePending foundRows ctx (a_ID apply) operation)).

(** The apply a command names, and its client. *)
Definition controlTarget (applyIdentifier environment : string) : prog plane (cres (ternClient * Apply * string)) :=
  if applyIdentifier == "" then Ret (Err (controlHTTPError StatusBadRequest "apply_id is required")) else
  if environment == "" then Ret (Err (controlHTTPError StatusBadRequest "environment is required")) else
  try! found := stored (readStore (findApplyByIdentifier applyIdentifier)) in
  match found with
  | None => Ret (Err (controlHTTPError StatusNotFound ("apply not found: " ++ applyIdentifier)))
  | Some apply =>
      if a_Environment apply != environment
      then Ret (Err (controlHTTPError StatusBadRequest ("apply " ++ applyIdentifier ++ " belongs to environment " ++
                                                        a_Environment apply ++ ", not " ++ environment)))
      else
      match storedDeploymentForApply apply with
      | Err e => Ret (Err e)
      | Ok deployment =>
          match TernClient deployment (a_Environment apply) with
          | Err message => Ret (Err (controlHTTPError StatusNotFound message))
          | Ok client => Ret (Ok (client, apply, ternApplyIDForStoredApply apply))
          end
      end
  end.

Definition blockedBy (operation opName : string) : controlErr :=
  controlConflict ("schema change has a pending " ++ operation ++ " request; " ++ opName ++ " is blocked until " ++
                   operation ++ " is processed").

Definition rejectControlIfStopPending (opName : string) (apply : Apply) : prog plane (cres unit) :=
  try! stop := getPending apply ControlOperationStop in
  match stop with
  | Some _ => Ret (Err (blockedBy ControlOperationStop opName))
  | None =>
      try! cancel := getPending apply ControlOperationCancel in
      Ret match cancel with Some _ => Err (blockedBy ControlOperationCancel opName) | None => Ok tt end
  end.

Definition applyHasMultipleOperations (apply : Apply) : prog plane (cres bool) :=
  try! ops := stored (readStore (ListByApply (a_ID apply))) in Ret (Ok (1 <? length ops)%nat).

(** ** Recording requests *)

Definition createControlRequest (apply : Apply) (operation caller metadata : string)
    : prog plane (cres (ApplyControlRequest * bool)) :=
  stored (onStore (RequestPending (newRequest apply operation caller metadata))).

Definition decodeControlRequestMetadata (controlReq : ApplyControlRequest) (operation : string) : cres (Z * Z) :=
  if cr_Metadata controlReq == "" then Ok (0, 0) else
  match unmarshalCounts (countField operation) (cr_Metadata controlReq) with
  | Some counts => Ok counts
  | None => Err (internalErr (Errorf ("decode " ++ operation ++ " control request metadata")))
  end.

(** stopResponseFromControlRequest and its siblings for cancel and start. *)
Definition responseFromControlRequest (operation : string) (controlReq : ApplyControlRequest) : cres StopResponse :=
  match decodeControlRequestMetadata controlReq operation with
  | Err e => Err e
  | Ok counts => Ok (applyControlRequestStatus controlReq operation counts)
  end.

Definition pendingControlResponseIfPresent (apply : Apply) (operation : string)
    : prog plane (cres (option (StopResponse * string))) :=
  try! controlReq := getPending apply operation in
  Ret match controlReq with
      | None => Ok None
      | Some req => match responseFromControlRequest operation req with
                    | Err e => Err e
                    | Ok resp => Ok (Some (resp, ControlStatusAlreadyRequested))
                    end
      end.

(** A request with counts, answered as a new or as a repeated one. *)
Definition recordCounts (apply : Apply) (operation caller : string) (changed skipped : Z) (status : string)
    : prog plane (cres (StopResponse * string)) :=
  try! (controlReq, alreadyPending) :=
    createControlRequest apply operation caller (marshalCounts (countField operation) changed skipped) in
  Ret (if alreadyPending : bool
       then match responseFromControlRequest operation controlReq with
            | Err e => Err e
            | Ok resp => Ok (resp, ControlStatusAlreadyRequested)
            end
       else Ok (accepted "" changed skipped, status)).

(** ** Stop and cancel *)

Definition terminalAlready (apply : Apply) : controlErr :=
  controlConflict ("schema change is already terminal (current state: " ++ a_State apply ++ ")").

(** What queueStopForApplyOwner and queueCancelForApplyOwner share. *)
Definition queueForApplyOwner (guard : cres unit) (apply : Apply) (operation caller : string)
    : prog plane (cres (StopResponse * string)) :=
  try! pending := pendingControlResponseIfPresent apply operation in
  match pending with
  | Some r => Ret (Ok r)
  | None =>
      match guard with
      | Err e => Ret (Err e)
      | Ok _ =>
          try! tasks := stored (readStore (GetByApplyID E (a_ID apply))) in
          let '(stopped, skipped) := stopRequestCounts tasks in
          if (stopped =? 0) && (skipped =? 0)
          then Ret (Err (controlConflict ("no active schema change for apply " ++ a_ApplyIdentifier apply)))
          else recordCounts apply operation caller stopped skipped ""
      end
  end.

Definition queueStopForApplyOwner (apply : Apply) (caller : string) : prog plane (cres (StopResponse * string)) :=
  queueForApplyOwner (if IsTerminalApplyState (a_State apply) then Err (terminalAlready apply) else Ok tt)
    apply ControlOperationStop caller.

Definition queueCancelForApplyOwner (apply : Apply) (caller : string) : prog plane (cres (StopResponse * string)) :=
  queueForApplyOwner (Ok tt) apply ControlOperationCancel caller.

(** completeImmediateStopRequestIfStopped and its sibling for cancel. *)
Definition completeImmediateRequestIf (resolved : string -> bool) (operation : string) (apply : Apply)
    : prog plane (cres bool) :=
  try! found := stored (readStore (findApply (a_ID apply))) in
  match found with
  | None => Ret (Err (internalErr ErrApplyNotFound))
  | Some storedApply =>
      if negb (resolved (a_State storedApply)) then Ret (Ok false) else
      try! _ := completePendingRequest apply operation in Ret (Ok true)
  end.

(** The attempt to have the data plane act at once; whatever comes of it, the recorded
    request stays for the apply's owner unless the stored apply is seen resolved. *)
Definition tryImmediate (client : option ternClient) (call : ternClient -> prog plane (res (option StopResponse)))
    (resolved : string -> bool) (operation : string) (apply : Apply) : prog plane unit :=
  let! multiOp := applyHasMultipleOperations apply in
  if bool_decide (multiOp = Ok true) then Ret tt else
  match client with
  | None => Ret tt
  | Some client =>
      let! resp := call client in
      match resp with
      | Ok (Some r) => if sr_Accepted r then let! _ := completeImmediateRequestIf resolved operation apply in Ret tt else Ret tt
      | _ => Ret tt
      end
  end.

Definition tryImmediateStopAfterQueue (client : option ternClient) (apply : Apply) (ternApplyID environment : string)
    : prog plane unit :=
  tryImmediate client (fun c => tc_Stop c ternApplyID environment) stopRequestCompletedByApplyState ControlOperationStop apply.

Definition tryImmediateCancel (client : option ternClient) (apply : Apply) : prog plane unit :=
  tryImmediate client
    (fun c => tc_Cancel c (if tc_IsRemote c then a_ExternalID apply else a_ApplyIdentifier apply) (a_Environment apply))
    (fun st => IsState st [Apply.Cancelled]) ControlOperationCancel apply.

Definition executeStopForApply (client : option ternClient) (apply : Apply) (ternApplyID environment caller : string)
    : prog plane (cres (apiResponse * Z)) :=
  if a_Engine apply == EnginePlanetScale
  then Ret (Err (controlHTTPError StatusBadRequest
                   "stop is not supported for this schema change; use cancel to permanently cancel it"))
  else
  try! (resp, status) := queueStopForApplyOwner apply (resolveCaller caller) in
  let! _ := (if sr_Accepted resp && (status != ControlStatusAlreadyRequested)
             then tryImmediateStopAfterQueue client apply ternApplyID environment else Ret tt) in
  Ret (Ok (apiOf resp status, requestStatus status)).

Definition executeCancelForApply (client : option ternClient) (apply : Apply) (caller : string)
    : prog plane (cres (apiResponse * Z)) :=
  if IsTerminalApplyState (a_State apply) && negb (IsState (a_State apply) [Apply.Stopped])
  then Ret (Err (terminalAlready apply)) else
  try! (resp, status) := queueCancelForApplyOwner apply (resolveCaller caller) in
  let! _ := (if sr_Accepted resp then tryImmediateCancel client apply else Ret tt) in
  Ret (Ok (apiOf resp status, requestStatus status)).

(** ** Start *)

Definition set_stopped (completedAt : option Z) (apply : Apply) : Apply :=
  set_a_UpdatedAt clockNow (set_a_CompletedAt completedAt (set_a_State Apply.Stopped apply)).

(** A pending stop that has happened is completed first; the apply as it is then. *)
Definition completeResolvedStopBeforeStart (client : ternClient) (apply : Apply) : prog plane (cres Apply) :=
  try! controlReq := getPending apply ControlOperationStop in
  match controlReq with
  | None => Ret (Ok apply)
  | Some _ =>
      if stopRequestCompletedByApplyState (a_State apply) then
        try! _ := completePendingRequest apply ControlOperationStop in Ret (Ok apply)
      else if negb (tc_IsRemote client) then Ret (Ok apply)
      else if a_ExternalID apply == "" then Ret (Ok apply)
      else
      try! progress := stored (tc_Progress client (a_ExternalID apply) (a_Environment apply)) in
      if negb (IsState (ProtoStateToStorage (rp_State progress)) [Apply.Stopped]) then Ret (Ok apply) else
      let apply := set_stopped (Some clockNow) apply in
      try! _ := stored (execStore (Applies.Update ctx hasOptions apply)) in
      try! _ := completePendingRequest apply ControlOperationStop in
      Ret (Ok apply)
  end.

Definition ensureStoredApplyStoppedForStartClaim (apply : Apply) : prog plane (cres Apply) :=
  if negb (IsRunningApplyState (a_State apply)) then Ret (Ok apply) else
  let apply := set_stopped None apply in
  try! _ := stored (execStore (Applies.Update ctx hasOptions apply)) in
  Ret (Ok apply).

Definition persistStartRequestForOperator (apply : Apply) (caller : string) (startedCount skippedCount : Z)
    : prog plane (cres (StopResponse * string)) :=
  recordCounts apply ControlOperationStart caller startedCount skippedCount startResponseStatusQueued.

Definition queueStoppedApplyForOperator (apply : Apply) (caller : string) : prog plane (cres (StopResponse * string)) :=
  if negb (storedApplyMayHaveStoppedTasksForStart (a_State apply)) then Ret (Err (startNotAllowedForState apply)) else
  try! tasks := stored (readStore (GetByApplyID E (a_ID apply))) in
  let '(startedCount, skippedCount) := startCounts (tk_State <$> tasks) in
  if startedCount =? 0 then
    Ret (Err (if IsState (a_State apply) [Apply.Stopped]
              then controlConflict ("no stopped tasks for apply " ++ a_ApplyIdentifier apply)
              else startNotAllowedForState apply))
  else
  try! apply := ensureStoredApplyStoppedForStartClaim apply in
  persistStartRequestForOperator apply caller startedCount skippedCount.

Definition remoteStoppedApplyStartCounts (tables : list string) : Z * Z :=
  startCounts (NormalizeTaskStatus E <$> tables).

Definition queueRemoteStoppedApplyForOperator (client : ternClient) (apply : Apply) (caller : string)
    : prog plane (cres (StopResponse * string)) :=
  if negb (storedApplyMayHaveStoppedTasksForStart (a_State apply)) then Ret (Err (startNotAllowedForState apply)) else
  try! resp := stored (tc_Progress client (a_ExternalID apply) (a_Environment apply)) in
  let remoteState := ProtoStateToStorage (rp_State resp) in
  if negb (IsState remoteState [Apply.Stopped]) then
    Ret (Err (controlConflict ("schema change is not stopped (remote state: " ++
      (if remoteState == "" then protoStateName (rp_State resp) else remoteState) ++
      ", current state: " ++ a_State apply ++ ")")))
  else
  let '(startedCount, skippedCount) := remoteStoppedApplyStartCounts (rp_Tables resp) in
  try! apply := ensureStoredApplyStoppedForStartClaim apply in
  persistStartRequestForOperator apply caller (if startedCount =? 0 then 1 else startedCount) skippedCount.

Definition startResponseForPendingStartRequest (apply : Apply) : prog plane (cres (StopResponse * string)) :=
  try! pending := pendingControlResponseIfPresent apply ControlOperationStart in
  Ret match pending with Some r => Ok r | None => Err (startNotAllowedForState apply) end.

(** The switch over the state of the apply. *)
Definition queueStart (client : ternClient) (apply : Apply) (caller : string) : prog plane (cres (StopResponse * string)) :=
  if IsState (a_State apply) [Apply.WaitingForDeploy] then persistStartRequestForOperator apply caller 1 0
  else if IsState (a_State apply) [Apply.Pending] then startResponseForPendingStartRequest apply
  else if storedApplyMayHaveStoppedTasksForStart (a_State apply) then
    try! pending := pendingControlResponseIfPresent apply ControlOperationStart in
    match pending with
    | Some r => Ret (Ok r)
    | None =>
        if tc_IsRemote client && (a_ExternalID apply != "") then queueRemoteStoppedApplyForOperator client apply caller
        else queueStoppedApplyForOperator apply caller
    end
  else Ret (Err (startNotAllowedForState apply)).

Definition executeStartForApply (client : ternClient) (apply : Apply) (caller : string)
    : prog plane (cres (apiResponse * Z)) :=
  match validateStartRequestState apply with
  | Err e => Ret (Err e)
  | Ok _ =>
      try! apply := completeResolvedStopBeforeStart client apply in
      try! _ := rejectControlIfStopPending "start" apply in
      try! (resp, status) := queueStart client apply (resolveCaller caller) in
      Ret (Ok (apiOf resp status, requestStatus status))
  end.

(** ** Cutover *)

(** The tasks of every operation tell whether a cutover can be requested. *)
Fixpoint taskReadiness (ready : bool) (tasks : list TaskRec) : readiness :=
  match tasks with
  | [] => if ready then cutoverRequestReady else cutoverRequestNotReady
  | task :: rest =>
      if IsState (tk_State task) [Task.CuttingOver] then cutoverRequestAlreadyInProgress
      else taskReadiness (ready || IsState (tk_State task) [Task.WaitingForCutover]) rest
  end.

Definition cutoverRequestReadiness (client : option ternClient) (apply : Apply) (ternApplyID : string) (multiOp : bool)
    : prog plane (cres readiness) :=
  if IsState (a_State apply) [Apply.WaitingForCutover] then Ret (Ok cutoverRequestReady)
  else if IsState (a_State apply) [Apply.CuttingOver] then Ret (Ok cutoverRequestAlreadyInProgress)
  else if IsState (a_State apply) [Apply.Recovering] then Ret (Ok cutoverRequestRecovering)
  else
  let byTasks :=
    if negb (IsRunningApplyState (a_State apply)) then Ret (Ok cutoverRequestNotReady) else
    try! tasks := stored (readStore (GetByApplyID E (a_ID apply))) in
    Ret (Ok (taskReadiness false tasks)) in
  match client with
  | Some c =>
      if negb multiOp && tc_IsRemote c && (ternApplyID != "") then
        try! progress := stored (tc_Progress c ternApplyID (a_Environment apply)) in
        let remoteState := ProtoStateToStorage (rp_State progress) in
        Ret (Ok (if IsState remoteState [Apply.WaitingForCutover] then cutoverRequestReady
                 else if IsState remoteState [Apply.Recovering] then cutoverRequestRecovering
                 else if IsState remoteState [Apply.CuttingOver] then cutoverRequestReady
                 else cutoverRequestNotReady))
      else byTasks
  | None => byTasks
  end.

Definition executeCutoverForApply (client : option ternClient) (apply : Apply) (ternApplyID caller : string)
    : prog plane (cres (apiResponse * Z)) :=
  try! pending := getPending apply ControlOperationCutover in
  match pending with
  | Some _ => Ret (Ok (acceptedResponse "", StatusAccepted))
  | None =>
      try! multiOp := applyHasMultipleOperations apply in
      try! ready := cutoverRequestReadiness client apply ternApplyID multiOp in
      match ready with
      | cutoverRequestAlreadyInProgress => Ret (Ok (acceptedResponse ControlStatusAlreadyInProgress, StatusAccepted))
      | cutoverRequestRecovering =>
          Ret (Err (controlConflict
            "schema change is recovering after restart; cutover will be available once recovery completes"))
      | cutoverRequestNotReady =>
          Ret (Err (controlConflict ("schema change is not waiting for cutover (current state: " ++ a_State apply ++ ")")))
      | cutoverRequestReady =>
          try! (_, alreadyPending) := createControlRequest apply ControlOperationCutover (resolveCaller caller) "" in
          Ret (Ok (acceptedResponse "", if alreadyPending : bool then StatusAccepted else StatusOK))
      end
  end.

(** ** Release *)

Definition validateReleaseRequestState (apply : Apply) : prog plane (cres unit) :=
  if IsTerminalApplyState (a_State apply)
  then Ret (Err (controlConflict ("schema change is already terminal (current state: " ++ a_State apply ++
                                  "); release only applies to a paused rollout")))
  else
  try! ops := stored (readStore (ListByApply (a_ID apply))) in
  Ret (if negb (anyPauseOnFailure ops) then Err (controlConflict "schema change has no on_failure=pause deployment to release")
       else if negb (IsState (a_State apply) [Apply.Paused])
       then Err (controlConflict ("schema change is not paused (current state: " ++ a_State apply ++
                                  "); release only applies to a paused rollout"))
       else Ok tt).

Definition releaseAlreadyLatched (apply : Apply) : prog plane (cres bool) :=
  try! existing := stored (readStore (GetByOperation (a_ID apply) ControlOperationRelease)) in
  Ret (Ok (ReleasesPausedRollout existing)).

Definition releaseControlRequestErrorMessage (controlReq : ApplyControlRequest) : string :=
  if cr_Status controlReq == ControlRequestFailed then default "" (cr_ErrorMessage controlReq) else "".

Definition executeReleaseForApply (apply : Apply) (caller : string) : prog plane (cres (apiResponse * Z)) :=
  try! _ := validateReleaseRequestState apply in
  try! _ := rejectControlIfStopPending "release" apply in
  try! latched := releaseAlreadyLatched apply in
  if latched : bool then Ret (Ok (acceptedResponse ControlStatusAlreadyRequested, StatusAccepted)) else
  try! (controlReq, alreadyLatched) := createControlRequest apply ControlOperationRelease (resolveCaller caller) "{}" in
  let status := if alreadyLatched : bool then ControlStatusAlreadyRequested else "" in
  Ret (Ok (apiOf (accepted (releaseControlRequestErrorMessage controlReq) 0 0) status, requestStatus status)).

(** ** Volume *)

Definition executeVolumeForApply (client : ternClient) (apply : Apply) (ternApplyID : string) (volume : Z)
    : prog plane (cres VolumeResponse) :=
  stored (tc_Volume client ternApplyID (a_Environment apply) volume).

(** ** Revert and skip-revert *)

(** What the two share: the gates, the opposite intent, the record and the immediate
    attempt, with [onAccepted] when the data plane accepts. *)
Definition revertIntent (name operation opposite conflict : string) (call : prog plane (res StopResponse))
    (onAccepted : prog plane unit) (apply : Apply) (caller : string) : prog plane (cres (apiResponse * Z)) :=
  if a_Engine apply != EnginePlanetScale
  then Ret (Err (controlConflict (name ++ " is only supported for PlanetScale schema changes"))) else
  if negb (IsState (a_State apply) [Apply.RevertWindow])
  then Ret (Err (controlConflict ("schema change is not in its revert window (current state: " ++ a_State apply ++ ")"))) else
  try! contrary := getPending apply opposite in
  match contrary with
  | Some _ => Ret (Err (controlConflict conflict))
  | None =>
      try! (_, alreadyPending) := createControlRequest apply operation (resolveCaller caller) "" in
      if alreadyPending : bool then Ret (Ok (acceptedResponse ControlStatusAlreadyRequested, StatusAccepted)) else
      let! resp := call in
      match resp with
      | Err _ => Ret (Ok (acceptedResponse "", StatusAccepted))
      | Ok r =>
          let! _ :=
            (if sr_Accepted r
             then let! _ := onAccepted in let! _ := completePendingRequest apply operation in Ret tt
             else let! _ := onStore (FailPending foundRows ctx (a_ID apply) operation (sr_ErrorMessage r)) in Ret tt) in
          Ret (Ok (apiOf {| sr_Accepted := sr_Accepted r; sr_ErrorMessage := sr_ErrorMessage r;
                            sr_StoppedCount := 0; sr_SkippedCount := 0 |} "", StatusOK))
      end
  end.

Definition executeRevertForApply (client : ternClient) (apply : Apply) (ternApplyID caller : string)
    : prog plane (cres (apiResponse * Z)) :=
  revertIntent "revert" ControlOperationRevert ControlOperationSkipRevert
    "skip-revert is already pending for this schema change; the revert window is being closed and the change will become permanent"
    (tc_Revert client ternApplyID (a_Environment apply)) (Ret tt) apply caller.

Definition executeSkipRevertForApply (client : ternClient) (apply : Apply) (ternApplyID caller : string)
    : prog plane (cres (apiResponse * Z)) :=
  revertIntent "skip-revert" ControlOperationSkipRevert ControlOperationRevert
    "revert is already pending for this schema change; it is being undone"
    (tc_SkipRevert client ternApplyID (a_Environment apply))
    (let! _ := execStore (SetRevertSkipped (a_ID apply) clockNow) in Ret tt) apply caller.

(** ** The entries of the comment commands *)

(** The commands with both kinds of entry. *)
Inductive command := Stop | Cancel | Start | Cutover | Release | Revert | SkipRevert.

Definition ExecuteStop (req : controlRequestBody) : prog plane (cres apiResponse) :=
  try! (client, apply, ternApplyID) := controlTarget (cb_ApplyID req) (cb_Environment req) in
  try! (resp, _) := executeStopForApply (Some client) apply ternApplyID (cb_Environment req) (cb_Caller req) in
  Ret (Ok resp).

Definition ExecuteCancel (req : controlRequestBody) : prog plane (cres apiResponse) :=
  try! (client, apply, _) := controlTarget (cb_ApplyID req) (cb_Environment req) in
  try! (resp, _) := executeCancelForApply (Some client) apply (cb_Caller req) in
  Ret (Ok resp).

Definition ExecuteStart (req : controlRequestBody) : prog plane (cres apiResponse) :=
  try! (client, apply, _) := controlTarget (cb_ApplyID req) (cb_Environment req) in
  try! (resp, _) := executeStartForApply client apply (cb_Caller req) in
  Ret (Ok resp).

Definition ExecuteCutover (req : controlRequestBody) : prog plane (cres apiResponse) :=
  try! (client, apply, ternApplyID) := controlTarget (cb_ApplyID req) (cb_Environment req) in
  try! _ := rejectControlIfStopPending "cutover" apply in
  try! (resp, _) := executeCutoverForApply (Some client) apply ternApplyID (cb_Caller req) in
  Ret (Ok resp).

Definition ExecuteRelease (req : controlRequestBody) : prog plane (cres apiResponse) :=
  try! (_, apply, _) := controlTarget (cb_ApplyID req) (cb_Environment req) in
  try! (resp, _) := executeReleaseForApply apply (cb_Caller req) in
  Ret (Ok resp).

Definition ExecuteRevert (req : controlRequestBody) : prog plane (cres apiResponse) :=
  try! (client, apply, ternApplyID) := controlTarget (cb_ApplyID req) (cb_Environment req) in
  try! (resp, _) := executeRevertForApply client apply ternApplyID (cb_Caller req) in
  Ret (Ok resp).

Definition ExecuteSkipRevert (req : controlRequestBody) : prog plane (cres apiResponse) :=
  try! (client, apply, ternApplyID) := controlTarget (cb_ApplyID req) (cb_Environment req) in
  try! (resp, _) := executeSkipRevertForApply client apply ternApplyID (cb_Caller req) in
  Ret (Ok resp).

(** The entry of a command. *)
Definition Execute (c : command) : controlRequestBody -> prog plane (cres apiResponse) :=
  match c with
  | Stop => ExecuteStop
  | Cancel => ExecuteCancel
  | Start => ExecuteStart
  | Cutover => ExecuteCutover
  | Release => ExecuteRelease
  | Revert => ExecuteRevert
  | SkipRevert => ExecuteSkipRevert
  end.

Definition volumeOutOfRange : controlErr := controlHTTPError StatusBadRequest "volume must be between 1 and 11".

Definition ExecuteVolume (req : controlRequestBody) (volume : Z) : prog plane (cres VolumeResponse) :=
  if negb (volumeInRange volume) then Ret (Err volumeOutOfRange) else
  try! (client, apply, ternApplyID) := controlTarget (cb_ApplyID req) (cb_Environment req) in
  executeVolumeForApply client apply ternApplyID volume.

(** ** The HTTP handlers *)

(** An answer of a handler: the status, and the error message or the body. *)
Record reply A := { rp_Code : Z; rp_Body : result string A }.
#[global] Arguments rp_Code {A}.
#[global] Arguments rp_Body {A}.

Definition writeError {A} (status : Z) (message : string) : reply A := {| rp_Code := status; rp_Body := Err message |}.
Definition writeJSON {A} (status : Z) (body : A) : reply A := {| rp_Code := status; rp_Body := Ok body |}.

Context (errText : StoreErr -> string).

Definition controlErrText (err : controlErr) : string :=
  match err with controlHTTPError _ message => message | internalErr e => errText e end.

Definition writeControlError {A} (opName : string) (err : controlErr) : reply A :=
  let status := controlOperationHTTPStatus err in
  writeError status (opName ++ (if StatusInternalServerError <=? status then " failed: " else " rejected: ") ++ controlErrText err).

(** The request of a decoded body ([Err] when the body could not be decoded), with its
    target; the error is already an answer. *)
Definition decodeControlRequest (body : result (Z * string) controlRequestBody)
    : prog plane (result (Z * string) (controlRequestBody * (ternClient * Apply * string))) :=
  match body with
  | Err e => Ret (Err e)
  | Ok req =>
      if cb_ApplyID req == "" then Ret (Err (StatusBadRequest, "apply_id is required")) else
      if cb_Environment req == "" then Ret (Err (StatusBadRequest, "environment is required")) else
      let! found := readStore (findApplyByIdentifier (cb_ApplyID req)) in
      match found with
      | Err e => Ret (Err (StatusInternalServerError, "failed to look up apply " ++ cb_ApplyID req ++ ": " ++ errText e))
      | Ok None => Ret (Err (StatusNotFound, "apply not found: " ++ cb_ApplyID req))
      | Ok (Some apply) =>
          if a_Environment apply != cb_Environment req
          then Ret (Err (StatusBadRequest, "apply " ++ cb_ApplyID req ++ " belongs to environment " ++ a_Environment apply ++
                                           ", not " ++ cb_Environment req))
          else
          match storedDeploymentForApply apply with
          | Err e => Ret (Err (StatusInternalServerError, controlErrText e))
          | Ok deployment =>
              match TernClient deployment (a_Environment apply) with
              | Err message => Ret (Err (StatusNotFound, message))
              | Ok client => Ret (Ok (req, (client, apply, ternApplyIDForStoredApply apply)))
              end
          end
      end
  end.

Definition handleStop (body : result (Z * string) controlRequestBody) : prog plane (reply apiResponse) :=
  let! decoded := decodeControlRequest body in
  match decoded with
  | Err (status, message) => Ret (writeError status message)
  | Ok (req, (client, apply, ternApplyID)) =>
      let! r := executeStopForApply (Some client) apply ternApplyID (cb_Environment req) (cb_Caller req) in
      Ret match r with
          | Err e => writeControlError "stop" e
          | Ok (resp, httpStatus) => writeJSON httpStatus resp
          end
  end.

Definition handleCancel (body : result (Z * string) controlRequestBody) : prog plane (reply apiResponse) :=
  let! decoded := decodeControlRequest body in
  match decoded with
  | Err (status, message) => Ret (writeError status message)
  | Ok (req, (client, apply, _)) =>
      let! r := executeCancelForApply (Some client) apply (cb_Caller req) in
      Ret match r with
          | Err e => writeControlError "cancel" e
          | Ok (resp, httpStatus) => writeJSON httpStatus resp
          end
  end.

Definition handleStart (body : result (Z * string) controlRequestBody) : prog plane (reply apiResponse) :=
  let! decoded := decodeControlRequest body in
  match decoded with
  | Err (status, message) => Ret (writeError status message)
  | Ok (req, (client, apply, _)) =>
      let! r := executeStartForApply client apply (cb_Caller req) in
      Ret match r with
          | Err e => writeControlError "start" e
          | Ok (resp, httpStatus) => writeJSON httpStatus resp
          end
  end.

Definition handleCutover (body : result (Z * string) controlRequestBody) : prog plane (reply apiResponse) :=
  let! decoded := decodeControlRequest body in
  match decoded with
  | Err (status, message) => Ret (writeError status message)
  | Ok (req, (client, apply, ternApplyID)) =>
      let! blocked := rejectControlIfStopPending "cutover" apply in
      match blocked with
      | Err e => Ret (writeControlError "cutover" e)
      | Ok _ =>
          let! r := executeCutoverForApply (Some client) apply ternApplyID (cb_Caller req) in
          Ret match r with
              | Err e => writeControlError "cutover" e
              | Ok (resp, httpStatus) => writeJSON httpStatus resp
              end
      end
  end.

Definition handleRelease (body : result (Z * string) controlRequestBody) : prog plane (reply apiResponse) :=
  let! decoded := decodeControlRequest body in
  match decoded with
  | Err (status, message) => Ret (writeError status message)
  | Ok (req, (_, apply, _)) =>
      let! r := executeReleaseForApply apply (cb_Caller req) in
      Ret match r with
          | Err e => writeControlError "release" e
          | Ok (resp, httpStatus) => writeJSON httpStatus resp
          end
  end.

Definition handleRevert (body : result (Z * string) controlRequestBody) : prog plane (reply apiResponse) :=
  let! decoded := decodeControlRequest body in
  match decoded with
  | Err (status, message) => Ret (writeError status message)
  | Ok (req, (client, apply, ternApplyID)) =>
      let! r := executeRevertForApply client apply ternApplyID (cb_Caller req) in
      Ret match r with
          | Err e => writeControlError "revert" e
          | Ok (resp, httpStatus) => writeJSON httpStatus resp
          end
  end.

Definition handleSkipRevert (body : result (Z * string) controlRequestBody) : prog plane (reply apiResponse) :=
  let! decoded := decodeControlRequest body in
  match decoded with
  | Err (status, message) => Ret (writeError status message)
  | Ok (req, (client, apply, ternApplyID)) =>
      let! r := executeSkipRevertForApply client apply ternApplyID (cb_Caller req) in
      Ret match r with
          | Err e => writeControlError "skip-revert" e
          | Ok (resp, httpStatus) => writeJSON httpStatus resp
          end
  end.

(** The handler of a command. *)
Definition handle (c : command) : result (Z * string) controlRequestBody -> prog plane (reply apiResponse) :=
  match c with
  | Stop => handleStop
  | Cancel => handleCancel
  | Start => handleStart
  | Cutover => handleCutover
  | Release => handleRelease
  | Revert => handleRevert
  | SkipRevert => handleSkipRevert
  end.

Definition handleVolume (body : result (Z * string) controlRequestBody) (volume : Z) : prog plane (reply VolumeResponse) :=
  let! decoded := decodeControlRequest body in
  match decoded with
  | Err (status, message) => Ret (writeError status message)
  | Ok (_, (client, apply, ternApplyID)) =>
      if negb (volumeInRange volume) then Ret (writeError StatusBadRequest "volume must be between 1 and 11") else
      let! r := executeVolumeForApply client apply ternApplyID volume in
      Ret match r with Err e => writeControlError "volume" e | Ok resp => writeJSON StatusOK resp end
  end.

(** ** The source of a rollback *)

Record RollbackSourceRequest := {
  rq_ApplyIdentifier : string;
  rq_Environment : string;
  rq_Repository : string;
  rq_PullRequest : Z;
  rq_RequirePullRequestScope : bool;
}.

Definition HasOriginalFilesCapture (p : Plan) : bool :=
  negb (bool_decide (pn_Namespaces p = ∅)) && forallb nd_OriginalFilesCaptured (map_to_list (pn_Namespaces p)).*2.

Definition belongsElsewhere (apply : Apply) (what current asked : string) : controlErr :=
  controlHTTPError StatusBadRequest ("apply " ++ a_ApplyIdentifier apply ++ " belongs to " ++ what ++ current ++ ", not " ++ asked).

Definition validateRollbackSourceScope (req : RollbackSourceRequest) (apply : Apply) : cres unit :=
  if negb (IsState (a_State apply) [Apply.Completed])
  then Err (controlConflict ("apply " ++ a_ApplyIdentifier apply ++ " is " ++ a_State apply ++
                             "; rollback requires a completed apply"))
  else if a_Environment apply != rq_Environment req
  then Err (belongsElsewhere apply "environment " (a_Environment apply) (rq_Environment req))
  else if rq_RequirePullRequestScope req && (rq_Repository req == "")
  then Err (controlHTTPError StatusBadRequest "repository is required")
  else if rq_RequirePullRequestScope req && (rq_PullRequest req <=? 0)
  then Err (controlHTTPError StatusBadRequest "pull_request is required")
  else if (rq_Repository req != "") && (a_Repository apply != rq_Repository req)
  then Err (belongsElsewhere apply "repository " (a_Repository apply) (rq_Repository req))
  else if (0 <? rq_PullRequest req) && negb (a_PullRequest apply =? rq_PullRequest req)
  then Err (belongsElsewhere apply "PR #" (Itoa (a_PullRequest apply)) ("#" ++ Itoa (rq_PullRequest req)))
  else Ok tt.

Definition rollbackTaskMatchesPlannerScope (dbType environment : string) (task : TaskRec) : bool :=
  IsState (tk_State task) [Task.Completed] && (tk_DatabaseType task == dbType) && (tk_Environment task == environment).

Definition rollbackTaskCompletedAfter (candidate current : TaskRec) : bool :=
  match tk_CompletedAt candidate, tk_CompletedAt current with
  | Some a, Some b => b <? a
  | Some _, None => true
  | None, Some _ => false
  | None, None => tk_CreatedAt current <? tk_CreatedAt candidate
  end.

Definition latestCompleted (dbType environment : string) (tasks : list TaskRec) : option TaskRec :=
  fold_left (fun latest task =>
    if negb (rollbackTaskMatchesPlannerScope dbType environment task) then latest else
    match latest with
    | None => Some task
    | Some current => if rollbackTaskCompletedAfter task current then Some task else latest
    end) tasks None.

Definition latestCompletedTaskForRollback (database dbType environment : string) : prog plane (cres (option TaskRec)) :=
  try! tasks := stored (readStore (GetByDatabase E database)) in
  Ret (Ok (latestCompleted dbType environment tasks)).

Context (planRow : store -> Z -> option Plan).

Definition ValidateRollbackSourceApply (req : RollbackSourceRequest) : prog plane (cres (Apply * Plan)) :=
  if rq_ApplyIdentifier req == "" then Ret (Err (controlHTTPError StatusBadRequest "apply_id is required")) else
  if rq_Environment req == "" then Ret (Err (controlHTTPError StatusBadRequest "environment is required")) else
  try! found := stored (readStore (findApplyByIdentifier (rq_ApplyIdentifier req))) in
  match found with
  | None => Ret (Err (controlHTTPError StatusNotFound ("apply not found: " ++ rq_ApplyIdentifier req)))
  | Some apply =>
      match validateRollbackSourceScope req apply with
      | Err e => Ret (Err e)
      | Ok _ =>
          try! planFound := stored (readStore (fun s => planRow s (a_PlanID apply))) in
          match planFound with
          | None => Ret (Err (internalErr (Errorf "source plan not found for rollback")))
          | Some plan =>
              if negb (HasOriginalFilesCapture plan)
              then Ret (Err (controlConflict ("apply " ++ a_ApplyIdentifier apply ++
                     " cannot be rolled back safely because its source plan has no stored original schema files")))
              else
              try! latest := latestCompletedTaskForRollback (a_Database apply) (a_DatabaseType apply) (a_Environment apply) in
              Ret match latest with
                  | None => Err (controlConflict "no completed schema change task found")
                  | Some task =>
                      if negb (tk_ApplyID task =? a_ID apply)
                      then Err (controlConflict ("apply " ++ a_ApplyIdentifier apply ++
                             " is not the schema change that the current rollback planner would select"))
                      else if negb (tk_PlanID task =? a_PlanID apply)
                      then Err (internalErr (Errorf "latest schema change task points to another plan"))
                      else Ok (apply, plan)
                  end
          end
      end
  end.
End Handlers.
