(* ===== verification/ControlSafety.v ===== *)
(** * Commands are recorded, and contradictions refused

    What a user may rely on when the API accepts a command (pkg/api/control_handlers.go):
    the command is on record whatever becomes of the process that took it, no command
    is taken that contradicts one already on record, a start is taken only for work
    that rests, and the HTTP handlers and the comment commands do the same. *)

From S2P Require Import Prelude GoStrings State Convert Sql Store Operations Applies Control Projection Tasks Plane Fanout Stopping LocalControl Sequential Handlers.

Local Open Scope string_scope.
Local Open Scope Z_scope.

(** ** What a program leaves behind *)

(** The states right after the statements of a run that did not fail. *)
Fixpoint after {S R} (env : nat -> envStep S) (n : nat) (p : prog S R) (s : S) : list S :=
  match p with
  | Ret _ => []
  | Exec stmt k =>
      let s := interfere (env n) s in
      match fault (env n) with
      | Some e => after env (Datatypes.S n) (k (Err e)) s
      | None => (stmt s).1 :: after env (Datatypes.S n) (k (stmt s).2) (stmt s).1
      end
  end.

Lemma after_bind {S R R'} (env : nat -> envStep S) n (p : prog S R) (f : R -> prog S R') s :
  after env n (pbind p f) s =
  (after env n p s ++ let '(s', r, n') := runE env n p s in after env n' (f r) s')%list.
Proof.
  revert n s. induction p as [r|A stmt k IH]; intros n s; [done|]. cbn.
  destruct (fault (env n)) as [e|]; [apply IH|]. cbn. rewrite IH. by destruct (stmt _).
Qed.

(** A run whose result satisfies [Q] has left behind a state that satisfies [P], unless
    [got] holds anyway. *)
Fixpoint achieves {S R} (P : S -> Prop) (got : Prop) (Q : R -> Prop) (p : prog S R) : Prop :=
  match p with
  | Ret r => Q r -> got
  | Exec stmt k => (forall s, achieves P (got \/ P (stmt s).1) Q (k (stmt s).2)) /\ (forall e, achieves P got Q (k (Err e)))
  end.

Section Achieves.
Context {S : Type} (P : S -> Prop).

Lemma achieves_mono {R} (got got' : Prop) (Q : R -> Prop) (p : prog S R) :
  (got -> got') -> achieves P got Q p -> achieves P got' Q p.
Proof.
  revert got got'. induction p as [r|A stmt k IH]; intros got got' Hg; cbn; [tauto|].
  intros [Hs Hk]. split; [|intros e; by eapply IH]. intros s. eapply IH; [|apply Hs]. tauto.
Qed.

Lemma achieves_impl {R} (P' : S -> Prop) (got : Prop) (Q : R -> Prop) (p : prog S R) :
  (forall s, P s -> P' s) -> achieves P got Q p -> achieves P' got Q p.
Proof.
  intros HP. revert got. induction p as [r|A stmt k IH]; intros got; cbn; [done|].
  intros [Hs Hk]. split; [|auto]. intros s. apply IH. eapply achieves_mono; [|apply Hs]. intros [?|?]; auto.
Qed.

Lemma achieves_got {R} (got : Prop) (Q : R -> Prop) (p : prog S R) : got -> achieves P got Q p.
Proof. revert got. induction p as [r|A stmt k IH]; intros got Hg; cbn; auto. Qed.

Lemma achieves_weaken {R} (got : Prop) (Q Q' : R -> Prop) (p : prog S R) :
  (forall r, Q' r -> Q r) -> achieves P got Q p -> achieves P got Q' p.
Proof.
  intros HQ. revert got. induction p as [r|A stmt k IH]; intros got; cbn; [auto|].
  intros [Hs Hk]. split; auto.
Qed.

(** Either the first part achieves it, or the second one does. *)
Lemma achieves_bind {R R'} (got : Prop) (Q : R -> Prop) (Q' : R' -> Prop) (p : prog S R) (f : R -> prog S R') :
  achieves P got Q p -> (forall r, Q r \/ achieves P False Q' (f r)) -> achieves P got Q' (pbind p f).
Proof.
  intros Hp Hf. revert got Hp. induction p as [r|A stmt k IH]; intros got Hp; cbn in *.
  { destruct (Hf r) as [Hq|Hq]; [by apply achieves_got, Hp|]. by apply (achieves_mono False). }
  destruct Hp as [Hs Hk]. split; auto.
Qed.

(** The second part alone. *)
Lemma achieves_then {R R'} (got : Prop) (Q' : R' -> Prop) (p : prog S R) (f : R -> prog S R') :
  (forall r, achieves P got Q' (f r)) -> achieves P got Q' (pbind p f).
Proof.
  intros Hf. revert got Hf. induction p as [r|A stmt k IH]; intros got Hf; cbn; [apply Hf|].
  split; [|auto]. intros s. apply IH. intros r. eapply achieves_mono; [|apply Hf]. tauto.
Qed.

Lemma achieves_none {R} (got : Prop) (p : prog S R) : achieves P got (fun _ => False) p.
Proof. revert got. induction p as [r|A stmt k IH]; intros got; cbn; [done|]. split; auto. Qed.

Lemma achieves_run {R} (got : Prop) (Q : R -> Prop) env (p : prog S R) n s s' r n' :
  achieves P got Q p -> runE env n p s = (s', r, n') -> Q r -> got \/ exists u, u ∈ after env n p s /\ P u.
Proof.
  revert got n s. induction p as [x|A stmt k IH]; intros got n s Hp Hrun Hq; cbn in Hrun |- *.
  { left. simplify_eq. by apply Hp. }
  destruct Hp as [Hs Hk]. destruct (fault (env n)) as [e|]; [by eapply IH|].
  specialize (Hs (interfere (env n) s)). destruct (stmt _) as [s1 a]. cbn in *.
  destruct (IH a _ _ _ Hs Hrun Hq) as [[Hg|Hp']|(u & Hu & Hp')]; [by left|right..].
  - exists s1. split; [by left|done].
  - exists u. split; [by right|done].
Qed.

Lemma achieves_retry {A} (fn : prog S (res A)) todo attempt last :
  achieves P False (fun r => exists a, r = Ok a) fn ->
  achieves P False (fun r => exists a, r = Ok a) (retryLoop fn todo attempt last).
Proof.
  intros Hfn. revert attempt last. induction todo as [|todo IH]; intros attempt last; [by intros [a [=]]|].
  assert (achieves P False (fun r => exists a, r = Ok a) (pbind fn (fun r =>
          match r with
          | Ok a => Ret (Ok a)
          | Err err => if negb (isRetryableLockError err) then Ret (Err err)
                       else retryLoop fn todo (Datatypes.S attempt) err
          end))) as Hbody.
  { eapply achieves_bind; [exact Hfn|]. intros [a|e]; [left; by exists a|right].
    destruct (negb _); [by intros [a [=]]|apply IH]. }
  cbn [retryLoop]. destruct (0 <? attempt)%nat; [|exact Hbody]. cbn. split.
  - intros s. apply (achieves_mono False); [tauto|exact Hbody].
  - intros e [a [=]].
Qed.
End Achieves.

(** Store calls of the plane. *)
Lemma achieves_onStore {R} (P : store -> Prop) got (Q : R -> Prop) (p : prog store R) :
  achieves P got Q p -> achieves (fun w => P (pl_db w)) got Q (onStore p).
Proof.
  revert got. induction p as [r|A stmt k IH]; intros got; cbn; [done|]. intros [Hs Hk]. split; [|by intros e; apply IH].
  intros w. specialize (Hs (pl_db w)). destruct (stmt (pl_db w)) as [s a]. by apply IH.
Qed.

Lemma achieves_stored {A} (P : plane -> Prop) got (Q : A -> Prop) (p : prog plane (res A)) :
  achieves P got (fun r => exists a, r = Ok a /\ Q a) p -> achieves P got (fun r => exists a, r = Ok a /\ Q a) (stored p).
Proof.
  intros Hp. unfold stored. revert got Hp. induction p as [r|B stmt k IH]; intros got Hp; cbn in *.
  - intros (a & Hr & Hq). apply Hp. destruct r as [a'|e]; [|done]. injection Hr as ->. by exists a.
  - destruct Hp as [Hs Hk]. split; auto.
Qed.

(** Every result of the program satisfies [Q]. *)
Abbreviation yields := (keepsView (fun _ : plane => tt) (fun _ => True)).

Lemma yields_any {R} (p : prog plane R) : yields (fun _ => True) p.
Proof. induction p as [r|A stmt k IH]; cbn; auto. Qed.

Lemma yields_after {R R'} (Q : R' -> Prop) (p : prog plane R) (f : R -> prog plane R') :
  (forall r, yields Q (f r)) -> yields Q (pbind p f).
Proof. intros Hf. eapply keepsView_bind; [apply yields_any|]. intros r _. apply Hf. Qed.

(** The second part alone, for the results of the first. *)
Lemma achieves_given {R R'} (P : plane -> Prop) got (Q : R -> Prop) (Q' : R' -> Prop) (p : prog plane R) (f : R -> prog plane R') :
  yields Q p -> (forall r, Q r -> achieves P got Q' (f r)) -> achieves P got Q' (pbind p f).
Proof.
  intros Hp Hf. revert got Hf. induction p as [r|A stmt k IH]; intros got Hf; cbn in *; [by apply Hf|].
  destruct Hp as [Hs Hk]. split; [|by intros e; apply IH]. intros w. apply IH; [by apply Hs|].
  intros r Hr. eapply achieves_mono; [|by apply Hf]. tauto.
Qed.

(** A call followed by what depends on its answer. *)
Lemma achieves_try {A B} (P : plane -> Prop) got (Q : A -> Prop) (Q' : cres B -> Prop) (p : prog plane (cres A))
    (k : A -> prog plane (cres B)) :
  achieves P got (fun r => exists a, r = Ok a /\ Q a) p -> (forall e, ~ Q' (Err e)) ->
  (forall a, Q a \/ achieves P False Q' (k a)) -> achieves P got Q' (try! x := p in k x).
Proof.
  intros Hp He Hk. eapply achieves_bind; [exact Hp|]. intros [a|e]; [|right; intros H; by destruct (He e)].
  destruct (Hk a) as [Hq|H]; [left; by exists a|by right].
Qed.

(** ** Requests on record *)

(** A request for the operation is pending. *)
Definition onRecord (id : Z) (operation : string) (s : store) : Prop := GetPending id operation s <> None.

Lemma onRecord_row id operation s cr :
  cr ∈ controls s -> cr_ApplyID cr = id -> cr_Operation cr = operation -> cr_Status cr = ControlRequestPending ->
  onRecord id operation s.
Proof.
  intros Hin H1 H2 H3. unfold onRecord, GetPending. intros Hnone. apply list_elem_of_In in Hin.
  pose proof (find_none _ _ Hnone cr Hin) as H. cbn in H. by rewrite H1, H2, H3, Z.eqb_refl, !eqb_refl' in H.
Qed.

Lemma requestExisting_records req s cr :
  (requestExisting req s).2 = Ok (Some cr) -> onRecord (cr_ApplyID req) (cr_Operation req) (requestExisting req s).1.
Proof.
  unfold requestExisting. destruct (findRequest s _ _) as [existing|] eqn:Ef; [|done].
  apply findRequest_Some in Ef as [Hin [= H1 H2]]. destruct (_ == _) eqn:Ep.
  - intros _. apply eqb_true_iff in Ep. by eapply onRecord_row.
  - intros _. eapply onRecord_row;
      [cbn; apply list_elem_of_fmap; exists existing; split; [by rewrite Z.eqb_refl|done]|done..].
Qed.

Lemma insertRequest_records req s cr :
  (insertRequest req s).2 = Ok cr -> onRecord (cr_ApplyID req) (cr_Operation req) (insertRequest req s).1.
Proof.
  unfold insertRequest. destruct (findRequest s _ _); [done|]. intros _. eapply onRecord_row; [cbn; apply elem_of_app; right; by left|done..].
Qed.

Abbreviation isOk := (fun r => exists a, r = Ok a).

Lemma requestPending_records req :
  achieves (onRecord (cr_ApplyID req) (cr_Operation req)) False isOk (requestPending req).
Proof.
  split; [|by intros e [a [=]]]. intros s. destruct (requestExisting req s) as [s' r] eqn:Er. cbn.
  destruct r as [[cr|]|e]; cbn; [|split|by intros [a [=]]].
  - intros _. right. pose proof (requestExisting_records req s cr) as H. rewrite Er in H. by apply H.
  - intros t. destruct (insertRequest req t) as [t' [cr|e]] eqn:Ei; cbn; [|by intros [a [=]]].
    intros _. right. pose proof (insertRequest_records req t cr) as H. rewrite Ei in H. by apply H.
  - by intros e [a [=]].
Qed.

Lemma RequestPending_records req :
  achieves (onRecord (cr_ApplyID req) (cr_Operation req)) False isOk (RequestPending req).
Proof.
  apply achieves_retry. eapply achieves_bind; [apply requestPending_records|].
  intros [a|e]; [left; by exists a|right]. destruct (negb _); [by intros [a [=]]|apply requestPending_records].
Qed.

(** ** An accepted command is on record *)

Definition operationOf (c : command) : string :=
  match c with
  | Stop => ControlOperationStop | Cancel => ControlOperationCancel | Start => ControlOperationStart
  | Cutover => ControlOperationCutover | Release => ControlOperationRelease | Revert => ControlOperationRevert
  | SkipRevert => ControlOperationSkipRevert
  end.

(** The command is pending; a release may also be latched already, and a cutover be
    under way. *)
Definition recorded (E : EngineNames) (c : command) (apply : Apply) (w : plane) : Prop :=
  onRecord (a_ID apply) (operationOf c) (pl_db w) \/
  match c with
  | Release => ReleasesPausedRollout (GetByOperation (a_ID apply) ControlOperationRelease (pl_db w)) = true
  | Cutover => exists t, t ∈ GetByApplyID E (a_ID apply) (pl_db w) /\ IsState (tk_State t) [Task.CuttingOver] = true
  | _ => False
  end.

Definition takenAs (r : cres (apiResponse * Z)) : Prop := exists resp status, r = Ok (resp, status) /\ ap_Accepted resp = true.

(** What the two entries of a command do once its target is resolved. *)
Section Body.
Context (E : EngineNames) (foundRows hasOptions : bool) (clockNow : Z) (ctx : leaseCtx).
Context (AuthenticatedSubject : option string) (unmarshalCounts : string -> string -> option (Z * Z)).
Context (protoStateName : ProtoState -> string).

Definition bodyOf (c : command) (client : ternClient) (apply : Apply) (ternApplyID environment caller : string)
    : prog plane (cres (apiResponse * Z)) :=
  match c with
  | Stop => executeStopForApply E foundRows ctx AuthenticatedSubject unmarshalCounts (Some client) apply ternApplyID environment caller
  | Cancel => executeCancelForApply E foundRows ctx AuthenticatedSubject unmarshalCounts (Some client) apply caller
  | Start => executeStartForApply E foundRows hasOptions clockNow ctx AuthenticatedSubject unmarshalCounts protoStateName client apply caller
  | Cutover => try! _ := rejectControlIfStopPending "cutover" apply in
               executeCutoverForApply E AuthenticatedSubject (Some client) apply ternApplyID caller
  | Release => executeReleaseForApply AuthenticatedSubject apply caller
  | Revert => executeRevertForApply foundRows ctx AuthenticatedSubject client apply ternApplyID caller
  | SkipRevert => executeSkipRevertForApply foundRows clockNow ctx AuthenticatedSubject client apply ternApplyID caller
  end.

Context (TernClient : string -> string -> result string ternClient).

(** The comment commands run it on the target that [controlTarget] resolves. *)
Lemma execute_run c req env n w :
  let p := Execute E foundRows hasOptions clockNow ctx AuthenticatedSubject unmarshalCounts protoStateName TernClient c req in
  let q := try! (client, apply, ternApplyID) := controlTarget TernClient (cb_ApplyID req) (cb_Environment req) in
           try! (resp, _) := bodyOf c client apply ternApplyID (cb_Environment req) (cb_Caller req) in Ret (Ok resp) in
  runE env n p w = runE env n q w /\ after env n p w = after env n q w.
Proof.
  destruct c; try (by split). intros p q. unfold p, q, Execute, ExecuteCutover. rewrite !runE_bind, !after_bind.
  destruct (runE env n (controlTarget _ _ _) w) as [[w1 [[[client apply] id]|e]] n1]; [|done]. cbn [bodyOf].
  rewrite !runE_bind, !after_bind, !runE_bind.
  destruct (runE env n1 (rejectControlIfStopPending _ _) w1) as [[w2 [u|e]] n2]; [|by cbn; rewrite ?app_nil_r].
  rewrite !runE_bind, !after_bind. split; [done|]. by rewrite <- !app_assoc.
Qed.

(** The handlers run it on the target that [decodeControlRequest] resolves. *)
Lemma handle_run errText c body env n w :
  runE env n (handle E foundRows hasOptions clockNow ctx AuthenticatedSubject unmarshalCounts protoStateName TernClient errText c body) w =
  let '(w1, decoded, n1) := runE env n (decodeControlRequest TernClient errText body) w in
  match decoded with
  | Err (status, message) => (w1, writeError status message, n1)
  | Ok (req, (client, apply, ternApplyID)) =>
      let '(w2, r, n2) := runE env n1 (bodyOf c client apply ternApplyID (cb_Environment req) (cb_Caller req)) w1 in
      (w2, match r with
           | Err e => writeControlError errText (match c with
               | Stop => "stop" | Cancel => "cancel" | Start => "start" | Cutover => "cutover" | Release => "release"
               | Revert => "revert" | SkipRevert => "skip-revert" end) e
           | Ok (resp, httpStatus) => writeJSON httpStatus resp
           end, n2)
  end.
Proof.
  destruct c; cbn [handle];
    (match goal with |- runE _ _ (?h _ _) _ = _ => idtac | |- _ => idtac end);
    unfold handleStop, handleCancel, handleStart, handleCutover, handleRelease, handleRevert, handleSkipRevert; rewrite runE_bind;
    destruct (runE env n (decodeControlRequest _ _ _) w) as [[w1 [[req [[client apply] id]]|[status message]]] n1]; try done;
    cbn [bodyOf]; rewrite !runE_bind.
  4: destruct (runE env n1 (rejectControlIfStopPending _ _) w1) as [[w2 [u|e]] n2]; [rewrite !runE_bind|done].
  all: by destruct (runE env _ _ _) as [[w3 [[resp status]|e]] n3].
Qed.
End Body.

Section Recorded.
Context (E : EngineNames) (foundRows hasOptions : bool) (clockNow : Z) (ctx : leaseCtx).
Context (AuthenticatedSubject : option string) (unmarshalCounts : string -> string -> option (Z * Z)).
Context (protoStateName : ProtoState -> string).

Abbreviation pendingOf apply operation := (fun w => onRecord (a_ID apply) operation (pl_db w)).

Lemma read_records {A} (f : store -> A) (P : store -> Prop) (Q : A -> Prop) :
  (forall s, Q (f s) -> P s) ->
  achieves (fun w => P (pl_db w)) False (fun r => exists a, r = Ok a /\ Q a) (stored (readStore f)).
Proof.
  intros HQ. apply achieves_stored. split; [|by intros e (a & [=] & _)]. intros w. cbn.
  intros (a & [= <-] & Hq). right. by apply HQ.
Qed.

Lemma create_records apply operation caller metadata :
  achieves (pendingOf apply operation) False (fun r => exists a, r = Ok a /\ True)
    (createControlRequest apply operation caller metadata).
Proof.
  apply achieves_stored. eapply achieves_weaken; [|apply (achieves_onStore _ _ _ _ (RequestPending_records (newRequest apply operation caller metadata)))].
  intros r (a & -> & _). by exists a.
Qed.

Lemma pending_records apply operation :
  achieves (pendingOf apply operation) False (fun r => exists a, r = Ok a /\ a <> None)
    (pendingControlResponseIfPresent unmarshalCounts apply operation).
Proof.
  eapply achieves_try; [by apply (read_records _ (onRecord (a_ID apply) operation) (fun r => r <> None))|by intros e (a & [=] & _)|].
  intros [req|]; [by left|right]. by intros (a & [= <-] & []).
Qed.

Lemma recordCounts_records apply operation caller changed skipped status :
  achieves (pendingOf apply operation) False (fun r => exists a, r = Ok a /\ True)
    (recordCounts unmarshalCounts apply operation caller changed skipped status).
Proof.
  eapply achieves_try; [apply create_records|by intros e (a & [=] & _)|]. intros [req already]. by left.
Qed.

Lemma queue_records guard apply operation caller :
  achieves (pendingOf apply operation) False (fun r => exists a, r = Ok a /\ True)
    (queueForApplyOwner E unmarshalCounts guard apply operation caller).
Proof.
  eapply achieves_try; [apply pending_records|by intros e (a & [=] & _)|].
  intros [r|]; [by left|right]. destruct guard as [u|e]; [|by intros (a & [=] & _)].
  apply achieves_then. intros [tasks|e]; [|by intros (a & [=] & _)].
  destruct (stopRequestCounts tasks) as [stopped skipped]. destruct (_ && _); [by intros (a & [=] & _)|].
  apply recordCounts_records.
Qed.

Lemma start_records client apply caller :
  achieves (pendingOf apply ControlOperationStart) False (fun r => exists a, r = Ok a /\ True)
    (queueStart E hasOptions clockNow ctx unmarshalCounts protoStateName client apply caller).
Proof.
  assert (forall e, achieves (pendingOf apply ControlOperationStart) False
            (fun r : cres (StopResponse * string) => exists a, r = Ok a /\ True) (Ret (Err e))) as Herr.
  { by intros e (a & [=] & _). }
  unfold queueStart. destruct (IsState _ _); [apply recordCounts_records|].
  destruct (IsState _ _).
  { eapply achieves_try; [apply pending_records|by intros e (a & [=] & _)|].
    intros [r|]; [by left|right]. apply Herr. }
  destruct (storedApplyMayHaveStoppedTasksForStart _) eqn:Est; [|apply Herr].
  eapply achieves_try; [apply pending_records|by intros e (a & [=] & _)|]. intros [r|]; [by left|right].
  assert (forall apply', a_ID apply' = a_ID apply -> forall a b,
    achieves (pendingOf apply ControlOperationStart) False (fun r => exists a, r = Ok a /\ True)
      (try! apply'' := ensureStoredApplyStoppedForStartClaim hasOptions clockNow ctx apply' in
       persistStartRequestForOperator unmarshalCounts apply'' caller a b)) as Hens.
  { intros apply' Hid a b. unfold ensureStoredApplyStoppedForStartClaim. destruct (negb _).
    - cbn [pbind]. rewrite <- Hid. apply recordCounts_records.
    - split; [|by intros e (c & [=] & _)]. intros w. apply (achieves_mono _ False); [tauto|]. cbn.
      destruct (Applies.Update _ _ _ _) as [s [u|e]]; [|by intros (c & [=] & _)].
      rewrite <- Hid. apply (recordCounts_records (set_stopped clockNow None apply')). }
  destruct (_ && _).
  - unfold queueRemoteStoppedApplyForOperator. rewrite Est. apply achieves_then. intros [resp|e]; [|apply Herr].
    cbv zeta. destruct (negb _); [apply Herr|]. destruct (remoteStoppedApplyStartCounts _ _). by apply Hens.
  - unfold queueStoppedApplyForOperator. rewrite Est. apply achieves_then. intros [tasks|e]; [|apply Herr].
    destruct (startCounts _). destruct (_ =? 0); [apply Herr|]. by apply Hens.
Qed.

Lemma release_latched_records apply :
  achieves (fun w => ReleasesPausedRollout (GetByOperation (a_ID apply) ControlOperationRelease (pl_db w)) = true) False
    (fun r => exists a, r = Ok a /\ a = true) (releaseAlreadyLatched apply).
Proof.
  eapply achieves_try;
    [apply (read_records _ (fun s => ReleasesPausedRollout (GetByOperation (a_ID apply) ControlOperationRelease s) = true)
              (fun r => ReleasesPausedRollout r = true)); by intros s H|by intros e (a & [=] & _)|].
  intros r. destruct (ReleasesPausedRollout r) eqn:Er; [by left|right]. by intros (a & [= <-] & [=]).
Qed.

(** A cutover is answered as under way only when a task is seen cutting over. *)
Lemma taskReadiness_inProgress ready ts :
  taskReadiness ready ts = cutoverRequestAlreadyInProgress -> exists t, t ∈ ts /\ IsState (tk_State t) [Task.CuttingOver] = true.
Proof.
  revert ready. induction ts as [|t ts IH]; intros ready; cbn [taskReadiness]; [by destruct ready|].
  destruct (IsState (tk_State t) [Task.CuttingOver]) eqn:Et; [intros _; exists t; split; [by left|done]|].
  intros H. destruct (IH _ H) as (t' & Hin & Ht'). exists t'. split; [by right|done].
Qed.

Lemma readiness_records client apply ternApplyID multiOp :
  achieves (recorded E Cutover apply) (IsState (a_State apply) [Apply.CuttingOver] = true)
    (fun r => exists a, r = Ok a /\ a = cutoverRequestAlreadyInProgress)
    (cutoverRequestReadiness E client apply ternApplyID multiOp).
Proof.
  unfold cutoverRequestReadiness. destruct (IsState _ [Apply.WaitingForCutover]); [by intros (a & [= <-] & [=])|].
  destruct (IsState _ [Apply.CuttingOver]) eqn:Ec; [done|]. destruct (IsState _ [Apply.Recovering]); [by intros (a & [= <-] & [=])|].
  cbv zeta.
  assert (achieves (recorded E Cutover apply) (false = true)
    (fun r => exists a, r = Ok a /\ a = cutoverRequestAlreadyInProgress)
    (if negb (IsRunningApplyState (a_State apply)) then Ret (Ok cutoverRequestNotReady) else
     try! tasks := stored (readStore (GetByApplyID E (a_ID apply))) in Ret (Ok (taskReadiness false tasks)))) as Htasks.
  { destruct (negb _); [by intros (a & [= <-] & [=])|]. split; [|by intros e (a & [=] & _)].
    intros w. cbn. intros (a & [= <-] & H). right. right. by eapply taskReadiness_inProgress. }
  destruct client as [c|]; [|exact Htasks]. destruct (_ && _); [|exact Htasks].
  apply achieves_then. intros [progress|e]; [|by intros (a & [=] & _)].
  cbv zeta. repeat destruct (IsState _ _); by intros (a & [= <-] & [=]).
Qed.

Lemma revertIntent_records name operation opposite conflict call onAccepted apply caller :
  achieves (pendingOf apply operation) False takenAs
    (revertIntent foundRows ctx AuthenticatedSubject name operation opposite conflict call onAccepted apply caller).
Proof.
  assert (forall e, achieves (pendingOf apply operation) False takenAs (Ret (Err e))) as Herr by by intros e (a & b & [=] & _).
  unfold revertIntent. destruct (_ != _); [apply Herr|]. destruct (negb _); [apply Herr|].
  apply achieves_then. intros [[contrary|]|e]; [apply Herr| |apply Herr].
  eapply achieves_try; [apply create_records|by intros e (a & b & [=] & _)|]. intros [req already]. by left.
Qed.

Lemma cutover_records client apply ternApplyID caller :
  achieves (recorded E Cutover apply) (Cutover = Cutover /\ IsState (a_State apply) [Apply.CuttingOver] = true) takenAs
    (executeCutoverForApply E AuthenticatedSubject client apply ternApplyID caller).
Proof.
  assert (forall e, ~ takenAs (Err e)) as Hno by by intros e (a & b & [=] & _).
  assert (forall e got, achieves (recorded E Cutover apply) got takenAs (Ret (Err e))) as Herr.
  { intros e got H. by destruct (Hno e). }
  unfold executeCutoverForApply. apply (achieves_mono _ (IsState (a_State apply) [Apply.CuttingOver] = true)); [done|].
  split; [|intros e; apply Herr]. intros w. cbn [snd fst read focus pbind].
  destruct (GetPending (a_ID apply) ControlOperationCutover (pl_db w)) as [req|] eqn:Ep.
  { apply achieves_got. right. left. unfold onRecord. cbn. congruence. }
  apply (achieves_mono _ (IsState (a_State apply) [Apply.CuttingOver] = true)); [tauto|].
  apply achieves_then. intros [multiOp|e]; [|apply Herr].
  eapply achieves_try; [apply readiness_records|done|]. intros [| | |]; [right; apply Herr| |by left|right; apply Herr].
  right. eapply achieves_try; [|done|].
  { eapply achieves_impl; [|apply create_records]. intros w'. by left. }
  intros [req already]. by left.
Qed.

Lemma release_records apply caller :
  achieves (recorded E Release apply) False takenAs (executeReleaseForApply AuthenticatedSubject apply caller).
Proof.
  assert (forall e, ~ takenAs (Err e)) as Hno by by intros e (a & b & [=] & _).
  apply achieves_then. intros [u|e]; [|apply Hno]. apply achieves_then. intros [v|e]; [|apply Hno].
  eapply achieves_try; [eapply achieves_impl; [|apply release_latched_records]; by right|done|].
  intros [|]; [by left|right]. eapply achieves_try; [eapply achieves_impl; [|apply create_records]; by left|done|].
  intros [req already]. by left.
Qed.

Lemma resolved_stop_same client apply :
  yields (fun r => match r with Ok a => a_ID a = a_ID apply | Err _ => True end)
    (completeResolvedStopBeforeStart foundRows hasOptions clockNow ctx client apply).
Proof.
  apply yields_after. intros [[req|]|e]; [|done..].
  destruct (stopRequestCompletedByApplyState _); [apply yields_after; by intros [u|e]|].
  destruct (negb _); [done|]. destruct (_ == _); [done|]. apply yields_after. intros [progress|e]; [|done].
  destruct (negb _); [done|]. apply yields_after. intros [u|e]; [|done]. apply yields_after. by intros [v|e].
Qed.

Lemma command_records c client apply ternApplyID environment caller :
  achieves (recorded E c apply) (c = Cutover /\ IsState (a_State apply) [Apply.CuttingOver] = true) takenAs
    (bodyOf E foundRows hasOptions clockNow ctx AuthenticatedSubject unmarshalCounts protoStateName c client apply
       ternApplyID environment caller).
Proof.
  assert (forall c (Q : cres (apiResponse * Z) -> Prop) got p, achieves (pendingOf apply (operationOf c)) False Q p ->
            achieves (recorded E c apply) got Q p) as Hpending.
  { intros c' Q got p Hp. apply (achieves_mono _ False); [done|]. revert Hp. apply achieves_impl. by left. }
  assert (forall e, ~ takenAs (Err e)) as Hno by by intros e (a & b & [=] & _).
  destruct c; cbn [bodyOf].
  - apply Hpending. unfold executeStopForApply. destruct (_ == _); [apply Hno|].
    eapply achieves_try; [apply queue_records|done|]. intros [resp st]. by left.
  - apply Hpending. unfold executeCancelForApply. destruct (_ && _); [apply Hno|].
    eapply achieves_try; [apply queue_records|done|]. intros [resp st]. by left.
  - apply Hpending. unfold executeStartForApply. destruct (validateStartRequestState apply); [|apply Hno].
    eapply achieves_given; [apply resolved_stop_same|]. intros [apply'|e] Hid; [|apply Hno].
    apply achieves_then. intros [v|e]; [|apply Hno]. rewrite <- Hid.
    eapply achieves_try; [apply start_records|done|]. intros [resp st]. by left.
  - apply achieves_then. intros [u|e]; [|intros H; by destruct (Hno e)]. apply cutover_records.
  - apply (achieves_mono _ False); [done|]. apply release_records.
  - apply Hpending, revertIntent_records.
  - apply Hpending, revertIntent_records.
Qed.
End Recorded.

(** ** Contradictions *)

(** The operations whose pending requests a command contradicts. *)
Definition contraries (c : command) : list string :=
  match c with
  | Cutover | Release => [ControlOperationStop; ControlOperationCancel]
  | Start => [ControlOperationCancel]
  | Revert => [ControlOperationSkipRevert]
  | SkipRevert => [ControlOperationRevert]
  | Stop | Cancel => []
  end.

(** The identifier names no other apply, and the contrary operation is pending for it;
    a start finds no stop that has to be settled first. *)
Record standsAgainst (c : command) (contrary identifier : string) (id : Z) (w : plane) : Prop := {
  sa_named : forall a, findApplyByIdentifier identifier (pl_db w) = Some a -> a_ID a = id;
  sa_pending : onRecord id contrary (pl_db w);
  sa_settled : c = Start -> GetPending id ControlOperationStop (pl_db w) = None;
}.

Abbreviation untouched := (keepsView (fun w : plane => w)).
Abbreviation refused := (fun r => match r with Ok _ => False | Err _ => True end).

Section Contradicted.
Context (E : EngineNames) (foundRows hasOptions : bool) (clockNow : Z) (ctx : leaseCtx).
Context (AuthenticatedSubject : option string) (unmarshalCounts : string -> string -> option (Z * Z)).
Context (protoStateName : ProtoState -> string) (TernClient : string -> string -> result string ternClient).

Lemma untouched_read {A} cond (f : store -> A) :
  untouched cond (fun r => match r with Ok a => exists w, cond w /\ a = f (pl_db w) | Err _ => True end) (stored (readStore f)).
Proof.
  split; [|done]. intros w Hw. cbn. split; [by destruct w|]. split; [by destruct w|]. by exists w.
Qed.

Lemma untouched_try {A B} cond (Q : A -> Prop) (Q' : cres B -> Prop) (p : prog plane (cres A)) (k : A -> prog plane (cres B)) :
  untouched cond (fun r => match r with Ok a => Q a | Err _ => True end) p ->
  (forall e, Q' (Err e)) -> (forall a, Q a -> untouched cond Q' (k a)) -> untouched cond Q' (try! x := p in k x).
Proof. intros Hp He Hk. eapply keepsView_bind; [exact Hp|]. intros [a|e] H; [by apply Hk|apply He]. Qed.

Lemma untouched_pending cond apply operation :
  (forall w, cond w -> onRecord (a_ID apply) operation (pl_db w)) ->
  untouched cond (fun r => match r with Ok a => a <> None | Err _ => True end) (getPending apply operation).
Proof.
  intros Hc. eapply keepsView_weaken; [|apply untouched_read]. intros [a|e]; [|done].
  intros (w & Hw & ->). by apply Hc.
Qed.

Lemma untouched_absent cond apply operation :
  (forall w, cond w -> GetPending (a_ID apply) operation (pl_db w) = None) ->
  untouched cond (fun r => match r with Ok a => a = None | Err _ => True end) (getPending apply operation).
Proof.
  intros Hc. eapply keepsView_weaken; [|apply untouched_read]. intros [a|e]; [|done].
  intros (w & Hw & ->). by apply Hc.
Qed.

Lemma untouched_reject cond operation opName apply :
  operation ∈ [ControlOperationStop; ControlOperationCancel] ->
  (forall w, cond w -> onRecord (a_ID apply) operation (pl_db w)) ->
  untouched cond refused (rejectControlIfStopPending opName apply).
Proof.
  intros Hop Hc. apply list_elem_of_In in Hop as [<-|[<-|[]]].
  - eapply untouched_try; [by apply untouched_pending|done|]. by intros [req|].
  - eapply untouched_try; [apply untouched_read|done|]. intros [req|] _; [done|].
    eapply untouched_try; [by apply untouched_pending|done|]. by intros [req|].
Qed.

Lemma untouched_refused {A B} cond (p : prog plane (cres A)) (k : A -> prog plane (cres B)) :
  untouched cond refused p -> untouched cond refused (try! x := p in k x).
Proof. intros Hp. eapply keepsView_bind; [exact Hp|]. by intros [a|e]. Qed.

Lemma untouched_target cond identifier environment (Q : Apply -> Prop) :
  (forall w a, cond w -> findApplyByIdentifier identifier (pl_db w) = Some a -> Q a) ->
  untouched cond (fun r => match r with Ok (_, apply, _) => Q apply | Err _ => True end)
    (controlTarget TernClient identifier environment).
Proof.
  intros HQ. unfold controlTarget. destruct (_ == _); [done|]. destruct (_ == _); [done|].
  eapply untouched_try; [apply untouched_read|done|]. intros [apply|] (w & Hw & Ha); [|done].
  destruct (_ != _); [done|]. destruct (storedDeploymentForApply apply); [|done].
  destruct (TernClient _ _); [|done]. by apply (HQ w).
Qed.

Lemma untouched_revert cond name operation opposite conflict call onAccepted apply caller :
  (forall w, cond w -> onRecord (a_ID apply) opposite (pl_db w)) ->
  untouched cond refused
    (revertIntent foundRows ctx AuthenticatedSubject name operation opposite conflict call onAccepted apply caller).
Proof.
  intros Hc. unfold revertIntent. destruct (_ != _); [done|]. destruct (negb _); [done|].
  eapply untouched_try; [by apply untouched_pending|done|]. by intros [req|].
Qed.

Lemma untouched_release cond operation apply caller :
  operation ∈ [ControlOperationStop; ControlOperationCancel] ->
  (forall w, cond w -> onRecord (a_ID apply) operation (pl_db w)) ->
  untouched cond refused (executeReleaseForApply AuthenticatedSubject apply caller).
Proof.
  intros Hop Hc. eapply (untouched_try _ (fun _ => True)); [|done|].
  - unfold validateReleaseRequestState. destruct (IsTerminalApplyState _); [done|].
    eapply untouched_try; [apply untouched_read|done|]. intros ops _. destruct (negb _); [done|]. by destruct (negb _).
  - intros [] _. apply untouched_refused. by eapply untouched_reject.
Qed.

Lemma untouched_start cond client apply caller :
  (forall w, cond w -> onRecord (a_ID apply) ControlOperationCancel (pl_db w)) ->
  (forall w, cond w -> GetPending (a_ID apply) ControlOperationStop (pl_db w) = None) ->
  untouched cond refused (executeStartForApply E foundRows hasOptions clockNow ctx AuthenticatedSubject unmarshalCounts
                            protoStateName client apply caller).
Proof.
  intros Hc Hs. unfold executeStartForApply. destruct (validateStartRequestState apply); [|done].
  eapply (untouched_try _ (fun a => a = apply)); [|done|].
  - eapply untouched_try; [by apply untouched_absent|done|]. by intros [req|].
  - intros ? ->. apply untouched_refused. eapply untouched_reject; [|exact Hc]. right. by left.
Qed.

Lemma untouched_command c contrary identifier id req :
  contrary ∈ contraries c -> cb_ApplyID req = identifier ->
  untouched (standsAgainst c contrary identifier id) refused
    (Execute E foundRows hasOptions clockNow ctx AuthenticatedSubject unmarshalCounts protoStateName TernClient c req).
Proof.
  intros Hin <-. destruct c; cbn [Execute]; try (by destruct (not_elem_of_nil contrary Hin));
    (eapply keepsView_bind; [apply (untouched_target _ _ _ (fun a => a_ID a = id)); by intros w a [H _ _]; apply H|];
     intros [[[client apply] ternApplyID]|e] Hid; [|done]; apply untouched_refused;
     match goal with |- untouched ?cond _ _ =>
       assert (forall w, cond w -> onRecord (a_ID apply) contrary (pl_db w)) as Hp by (rewrite Hid; by intros w []) end).
  - apply list_elem_of_singleton in Hin as ->. apply untouched_start; [exact Hp|].
    rewrite Hid. intros w [_ _ Hs]. by apply Hs.
  - exact (untouched_reject _ contrary _ _ Hin Hp).
  - exact (untouched_release _ contrary _ _ Hin Hp).
  - apply list_elem_of_singleton in Hin as ->. apply untouched_revert. exact Hp.
  - apply list_elem_of_singleton in Hin as ->. apply untouched_revert. exact Hp.
Qed.
End Contradicted.

(** ** The HTTP handlers answer as the commands do *)

Section Http.
Context (E : EngineNames) (foundRows hasOptions : bool) (clockNow : Z) (ctx : leaseCtx).
Context (AuthenticatedSubject : option string) (unmarshalCounts : string -> string -> option (Z * Z)).
Context (protoStateName : ProtoState -> string) (TernClient : string -> string -> result string ternClient).
Context (errText : StoreErr -> string).

Lemma decode_agrees env n w req :
  exists r, runE env n (decodeControlRequest TernClient errText (Ok req)) w =
    ((runE env n (controlTarget TernClient (cb_ApplyID req) (cb_Environment req)) w).1.1, r,
     (runE env n (controlTarget TernClient (cb_ApplyID req) (cb_Environment req)) w).2) /\
    match r, (runE env n (controlTarget TernClient (cb_ApplyID req) (cb_Environment req)) w).1.2 with
    | Ok (req', t), Ok t' => req' = req /\ t = t'
    | Err (status, _), Err e => status = controlOperationHTTPStatus e
    | _, _ => False
    end.
Proof.
  unfold decodeControlRequest, controlTarget. destruct (cb_ApplyID req == ""); [by eexists|].
  destruct (cb_Environment req == ""); [by eexists|]. unfold stored, readStore, onStore. cbn [pbind focus runE].
  destruct (fault (env n)) as [e|]; [by eexists|]. cbn [read fst snd].
  destruct (findApplyByIdentifier _ _) as [apply|]; [|by eexists]. cbn [pbind].
  destruct (_ != _); [by eexists|]. unfold storedDeploymentForApply. destruct (_ == _); [by eexists|].
  destruct (TernClient _ _); by eexists.
Qed.

Abbreviation answered := (fun r : cres (apiResponse * Z) =>
  match r with Ok (_, status) => status ∈ [StatusOK; StatusAccepted] | Err _ => True end).

Lemma requestStatus_ok status : requestStatus status ∈ [StatusOK; StatusAccepted].
Proof. unfold requestStatus. destruct (_ == _); [right|]; by left. Qed.

Lemma command_status c client apply ternApplyID environment caller :
  yields answered (bodyOf E foundRows hasOptions clockNow ctx AuthenticatedSubject unmarshalCounts protoStateName c
                     client apply ternApplyID environment caller).
Proof.
  assert (StatusOK ∈ [StatusOK; StatusAccepted]) as Hok by by left.
  assert (StatusAccepted ∈ [StatusOK; StatusAccepted]) as Hacc by by right; left.
  assert (forall name operation opposite conflict call onAccepted,
    yields answered (revertIntent foundRows ctx AuthenticatedSubject name operation opposite conflict call onAccepted apply caller))
    as Hrevert.
  { intros. unfold revertIntent. destruct (_ != _); [done|]. destruct (negb _); [done|].
    apply yields_after. intros [[r|]|e]; [done| |done]. apply yields_after. intros [[r [|]]|e]; [exact Hacc| |done].
    apply yields_after. intros [r'|e]; [|exact Hacc]. apply yields_after. intros []. exact Hok. }
  destruct c; cbn [bodyOf]; [| | | | |apply Hrevert|apply Hrevert].
  - unfold executeStopForApply. destruct (_ == _); [done|]. apply yields_after. intros [[r st]|e]; [|done].
    apply yields_after. intros []. apply requestStatus_ok.
  - unfold executeCancelForApply. destruct (_ && _); [done|]. apply yields_after. intros [[r st]|e]; [|done].
    apply yields_after. intros []. apply requestStatus_ok.
  - unfold executeStartForApply. destruct (validateStartRequestState apply) as [u|]; [|done].
    apply yields_after. intros [apply'|e]; [|done]. apply yields_after. intros [v|e]; [|done].
    apply yields_after. intros [[r st]|e]; [|done]. apply requestStatus_ok.
  - apply yields_after. intros [v|e]; [|done]. apply yields_after. intros [[r|]|e]; [exact Hacc| |done].
    apply yields_after. intros [b|e]; [|done]. apply yields_after. intros [[]|e]; try done.
    apply yields_after. intros [[r [|]]|e]; [exact Hacc|exact Hok|done].
  - apply yields_after. intros [v|e]; [|done]. apply yields_after. intros [v'|e]; [|done].
    apply yields_after. intros [[|]|e]; [exact Hacc| |done]. apply yields_after. intros [[r b]|e]; [|done].
    apply requestStatus_ok.
Qed.

Lemma yields_run {R} (Q : R -> Prop) (p : prog plane R) env n w w' r n' :
  yields Q p -> runE env n p w = (w', r, n') -> Q r.
Proof. intros Hp Hrun. refine (proj1 (keepsView_run _ _ Q env p n w w' r n' _ Hp _ Hrun)); done. Qed.
End Http.

(** ** A start is for work that rests *)

(** Some execution of the program returns [r]. *)
Fixpoint mayReturn {S R} (p : prog S R) (r : R) : Prop :=
  match p with
  | Ret r' => r' = r
  | Exec stmt k => (exists s, mayReturn (k (stmt s).2) r) \/ exists e, mayReturn (k (Err e)) r
  end.

Lemma yields_return {R} (p : prog plane R) : yields (mayReturn p) p.
Proof.
  induction p as [r|A stmt k IH]; cbn; [done|]. split.
  - intros w _. split; [done|]. split; [done|]. eapply keepsView_weaken; [|apply IH]. intros r Hr. left. by exists w.
  - intros e. eapply keepsView_weaken; [|apply IH]. intros r Hr. right. by exists e.
Qed.

(** The data plane reports the apply as stopped. *)
Definition reportedStopped (client : ternClient) (apply : Apply) : Prop :=
  exists progress, mayReturn (tc_Progress client (a_ExternalID apply) (a_Environment apply)) (Ok progress) /\
    IsState (ProtoStateToStorage (rp_State progress)) [Apply.Stopped] = true.

Definition hasStoppedTask (E : EngineNames) (apply : Apply) (w : plane) : Prop :=
  exists t, t ∈ GetByApplyID E (a_ID apply) (pl_db w) /\ IsState (tk_State t) [Task.Stopped] = true.

(** The work rests without a look at the tasks. *)
Definition atRest (client : ternClient) (apply : Apply) : Prop :=
  IsState (a_State apply) [Apply.WaitingForDeploy] = true \/ reportedStopped client apply.

Section Started.
Context (E : EngineNames) (foundRows hasOptions : bool) (clockNow : Z) (ctx : leaseCtx).
Context (AuthenticatedSubject : option string) (unmarshalCounts : string -> string -> option (Z * Z)).
Context (protoStateName : ProtoState -> string).

(** A start that is newly queued. *)
Abbreviation queued := (fun r : cres (StopResponse * string) => exists resp, r = Ok (resp, startResponseStatusQueued)).

Lemma startCounts_stopped states started skipped :
  startCounts states = (started, skipped) -> started <> 0 -> exists st, st ∈ states /\ IsState st [Task.Stopped] = true.
Proof.
  assert (forall acc, (fold_left (fun '(started, skipped) st =>
    if IsState st [Task.Stopped] then (started + 1, skipped)
    else if IsTerminalTaskState st then (started, skipped + 1) else (started, skipped)) states acc).1 <> acc.1 ->
    exists st, st ∈ states /\ IsState st [Task.Stopped] = true) as H.
  { induction states as [|st states IH]; intros [a b] Hne; [done|]. cbn [fold_left] in Hne.
    destruct (IsState st [Task.Stopped]) eqn:Est; [exists st; split; [by left|done]|].
    destruct (IsTerminalTaskState st); destruct (IH _ Hne) as (st' & Hin & Hst');
      exists st'; (split; [by right|done]). }
  intros Hc Hne. apply (H (0, 0)). change (fold_left _ states (0, 0)) with (startCounts states). by rewrite Hc.
Qed.

Lemma pending_notQueued apply operation :
  yields (fun r => match r with Ok (Some (_, status)) => status = ControlStatusAlreadyRequested | _ => True end)
    (pendingControlResponseIfPresent unmarshalCounts apply operation).
Proof.
  apply yields_after. intros [[req|]|e]; [|done..]. by destruct (responseFromControlRequest _ _ _).
Qed.

Lemma start_rests client apply caller :
  achieves (hasStoppedTask E apply) (atRest client apply) queued
    (queueStart E hasOptions clockNow ctx unmarshalCounts protoStateName client apply caller).
Proof.
  assert (forall e got, achieves (hasStoppedTask E apply) got queued (Ret (Err e))) as Herr by by intros e got (a & [=]).
  unfold queueStart, atRest. destruct (IsState _ [Apply.WaitingForDeploy]) eqn:Ed.
  { apply achieves_got. by left. }
  destruct (IsState _ [Apply.Pending]).
  { eapply achieves_given; [apply pending_notQueued|]. intros [[[r st]|]|e] Hst; [|apply Herr..].
    intros (resp & [= _ ->]). discriminate Hst. }
  destruct (storedApplyMayHaveStoppedTasksForStart _) eqn:Est; [|apply Herr].
  eapply achieves_given; [apply pending_notQueued|]. intros [[[r st]|]|e] Hst; [| |apply Herr].
  { intros (resp & [= _ ->]). discriminate Hst. }
  destruct (_ && _).
  - unfold queueRemoteStoppedApplyForOperator. rewrite Est. cbn [negb].
    eapply (achieves_given _ _ (fun r => match r with
      | Ok p => mayReturn (tc_Progress client (a_ExternalID apply) (a_Environment apply)) (Ok p) | Err _ => True end)).
    { unfold stored. eapply keepsView_bind; [apply yields_return|]. by intros [p|e] Hr. }
    intros [resp|e] Hr; [|apply Herr]. cbv zeta. destruct (IsState (ProtoStateToStorage _) _) eqn:Er; cbn [negb]; [|apply Herr].
    apply achieves_got. right. by exists resp.
  - unfold queueStoppedApplyForOperator. rewrite Est. cbn [negb].
    split; [|intros e; apply Herr]. intros w. cbn [snd fst read focus pbind].
    destruct (startCounts _) as [started skipped] eqn:Ec. destruct (started =? 0) eqn:Ez; [apply Herr|].
    apply achieves_got. right. apply Z.eqb_neq in Ez. destruct (startCounts_stopped _ _ _ Ec Ez) as (st & Hin & Hst').
    apply list_elem_of_fmap in Hin as (t & -> & Hin). exists t. split; [|done]. by destruct w.
Qed.

(** The stop that is settled first leaves the apply as it is or marks it stopped. *)
Lemma resolved_stop_rests client apply :
  yields (fun r => match r with Ok a => a = apply \/ a = set_stopped clockNow (Some clockNow) apply | Err _ => True end)
    (completeResolvedStopBeforeStart foundRows hasOptions clockNow ctx client apply).
Proof.
  apply yields_after. intros [[req|]|e]; [|by left|done].
  destruct (stopRequestCompletedByApplyState _); [apply yields_after; intros [u|e]; [by left|done]|].
  destruct (negb _); [by left|]. destruct (_ == _); [by left|]. apply yields_after. intros [progress|e]; [|done].
  destruct (negb _); [by left|]. apply yields_after. intros [u|e]; [|done]. apply yields_after. intros [v|e]; [by right|done].
Qed.

Lemma startCommand_rests client apply caller :
  achieves (hasStoppedTask E apply) (atRest client apply)
    (fun r => exists resp status, r = Ok (resp, status) /\ ap_Status resp = startResponseStatusQueued)
    (executeStartForApply E foundRows hasOptions clockNow ctx AuthenticatedSubject unmarshalCounts protoStateName client apply
       caller).
Proof.
  assert (forall e got, achieves (hasStoppedTask E apply) got
    (fun r : cres (apiResponse * Z) => exists resp status, r = Ok (resp, status) /\ ap_Status resp = startResponseStatusQueued)
    (Ret (Err e))) as Herr by by intros e got (a & b & [=] & _).
  unfold executeStartForApply. destruct (validateStartRequestState apply) as [u|]; [|apply Herr].
  eapply achieves_given; [apply resolved_stop_rests|]. intros [apply'|e] Ha; [|apply Herr].
  apply achieves_then. intros [v|e]; [|apply Herr].
  eapply (achieves_bind _ _ queued).
  - destruct Ha as [->| ->]; [apply start_rests|].
    eapply achieves_mono; [|apply (start_rests client (set_stopped clockNow (Some clockNow) apply))].
    intros [Hd|Hr]; [discriminate Hd|by right].
  - intros [[r st]|e]; [|right; apply Herr]. destruct (decide (st = startResponseStatusQueued)) as [->|Hne].
    + left. by exists r.
    + right. intros (resp & status & [= <- <-] & Hst). by destruct Hne.
Qed.
End Started.

(** ** Accepted commands and their targets *)

Section Accepted.
Context (E : EngineNames) (foundRows hasOptions : bool) (clockNow : Z) (ctx : leaseCtx).
Context (AuthenticatedSubject : option string) (unmarshalCounts : string -> string -> option (Z * Z)).
Context (protoStateName : ProtoState -> string) (TernClient : string -> string -> result string ternClient).

(** The target is what one read of the applies returned. *)
Lemma target_read env n w identifier environment w' client apply ternApplyID n' :
  runE env n (controlTarget TernClient identifier environment) w = (w', Ok (client, apply, ternApplyID), n') ->
  a_Environment apply = environment /\ TernClient (a_Deployment apply) (a_Environment apply) = Ok client /\
  exists u, u ∈ after env n (controlTarget TernClient identifier environment) w /\
    findApplyByIdentifier identifier (pl_db u) = Some apply.
Proof.
  unfold controlTarget. destruct (identifier == ""); [done|]. destruct (environment == ""); [done|].
  unfold stored, readStore, onStore. cbn [pbind focus runE after].
  destruct (fault (env n)) as [e|]; [done|]. cbn [read fst snd].
  destruct (findApplyByIdentifier _ _) as [a|] eqn:Ef; [|done]. cbn [pbind].
  destruct (a_Environment a != environment) eqn:Ee; [done|]. unfold storedDeploymentForApply. destruct (_ == ""); [done|].
  destruct (TernClient _ _) eqn:Ec; [|done]. cbn [runE after]. intros [= <- <- <- <- <-]. split; [by reflect_guards|].
  split; [done|]. eexists. split; [by left|]. exact Ef.
Qed.

Lemma execute_parts env c req w w' resp n :
  runE env 0 (Execute E foundRows hasOptions clockNow ctx AuthenticatedSubject unmarshalCounts protoStateName TernClient c req) w
    = (w', Ok resp, n) ->
  exists client apply ternApplyID w1 n1 status,
    let target := controlTarget TernClient (cb_ApplyID req) (cb_Environment req) in
    let body := bodyOf E foundRows hasOptions clockNow ctx AuthenticatedSubject unmarshalCounts protoStateName c
                  client apply ternApplyID (cb_Environment req) (cb_Caller req) in
    runE env 0 target w = (w1, Ok (client, apply, ternApplyID), n1) /\
    runE env n1 body w1 = (w', Ok (resp, status), n) /\
    after env 0 (Execute E foundRows hasOptions clockNow ctx AuthenticatedSubject unmarshalCounts protoStateName TernClient
                   c req) w = (after env 0 target w ++ after env n1 body w1)%list.
Proof.
  destruct (execute_run E foundRows hasOptions clockNow ctx AuthenticatedSubject unmarshalCounts protoStateName TernClient c req env 0 w)
    as [-> ->]. rewrite runE_bind, after_bind.
  destruct (runE env 0 (controlTarget _ _ _) w) as [[w1 [[[client apply] ternApplyID]|e]] n1] eqn:Et; [|done].
  rewrite runE_bind, after_bind. destruct (runE env n1 _ w1) as [[w2 [[resp' status]|e]] n2] eqn:Eb; [|done].
  cbn [runE after]. intros [= <- <- <-]. exists client, apply, ternApplyID, w1, n1, status. rewrite app_nil_r. done.
Qed.
End Accepted.

(** ** Rollback sources *)

(** What a rollback goes back from: a completed apply within the scope of the request,
    whose plan has the files to go back to. *)
Record rollbackScope (req : RollbackSourceRequest) (apply : Apply) (plan : Plan) : Prop := {
  rs_completed : IsState (a_State apply) [Apply.Completed] = true;
  rs_environment : a_Environment apply = rq_Environment req;
  rs_repository : rq_Repository req <> "" -> a_Repository apply = rq_Repository req;
  rs_pull : 0 < rq_PullRequest req -> a_PullRequest apply = rq_PullRequest req;
  rs_scoped : rq_RequirePullRequestScope req = true ->
    a_Repository apply = rq_Repository req /\ a_PullRequest apply = rq_PullRequest req;
  rs_captured : forall ns d, pn_Namespaces plan !! ns = Some d -> nd_OriginalFilesCaptured d = true;
  rs_any : pn_Namespaces plan <> ∅;
}.

(** [t] did not complete after [task]: a recorded time of completion counts, and tasks
    without one come before those with one, by the time they were created. *)
Definition notAfter (t task : TaskRec) : Prop :=
  match tk_CompletedAt t, tk_CompletedAt task with
  | Some a, Some b => a <= b
  | Some _, None => False
  | None, Some _ => True
  | None, None => tk_CreatedAt t <= tk_CreatedAt task
  end.

(** The task was completed last of the tasks of its database, type and environment. *)
Definition lastCompleted (E : EngineNames) (apply : Apply) (task : TaskRec) (s : store) : Prop :=
  let inScope t := IsState (tk_State t) [Task.Completed] = true /\ tk_DatabaseType t = a_DatabaseType apply /\
                   tk_Environment t = a_Environment apply in
  task ∈ GetByDatabase E (a_Database apply) s /\ inScope task /\
  forall t, t ∈ GetByDatabase E (a_Database apply) s -> inScope t -> notAfter t task.

Lemma completedAfter_spec t task : rollbackTaskCompletedAfter t task = false <-> notAfter t task.
Proof.
  unfold rollbackTaskCompletedAfter, notAfter. destruct (tk_CompletedAt t), (tk_CompletedAt task); rewrite ?Z.ltb_ge; done.
Qed.

Lemma matchesScope_spec dbType environment t :
  rollbackTaskMatchesPlannerScope dbType environment t = true <->
  IsState (tk_State t) [Task.Completed] = true /\ tk_DatabaseType t = dbType /\ tk_Environment t = environment.
Proof. unfold rollbackTaskMatchesPlannerScope. rewrite !andb_true_iff, !eqb_true_iff. tauto. Qed.

(** The order of completion: by the time of completion, tasks without one first, by
    the time of creation. *)
Lemma completedAfter_trans a b c :
  rollbackTaskCompletedAfter a b = false -> rollbackTaskCompletedAfter b c = false -> rollbackTaskCompletedAfter a c = false.
Proof.
  unfold rollbackTaskCompletedAfter. destruct (tk_CompletedAt a), (tk_CompletedAt b), (tk_CompletedAt c); try done;
    rewrite ?Z.ltb_ge; lia.
Qed.

Lemma completedAfter_asym a b : rollbackTaskCompletedAfter a b = true -> rollbackTaskCompletedAfter b a = false.
Proof.
  unfold rollbackTaskCompletedAfter. destruct (tk_CompletedAt a), (tk_CompletedAt b); try done; rewrite Z.ltb_lt, Z.ltb_ge; lia.
Qed.

Lemma completedAfter_irrefl a : rollbackTaskCompletedAfter a a = false.
Proof. unfold rollbackTaskCompletedAfter. destruct (tk_CompletedAt a); apply Z.ltb_irrefl. Qed.

Lemma latestCompleted_last dbType environment tasks task :
  latestCompleted dbType environment tasks = Some task ->
  task ∈ tasks /\ rollbackTaskMatchesPlannerScope dbType environment task = true /\
  forall t, t ∈ tasks -> rollbackTaskMatchesPlannerScope dbType environment t = true -> rollbackTaskCompletedAfter t task = false.
Proof.
  unfold latestCompleted. set (step := fun _ _ => _). set (inScope := rollbackTaskMatchesPlannerScope dbType environment).
  set (good := fun (seen : list TaskRec) (latest : option TaskRec) =>
    match latest with
    | None => forall t, t ∈ seen -> inScope t = false
    | Some l => l ∈ seen /\ inScope l = true /\ forall t, t ∈ seen -> inScope t = true -> rollbackTaskCompletedAfter t l = false
    end).
  assert (forall todo seen latest, good seen latest -> good (seen ++ todo)%list (fold_left step todo latest)) as H.
  { induction todo as [|t todo IH]; intros seen latest Hg; cbn [fold_left]; [by rewrite app_nil_r|].
    rewrite (cons_middle t seen todo), app_assoc. apply IH. unfold step, good in *. fold (inScope t).
    destruct (inScope t) eqn:Et; cbn [negb].
    - destruct latest as [l|].
      + destruct Hg as (Hl & Hi & Hmax). destruct (rollbackTaskCompletedAfter t l) eqn:Ec.
        * split; [set_solver|]. split; [done|]. intros u [Hu|Hu%list_elem_of_singleton]%elem_of_app Hs.
          -- eapply completedAfter_trans; [by apply Hmax|by apply completedAfter_asym].
          -- subst. apply completedAfter_irrefl.
        * split; [set_solver|]. split; [done|]. intros u [Hu|Hu%list_elem_of_singleton]%elem_of_app Hs; [by apply Hmax|by subst].
      + split; [set_solver|]. split; [done|]. intros u [Hu|Hu%list_elem_of_singleton]%elem_of_app Hs.
        * by rewrite Hg in Hs.
        * subst. apply completedAfter_irrefl.
    - destruct latest as [l|].
      + destruct Hg as (Hl & Hi & Hmax). split; [set_solver|]. split; [done|].
        intros u [Hu|Hu%list_elem_of_singleton]%elem_of_app Hs; [by apply Hmax|]. subst. congruence.
      + intros u [Hu|Hu%list_elem_of_singleton]%elem_of_app; [by apply Hg|by subst]. }
  intros Hf. specialize (H tasks [] None). rewrite Hf in H. cbn [app] in H. apply H. by intros t ?%not_elem_of_nil.
Qed.

Lemma scope_valid req apply plan :
  validateRollbackSourceScope req apply = Ok tt -> HasOriginalFilesCapture plan = true -> rollbackScope req apply plan.
Proof.
  unfold validateRollbackSourceScope. destruct (IsState (a_State apply) [Apply.Completed]) eqn:Ec; [|done]. cbn [negb].
  destruct (_ != _) eqn:Ee; [done|]. destruct (_ && (rq_Repository req == "")) eqn:E1; [done|].
  destruct (_ && (rq_PullRequest req <=? 0)) eqn:E2; [done|].
  destruct ((rq_Repository req != "") && _) eqn:E3; [done|]. destruct ((0 <? _) && _) eqn:E4; [done|]. intros _ Hf.
  assert (rq_Repository req <> "" -> a_Repository apply = rq_Repository req) as Hrepo.
  { intros Hne. apply andb_false_iff in E3 as [E3|E3]; by reflect_guards. }
  assert (0 < rq_PullRequest req -> a_PullRequest apply = rq_PullRequest req) as Hpull.
  { intros Hlt. apply Z.ltb_lt in Hlt. rewrite Hlt in E4. cbn in E4. apply negb_false_iff in E4. by apply Z.eqb_eq. }
  unfold HasOriginalFilesCapture in Hf. apply andb_prop in Hf as [Hany Hall].
  split; [done|by reflect_guards|done|done|..].
  - intros Hreq. rewrite Hreq in E1, E2. rewrite andb_true_l in E1, E2. apply Z.leb_gt in E2.
    split; [apply Hrepo; by reflect_guards|by apply Hpull].
  - intros ns d Hd. rewrite forallb_forall in Hall. apply Hall, list_elem_of_In, list_elem_of_fmap.
    exists (ns, d). split; [done|]. by apply elem_of_map_to_list.
  - intros He. by rewrite He, bool_decide_true in Hany.
Qed.

(** An accepted source: the apply, its plan, and the task that was completed last. *)
Definition rollbackSource (E : EngineNames) (planRow : store -> Z -> option Plan) (req : RollbackSourceRequest) (apply : Apply)
    (plan : Plan) (seen : list plane) : Prop :=
  rollbackScope req apply plan /\
  exists u v x task, u ∈ seen /\ v ∈ seen /\ x ∈ seen /\
    findApplyByIdentifier (rq_ApplyIdentifier req) (pl_db u) = Some apply /\
    planRow (pl_db v) (a_PlanID apply) = Some plan /\
    lastCompleted E apply task (pl_db x) /\ tk_ApplyID task = a_ID apply /\ tk_PlanID task = a_PlanID apply.

(** ** Properties *)

(** C20: an accepted command is never lost.  When the API accepts a stop, cancel,
    start, cutover, release, revert or skip-revert, the apply that the request names
    was read with the environment of the request, and right after one of the
    statements of the call the command stood on record for exactly that apply: as a
    pending control request, which its owner still finds should this process die at
    once, as a release that is already latched, or, for a cutover, as a task or an apply that
    is already cutting over.  This holds whatever other connections do between the
    statements, whichever of them fail, and whatever the data plane does when it is
    asked to act at once. *)
Theorem accepted_command_recorded (E : EngineNames) (foundRows hasOptions : bool) (clockNow : Z) (ctx : leaseCtx)
    (subject : option string) (unmarshalCounts : string -> string -> option (Z * Z)) (protoStateName : ProtoState -> string)
    (TernClient : string -> string -> result string ternClient) (c : command) (req : controlRequestBody) env w w' resp n
    (Hrun : runE env 0 (Execute E foundRows hasOptions clockNow ctx subject unmarshalCounts protoStateName TernClient c req) w
            = (w', Ok resp, n))
    (Hacc : ap_Accepted resp = true) :
  let seen := after env 0 (Execute E foundRows hasOptions clockNow ctx subject unmarshalCounts protoStateName TernClient c req) w in
  exists apply u, u ∈ seen /\ findApplyByIdentifier (cb_ApplyID req) (pl_db u) = Some apply /\
    a_Environment apply = cb_Environment req /\
    ((c = Cutover /\ IsState (a_State apply) [Apply.CuttingOver] = true) \/ exists v, v ∈ seen /\ recorded E c apply v).
Proof.
  destruct (execute_parts _ _ _ _ _ _ _ _ _ _ _ _ _ _ _ _ Hrun) as (client & apply & id & w1 & n1 & status & Ht & Hb & ->).
  destruct (target_read _ _ _ _ _ _ _ _ _ _ _ Ht) as (Henv & _ & u & Hu & Hf).
  exists apply, u. split; [apply elem_of_app; by left|]. do 2 (split; [done|]).
  destruct (achieves_run _ _ _ _ _ _ _ _ _ _
    (command_records E foundRows hasOptions clockNow ctx subject unmarshalCounts protoStateName c client apply id
       (cb_Environment req) (cb_Caller req)) Hb) as [Hg|(v & Hv & Hr)]; [by exists resp, status|by left|].
  right. exists v. split; [apply elem_of_app; by right|done].
Qed.

(** C21: a contradicted command is refused.  As long as the identifier a command is
    given names no other apply and a request that the command contradicts is pending
    for it - a stop or a cancel for a cutover or a release, a cancel for a start, the
    opposite choice for a revert or a skip-revert - the command is answered with an
    error and no statement of it changes anything, neither the store nor an engine,
    whatever else other connections do and whichever statements fail.  For a start
    this is shown while no stop is pending next to the cancel: a start settles a stop
    that has already happened before it looks for the cancel. *)
Theorem contradicted_command_refused (E : EngineNames) (foundRows hasOptions : bool) (clockNow : Z) (ctx : leaseCtx)
    (subject : option string) (unmarshalCounts : string -> string -> option (Z * Z)) (protoStateName : ProtoState -> string)
    (TernClient : string -> string -> result string ternClient) (c : command) (contrary : string) (id : Z)
    (req : controlRequestBody) env w w' r n
    (Hcontrary : contrary ∈ contraries c) (Hstands : standsAgainst c contrary (cb_ApplyID req) id w)
    (Henv : keeps (standsAgainst c contrary (cb_ApplyID req) id) env)
    (Hrun : runE env 0 (Execute E foundRows hasOptions clockNow ctx subject unmarshalCounts protoStateName TernClient c req) w
            = (w', r, n)) :
  (exists e, r = Err e) /\
  leaves (fun u => u) env 0
    (Execute E foundRows hasOptions clockNow ctx subject unmarshalCounts protoStateName TernClient c req) w.
Proof.
  destruct (keepsView_run _ _ _ _ _ _ _ _ _ _ Henv
    (untouched_command E foundRows hasOptions clockNow ctx subject unmarshalCounts protoStateName TernClient c contrary _ id req
       Hcontrary eq_refl) Hstands Hrun) as [Hr Hl].
  split; [|done]. destruct r as [resp|e]; [done|by exists e].
Qed.

(** Only work that rests is started.  A start that is newly queued is for an
    apply that waits for its deploy, for one that the data plane may report as
    stopped, or for one with a stopped task right after a statement of the call: an
    apply that is running everywhere is never started a second time. *)
Theorem queued_start_rests (E : EngineNames) (foundRows hasOptions : bool) (clockNow : Z) (ctx : leaseCtx)
    (subject : option string) (unmarshalCounts : string -> string -> option (Z * Z)) (protoStateName : ProtoState -> string)
    (TernClient : string -> string -> result string ternClient) (req : controlRequestBody) env w w' resp n
    (Hrun : runE env 0 (Execute E foundRows hasOptions clockNow ctx subject unmarshalCounts protoStateName TernClient Start req) w
            = (w', Ok resp, n))
    (Hqueued : ap_Status resp = startResponseStatusQueued) :
  let seen :=
    after env 0 (Execute E foundRows hasOptions clockNow ctx subject unmarshalCounts protoStateName TernClient Start req) w in
  exists apply u, u ∈ seen /\ findApplyByIdentifier (cb_ApplyID req) (pl_db u) = Some apply /\
    ((exists client, TernClient (a_Deployment apply) (a_Environment apply) = Ok client /\ atRest client apply) \/
     exists v, v ∈ seen /\ hasStoppedTask E apply v).
Proof.
  destruct (execute_parts _ _ _ _ _ _ _ _ _ _ _ _ _ _ _ _ Hrun) as (client & apply & id & w1 & n1 & status & Ht & Hb & ->).
  destruct (target_read _ _ _ _ _ _ _ _ _ _ _ Ht) as (_ & Hclient & u & Hu & Hf).
  exists apply, u. split; [apply elem_of_app; by left|]. split; [done|].
  destruct (achieves_run _ _ _ _ _ _ _ _ _ _
    (startCommand_rests E foundRows hasOptions clockNow ctx subject unmarshalCounts protoStateName client apply
       (cb_Caller req)) Hb) as [Hg|(v & Hv & Hr)]; [by exists resp, status|left; by exists client|].
  right. exists v. split; [apply elem_of_app; by right|done].
Qed.

(** The answer of a handler for the outcome of a command. *)
Definition answers (r : cres apiResponse) (a : reply apiResponse) : Prop :=
  match r with
  | Ok resp => rp_Body a = Ok resp /\ rp_Code a ∈ [StatusOK; StatusAccepted]
  | Err e => rp_Code a = controlOperationHTTPStatus e /\ exists message, rp_Body a = Err message
  end.

(** C23: the HTTP handlers agree with the comment commands.  Each of the seven commands
    has two entries of its own, a handler and the function the comment commands call.
    On the same decoded request, from the same state and with the same interference
    and failures around its statements, the handler ends in the same state after the
    same number of statements as the other entry; it answers 200 or 202 with the same
    response, or the status of the same error. *)
Theorem http_agrees (E : EngineNames) (foundRows hasOptions : bool) (clockNow : Z) (ctx : leaseCtx)
    (subject : option string) (unmarshalCounts : string -> string -> option (Z * Z)) (protoStateName : ProtoState -> string)
    (TernClient : string -> string -> result string ternClient) (errText : StoreErr -> string) (c : command)
    (req : controlRequestBody) env w :
  let '(w1, a, n1) := runE env 0 (handle E foundRows hasOptions clockNow ctx subject unmarshalCounts protoStateName TernClient
                                    errText c (Ok req)) w in
  let '(w2, r, n2) :=
    runE env 0 (Execute E foundRows hasOptions clockNow ctx subject unmarshalCounts protoStateName TernClient c req) w in
  w1 = w2 /\ n1 = n2 /\ answers r a.
Proof.
  rewrite handle_run, (proj1 (execute_run _ _ _ _ _ _ _ _ _ _ _ _ _ _)), runE_bind.
  destruct (decode_agrees TernClient errText env 0 w req) as (r & Hd & Hr). rewrite Hd. destruct (runE env 0 (controlTarget _ _ _) w) as [[w1 t] n1]. cbn [fst snd] in *.
  destruct r as [[req' [[client apply] id]]|[status message]], t as [t'|e]; try done.
  - destruct Hr as [-> <-]. rewrite runE_bind.
    destruct (runE env n1 _ w1) as [[w2 r2] n2] eqn:Eb. pose proof (yields_run _ _ _ _ _ _ _ _ (command_status _ _ _ _ _ _ _ _ _ _ _ _ _ _) Eb) as Hs.
    destruct r2 as [[resp code]|e]; cbn [runE]; (split; [done|]); (split; [done|]); [done|].
    split; [done|]. by eexists.
  - cbn [runE]. split; [done|]. split; [done|]. split; [done|]. by eexists.
Qed.

(** C22: a rollback goes back from the last change.  An apply that is accepted as the
    source of a rollback is the completed one under the identifier of the request, in
    its environment, repository and pull request (which a comment command has to
    name); every namespace of its plan has the files from before the change; and of
    the tasks of its database, type and environment none was completed after a task
    of this apply and plan - whatever other connections do between the reads. *)
Theorem rollback_source_exact (E : EngineNames) (planRow : store -> Z -> option Plan) (req : RollbackSourceRequest)
    env w w' apply plan n
    (Hrun : runE env 0 (ValidateRollbackSourceApply E planRow req) w = (w', Ok (apply, plan), n)) :
  rollbackSource E planRow req apply plan (after env 0 (ValidateRollbackSourceApply E planRow req) w).
Proof.
  revert Hrun. unfold ValidateRollbackSourceApply. destruct (_ == ""); [done|]. destruct (_ == ""); [done|].
  unfold stored, readStore, onStore. cbn [pbind focus runE after].
  destruct (fault (env 0%nat)) as [e|]; [done|]. cbn [read fst snd].
  destruct (findApplyByIdentifier _ _) as [a|] eqn:Ef; [|done].
  destruct (validateRollbackSourceScope req a) as [[]|e] eqn:Es; [|done]. cbn [pbind runE after focus].
  destruct (fault (env 1%nat)) as [e|]; [done|]. cbn [read fst snd].
  destruct (planRow _ _) as [p|] eqn:Ep; [|done]. destruct (HasOriginalFilesCapture p) eqn:Eh; [|done].
  unfold latestCompletedTaskForRollback, stored, readStore, onStore. cbn [negb pbind runE after focus].
  destruct (fault (env 2%nat)) as [e|]; [done|]. cbn [read fst snd pbind].
  destruct (latestCompleted _ _ _) as [task|] eqn:El; [|done]. cbn [runE after].
  destruct (tk_ApplyID task =? a_ID a) eqn:Ea; [|done]. destruct (tk_PlanID task =? a_PlanID a) eqn:Epl; [|done].
  cbn [negb]. intros [= <- <- <- <-]. apply Z.eqb_eq in Ea, Epl. split; [by apply scope_valid|].
  do 3 eexists. exists task. split; [by left|]. split; [by right; left|]. split; [by right; right; left|].
  split; [exact Ef|]. split; [exact Ep|]. split; [|done].
  destruct (latestCompleted_last _ _ _ _ El) as (Hin & Hs & Hlast). split; [done|]. split; [by apply matchesScope_spec|].
  intros t Ht Hts. apply completedAfter_spec, Hlast; [done|]. by apply matchesScope_spec.
Qed.

(** ** Witnesses *)

(** The local client of the data plane for the calls of the handlers that it serves
    itself. *)
Definition localTern : ternClient :=
  let refusedCall {A} : prog plane (res A) := Ret (Err (Errorf "unavailable")) in
  {| tc_IsRemote := false; tc_Progress := fun _ _ => refusedCall; tc_Stop := fun _ _ => refusedCall;
     tc_Cancel := fun _ _ => refusedCall; tc_Volume := fun _ _ _ => refusedCall;
     tc_Revert := fun _ _ => LocalControl.Revert documentedNames (Stopping.exampleClient DatabaseTypeMySQL);
     tc_SkipRevert := fun _ _ => LocalControl.SkipRevert documentedNames (Stopping.exampleClient DatabaseTypeMySQL) |}.

Definition noCounts (field metadata : string) : option (Z * Z) := Some (0, 0).
Definition anyName (st : ProtoState) : string := "STATE".
Definition localRouter (deployment environment : string) : result string ternClient := Ok localTern.
Definition exampleBody : controlRequestBody := {| cb_ApplyID := "apply-1"; cb_Environment := "production"; cb_Caller := "op" |}.

Definition applyOf (environment engine st : string) : Apply :=
  let a := exampleApply st in
  {| a_ID := a_ID a; a_ApplyIdentifier := a_ApplyIdentifier a; a_LockID := a_LockID a; a_PlanID := a_PlanID a;
     a_Database := a_Database a; a_DatabaseType := a_DatabaseType a; a_Repository := a_Repository a;
     a_PullRequest := a_PullRequest a; a_Environment := environment; a_Deployment := a_Deployment a; a_Caller := a_Caller a;
     a_InstallationID := 0; a_ExternalID := ""; a_IdempotencyKey := None; a_Engine := engine; a_State := st;
     a_ErrorMessage := ""; a_Options := noOptions; a_Attempt := 0; a_LeaseOwner := ""; a_LeaseToken := "";
     a_LeaseAcquiredAt := None; a_CreatedAt := 10; a_StartedAt := None; a_CompletedAt := None; a_UpdatedAt := 1000;
     a_RevertSkippedAt := None |}.

Abbreviation exampleExecute c := (Execute documentedNames true false 50 noLease None noCounts anyName localRouter c exampleBody).

(** The data plane cannot be reached when the stop arrives; the stop is on record. *)
Lemma accepted_command_recorded_witness :
  let apply := exampleApply Apply.Running in
  let w := examplePlane (withTasks [exampleTask 7 "task_7" "t" "" Task.Running] (exampleStore apply [] []))
             (exampleEngine (Err transportError)) in
  let seen := after (fun _ => quiet) 0 (exampleExecute Stop) w in
  exists a u, u ∈ seen /\ findApplyByIdentifier "apply-1" (pl_db u) = Some a /\ a_Environment a = "production" /\
    ((Stop = Cutover /\ IsState (a_State a) [Apply.CuttingOver] = true) \/ exists v, v ∈ seen /\ recorded documentedNames Stop a v).
Proof.
  intros apply w.
  refine (accepted_command_recorded documentedNames true false 50 noLease None noCounts anyName localRouter Stop exampleBody
            (fun _ => quiet) w (runE (fun _ => quiet) 0 (exampleExecute Stop) w).1.1
            {| ap_Accepted := true; ap_ErrorMessage := ""; ap_Count := 1; ap_SkippedCount := 0; ap_Status := "" |}
            (runE (fun _ => quiet) 0 (exampleExecute Stop) w).2 _ _); vm_compute; reflexivity.
Defined.

(** A cancel is pending: the cutover is refused. *)
Lemma contradicted_command_refused_witness :
  let w := examplePlane (exampleStore (exampleApply Apply.WaitingForCutover) []
             [exampleRequest ControlOperationCancel ControlRequestPending]) (exampleEngine (Err transportError)) in
  (exists e, (runE (fun _ => quiet) 0 (exampleExecute Cutover) w).1.2 = Err e) /\
  leaves (fun u => u) (fun _ => quiet) 0 (exampleExecute Cutover) w.
Proof.
  intros w.
  refine (contradicted_command_refused documentedNames true false 50 noLease None noCounts anyName localRouter Cutover
            ControlOperationCancel 1 exampleBody (fun _ => quiet) w (runE (fun _ => quiet) 0 (exampleExecute Cutover) w).1.1
            _ (runE (fun _ => quiet) 0 (exampleExecute Cutover) w).2 _ _ _ _);
    [right; by left|split; [by intros a [= <-]|done|done]|by intros m u Hu|vm_compute; reflexivity].
Defined.

(** A stopped task is started again. *)
(** A cutover that a pending stop blocks, refused with the same conflict by both. *)
Lemma http_agrees_witness :
  let w := examplePlane (exampleStore (exampleApply Apply.WaitingForCutover) []
             [exampleRequest ControlOperationStop ControlRequestPending]) (exampleEngine (Err transportError)) in
  let '(w1, a, n1) := runE (fun _ => quiet) 0 (handle documentedNames true false 50 noLease None noCounts anyName localRouter
                        (fun _ => "") Cutover (Ok exampleBody)) w in
  let '(w2, r, n2) := runE (fun _ => quiet) 0 (exampleExecute Cutover) w in
  (w1 = w2 /\ n1 = n2 /\ answers r a) /\ rp_Code a = StatusConflict /\ r = Err (blockedBy ControlOperationStop "cutover").
Proof.
  intros w. pose proof (http_agrees documentedNames true false 50 noLease None noCounts anyName localRouter (fun _ => "")
                          Cutover exampleBody (fun _ => quiet) w) as H.
  split; [exact H|]. vm_compute. by split.
Defined.

Lemma queued_start_rests_witness :
  let apply := exampleApply Apply.Stopped in
  let w := examplePlane (withTasks [exampleTask 7 "task_7" "t" "" Task.Stopped] (exampleStore apply [] []))
             (exampleEngine (Err transportError)) in
  let seen := after (fun _ => quiet) 0 (exampleExecute Start) w in
  exists a u, u ∈ seen /\ findApplyByIdentifier "apply-1" (pl_db u) = Some a /\
    ((exists client, localRouter (a_Deployment a) (a_Environment a) = Ok client /\ atRest client a) \/
     exists v, v ∈ seen /\ hasStoppedTask documentedNames a v).
Proof.
  intros apply w.
  refine (queued_start_rests documentedNames true false 50 noLease None noCounts anyName localRouter exampleBody
            (fun _ => quiet) w (runE (fun _ => quiet) 0 (exampleExecute Start) w).1.1
            {| ap_Accepted := true; ap_ErrorMessage := ""; ap_Count := 1; ap_SkippedCount := 0; ap_Status := "queued" |}
            (runE (fun _ => quiet) 0 (exampleExecute Start) w).2 _ _); vm_compute; reflexivity.
Defined.

Definition capturedPlan : Plan :=
  samplePlanOf {["commerce" := {| nd_Tables := []; nd_Shards := []; nd_OriginalFilesCaptured := true; nd_Artifacts := ∅ |}]} [].

Definition rollbackRequest : RollbackSourceRequest :=
  {| rq_ApplyIdentifier := "apply-1"; rq_Environment := "staging"; rq_Repository := "org/repo"; rq_PullRequest := 7;
     rq_RequirePullRequestScope := true |}.

(** Two tasks are completed; the last one is of the apply. *)
Lemma rollback_source_exact_witness :
  let apply := applyOf "staging" "spirit" Apply.Completed in
  let early := set_tk_CompletedAt (Some 20) (exampleTask 6 "task_6" "t" "" Task.Completed) in
  let late := set_tk_CompletedAt (Some 30) (exampleTask 7 "task_7" "t" "" Task.Completed) in
  let w := examplePlane (withTasks [early; late] (exampleStore apply [] [])) (exampleEngine (Err transportError)) in
  let source := ValidateRollbackSourceApply documentedNames (fun _ _ => Some capturedPlan) rollbackRequest in
  rollbackSource documentedNames (fun _ _ => Some capturedPlan) rollbackRequest apply capturedPlan
    (after (fun _ => quiet) 0 source w).
Proof.
  intros apply early late w source.
  refine (rollback_source_exact documentedNames (fun _ _ => Some capturedPlan) rollbackRequest (fun _ => quiet) w
            (runE (fun _ => quiet) 0 source w).1.1 apply capturedPlan (runE (fun _ => quiet) 0 source w).2 _).
  vm_compute. reflexivity.
Defined.

(** ** What the handlers do not guard *)

(** A revert of a fanned-out apply has the engine revert one deployment, and the
    request is completed: no owner reverts the other one. *)
Lemma fanned_out_revert_partial :
  let apply := applyOf "production" EnginePlanetScale Apply.RevertWindow in
  let ops := [exampleOp 1 "us" Apply.RevertWindow CutoverPolicyRolling OnFailureHalt;
              exampleOp 2 "eu" Apply.RevertWindow CutoverPolicyRolling OnFailureHalt] in
  let ts := [exampleTask 7 "task_7" "t" "" Task.RevertWindow;
             set_tk_ApplyOperationID (Some 2) (exampleTask 8 "task_8" "t" "" Task.RevertWindow)] in
  let w := examplePlane (withTasks ts (exampleStore apply ops []))
             (exampleEngine (Ok (Some {| cl_Accepted := true; cl_Message := "" |}))) in
  let '(w', r) := run (exampleExecute Revert) w in
  r = Ok (acceptedResponse "") /\ length (pl_calls w') = 1%nat /\
  GetPending 1 ControlOperationRevert (pl_db w') = None.
Proof. vm_compute. repeat split; reflexivity. Qed.

(** An apply without tasks cannot be cancelled through the API. *)
Lemma taskless_cancel_refused :
  let w := examplePlane (exampleStore (exampleApply Apply.Pending) [] []) (exampleEngine (Err transportError)) in
  run (exampleExecute Cancel) w = (w, Err (controlConflict "no active schema change for apply apply-1")).
Proof. vm_compute. reflexivity. Qed.
