(* ===== verification/Grouped.v ===== *)
(** * The grouped drive of an apply (tern/local_apply_grouped.go, local_client.go)

    With a deferred cutover, and always for Vitess, the statements of an apply are
    one change of the engine.  The drive hands them over together and polls the
    engine: each tick serves the pending control requests, writes what the engine
    reports into all tasks, starts the deploy, the cutover and the end of the revert
    window when they are due, and settles the apply from the projection over all
    operations.

    A drive is followed over the clock readings of its ticks.  [psMetadata] decodes
    the engine's metadata, [mergeRevertExpiry] writes the deadline of the revert
    window into it, and [newTaskIdentifier] names the rows of shards. *)

From S2P Require Import Prelude GoStrings State Convert Sql Store Operations Applies Control Projection Fencing Tasks Plane Fanout Stopping LocalControl Sequential Conflict.

Local Open Scope string_scope.
Local Open Scope Z_scope.

(** ** Tasks never move backward (local_client.go) *)

Definition blocksActiveEngineProgress (taskState : string) : bool := IsState taskState [Task.Stopped; Task.FailedRetryable].
Definition isRecoveryState (taskState : string) : bool := IsState taskState [Task.Recovering].
Definition recoveryCompleteWithEngineState (taskState : string) : bool := IsState taskState [Task.WaitingForCutover].

Section Ranks.
Context (E : EngineNames).

Definition activeTaskProgressRank (taskState : string) : option Z :=
  let st := NormalizeTaskStatus E taskState in
  if st == Task.Pending then Some 0
  else if st == Task.WaitingForDeploy then Some 1
  else if st == Task.Running then Some 2
  else if st == Task.Checksumming then Some 3
  else if st == Task.WaitingForCutover then Some 4
  else if st == Task.CuttingOver then Some 5
  else if st == Task.RevertWindow then Some 6
  else if st == Task.Reverting then Some 7
  else None.

Definition taskStateWithNoBackwardProgress (storedTaskState engineTaskState : string) : string :=
  let stored := NormalizeTaskStatus E storedTaskState in
  let engine := NormalizeTaskStatus E engineTaskState in
  if IsTerminalTaskState stored then stored
  else if IsTerminalTaskState engine || IsState engine [Task.Stopped; Task.FailedRetryable] then engine
  else if isRecoveryState stored && recoveryCompleteWithEngineState engine then engine
  else if IsState stored [Task.Running] && IsState engine [Task.WaitingForDeploy] then engine
  else if blocksActiveEngineProgress stored then stored
  else match activeTaskProgressRank engine, activeTaskProgressRank stored with
       | Some e, Some s => if e <? s then stored else engine
       | _, _ => stored
       end.
End Ranks.

(** ** Operations of tasks *)

(** [applyOperationIDForTasks] from the operation found so far. *)
Fixpoint operationIDFrom (operationID : Z) (tasks : list TaskRec) : res Z :=
  match tasks with
  | [] => if operationID =? 0 then Err (Errorf "engine resume state has no apply operation") else Ok operationID
  | task :: rest =>
      match applyOperationIDForTask task with
      | Err e => Err e
      | Ok id =>
          if operationID =? 0 then operationIDFrom id rest
          else if negb (operationID =? id) then Err (Errorf "engine resume state spans multiple apply operations")
          else operationIDFrom operationID rest
      end
  end.

Definition applyOperationIDForTasks (tasks : list TaskRec) : res Z := operationIDFrom 0 tasks.

Definition tasksForOperation (tasks : list TaskRec) (operationID : Z) : list TaskRec :=
  List.filter (fun t => bool_decide (tk_ApplyOperationID t = Some operationID)) tasks.

(** The loop of classifyOperationTasks: whether a task without an operation and one
    with an operation were seen. *)
Fixpoint classifyFrom (sawNil : bool) (seen : option Z) (tasks : list TaskRec) : res (Z * bool) :=
  match tasks with
  | [] =>
      match seen with
      | Some id => if sawNil then Err (Errorf "tasks mix operation-model and legacy rows") else Ok (id, true)
      | None => Ok (0, false)
      end
  | task :: rest =>
      match tk_ApplyOperationID task with
      | None | Some 0 => classifyFrom true seen rest
      | Some id =>
          match seen with
          | Some other => if negb (other =? id) then Err (Errorf "tasks span multiple apply operations")
                          else classifyFrom sawNil (Some id) rest
          | None => classifyFrom sawNil (Some id) rest
          end
      end
  end.

Definition classifyOperationTasks (tasks : list TaskRec) : res (Z * bool) := classifyFrom false None tasks.

(** [applyQuiesceDecision]: quiesce, retryablePause, stampCompletedAt. *)
Definition applyQuiesceDecision (projectedApplyState : string) : bool * bool * bool :=
  let retryablePause := IsState projectedApplyState [Apply.FailedRetryable] in
  let quiesce := IsTerminalApplyState projectedApplyState || retryablePause in
  let resumable := retryablePause || IsState projectedApplyState [Apply.Stopped] in
  (quiesce, retryablePause, quiesce && negb resumable).

Definition suppressParentApplyWrites (ctx : leaseCtx) : bool :=
  match ApplyLeaseFromContext ctx with
  | Some _ => false
  | None => match OperationLeaseFromContext ctx with Some l => OperationLease_Valid l | None => false end
  end.

Definition vSchemaArtifactName := "vschema.json".
Definition namespaceHasVSchemaArtifact (nsData : NamespacePlanData) : bool :=
  default "" (nd_Artifacts nsData !! vSchemaArtifactName) != "".

Definition isTasklessVSchemaOnlyPlan (tasks : list TaskRec) (plan : option Plan) : bool :=
  match tasks, plan with
  | [], Some p =>
      match FlatDDLChanges p with
      | _ :: _ => false
      | [] => existsb (fun '(_, nsData) => namespaceHasVSchemaArtifact nsData) (map_to_list (pn_Namespaces p))
      end
  | _, _ => false
  end.

(** ** The revert window *)

Definition defaultRevertWindowDuration : Z := 1800.
Definition waitingForManualActionTimeout : Z := 14 * day.

(** What the drive reads from the engine's metadata. *)
Record psMeta := { pm_IsInstant : bool; pm_DeployedAt : option Z }.

Section Grouped.
Context (E : EngineNames) (foundRows hasOptions : bool) (ctx : leaseCtx) (cfg : clientConfig).
Context (errText : StoreErr -> string) (unmarshalVolume : string -> option Z).
Context (parseDuration : string -> option Z) (revertWindowMetadata : string).
Context (psMetadata : string -> option psMeta) (mergeRevertExpiry : string -> Z -> res string).
Context (newTaskIdentifier : TaskRec -> string -> string).

Definition revertWindowDuration : Z :=
  if revertWindowMetadata == "" then defaultRevertWindowDuration else
  match parseDuration revertWindowMetadata with
  | Some d => if d <=? 0 then defaultRevertWindowDuration else d
  | None => defaultRevertWindowDuration
  end.

Definition deployedAt (resumeState : option ResumeState) : option Z :=
  match resumeState with
  | Some rs => if rs_Metadata rs == "" then None else
               match psMetadata (rs_Metadata rs) with Some m => pm_DeployedAt m | None => None end
  | None => None
  end.

Definition revertWindowDeadline (resumeState : option ResumeState) (stateEnteredAt : option Z) : option Z :=
  match deployedAt resumeState, stateEnteredAt with
  | Some t, _ | None, Some t => Some (t + revertWindowDuration)
  | None, None => None
  end.

(** ** Resume state of the engine *)

Definition applyOperationIDForApplyTasks (apply : Apply) (tasks : list TaskRec) : prog plane (res Z) :=
  match tasks with
  | _ :: _ => Ret (applyOperationIDForTasks tasks)
  | [] =>
      try! ops := readStore (ListByApply (a_ID apply)) in
      Ret match ops with
          | [op] => Ok (op_ID op)
          | _ => Err (Errorf "engine resume state has no tasks and the apply has not one operation")
          end
  end.

Definition saveEngineResumeStateForOperation (operationID : Z) (rs : ResumeState) : prog plane (res unit) :=
  let metadata := if rs_Metadata rs == "" then "{}" else rs_Metadata rs in
  onStore (SaveEngineResumeState foundRows ctx operationID
             (Some {| rs_ApplyOperationID := operationID; MigrationContext := rs_MigrationContext rs; Metadata := metadata |})).

Definition saveEngineResumeState (apply : Apply) (tasks : list TaskRec) (rs : ResumeState) : prog plane (res unit) :=
  try! operationID := applyOperationIDForApplyTasks apply tasks in
  saveEngineResumeStateForOperation operationID rs.

Definition markTasklessOperationState (apply : Apply) (opState errorMessage : string) : prog plane (res unit) :=
  try! operationID := applyOperationIDForApplyTasks apply [] in
  if IsState opState [Apply.Completed] then onStore (Operations.MarkCompleted foundRows ctx operationID)
  else if IsState opState [Apply.Failed] then onStore (Operations.MarkFailed foundRows ctx operationID errorMessage)
  else if IsState opState [Apply.FailedRetryable; Apply.WaitingForCutover]
  then onStore (UpdateState foundRows ctx operationID opState)
  else if IsTerminalApplyState opState then onStore (MarkTerminal foundRows ctx operationID opState)
  else Ret (Ok tt).

(** ** The projection over all operations *)

(** The current operation's state when the siblings are unknown: never terminal. *)
Definition failClosed (currentOpState : string) : option string :=
  if IsTerminalApplyState currentOpState then None else Some currentOpState.

Definition aggregateOf (ops : list ApplyOperation) (operationID : Z) (currentOpState : string) (released : bool) : option string :=
  if negb (existsb (fun op => op_ID op =? operationID) ops) then failClosed currentOpState else
  let child op := let c := childOf released op in
                  {| rc_State := if op_ID op =? operationID then currentOpState else rc_State c;
                     ContinueOnFailure := ContinueOnFailure c; PauseOnFailure := PauseOnFailure c |} in
  Some (DeriveRolloutApplyState (child <$> ops)).

(** [None]: the stored state is left as it is. *)
Definition deriveAggregateApplyState (apply : Apply) (tasks : list TaskRec) : prog plane (option string) :=
  let currentOpState := DeriveApplyState (tk_State <$> tasks) in
  match classifyOperationTasks tasks with
  | Err _ => Ret (failClosed currentOpState)
  | Ok (_, false) => Ret (Some currentOpState)
  | Ok (operationID, true) =>
      let! ops := readStore (ListByApply (a_ID apply)) in
      match ops with
      | Err _ | Ok [] => Ret (failClosed currentOpState)
      | Ok ops =>
          if AnyPauseOnFailure ops then
            let! release := readStore (GetByOperation (a_ID apply) ControlOperationRelease) in
            match release with
            | Err _ => Ret (failClosed currentOpState)
            | Ok r => Ret (aggregateOf ops operationID currentOpState (ReleasesPausedRollout r))
            end
          else Ret (aggregateOf ops operationID currentOpState false)
      end
  end.

(** ** Progress of the tasks *)

Definition shardTask (clockNow : Z) (table : TaskRec) (sh : ShardProgress) : TaskRec :=
  {| tk_ID := 0; tk_TaskIdentifier := newTaskIdentifier table (sd_Shard sh); tk_ApplyID := tk_ApplyID table;
     tk_ApplyOperationID := tk_ApplyOperationID table; tk_PlanID := tk_PlanID table; tk_Database := tk_Database table;
     tk_DatabaseType := tk_DatabaseType table; tk_Namespace := tk_Namespace table; tk_TableName := tk_TableName table;
     tk_Shard := sd_Shard sh; tk_DDL := tk_DDL table; tk_DDLAction := tk_DDLAction table; tk_Engine := tk_Engine table;
     tk_Repository := tk_Repository table; tk_PullRequest := tk_PullRequest table; tk_Environment := tk_Environment table;
     tk_State := NormalizeShardStatus E (sd_State sh); tk_ErrorMessage := None; tk_Options := ""; tk_Attempt := 0;
     tk_Progress := {| tp_RowsCopied := tp_RowsCopied (sd_Progress sh); tp_RowsTotal := tp_RowsTotal (sd_Progress sh);
                       tp_ProgressPercent := tp_ProgressPercent (sd_Progress sh); tp_ETASeconds := tp_ETASeconds (sd_Progress sh);
                       tp_ChecksumRowsChecked := 0; tp_ChecksumRowsTotal := 0 |};
     tk_CutoverAttempts := sd_CutoverAttempts sh; tk_IsInstant := false; tk_ReadyToComplete := false;
     tk_EngineMigrationID := ""; tk_StartedAt := None; tk_CompletedAt := None; tk_CreatedAt := clockNow;
     tk_UpdatedAt := clockNow |}.

(** A lost lease ends the write-through, another error skips the shard. *)
Fixpoint writeShards (clockNow : Z) (table : TaskRec) (shards : list ShardProgress) : prog plane unit :=
  match shards with
  | [] => Ret tt
  | sh :: rest =>
      let! r := onStore (UpsertShardProgress foundRows ctx (shardTask clockNow table sh)) in
      if bool_decide (r = Err ErrApplyLeaseLost) then Ret tt else writeShards clockNow table rest
  end.

Definition writeShardProgress (clockNow : Z) (table : TaskRec) (tp : TableProgress) : prog plane unit :=
  match OperationLeaseFromContext ctx, ApplyLeaseFromContext ctx with
  | None, None => Ret tt
  | _, _ => writeShards clockNow table (tb_Shards tp)
  end.

(** The task with the progress of its table. *)
Definition withEngineTable (retryableFailure : bool) (tp : TableProgress) (task : TaskRec) : TaskRec :=
  let task := set_tk_IsInstant (tb_IsInstant tp) (set_tk_Progress (tb_Progress tp) task) in
  let task := match tk_StartedAt task, tb_StartedAt tp with None, Some t => set_tk_StartedAt (Some t) task | _, _ => task end in
  match tk_CompletedAt task, tb_CompletedAt tp with
  | None, Some t => if retryableFailure then task else set_tk_CompletedAt (Some t) task
  | _, _ => task
  end.

Definition percentDone (task : TaskRec) : TaskRec := set_tk_Progress (set_tp_ProgressPercent 100 (tk_Progress task)) task.

(** The times, the error and the percentage an engine result implies. *)
Definition withEngineResult (clockNow : Z) (retryableFailure : bool) (result : ProgressResult) (newState : string) (task : TaskRec)
    : TaskRec :=
  let terminal := EngineState_IsTerminal (pr_State result) in
  let task := match tk_StartedAt task with
              | None => if newState != Task.Pending then set_tk_StartedAt (Some clockNow) task else task
              | Some _ => task
              end in
  let task := match tk_CompletedAt task with
              | None => if terminal && negb retryableFailure then set_tk_CompletedAt (Some clockNow) task else task
              | Some _ => task
              end in
  let message := progressFailureMessage (Some result) in
  let task := if (pr_State result == Engine.StateFailed) && (errorText (tk_ErrorMessage task) == "") && (message != "")
              then set_tk_ErrorMessage (Some message) task else task in
  if pr_State result == Engine.StateCompleted then percentDone task else task.

Definition instantFromMetadata (p : EngineProgress) : bool :=
  match ep_ResumeState p with
  | Some rs => if rs_Metadata rs == "" then false
               else match psMetadata (rs_Metadata rs) with Some m => pm_IsInstant m | None => false end
  | None => false
  end.

Definition syncTask (clockNow : Z) (p : EngineProgress) (newState : string) (task : TaskRec) : prog plane TaskRec :=
  let retryableFailure := IsState newState [Task.FailedRetryable] in
  if retryableFailure && IsTerminalTaskState (tk_State task) then Ret task else
  let! task :=
    match engineProgressForTask (indexEngineTableProgress (ep_Tables p)) task with
    | Some tp =>
        let task := withEngineTable retryableFailure tp task in
        let! _ := writeShardProgress clockNow task tp in Ret task
    | None =>
        Ret (if instantFromMetadata p then
               let task := set_tk_IsInstant true task in
               if EngineState_IsTerminal (pr_State (ep_Result p)) && negb retryableFailure then percentDone task else task
             else task)
    end in
  let task := withEngineResult clockNow retryableFailure (ep_Result p) newState task in
  transitionTaskState foundRows clockNow ctx task (taskStateWithNoBackwardProgress E (tk_State task) newState).

Definition syncAtomicTaskProgress (clockNow : Z) (p : EngineProgress) (newState : string) (tasks : list TaskRec)
    : prog plane (list TaskRec) := eachTask (syncTask clockNow p newState) tasks.

(** ** A tick *)

(** [atomicPollState], without what only the log uses. *)
Record atomicPollState := {
  ps_lastTaskState : string;
  ps_stateEnteredAt : option Z;
  ps_revertSkipped : bool;
  ps_consecutiveErrors : nat;
}.

(** What a grouped drive holds. *)
Record groupedDrive := {
  gd_Apply : Apply;
  gd_Tasks : list TaskRec;
  gd_Resume : option ResumeState;
  gd_Poll : atomicPollState;
}.

Definition set_gd_Apply (a : Apply) (d : groupedDrive) : groupedDrive :=
  {| gd_Apply := a; gd_Tasks := gd_Tasks d; gd_Resume := gd_Resume d; gd_Poll := gd_Poll d |}.
Definition set_gd_Tasks (t : list TaskRec) (d : groupedDrive) : groupedDrive :=
  {| gd_Apply := gd_Apply d; gd_Tasks := t; gd_Resume := gd_Resume d; gd_Poll := gd_Poll d |}.
Definition set_gd_Resume (r : option ResumeState) (d : groupedDrive) : groupedDrive :=
  {| gd_Apply := gd_Apply d; gd_Tasks := gd_Tasks d; gd_Resume := r; gd_Poll := gd_Poll d |}.
Definition set_gd_Poll (p : atomicPollState) (d : groupedDrive) : groupedDrive :=
  {| gd_Apply := gd_Apply d; gd_Tasks := gd_Tasks d; gd_Resume := gd_Resume d; gd_Poll := p |}.
Definition set_ps_Errors (n : nat) (p : atomicPollState) : atomicPollState :=
  {| ps_lastTaskState := ps_lastTaskState p; ps_stateEnteredAt := ps_stateEnteredAt p;
     ps_revertSkipped := ps_revertSkipped p; ps_consecutiveErrors := n |}.
Definition skipped (d : groupedDrive) : groupedDrive :=
  set_gd_Poll {| ps_lastTaskState := ps_lastTaskState (gd_Poll d); ps_stateEnteredAt := ps_stateEnteredAt (gd_Poll d);
                 ps_revertSkipped := true; ps_consecutiveErrors := ps_consecutiveErrors (gd_Poll d) |} d.

(** A step of a tick ends the drive or goes on. *)
Inductive tick := Stop (d : groupedDrive) | Next (d : groupedDrive).

Definition andNext (p : prog plane tick) (k : groupedDrive -> prog plane tick) : prog plane tick :=
  let! r := p in match r with Stop d => Ret (Stop d) | Next d => k d end.

Section Tick.
Context (clockNow : Z) (creds : string) (options : gmap string string) (releaseAtCutoverBarrier : bool).

Abbreviation serveStop := (processPendingCancelOrStopControlRequest E foundRows hasOptions clockNow ctx cfg).

Definition tickStop (d : groupedDrive) : prog plane tick :=
  let! stop := serveStop (gd_Apply d) in
  let d := set_gd_Apply (hr_Apply stop) d in
  Ret (if hr_Handled stop || match hr_Err stop with Some _ => true | None => false end then Stop d else Next d).

Definition failDrive (message : string) (d : groupedDrive) : prog plane tick :=
  let! (apply, tasks) := failApplyWithTasks foundRows hasOptions clockNow ctx (gd_Apply d) (gd_Tasks d) message in
  Ret (Stop (set_gd_Apply apply (set_gd_Tasks tasks d))).

Definition pauseDrive (message : string) (d : groupedDrive) : prog plane tick :=
  let! (apply, tasks) := markApplyRetryableWithTasks foundRows hasOptions clockNow ctx (gd_Apply d) (gd_Tasks d) message in
  Ret (Stop (set_gd_Apply apply (set_gd_Tasks tasks d))).

Definition progressFailed (e : engineErr) (d : groupedDrive) : prog plane tick :=
  if ee_Permanent e then failDrive ("progress polling failed: " ++ ee_Message e) d else
  let errors := Datatypes.S (ps_consecutiveErrors (gd_Poll d)) in
  let d := set_gd_Poll (set_ps_Errors errors (gd_Poll d)) d in
  if (maxPollErrors <=? errors)%nat then
    let message := "progress polling failed after " ++ Itoa (Z.of_nat errors) ++ " consecutive errors: " ++ ee_Message e in
    if shouldRetryEngineError cfg e then pauseDrive message d else failDrive message d
  else Ret (Next d).

(** The resume state the engine returned, with the deadline of the revert window. *)
Definition adoptResumeState (p : EngineProgress) (d : groupedDrive) : prog plane tick :=
  match ep_ResumeState p, gd_Resume d with
  | Some rs, Some _ =>
      let rs :=
        if pr_State (ep_Result p) == Engine.StateRevertWindow then
          match revertWindowDeadline (Some rs) (ps_stateEnteredAt (gd_Poll d)) with
          | None => rs
          | Some deadline =>
              match mergeRevertExpiry (rs_Metadata rs) deadline with
              | Ok merged => {| rs_MigrationContext := rs_MigrationContext rs; rs_Metadata := merged |}
              | Err _ => rs
              end
          end
        else rs in
      let d := set_gd_Resume (Some rs) d in
      if lc_Type cfg == DatabaseTypeVitess then
        let! saved := saveEngineResumeState (gd_Apply d) (gd_Tasks d) rs in
        match saved with
        | Err e => pauseDrive ("failed to save engine resume state from progress polling: " ++ errText e) d
        | Ok _ => Ret (Next d)
        end
      else Ret (Next d)
  | _, _ => Ret (Next d)
  end.

Definition enterState (newState : string) (d : groupedDrive) : groupedDrive :=
  if newState == ps_lastTaskState (gd_Poll d) then d
  else set_gd_Poll {| ps_lastTaskState := newState; ps_stateEnteredAt := Some clockNow;
                      ps_revertSkipped := ps_revertSkipped (gd_Poll d);
                      ps_consecutiveErrors := ps_consecutiveErrors (gd_Poll d) |} d.

(** The pending cutover and volume requests. *)
Definition tickRequests (d : groupedDrive) : prog plane tick :=
  let! (apply, cutoverErr) :=
    processPendingCutoverControlRequest E foundRows hasOptions clockNow ctx cfg errText (gd_Apply d) in
  let d := set_gd_Apply apply d in
  match cutoverErr with
  | Some _ => Ret (Stop d)
  | None =>
      let! (apply, volumeErr) :=
        processPendingVolumeControlRequest foundRows ctx errText unmarshalVolume apply creds (gd_Resume d) in
      let d := set_gd_Apply apply d in
      Ret (if bool_decide (volumeErr = Some ErrApplyLeaseLost) then Stop d else Next d)
  end.

Definition controlRequest (d : groupedDrive) : ControlRequest :=
  {| ct_Database := a_Database (gd_Apply d); ct_ResumeState := gd_Resume d; ct_Credentials := creds |}.

(** A command whose answer is only logged, and whether it succeeded. *)
Definition command (operation : ControlOperation) (d : groupedDrive) : prog plane bool :=
  let! r := commandEngine (CallControl operation (controlRequest d)) (fun v => ev_Control v operation (controlRequest d)) in
  Ret match r with Ok _ => true | Err _ => false end.

Definition when (b : bool) (p : prog plane unit) : prog plane unit := if b then p else Ret tt.

Definition timedOut (d : groupedDrive) : bool :=
  match ps_stateEnteredAt (gd_Poll d) with Some t => waitingForManualActionTimeout <? clockNow - t | None => false end.

(** The deploy and the cutover that nobody has to start, and the end of waiting for
    the others. *)
Definition tickWaiting (st : string) (d : groupedDrive) : prog plane unit :=
  let opts := ApplyOptionsFromMap options in
  let! _ := when ((st == Engine.StateWaitingForDeploy) && negb (ao_DeferDeploy opts))
              (let! _ := command ControlStart d in Ret tt) in
  let! _ := when ((st == Engine.StateWaitingForCutover) && negb (ao_DeferCutover opts))
              (let! _ := command ControlCutover d in Ret tt) in
  let! _ := when ((st == Engine.StateWaitingForDeploy) && ao_DeferDeploy opts && timedOut d)
              (let! _ := command ControlStop d in Ret tt) in
  when ((st == Engine.StateWaitingForCutover) && ao_DeferCutover opts && negb releaseAtCutoverBarrier && timedOut d)
    (let! _ := command ControlStop d in Ret tt).

Definition markRevertSkipped (apply : Apply) : prog plane unit :=
  let! _ := execStore (SetRevertSkipped (a_ID apply) clockNow) in Ret tt.

(** [--skip-revert] *)
Definition autoSkipRevert (st : string) (d : groupedDrive) : prog plane groupedDrive :=
  if (st == Engine.StateRevertWindow) && ao_SkipRevert (ApplyOptionsFromMap options) && negb (ps_revertSkipped (gd_Poll d)) then
    let! accepted := command ControlSkipRevert d in
    let! _ := when accepted (markRevertSkipped (gd_Apply d)) in
    Ret (skipped d)
  else Ret d.

(** A skip-revert request of a user. *)
Definition serveSkipRevert (st : string) (d : groupedDrive) : prog plane groupedDrive :=
  if (st == Engine.StateRevertWindow) && negb (ps_revertSkipped (gd_Poll d)) then
    let! pending := pendingControlRequest (gd_Apply d) ControlOperationSkipRevert in
    match pending with
    | Ok (Some _) =>
        let! accepted := command ControlSkipRevert d in
        if accepted : bool then
          let! _ := markRevertSkipped (gd_Apply d) in
          let! _ := completePendingControlRequests foundRows ctx (gd_Apply d) ControlOperationSkipRevert in
          Ret (skipped d)
        else Ret d
    | _ => Ret d
    end
  else Ret d.

(** A revert request of a user: whether the engine reverts. *)
Definition serveRevert (st : string) (d : groupedDrive) : prog plane bool :=
  if (st == Engine.StateRevertWindow) && negb (ps_revertSkipped (gd_Poll d)) then
    let! pending := pendingControlRequest (gd_Apply d) ControlOperationRevert in
    match pending with
    | Ok (Some _) =>
        let! accepted := command ControlRevert d in
        if accepted : bool then
          let! _ := completePendingControlRequests foundRows ctx (gd_Apply d) ControlOperationRevert in Ret true
        else Ret false
    | _ => Ret false
    end
  else Ret false.

(** The end of the revert window. *)
Definition expireRevert (p : EngineProgress) (reverted : bool) (d : groupedDrive) : prog plane groupedDrive :=
  let expired := match revertWindowDeadline (ep_ResumeState p) (ps_stateEnteredAt (gd_Poll d)) with
                 | Some deadline => deadline <? clockNow
                 | None => false
                 end in
  if (pr_State (ep_Result p) == Engine.StateRevertWindow) && negb (ao_SkipRevert (ApplyOptionsFromMap options)) &&
     negb (ps_revertSkipped (gd_Poll d)) && negb reverted && expired then
    let! accepted := command ControlSkipRevert d in
    let! _ := when accepted (markRevertSkipped (gd_Apply d)) in
    Ret (skipped d)
  else Ret d.

Definition tickRevert (p : EngineProgress) (d : groupedDrive) : prog plane groupedDrive :=
  let st := pr_State (ep_Result p) in
  let! d := autoSkipRevert st d in
  let! d := serveSkipRevert st d in
  let! reverted := serveRevert st d in
  expireRevert p reverted d.

(** ** Settling *)

Definition settledState (opState : string) : bool := IsTerminalApplyState opState || IsState opState [Apply.FailedRetryable].

(** A drive under an operation lease only: the operator projects the parent. *)
Definition settleOperation (p : EngineProgress) (newState : string) (d : groupedDrive) : prog plane tick :=
  let parked opState := releaseAtCutoverBarrier && IsState opState [Apply.WaitingForCutover] in
  let finish opState := Ret (if parked opState || settledState opState then Stop d else Next d) in
  match gd_Tasks d with
  | _ :: _ => finish (DeriveApplyState (tk_State <$> gd_Tasks d))
  | [] =>
      let opState := DeriveApplyState [newState] in
      if settledState opState || IsState opState [Apply.WaitingForCutover] then
        let! marked := markTasklessOperationState (gd_Apply d) opState (pr_ErrorMessage (ep_Result p)) in
        match marked with Err _ => Ret (Stop d) | Ok _ => finish opState end
      else finish opState
  end.

(** The state the projection calls for, or the one the drive has. *)
Definition projectedApply (newState : string) (d : groupedDrive) : prog plane groupedDrive :=
  let! derived :=
    match gd_Tasks d with
    | [] => Ret (Some (DeriveApplyState [newState]))
    | _ => deriveAggregateApplyState (gd_Apply d) (gd_Tasks d)
    end in
  let apply := match derived with Some st => set_a_State st (gd_Apply d) | None => gd_Apply d end in
  let apply := if ps_revertSkipped (gd_Poll d) && IsState (a_State apply) [Apply.RevertWindow]
               then set_a_State Apply.SkippingRevert apply else apply in
  Ret (set_gd_Apply (set_a_UpdatedAt clockNow apply) d).

Definition writeDerived (expectedState : string) (apply : Apply) : prog plane (res bool) :=
  onStore (UpdateDerivedState foundRows ctx (a_ID apply) expectedState (a_State apply) (a_ErrorMessage apply)
             (a_StartedAt apply) (a_CompletedAt apply)).

(** The apply that quiesces, with its time of completion and its error. *)
Definition quiescedApply (result : ProgressResult) (stampCompletedAt : bool) (d : groupedDrive) : Apply :=
  let apply := set_a_CompletedAt (if stampCompletedAt then Some clockNow else None) (gd_Apply d) in
  let message := progressFailureMessage (Some result) in
  let apply := if (pr_State result == Engine.StateFailed) && (message != "") then set_a_ErrorMessage message apply else apply in
  ensureApplyFailureMessage apply (gd_Tasks d).

Definition settleProgress (p : EngineProgress) (expectedState : string) (d : groupedDrive) : prog plane tick :=
  let '(quiesce, _, stampCompletedAt) := applyQuiesceDecision (a_State (gd_Apply d)) in
  if quiesce : bool then
    let d := set_gd_Apply (quiescedApply (ep_Result p) stampCompletedAt d) d in
    let! swapped := writeDerived expectedState (gd_Apply d) in
    if bool_decide (swapped = Ok false) then Ret (Stop d) else
    let! _ := completePendingRequestsForTerminalApply foundRows ctx (gd_Apply d) in
    Ret (Stop d)
  else
    let! swapped := writeDerived expectedState (gd_Apply d) in
    if bool_decide (swapped = Ok false) then Ret (Next d) else
    let opState := DeriveApplyState (tk_State <$> gd_Tasks d) in
    Ret (if (releaseAtCutoverBarrier && IsState opState [Apply.WaitingForCutover]) || settledState opState
         then Stop d else Next d).

Definition settleTick (p : EngineProgress) (newState : string) (d : groupedDrive) : prog plane tick :=
  if suppressParentApplyWrites ctx then settleOperation p newState d else
  let! d := projectedApply newState d in
  let! fresh := readStore (findApply (a_ID (gd_Apply d))) in
  match fresh with
  | Err _ | Ok None => Ret (Stop d)
  | Ok (Some stored) =>
      if IsTerminalApplyState (a_State stored) then
        let! _ := completePendingRequestsForTerminalApply foundRows ctx stored in
        Ret (Stop (set_gd_Apply stored d))
      else settleProgress p (a_State stored) d
  end.

Definition handleAtomicProgressTick (d : groupedDrive) : prog plane tick :=
  andNext (tickStop d) (fun d =>
  let! result := askEngine (fun v => ev_Progress v (a_Database (gd_Apply d)) creds (gd_Resume d)) in
  match result with
  | Err e => progressFailed e d
  | Ok p =>
      let d := set_gd_Poll (set_ps_Errors 0 (gd_Poll d)) d in
      andNext (adoptResumeState p d) (fun d =>
      let newState := taskStateFromProgressResult (Some (ep_Result p)) in
      let d := enterState newState d in
      let! tasks := syncAtomicTaskProgress clockNow p newState (gd_Tasks d) in
      let d := set_gd_Tasks tasks d in
      andNext (tickStop d) (fun d =>
      andNext (tickRequests d) (fun d =>
      let! _ := tickWaiting (pr_State (ep_Result p)) d in
      let! d := tickRevert p d in
      settleTick p newState d)))
  end).
End Tick.

(** The ticks at the given times, under [context]; [None] when the drive goes on. *)
Fixpoint pollForCompletionAtomic (clocks : list Z) (context : Z) (creds : string) (options : gmap string string)
    (releaseAtCutoverBarrier : bool) (d : groupedDrive) : prog plane (option groupedDrive) :=
  match clocks with
  | [] => Ret None
  | clockNow :: clocks =>
      let! done := cancelled context in
      if done : bool then Ret (Some d) else
      let! r := handleAtomicProgressTick clockNow creds options releaseAtCutoverBarrier d in
      match r with
      | Stop d => Ret (Some d)
      | Next d => pollForCompletionAtomic clocks context creds options releaseAtCutoverBarrier d
      end
  end.

Definition startPoll (apply : Apply) (tasks : list TaskRec) (rs : option ResumeState) : groupedDrive :=
  {| gd_Apply := apply; gd_Tasks := tasks; gd_Resume := rs;
     gd_Poll := {| ps_lastTaskState := ""; ps_stateEnteredAt := None;
                   ps_revertSkipped := match a_RevertSkippedAt apply with Some _ => true | None => false end;
                   ps_consecutiveErrors := 0 |} |}.

(** ** The start of a grouped apply *)

(** [ddl.OpToStatementType], by the name of the statement type. *)
Definition statementName (op : string) : string :=
  let l := ToLower op in if oneOf l ["create"; "alter"; "drop"; "rename"] then l else "unknown".

Definition newChange (namespace : string) : EngineChange :=
  {| ec_Namespace := namespace; ec_Shard := ""; ec_Tables := []; ec_VSchemaChanged := false |}.

(** [changes[ensureNamespace(namespace)]] updated with [f]. *)
Fixpoint onNamespace (namespace : string) (f : EngineChange -> EngineChange) (changes : list EngineChange)
    : list EngineChange :=
  match changes with
  | [] => [f (newChange namespace)]
  | c :: rest => if ec_Namespace c == namespace then f c :: rest else c :: onNamespace namespace f rest
  end.

Definition addTable (task : TaskRec) (c : EngineChange) : EngineChange :=
  {| ec_Namespace := ec_Namespace c; ec_Shard := ec_Shard c;
     ec_Tables := (ec_Tables c ++ [{| et_Table := tk_TableName task; et_DDL := tk_DDL task;
                                     et_Action := statementName (tk_DDLAction task) |}])%list;
     ec_VSchemaChanged := ec_VSchemaChanged c |}.

Definition flagVSchema (c : EngineChange) : EngineChange :=
  {| ec_Namespace := ec_Namespace c; ec_Shard := ec_Shard c; ec_Tables := ec_Tables c; ec_VSchemaChanged := true |}.

Definition vschemaNamespaces (plan : Plan) : list string :=
  List.filter (fun ns => match pn_Namespaces plan !! ns with Some d => namespaceHasVSchemaArtifact d | None => false end)
    (sortedKeys (pn_Namespaces plan)).

Definition groupedResumeChanges (tasks : list TaskRec) (plan : Plan) : list EngineChange :=
  let changes := fold_left (fun changes task =>
                   if tk_DDL task == "" then changes else onNamespace (tk_Namespace task) (addTable task) changes) tasks [] in
  fold_left (fun changes ns => onNamespace ns flagVSchema changes) (vschemaNamespaces plan) changes.

(** [taskTargetShards] (grpc_client.go) *)
Definition taskTargetShards (tasks : list TaskRec) : list string :=
  Sort (remove_dups (List.filter (fun sh => sh != "") (tk_Shard <$> tasks))).

Definition credentialsForGroupedApply (plan : Plan) : res string :=
  if lc_Type cfg != DatabaseTypeMySQL then Ok (lc_TargetDSN cfg) else
  match map_to_list (pn_Namespaces plan) with
  | [(namespace, _)] => credentialsForMySQLNamespace cfg namespace
  | _ => Err (Errorf "grouped MySQL apply requires exactly one namespace")
  end.

Section Launch.
Context (clockNow : Z).

Definition applyEventStateTransition (apply : Apply) (newState : string) : prog plane Apply :=
  if (newState == "") || (newState == a_State apply) then Ret apply else
  let apply' := set_a_UpdatedAt clockNow (set_a_State newState apply) in
  let! r := updateApply hasOptions ctx apply' in
  Ret match r with Ok _ => apply' | Err _ => set_a_State (a_State apply) apply' end.

(** The callbacks of a call of the engine; one without OnEvent ignores its events. *)
Fixpoint engineCallbacks (onEvent : bool) (tasks : list TaskRec) (apply : Apply) (events : list engineEvent)
    : prog plane Apply :=
  match events with
  | [] => Ret apply
  | OnEvent newState :: rest =>
      let! apply := (if onEvent then applyEventStateTransition apply newState else Ret apply) in
      engineCallbacks onEvent tasks apply rest
  | OnStateChange None :: rest => engineCallbacks onEvent tasks apply rest
  | OnStateChange (Some rs) :: rest =>
      let! _ := saveEngineResumeState apply tasks rs in engineCallbacks onEvent tasks apply rest
  end.

Definition engineApply (onEvent : bool) (tasks : list TaskRec) (apply : Apply) (req : EngineApplyRequest)
    : prog plane (Apply * eres EngineApplyResult) :=
  let! answer := commandEngine (CallApply req) (fun v => Ok (ev_Apply v req)) in
  match answer with
  | Err e => Ret (apply, Err e)
  | Ok (events, result) => let! apply := engineCallbacks onEvent tasks apply events in Ret (apply, result)
  end.

Definition groupedRequest (apply : Apply) (tasks : list TaskRec) (plan : Plan) (options : gmap string string)
    (rs : ResumeState) (creds : string) : EngineApplyRequest :=
  {| ar_Database := a_Database apply; ar_Changes := groupedResumeChanges tasks plan; ar_TargetShards := taskTargetShards tasks;
     ar_Options := options; ar_ResumeState := Some rs; ar_Credentials := creds |}.

(** The apply as the drive has it afterwards, and the error. *)
Definition completeTasklessGroupedApply (apply : Apply) : prog plane (Apply * res unit) :=
  if suppressParentApplyWrites ctx then
    let! r := (try! operationID := applyOperationIDForApplyTasks apply [] in
               onStore (Operations.MarkCompleted foundRows ctx operationID)) in
    Ret (apply, r)
  else
    let apply := set_a_UpdatedAt clockNow (set_a_CompletedAt (Some clockNow) (set_a_State Apply.Completed apply)) in
    let! r := updateApply hasOptions ctx apply in
    Ret (apply, r).

Definition markInstant (rs : option ResumeState) (tasks : list TaskRec) : list TaskRec :=
  match rs with
  | Some rs => match psMetadata (rs_Metadata rs) with
               | Some m => if pm_IsInstant m then set_tk_IsInstant true <$> tasks else tasks
               | None => tasks
               end
  | None => tasks
  end.

(** A drive that ends without polling. *)
Definition ended (apply : Apply) (tasks : list TaskRec) : option groupedDrive := Some (startPoll apply tasks None).

Definition failGrouped (apply : Apply) (tasks : list TaskRec) (message : string) : prog plane (option groupedDrive) :=
  let! (apply, tasks) := failApplyWithTasks foundRows hasOptions clockNow ctx apply tasks message in Ret (ended apply tasks).
Definition pauseGrouped (apply : Apply) (tasks : list TaskRec) (message : string) : prog plane (option groupedDrive) :=
  let! (apply, tasks) := markApplyRetryableWithTasks foundRows hasOptions clockNow ctx apply tasks message in
  Ret (ended apply tasks).

(** The tasks and the apply after the engine accepted the change, and the polling. *)
Definition followGrouped (clocks : list Z) (context : Z) (creds : string) (options : gmap string string)
    (releaseAtCutoverBarrier : bool) (apply : Apply) (tasks : list TaskRec) (rs : option ResumeState)
    : prog plane (option groupedDrive) :=
  let! tasks := markTasksRunning foundRows clockNow ctx (markInstant rs tasks) in
  let apply := set_a_UpdatedAt clockNow
    (set_a_State (if lc_Type cfg == DatabaseTypeVitess then Apply.ValidatingDeployRequest else Apply.Running) apply) in
  let! _ := updateApply hasOptions ctx apply in
  pollForCompletionAtomic clocks context creds options releaseAtCutoverBarrier (startPoll apply tasks rs).

Definition executeGroupedApply (clocks : list Z) (context : Z) (apply : Apply) (tasks : list TaskRec) (plan : Plan)
    (options : gmap string string) (releaseAtCutoverBarrier : bool) : prog plane (option groupedDrive) :=
  let namespaces := length (map_to_list (pn_Namespaces plan)) in
  if (namespaces =? 0)%nat then failGrouped apply tasks "plan has no namespace data" else
  if (lc_Type cfg == DatabaseTypeMySQL) && (1 <? namespaces)%nat
  then failGrouped apply tasks "MySQL applies support one namespace per apply" else
  match credentialsForGroupedApply plan with
  | Err e => failGrouped apply tasks (errText e)
  | Ok creds =>
  let apply := set_a_UpdatedAt clockNow (set_a_StartedAt (Some clockNow) (set_a_State Apply.Running apply)) in
  let! _ := updateApply hasOptions ctx apply in
  let! stop := processPendingCancelOrStopControlRequest E foundRows hasOptions clockNow ctx cfg apply in
  let apply := hr_Apply stop in
  if hr_Handled stop || match hr_Err stop with Some _ => true | None => false end then Ret (ended apply tasks) else
  let! (apply, result) := engineApply true tasks apply
    (groupedRequest apply tasks plan options {| rs_MigrationContext := a_ApplyIdentifier apply; rs_Metadata := "" |} creds) in
  match result with
  | Err e => if shouldRetryEngineError cfg e then pauseGrouped apply tasks (ee_Message e)
             else failGrouped apply tasks (ee_Message e)
  | Ok result =>
      if negb (er_Accepted result) then failGrouped apply tasks (er_Message result) else
      if isTasklessVSchemaOnlyPlan tasks (Some plan) then
        let! (apply, _) := completeTasklessGroupedApply apply in Ret (ended apply tasks)
      else
      let vitess := lc_Type cfg == DatabaseTypeVitess in
      let follow := followGrouped clocks context creds options releaseAtCutoverBarrier apply tasks (er_ResumeState result) in
      match er_ResumeState result with
      | None => if vitess then failGrouped apply tasks "engine accepted Vitess apply without resume state" else follow
      | Some rs =>
          if vitess then
            let! saved := saveEngineResumeState apply tasks rs in
            match saved with
            | Err e => pauseGrouped apply tasks ("failed to save engine resume state: " ++ errText e)
            | Ok _ => follow
            end
          else follow
      end
  end
  end.
End Launch.
End Grouped.

(** ** Posts of a program *)

(** Whatever happens around the statements, the result satisfies [Q]. *)
Abbreviation returns := (fun Q p => keepsView (fun _ : plane => tt) (fun _ => True) Q p).

Lemma returns_any {R} (p : prog plane R) : returns (fun _ => True) p.
Proof. induction p as [r | A stmt k IH]; cbn; auto. Qed.

Lemma returns_after {R R'} (Q : R' -> Prop) (p : prog plane R) (f : R -> prog plane R') :
  (forall r, returns Q (f r)) -> returns Q (pbind p f).
Proof. intros Hf. eapply keepsView_bind; [apply returns_any|]. intros r _. apply Hf. Qed.

Lemma returns_run {R} (Q : R -> Prop) (p : prog plane R) env n w w' r n' :
  returns Q p -> runE env n p w = (w', r, n') -> Q r.
Proof. intros Hp Hrun. refine (proj1 (keepsView_run _ _ Q env p n w w' r n' _ Hp _ Hrun)); done. Qed.

(** ** No task moves backward *)

(** How far a task has come; settled states are above all active ones. *)
Definition taskLevel (st : string) : Z :=
  if IsTerminalTaskState st then 10
  else if oneOf st [Task.Stopped; Task.FailedRetryable] then 9
  else if st == Task.Reverting then 7
  else if st == Task.RevertWindow then 6
  else if st == Task.CuttingOver then 5
  else if oneOf st [Task.WaitingForCutover; Task.Recovering] then 4
  else if st == Task.Checksumming then 3
  else if oneOf st [Task.Running; Task.WaitingForDeploy] then 2
  else 0.

Section Forward.
Context (E : EngineNames) (HE : engineNamesDisjoint E).

(** [t'] is [t] later on: no lower, and in the same state once terminal.  Tasks that
    were read from the store have a canonical state. *)
Definition notBehind (t t' : TaskRec) : Prop :=
  tk_State t ∈ taskStates_all ->
  tk_State t' ∈ taskStates_all /\ taskLevel (tk_State t) <= taskLevel (tk_State t') /\
  (IsTerminalTaskState (tk_State t) = true -> tk_State t' = tk_State t).

#[local] Instance notBehind_preorder : PreOrder notBehind.
Proof.
  split; [by intros t|]. intros t u v H1 H2 Ht. destruct (H1 Ht) as (Hu & L1 & T1), (H2 Hu) as (Hv & L2 & T2).
  repeat split; [done|lia|]. intros H. rewrite T2, T1; [done..|]. by rewrite T1.
Qed.

Lemma noBackward_canonical stored engine : taskStateWithNoBackwardProgress E stored engine ∈ taskStates_all.
Proof. unfold taskStateWithNoBackwardProgress. break; apply NormalizeTaskStatus_range. Qed.

Lemma noBackward_level stored engine :
  let next := taskStateWithNoBackwardProgress E stored engine in
  taskLevel (NormalizeTaskStatus E stored) <= taskLevel next /\
  (IsTerminalTaskState (NormalizeTaskStatus E stored) = true -> next = NormalizeTaskStatus E stored).
Proof.
  cbv zeta. unfold taskStateWithNoBackwardProgress, activeTaskProgressRank.
  rewrite (NormalizeTaskStatus_canonical E HE (NormalizeTaskStatus E stored)) by apply NormalizeTaskStatus_range.
  rewrite (NormalizeTaskStatus_canonical E HE (NormalizeTaskStatus E engine)) by apply NormalizeTaskStatus_range.
  pose proof (NormalizeTaskStatus_range E stored) as Hs. pose proof (NormalizeTaskStatus_range E engine) as Hn.
  generalize dependent (NormalizeTaskStatus E stored). generalize dependent (NormalizeTaskStatus E engine).
  intros e He s Hs. unfold taskStates_all in *. elem_cases Hs; elem_cases He; vm_compute; by split.
Qed.

Context (foundRows hasOptions : bool) (ctx : leaseCtx) (cfg : clientConfig).
Context (errText : StoreErr -> string) (unmarshalVolume : string -> option Z).
Context (parseDuration : string -> option Z) (revertWindowMetadata : string).
Context (psMetadata : string -> option psMeta) (mergeRevertExpiry : string -> Z -> res string).
Context (newTaskIdentifier : TaskRec -> string -> string).

Lemma eachTask_notBehind body tasks :
  (forall t, returns (notBehind t) (body t)) -> returns (Forall2 notBehind tasks) (eachTask body tasks).
Proof.
  intros Hb. induction tasks as [|t ts IH]; cbn [eachTask]; [by constructor|].
  eapply keepsView_bind; [apply Hb|]. intros t' Ht. eapply keepsView_bind; [exact IH|]. intros ts' Hts. by constructor.
Qed.

Lemma withEngineTable_state retryable tp t : tk_State (withEngineTable retryable tp t) = tk_State t.
Proof. unfold withEngineTable. break. Qed.

Lemma withEngineResult_state clockNow retryable result st t :
  tk_State (withEngineResult clockNow retryable result st t) = tk_State t.
Proof. unfold withEngineResult, percentDone. break. Qed.

Lemma syncTask_notBehind clockNow p st t :
  returns (notBehind t) (syncTask E foundRows ctx psMetadata newTaskIdentifier clockNow p st t).
Proof.
  unfold syncTask. destruct (_ && _); [by cbn|].
  eapply (keepsView_bind _ _ (fun u => tk_State u = tk_State t)).
  - destruct (engineProgressForTask _ _) as [tp|].
    + apply returns_after. intros _. apply withEngineTable_state.
    + cbn. unfold percentDone. break.
  - intros u Hu. rewrite withEngineResult_state, Hu. apply returns_after. intros _ Ht. cbn [tk_State set_tk_State].
    destruct (noBackward_level (tk_State t) st) as [Hl Hk].
    rewrite (NormalizeTaskStatus_canonical E HE (tk_State t) Ht) in Hl, Hk.
    split; [apply noBackward_canonical|]. by split.
Qed.

Lemma failOpenTask_notBehind clockNow st message completedAt t :
  st ∈ [Task.Failed; Task.FailedRetryable] ->
  returns (notBehind t) (failOpenTask foundRows clockNow ctx st message completedAt t).
Proof.
  intros Hst. unfold failOpenTask. destruct (IsTerminalTaskState (tk_State t)) eqn:Et; [by cbn|].
  apply returns_after. intros _ Ht. cbn [tk_State set_tk_State]. rewrite Et. split; [apply oneOf_elem; by elem_cases Hst|].
  split; [|done]. generalize dependent (tk_State t). intros s Es Ht. unfold taskStates_all in Ht.
  elem_cases Ht; elem_cases Hst; by vm_compute in Es |- *.
Qed.

(** The tasks of the drive after a step of a tick. *)
Definition tickNotBehind (d : groupedDrive) (r : tick) : Prop :=
  Forall2 notBehind (gd_Tasks d) (gd_Tasks match r with Stop d' | Next d' => d' end).

Lemma tasks_refl ts : Forall2 notBehind ts ts.
Proof. reflexivity. Qed.

Lemma tasks_trans ts us vs : Forall2 notBehind ts us -> Forall2 notBehind us vs -> Forall2 notBehind ts vs.
Proof. intros H1 H2. by transitivity us. Qed.

Lemma andNext_notBehind d (p : prog plane tick) k :
  returns (tickNotBehind d) p ->
  (forall d', Forall2 notBehind (gd_Tasks d) (gd_Tasks d') -> returns (tickNotBehind d) (k d')) ->
  returns (tickNotBehind d) (andNext p k).
Proof. intros Hp Hk. eapply keepsView_bind; [exact Hp|]. intros [d'|d'] Hd; [done|by apply Hk]. Qed.

(** A step that leaves the tasks alone. *)
Lemma sameTasks d d' r :
  Forall2 notBehind (gd_Tasks d) (gd_Tasks d') -> gd_Tasks match r with Stop x | Next x => x end = gd_Tasks d' ->
  tickNotBehind d r.
Proof. intros Hd Hr. unfold tickNotBehind. by rewrite Hr. Qed.

Lemma settle_notBehind st message completedAt clockNow d d' (settle : list TaskRec -> prog plane Apply) :
  st ∈ [Task.Failed; Task.FailedRetryable] -> Forall2 notBehind (gd_Tasks d) (gd_Tasks d') ->
  returns (tickNotBehind d)
    (let! (apply, tasks) :=
       (let! tasks' := eachTask (failOpenTask foundRows clockNow ctx st message completedAt) (gd_Tasks d') in
        let! apply' := settle tasks' in Ret (apply', tasks')) in
     Ret (Stop (set_gd_Apply apply (set_gd_Tasks tasks d')))).
Proof.
  intros Hst Hd. eapply (keepsView_bind _ _ (fun r => Forall2 notBehind (gd_Tasks d') r.2)).
  - eapply keepsView_bind; [apply eachTask_notBehind; intros t; by apply failOpenTask_notBehind|].
    intros ts Hts. apply returns_after. by intros a.
  - intros [a ts] Hts. unfold tickNotBehind. cbn. by eapply tasks_trans.
Qed.

Lemma failDrive_notBehind clockNow message d d' :
  Forall2 notBehind (gd_Tasks d) (gd_Tasks d') ->
  returns (tickNotBehind d) (failDrive foundRows hasOptions ctx clockNow message d').
Proof. intros Hd. apply settle_notBehind; [apply oneOf_elem; reflexivity|done]. Qed.

Lemma pauseDrive_notBehind clockNow message d d' :
  Forall2 notBehind (gd_Tasks d) (gd_Tasks d') ->
  returns (tickNotBehind d) (pauseDrive foundRows hasOptions ctx clockNow message d').
Proof. intros Hd. apply settle_notBehind; [apply oneOf_elem; reflexivity|done]. Qed.

Section TickForward.
Context (clockNow : Z) (creds : string) (options : gmap string string) (release : bool).

Lemma tickStop_notBehind d d' :
  Forall2 notBehind (gd_Tasks d) (gd_Tasks d') ->
  returns (tickNotBehind d) (tickStop E foundRows hasOptions ctx cfg clockNow d').
Proof. intros Hd. apply returns_after. intros stop. eapply (sameTasks d d'); [done|]. by destruct (_ || _). Qed.

Lemma progressFailed_notBehind e d d' :
  Forall2 notBehind (gd_Tasks d) (gd_Tasks d') ->
  returns (tickNotBehind d) (progressFailed foundRows hasOptions ctx cfg clockNow e d').
Proof.
  intros Hd. unfold progressFailed. destruct (ee_Permanent e); [by apply failDrive_notBehind|].
  destruct (_ <=? _)%nat; [|by apply (sameTasks d d')].
  destruct (shouldRetryEngineError cfg e); [by apply pauseDrive_notBehind|by apply failDrive_notBehind].
Qed.

Lemma adopt_notBehind p d d' :
  Forall2 notBehind (gd_Tasks d) (gd_Tasks d') ->
  returns (tickNotBehind d) (adoptResumeState foundRows hasOptions ctx cfg errText parseDuration revertWindowMetadata
                               psMetadata mergeRevertExpiry clockNow p d').
Proof.
  intros Hd. unfold adoptResumeState. destruct (ep_ResumeState p) as [rs|], (gd_Resume d'); try by apply (sameTasks d d').
  cbv zeta. destruct (lc_Type cfg == _); [|by apply (sameTasks d d')].
  apply returns_after. intros [u|e]; [by apply (sameTasks d d')|by apply pauseDrive_notBehind].
Qed.

Lemma tickRequests_notBehind d d' :
  Forall2 notBehind (gd_Tasks d) (gd_Tasks d') ->
  returns (tickNotBehind d) (tickRequests E foundRows hasOptions ctx cfg errText unmarshalVolume clockNow creds d').
Proof.
  intros Hd. apply returns_after. intros [apply [e|]]; [by apply (sameTasks d d')|].
  apply returns_after. intros [a v]. apply (sameTasks d d'); [done|]. by destruct (bool_decide _).
Qed.

Abbreviation sameDriveTasks d := (fun d' => gd_Tasks d' = gd_Tasks d).

Lemma tickRevert_tasks p d :
  returns (sameDriveTasks d) (tickRevert foundRows ctx parseDuration revertWindowMetadata psMetadata clockNow creds options p d).
Proof.
  unfold tickRevert. eapply keepsView_bind.
  { instantiate (1 := sameDriveTasks d). unfold autoSkipRevert. destruct (_ && _ && _); [|done].
    apply returns_after. intros ok. apply returns_after. by intros _. }
  intros d1 H1. eapply keepsView_bind.
  { instantiate (1 := sameDriveTasks d1). unfold serveSkipRevert. destruct (_ && _); [|done].
    apply returns_after. intros [[r|]|e]; [|done..]. apply returns_after. intros [|]; [|done].
    apply returns_after. intros _. apply returns_after. by intros _. }
  intros d2 H2. apply returns_after. intros reverted. unfold expireRevert.
  destruct (_ && _); [|cbn; congruence]. apply returns_after. intros ok. apply returns_after. intros _. cbn. congruence.
Qed.

Lemma settleTick_notBehind p st d d' :
  Forall2 notBehind (gd_Tasks d) (gd_Tasks d') ->
  returns (tickNotBehind d) (settleTick foundRows ctx clockNow release p st d').
Proof.
  intros Hd. unfold settleTick. destruct (suppressParentApplyWrites ctx).
  - unfold settleOperation. destruct (gd_Tasks d') as [|t ts] eqn:Et.
    + assert (forall b : bool, tickNotBehind d (if b then Stop d' else Next d')) as Hb.
      { intros b. apply (sameTasks d d'); [by rewrite Et|]. by destruct b. }
      destruct (_ || _); [|apply Hb]. apply returns_after. intros [u|e]; [apply Hb|apply (Hb true)].
    + apply (sameTasks d d'); [by rewrite Et|]. by destruct (_ || _).
  - eapply (keepsView_bind _ _ (sameDriveTasks d')).
    { unfold projectedApply. apply returns_after. by intros derived. }
    intros d1 H1. apply returns_after. intros [[stored|]|e]; try by apply (sameTasks d d').
    destruct (IsTerminalApplyState _).
    { apply returns_after. intros r. by apply (sameTasks d d'). }
    unfold settleProgress. destruct (applyQuiesceDecision _) as [[[|] rp] stamp].
    + apply returns_after. intros r. destruct (bool_decide _); [by apply (sameTasks d d')|].
      apply returns_after. intros r'. by apply (sameTasks d d').
    + apply returns_after. intros r. destruct (bool_decide _); [by apply (sameTasks d d')|].
      apply (sameTasks d d'); [done|]. by destruct (_ || _).
Qed.

Lemma tick_notBehind d :
  returns (tickNotBehind d)
    (handleAtomicProgressTick E foundRows hasOptions ctx cfg errText unmarshalVolume parseDuration revertWindowMetadata
       psMetadata mergeRevertExpiry newTaskIdentifier clockNow creds options release d).
Proof.
  apply andNext_notBehind; [apply tickStop_notBehind, tasks_refl|]. intros d1 H1.
  apply returns_after. intros [p|e]; [|by apply progressFailed_notBehind].
  apply andNext_notBehind; [by apply adopt_notBehind|]. intros d2 H2. cbv zeta.
  eapply keepsView_bind; [apply eachTask_notBehind; intros t; apply syncTask_notBehind|]. intros ts Hts.
  assert (Forall2 notBehind (gd_Tasks d) ts) as H3.
  { eapply tasks_trans; [exact H2|]. unfold enterState in Hts. by destruct (_ == _). }
  apply andNext_notBehind; [by apply tickStop_notBehind|]. intros d4 H4.
  apply andNext_notBehind; [by apply tickRequests_notBehind|]. intros d5 H5.
  apply returns_after. intros _. eapply keepsView_bind; [apply tickRevert_tasks|]. intros d6 H6. cbv beta in H6.
  apply settleTick_notBehind. by rewrite H6.
Qed.
End TickForward.

Lemma poll_notBehind clocks context creds options release d :
  returns (fun r => match r with Some d' => Forall2 notBehind (gd_Tasks d) (gd_Tasks d') | None => True end)
    (pollForCompletionAtomic E foundRows hasOptions ctx cfg errText unmarshalVolume parseDuration revertWindowMetadata
       psMetadata mergeRevertExpiry newTaskIdentifier clocks context creds options release d).
Proof.
  revert d. induction clocks as [|clock clocks IH]; intros d; [done|].
  apply returns_after. intros [|]; [apply tasks_refl|].
  eapply keepsView_bind; [apply tick_notBehind|]. intros [d'|d'] Hd; [done|].
  eapply keepsView_weaken; [|apply IH]. intros [d2|] H2; [by eapply tasks_trans|done].
Qed.
End Forward.

(** ** The verdict over all operations *)

(** The verdict is the one of the siblings as they were read at a moment of [tr],
    the operation among them. *)
Definition projectedAt (apply : Apply) (operationID : Z) (tasks : list TaskRec) (st : string) (u : plane) : Prop :=
  exists released, (exists o, o ∈ ListByApply (a_ID apply) (pl_db u) /\ op_ID o = operationID) /\
    aggregateOf (ListByApply (a_ID apply) (pl_db u)) operationID (DeriveApplyState (tk_State <$> tasks)) released = Some st.

Lemma failClosed_open currentOpState st : failClosed currentOpState = Some st -> IsTerminalApplyState st = false.
Proof. unfold failClosed. destruct (IsTerminalApplyState currentOpState) eqn:E; [done|]. by intros [= <-]. Qed.

Lemma aggregateOf_terminal apply operationID tasks released st u :
  aggregateOf (ListByApply (a_ID apply) (pl_db u)) operationID (DeriveApplyState (tk_State <$> tasks)) released = Some st ->
  IsTerminalApplyState st = true -> projectedAt apply operationID tasks st u.
Proof.
  intros H Ht. exists released. split; [|done]. unfold aggregateOf in H.
  destruct (existsb _ _) eqn:Ex; cbn [negb] in H.
  - apply existsb_elem in Ex as (o & Ho & Eo). exists o. split; [done|]. by apply Z.eqb_eq.
  - apply failClosed_open in H. congruence.
Qed.

(** What the classification of the tasks says of them. *)
Lemma classifyFrom_none tasks : forall sawNil seen id,
  classifyFrom sawNil seen tasks = Ok (id, false) -> seen = None /\ forall t, t ∈ tasks -> default 0 (tk_ApplyOperationID t) = 0.
Proof.
  induction tasks as [|t tasks IH]; intros sawNil seen id; cbn [classifyFrom].
  - destruct seen; [by destruct sawNil|]. intros _. split; [done|]. by intros t ?%not_elem_of_nil.
  - intros Hc. assert (default 0 (tk_ApplyOperationID t) = 0 /\ classifyFrom true seen tasks = Ok (id, false)) as [Ht Hr].
    { destruct (tk_ApplyOperationID t) as [[|x|x]|], seen as [other|]; try done;
        try (destruct (negb _); [done|]); by apply IH in Hc as [? _]. }
    apply IH in Hr as [-> Hr]. split; [done|]. by intros u [->|Hu]%elem_of_cons; [|apply Hr].
Qed.

Lemma classifyFrom_one tasks : forall sawNil seen id,
  classifyFrom sawNil seen tasks = Ok (id, true) ->
  sawNil = false /\ (forall x, seen = Some x -> x = id) /\ forall t, t ∈ tasks -> tk_ApplyOperationID t = Some id.
Proof.
  induction tasks as [|t tasks IH]; intros sawNil seen id; cbn [classifyFrom].
  - destruct seen; [|done]. destruct sawNil; [done|]. intros [= <-]. split_and!; [done|by intros x [= <-]|]. by intros t ?%not_elem_of_nil.
  - intros Hc. assert (exists x, tk_ApplyOperationID t = Some x /\ (forall y, seen = Some y -> y = x) /\
        classifyFrom sawNil (Some x) tasks = Ok (id, true)) as (x & Ht & Hseen & Hr).
    { destruct (tk_ApplyOperationID t) as [[|x|x]|]; try (by apply IH in Hc as [? _]); eexists; (split; [reflexivity|]);
        (destruct seen as [other|]; [destruct (negb _) eqn:Eo; [done|]; apply negb_false_iff, Z.eqb_eq in Eo as ->|]);
        split; try done; by intros y [= <-]. }
    apply IH in Hr as (-> & Hx & Hr). specialize (Hx x eq_refl) as <-. split_and!; [done|done|].
    by intros u [->|Hu]%elem_of_cons; [|apply Hr].
Qed.

Lemma classify_none tasks id :
  classifyOperationTasks tasks = Ok (id, false) -> forall t, t ∈ tasks -> default 0 (tk_ApplyOperationID t) = 0.
Proof. by intros [_ H]%classifyFrom_none. Qed.

Lemma classify_one tasks id :
  classifyOperationTasks tasks = Ok (id, true) -> forall t, t ∈ tasks -> tk_ApplyOperationID t = Some id.
Proof. by intros (_ & _ & H)%classifyFrom_one. Qed.

Lemma aggregate_observes apply tasks operationID :
  classifyOperationTasks tasks = Ok (operationID, true) ->
  observes (deriveAggregateApplyState apply tasks)
    (fun tr r => forall st, r = Some st -> IsTerminalApplyState st = true ->
       exists u, u ∈ tr /\ projectedAt apply operationID tasks st u).
Proof.
  intros Hc. unfold deriveAggregateApplyState. rewrite Hc. cbv zeta.
  assert (forall (tr : list plane) st, failClosed (DeriveApplyState (tk_State <$> tasks)) = Some st -> IsTerminalApplyState st = true ->
            exists u, u ∈ tr /\ projectedAt apply operationID tasks st u) as Hclosed.
  { intros tr st H%failClosed_open Ht. congruence. }
  apply observes_exec; [intros; apply observes_ret, Hclosed|]. intros u. cbn [snd read focus pbind].
  assert (forall (tr : list plane) released st,
            aggregateOf (ListByApply (a_ID apply) (pl_db u)) operationID (DeriveApplyState (tk_State <$> tasks)) released = Some st ->
            IsTerminalApplyState st = true -> exists v, v ∈ u :: tr /\ projectedAt apply operationID tasks st v) as Hverdict.
  { intros tr released st H Ht. exists u. split; [by left|]. by eapply aggregateOf_terminal. }
  destruct (ListByApply (a_ID apply) (pl_db u)) as [|o ops] eqn:El; [apply observes_ret, Hclosed|]. rewrite <- El in *.
  destruct (AnyPauseOnFailure _); [|apply observes_ret, Hverdict].
  apply observes_exec; [intros; apply observes_ret, Hclosed|]. intros v. cbn [snd read focus pbind].
  apply observes_ret, Hverdict.
Qed.

(** What a completed projection says of each child. *)
Lemma rollout_completed children :
  DeriveRolloutApplyState children = Apply.Completed ->
  forall c, c ∈ children -> normalizeApplyState (rc_State c) = Apply.Completed.
Proof.
  rewrite DeriveRolloutApplyState_table. destruct (negb _).
  - intros H c Hc. destruct (derive_completed_iff (rc_State <$> children) _ (reflexivity _)) as [_ [Hall _]].
    apply Hall; [done|]. by apply list_elem_of_fmap_2.
  - intros H. exfalso. revert H. break.
Qed.

(** ** A terminal verdict stays *)

(** The row of the apply is [v]. *)
Definition hasRow (v : Apply) (w : plane) : Prop := findApply (a_ID v) (pl_db w) = Some v.

Lemma preserves_onStore {R} (I : store -> Prop) (p : prog store R) :
  preserves I p -> preserves (fun w => I (pl_db w)) (onStore p).
Proof.
  induction p as [r | A stmt k IH]; cbn; [done|]. intros [Hs Hk]. split; [|auto].
  intros w Hw. specialize (Hs _ Hw). by destruct (stmt (pl_db w)).
Qed.

(** A store operation that writes no apply. *)
Lemma hasRow_applies v {R} (p : prog store R) :
  (forall l, preserves (fun s => applies s = l) p) -> preserves (hasRow v) (onStore p).
Proof.
  intros Hp. apply (preserves_onStore (fun s => findApply (a_ID v) s = Some v)).
  induction p as [r | A stmt k IH]; cbn; [done|]. split; [|intros a; apply IH; intros l; apply (Hp l)].
  intros s Hs. destruct (Hp (applies s)) as [Hl _]. specialize (Hl s eq_refl). unfold findApply in *. by rewrite Hl.
Qed.

Lemma findApply_other id p f s v :
  (forall x, a_ID (f x) = a_ID x) -> findApply id s = Some v -> p v = false -> findApply id (updateApplies p f s) = Some v.
Proof.
  intros Hf. unfold findApply, updateApplies. cbn. induction (applies s) as [|x l IH]; [done|]. cbn.
  destruct (a_ID x =? id) eqn:E.
  - intros [= ->] ->. by rewrite E.
  - destruct (p x); [rewrite Hf|]; rewrite E; apply IH.
Qed.

Section Verdict.
Context (foundRows : bool) (ctx : leaseCtx) (v : Apply) (Hv : IsTerminalApplyState (a_State v) = true).

Lemma row_read {A} (f : store -> A) : preserves (hasRow v) (readStore f).
Proof. split; [|done]. intros w Hw. by destruct w. Qed.

Lemma row_stateUpdate id set : preserves (hasRow v) (onStore (execStateUpdate foundRows ctx id set)).
Proof.
  apply hasRow_applies. intros l. unfold execStateUpdate, guardedUpdate.
  destruct (operationWriteGuardFromContext ctx) as [g|e]; [|done]. split; [done|]. intros [rows|e]; [|done].
  unfold checkUpdatedOrExists. destruct (0 <? rows); [done|]. destruct g; repeat (split; [done|]; intros [[]|]; try done). by destruct b.
Qed.

Lemma row_complete apply operation : preserves (hasRow v) (completePendingControlRequests foundRows ctx apply operation).
Proof.
  apply preserves_bind.
  - unfold ensureApplyLeaseForControlRequest. destruct (ApplyLeaseFromContext ctx) as [l|]; [|done].
    repeat case_match; try done. apply preserves_bind; [apply row_read|]. by intros [[]|].
  - intros [u|e]; [|done]. apply hasRow_applies. intros l. unfold CompletePending, settlePending.
    destruct (applyLeaseFromContext ctx _) as [lease|e]; [|done]. split; [done|]. intros [rows|e]; [|done].
    destruct lease as [le|]; [|done]. apply preserves_bind; [|by intros []].
    unfold confirmLeaseOnZeroRows. destruct (rows =? 0); [|done]. by split.
Qed.

Lemma row_completeAll apply operations : preserves (hasRow v) (completeAll foundRows ctx apply operations).
Proof.
  induction operations as [|o ops IH]; cbn [completeAll]; [done|]. apply preserves_bind; [apply row_complete|].
  intros [u|e]; [exact IH|done].
Qed.

Lemma row_derived id expected st message started completed :
  IsTerminalApplyState expected = false ->
  preserves (hasRow v) (onStore (UpdateDerivedState foundRows ctx id expected st message started completed)).
Proof.
  intros He. apply (preserves_onStore (fun s => findApply (a_ID v) s = Some v)). unfold UpdateDerivedState.
  destruct (derivedStateGuardForContext ctx id) as [g|e]; [|done]. split.
  - intros s Hs. cbn. apply findApply_other; [done|done|]. destruct (a_State v == expected) eqn:Ev; [|by rewrite andb_false_r].
    reflect_guards. congruence.
  - intros [rows|e]; [|done]. destruct (0 <? rows); [done|]. split; [by intros s Hs|]. intros [[|]|e]; [|done..].
    destruct (negb _); [done|]. by split.
Qed.

Lemma row_aggregate apply tasks : preserves (hasRow v) (deriveAggregateApplyState apply tasks).
Proof.
  unfold deriveAggregateApplyState. destruct (classifyOperationTasks tasks) as [[id [|]]|e]; [|done..].
  apply preserves_bind; [apply row_read|]. intros [[|o ops]|e]; [done| |done].
  destruct (AnyPauseOnFailure _); [|done]. apply preserves_bind; [apply row_read|]. by intros [].
Qed.

Lemma row_settle clockNow release p st d : preserves (hasRow v) (settleTick foundRows ctx clockNow release p st d).
Proof.
  unfold settleTick. destruct (suppressParentApplyWrites ctx).
  - unfold settleOperation. destruct (gd_Tasks d); [|done]. cbv zeta. destruct (_ || _); [|done].
    apply preserves_bind; [|by intros []]. unfold markTasklessOperationState, applyOperationIDForApplyTasks.
    apply preserves_bind. { apply preserves_bind; [apply row_read|]. by intros []. }
    intros [id|e]; [|done]. repeat case_match; try done; apply row_stateUpdate.
  - apply preserves_bind.
    { unfold projectedApply. apply preserves_bind; [destruct (gd_Tasks d); [done|apply row_aggregate]|done]. }
    intros d1. apply preserves_bind; [apply row_read|]. intros [[stored|]|e]; [|done..].
    destruct (IsTerminalApplyState (a_State stored)) eqn:Es.
    { apply preserves_bind; [apply row_completeAll|done]. }
    unfold settleProgress, writeDerived. destruct (applyQuiesceDecision _) as [[[|] rp] stamp].
    + apply preserves_bind; [by apply row_derived|]. intros r. destruct (bool_decide _); [done|].
      apply preserves_bind; [apply row_completeAll|done].
    + apply preserves_bind; [by apply row_derived|]. intros r. by destruct (bool_decide _).
Qed.
End Verdict.

(** ** Properties *)

(** C7: the poll of a grouped drive moves none of its tasks backward.  Whatever the
    engine reports from tick to tick (late, repeated or out of order), whatever else
    happens between the statements and whichever of them fail, every task that the poll
    was started with is, in the copies that it returns, at least as far as it was, and
    one that was terminal is in the same state.  The tasks are given with states that the
    loaders return, and the engine's state names are told apart.  The order is pending, running or waiting
    for deploy, checksumming, waiting for cutover or recovering, cutting over, revert
    window, reverting, then stopped or paused for retry, then terminal.  The theorem is
    about the copies of the poll: a resume puts stopped and waiting tasks back to running
    before it polls, and the writes of the poll overwrite what others stored
    meanwhile. *)
Theorem drive_never_regresses (E : EngineNames) (HE : engineNamesDisjoint E) (foundRows hasOptions : bool) (ctx : leaseCtx)
    (cfg : clientConfig) (errText : StoreErr -> string) (unmarshalVolume parseDuration : string -> option Z)
    (revertWindowMetadata : string) (psMetadata : string -> option psMeta)
    (mergeRevertExpiry : string -> Z -> res string) (newTaskIdentifier : TaskRec -> string -> string)
    (clocks : list Z) (context : Z) (creds : string) (options : gmap string string) (release : bool)
    (d d' : groupedDrive) env w w' n
    (Hcanon : Forall (fun t => tk_State t ∈ taskStates_all) (gd_Tasks d))
    (Hrun : runE env 0 (pollForCompletionAtomic E foundRows hasOptions ctx cfg errText unmarshalVolume parseDuration
              revertWindowMetadata psMetadata mergeRevertExpiry newTaskIdentifier clocks context creds options release d) w
            = (w', Some d', n)) :
  Forall2 (fun t t' => taskLevel (tk_State t) <= taskLevel (tk_State t') /\
             (IsTerminalTaskState (tk_State t) = true -> tk_State t' = tk_State t)) (gd_Tasks d) (gd_Tasks d').
Proof.
  pose proof (returns_run _ _ env 0 w w' _ n (poll_notBehind E HE foundRows hasOptions ctx cfg errText unmarshalVolume
    parseDuration revertWindowMetadata psMetadata mergeRevertExpiry newTaskIdentifier clocks context creds options release d)
    Hrun) as H. cbn in H. clear Hrun. revert Hcanon H. generalize (gd_Tasks d), (gd_Tasks d'). intros ts ts' Hcanon H.
  induction H as [|t t' ts ts' Ht Hts IH]; [constructor|]. apply Forall_cons in Hcanon as [Hc Hcs].
  constructor; [|by apply IH]. by destruct (Ht Hc) as (_ & ? & ?).
Qed.

(** An apply of two tables: the engine is late by one tick and then completes. *)
Definition sampleMeta (metadata : string) : option psMeta :=
  if metadata == "deployed" then Some {| pm_IsInstant := false; pm_DeployedAt := Some 40 |} else None.

Definition samplePoll (databaseType : string) (clocks : list Z) (options : gmap string string) (d : groupedDrive)
    : prog plane (option groupedDrive) :=
  pollForCompletionAtomic documentedNames true false noLease (exampleClient databaseType) sampleErrText sampleUnmarshal
    (fun _ => None) "" sampleMeta (fun m _ => Ok m) (fun t shard => tk_TaskIdentifier t ++ shard) clocks 9 "dsn" options false d.

(** The engine goes from [st] to completed at the [k]-th statement. *)
Definition completesAt (k : nat) (st : string) (n : nat) : envStep plane :=
  {| interfere := fun u => {| pl_db := pl_db u; pl_engine := reportingEngine (if (n <? k)%nat then st else Engine.StateCompleted);
                              pl_calls := pl_calls u; pl_cancels := pl_cancels u; pl_remote := pl_remote u; pl_sent := pl_sent u |}; fault := None |}.

Lemma documentedNames_disjoint : engineNamesDisjoint documentedNames.
Proof. split; [done|]. repeat constructor; intros H%oneOf_elem; discriminate H. Qed.

Lemma drive_never_regresses_witness :
  let ts := [exampleTask 7 "task_7" "t" "" Task.WaitingForCutover; exampleTask 8 "task_8" "u" "" Task.Completed] in
  let d := startPoll (exampleApply Apply.WaitingForCutover) ts None in
  let w := examplePlane (withTasks ts (exampleStore (exampleApply Apply.WaitingForCutover) [] [])) (reportingEngine Engine.StateRunning) in
  let p := samplePoll DatabaseTypeMySQL [50; 60] {[ "defer_cutover" := "true" ]} d in
  exists d', (runE (completesAt 15 Engine.StateRunning) 0 p w).1.2 = Some d' /\
    tk_State <$> gd_Tasks d' = [Task.Completed; Task.Completed] /\
    Forall2 (fun t t' => taskLevel (tk_State t) <= taskLevel (tk_State t') /\
               (IsTerminalTaskState (tk_State t) = true -> tk_State t' = tk_State t)) ts (gd_Tasks d').
Proof.
  intros ts d w p. destruct (runE (completesAt 15 Engine.StateRunning) 0 p w) as [[w' [d'|]] n] eqn:Hrun;
    [|vm_compute in Hrun; discriminate Hrun].
  exists d'. split; [done|]. split.
  - assert (Hs : (fun r => match r with Some x => tk_State <$> gd_Tasks x | None => [] end)
             (runE (completesAt 15 Engine.StateRunning) 0 p w).1.2 = [Task.Completed; Task.Completed]) by (vm_compute; reflexivity).
    by rewrite Hrun in Hs.
  - refine (drive_never_regresses documentedNames documentedNames_disjoint true false noLease _ _ _ _ _ _ _ _ _ _ _ _ _ d d'
              _ w w' n _ Hrun).
    repeat constructor; apply oneOf_elem; reflexivity.
Defined.

(** C8: an apply is not settled on incomplete knowledge.  When the verdict a grouped
    drive derives for the whole apply is terminal, its tasks all belong to one
    operation or none of them belongs to any.  In the first case there was a moment at
    which the drive read all operations of the apply, its own among them, and the
    verdict is the rollout projection of their states with the state of its own tasks
    in place of its own row; if the verdict is completed, its tasks were all completed
    and so was every other operation at that moment; so a failed or empty read, or a
    list without the own operation, never settles the apply.  Tasks of the old model,
    which carry no operation, have no siblings: the verdict is derived from them alone,
    without a read. *)
Theorem aggregate_never_premature (apply : Apply) (tasks : list TaskRec) (st : string) env w w' n
    (Hrun : runE env 0 (deriveAggregateApplyState apply tasks) w = (w', Some st, n))
    (Hterminal : IsTerminalApplyState st = true) :
  ((forall t, t ∈ tasks -> default 0 (tk_ApplyOperationID t) = 0) /\ st = DeriveApplyState (tk_State <$> tasks)) \/
  exists operationID u, (forall t, t ∈ tasks -> tk_ApplyOperationID t = Some operationID) /\
    u ∈ trace env 0 (deriveAggregateApplyState apply tasks) w /\ projectedAt apply operationID tasks st u /\
    (st = Apply.Completed ->
       (forall t, t ∈ tasks -> normalizeApplyState (tk_State t) = Apply.Completed) /\
       forall o, o ∈ ListByApply (a_ID apply) (pl_db u) -> op_ID o <> operationID ->
         normalizeApplyState (op_State o) = Apply.Completed).
Proof.
  destruct (classifyOperationTasks tasks) as [[operationID []]|e] eqn:Hc.
  2:{ left. unfold deriveAggregateApplyState in Hrun. rewrite Hc in Hrun. injection Hrun as _ <- _. split; [|done].
      by eapply classify_none. }
  2:{ unfold deriveAggregateApplyState in Hrun. rewrite Hc in Hrun. cbn in Hrun.
      injection Hrun as _ Hst _. apply failClosed_open in Hst. congruence. }
  right. destruct (aggregate_observes apply tasks operationID Hc env 0%nat w w' (Some st) n Hrun st eq_refl Hterminal)
    as (u & Hu & Hp). exists operationID, u. split; [by eapply classify_one|]. split; [done|]. split; [done|]. intros ->.
  destruct Hp as (released & (o & Ho & Eo) & Hag). unfold aggregateOf in Hag.
  destruct (negb _); [by apply failClosed_open in Hag|]. injection Hag as Hag.
  pose proof (rollout_completed _ Hag) as Hall. split.
  - assert (normalizeApplyState (DeriveApplyState (tk_State <$> tasks)) = Apply.Completed) as Hn.
    { specialize (Hall _ (list_elem_of_fmap_2 _ _ _ Ho)). cbn in Hall. by rewrite Eo, Z.eqb_refl in Hall. }
    assert (DeriveApplyState (tk_State <$> tasks) = Apply.Completed) as Hd.
    { pose proof (DeriveApplyState_range (tk_State <$> tasks)) as Hr. revert Hr Hn.
      generalize (DeriveApplyState (tk_State <$> tasks)). unfold aggregateRange. intros v Hr Hv. elem_cases Hr; done. }
    intros t Ht. destruct (derive_completed_iff (tk_State <$> tasks) _ (reflexivity _)) as [_ [Hts _]].
    apply Hts; [done|]. by apply list_elem_of_fmap_2.
  - intros o' Ho' Hne. specialize (Hall _ (list_elem_of_fmap_2 _ _ _ Ho')). cbn in Hall.
    apply Z.eqb_neq in Hne. by rewrite Hne in Hall.
Qed.

(** The last operation of two completes. *)
Lemma aggregate_never_premature_witness :
  let op id st := exampleOp id "us" st CutoverPolicyRolling OnFailureHalt in
  let ts := [exampleTask 7 "task_7" "t" "" Task.Completed] in
  let w := examplePlane (exampleStore (exampleApply Apply.Running) [op 1 Apply.Running; op 2 Apply.Completed] [])
             (reportingEngine Engine.StateCompleted) in
  let p := deriveAggregateApplyState (exampleApply Apply.Running) ts in
  (run p w).2 = Some Apply.Completed /\
  exists u, u ∈ trace (fun _ => quiet) 0 p w /\
    forall o, o ∈ ListByApply 1 (pl_db u) -> op_ID o <> 1 -> normalizeApplyState (op_State o) = Apply.Completed.
Proof.
  intros op ts w p. split; [vm_compute; reflexivity|].
  destruct (aggregate_never_premature (exampleApply Apply.Running) ts Apply.Completed (fun _ => quiet) w (run p w).1 1)
    as [[H _]|(operationID & u & Hone & Hu & _ & Hcomp)]; [vm_compute; reflexivity..| |].
  - by specialize (H _ (list_elem_of_here _ _)).
  - exists u. split; [done|]. specialize (Hone _ (list_elem_of_here _ _)) as [= <-]. by apply Hcomp.
Defined.

(** C9: late progress never overwrites a verdict.  Settling a tick of a grouped drive
    changes the row of an apply only while it is not terminal: whatever other drives
    and control requests do between its statements, no statement of it changes a row
    that is terminal at that moment, whichever verdict the drive itself derived. *)
Theorem settle_keeps_verdict (foundRows : bool) (ctx : leaseCtx) (clockNow : Z) (release : bool) (p : EngineProgress)
    (newState : string) (d : groupedDrive) (verdict : Apply) (Hv : IsTerminalApplyState (a_State verdict) = true) :
  preserves (hasRow verdict) (settleTick foundRows ctx clockNow release p newState d).
Proof. by apply row_settle. Qed.

(** The apply was cancelled while the drive saw its tasks complete. *)
Lemma settle_keeps_verdict_witness :
  let verdict := exampleApply Apply.Cancelled in
  let ts := [exampleTask 7 "task_7" "t" "" Task.Completed] in
  let d := startPoll (exampleApply Apply.Running) ts None in
  let progress := {| ep_Result := {| pr_State := Engine.StateCompleted; Retryable := false; pr_ErrorMessage := "";
                                     pr_Message := "" |}; ep_Tables := []; ep_ResumeState := None |} in
  let w := examplePlane (exampleStore verdict [] []) (reportingEngine Engine.StateCompleted) in
  hasRow verdict w /\ preserves (hasRow verdict) (settleTick true noLease 50 false progress Task.Completed d) /\
  applies (pl_db (run (settleTick true noLease 50 false progress Task.Completed d) w).1) = [verdict].
Proof.
  intros verdict ts d progress w. split; [reflexivity|]. split; [|vm_compute; reflexivity].
  exact (settle_keeps_verdict true noLease 50 false progress Task.Completed d verdict eq_refl).
Defined.
