(* ===== verification/Resume.v ===== *)
(** * Starting and resuming an apply (tern/local_control_resume.go, local_client.go)

    An operator that claims an apply or an operation hands it to [ResumeApply],
    [ResumeApplyOperation] or [ResumeApplyOperationCutover].  A queued apply is
    dispatched; otherwise the drive plans again against the live schema, completes
    the tasks whose tables no longer differ, refuses changes nobody reviewed, and
    hands the rest to the engine, grouped from its stored resume state or one task
    after the other.  [driveGroupFinalizer] applies the VSchema behind sharded work,
    and [Start] queues a user's request to resume.

    [planRow] is the plan table of the store, which other files do not model.
    [clocks] and [fuel] are the ticks grouped and sequential drives are followed for.
    Draining the engine only waits.  The drive of a start request is modelled as the
    operator runs it, blocking. *)

From S2P Require Import Prelude GoStrings State Convert Sql Store Operations Applies Control Projection Drift Fencing Tasks Plane Fanout Stopping LocalControl Sequential Conflict Grouped.

Local Open Scope string_scope.
Local Open Scope Z_scope.

(** What a drive reports to the operator. *)
Inductive driveErr :=
| driveFailed (message : string) (permanent : bool)
| driveStore (e : StoreErr)
| resumeStateUnavailable (message : string)
| outsideScope
| operationRowMissing
| foreignOperation
| noTasksForOperation
| tasksNotLoaded
| contextDone.
#[global] Instance driveErr_eq_dec : EqDecision driveErr.
Proof. solve_decision. Defined.

(** The drive is still polling, or it returned. *)
Inductive resumeEnd := resumePolling | resumeReturned (err : option driveErr).
#[global] Instance resumeEnd_eq_dec : EqDecision resumeEnd.
Proof. solve_decision. Defined.

Definition fails (e : driveErr) : prog plane resumeEnd := Ret (resumeReturned (Some e)).
Definition succeeds : prog plane resumeEnd := Ret (resumeReturned None).

(** A storage call whose error ends the drive. *)
Definition orReturn {A} (p : prog plane (res A)) (k : A -> prog plane resumeEnd) : prog plane resumeEnd :=
  let! r := p in match r with Err e => fails (driveStore e) | Ok a => k a end.

(** ** Revert phases *)

Definition taskInRevertPhase (task : TaskRec) : bool := IsState (tk_State task) [Task.RevertWindow; Task.Reverting].
Definition applyInRevertPhase (apply : Apply) : bool :=
  IsState (a_State apply) [Apply.RevertWindow; Apply.Reverting; Apply.SkippingRevert].

Definition shouldInspectDeferredCutoverSignal (apply : Apply) : bool :=
  ao_DeferCutover (a_Options apply) && IsState (a_State apply) [Apply.WaitingForCutover; Apply.Recovering].

Definition shouldInspectCutoverSignalForResume (apply : Apply) (forceCutoverResume : bool) : bool :=
  shouldInspectDeferredCutoverSignal apply ||
  (forceCutoverResume && IsState (a_State apply) [Apply.WaitingForCutover; Apply.Recovering]).

(** ** Planning again *)

(** [shardTableKey] *)
Abbreviation shardTableKey := (string * string * string)%type.
Definition taskKey (task : TaskRec) : shardTableKey := (tk_Namespace task, tk_Shard task, tk_TableName task).

Definition replanShardTableDDL (changes : list EngineChange) : gmap shardTableKey string :=
  fold_left (fun out sc =>
    fold_left (fun out tc => <[(ec_Namespace sc, ec_Shard sc, et_Table tc) := et_DDL tc]> out) (ec_Tables sc) out) changes ∅.

(** [finalizerOperationKeySuffix] *)
Definition finalizerOperationKeySuffix := "/group_finalizer".

Definition namespaceFromFinalizerKey (operationKey : string) : string :=
  if HasSuffix operationKey finalizerOperationKeySuffix then TrimSuffix operationKey finalizerOperationKeySuffix else "".

Definition finalizerVSchemaChanges (plan : Plan) (namespace : string) : res (list EngineChange) :=
  if namespace != "" then
    match pn_Namespaces plan !! namespace with
    | Some nsData => if namespaceHasVSchemaArtifact nsData then Ok [flagVSchema (newChange namespace)]
                     else Err (Errorf "plan has no VSchema artifact for the namespace")
    | None => Err (Errorf "plan has no VSchema artifact for the namespace")
    end
  else
    match vschemaNamespaces plan with
    | [] => Err (Errorf "plan has no VSchema artifact for a deployment-scoped finalizer")
    | namespaces => Ok ((fun ns => flagVSchema (newChange ns)) <$> namespaces)
    end.

Definition finalizerVSchemaApplied (st : string) : bool := oneOf st [Engine.StateCompleted; Engine.StateRevertWindow].

(** [localStartControlRequestMetadata], marshalled; zero counts are omitted. *)
Definition startMetadata (startedCount skippedCount : Z) : string :=
  let field name n := if n =? 0 then [] else [dquote ++ name ++ dquote ++ ":" ++ Itoa n] in
  "{" ++ joinWith "," (field "started_count" startedCount ++ field "skipped_count" skippedCount)%list ++ "}".

Record StartResponse := { sp_Accepted : bool; sp_StartedCount : Z; sp_SkippedCount : Z }.

(** The task with other DDL. *)
Definition set_tk_DDL (v : string) (r : TaskRec) : TaskRec :=
  {| tk_ID := tk_ID r; tk_TaskIdentifier := tk_TaskIdentifier r; tk_ApplyID := tk_ApplyID r;
     tk_ApplyOperationID := tk_ApplyOperationID r; tk_PlanID := tk_PlanID r;
     tk_Database := tk_Database r; tk_DatabaseType := tk_DatabaseType r;
     tk_Namespace := tk_Namespace r; tk_TableName := tk_TableName r; tk_Shard := tk_Shard r;
     tk_DDL := v; tk_DDLAction := tk_DDLAction r; tk_Engine := tk_Engine r;
     tk_Repository := tk_Repository r; tk_PullRequest := tk_PullRequest r;
     tk_Environment := tk_Environment r; tk_State := tk_State r;
     tk_ErrorMessage := tk_ErrorMessage r; tk_Options := tk_Options r;
     tk_Attempt := tk_Attempt r; tk_Progress := tk_Progress r;
     tk_CutoverAttempts := tk_CutoverAttempts r; tk_IsInstant := tk_IsInstant r;
     tk_ReadyToComplete := tk_ReadyToComplete r; tk_EngineMigrationID := tk_EngineMigrationID r;
     tk_StartedAt := tk_StartedAt r; tk_CompletedAt := tk_CompletedAt r;
     tk_CreatedAt := tk_CreatedAt r; tk_UpdatedAt := tk_UpdatedAt r |}.

(** The age of a stopped task that can still be started. *)
Definition maxAge : Z := 7 * day.

Section Resume.
Context {ST : Type} `{!StatementTypes ST}.
Context (Classify : string -> option (list ST)) (IsDDL : ST -> bool).
Context (New : string -> option (list Statement)) (Restore : string -> option string) (driftText : DriftErr -> string).
Context (E : EngineNames) (foundRows hasOptions : bool) (clockNow : Z) (ctx : leaseCtx) (cfg : clientConfig).
Context (errText : StoreErr -> string) (unmarshalVolume parseDuration : string -> option Z) (revertWindowMetadata : string).
Context (psMetadata : string -> option psMeta) (mergeRevertExpiry : string -> Z -> res string).
Context (newTaskIdentifier : TaskRec -> string -> string) (planRow : store -> Z -> option Plan).

Abbreviation transition := (transitionTaskState foundRows clockNow ctx).
Abbreviation completePending := (completePendingControlRequests foundRows ctx).
Abbreviation failPending := (failPendingControlRequests foundRows ctx).
Abbreviation update := (updateApply hasOptions ctx).
Abbreviation serveStop := (processPendingCancelOrStopControlRequest E foundRows hasOptions clockNow ctx cfg).
Abbreviation pollAtomic := (pollForCompletionAtomic E foundRows hasOptions ctx cfg errText unmarshalVolume parseDuration
  revertWindowMetadata psMetadata mergeRevertExpiry newTaskIdentifier).

Definition errMessage (e : driveErr) : string :=
  match e with
  | driveFailed message _ | resumeStateUnavailable message => message
  | driveStore e => errText e
  | outsideScope => "apply is outside this client's database scope"
  | operationRowMissing => "apply_operation row missing"
  | foreignOperation => "apply_operation belongs to another apply"
  | noTasksForOperation => "no tasks for apply_operation"
  | tasksNotLoaded => "apply tasks not loaded"
  | contextDone => "context canceled"
  end.

(** The error as shouldRetryEngineError sees it. *)
Definition asEngineErr (e : driveErr) : engineErr :=
  {| ee_Message := errMessage e; ee_Permanent := match e with driveFailed _ permanent => permanent | _ => false end |}.

(** ** Plans of the engine *)

Definition planNamespaceWithEngine (database : string) (schemaFiles : SchemaFiles) (creds : string)
    : prog plane (result driveErr (list EngineChange)) :=
  let! r := askEngine (fun v => ev_Plan v database schemaFiles creds) in
  Ret match r with Ok changes => Ok changes | Err e => Err (driveFailed (ee_Message e) (ee_Permanent e)) end.

Fixpoint planNamespaces (schemaFiles : SchemaFiles) (namespaces : list string)
    : prog plane (result driveErr (list EngineChange)) :=
  match namespaces with
  | [] => Ret (Ok [])
  | namespace :: rest =>
      match credentialsForMySQLNamespace cfg namespace with
      | Err e => Ret (Err (driveStore e))
      | Ok creds =>
          let! r := planNamespaceWithEngine namespace {[ namespace := default ∅ (schemaFiles !! namespace) ]} creds in
          match r with
          | Err e => Ret (Err e)
          | Ok changes =>
              let! more := planNamespaces schemaFiles rest in
              Ret match more with Ok cs => Ok (changes ++ cs)%list | Err e => Err e end
          end
      end
  end.

Definition planMySQLNamespacesWithEngine (schemaFiles : SchemaFiles) : prog plane (result driveErr (list EngineChange)) :=
  planNamespaces schemaFiles (sortedKeys schemaFiles).

Definition planWithEngine (database : string) (schemaFiles : SchemaFiles) : prog plane (result driveErr (list EngineChange)) :=
  if negb (lc_HasEngine cfg) then Ret (Err (driveFailed "no engine configured" false)) else
  if lc_Type cfg != DatabaseTypeMySQL then planNamespaceWithEngine database schemaFiles (lc_TargetDSN cfg) else
  match mysqlDSNHasDatabase cfg (lc_TargetDSN cfg) with
  | Err e => Ret (Err (driveStore e))
  | Ok true => planNamespaceWithEngine database schemaFiles (lc_TargetDSN cfg)
  | Ok false =>
      match map_to_list schemaFiles with
      | [] => Ret (Err (driveFailed "schema files are required for namespace-free MySQL target DSN" false))
      | [(namespace, _)] =>
          match credentialsForMySQLNamespace cfg namespace with
          | Err e => Ret (Err (driveStore e))
          | Ok creds => planNamespaceWithEngine namespace schemaFiles creds
          end
      | _ => planMySQLNamespacesWithEngine schemaFiles
      end
  end.

(** [verifyReplannedTaskDDL] of the drift model, for a task. *)
Definition verifyTask (task : TaskRec) (replannedDDL : string) : option DriftErr :=
  verifyReplannedTaskDDL Classify IsDDL New Restore (tk_Namespace task) (tk_Shard task) (tk_TableName task) (tk_DDLAction task)
    (tk_DDL task) replannedDDL.

(** The DDL the table of the task still needs, if any. *)
Definition tableStillNeedsChange (apply : Apply) (plan : Plan) (task : TaskRec) : prog plane (result driveErr (option string)) :=
  let! r := planWithEngine (a_Database apply) (pn_SchemaFiles plan) in
  Ret match r with Err e => Err e | Ok changes => Ok (replanShardTableDDL changes !! taskKey task) end.

Definition completedTask (task : TaskRec) : TaskRec :=
  set_tk_CompletedAt (Some clockNow) (set_tk_Progress (set_tp_ProgressPercent 100 (tk_Progress task)) task).

(** All tasks as they are afterwards, each with whether it is active. *)
Fixpoint filterTasks (replanDDL : gmap shardTableKey string) (tasks : list TaskRec)
    : prog plane (list (TaskRec * bool) * option driveErr) :=
  match tasks with
  | [] => Ret ([], None)
  | task :: rest =>
      let next entry := let! (others, err) := filterTasks replanDDL rest in Ret (entry :: others, err) in
      if tk_State task == Task.Completed then next (task, false)
      else if IsState (tk_State task) [Task.Reverted] then next (task, false)
      else if taskInRevertPhase task then next (task, true)
      else
        match replanDDL !! taskKey task with
        | None => let! task := transition (completedTask task) Task.Completed in next (task, false)
        | Some ddl =>
            match verifyTask task ddl with
            | Some e => Ret ((fun t => (t, true)) <$> tasks, Some (driveFailed (driftText e) false))
            | None => next (set_tk_DDL ddl task, true)
            end
        end
  end.

Definition replanAndFilterTasks (apply : Apply) (tasks : list TaskRec) (plan : Plan)
    : prog plane (list (TaskRec * bool) * option driveErr) :=
  let! r := planWithEngine (a_Database apply) (pn_SchemaFiles plan) in
  match r with
  | Err e => Ret ((fun t => (t, true)) <$> tasks, Some e)
  | Ok changes => filterTasks (replanShardTableDDL changes) tasks
  end.

Definition activeTasks (all : list (TaskRec * bool)) : list TaskRec := (List.filter snd all).*1.

(** The tasks once the active ones have changed. *)
Fixpoint mergeActive (all : list (TaskRec * bool)) (active : list TaskRec) : list TaskRec :=
  match all, active with
  | [], _ => []
  | (_, true) :: rest, t :: active => t :: mergeActive rest active
  | (t, _) :: rest, active => t :: mergeActive rest active
  end.

(** ** Tasks that are queued again *)

Definition requeueRetryable (task : TaskRec) : prog plane TaskRec :=
  if negb (IsState (tk_State task) [Task.FailedRetryable]) then Ret task else
  transition (set_tk_CompletedAt None (set_tk_ErrorMessage (Some "") (set_tk_Attempt (tk_Attempt task + 1) task))) Task.Pending.

Definition prepareRetryableTasksForResume (apply : Apply) (tasks : list TaskRec) : prog plane (Apply * list TaskRec) :=
  if negb (IsState (a_State apply) [Apply.FailedRetryable]) then Ret (apply, tasks) else
  let! tasks := eachTask requeueRetryable tasks in Ret (set_a_ErrorMessage "" apply, tasks).

Definition requeueStopped (task : TaskRec) : prog plane TaskRec :=
  if negb (IsState (tk_State task) [Task.Stopped]) then Ret task else transition (set_tk_CompletedAt None task) Task.Pending.

Definition prepareStoppedTasksForResume (tasks : list TaskRec) (startRequested : bool) : prog plane (list TaskRec) :=
  if negb startRequested then Ret tasks else eachTask requeueStopped tasks.

(** The apply and the tasks afterwards, and the error of the write. *)
Definition markApplyRecovering (apply : Apply) (tasks : list TaskRec) : prog plane (Apply * list TaskRec * res unit) :=
  let! tasks := eachTask (fun task => if IsTerminalTaskState (tk_State task) then Ret task
                                      else transition task Task.Recovering) tasks in
  let apply := set_a_UpdatedAt clockNow (set_a_CompletedAt None (set_a_State Apply.Recovering apply)) in
  if suppressParentApplyWrites ctx then Ret (apply, tasks, Ok tt)
  else let! r := update apply in Ret (apply, tasks, r).

(** ** The grouped resume *)

Definition loadEngineResumeStateForOperation (operationID : Z) : prog plane (res ResumeState) :=
  try! stored := onStore (GetEngineResumeState operationID) in
  Ret (Ok {| rs_MigrationContext := MigrationContext stored; rs_Metadata := Metadata stored |}).

Definition groupedResumeState (apply : Apply) (tasks : list TaskRec) : prog plane (result driveErr ResumeState) :=
  let contextOnly := {| rs_MigrationContext := a_ApplyIdentifier apply; rs_Metadata := "" |} in
  let vitess := lc_Type cfg == DatabaseTypeVitess in
  let! operationID := applyOperationIDForApplyTasks apply tasks in
  match operationID with
  | Err e => Ret (if vitess then Err (resumeStateUnavailable (errText e)) else Ok contextOnly)
  | Ok operationID =>
      let! stored := loadEngineResumeStateForOperation operationID in
      Ret match stored with
          | Err ErrEngineResumeStateNotFound =>
              if vitess && applyInRevertPhase apply
              then Err (resumeStateUnavailable "no persisted engine resume state for revert-phase apply")
              else Ok contextOnly
          | Err e => Err (resumeStateUnavailable (errText e))
          | Ok rs => Ok (if rs_MigrationContext rs == ""
                         then {| rs_MigrationContext := a_ApplyIdentifier apply; rs_Metadata := rs_Metadata rs |} else rs)
          end
  end.

(** The apply and the tasks afterwards, and the error. *)
Definition persistReattachedResumeStates (apply : Apply) (tasks : list TaskRec) (startRequested : bool)
    : prog plane (Apply * list TaskRec * option StoreErr) :=
  let recovering := IsState (a_State apply) [Apply.Recovering] in
  let! tasks := eachTask (fun task => if taskInRevertPhase task then Ret task
                                      else transition task (if recovering then Task.Recovering else Task.Running)) tasks in
  let apply := set_a_UpdatedAt clockNow
    (if recovering then set_a_State Apply.Recovering apply
     else if applyInRevertPhase apply then apply else set_a_State Apply.Running apply) in
  if suppressParentApplyWrites ctx then Ret (apply, tasks, None) else
  let! written := update apply in
  match written with
  | Err e => Ret (apply, tasks, Some e)
  | Ok _ =>
      if startRequested then
        let! completed := completePending apply ControlOperationStart in
        Ret (apply, tasks, match completed with Err e => Some e | Ok _ => None end)
      else Ret (apply, tasks, None)
  end.

(** How a grouped resume ended: with an error and what its caller holds then, at its
    end, or still polling. *)
Inductive launchEnd := launchErr (e : driveErr) (apply : Apply) (tasks : list TaskRec) | launchDone | launchPolling.

(** Nothing is left to do: the apply ends as its tasks did. *)
Definition terminalizeResume (apply : Apply) (allTasks : list TaskRec) (startRequested : bool) : prog plane launchEnd :=
  let apply := set_a_UpdatedAt clockNow (set_a_CompletedAt (Some clockNow)
                 (set_a_State (DeriveApplyState (tk_State <$> allTasks)) apply)) in
  if suppressParentApplyWrites ctx then Ret launchDone else
  let! written := update apply in
  match written with
  | Err e => Ret (launchErr (driveStore e) apply allTasks)
  | Ok _ =>
      if startRequested then
        let! completed := completePending apply ControlOperationStart in
        Ret match completed with Err e => launchErr (driveStore e) apply allTasks | Ok _ => launchDone end
      else Ret launchDone
  end.

(** The engine accepted the change of the active tasks, [tasks] those of the caller. *)
Definition followResume (clocks : list Z) (context : Z) (creds : string) (options : gmap string string)
    (releaseAtCutoverBarrier startRequested : bool) (apply : Apply) (all : list (TaskRec * bool)) (rs : ResumeState)
    : prog plane launchEnd :=
  if (lc_Type cfg == DatabaseTypeVitess) && (rs_Metadata rs == "")
  then Ret (launchErr (resumeStateUnavailable "engine accepted grouped resume without resume state metadata") apply all.*1) else
  let! (apply, tasks, err) := persistReattachedResumeStates apply (activeTasks all) startRequested in
  match err with
  | Some e => Ret (launchErr (driveStore e) apply (mergeActive all tasks))
  | None =>
      let! polled := pollAtomic clocks context creds options releaseAtCutoverBarrier (startPoll apply tasks (Some rs)) in
      Ret match polled with Some _ => launchDone | None => launchPolling end
  end.

(** The active tasks are handed to the engine. *)
Definition reattach (clocks : list Z) (context : Z) (plan : Plan) (options : gmap string string)
    (releaseAtCutoverBarrier startRequested : bool) (creds : string) (apply : Apply) (all : list (TaskRec * bool))
    : prog plane launchEnd :=
  let tasks := activeTasks all in
  let! loaded := groupedResumeState apply tasks in
  match loaded with
  | Err e => Ret (launchErr e apply all.*1)
  | Ok rs =>
      let! (apply, result) := engineApply foundRows hasOptions ctx clockNow false tasks apply
                                (groupedRequest apply tasks plan options rs creds) in
      match result with
      | Err e => Ret (launchErr (driveFailed ("engine apply failed: " ++ ee_Message e) (ee_Permanent e)) apply all.*1)
      | Ok result =>
          if negb (er_Accepted result)
          then Ret (launchErr (driveFailed ("engine did not accept apply: " ++ er_Message result) false) apply all.*1) else
          let follow := followResume clocks context creds options releaseAtCutoverBarrier startRequested apply all in
          match er_ResumeState result with
          | None => follow rs
          | Some rs' =>
              if lc_Type cfg == DatabaseTypeVitess then
                let! saved := saveEngineResumeState foundRows ctx apply tasks rs' in
                match saved with
                | Err e => Ret (launchErr (resumeStateUnavailable (errText e)) apply all.*1)
                | Ok _ => follow rs'
                end
              else follow rs'
          end
      end
  end.

Definition launchAtomicResume (clocks : list Z) (context : Z) (apply : Apply) (tasks : list TaskRec) (plan : Plan)
    (options : gmap string string) (startRequested releaseAtCutoverBarrier : bool) : prog plane launchEnd :=
  if negb (lc_HasEngine cfg) then Ret (launchErr (driveFailed "no engine available for grouped resume" false) apply tasks) else
  match credentialsForGroupedApply cfg plan with
  | Err e => Ret (launchErr (driveStore e) apply tasks)
  | Ok creds =>
      let! (all, err) := replanAndFilterTasks apply tasks plan in
      match err with
      | Some e => Ret (launchErr e apply all.*1)
      | None =>
          match activeTasks all with
          | [] => terminalizeResume apply all.*1 startRequested
          | _ => reattach clocks context plan options releaseAtCutoverBarrier startRequested creds apply all
          end
      end
  end.

Definition handleGroupedResumeFailure (apply : Apply) (tasks : list TaskRec) (err : driveErr) (startRequested : bool)
    : prog plane resumeEnd :=
  if shouldRetryEngineError cfg (asEngineErr err) then
    let! _ := markApplyRetryableWithTasks foundRows hasOptions clockNow ctx apply tasks (errMessage err) in succeeds
  else
    let! (apply, _) := failApplyWithTasks foundRows hasOptions clockNow ctx apply tasks (errMessage err) in
    if startRequested
    then orReturn (failPending apply ControlOperationStart (errMessage err)) (fun _ => fails err)
    else fails err.

(** [ctx.Err()] *)
Definition contextEnd (outer : Z) : prog plane resumeEnd :=
  let! done := cancelled outer in if done : bool then fails contextDone else succeeds.

(** A drive under a cancel handle of its own. *)
Definition underCancel {R} (context : Z) (p : prog plane R) : prog plane R :=
  let! generation := setApplyCancel context in
  let! r := p in
  let! _ := clearApplyCancel match generation with Ok g => g | Err _ => 0 end in
  Ret r.

Definition launched (outer : Z) (startRequested : bool) (r : launchEnd) : prog plane resumeEnd :=
  match r with
  | launchPolling => Ret resumePolling
  | launchDone => contextEnd outer
  | launchErr (resumeStateUnavailable message) _ _ => fails (resumeStateUnavailable message)
  | launchErr e apply tasks => handleGroupedResumeFailure apply tasks e startRequested
  end.

(** ** Start requests *)

Definition startable (apply : Apply) (task : TaskRec) : bool :=
  (tk_State task == Task.Stopped) && (tk_ApplyID task =? a_ID apply) && negb (maxAge <? clockNow - tk_UpdatedAt task).

(** The apply of the stopped task that was updated last; failed reads are skipped. *)
Fixpoint latestStoppedApply (found : option Apply) (tasks : list TaskRec) : prog plane (option Apply) :=
  match tasks with
  | [] => Ret found
  | task :: rest =>
      if (tk_State task != Task.Stopped) || (maxAge <? clockNow - tk_UpdatedAt task) || negb (0 <? tk_ApplyID task)
      then latestStoppedApply found rest else
      let! a := readStore (findApply (tk_ApplyID task)) in
      latestStoppedApply match a, found with
                         | Ok (Some a), Some b => if a_UpdatedAt b <? a_UpdatedAt a then Some a else found
                         | Ok (Some a), None => Some a
                         | _, _ => found
                         end rest
  end.

(** The counts of the last loop: started and skipped tasks. *)
Definition countStart (apply : Apply) (tasks : list TaskRec) : Z * Z :=
  fold_left (fun counts task =>
    if negb (startable apply task) then counts
    else if IsState (tk_State task) [Task.Stopped] then (counts.1 + 1, counts.2)
    else if IsTerminalTaskState (tk_State task) then (counts.1, counts.2 + 1) else counts) tasks (0, 0).

Definition resolveStartRequest (applyId : string) : prog plane (res (Apply * Z * Z)) :=
  try! tasks := readStore (GetByDatabase E (lc_Database cfg)) in
  try! found := (if applyId != "" then
                   let! a := readStore (findApplyByIdentifier applyId) in
                   Ret match a with Ok (Some a) => Ok (Some a) | _ => Err ErrApplyNotFound end
                 else let! a := latestStoppedApply None tasks in Ret (Ok a)) in
  Ret match found with
      | None => Err (Errorf "no stopped schema change to resume")
      | Some apply =>
          if ao_DeferDeploy (a_Options apply) && (a_State apply != Apply.WaitingForDeploy)
          then Err (Errorf "schema change is not ready for deploy")
          else if IsState (a_State apply) [Apply.WaitingForDeploy] then Ok (apply, 1, 0)
          else if negb (IsState (a_State apply) [Apply.Stopped; Apply.Running])
          then Err (Errorf "schema change is not stopped")
          else let counts := countStart apply tasks in
               if counts.1 =? 0 then Err (Errorf "no stopped schema change to resume") else Ok (apply, counts.1, counts.2)
      end.

Definition Start (applyId : string) : prog plane (res StartResponse) :=
  try! (apply, startedCount, skippedCount) := resolveStartRequest applyId in
  try! _ := onStore (RequestPending (newRequest apply ControlOperationStart "tern-grpc" (startMetadata startedCount skippedCount))) in
  Ret (Ok {| sp_Accepted := true; sp_StartedCount := startedCount; sp_SkippedCount := skippedCount |}).

(** The tasks, credentials and resume state of a deploy that was started. *)
Definition startDeferredDeploy (apply : Apply) : prog plane (result driveErr (list TaskRec * string * option ResumeState)) :=
  let! loaded := readStore (GetByApplyID E (a_ID apply)) in
  match loaded with
  | Err e => Ret (Err (driveStore e))
  | Ok [] => Ret (Err (driveFailed "no tasks found for apply" false))
  | Ok ((task :: _) as tasks) =>
      if negb (lc_HasEngine cfg) then Ret (Err (driveFailed "no engine configured" false)) else
      match credentialsForTask cfg task with
      | Err e => Ret (Err (driveStore e))
      | Ok creds =>
          let! built := buildControlRequest cfg task creds ControlStart in
          match built with
          | Err e => Ret (Err (driveStore e))
          | Ok req =>
              let! r := commandEngine (CallControl ControlStart req) (fun v => ev_Control v ControlStart req) in
              Ret match r with
                  | Err e => Err (driveFailed ("start deferred deploy: " ++ ee_Message e) (ee_Permanent e))
                  | Ok None => Err (driveFailed "deferred deploy not accepted" false)
                  | Ok (Some result) =>
                      if cl_Accepted result then Ok (tasks, creds, ct_ResumeState req)
                      else Err (driveFailed ("deferred deploy not accepted: " ++ cl_Message result) false)
                  end
          end
      end
  end.

(** Not for this drive, or the drive ends with it. *)
Inductive startEnd := startUnhandled | startHandled (r : resumeEnd).

(** The deploy was started: the apply runs and is polled. *)
Definition followStart (clocks : list Z) (outer : Z) (options : gmap string string) (releaseAtCutoverBarrier : bool)
    (apply : Apply) (tasks : list TaskRec) (creds : string) (rs : option ResumeState) : prog plane resumeEnd :=
  let apply := set_a_State Apply.Running apply in
  let apply := match a_StartedAt apply with None => set_a_StartedAt (Some clockNow) apply | Some _ => apply end in
  orReturn (update apply) (fun _ =>
  orReturn (completePending apply ControlOperationStart) (fun _ =>
  let! polled := pollAtomic clocks outer creds options releaseAtCutoverBarrier (startPoll apply tasks rs) in
  match polled with None => Ret resumePolling | Some _ => contextEnd outer end)).

Definition processPendingStartControlRequest (clocks : list Z) (outer : Z) (apply : Apply) (options : gmap string string)
    (releaseAtCutoverBarrier : bool) : prog plane startEnd :=
  let ended p := let! r := p in Ret (startHandled r) in
  let! pending := pendingControlRequest apply ControlOperationStart in
  match pending with
  | Err e => ended (fails (driveStore e))
  | Ok None => Ret startUnhandled
  | Ok (Some _) =>
      let! stopReq := pendingControlRequest apply ControlOperationStop in
      match stopReq with
      | Err e => ended (fails (driveStore e))
      | Ok (Some _) => Ret startUnhandled
      | Ok None =>
          if negb (IsState (a_State apply) [Apply.WaitingForDeploy]) then Ret startUnhandled else
          let! started := startDeferredDeploy apply in
          match started with
          | Err e => ended (orReturn (failPending apply ControlOperationStart (errMessage e)) (fun _ => fails e))
          | Ok (tasks, creds, rs) => ended (followStart clocks outer options releaseAtCutoverBarrier apply tasks creds rs)
          end
      end
  end.

(** ** The sequential resume *)

(** A task that is ready: completed, failed on drift, or run. *)
Definition resumeTask (fuel : nat) (context : Z) (plan : Plan) (options : gmap string string) (apply : Apply) (task : TaskRec)
    : prog plane (option taskOutcome) :=
  let run := runEngineTask E foundRows hasOptions clockNow ctx cfg errText unmarshalVolume context fuel options apply task in
  let! needed := tableStillNeedsChange apply plan task in
  match needed with
  | Err _ => run
  | Ok None => let! task := transition (completedTask task) Task.Completed in Ret (Some (endTask taskContinue task apply))
  | Ok (Some ddl) =>
      match verifyTask task ddl with
      | Some e => let! task := markTaskFailed foundRows clockNow ctx task (driftText e) in
                  Ret (Some (endTask taskFailed task apply))
      | None => run
      end
  end.

Fixpoint resumeLoop (fuel : nat) (context : Z) (plan : Plan) (options : gmap string string) (apply : Apply)
    (before todo : list TaskRec) : prog plane (option loopEnd) :=
  match todo with
  | [] => Ret (Some (loopDone apply before None false))
  | task :: rest =>
      let! stop := serveStop apply in
      let apply := hr_Apply stop in
      match hr_Err stop with
      | Some _ => Ret (Some loopAborted)
      | None =>
      if hr_Handled stop then Ret (Some (loopDone apply (before ++ todo) None true)) else
      let! action := checkTaskReady E context task in
      match action with
      | taskStopped => Ret (Some (loopDone apply (before ++ todo) None true))
      | taskSkip => resumeLoop fuel context plan options apply (before ++ [task]) rest
      | _ =>
          let! outcome := resumeTask fuel context plan options apply task in
          match outcome with
          | None => Ret None
          | Some o =>
              let tasks := (before ++ to_Task o :: rest)%list in
              match to_Action o with
              | taskFailed => Ret (Some (loopDone (to_Apply o) tasks (Some (to_Task o)) false))
              | taskAbort => Ret (Some loopAborted)
              | taskStopped => Ret (Some (loopDone (to_Apply o) tasks None true))
              | _ => resumeLoop fuel context plan options (to_Apply o) (before ++ [to_Task o]) rest
              end
          end
      end
      end
  end.

Definition resumeApplySequential (fuel : nat) (context : Z) (apply : Apply) (tasks : list TaskRec) (plan : Plan)
    (options : gmap string string) : prog plane driveEnd :=
  let! loop := resumeLoop fuel context plan options apply [] tasks in
  match loop with
  | None => Ret stillPolling
  | Some loopAborted => Ret leftToOperator
  | Some (loopDone apply tasks failedTask stopped) =>
      let! (apply, tasks) := finalizeSequentialApply foundRows hasOptions clockNow ctx apply tasks failedTask stopped in
      Ret (settled apply tasks)
  end.

(** ** The drives *)

Definition runApplyExecution (clocks : list Z) (fuel : nat) (context : Z) (apply : Apply) (tasks : list TaskRec) (plan : Plan)
    (options : gmap string string) (releaseAtCutoverBarrier : bool) : prog plane bool :=
  if usesGroupedApply apply options then
    let! r := executeGroupedApply E foundRows hasOptions ctx cfg errText unmarshalVolume parseDuration revertWindowMetadata
                psMetadata mergeRevertExpiry newTaskIdentifier clockNow clocks context apply tasks plan options
                releaseAtCutoverBarrier in
    Ret match r with Some _ => true | None => false end
  else
    let! r := executeApplySequential E foundRows hasOptions clockNow ctx cfg errText unmarshalVolume context fuel options apply tasks in
    Ret match r with stillPolling => false | _ => true end.

(** Whether it ended. *)
Definition dispatchQueuedApply (clocks : list Z) (fuel : nat) (context : Z) (apply : Apply) (tasks : list TaskRec) (plan : Plan)
    (options : gmap string string) (releaseAtCutoverBarrier : bool) : prog plane bool :=
  underCancel context (runApplyExecution clocks fuel context apply tasks plan options releaseAtCutoverBarrier).

Definition failResume (apply : Apply) (tasks : list TaskRec) (message : string) : prog plane resumeEnd :=
  let! _ := failApplyWithTasks foundRows hasOptions clockNow ctx apply tasks message in succeeds.

(** An apply without tasks is done when it owns no task rows. *)
Definition completeTasklessResume (apply : Apply) : prog plane resumeEnd :=
  let! fresh := readStore (findApply (a_ID apply)) in
  if match fresh with Ok (Some a) => IsTerminalApplyState (a_State a) | _ => false end then succeeds else
  orReturn (readStore (CountByApplyID (a_ID apply))) (fun totalTaskRows =>
  if 0 <? totalTaskRows then fails tasksNotLoaded else
  let apply := set_a_UpdatedAt clockNow (set_a_CompletedAt (Some clockNow) (set_a_State Apply.Completed apply)) in
  orReturn (update apply) (fun _ => succeeds)).

(** The live schema has all changes: the apply is completed. *)
Definition completeResume (apply : Apply) (startRequested : bool) : prog plane resumeEnd :=
  let apply := set_a_UpdatedAt clockNow (set_a_CompletedAt (Some clockNow) (set_a_State Apply.Completed apply)) in
  let! _ := update apply in
  if startRequested then orReturn (completePending apply ControlOperationStart) (fun _ => succeeds) else succeeds.

(** The active tasks are driven on. *)
Definition driveActive (clocks : list Z) (fuel : nat) (outer context : Z) (apply : Apply) (active : list TaskRec) (plan : Plan)
    (options : gmap string string) (startRequested releaseAtCutoverBarrier : bool) : prog plane resumeEnd :=
  let! (apply, active) := prepareRetryableTasksForResume apply active in
  let! active := prepareStoppedTasksForResume active startRequested in
  if usesGroupedApply apply options then
    let! r := underCancel context
                (launchAtomicResume clocks context apply active plan options startRequested releaseAtCutoverBarrier) in
    launched outer startRequested r
  else
    let apply := set_a_UpdatedAt clockNow (set_a_State Apply.Running apply) in
    orReturn (update apply) (fun _ =>
    let drive :=
      let! r := underCancel context (resumeApplySequential fuel context apply active plan options) in
      match r with stillPolling => Ret resumePolling | _ => contextEnd outer end in
    if startRequested then orReturn (completePending apply ControlOperationStart) (fun _ => drive) else drive).

(** The tasks against the live schema; [signalAbsent]: the engine has lost a cutover. *)
Definition reconcile (clocks : list Z) (fuel : nat) (outer context : Z) (apply : Apply) (tasks : list TaskRec) (plan : Plan)
    (options : gmap string string) (releaseAtCutoverBarrier signalAbsent : bool) : prog plane resumeEnd :=
  let! (all, err) := replanAndFilterTasks apply tasks plan in
  match err with
  | Some e => fails e
  | None =>
      let active := activeTasks all in
      match active, signalAbsent with
      | _ :: _, true => failResume apply active "deferred cutover signal is absent but live schema does not match desired schema; manual reconciliation required"
      | _, _ =>
          orReturn (pendingControlRequest apply ControlOperationStart) (fun startReq =>
          let startRequested := match startReq with Some _ => true | None => false end in
          match active with
          | [] => completeResume apply startRequested
          | _ => driveActive clocks fuel outer context apply active plan options startRequested releaseAtCutoverBarrier
          end)
      end
  end.

(** The parked cutover is still with the engine. *)
Definition recoverCutover (clocks : list Z) (outer context : Z) (apply : Apply) (tasks : list TaskRec) (plan : Plan)
    (options : gmap string string) (releaseAtCutoverBarrier : bool) : prog plane resumeEnd :=
  let! (apply, tasks, written) := markApplyRecovering apply tasks in
  match written with
  | Err e => fails (driveStore e)
  | Ok _ =>
      let! r := underCancel context (launchAtomicResume clocks context apply tasks plan options false releaseAtCutoverBarrier) in
      launched outer false r
  end.

Definition deferredCutoverSignalExists (apply : Apply) : prog plane (option (eres bool)) :=
  let! r := askEngine (fun v => Ok (ev_CutoverSignal v (a_Database apply) (lc_TargetDSN cfg))) in
  Ret match r with Ok s => s | Err e => Some (Err e) end.

Definition resumeApplyWithTasks (clocks : list Z) (fuel : nat) (outer context : Z) (apply : Apply) (tasks : list TaskRec)
    (options : gmap string string) (releaseAtCutoverBarrier forceCutoverResume : bool) : prog plane resumeEnd :=
  let! stop := serveStop apply in
  let apply := hr_Apply stop in
  match hr_Err stop with
  | Some e => fails (driveStore e)
  | None =>
  if hr_Handled stop then succeeds else
  orReturn (readStore (fun s => planRow s (a_PlanID apply))) (fun row =>
  match row with
  | None => failResume apply tasks "plan not found during recovery"
  | Some plan =>
  if match tasks with [] => negb (isTasklessVSchemaOnlyPlan tasks (Some plan)) | _ => false end
  then completeTasklessResume apply else
  let! started := processPendingStartControlRequest clocks outer apply options releaseAtCutoverBarrier in
  match started with
  | startHandled r => Ret r
  | startUnhandled =>
  if IsState (a_State apply) [Apply.Pending] && match a_StartedAt apply with None => true | Some _ => false end then
    let! ended := dispatchQueuedApply clocks fuel context apply tasks plan options releaseAtCutoverBarrier in
    if ended : bool then contextEnd outer else Ret resumePolling
  else
  let go := reconcile clocks fuel outer context apply tasks plan options releaseAtCutoverBarrier in
  if negb (shouldInspectCutoverSignalForResume apply forceCutoverResume) then go false else
  let! signal := deferredCutoverSignalExists apply in
  match signal with
  | Some (Err e) => fails (driveFailed (ee_Message e) (ee_Permanent e))
  | Some (Ok true) => recoverCutover clocks outer context apply tasks plan options releaseAtCutoverBarrier
  | Some (Ok false) => go true
  | None => go false
  end
  end
  end)
  end.

(** ** The group finalizer *)

Definition persistFinalizerState (operationID : Z) (rs : ResumeState) : prog plane unit :=
  let! _ := onStore (SaveEngineResumeState foundRows ctx operationID
              (Some {| rs_ApplyOperationID := operationID; MigrationContext := rs_MigrationContext rs; Metadata := rs_Metadata rs |})) in
  Ret tt.

Fixpoint finalizerCallbacks (operationID : Z) (events : list engineEvent) : prog plane unit :=
  match events with
  | [] => Ret tt
  | OnStateChange (Some rs) :: rest => let! _ := persistFinalizerState operationID rs in finalizerCallbacks operationID rest
  | _ :: rest => finalizerCallbacks operationID rest
  end.

(** The state the engine ended in, over [fuel] polls; [None] while it has not. *)
Fixpoint driveFinalizerToTerminal (fuel : nat) (outer : Z) (apply : Apply) (operationID : Z) (creds : string) (rs : ResumeState)
    : prog plane (option (result driveErr string)) :=
  match fuel with
  | 0%nat => Ret None
  | Datatypes.S fuel =>
      let wait rs := let! done := cancelled outer in
                     if done : bool then Ret (Some (Err contextDone))
                     else driveFinalizerToTerminal fuel outer apply operationID creds rs in
      let! progress := askEngine (fun v => ev_Progress v (a_Database apply) creds (Some rs)) in
      match progress with
      | Err e => if ee_Permanent e then Ret (Some (Err (driveFailed (ee_Message e) true))) else wait rs
      | Ok p =>
          let! rs := match ep_ResumeState p with
                     | Some rs' => let! _ := persistFinalizerState operationID rs' in Ret rs'
                     | None => Ret rs
                     end in
          let st := pr_State (ep_Result p) in
          if EngineState_IsTerminal st || (st == Engine.StateRevertWindow) then Ret (Some (Ok st)) else wait rs
      end
  end.

(** The operation is failed with the cause; a failed write is only logged. *)
Definition failFinalizer (operationID : Z) (cause : driveErr) : prog plane resumeEnd :=
  let! _ := onStore (Operations.MarkFailed foundRows ctx operationID (errMessage cause)) in fails cause.

Definition finishFinalizer (operationID : Z) : prog plane resumeEnd :=
  orReturn (onStore (Operations.MarkCompleted foundRows ctx operationID)) (fun _ => succeeds).

(** The change is handed to the engine and followed to its end. *)
Definition applyFinalizer (fuel : nat) (outer : Z) (apply : Apply) (operationID : Z) (changes : list EngineChange)
    (creds : string) (resumeState : option ResumeState) : prog plane resumeEnd :=
  let req := {| ar_Database := a_Database apply; ar_Changes := changes; ar_TargetShards := [];
                ar_Options := Map (a_Options apply); ar_ResumeState := resumeState; ar_Credentials := creds |} in
  let! answer := commandEngine (CallApply req) (fun v => Ok (ev_Apply v req)) in
  match answer with
  | Err e => failFinalizer operationID (driveFailed (ee_Message e) (ee_Permanent e))
  | Ok (events, result) =>
      let! _ := finalizerCallbacks operationID events in
      match result with
      | Err e => failFinalizer operationID (driveFailed (ee_Message e) (ee_Permanent e))
      | Ok result =>
          if negb (er_Accepted result) then failFinalizer operationID (driveFailed "VSchema apply was not accepted" false) else
          match er_ResumeState result with
          | None => finishFinalizer operationID
          | Some rs =>
              let! _ := persistFinalizerState operationID rs in
              let! polled := driveFinalizerToTerminal fuel outer apply operationID creds rs in
              match polled with
              | None => Ret resumePolling
              | Some (Err e) => failFinalizer operationID e
              | Some (Ok st) => if finalizerVSchemaApplied st then finishFinalizer operationID
                                else failFinalizer operationID (driveFailed "VSchema apply ended in a non-success state" false)
              end
          end
      end
  end.

Definition driveGroupFinalizer (fuel : nat) (outer : Z) (apply : Apply) (op : ApplyOperation) : prog plane resumeEnd :=
  orReturn (readStore (fun s => planRow s (a_PlanID apply))) (fun row =>
  match row with
  | None => fails (driveFailed "plan not found for group_finalizer" false)
  | Some plan =>
      match finalizerVSchemaChanges plan (namespaceFromFinalizerKey (op_OperationKey op)) with
      | Err e => fails (driveStore e)
      | Ok changes =>
          if negb (lc_HasEngine cfg) then fails (driveFailed "no engine available to drive group_finalizer" false) else
          match credentialsForGroupedApply cfg plan with
          | Err e => fails (driveStore e)
          | Ok creds =>
              orReturn (onStore (Operations.MarkStarted foundRows ctx (op_ID op))) (fun _ =>
              let! stored := onStore (GetEngineResumeState (op_ID op)) in
              match stored with
              | Err ErrEngineResumeStateNotFound => applyFinalizer fuel outer apply (op_ID op) changes creds None
              | Err e => failFinalizer (op_ID op) (driveStore e)
              | Ok rs => applyFinalizer fuel outer apply (op_ID op) changes creds
                           (Some {| rs_MigrationContext := MigrationContext rs; rs_Metadata := Metadata rs |})
              end)
          end
      end
  end).

(** ** What an operator calls *)

Definition guardDriveScope (apply : Apply) : bool :=
  (a_Deployment apply == lc_Database cfg) || (a_Database apply == lc_Database cfg).

Definition ResumeApply (clocks : list Z) (fuel : nat) (outer context : Z) (apply : Apply) : prog plane resumeEnd :=
  if negb (guardDriveScope apply) then fails outsideScope else
  orReturn (readStore (GetByApplyID E (a_ID apply))) (fun tasks =>
  resumeApplyWithTasks clocks fuel outer context apply tasks (Map (a_Options apply)) false false).

(** The operation of the apply and its tasks. *)
Definition withOperation (apply : Apply) (applyOperationID : Z) (k : ApplyOperation -> list TaskRec -> prog plane resumeEnd)
    : prog plane resumeEnd :=
  if negb (guardDriveScope apply) then fails outsideScope else
  orReturn (readStore (findOperation applyOperationID)) (fun found =>
  match found with
  | None => fails operationRowMissing
  | Some op =>
      if negb (op_ApplyID op =? a_ID apply) then fails foreignOperation else
      orReturn (readStore (GetByApplyOperationID E applyOperationID)) (k op)
  end).

Definition ResumeApplyOperation (clocks : list Z) (fuel : nat) (outer context : Z) (apply : Apply) (applyOperationID : Z)
    : prog plane resumeEnd :=
  withOperation apply applyOperationID (fun op tasks =>
  match tasks with
  | [] =>
      if op_OperationKind op == ApplyOperationKindGroupFinalizer then driveGroupFinalizer fuel outer apply op else
      orReturn (readStore (fun s => planRow s (a_PlanID apply))) (fun plan =>
      if negb (isTasklessVSchemaOnlyPlan tasks plan) || (op_OperationKind op != ApplyOperationKindWork) ||
         (op_OperationKey op != "")
      then fails noTasksForOperation
      else resumeApplyWithTasks clocks fuel outer context apply tasks (Map (a_Options apply)) false false)
  | _ =>
      orReturn (readStore (ListByApply (a_ID apply))) (fun siblings =>
      let multiOperation := (1 <? length siblings)%nat in
      resumeApplyWithTasks clocks fuel outer context apply tasks (Map (effectiveCopyDriveOptions apply multiOperation (Some op)))
        (shouldReleaseAtCutoverBarrier apply multiOperation (Some op)) false)
  end).

Definition set_ao_DeferCutover (v : bool) (o : ApplyOptions) : ApplyOptions :=
  {| ao_AllowUnsafe := ao_AllowUnsafe o; ao_Branch := ao_Branch o; ao_DeferCutover := v; ao_DeferDeploy := ao_DeferDeploy o;
     ao_SkipRevert := ao_SkipRevert o; ao_Volume := ao_Volume o; ao_Target := ao_Target o; ao_Rollback := ao_Rollback o |}.

Definition ResumeApplyOperationCutover (clocks : list Z) (fuel : nat) (outer context : Z) (apply : Apply) (applyOperationID : Z)
    : prog plane resumeEnd :=
  withOperation apply applyOperationID (fun op tasks =>
  match tasks with
  | [] => if op_OperationKind op == ApplyOperationKindGroupFinalizer then driveGroupFinalizer fuel outer apply op
          else fails noTasksForOperation
  | _ =>
      if negb (isCutoverDriveState (op_State op))
      then fails (driveFailed "operation is not parked or recovering for cutover" false) else
      resumeApplyWithTasks clocks fuel outer context apply tasks (Map (set_ao_DeferCutover false (a_Options apply))) false true
  end).
End Resume.
