(* ===== verification/Sends.v ===== *)
(** * What a drive sends to the engine

    Proof rules for the commands of a run: executions in which every state satisfies
    a condition, and, part by part of the drives of pkg/tern, which commands of the
    engine a part cannot send.  Stops, cancels, cutovers, volume changes, progress and
    the settling of applies send nothing but their own command. *)

From S2P Require Import Prelude GoStrings State Convert Sql Store Operations Applies Control Projection Drift Fencing Tasks Plane Fanout Stopping LocalControl Sequential Conflict Grouped Resume.

Local Open Scope string_scope.
Local Open Scope Z_scope.

(** ** Executions in which every state satisfies a condition *)

(** As long as each state a statement runs in satisfies [cond], no statement changes
    [view], and the result satisfies [Q]. *)
Fixpoint spares {X R} (view : plane -> X) (cond : plane -> Prop) (Q : R -> Prop) (p : prog plane R) : Prop :=
  match p with
  | Ret r => Q r
  | Exec stmt k =>
      (forall w, cond w -> view (stmt w).1 = view w /\ spares view cond Q (k (stmt w).2)) /\
      (forall e, spares view cond Q (k (Err e)))
  end.

Section Spares.
Context {X : Type} (view : plane -> X) (cond : plane -> Prop).

Lemma spares_run {R} (Q : R -> Prop) env (p : prog plane R) n w w' r n' :
  spares view cond Q p -> Forall cond (trace env n p w) -> runE env n p w = (w', r, n') -> Q r /\ leaves view env n p w.
Proof.
  revert n w. induction p as [x | A stmt k IH]; intros n w Hp Htr Hrun; cbn in Hrun, Htr |- *.
  { by simplify_eq. }
  destruct Hp as [Hs Hk]. apply Forall_cons in Htr as [Hw Htr].
  destruct (fault (env n)) as [e|]; [by eapply IH|].
  destruct (Hs _ Hw) as [Hv Hq]. destruct (stmt _) as [w1 a]. cbn in *.
  destruct (IH a (Datatypes.S n) w1 Hq Htr Hrun). by repeat split.
Qed.

Lemma spares_bind {R R'} (Q : R -> Prop) (Q' : R' -> Prop) (p : prog plane R) (f : R -> prog plane R') :
  spares view cond Q p -> (forall r, Q r -> spares view cond Q' (f r)) -> spares view cond Q' (pbind p f).
Proof.
  intros Hp Hf. induction p as [r | A stmt k IH]; cbn in *; [by apply Hf|].
  destruct Hp as [Hs Hk]. split; [|auto]. intros w Hw. destruct (Hs w Hw). auto.
Qed.

Lemma spares_weaken {R} (Q Q' : R -> Prop) (p : prog plane R) :
  (forall r, Q r -> Q' r) -> spares view cond Q p -> spares view cond Q' p.
Proof.
  intros HQ. induction p as [r | A stmt k IH]; cbn; [apply HQ|]. intros [Hs Hk]. split; [|auto].
  intros w Hw. destruct (Hs w Hw). auto.
Qed.

(** A program that never changes [view]. *)
Lemma spares_always {R} (Q : R -> Prop) (p : prog plane R) : keepsView view (fun _ => True) Q p -> spares view cond Q p.
Proof.
  induction p as [r | A stmt k IH]; cbn; [done|]. intros [Hs Hk]. split; [|auto].
  intros w _. destruct (Hs w I) as (Hv & _ & Hq). auto.
Qed.

Lemma spares_read {A} (f : store -> A) :
  spares view cond (fun r => failed r \/ exists w, cond w /\ r = Ok (f (pl_db w))) (readStore f).
Proof. split; [|by left]. intros w Hw. cbn. split; [by destruct w|]. right. by exists w. Qed.

Lemma spares_ask {A} (f : engineView -> eres A) :
  spares view cond (fun r => r = Err transportError \/ exists w, cond w /\ r = f (pl_engine w)) (askEngine f).
Proof. split; [|by left]. intros w Hw. cbn. split; [done|]. right. by exists w. Qed.
End Spares.

(** ** Commands of a kind *)

(** The commands of the kind [bad] the engine was sent. *)
Definition sent (bad : engineCall -> bool) (w : plane) : list engineCall := List.filter bad (pl_calls w).

(** A kind that has no volume change and no control command but the skip of a revert. *)
Class Kind (bad : engineCall -> bool) : Prop := {
  kind_volume : forall req, bad (CallVolume req) = false;
  kind_control : forall op req, op <> ControlSkipRevert -> bad (CallControl op req) = false;
}.

Section Kind.
Context (bad : engineCall -> bool) `{!Kind bad}.

(** Programs that send no command of the kind. *)
Abbreviation noSend := (keepsView (sent bad) (fun _ => True)).

Lemma noSend_onStore {R} (p : prog store R) : noSend (fun _ => True) (onStore p).
Proof. apply (keepsView_store _ _ (fun _ _ => True)); [|done..]. intros s. apply preserves_True. Qed.

Lemma noSend_command {A} c (f : engineView -> eres A) : bad c = false -> noSend (fun _ => True) (commandEngine c f).
Proof.
  intros Hc. split; [|done]. intros w _. cbn. split; [|done].
  unfold sent. cbn. rewrite List.filter_app. cbn. by rewrite Hc, app_nil_r.
Qed.

Lemma noSend_ask {A} (f : engineView -> eres A) : noSend (fun _ => True) (askEngine f).
Proof. apply keepsView_ask. Qed.

Lemma noSend_cancelled id : noSend (fun _ => True) (cancelled id).
Proof. by split. Qed.

Lemma noSend_bind {R R'} (Q : R' -> Prop) (p : prog plane R) (f : R -> prog plane R') :
  noSend (fun _ => True) p -> (forall r, noSend Q (f r)) -> noSend Q (pbind p f).
Proof. intros Hp Hf. eapply keepsView_bind; [exact Hp|]. intros r _. apply Hf. Qed.

Create HintDb spared discriminated.
#[local] Hint Resolve noSend_onStore noSend_ask noSend_cancelled : spared.
#[local] Hint Extern 1 (noSend _ (commandEngine (CallVolume _) _)) => apply noSend_command, kind_volume : spared.
#[local] Hint Extern 1 (noSend _ (commandEngine (CallControl _ _) _)) => apply noSend_command, kind_control; discriminate : spared.
#[local] Hint Extern 1 (noSend _ (readStore _)) => apply noSend_onStore : spared.
#[local] Hint Extern 1 (noSend _ (execStore _)) => apply noSend_onStore : spared.
#[local] Hint Extern 1 (noSend _ (updateApply _ _ _)) => apply noSend_onStore : spared.
#[local] Hint Extern 1 (noSend _ (pendingControlRequest _ _)) => apply noSend_onStore : spared.

#[local] Opaque onStore commandEngine askEngine cancelled.

(** Statement by statement. *)
Ltac spare :=
  repeat first
    [ match goal with |- True => exact I end
    | match goal with H : keepsView _ _ _ ?p |- keepsView _ _ _ ?p => exact H end
    | solve [eauto 1 with spared nocore]
    | match goal with |- keepsView _ _ _ (pbind _ _) => apply noSend_bind; [|intros] end
    | match goal with
      | |- keepsView _ _ _ (match ?x with _ => _ end) => destruct x
      | |- keepsView _ _ _ (if ?x then _ else _) => destruct x
      | |- keepsView _ _ _ (Ret _) => cbn [keepsView]
      | |- context [let '(_, _) := ?x in _] => destruct x
      end ].

Section Stop.
Context (E : EngineNames) (foundRows hasOptions : bool) (clockNow : Z) (ctx : leaseCtx) (cfg : clientConfig).

Lemma noSend_complete apply operation : noSend (fun _ => True) (completePendingControlRequests foundRows ctx apply operation).
Proof. unfold completePendingControlRequests, ensureApplyLeaseForControlRequest. spare. Qed.
Lemma noSend_fail apply operation message : noSend (fun _ => True) (failPendingControlRequests foundRows ctx apply operation message).
Proof. unfold failPendingControlRequests, ensureApplyLeaseForControlRequest. spare. Qed.
#[local] Hint Resolve noSend_complete noSend_fail : spared.

Lemma noSend_load id : noSend (fun _ => True) (loadApply id).
Proof. unfold loadApply. spare. Qed.
#[local] Hint Resolve noSend_load : spared.

Lemma noSend_transition task st : noSend (fun _ => True) (transitionTaskState foundRows clockNow ctx task st).
Proof. unfold transitionTaskState. spare. Qed.
#[local] Hint Resolve noSend_transition : spared.

Lemma noSend_mark tasks id progress st a b c :
  noSend (fun _ => True) (markTasksWithState foundRows clockNow ctx tasks id progress st a b c).
Proof. revert a b c. induction tasks as [|t ts IH]; intros a b c; cbn [markTasksWithState]; spare. Qed.

Lemma noSend_settleRows st ops : noSend (fun _ => True) (settleRows foundRows ctx st ops).
Proof. induction ops as [|o ops IH]; cbn [settleRows]; spare. Qed.
#[local] Hint Resolve noSend_mark noSend_settleRows : spared.

Lemma noSend_build task creds operation : noSend (fun _ => True) (buildControlRequest cfg task creds operation).
Proof. unfold buildControlRequest, loadEngineResumeState. spare. Qed.
#[local] Hint Resolve noSend_build : spared.

Lemma noSend_control operation tasks id :
  operation <> ControlSkipRevert -> noSend (fun _ => True) (controlEngineForTasks cfg operation tasks id).
Proof.
  intros Hop. unfold controlEngineForTasks. spare. by apply noSend_command, kind_control.
Qed.

#[local] Hint Extern 1 (noSend _ (controlEngineForTasks _ _ _ _)) => apply noSend_control; discriminate : spared.

Lemma noSend_current {R} (Q : R -> Prop) (k : applyCancelHandle -> prog plane R) :
  (forall h, noSend Q (k h)) -> noSend Q (currentApplyCancel k).
Proof. intros Hk. by split; intros; [split; [|split]|]. Qed.

Lemma noSend_cancelHandle h : noSend (fun _ => True) (cancelApplyHandle h).
Proof. by split. Qed.
#[local] Hint Resolve noSend_cancelHandle : spared.

Lemma noSend_taskless apply st : noSend (fun _ => True) (settleOperationRowsForTasklessApply foundRows ctx apply st).
Proof. unfold settleOperationRowsForTasklessApply. spare. Qed.
#[local] Hint Resolve noSend_taskless : spared.

Lemma noSend_owned cancel identifier :
  noSend (fun _ => True) (ownedCall E foundRows hasOptions clockNow ctx cfg cancel identifier).
Proof.
  unfold ownedCall. destruct cancel;
  unfold stopOwnedApply, cancelOwnedApply, resolveTarget, rejectRevertWindow, resolveRevertWindowApplyIdentifier,
    recordStop, recordCancel, snapshotEngineProgress, stopEngineForTasks, cancelEngineForTasks, settleStopForTasklessApply,
    settleCancelForTasklessApply, resolveTasklessApplyForSettle, handleStopAllTasksTerminal, markApplyStopped,
    markApplyCancelled; spare.
  all: apply noSend_current; intros h; spare.
Qed.

(** The apply the processing goes on with is the same one. *)
Definition sameApply (apply : Apply) (a : Apply) : Prop := a_ID a = a_ID apply.

Lemma noSend_handled {A} apply (Q : A -> Prop) (p : prog plane (res A)) k :
  noSend (fun r => match r with Ok a => Q a | Err _ => True end) p ->
  (forall a, Q a -> noSend (fun r => sameApply apply (hr_Apply r)) (k a)) ->
  noSend (fun r => sameApply apply (hr_Apply r)) (orHandled apply p k).
Proof. intros Hp Hk. eapply keepsView_bind; [exact Hp|]. intros [a|e] Ha; [by apply Hk|done]. Qed.

Lemma noSend_any {A} (p : prog plane (res A)) :
  noSend (fun _ => True) p -> noSend (fun r => match r with Ok _ => True | Err _ => True end) p.
Proof. apply keepsView_weaken. by intros []. Qed.

Lemma noSend_stored apply :
  noSend (fun r => match r with Ok (Some a) => sameApply apply a | _ => True end)
    (completePendingStopIfStoredApplyResolved foundRows ctx apply).
Proof.
  unfold completePendingStopIfStoredApplyResolved.
  eapply (keepsView_try _ _ (fun a => sameApply apply a)); [|done|].
  - unfold loadApply. eapply keepsView_try with (Q := fun o => forall a, o = Some a -> sameApply apply a); [|done|].
    + eapply keepsView_weaken; [|apply (keepsView_read (sent bad) (fun _ => True) (findApply (a_ID apply)))].
      intros [o|e] Hr; [|done]. destruct Hr as [[]|(w & _ & [= ->])]. intros a [_ Ha]%find_some. by apply Z.eqb_eq.
    + intros [a|] Ha; [by apply Ha|done].
  - intros a Ha. destruct (negb _); [done|]. eapply keepsView_try; [apply noSend_any, noSend_complete|done|]. by intros [] _.
Qed.

Lemma noSend_startPending apply a :
  sameApply apply a -> noSend (fun r => sameApply apply (hr_Apply r)) (stopHandledUnlessStartPending a).
Proof. intros Ha. unfold stopHandledUnlessStartPending, hasPendingStartControlRequest. spare; exact Ha. Qed.

Lemma noSend_window apply : noSend (fun _ => True) (applyHasRevertWindowTask E apply).
Proof. unfold applyHasRevertWindowTask. spare. Qed.

Lemma noSend_stop apply :
  noSend (fun r => sameApply apply (hr_Apply r))
    (processPendingStopControlRequest E foundRows hasOptions clockNow ctx cfg apply).
Proof.
  assert (forall handled err, noSend (fun r => sameApply apply (hr_Apply r)) (handledBy apply handled err)) as Hby by done.
  unfold processPendingStopControlRequest. apply noSend_bind; [spare|]. intros [[req|]|e]; [|apply Hby..].
  eapply noSend_handled; [apply noSend_stored|]. intros [stored|] Hs; [by apply noSend_startPending|].
  destruct (IsTerminalApplyState _).
  { eapply noSend_handled; [apply noSend_any, noSend_complete|]. intros _ _. by apply noSend_startPending. }
  eapply noSend_handled; [apply noSend_any, noSend_window|]. intros [|] _.
  { eapply noSend_handled; [apply noSend_any, noSend_fail|]. intros _ _. apply Hby. }
  eapply noSend_handled; [apply noSend_any, (noSend_owned false)|]. intros resp _.
  destruct (acceptedOr resp); [apply Hby|].
  eapply noSend_handled; [apply noSend_stored|]. intros [stored|] Hs'; [exact Hs'|apply Hby].
Qed.

Lemma noSend_cancel apply :
  noSend (fun r => sameApply apply (hr_Apply r))
    (processPendingCancelControlRequest E foundRows hasOptions clockNow ctx cfg apply).
Proof.
  assert (forall handled err, noSend (fun r => sameApply apply (hr_Apply r)) (handledBy apply handled err)) as Hby by done.
  unfold processPendingCancelControlRequest. apply noSend_bind; [spare|]. intros [[req|]|e]; [|apply Hby..].
  destruct (_ && _). { eapply noSend_handled; [apply noSend_any, noSend_complete|]. intros _ _. apply Hby. }
  eapply noSend_handled; [apply noSend_any, noSend_window|]. intros [|] _.
  { eapply noSend_handled; [apply noSend_any, noSend_fail|]. intros _ _. apply Hby. }
  eapply noSend_handled; [apply noSend_any, (noSend_owned true)|]. intros resp _.
  destruct (acceptedOr resp); [apply Hby|].
  eapply noSend_handled; [apply noSend_any, noSend_complete|]. intros _ _. apply Hby.
Qed.

Lemma noSend_cancelOrStop apply :
  noSend (fun r => sameApply apply (hr_Apply r))
    (processPendingCancelOrStopControlRequest E foundRows hasOptions clockNow ctx cfg apply).
Proof.
  eapply keepsView_bind; [apply noSend_cancel|]. intros r Hr. destruct (_ || _); [exact Hr|].
  eapply keepsView_weaken; [|apply noSend_stop]. intros r' Hr'. unfold sameApply in *. congruence.
Qed.

(** ** The parts of a tick *)

Context (errText : StoreErr -> string) (unmarshalVolume : string -> option Z).
Context (parseDuration : string -> option Z) (revertWindowMetadata : string).
Context (psMetadata : string -> option psMeta) (mergeRevertExpiry : string -> Z -> res string).
Context (newTaskIdentifier : TaskRec -> string -> string).

Lemma noSend_orFail {A} apply (Q : A -> Prop) (p : prog plane (res A)) k :
  noSend (fun r => match r with Ok a => Q a | Err _ => True end) p ->
  (forall a, Q a -> noSend (fun r => sameApply apply r.1) (k a)) ->
  noSend (fun r => sameApply apply r.1) (orFail apply p k).
Proof. intros Hp Hk. eapply keepsView_bind; [exact Hp|]. intros [a|e] Ha; [by apply Hk|done]. Qed.

Lemma noSend_failWith apply a operation message e :
  sameApply apply a -> noSend (fun r => sameApply apply r.1) (failWith foundRows ctx a operation message e).
Proof. intros Ha. unfold failWith, orFail. spare; exact Ha. Qed.

Lemma noSend_cuttingOver apply :
  noSend (fun r => match r with Ok a => sameApply apply a | Err _ => True end)
    (markApplyCuttingOverForControlRequest hasOptions clockNow ctx apply).
Proof. unfold markApplyCuttingOverForControlRequest. spare. all: done. Qed.

Lemma noSend_cutover_call identifier : noSend (fun _ => True) (cutover E cfg identifier).
Proof. unfold cutover, cutoverTarget, getActiveTaskForDatabase. spare. Qed.

Lemma noSend_ready apply : noSend (fun _ => True) (applyReadyForCutoverRequest E apply).
Proof. unfold applyReadyForCutoverRequest. spare. Qed.

Lemma noSend_cutover apply :
  noSend (fun r => sameApply apply r.1)
    (processPendingCutoverControlRequest E foundRows hasOptions clockNow ctx cfg errText apply).
Proof.
  unfold processPendingCutoverControlRequest.
  eapply noSend_orFail; [apply noSend_any; spare|]. intros [req|] _; [|done].
  destruct (cutoverRequestResolvedByApplyState _).
  { eapply noSend_orFail; [apply noSend_any, noSend_complete|]. by intros _ _. }
  destruct (cutoverRequestFailedByApplyState _); [by apply noSend_failWith|].
  destruct (IsState _ _); [done|].
  eapply noSend_orFail; [apply noSend_any, noSend_ready|]. intros [|] _; [|done].
  eapply noSend_orFail; [apply noSend_any; spare|]. intros [stop|] _; [done|].
  eapply noSend_orFail; [apply noSend_cuttingOver|]. intros a Ha.
  apply noSend_bind; [apply noSend_cutover_call|]. intros [r|e]; [|by apply noSend_failWith].
  destruct (cv_Accepted r); [|by apply noSend_failWith].
  unfold orFail. apply noSend_bind; [apply noSend_complete|]. by intros [].
Qed.

Lemma noSend_record apply volume :
  noSend (fun r => match r with Ok a => sameApply apply a | Err _ => True end) (recordAppliedVolume ctx apply volume).
Proof. unfold recordAppliedVolume. spare. all: done. Qed.

Lemma noSend_volume apply creds rs :
  noSend (fun r => sameApply apply r.1)
    (processPendingVolumeControlRequest foundRows ctx errText unmarshalVolume apply creds rs).
Proof.
  unfold processPendingVolumeControlRequest.
  assert (forall message, noSend (fun r => sameApply apply r.1)
            (orFail apply (failPendingControlRequests foundRows ctx apply ControlOperationVolume message) (fun _ => Ret (apply, None))))
    as Hfail.
  { intros message. eapply noSend_orFail; [apply noSend_any, noSend_fail|]. by intros _ _. }
  eapply noSend_orFail; [apply noSend_any; spare|]. intros [req|] _; [|done].
  eapply noSend_orFail; [apply noSend_any; spare|]. intros ops _.
  destruct (1 <? length ops)%nat; [apply Hfail|]. destruct (DecodeVolumeControlRequestMetadata _ _) as [volume|]; [|apply Hfail].
  apply noSend_bind; [spare|]. intros [[result|]|e]; [|apply Hfail..].
  destruct (negb _); [apply Hfail|]. eapply noSend_orFail; [apply noSend_any, noSend_complete|]. intros _ _.
  eapply keepsView_bind; [apply noSend_record|]. by intros [a|e] Ha.
Qed.

Lemma noSend_shards task shards : noSend (fun _ => True) (writeShards E foundRows ctx newTaskIdentifier clockNow task shards).
Proof. induction shards as [|sh shards IH]; cbn [writeShards]; spare. Qed.
#[local] Hint Resolve noSend_shards : spared.

Lemma noSend_eachTask body tasks :
  (forall t, noSend (fun _ => True) (body t)) -> noSend (fun _ => True) (eachTask body tasks).
Proof. intros Hb. induction tasks as [|t ts IH]; cbn [eachTask]; spare. Qed.

Lemma noSend_sync p st tasks :
  noSend (fun _ => True) (syncAtomicTaskProgress E foundRows ctx psMetadata newTaskIdentifier clockNow p st tasks).
Proof. apply noSend_eachTask. intros t. unfold syncTask, writeShardProgress. spare. Qed.

Lemma noSend_settleApply apply settled : noSend (fun _ => True) (settleApply hasOptions ctx apply settled).
Proof. unfold settleApply. spare. Qed.
#[local] Hint Resolve noSend_settleApply : spared.

Lemma noSend_failOpen st message completedAt t :
  noSend (fun _ => True) (failOpenTask foundRows clockNow ctx st message completedAt t).
Proof. unfold failOpenTask. spare. Qed.

(** The next tick is one of the apply [id]. *)
Definition tickOf (id : Z) (r : tick) : Prop := match r with Next d => a_ID (gd_Apply d) = id | Stop _ => True end.

Lemma noSend_failDrive id message d : noSend (tickOf id) (failDrive foundRows hasOptions ctx clockNow message d).
Proof.
  unfold failDrive, failApplyWithTasks. apply noSend_bind; [|by intros []].
  apply noSend_bind; [apply noSend_eachTask, noSend_failOpen|]. intros ts. spare.
Qed.

Lemma noSend_pauseDrive id message d : noSend (tickOf id) (pauseDrive foundRows hasOptions ctx clockNow message d).
Proof.
  unfold pauseDrive, markApplyRetryableWithTasks. apply noSend_bind; [|by intros []].
  apply noSend_bind; [apply noSend_eachTask, noSend_failOpen|]. intros ts. spare.
Qed.

Lemma noSend_tickStop d : noSend (tickOf (a_ID (gd_Apply d))) (tickStop E foundRows hasOptions ctx cfg clockNow d).
Proof. eapply keepsView_bind; [apply noSend_cancelOrStop|]. intros r Hr. cbn. by destruct (_ || _). Qed.

Lemma noSend_progressFailed e d :
  noSend (tickOf (a_ID (gd_Apply d))) (progressFailed foundRows hasOptions ctx cfg clockNow e d).
Proof.
  unfold progressFailed. destruct (ee_Permanent e); [apply noSend_failDrive|]. destruct (_ <=? _)%nat; [|done].
  destruct (shouldRetryEngineError cfg e); [apply noSend_pauseDrive|apply noSend_failDrive].
Qed.

Lemma noSend_save apply tasks rs : noSend (fun _ => True) (saveEngineResumeState foundRows ctx apply tasks rs).
Proof.
  unfold saveEngineResumeState, applyOperationIDForApplyTasks, saveEngineResumeStateForOperation.
  destruct tasks; spare.
Qed.

Lemma noSend_adopt p d :
  noSend (tickOf (a_ID (gd_Apply d)))
    (adoptResumeState foundRows hasOptions ctx cfg errText parseDuration revertWindowMetadata psMetadata mergeRevertExpiry
       clockNow p d).
Proof.
  unfold adoptResumeState. destruct (ep_ResumeState p) as [rs|], (gd_Resume d); [|done..]. cbv zeta.
  destruct (lc_Type cfg == _); [|done]. apply noSend_bind; [apply noSend_save|].
  intros [u|e]; [done|]. apply noSend_pauseDrive.
Qed.

Lemma noSend_tickRequests creds d :
  noSend (tickOf (a_ID (gd_Apply d))) (tickRequests E foundRows hasOptions ctx cfg errText unmarshalVolume clockNow creds d).
Proof.
  eapply keepsView_bind; [apply noSend_cutover|]. intros [apply [e|]] Ha; [done|].
  eapply keepsView_bind; [apply noSend_volume|]. intros [a v] Hv. cbn. unfold sameApply in *. cbn in *.
  destruct (bool_decide _); cbn; [done|congruence].
Qed.

Lemma noSend_waiting creds options release st d : noSend (fun _ => True) (tickWaiting clockNow creds options release st d).
Proof. unfold tickWaiting, when, command. cbv zeta. spare. Qed.

Lemma noSend_markTaskless apply st message : noSend (fun _ => True) (markTasklessOperationState foundRows ctx apply st message).
Proof. unfold markTasklessOperationState, applyOperationIDForApplyTasks. spare. Qed.

Lemma noSend_aggregate apply tasks : noSend (fun _ => True) (deriveAggregateApplyState apply tasks).
Proof. unfold deriveAggregateApplyState. cbv zeta. spare. Qed.

Lemma noSend_completeAll apply operations : noSend (fun _ => True) (completeAll foundRows ctx apply operations).
Proof. induction operations as [|o ops IH]; cbn [completeAll]; spare. Qed.

Lemma noSend_settle release p st d :
  noSend (tickOf (a_ID (gd_Apply d))) (settleTick foundRows ctx clockNow release p st d).
Proof.
  unfold settleTick. destruct (suppressParentApplyWrites ctx).
  - assert (forall b : bool, tickOf (a_ID (gd_Apply d)) (if b then Stop d else Next d)) as Hb by by intros [].
    unfold settleOperation. destruct (gd_Tasks d); [|apply Hb]. cbv zeta. destruct (_ || _); [|apply Hb].
    apply noSend_bind; [apply noSend_markTaskless|]. intros [u|e]; [apply Hb|done].
  - eapply (keepsView_bind _ _ (fun d' => a_ID (gd_Apply d') = a_ID (gd_Apply d))).
    { unfold projectedApply. apply noSend_bind; [destruct (gd_Tasks d); [done|apply noSend_aggregate]|].
      intros derived. cbn. by destruct derived, (_ && _). }
    intros d1 H1. rewrite <- H1. apply noSend_bind; [spare|]. intros [[stored|]|e]; [|done..].
    destruct (IsTerminalApplyState _).
    { apply noSend_bind; [apply noSend_completeAll|]. done. }
    unfold settleProgress, writeDerived. destruct (applyQuiesceDecision _) as [[[|] rp] stamp].
    + apply noSend_bind; [spare|]. intros r. destruct (bool_decide _); [done|].
      apply noSend_bind; [apply noSend_completeAll|]. done.
    + apply noSend_bind; [spare|]. intros r. destruct (bool_decide _); [done|]. cbn. by destruct (_ || _).
Qed.
End Stop.
End Kind.

(** ** Kinds of changes *)

(** A kind that only has changes handed over to the engine. *)
Class ApplyKind (bad : engineCall -> bool) : Prop := {
  apply_kind_volume : forall req, bad (CallVolume req) = false;
  apply_kind_control : forall op req, bad (CallControl op req) = false;
}.

#[global] Instance apply_kind bad : ApplyKind bad -> Kind bad.
Proof. intros [? ?]. split; auto. Qed.

Section ApplyKind.
Context (bad : engineCall -> bool) `{!ApplyKind bad}.
Context (E : EngineNames) (foundRows hasOptions : bool) (clockNow : Z) (ctx : leaseCtx) (cfg : clientConfig).
Context (errText : StoreErr -> string) (unmarshalVolume parseDuration : string -> option Z) (revertWindowMetadata : string).
Context (psMetadata : string -> option psMeta) (mergeRevertExpiry : string -> Z -> res string).
Context (newTaskIdentifier : TaskRec -> string -> string).

Abbreviation noSend := (keepsView (sent bad) (fun _ => True)).

Lemma noSend_control_command {A} op req (f : engineView -> eres A) :
  noSend (fun _ => True) (commandEngine (CallControl op req) f).
Proof. apply noSend_command, apply_kind_control. Qed.

Lemma noSend_gCommand creds op d : noSend (fun _ => True) (command creds op d).
Proof. apply noSend_bind; [apply noSend_control_command|done]. Qed.

Lemma noSend_revert clock creds options p d :
  noSend (fun d' => a_ID (gd_Apply d') = a_ID (gd_Apply d))
    (tickRevert foundRows ctx parseDuration revertWindowMetadata psMetadata clock creds options p d).
Proof.
  assert (forall b p', noSend (fun _ => True) p' -> noSend (fun _ => True) (when b p')) as Hwhen by by intros [].
  assert (forall a, noSend (fun _ => True) (markRevertSkipped clock a)) as Hmark.
  { intros a. apply noSend_bind; [apply noSend_onStore|done]. }
  unfold tickRevert. eapply keepsView_bind.
  { instantiate (1 := fun d' => a_ID (gd_Apply d') = a_ID (gd_Apply d)). unfold autoSkipRevert. destruct (_ && _ && _); [|done].
    apply noSend_bind; [apply noSend_gCommand|]. intros ok. apply noSend_bind; [by apply Hwhen|done]. }
  intros d1 H1. eapply keepsView_bind.
  { instantiate (1 := fun d' => a_ID (gd_Apply d') = a_ID (gd_Apply d)). unfold serveSkipRevert. destruct (_ && _); [|done].
    apply noSend_bind; [apply noSend_onStore|]. intros [[r|]|e]; [|done..]. apply noSend_bind; [apply noSend_gCommand|].
    intros [|]; [|done]. apply noSend_bind; [apply Hmark|]. intros _. apply noSend_bind; [apply noSend_complete|]. done. }
  intros d2 H2. apply noSend_bind.
  { unfold serveRevert. destruct (_ && _); [|done]. apply noSend_bind; [apply noSend_onStore|]. intros [[r|]|e]; [|done..].
    apply noSend_bind; [apply noSend_gCommand|]. intros [|]; [|done]. apply noSend_bind; [apply noSend_complete|]. done. }
  intros reverted. unfold expireRevert. destruct (_ && _); [|done].
  apply noSend_bind; [apply noSend_gCommand|]. intros ok. apply noSend_bind; [by apply Hwhen|]. done.
Qed.

Lemma noSend_tick clock creds options release d :
  noSend (fun _ => True)
    (handleAtomicProgressTick E foundRows hasOptions ctx cfg errText unmarshalVolume parseDuration revertWindowMetadata
       psMetadata mergeRevertExpiry newTaskIdentifier clock creds options release d).
Proof.
  assert (forall id (p : prog plane tick) k, noSend (tickOf id) p -> (forall d, noSend (fun _ => True) (k d)) ->
            noSend (fun _ => True) (andNext p k)) as Hnext.
  { intros id p k Hp Hk. eapply keepsView_bind; [exact Hp|]. by intros [d'|d'] _. }
  assert (forall id (p : prog plane tick), noSend (tickOf id) p -> noSend (fun _ => True) p) as Hany.
  { intros id p. by apply keepsView_weaken. }
  eapply Hnext; [apply noSend_tickStop, _|]. intros d1.
  apply noSend_bind; [apply noSend_ask|]. intros [p|e]; [|eapply Hany, noSend_progressFailed].
  eapply Hnext; [apply noSend_adopt|]. intros d2. cbv zeta. apply noSend_bind; [apply noSend_sync|]. intros ts.
  eapply Hnext; [apply noSend_tickStop, _|]. intros d3. eapply Hnext; [apply noSend_tickRequests, _|]. intros d4.
  apply noSend_bind; [apply noSend_waiting, _|]. intros _. eapply keepsView_bind; [apply noSend_revert|]. intros d5 _.
  eapply Hany, noSend_settle.
Qed.

Lemma noSend_poll clocks context creds options release d :
  noSend (fun _ => True)
    (pollForCompletionAtomic E foundRows hasOptions ctx cfg errText unmarshalVolume parseDuration revertWindowMetadata
       psMetadata mergeRevertExpiry newTaskIdentifier clocks context creds options release d).
Proof.
  revert d. induction clocks as [|clock clocks IH]; intros d; cbn [pollForCompletionAtomic]; [done|].
  apply noSend_bind; [apply noSend_cancelled|]. intros [|]; [done|].
  apply noSend_bind; [apply noSend_tick|]. intros [d'|d']; [done|apply IH].
Qed.

(** ** The parts of a resume *)

Lemma noSend_plan database files : noSend (fun _ => True) (planWithEngine cfg database files).
Proof.
  assert (forall db fs creds, noSend (fun _ => True) (planNamespaceWithEngine db fs creds)) as Hone.
  { intros db fs creds. apply noSend_bind; [apply noSend_ask|done]. }
  assert (forall nss, noSend (fun _ => True) (planNamespaces cfg files nss)) as Hall.
  { induction nss as [|ns nss IH]; cbn [planNamespaces]; [done|].
    destruct (credentialsForMySQLNamespace cfg ns); [|done]. apply noSend_bind; [apply Hone|]. intros [cs|e]; [|done].
    apply noSend_bind; [exact IH|done]. }
  unfold planWithEngine, planMySQLNamespacesWithEngine. repeat case_match; try done; first [apply Hone|apply Hall].
Qed.

Lemma noSend_callbacks tasks apply events : noSend (fun _ => True) (engineCallbacks foundRows hasOptions ctx clockNow false tasks apply events).
Proof.
  revert apply. induction events as [|[st|[rs|]] events IH]; intros apply; cbn [engineCallbacks]; [done|..].
  - apply noSend_bind; [done|]. intros a. apply IH.
  - apply noSend_bind; [apply noSend_save|]. intros _. apply IH.
  - apply IH.
Qed.

Lemma noSend_callbacks_events tasks apply events :
  noSend (fun _ => True) (engineCallbacks foundRows hasOptions ctx clockNow true tasks apply events).
Proof.
  revert apply. induction events as [|[st|[rs|]] events IH]; intros apply; cbn [engineCallbacks]; [done|..].
  - apply noSend_bind; [|intros a; apply IH]. unfold applyEventStateTransition. destruct (_ || _); [done|].
    apply noSend_bind; [apply noSend_onStore|done].
  - apply noSend_bind; [apply noSend_save|]. intros _. apply IH.
  - apply IH.
Qed.

Lemma noSend_engineApply onEvent tasks apply req :
  bad (CallApply req) = false -> noSend (fun _ => True) (engineApply foundRows hasOptions ctx clockNow onEvent tasks apply req).
Proof.
  intros Hreq. apply noSend_bind; [by apply noSend_command|]. intros [[events result]|e]; [|done].
  apply noSend_bind; [|done]. destruct onEvent; [apply noSend_callbacks_events|apply noSend_callbacks].
Qed.

Lemma noSend_failTasks apply tasks message :
  noSend (fun _ => True) (failApplyWithTasks foundRows hasOptions clockNow ctx apply tasks message).
Proof.
  apply noSend_bind; [apply noSend_eachTask; intros t; apply noSend_failOpen|]. intros ts.
  apply noSend_bind; [apply noSend_settleApply|done].
Qed.

Lemma noSend_pauseTasks apply tasks message :
  noSend (fun _ => True) (markApplyRetryableWithTasks foundRows hasOptions clockNow ctx apply tasks message).
Proof.
  apply noSend_bind; [apply noSend_eachTask; intros t; apply noSend_failOpen|]. intros ts.
  apply noSend_bind; [apply noSend_settleApply|done].
Qed.

Lemma noSend_markRunning tasks : noSend (fun _ => True) (markTasksRunning foundRows clockNow ctx tasks).
Proof. apply noSend_eachTask. intros t. apply noSend_transition. Qed.

Lemma noSend_markFailed task message : noSend (fun _ => True) (markTaskFailed foundRows clockNow ctx task message).
Proof. apply noSend_transition. Qed.

Lemma noSend_markRetryable task message : noSend (fun _ => True) (markTaskRetryable foundRows clockNow ctx task message).
Proof. apply noSend_transition. Qed.

Lemma noSend_pollFailed apply task errors e : noSend (fun _ => True) (pollFailed foundRows clockNow ctx cfg apply task errors e).
Proof.
  unfold pollFailed. destruct (ee_Permanent e); [apply noSend_bind; [apply noSend_markFailed|done]|].
  destruct (_ <=? _)%nat; [|done]. apply noSend_bind; [|done].
  destruct (shouldRetryEngineError cfg e); [apply noSend_markRetryable|apply noSend_markFailed].
Qed.

Lemma noSend_pollTick context creds rs errors task apply :
  noSend (fun _ => True)
    (pollTick E foundRows hasOptions clockNow ctx cfg errText unmarshalVolume context creds rs errors task apply).
Proof.
  apply noSend_bind; [apply noSend_cancelled|]. intros [|]; [done|].
  eapply keepsView_bind; [apply (noSend_cancelOrStop bad)|]. intros stop _. destruct (hr_Err stop); [done|].
  destruct (hr_Handled stop); [done|].
  eapply keepsView_bind; [apply (noSend_cutover bad)|]. intros [a [e|]] _; [done|].
  eapply keepsView_bind; [apply (noSend_volume bad)|]. intros [a' v] _. destruct (bool_decide _); [done|].
  apply noSend_bind; [apply noSend_onStore|]. intros fresh.
  destruct fresh as [[t|]|e]; [destruct (IsTerminalTaskState _); [done|]|..].
  all: apply noSend_bind; [apply noSend_ask|]; intros [p|e']; [|apply noSend_pollFailed].
  all: cbv zeta; destruct (EngineState_IsTerminal _); (apply noSend_bind; [apply noSend_transition|done]).
Qed.

Lemma noSend_pollTask context fuel creds rs errors task apply :
  noSend (fun _ => True)
    (pollTaskToCompletion E foundRows hasOptions clockNow ctx cfg errText unmarshalVolume context fuel creds rs errors task apply).
Proof.
  revert errors task apply. induction fuel as [|fuel IH]; intros errors task apply; cbn [pollTaskToCompletion]; [done|].
  apply noSend_bind; [apply noSend_pollTick|]. intros [[[errors' task'] apply']|o]; [apply IH|done].
Qed.

Lemma noSend_checkReady context task : noSend (fun _ => True) (checkTaskReady E context task).
Proof. apply noSend_bind; [apply noSend_cancelled|]. intros [|]; [done|]. apply noSend_bind; [apply noSend_onStore|done]. Qed.

Lemma noSend_finalize apply tasks failedTask stopped :
  noSend (fun _ => True) (finalizeSequentialApply foundRows hasOptions clockNow ctx apply tasks failedTask stopped).
Proof.
  apply noSend_bind; [apply noSend_onStore|]. intros [stored|e]; [|done]. destruct (match stored with Some _ => _ | None => _ end).
  { apply noSend_bind; [apply noSend_completeAll|done]. }
  cbv zeta. apply noSend_bind.
  { destruct (match failedTask with Some _ => _ | None => _ end); [|done]. apply noSend_eachTask. intros t. unfold cancelIfPending.
    destruct (_ == _); [apply noSend_transition|done]. }
  intros ts. apply noSend_bind; [apply noSend_onStore|]. intros _.
  apply noSend_bind; [destruct (IsTerminalApplyState _); [apply noSend_completeAll|done]|done].
Qed.

Lemma noSend_orReturn {A} (p : prog plane (res A)) k :
  noSend (fun _ => True) p -> (forall a, noSend (fun _ => True) (k a)) -> noSend (fun _ => True) (orReturn p k).
Proof. intros Hp Hk. apply noSend_bind; [exact Hp|]. by intros []. Qed.

Lemma noSend_contextEnd outer : noSend (fun _ => True) (contextEnd outer).
Proof. apply noSend_bind; [apply noSend_cancelled|]. by intros []. Qed.

Lemma noSend_underCancel {R} context (p : prog plane R) (Q : R -> Prop) : noSend Q p -> noSend Q (underCancel context p).
Proof.
  intros Hp. apply noSend_bind; [by split|]. intros g. eapply keepsView_bind; [exact Hp|]. intros r Hr.
  apply noSend_bind; [|by intros _]. split; [|done]. intros w _. cbn. split; [|done]. by destruct (_ =? _).
Qed.

Lemma noSend_reattachStates apply tasks startRequested :
  noSend (fun _ => True) (persistReattachedResumeStates foundRows hasOptions clockNow ctx apply tasks startRequested).
Proof.
  apply noSend_bind.
  { apply noSend_eachTask. intros t. destruct (taskInRevertPhase t); [done|apply noSend_transition]. }
  intros ts. cbv zeta. destruct (suppressParentApplyWrites ctx); [done|]. apply noSend_bind; [apply noSend_onStore|].
  intros [u|e]; [|done]. destruct startRequested; [|done]. apply noSend_bind; [apply noSend_complete|done].
Qed.

Lemma noSend_resumeState apply tasks : noSend (fun _ => True) (groupedResumeState cfg errText apply tasks).
Proof.
  apply noSend_bind.
  { unfold applyOperationIDForApplyTasks. destruct tasks; [|done]. apply noSend_bind; [apply noSend_onStore|by intros []]. }
  intros [id|e]; [|done]. apply noSend_bind; [|done]. apply noSend_bind; [apply noSend_onStore|by intros []].
Qed.

Lemma noSend_launched outer startRequested r :
  noSend (fun _ => True) (launched foundRows hasOptions clockNow ctx cfg errText outer startRequested r).
Proof.
  assert (forall a ts e, noSend (fun _ => True)
    (handleGroupedResumeFailure foundRows hasOptions clockNow ctx cfg errText a ts e startRequested)) as Hfail.
  { intros a ts e. unfold handleGroupedResumeFailure. destruct (shouldRetryEngineError _ _).
    - apply noSend_bind; [apply noSend_pauseTasks|done].
    - apply noSend_bind; [apply noSend_failTasks|]. intros [a' ts']. destruct startRequested; [|done].
      apply noSend_orReturn; [apply noSend_fail|done]. }
  destruct r as [e a ts| |]; [|apply noSend_contextEnd|done]. destruct e; first [apply Hfail|done].
Qed.

Lemma noSend_startRequest clocks outer apply options release :
  noSend (fun _ => True)
    (processPendingStartControlRequest E foundRows hasOptions clockNow ctx cfg errText unmarshalVolume parseDuration
       revertWindowMetadata psMetadata mergeRevertExpiry newTaskIdentifier clocks outer apply options release).
Proof.
  apply noSend_bind; [apply noSend_onStore|]. intros [[req|]|e]; [|done..].
  apply noSend_bind; [apply noSend_onStore|]. intros [[stop|]|e]; [done| |done].
  destruct (negb _); [done|]. apply noSend_bind.
  { apply noSend_bind; [apply noSend_onStore|]. intros [[|t ts]|e]; [done| |done].
    destruct (negb _); [done|]. destruct (credentialsForTask cfg t); [|done].
    apply noSend_bind; [apply noSend_build|]. intros [r|e]; [|done]. apply noSend_bind; [apply noSend_control_command|done]. }
  intros [[[ts creds] rs]|e].
  - apply noSend_bind; [|done]. apply noSend_orReturn; [apply noSend_onStore|]. intros _.
    apply noSend_orReturn; [apply noSend_complete|]. intros _. apply noSend_bind; [apply noSend_poll|].
    intros [d|]; [apply noSend_contextEnd|done].
  - apply noSend_bind; [|done]. apply noSend_orReturn; [apply noSend_fail|done].
Qed.

Lemma noSend_failResume apply tasks message : noSend (fun _ => True) (failResume foundRows hasOptions clockNow ctx apply tasks message).
Proof. apply noSend_bind; [apply noSend_failTasks|done]. Qed.
End ApplyKind.
