(* ===== verification/Remote.v ===== *)
(** * The gRPC client (tern/grpc_client.go)

    A deployment may run its data plane elsewhere.  The control plane then keeps the
    apply, its operations and tasks in its own store, and a [GRPCClient] drives them:
    it dispatches the work to the remote data plane, remembers the identifier that the
    remote gave it, forwards stops, starts, cutovers and reverts, and polls for
    progress, which it copies into the stored rows until the remote apply has ended.
    A drive is for a whole apply or for one operation of an apply with several; the
    latter leaves the apply's own row to the operator's projection.

    Each function takes the apply as the drive holds it, and returns it as it is
    afterwards ([remoteDrive]).  [planRow] is the plan table, [sha256hex] the hash of
    the idempotency key, [displayBlob] the encoder of the metadata for display (JSON),
    [remoteText] and [driveText] the texts of errors and [newTaskIdentifier] names the
    rows of shards.  Polling is followed over a list of events of its select statement.
    Observers, logs and metrics are left out. *)

From S2P Require Import Prelude GoStrings State Convert Sql Store Operations Applies Control Projection Fencing Tasks Plane Fanout Stopping LocalControl Sequential Conflict Grouped Resume.

Local Open Scope string_scope.
Local Open Scope Z_scope.

(** ** Errors of remote calls *)

Definition status_Code (err : remoteErr) : grpcCode :=
  match err with statusErr code _ => code | contextErr _ | plainErr _ => codes_Unknown end.

(** [strings.Contains(s, part)] *)
Definition containsText (part s : string) : bool := match String.index 0 part s with Some _ => true | None => false end.

Definition IsTransientTransportError (err : engineErr) : bool :=
  existsb (fun part => containsText part (ee_Message err))
    ["connection refused"; "connection reset"; "i/o timeout"; "context deadline exceeded"; "Too many requests"].

Definition isAmbiguousRemoteApplyDispatchError (err : remoteErr) : bool :=
  match err with
  | contextErr _ => true
  | _ => bool_decide (status_Code err = codes_Canceled) || bool_decide (status_Code err = codes_DeadlineExceeded)
  end.

Definition isRetryableRemoteApplyError (err : remoteErr) : bool :=
  if isAmbiguousRemoteApplyDispatchError err then false else
  match err with
  | statusErr code _ =>
      match code with
      | codes_Internal | codes_Unknown | codes_Unavailable | codes_ResourceExhausted | codes_Aborted => true
      | _ => false
      end
  | contextErr _ => false
  | plainErr e => if IsTransientTransportError e then true else IsRetryable e
  end.

Definition isTerminalRemoteProgressError (err : remoteErr) : bool :=
  match err with
  | statusErr code _ =>
      match code with
      | codes_InvalidArgument | codes_AlreadyExists | codes_PermissionDenied | codes_Unauthenticated
      | codes_FailedPrecondition | codes_OutOfRange | codes_Unimplemented | codes_DataLoss => true
      | _ => false
      end
  | _ => false
  end.

(** What a drive returns to the operator. *)
Inductive remoteDriveErr :=
| remoteFailed (message : string)
| remoteStore (e : StoreErr)
| remoteCallFailed (e : remoteErr)
| remoteNoTasks
| leasePresumedLost (e : StoreErr)
| driveContextDone.

Abbreviation dres A := (result remoteDriveErr A).

(** A storage call. *)
Definition storedCall {A} (p : prog plane (res A)) : prog plane (dres A) :=
  let! r := p in Ret match r with Ok a => Ok a | Err e => Err (remoteStore e) end.

(** ** The scope of a drive *)

Record applyTaskScope := {
  sc_applyOperationID : Z;
  sc_operation : option ApplyOperation;
  sc_multiOperation : bool;
}.

Record remoteDrive := { rd_Apply : Apply; rd_Scope : applyTaskScope }.

Definition set_rd_Apply (a : Apply) (d : remoteDrive) : remoteDrive := {| rd_Apply := a; rd_Scope := rd_Scope d |}.

Definition set_sc_operation (op : ApplyOperation) (d : remoteDrive) : remoteDrive :=
  {| rd_Apply := rd_Apply d;
     rd_Scope := {| sc_applyOperationID := sc_applyOperationID (rd_Scope d); sc_operation := Some op;
                    sc_multiOperation := sc_multiOperation (rd_Scope d) |} |}.

Definition wholeApplyTaskScope : applyTaskScope :=
  {| sc_applyOperationID := 0; sc_operation := None; sc_multiOperation := false |}.

Definition isOperationScoped (s : applyTaskScope) : bool := 0 <? sc_applyOperationID s.

(** The operation whose row holds the remote identifier, for a drive of one operation
    of several. *)
Definition operationResume (s : applyTaskScope) : option ApplyOperation :=
  if sc_multiOperation s then sc_operation s else None.

Definition usesOperationRemoteResume (s : applyTaskScope) : bool :=
  match operationResume s with Some _ => true | None => false end.

Definition suppressesDirectParentApplyWrites (s : applyTaskScope) : bool := usesOperationRemoteResume s.

Definition finalizerOperationScope (s : applyTaskScope) : bool :=
  match operationResume s with
  | Some op => op_OperationKind op == ApplyOperationKindGroupFinalizer
  | None => false
  end.

(** The identifier on an operation row. *)
Definition rowRemoteID (op : ApplyOperation) : string :=
  let externalID := default "" (op_ExternalID op) in
  if externalID != "" then externalID else default "" (op_EngineResumeContext op).

Definition remoteApplyID (d : remoteDrive) : string :=
  match operationResume (rd_Scope d) with Some op => rowRemoteID op | None => a_ExternalID (rd_Apply d) end.

Definition dispatchState (d : remoteDrive) : string :=
  match operationResume (rd_Scope d) with Some op => op_State op | None => a_State (rd_Apply d) end.

Definition shouldDispatchQueuedRemoteApply (d : remoteDrive) : bool :=
  if remoteApplyID d != "" then false else
  if IsState (dispatchState d) [Apply.Pending; Apply.FailedRetryable] then true else
  usesOperationRemoteResume (rd_Scope d) && IsState (dispatchState d) [Apply.Running].

Definition hasAmbiguousRemoteDispatchState (d : remoteDrive) : bool :=
  (remoteApplyID d == "") && negb (IsTerminalApplyState (dispatchState d)) && negb (shouldDispatchQueuedRemoteApply d).

(** [strings.Join(parts, "\x00")] of the key's parts. *)
Definition NUL : string := String "000" "".

Definition idempotencyParts (d : remoteDrive) : list string :=
  ["schemabot-remote-apply-v1"; a_ApplyIdentifier (rd_Apply d)] ++
  match operationResume (rd_Scope d) with
  | Some op => ["operation"; op_Deployment op; op_OperationKey op; Itoa (op_Attempt op)]
  | None => ["whole"; Itoa (a_Attempt (rd_Apply d))]
  end.

(** ** Remote states *)

Definition remoteProgressErrorMessage (applyState remoteErrorMessage existingErrorMessage : string) : string :=
  if IsState applyState [Apply.Failed; Apply.FailedRetryable]
  then (if remoteErrorMessage == "" then existingErrorMessage else remoteErrorMessage)
  else "".

Definition terminalTaskStateForApply (applyState : string) : option string :=
  if IsState applyState [Apply.Completed] then Some Task.Completed
  else if IsState applyState [Apply.Stopped] then Some Task.Stopped
  else if IsState applyState [Apply.Failed] then Some Task.Failed
  else if IsState applyState [Apply.Cancelled] then Some Task.Cancelled
  else if IsState applyState [Apply.Reverted] then Some Task.Reverted
  else None.

Definition storedTaskResolvedForTerminalRemoteApply (remoteApplyState storedTaskState : string) : bool :=
  if IsTerminalTaskState storedTaskState then true
  else IsState remoteApplyState [Apply.Stopped] && IsState storedTaskState [Task.Stopped].

Definition applyProgressRank (applyState : string) : Z :=
  if applyState == Apply.Pending then 0
  else if applyState == Apply.PreparingBranch then 1
  else if applyState == Apply.ApplyingBranchChanges then 2
  else if applyState == Apply.ValidatingBranch then 3
  else if applyState == Apply.CreatingDeployRequest then 4
  else if applyState == Apply.ValidatingDeployRequest then 5
  else if applyState == Apply.WaitingForDeploy then 6
  else if applyState == Apply.Running then 7
  else if applyState == Apply.WaitingForCutover then 8
  else if applyState == Apply.CuttingOver then 9
  else if applyState == Apply.RevertWindow then 10
  else if applyState == Apply.SkippingRevert then 11
  else if applyState == Apply.Reverting then 12
  else 0.

Definition applyStateFromRemoteProgress (storedApplyState remoteApplyState : string) (allowStoppedStoredApply : bool) : string :=
  if remoteApplyState == "" then storedApplyState
  else if IsTerminalApplyState remoteApplyState then remoteApplyState
  else if allowStoppedStoredApply && IsState storedApplyState [Apply.Stopped] then remoteApplyState
  else if IsTerminalApplyState storedApplyState then storedApplyState
  else if IsState storedApplyState [Apply.FailedRetryable] then storedApplyState
  else if applyProgressRank remoteApplyState <? applyProgressRank storedApplyState then storedApplyState
  else remoteApplyState.

Definition storedTerminalApplyBlocksRemoteTransition (storedApply : Apply) (allowStoppedStoredApply : bool) : bool :=
  if negb (IsTerminalApplyState (a_State storedApply)) then false
  else if allowStoppedStoredApply && IsState (a_State storedApply) [Apply.Stopped] then false
  else true.

Definition storedStoppedApplyCanAdoptRemoteTerminalState (storedApply remoteApply : Apply) : bool :=
  IsState (a_State storedApply) [Apply.Stopped] && negb (IsState (a_State remoteApply) [Apply.Stopped]).

(** The stored level is kept when the remote one is unset or out of range. *)
Definition mirrorRemoteVolume (apply : Apply) (remoteVolume : Z) : Apply :=
  if remoteVolume =? 0 then apply
  else if (remoteVolume <? LocalControl.MinVolume) || (LocalControl.MaxVolume <? remoteVolume) then apply
  else set_a_Options (set_ao_Volume remoteVolume (a_Options apply)) apply.

(** [strings.Split(key, "/")] has three parts, all of them non-empty. *)
Definition isShardWorkOperationKey (key : string) : bool :=
  match splitOn "/" key with
  | [a; b; c] => (a != "") && (b != "") && (c != "")
  | _ => false
  end.

Definition taskTargetShards (tasks : list TaskRec) : list string :=
  Sort (fold_left (fun shards task =>
    if (tk_Shard task == "") || oneOf (tk_Shard task) shards then shards else (shards ++ [tk_Shard task])%list) tasks []).

(** ** Progress of the tables *)

Definition indexProtoTableProgress (tables : list ProtoTable) : gmap string ProtoTable :=
  fold_left (fun index tp => <[progressTableKey (pt_Namespace tp) (pt_TableName tp) := tp]> index) tables ∅.

Definition protoProgressForTask (index : gmap string ProtoTable) (task : TaskRec) : option ProtoTable :=
  index !! progressTableKey (tk_Namespace task) (tk_TableName task).

Definition remoteTaskOmittedRowTotals (storedTask : TaskRec) (remoteTask : ProtoTable) : bool :=
  (0 <? tp_RowsTotal (tk_Progress storedTask)) && (tp_RowsTotal (pt_Progress remoteTask) <=? 0).

(** A product of two int64 values. *)
Definition int64 (z : Z) : Z := (z + 2 ^ 63) mod 2 ^ 64 - 2 ^ 63.

Definition shardPercent (sh : ProtoShard) : Z :=
  if 0 <? ph_RowsTotal sh then Z.min (Z.quot (int64 (ph_RowsCopied sh * 100)) (ph_RowsTotal sh)) 100 else 0.

Section Rows.
Context (E : EngineNames) (foundRows hasOptions : bool) (ctx : leaseCtx) (newTaskIdentifier : TaskRec -> string -> string).

(** *** Loading *)

Definition getApply (id : Z) : prog plane (dres (option Apply)) := storedCall (readStore (findApply id)).

Definition loadApplyTasks (apply : Apply) (scope : applyTaskScope) : prog plane (dres (list TaskRec)) :=
  if isOperationScoped scope then
    try! tasks := storedCall (readStore (GetByApplyOperationID E (sc_applyOperationID scope))) in
    Ret (if forallb (fun t => tk_ApplyID t =? a_ID apply) tasks then Ok tasks
         else Err (remoteFailed "apply_operation task belongs to another apply"))
  else storedCall (readStore (GetByApplyID E (a_ID apply))).

Definition loadOperationApplyTaskScope (apply : Apply) (applyOperationID : Z) : prog plane (dres applyTaskScope) :=
  try! operation := storedCall (readStore (findOperation applyOperationID)) in
  match operation with
  | None => Ret (Err (remoteFailed "apply_operation not found"))
  | Some operation =>
      if negb (op_ApplyID operation =? a_ID apply) then Ret (Err (remoteFailed "apply_operation belongs to another apply"))
      else if op_Deployment operation == "" then Ret (Err (remoteFailed "apply_operation has no deployment"))
      else if (a_Deployment apply != "") && (a_Deployment apply != op_Deployment operation)
      then Ret (Err (remoteFailed "apply deployment does not match apply_operation deployment"))
      else
      try! ops := storedCall (readStore (ListByApply (a_ID apply))) in
      Ret (if negb (existsb (fun op => op_ID op =? applyOperationID) ops)
           then Err (remoteFailed "apply_operation is not part of the apply's operation set")
           else Ok {| sc_applyOperationID := applyOperationID; sc_operation := Some operation;
                      sc_multiOperation := (1 <? length ops)%nat |})
  end.

(** *** The remote identifier *)

(** The drive with the identifiers it stored.  The row is dereferenced without a check
    for nil. *)
Definition persistRemoteApplyID (d : remoteDrive) (remoteID remoteOperationID : string) : prog plane (dres remoteDrive) :=
  let apply := rd_Apply d in
  if remoteID == "" then Ret (Err (remoteFailed "refusing to persist empty remote apply id")) else
  match operationResume (rd_Scope d) with
  | None => Ret (Ok (set_rd_Apply (set_a_ExternalID remoteID apply) d))
  | Some op =>
      try! current := storedCall (readStore (findOperation (op_ID op))) in
      match current with
      | None => Ret (Err (remoteFailed "nil pointer dereference"))
      | Some current =>
          let externalOperationID := default "" (op_ExternalOperationID current) in
          if negb (op_ApplyID current =? a_ID apply)
          then Ret (Err (remoteFailed "apply_operation belongs to another apply"))
          else if (rowRemoteID current != "") && (rowRemoteID current != remoteID)
          then Ret (Err (remoteFailed "apply_operation already has another remote apply id"))
          else if (remoteOperationID != "") && (externalOperationID != "") && (externalOperationID != remoteOperationID)
          then Ret (Err (remoteFailed "apply_operation already has another remote apply_operation id"))
          else
          try! _ := storedCall (onStore (SaveExternalID foundRows ctx (op_ID op) remoteID)) in
          let op := set_op_ExternalID (Some remoteID) op in
          if remoteOperationID != "" then
            try! _ := storedCall (onStore (SaveExternalOperationID foundRows ctx (op_ID op) remoteOperationID)) in
            Ret (Ok (set_sc_operation (set_op_ExternalOperationID (Some remoteOperationID) op) d))
          else Ret (Ok (set_sc_operation op d))
      end
  end.

(** *** Writes of the apply's row *)

(** Nothing for a drive of one operation of several. *)
Definition persistParentApply (d : remoteDrive) : prog plane (dres unit) :=
  if suppressesDirectParentApplyWrites (rd_Scope d) then Ret (Ok tt)
  else storedCall (updateApply hasOptions ctx (rd_Apply d)).

Definition completeRequest (apply : Apply) (operation : string) : prog plane (dres unit) :=
  storedCall (completePendingControlRequests foundRows ctx apply operation).

Definition failRequest (apply : Apply) (operation message : string) : prog plane (dres unit) :=
  storedCall (failPendingControlRequests foundRows ctx apply operation message).

Definition pendingRequest (apply : Apply) (operation : string) : prog plane (dres (option ApplyControlRequest)) :=
  storedCall (pendingControlRequest apply operation).

Definition completeApplyStartRequestForScope (d : remoteDrive) : prog plane (dres unit) :=
  if usesOperationRemoteResume (rd_Scope d) then Ret (Ok tt) else completeRequest (rd_Apply d) ControlOperationStart.

Definition heartbeatScopedDrive (d : remoteDrive) : prog plane (res unit) :=
  if suppressesDirectParentApplyWrites (rd_Scope d)
  then onStore (Operations.Heartbeat foundRows ctx (sc_applyOperationID (rd_Scope d)))
  else onStore (Applies.Heartbeat foundRows ctx (a_ID (rd_Apply d))).

Definition driveEndingHeartbeatFailure (hbErr : StoreErr) (lastSuccess clock : Z) : option remoteDriveErr :=
  if bool_decide (hbErr = ErrApplyLeaseLost) then Some (remoteStore hbErr)
  else if ApplyLeaseStaleAfter <=? clock - lastSuccess then Some (leasePresumedLost hbErr)
  else None.

(** *** Display metadata *)

Definition operationForDisplayMirror (d : remoteDrive) : prog plane (dres (option ApplyOperation)) :=
  if 0 <? sc_applyOperationID (rd_Scope d)
  then storedCall (readStore (findOperation (sc_applyOperationID (rd_Scope d))))
  else
  try! ops := storedCall (readStore (ListByApply (a_ID (rd_Apply d)))) in
  Ret match ops with
      | [op] => Ok (Some op)
      | _ => Err (remoteFailed "need an operation scope to mirror display metadata")
      end.

Context (displayBlob : gmap string string -> res string).

(** The blob that was stored last. *)
Definition mirrorRemoteDisplayMetadata (d : remoteDrive) (md : gmap string string) (lastBlob : string) : prog plane string :=
  if a_Engine (rd_Apply d) != "planetscale" then Ret lastBlob else
  match displayBlob md with
  | Err _ => Ret lastBlob
  | Ok blob =>
      if (blob == "") || (blob == lastBlob) then Ret lastBlob else
      let! op := operationForDisplayMirror d in
      match op with
      | Ok (Some op) =>
          let! saved := onStore (SaveEngineResumeState foundRows ctx (op_ID op)
            (Some {| rs_ApplyOperationID := op_ID op; MigrationContext := default "" (op_EngineResumeContext op);
                     Metadata := blob |})) in
          Ret match saved with Ok _ => blob | Err _ => lastBlob end
      | _ => Ret lastBlob
      end
  end.

(** *** Tasks *)

(** [for _, task := range tasks] whose body may fail; the tasks as they are then. *)
Fixpoint eachOrFail (body : TaskRec -> prog plane (dres TaskRec)) (tasks : list TaskRec) : prog plane (dres (list TaskRec)) :=
  match tasks with
  | [] => Ret (Ok [])
  | task :: rest =>
      try! task := body task in
      try! rest := eachOrFail body rest in
      Ret (Ok (task :: rest))
  end.

Definition writeTask (task : TaskRec) : prog plane (dres TaskRec) :=
  try! _ := storedCall (onStore (UpdateTask foundRows ctx task)) in Ret (Ok task).

Definition shardProgressOf (sh : ProtoShard) : ShardProgress :=
  let pct := if IsState (NormalizeShardStatus E (ph_Status sh)) [Task.Completed] then 100 else shardPercent sh in
  {| sd_Shard := ph_Shard sh; sd_State := ph_Status sh;
     sd_Progress := {| tp_RowsCopied := ph_RowsCopied sh; tp_RowsTotal := ph_RowsTotal sh; tp_ProgressPercent := pct;
                       tp_ETASeconds := ph_EtaSeconds sh; tp_ChecksumRowsChecked := 0; tp_ChecksumRowsTotal := 0 |};
     sd_CutoverAttempts := ph_CutoverAttempts sh |}.

(** A lost lease ends the writes, another error skips the shard. *)
Definition syncShardProgressFromRemote (now : Z) (storedTask : TaskRec) (shards : list ProtoShard) : prog plane unit :=
  match OperationLeaseFromContext ctx, ApplyLeaseFromContext ctx with
  | None, None => Ret tt
  | _, _ =>
      if bool_decide (tk_ApplyOperationID storedTask = None) then Ret tt
      else if tk_Shard storedTask != "" then Ret tt
      else writeShards E foundRows ctx newTaskIdentifier now storedTask
             (shardProgressOf <$> List.filter (fun sh => ph_Shard sh != "") shards)
  end.

(** The task with what the remote reports of its table. *)
Definition syncedTask (now : Z) (remoteTask : ProtoTable) (storedTask : TaskRec) : TaskRec :=
  let remoteTaskState := NormalizeTaskStatus E (pt_Status remoteTask) in
  let newState := if IsState remoteTaskState [Task.Stopped] then remoteTaskState
                  else taskStateWithNoBackwardProgress E (tk_State storedTask) remoteTaskState in
  let task := set_tk_State newState storedTask in
  let task := if remoteTaskOmittedRowTotals task remoteTask then task else set_tk_Progress (pt_Progress remoteTask) task in
  let task := if IsState (tk_State task) [Task.Completed] then percentDone task else task in
  let task := match tk_CompletedAt task with
              | None => if IsTerminalTaskState (tk_State task) then set_tk_CompletedAt (Some now) task else task
              | Some _ => task
              end in
  set_tk_UpdatedAt now task.

Definition syncStoredTasksFromRemoteTasks (now : Z) (remoteTasks : list ProtoTable) (storedTasks : list TaskRec)
    : prog plane (dres (list TaskRec)) :=
  eachOrFail (fun storedTask =>
    match protoProgressForTask (indexProtoTableProgress remoteTasks) storedTask with
    | None => Ret (Ok storedTask)
    | Some remoteTask =>
        try! task := writeTask (syncedTask now remoteTask storedTask) in
        let! _ := syncShardProgressFromRemote now task (pt_Shards remoteTask) in
        Ret (Ok task)
    end) storedTasks.

Definition resolvedTask (now : Z) (terminalTaskState : string) (storedTask : TaskRec) : TaskRec :=
  let task := set_tk_State terminalTaskState storedTask in
  let task := if IsState terminalTaskState [Task.Completed] then percentDone task else task in
  let task := match tk_CompletedAt task with
              | None => if IsTerminalTaskState terminalTaskState then set_tk_CompletedAt (Some now) task else task
              | Some _ => task
              end in
  set_tk_UpdatedAt now task.

Definition reconcileStoredTasksForTerminalRemoteApply (now : Z) (remoteState : string) (storedTasks : list TaskRec)
    : prog plane (dres (list TaskRec)) :=
  match terminalTaskStateForApply remoteState with
  | None => Ret (Err (remoteFailed "remote apply state is not terminal"))
  | Some terminalTaskState =>
      eachOrFail (fun storedTask =>
        if storedTaskResolvedForTerminalRemoteApply remoteState (tk_State storedTask) then Ret (Ok storedTask)
        else writeTask (resolvedTask now terminalTaskState storedTask)) storedTasks
  end.

Definition requeueStoppedTasksForRemoteStart (d : remoteDrive) : prog plane (dres unit) :=
  try! tasks := loadApplyTasks (rd_Apply d) (rd_Scope d) in
  try! _ := eachOrFail (fun task =>
    if negb (IsState (tk_State task) [Task.Stopped]) then Ret (Ok task)
    else writeTask (set_tk_State Task.Pending (set_tk_CompletedAt None task))) tasks in
  Ret (Ok tt).

Definition prepareDispatchTasks (tasks : list TaskRec) : prog plane (dres (list TaskRec)) :=
  eachOrFail (fun task =>
    if negb (IsState (tk_State task) [Task.FailedRetryable]) then Ret (Ok task)
    else writeTask (set_tk_State Task.Pending (set_tk_ErrorMessage None (set_tk_CompletedAt None
           (set_tk_Attempt (tk_Attempt task + 1) task))))) tasks.
End Rows.

(** ** Failures and ends of the remote apply *)

Section Transitions.
Context (E : EngineNames) (foundRows hasOptions : bool) (ctx : leaseCtx) (newTaskIdentifier : TaskRec -> string -> string).
Context (now : Z).

Abbreviation complete := (completeRequest foundRows ctx).
Abbreviation pending := pendingRequest.
Abbreviation update := (updateApply hasOptions ctx).

(** [storedApplyTransitionStatus], with the stored apply. *)
Inductive transitionStatus :=
| transitionReady (storedApply : Apply)
| transitionReloadFailed (e : remoteDriveErr)
| transitionMissing
| transitionAlreadyTerminal (storedApply : Apply).

Definition reloadStoredApplyForRemoteTransition (remoteApply : Apply) (allowStoppedStoredApply : bool)
    : prog plane transitionStatus :=
  let! storedApply := getApply (a_ID remoteApply) in
  Ret match storedApply with
      | Err e => transitionReloadFailed e
      | Ok None => transitionMissing
      | Ok (Some a) => if storedTerminalApplyBlocksRemoteTransition a allowStoppedStoredApply
                       then transitionAlreadyTerminal a else transitionReady a
      end.

Definition failedTask (taskState message : string) (retryable : bool) (storedTask : TaskRec) : TaskRec :=
  set_tk_UpdatedAt now
    (set_tk_CompletedAt (if retryable then None else Some now)
      (set_tk_ErrorMessage (Some message) (set_tk_State taskState storedTask))).

Definition failedApply (applyState message : string) (retryable : bool) (storedApply : Apply) : Apply :=
  set_a_UpdatedAt now
    (set_a_CompletedAt (if retryable then None else Some now)
      (set_a_ErrorMessage message (set_a_State applyState storedApply))).

Definition markRemoteApplyFailedWithOptions (d : remoteDrive) (storedTasks : option (list TaskRec)) (message : string)
    (retryable allowStoppedStoredApply : bool) : prog plane (dres remoteDrive) :=
  let! status := reloadStoredApplyForRemoteTransition (rd_Apply d) allowStoppedStoredApply in
  match status with
  | transitionReloadFailed e => Ret (Err e)
  | transitionMissing => Ret (Ok d)
  | transitionAlreadyTerminal storedApply => Ret (Ok (set_rd_Apply storedApply d))
  | transitionReady storedApply =>
      try! tasks := match storedTasks with
                    | Some tasks => Ret (Ok tasks)
                    | None => loadApplyTasks E storedApply (rd_Scope d)
                    end in
      let taskState := if retryable then Task.FailedRetryable else Task.Failed in
      let applyState := if retryable then Apply.FailedRetryable else Apply.Failed in
      try! _ := eachOrFail (fun storedTask =>
        if IsTerminalTaskState (tk_State storedTask) then Ret (Ok storedTask)
        else writeTask foundRows ctx (failedTask taskState message retryable storedTask)) tasks in
      if suppressesDirectParentApplyWrites (rd_Scope d) then
        if finalizerOperationScope (rd_Scope d) && negb retryable then
          try! _ := storedCall (onStore (Operations.MarkFailed foundRows ctx (sc_applyOperationID (rd_Scope d)) message)) in
          Ret (Ok d)
        else Ret (Ok d)
      else
        let storedApply := failedApply applyState message retryable storedApply in
        try! _ := storedCall (update storedApply) in
        Ret (Ok (set_rd_Apply storedApply d))
  end.

Definition markRemoteApplyFailed (d : remoteDrive) (storedTasks : option (list TaskRec)) (message : string) (retryable : bool)
    : prog plane (dres remoteDrive) := markRemoteApplyFailedWithOptions d storedTasks message retryable false.

Definition markStoppedRemoteApplyFailed (d : remoteDrive) (message : string) (retryable : bool) : prog plane (dres remoteDrive) :=
  markRemoteApplyFailedWithOptions d None message retryable true.

(** The failure is recorded, and the drive fails with [cause]. *)
Definition failWithCause {A} (marked : prog plane (dres remoteDrive)) (cause : remoteDriveErr) : prog plane (dres A) :=
  try! _ := marked in Ret (Err cause).

Definition causeOr (cause : option remoteErr) (message : string) : remoteDriveErr :=
  match cause with Some e => remoteCallFailed e | None => remoteFailed message end.

Definition failMissingRemoteApply {A} (d : remoteDrive) (message : string) (cause : option remoteErr) : prog plane (dres A) :=
  failWithCause (markRemoteApplyFailed d None message false) (causeOr cause message).

Definition failMissingStoppedRemoteApply {A} (d : remoteDrive) (message : string) (cause : option remoteErr) : prog plane (dres A) :=
  failWithCause (markStoppedRemoteApplyFailed d message false) (causeOr cause message).

Definition persistFinalizerOperationTerminalState (applyOperationID : Z) (terminalState errMsg : string) : prog plane (dres unit) :=
  if IsState terminalState [Apply.Completed]
  then storedCall (onStore (Operations.MarkCompleted foundRows ctx applyOperationID))
  else if IsState terminalState [Apply.Failed]
  then storedCall (onStore (Operations.MarkFailed foundRows ctx applyOperationID errMsg))
  else Ret (Ok tt).

Definition adoptedApply (storedApply remoteApply : Apply) : Apply :=
  set_a_UpdatedAt now (set_a_CompletedAt (Some now) (set_a_StartedAt (a_StartedAt remoteApply)
    (set_a_ErrorMessage (a_ErrorMessage remoteApply) (set_a_State (a_State remoteApply) storedApply)))).

Definition persistTerminalStateFromRemote (d : remoteDrive) (storedApply : Apply) : prog plane (dres remoteDrive) :=
  let remoteApply := rd_Apply d in
  if suppressesDirectParentApplyWrites (rd_Scope d) then
    if finalizerOperationScope (rd_Scope d) then
      try! _ := persistFinalizerOperationTerminalState (sc_applyOperationID (rd_Scope d)) (a_State remoteApply)
                  (a_ErrorMessage remoteApply) in
      Ret (Ok d)
    else Ret (Ok d)
  else
    let storedApply := adoptedApply storedApply remoteApply in
    try! _ := storedCall (update storedApply) in
    try! _ := complete storedApply ControlOperationStop in
    try! _ := (if negb (IsState (a_State storedApply) [Apply.Stopped]) then complete storedApply ControlOperationStart
               else Ret (Ok tt)) in
    Ret (Ok (set_rd_Apply storedApply d)).

(** The remote apply has ended: its tasks first, then the apply. *)
Definition reconcileTerminalRemoteProgress (d : remoteDrive) (remoteTasks : list ProtoTable) : prog plane (dres remoteDrive) :=
  let! status := reloadStoredApplyForRemoteTransition (rd_Apply d) false in
  let adopt storedApply :=
    try! tasks := loadApplyTasks E storedApply (rd_Scope d) in
    try! tasks := syncStoredTasksFromRemoteTasks E foundRows ctx newTaskIdentifier now remoteTasks tasks in
    try! _ := reconcileStoredTasksForTerminalRemoteApply foundRows ctx now (a_State (rd_Apply d)) tasks in
    persistTerminalStateFromRemote d storedApply in
  match status with
  | transitionReady storedApply => adopt storedApply
  | transitionReloadFailed e => Ret (Err e)
  | transitionMissing => Ret (Ok d)
  | transitionAlreadyTerminal storedApply =>
      if storedStoppedApplyCanAdoptRemoteTerminalState storedApply (rd_Apply d) then adopt storedApply
      else if suppressesDirectParentApplyWrites (rd_Scope d) then
        try! _ := pending storedApply ControlOperationStop in Ret (Ok (set_rd_Apply storedApply d))
      else
        try! _ := complete storedApply ControlOperationStop in Ret (Ok (set_rd_Apply storedApply d))
  end.
End Transitions.

(** ** Control requests *)

Section Requests.
Context (E : EngineNames) (foundRows hasOptions : bool) (ctx : leaseCtx) (newTaskIdentifier : TaskRec -> string -> string).
Context (remoteText : remoteErr -> string) (now : Z).

Abbreviation complete := (completeRequest foundRows ctx).
Abbreviation fail := (failRequest foundRows ctx).
Abbreviation pending := pendingRequest.
Abbreviation update := (updateApply hasOptions ctx).
Abbreviation reconcileTerminal := (reconcileTerminalRemoteProgress E foundRows hasOptions ctx newTaskIdentifier now).

Definition control (op : ControlOperation) (d : remoteDrive) (remoteID : string) : prog plane (rres (option ControlResult)) :=
  commandRemote (SentControl op remoteID (a_Environment (rd_Apply d)))
    (fun v => rv_Control v op remoteID (a_Environment (rd_Apply d))).

Definition progressOf (d : remoteDrive) (remoteID : string) : prog plane (rres RemoteProgressResponse) :=
  askRemote (fun v => rv_Progress v remoteID (a_Environment (rd_Apply d))).

(** The message of a command that was not accepted, [None] when it was. *)
Definition refusal (resp : option ControlResult) : option string :=
  match resp with
  | None => Some "not accepted"
  | Some r => if cl_Accepted r then None else Some (if cl_Message r != "" then cl_Message r else "not accepted")
  end.

Definition failCutover {A} (apply : Apply) (message : string) (cause : remoteDriveErr) : prog plane (dres A) :=
  try! _ := fail apply ControlOperationCutover message in Ret (Err cause).

Definition processPendingCutoverControlRequest (d : remoteDrive) : prog plane (dres remoteDrive) :=
  let apply := rd_Apply d in
  try! controlReq := pending apply ControlOperationCutover in
  match controlReq with
  | None => Ret (Ok d)
  | Some _ =>
      if cutoverRequestResolvedByApplyState (a_State apply) then
        try! _ := complete apply ControlOperationCutover in Ret (Ok d)
      else if cutoverRequestFailedByApplyState (a_State apply) then
        let message := "cutover request was not applied because apply is " ++ a_State apply in
        failCutover apply message (remoteFailed message)
      else if IsState (a_State apply) [Apply.Recovering] then Ret (Ok d)
      else
      try! ready := storedCall (applyReadyForCutoverRequest E apply) in
      if negb ready then Ret (Ok d) else
      let remoteID := remoteApplyID d in
      if remoteID == "" then
        let message := "remote apply id is not available" in failCutover apply message (remoteFailed message)
      else
      try! stopReq := pending apply ControlOperationStop in
      match stopReq with
      | Some _ => Ret (Err (remoteFailed
                    "schema change has a pending stop request; cutover is blocked until stop is processed"))
      | None =>
          try! apply := storedCall (markApplyCuttingOverForControlRequest hasOptions now ctx apply) in
          let d := set_rd_Apply apply d in
          let! resp := control ControlCutover d remoteID in
          match resp with
          | Err e => failCutover apply ("remote cutover failed: " ++ remoteText e) (remoteCallFailed e)
          | Ok resp =>
              match refusal resp with
              | Some message => failCutover apply message (remoteFailed message)
              | None => try! _ := complete apply ControlOperationCutover in Ret (Ok d)
              end
          end
      end
  end.

(** What the owner's retry of a revert and of its skip share. *)
Definition processRevertRequest (name operation : string) (op : ControlOperation) (onAccepted : prog plane unit) (d : remoteDrive)
    (remoteID : string) : prog plane (dres unit) :=
  let apply := rd_Apply d in
  try! controlReq := pending apply operation in
  match controlReq with
  | None => Ret (Ok tt)
  | Some _ =>
      if negb (IsState (a_State apply) [Apply.RevertWindow]) then complete apply operation else
      let! resp := control op d remoteID in
      match resp with
      | Err e => Ret (Err (remoteCallFailed e))
      | Ok None => Ret (Err (remoteFailed "nil pointer dereference"))
      | Ok (Some r) =>
          if negb (cl_Accepted r) then
            fail apply operation (if cl_Message r != "" then name ++ " was not accepted: " ++ cl_Message r
                                  else name ++ " was not accepted by the data plane")
          else let! _ := onAccepted in complete apply operation
      end
  end.

Definition processPendingSkipRevertControlRequest (d : remoteDrive) (remoteID : string) : prog plane (dres unit) :=
  processRevertRequest "skip-revert" ControlOperationSkipRevert ControlSkipRevert
    (if a_Engine (rd_Apply d) == "planetscale"
     then let! _ := execStore (SetRevertSkipped (a_ID (rd_Apply d)) now) in Ret tt else Ret tt) d remoteID.

Definition processPendingRevertControlRequest (d : remoteDrive) (remoteID : string) : prog plane (dres unit) :=
  processRevertRequest "revert" ControlOperationRevert ControlRevert (Ret tt) d remoteID.

(** *** Stop and cancel *)

Definition stoppedStates (databaseType : string) : string * string :=
  if stopTerminatesChange databaseType then (Task.Cancelled, Apply.Cancelled) else (Task.Stopped, Apply.Stopped).

(** The open tasks of the drive are stopped. *)
Definition stopTasks (d : remoteDrive) (taskState : string) : prog plane (dres unit) :=
  try! tasks := loadApplyTasks E (rd_Apply d) (rd_Scope d) in
  try! _ := eachOrFail (fun task =>
    if IsTerminalTaskState (tk_State task) then Ret (Ok task)
    else writeTask foundRows ctx
           (set_tk_UpdatedAt now
             (let task := set_tk_State taskState task in
              if IsState taskState [Task.Cancelled] then set_tk_CompletedAt (Some now) task else task))) tasks in
  Ret (Ok tt).

Definition stopUndispatchedApply (d : remoteDrive) : prog plane (dres remoteDrive) :=
  let '(taskState, applyState) := stoppedStates (a_DatabaseType (rd_Apply d)) in
  try! _ := stopTasks d taskState in
  let apply := set_a_UpdatedAt now (set_a_CompletedAt (if IsState applyState [Apply.Cancelled] then Some now else None)
                 (set_a_State applyState (rd_Apply d))) in
  try! _ := storedCall (update apply) in
  Ret (Ok (set_rd_Apply apply d)).

Definition stopUndispatchedApplyOperation (d : remoteDrive) : prog plane (dres remoteDrive) :=
  match operationResume (rd_Scope d) with
  | None => Ret (Err (remoteFailed "undispatched operation stop requires multi-operation scope"))
  | Some op =>
      let '(taskState, operationState) := stoppedStates (a_DatabaseType (rd_Apply d)) in
      try! _ := stopTasks d taskState in
      let terminal := IsState operationState [Apply.Cancelled] in
      try! _ := storedCall (onStore (if terminal then MarkTerminal foundRows ctx (op_ID op) operationState
                                     else UpdateState foundRows ctx (op_ID op) operationState)) in
      Ret (Ok (set_sc_operation (set_op_UpdatedAt now (set_op_State operationState
                 (set_op_CompletedAt (if terminal then Some now else None) op))) d))
  end.

(** The apply as the remote reports it; the time it started unless it is pending. *)
Definition withRemoteState (setStarted : bool) (remoteState : string) (apply : Apply) : Apply :=
  let apply' := match a_StartedAt apply with
                | None => if setStarted && negb (IsState remoteState [Apply.Pending]) then set_a_StartedAt (Some now) apply else apply
                | Some _ => apply
                end in
  set_a_UpdatedAt now (set_a_State (applyStateFromRemoteProgress (a_State apply) remoteState false) apply').

(** The in-memory fields of the parent that an operation's drive does not own. *)
Definition restoreParent (prior : Apply) (d : remoteDrive) : remoteDrive :=
  set_rd_Apply (set_a_UpdatedAt (a_UpdatedAt prior) (set_a_StartedAt (a_StartedAt prior) (set_a_State (a_State prior) (rd_Apply d)))) d.

(** The remote has ended: the rows, and the request unless it is shared. *)
Definition settleRemoteEnd (operation : string) (setStarted : bool) (d : remoteDrive) (remoteState : string)
    (tables : list ProtoTable) : prog plane (dres (remoteDrive * bool)) :=
  let prior := rd_Apply d in
  try! d := reconcileTerminal (set_rd_Apply (withRemoteState setStarted remoteState prior) d) tables in
  if suppressesDirectParentApplyWrites (rd_Scope d) then Ret (Ok (restoreParent prior d, true)) else
  try! _ := complete (rd_Apply d) operation in
  Ret (Ok (d, true)).

(** A stop that failed although the remote has ended. *)
Definition completeRemoteStopFromTerminalProgress (d : remoteDrive) : prog plane (dres (remoteDrive * bool)) :=
  let! progress := progressOf d (remoteApplyID d) in
  match progress with
  | Err _ => Ret (Ok (d, false))
  | Ok p =>
      if negb (isTerminalProtoState (pg_State p)) then Ret (Ok (d, false)) else
      let remoteState := ProtoStateToStorage (pg_State p) in
      if remoteState == "" then Ret (Err (remoteFailed "unmapped remote state"))
      else settleRemoteEnd ControlOperationStop true d remoteState (pg_Tables p)
  end.

(** A resolved stop does not end the drive when a start is pending. *)
Definition unlessStartPending (d : remoteDrive) : prog plane (dres (remoteDrive * bool)) :=
  try! startReq := pending (rd_Apply d) ControlOperationStart in
  Ret (Ok (d, match startReq with Some _ => false | None => true end)).

(** The stored apply is resolved already: [Some] is the answer. *)
Definition stopOfResolvedApply (d : remoteDrive) : prog plane (dres (option (remoteDrive * bool))) :=
  let apply := rd_Apply d in
  if suppressesDirectParentApplyWrites (rd_Scope d) then
    try! storedApply := getApply (a_ID apply) in
    Ret match storedApply with
        | None => Err (remoteStore ErrApplyNotFound)
        | Some a => Ok (if IsTerminalApplyState (a_State a) then Some (set_rd_Apply a d, true) else None)
        end
  else
    try! completed := storedCall (completePendingStopIfStoredApplyResolved foundRows ctx apply) in
    match completed with
    | Some storedApply => try! r := unlessStartPending (set_rd_Apply storedApply d) in Ret (Ok (Some r))
    | None => Ret (Ok None)
    end.

(** The remote has accepted the stop: what it reports now. *)
Definition syncAcceptedStop (d : remoteDrive) (remoteID : string) : prog plane (dres (remoteDrive * bool)) :=
  let! progress := progressOf d remoteID in
  match progress with
  | Err e => Ret (Err (remoteCallFailed e))
  | Ok p =>
      if bool_decide (pg_State p = STATE_NO_ACTIVE_CHANGE) then Ret (Err (remoteFailed "no active schema change")) else
      let remoteState := ProtoStateToStorage (pg_State p) in
      if remoteState == "" then Ret (Err (remoteFailed "unmapped remote state")) else
      if isTerminalProtoState (pg_State p) then
        try! (d, handled) := settleRemoteEnd ControlOperationStop true d remoteState (pg_Tables p) in
        if suppressesDirectParentApplyWrites (rd_Scope d) then Ret (Ok (d, handled)) else unlessStartPending d
      else
        let d := set_rd_Apply (withRemoteState true remoteState (rd_Apply d)) d in
        try! tasks := loadApplyTasks E (rd_Apply d) (rd_Scope d) in
        try! _ := syncStoredTasksFromRemoteTasks E foundRows ctx newTaskIdentifier now (pg_Tables p) tasks in
        try! _ := persistParentApply hasOptions ctx d in
        Ret (Ok (d, false))
  end.

Definition processPendingStopControlRequest (d : remoteDrive) : prog plane (dres (remoteDrive * bool)) :=
  try! controlReq := pending (rd_Apply d) ControlOperationStop in
  match controlReq with
  | None => Ret (Ok (d, false))
  | Some _ =>
      try! resolved := stopOfResolvedApply d in
      match resolved with
      | Some r => Ret (Ok r)
      | None =>
          if IsTerminalApplyState (a_State (rd_Apply d)) then
            if suppressesDirectParentApplyWrites (rd_Scope d) then Ret (Ok (d, true)) else
            try! _ := complete (rd_Apply d) ControlOperationStop in Ret (Ok (d, true))
          else
          let remoteID := remoteApplyID d in
          if remoteID == "" then
            if usesOperationRemoteResume (rd_Scope d)
            then try! d := stopUndispatchedApplyOperation d in Ret (Ok (d, true))
            else try! d := stopUndispatchedApply d in
                 try! _ := complete (rd_Apply d) ControlOperationStop in
                 Ret (Ok (d, true))
          else
          let! resp := control ControlStop d remoteID in
          match resp with
          | Err e =>
              try! (d, completed) := completeRemoteStopFromTerminalProgress d in
              if completed : bool then Ret (Ok (d, true)) else Ret (Err (remoteCallFailed e))
          | Ok resp =>
              match refusal resp with
              | Some message => Ret (Err (remoteFailed message))
              | None => syncAcceptedStop d remoteID
              end
          end
      end
  end.

Definition processPendingCancelControlRequest (d : remoteDrive) : prog plane (dres (remoteDrive * bool)) :=
  let apply := rd_Apply d in
  try! controlReq := pending apply ControlOperationCancel in
  match controlReq with
  | None => Ret (Ok (d, false))
  | Some _ =>
      if IsTerminalApplyState (a_State apply) && negb (IsState (a_State apply) [Apply.Stopped]) then
        if suppressesDirectParentApplyWrites (rd_Scope d) then Ret (Ok (d, true)) else
        try! _ := complete apply ControlOperationCancel in Ret (Ok (d, true))
      else
      let remoteID := remoteApplyID d in
      if remoteID == "" then Ret (Err (remoteFailed "remote apply id is not available")) else
      let! resp := control ControlCancel d remoteID in
      match resp with
      | Err e => Ret (Err (remoteCallFailed e))
      | Ok resp =>
          match refusal resp with
          | Some message => Ret (Err (remoteFailed message))
          | None =>
              let! progress := progressOf d remoteID in
              match progress with
              | Err e => Ret (Err (remoteCallFailed e))
              | Ok p =>
                  if bool_decide (pg_State p = STATE_NO_ACTIVE_CHANGE) then Ret (Err (remoteFailed "no active schema change")) else
                  let remoteState := ProtoStateToStorage (pg_State p) in
                  if remoteState == "" then Ret (Err (remoteFailed "unmapped remote state")) else
                  if isTerminalProtoState (pg_State p)
                  then settleRemoteEnd ControlOperationCancel false d remoteState (pg_Tables p)
                  else
                    let d := set_rd_Apply (withRemoteState false remoteState apply) d in
                    try! _ := persistParentApply hasOptions ctx d in
                    Ret (Ok (d, false))
              end
          end
      end
  end.

Definition processPendingCancelOrStopControlRequest (d : remoteDrive) : prog plane (dres (remoteDrive * bool)) :=
  try! (d, handled) := processPendingCancelControlRequest d in
  if handled : bool then Ret (Ok (d, true)) else processPendingStopControlRequest d.
End Requests.

(** ** Polling *)

Definition maxGRPCProgressPollErrorStreak : nat := 10.
Definition grpcStoppedAfterStartGracePeriod : Z := 30.

(** The events of the select statement: the context ends, a heartbeat with its time and
    whether the context has ended meanwhile, and a poll with its time. *)
Inductive pollEvent := ContextEnded | HeartbeatTick (now : Z) (ctxEnded : bool) | ProgressTick (now : Z).

(** The variables of the loop. *)
Record pollState := {
  po_errors : nat;
  po_deadline : option Z;
  po_blob : string;
  po_lastHeartbeat : Z;
}.

Definition set_po_errors (n : nat) (s : pollState) : pollState :=
  {| po_errors := n; po_deadline := po_deadline s; po_blob := po_blob s; po_lastHeartbeat := po_lastHeartbeat s |}.
Definition set_po_lastHeartbeat (t : Z) (s : pollState) : pollState :=
  {| po_errors := po_errors s; po_deadline := po_deadline s; po_blob := po_blob s; po_lastHeartbeat := t |}.

(** A drive returned, or it goes on. *)
Inductive pollResult := pollEnded (r : dres unit) | pollOn (d : remoteDrive) (s : pollState).

Definition terminalApplyStateFromRemoteTaskProgress (E : EngineNames) (remoteTasks : list ProtoTable) : option string :=
  match remoteTasks with
  | [] => None
  | _ =>
      let states := (fun t => NormalizeTaskStatus E (pt_Status t)) <$> remoteTasks in
      if forallb IsTerminalTaskState states then
        let derived := DeriveApplyState states in
        if IsTerminalApplyState derived then Some derived else None
      else None
  end.

Section Poll.
Context (E : EngineNames) (foundRows hasOptions : bool) (ctx : leaseCtx) (newTaskIdentifier : TaskRec -> string -> string).
Context (remoteText : remoteErr -> string) (displayBlob : gmap string string -> res string).

Abbreviation serveStop := (processPendingCancelOrStopControlRequest E foundRows hasOptions ctx newTaskIdentifier).
Abbreviation serveCutover := (processPendingCutoverControlRequest E foundRows hasOptions ctx remoteText).
Abbreviation reconcileTerminal := (reconcileTerminalRemoteProgress E foundRows hasOptions ctx newTaskIdentifier).
Abbreviation markFailed := (markRemoteApplyFailed E foundRows hasOptions ctx).

(** A part of the loop body whose error ends the drive. *)
Definition orEnd {A} (p : prog plane (dres A)) (k : A -> prog plane pollResult) : prog plane pollResult :=
  let! r := p in match r with Err e => Ret (pollEnded (Err e)) | Ok a => k a end.

Definition ended {A} (p : prog plane (dres A)) : prog plane pollResult :=
  let! r := p in Ret (pollEnded match r with Ok _ => Ok tt | Err e => Err e end).

(** The requests of a tick. *)
Definition serveRequests (now : Z) (d : remoteDrive) : prog plane (dres (remoteDrive * bool)) :=
  try! (d, handled) := serveStop now d in
  if handled : bool then Ret (Ok (d, true)) else
  try! d := serveCutover now d in
  try! _ := processPendingSkipRevertControlRequest foundRows ctx now d (remoteApplyID d) in
  try! _ := processPendingRevertControlRequest foundRows ctx d (remoteApplyID d) in
  Ret (Ok (d, false)).

(** The progress could not be read. *)
Definition progressErrored (now : Z) (d : remoteDrive) (s : pollState) (remoteID : string) (e : remoteErr) : prog plane pollResult :=
  if bool_decide (status_Code e = codes_NotFound)
  then ended (A := unit) (failMissingRemoteApply E foundRows hasOptions ctx now d
                ("remote apply " ++ remoteID ++ " was not found by data plane") (Some e))
  else if isTerminalRemoteProgressError e
  then ended (A := unit) (failWithCause (markFailed now d None
                ("remote progress failed for remote apply " ++ remoteID ++ ": " ++ remoteText e) false) (remoteCallFailed e))
  else
  let errors := Datatypes.S (po_errors s) in
  if (maxGRPCProgressPollErrorStreak <=? errors)%nat
  then ended (A := unit) (failWithCause (markFailed now d None
                ("remote progress polling failed after " ++ Itoa (Z.of_nat errors) ++
                 " consecutive errors for remote apply " ++ a_ExternalID (rd_Apply d) ++ ": " ++ remoteText e) true)
                (remoteCallFailed e))
  else Ret (pollOn d (set_po_errors errors s)).

(** Still stopped after an accepted start: the drive waits for a while. *)
Definition stoppedAfterStart (now : Z) (d : remoteDrive) (s : pollState) (tables : list ProtoTable) : prog plane pollResult :=
  let deadline := default (now + grpcStoppedAfterStartGracePeriod) (po_deadline s) in
  if now <? deadline
  then Ret (pollOn d {| po_errors := po_errors s; po_deadline := Some deadline; po_blob := po_blob s;
                        po_lastHeartbeat := po_lastHeartbeat s |})
  else
  let message := "remote apply " ++ a_ExternalID (rd_Apply d) ++ " remained stopped after start grace period 30s" in
  orEnd (reconcileTerminal now (set_rd_Apply (set_a_ErrorMessage message (set_a_State Apply.Stopped (rd_Apply d))) d) tables) (fun d =>
  orEnd (failRequest foundRows ctx (rd_Apply d) ControlOperationStart message) (fun _ =>
  Ret (pollEnded (Err (remoteFailed message))))).

(** The apply with what the remote reports. *)
Definition polledApply (now : Z) (allowStoppedAfterStart : bool) (remoteState : string) (p : RemoteProgressResponse) (apply : Apply)
    : Apply :=
  let newState := applyStateFromRemoteProgress (a_State apply) remoteState allowStoppedAfterStart in
  let message := remoteProgressErrorMessage newState (pg_ErrorMessage p) (a_ErrorMessage apply) in
  mirrorRemoteVolume (set_a_UpdatedAt now (set_a_ErrorMessage message (set_a_State newState apply))) (pg_Volume p).

(** The rows with what the remote reports of an apply in a known state. *)
Definition adoptProgress (now : Z) (allowStoppedAfterStart releaseAtCutoverBarrier : bool) (remoteState : string)
    (p : RemoteProgressResponse) (d : remoteDrive) (s : pollState) : prog plane pollResult :=
  let d := set_rd_Apply (polledApply now allowStoppedAfterStart remoteState p (rd_Apply d)) d in
  if isTerminalProtoState (pg_State p) then ended (reconcileTerminal now d (pg_Tables p)) else
  orEnd (loadApplyTasks E (rd_Apply d) (rd_Scope d)) (fun tasks =>
  orEnd (syncStoredTasksFromRemoteTasks E foundRows ctx newTaskIdentifier now (pg_Tables p) tasks) (fun _ =>
  orEnd (persistParentApply hasOptions ctx d) (fun _ =>
  if releaseAtCutoverBarrier && IsState (a_State (rd_Apply d)) [Apply.WaitingForCutover]
  then Ret (pollEnded (Ok tt)) else Ret (pollOn d s)))).

(** A report of the remote. *)
Definition progressReported (now : Z) (allowStoppedAfterStart releaseAtCutoverBarrier : bool) (p : RemoteProgressResponse)
    (d : remoteDrive) (s : pollState) : prog plane pollResult :=
  let s := set_po_errors 0 s in
  if bool_decide (pg_State p = STATE_NO_ACTIVE_CHANGE)
  then ended (A := unit) (failMissingRemoteApply E foundRows hasOptions ctx now d
                ("remote apply " ++ a_ExternalID (rd_Apply d) ++ " returned no active schema change for exact apply_id") None)
  else
  let! blob := mirrorRemoteDisplayMetadata foundRows ctx displayBlob d (pg_Metadata p) (po_blob s) in
  let s := {| po_errors := po_errors s; po_deadline := po_deadline s; po_blob := blob; po_lastHeartbeat := po_lastHeartbeat s |} in
  let newState := ProtoStateToStorage (pg_State p) in
  if newState == "" then Ret (pollEnded (Err (remoteFailed "unmapped remote state"))) else
  let apply := match a_StartedAt (rd_Apply d) with
               | None => if newState != Apply.Pending then set_a_StartedAt (Some now) (rd_Apply d) else rd_Apply d
               | Some _ => rd_Apply d
               end in
  let d := set_rd_Apply apply d in
  let remoteState := if allowStoppedAfterStart && IsState newState [Apply.Stopped]
                     then default newState (terminalApplyStateFromRemoteTaskProgress E (pg_Tables p)) else newState in
  if allowStoppedAfterStart && IsState remoteState [Apply.Stopped] then stoppedAfterStart now d s (pg_Tables p)
  else adoptProgress now allowStoppedAfterStart releaseAtCutoverBarrier remoteState p d s.

Definition progressTick (now : Z) (allowStoppedAfterStart releaseAtCutoverBarrier : bool) (d : remoteDrive) (s : pollState)
    : prog plane pollResult :=
  orEnd (serveRequests now d) (fun '(d, handled) =>
  if handled : bool then Ret (pollEnded (Ok tt)) else
  let remoteID := remoteApplyID d in
  let! resp := progressOf d remoteID in
  match resp with
  | Err e => progressErrored now d s remoteID e
  | Ok p => progressReported now allowStoppedAfterStart releaseAtCutoverBarrier p d s
  end).

Definition heartbeatTick (now : Z) (ctxEnded : bool) (d : remoteDrive) (s : pollState) : prog plane pollResult :=
  let! r := heartbeatScopedDrive foundRows ctx d in
  match r with
  | Ok _ => Ret (pollOn d (set_po_lastHeartbeat now s))
  | Err e =>
      if ctxEnded then Ret (pollEnded (Err driveContextDone)) else
      Ret match driveEndingHeartbeatFailure e (po_lastHeartbeat s) now with
          | Some stopErr => pollEnded (Err stopErr)
          | None => pollOn d s
          end
  end.

(** [None] while the drive goes on. *)
Fixpoint pollLoop (events : list pollEvent) (allowStoppedAfterStart releaseAtCutoverBarrier : bool) (d : remoteDrive) (s : pollState)
    : prog plane (option (dres unit)) :=
  match events with
  | [] => Ret None
  | event :: rest =>
      let! r := match event with
                | ContextEnded => Ret (pollEnded (Err driveContextDone))
                | HeartbeatTick now ctxEnded => heartbeatTick now ctxEnded d s
                | ProgressTick now => progressTick now allowStoppedAfterStart releaseAtCutoverBarrier d s
                end in
      match r with
      | pollEnded r => Ret (Some r)
      | pollOn d s => pollLoop rest allowStoppedAfterStart releaseAtCutoverBarrier d s
      end
  end.

Definition pollForCompletion (now : Z) (events : list pollEvent) (allowStoppedAfterStart releaseAtCutoverBarrier : bool)
    (d : remoteDrive) : prog plane (option (dres unit)) :=
  pollLoop events allowStoppedAfterStart releaseAtCutoverBarrier d
    {| po_errors := 0; po_deadline := None; po_blob := ""; po_lastHeartbeat := now |}.
End Poll.

(** ** Drives *)

Section Drives.
Context {ST : Type} `{!StatementTypes ST}.
Context (E : EngineNames) (foundRows hasOptions : bool) (ctx : leaseCtx) (newTaskIdentifier : TaskRec -> string -> string).
Context (remoteText : remoteErr -> string) (displayBlob : gmap string string -> res string) (sha256hex : string -> string).
Context (planRow : store -> Z -> option Plan) (driveText : remoteDriveErr -> string).
(** The time of the drive up to its polling, and the events of the polling. *)
Context (now : Z) (events : list pollEvent).

Abbreviation serveStop := (processPendingCancelOrStopControlRequest E foundRows hasOptions ctx newTaskIdentifier now).
Abbreviation serveCutover := (processPendingCutoverControlRequest E foundRows hasOptions ctx remoteText now).
Abbreviation reconcileTerminal := (reconcileTerminalRemoteProgress E foundRows hasOptions ctx newTaskIdentifier now).
Abbreviation markFailed := (markRemoteApplyFailed E foundRows hasOptions ctx now).
Abbreviation persistParent := (persistParentApply hasOptions ctx).
Abbreviation poll := (pollForCompletion E foundRows hasOptions ctx newTaskIdentifier remoteText displayBlob now events).

(** [None] while a drive polls. *)
Abbreviation drive := (prog plane (option (dres unit))).

Definition returns (r : dres unit) : drive := Ret (Some r).

(** A part whose error ends the drive. *)
Definition orFails {A} (p : prog plane (dres A)) (k : A -> drive) : drive :=
  let! r := p in match r with Err e => returns (Err e) | Ok a => k a end.

(** Stops and cancels come first: one that is handled ends the drive. *)
Definition unlessStopped (d : remoteDrive) (k : remoteDrive -> drive) : drive :=
  orFails (serveStop d) (fun '(d, handled) => if handled : bool then returns (Ok tt) else k d).

(** The failure is recorded, and the drive fails. *)
Definition failsWith (d : remoteDrive) (tasks : option (list TaskRec)) (message : string) (retryable : bool) (cause : remoteDriveErr)
    : drive := orFails (markFailed d tasks message retryable) (fun _ => returns (Err cause)).

Definition releases (d : remoteDrive) : bool :=
  shouldReleaseAtCutoverBarrier (rd_Apply d) (sc_multiOperation (rd_Scope d)) (sc_operation (rd_Scope d)).

Definition startedNow (apply : Apply) : Apply :=
  match a_StartedAt apply with None => set_a_StartedAt (Some now) apply | Some _ => apply end.

(** *** Dispatch *)

Definition tasksToProtoTableChanges (tasks : list TaskRec) : list ProtoTableChange :=
  (fun task => {| pc_TableName := tk_TableName task; pc_Ddl := tk_DDL task;
                  pc_ChangeType := ddlActionToProtoChangeType (tk_DDLAction task); pc_Namespace := tk_Namespace task;
                  pc_IsUnsafe := false; pc_UnsafeReason := "" |}) <$> tasks.

Definition remoteApplyIdempotencyKey (d : remoteDrive) : string :=
  "schemabot:v1:" ++ sha256hex (joinWith NUL (idempotencyParts d)).

(** The options and the target are those of the apply [before] a stop was looked for. *)
Definition dispatchRequest (before d : remoteDrive) (plan : Plan) (changes : list ProtoTableChange) (targetShards : list string)
    : RemoteApplyRequest :=
  let options := Map (effectiveCopyDriveOptions (rd_Apply before) (sc_multiOperation (rd_Scope before))
                        (sc_operation (rd_Scope before))) in
  let target := default "" (options !! "target") in
  let apply := rd_Apply d in
  {| ra_PlanId := pn_PlanIdentifier plan; ra_Options := options; ra_Database := a_Database apply;
     ra_Type := a_DatabaseType apply; ra_DdlChanges := changes; ra_SchemaFiles := pn_SchemaFiles plan;
     ra_Environment := a_Environment apply; ra_Target := if target == "" then a_Database (rd_Apply before) else target;
     ra_Caller := a_Caller apply; ra_TargetShards := targetShards; ra_IdempotencyKey := remoteApplyIdempotencyKey d |}.

Definition sendApply (req : RemoteApplyRequest) : prog plane (rres (option RemoteApplyResponse)) :=
  commandRemote (SentApply req) (fun v => rv_Apply v req).

(** An ambiguous outcome leaves everything as it is, a refusal is recorded. *)
Definition applyErrored (d : remoteDrive) (tasks : option (list TaskRec)) (e : remoteErr) : drive :=
  if isAmbiguousRemoteApplyDispatchError e then returns (Err (remoteCallFailed e))
  else failsWith d tasks (remoteText e) (isRetryableRemoteApplyError e) (remoteCallFailed e).

Definition dispatchedApply (apply : Apply) : Apply :=
  set_a_UpdatedAt now (startedNow (set_a_CompletedAt None (set_a_ErrorMessage ""
    (set_a_State (InitialActiveApplyState (a_Engine apply)) apply)))).

Definition shardScopeMessage (operationKey : string) (shards : nat) : string :=
  "queued gRPC apply failed: shard operation " ++ dquote ++ operationKey ++ dquote ++ " resolved " ++ Itoa (Z.of_nat shards) ++
  " target shards, expected exactly 1 — its tasks carry no shard, so refusing to dispatch (the data plane would reject with " ++
  dquote ++ "expected exactly one target shard, got 0" ++ dquote ++ "); this indicates a version or data skew".

Definition dispatchTasks (d : remoteDrive) (plan : Plan) (tasks : list TaskRec) : drive :=
  let targetShards := taskTargetShards tasks in
  if match sc_operation (rd_Scope d) with
     | Some op => isShardWorkOperationKey (op_OperationKey op) && negb (length targetShards =? 1)%nat
     | None => false
     end
  then failsWith d None (shardScopeMessage (default "" (op_OperationKey <$> sc_operation (rd_Scope d))) (length targetShards)) false
         (remoteFailed "shard operation without exactly one target shard")
  else
  let before := d in
  unlessStopped d (fun d =>
  let! resp := sendApply (dispatchRequest before d plan (tasksToProtoTableChanges tasks) targetShards) in
  match resp with
  | Err e => applyErrored d (Some tasks) e
  | Ok None => let message := "remote apply returned nil response" in failsWith d (Some tasks) message false (remoteFailed message)
  | Ok (Some resp) =>
      if negb (rr_Accepted resp) then
        let message := if rr_ErrorMessage resp == "" then "remote apply was not accepted" else rr_ErrorMessage resp in
        failsWith d (Some tasks) message false (remoteFailed message)
      else if rr_ApplyId resp == "" then
        let message := "remote apply accepted without apply_id" in failsWith d (Some tasks) message false (remoteFailed message)
      else
      orFails (persistRemoteApplyID foundRows ctx d (rr_ApplyId resp) (rr_ApplyOperationId resp)) (fun d =>
      let d := set_rd_Apply (dispatchedApply (rd_Apply d)) d in
      orFails (persistParent d) (fun _ => poll false (releases d) d))
  end).

(** A failed load is itself a failure of the apply. *)
Definition loadedOr {A} (d : remoteDrive) (what : string) (p : prog plane (dres A)) (k : A -> drive) : drive :=
  let! r := p in
  match r with
  | Err e => failsWith d None ("queued gRPC apply failed: load " ++ what ++ ": " ++ driveText e) false e
  | Ok a => k a
  end.

Definition dispatchPendingApply (d : remoteDrive) : drive :=
  loadedOr d ("plan " ++ Itoa (a_PlanID (rd_Apply d)))
    (storedCall (readStore (fun s => planRow s (a_PlanID (rd_Apply d))))) (fun plan =>
  match plan with
  | None => let message := "queued gRPC apply failed: plan " ++ Itoa (a_PlanID (rd_Apply d)) ++ " not found" in
            failsWith d None message false (remoteFailed message)
  | Some plan =>
      loadedOr d "tasks" (loadApplyTasks E (rd_Apply d) (rd_Scope d)) (fun tasks =>
      match tasks with
      | [] => let message := "queued gRPC apply failed: no tasks found" in failsWith d None message false (remoteFailed message)
      | _ => orFails (prepareDispatchTasks foundRows ctx tasks) (fun tasks => dispatchTasks d plan tasks)
      end)
  end).

(** *** Start *)

Definition processPendingStartControlRequest (d : remoteDrive) : prog plane (dres remoteDrive) :=
  let apply := rd_Apply d in
  try! controlReq := pendingRequest apply ControlOperationStart in
  match controlReq with
  | None => Ret (Ok d)
  | Some _ =>
      try! stopReq := pendingRequest apply ControlOperationStop in
      match stopReq with
      | Some _ => Ret (Ok d)
      | None =>
          if negb (IsState (a_State apply) [Apply.WaitingForDeploy]) then Ret (Ok d) else
          let remoteID := remoteApplyID d in
          if remoteID == "" then
            let message := "gRPC apply " ++ a_ApplyIdentifier apply ++
              " is waiting for deploy without a remote apply id; start dispatch state is ambiguous" in
            try! _ := failRequest foundRows ctx apply ControlOperationStart message in Ret (Err (remoteFailed message))
          else
          let! resp := control ControlStart d remoteID in
          match resp with
          | Err e =>
              try! _ := failRequest foundRows ctx apply ControlOperationStart
                ("remote deferred deploy start failed for remote apply " ++ remoteID ++ ": " ++ remoteText e) in
              Ret (Err (remoteCallFailed e))
          | Ok _ =>
              let d := set_rd_Apply (startedNow (set_a_State (InitialActiveApplyState (a_Engine apply)) apply)) d in
              try! _ := persistParent d in
              try! _ := completeApplyStartRequestForScope foundRows ctx d in
              Ret (Ok d)
          end
      end
  end.

(** A stop that is pending before a remote start; [true] when the drive leaves both to
    the operator. *)
Definition completePendingStopBeforeRemoteStart (d : remoteDrive) : prog plane (dres bool) :=
  try! controlReq := pendingRequest (rd_Apply d) ControlOperationStop in
  match controlReq with
  | None => Ret (Ok false)
  | Some _ =>
      if suppressesDirectParentApplyWrites (rd_Scope d) then Ret (Ok true) else
      try! _ := completeRequest foundRows ctx (rd_Apply d) ControlOperationStop in Ret (Ok false)
  end.

(** The loop of the wait, over its pauses: [true] for one that the end of the context
    cuts short; [None] while it waits. *)
Fixpoint waitForPendingStopBeforeStart (waits : list bool) (d : remoteDrive) : prog plane (option (dres (remoteDrive * bool))) :=
  let done (p : prog plane (dres (remoteDrive * bool))) := let! r := p in Ret (Some r) in
  let! stopReq := pendingRequest (rd_Apply d) ControlOperationStop in
  match stopReq with
  | Err e => Ret (Some (Err e))
  | Ok None => Ret (Some (Ok (d, false)))
  | Ok (Some _) =>
      if suppressesDirectParentApplyWrites (rd_Scope d) then
        done (try! (d, _) := serveStop d in
              try! stillPending := pendingRequest (rd_Apply d) ControlOperationStop in
              Ret (Ok (d, match stillPending with Some _ => true | None => false end)))
      else
      let! r := serveStop d in
      match r with
      | Err e => Ret (Some (Err e))
      | Ok (d, _) =>
          match waits with
          | [] => Ret None
          | true :: _ => Ret (Some (Err driveContextDone))
          | false :: waits => waitForPendingStopBeforeStart waits d
          end
      end
  end.

(** A queued apply that the remote knows is started. *)
Definition startQueued (d : remoteDrive) (remoteID : string) (k : remoteDrive -> drive) : drive :=
  unlessStopped d (fun d =>
  let! resp := control ControlStart d remoteID in
  match resp with
  | Err e => returns (Err (remoteCallFailed e))
  | Ok _ =>
      let d := set_rd_Apply (startedNow (set_a_State (InitialActiveApplyState (a_Engine (rd_Apply d))) (rd_Apply d))) d in
      orFails (persistParent d) (fun _ => k d)
  end).

(** The remote confirms that it is stopped: it is started. *)
Definition startStopped (d : remoteDrive) (remoteID : string) (startRequested : bool) (tables : list ProtoTable)
    (k : remoteDrive -> drive) : drive :=
  orFails (completePendingStopBeforeRemoteStart d) (fun deferred =>
  if deferred : bool then returns (Ok tt) else
  let! resp := control ControlStart d remoteID in
  match resp with
  | Err e =>
      let message := "remote start failed for remote apply " ++ remoteID ++ ": " ++ remoteText e in
      orFails (reconcileTerminal (set_rd_Apply (set_a_ErrorMessage message (set_a_State Apply.Stopped (rd_Apply d))) d) tables) (fun d =>
      if startRequested
      then orFails (failRequest foundRows ctx (rd_Apply d) ControlOperationStart message) (fun _ => returns (Err (remoteCallFailed e)))
      else returns (Err (remoteCallFailed e)))
  | Ok _ =>
      let d := set_rd_Apply (startedNow (set_a_State Apply.Resuming (rd_Apply d))) d in
      orFails (requeueStoppedTasksForRemoteStart E foundRows ctx d) (fun _ => k d)
  end).

(** The state of the remote decides what becomes of a stopped apply. *)
Definition refreshStopped (d : remoteDrive) (remoteID : string) (startRequested : bool) (k : remoteDrive -> drive) : drive :=
  let! resp := progressOf d remoteID in
  match resp with
  | Err e =>
      if bool_decide (status_Code e = codes_NotFound) then
        orFails (A := unit) (failMissingStoppedRemoteApply E foundRows hasOptions ctx now d
          ("remote apply " ++ a_ExternalID (rd_Apply d) ++ " was not found by data plane during stopped-state check") (Some e))
          (fun _ => returns (Ok tt))
      else if isTerminalRemoteProgressError e then
        orFails (markStoppedRemoteApplyFailed E foundRows hasOptions ctx now d
          ("remote stopped-state check failed for remote apply " ++ a_ExternalID (rd_Apply d) ++ ": " ++ remoteText e) false)
          (fun _ => returns (Err (remoteCallFailed e)))
      else returns (Err (remoteCallFailed e))
  | Ok p =>
      if bool_decide (pg_State p = STATE_NO_ACTIVE_CHANGE) then
        orFails (A := unit) (failMissingStoppedRemoteApply E foundRows hasOptions ctx now d
          ("remote apply " ++ a_ExternalID (rd_Apply d) ++
           " returned no active schema change for exact apply_id during stopped-state check") None) (fun _ => returns (Ok tt))
      else
      let remoteState := ProtoStateToStorage (pg_State p) in
      if remoteState == "" then returns (Err (remoteFailed "unmapped remote state")) else
      let apply := set_a_State remoteState (rd_Apply d) in
      let apply := set_a_ErrorMessage (remoteProgressErrorMessage remoteState (pg_ErrorMessage p) (a_ErrorMessage apply)) apply in
      if isTerminalProtoState (pg_State p) && negb (IsState remoteState [Apply.Stopped]) then
        let apply := if IsState remoteState [Apply.Pending] then apply else startedNow apply in
        orFails (reconcileTerminal (set_rd_Apply apply d) (pg_Tables p)) (fun _ => returns (Ok tt))
      else
      let finish d :=
        orFails (persistParent d) (fun _ =>
        if startRequested then orFails (completeApplyStartRequestForScope foundRows ctx d) (fun _ => k d) else k d) in
      let d := set_rd_Apply apply d in
      if IsState remoteState [Apply.Stopped] then startStopped d remoteID startRequested (pg_Tables p) finish else finish d
  end.

(** *** Resuming *)

(** The remote identifier is known. *)
Definition reattach (d : remoteDrive) (startRequested : bool) : drive :=
  let polling d := poll startRequested (releases d) d in
  let remoteID := remoteApplyID d in
  let check d := if IsState (a_State (rd_Apply d)) [Apply.Stopped] || startRequested
                 then refreshStopped d remoteID startRequested polling else polling d in
  if (remoteID != "") && IsState (a_State (rd_Apply d)) [Apply.Pending] && negb startRequested
  then startQueued d remoteID check else check d.

Definition resumeStarted (waits : list bool) (d : remoteDrive) : drive :=
  let! waited := waitForPendingStopBeforeStart waits d in
  match waited with
  | None => Ret None
  | Some (Err e) => returns (Err e)
  | Some (Ok (d, deferred)) =>
      if deferred : bool then returns (Ok tt)
      else if IsState (a_State (rd_Apply d)) [Apply.WaitingForDeploy] then
        unlessStopped d (fun d => orFails (processPendingStartControlRequest d) (fun d => reattach d true))
      else reattach d true
  end.

Definition resumeApply (waits : list bool) (d : remoteDrive) : drive :=
  unlessStopped d (fun d =>
  orFails (serveCutover d) (fun d =>
  if shouldDispatchQueuedRemoteApply d then dispatchPendingApply d
  else if hasAmbiguousRemoteDispatchState d then
    let message := "gRPC apply " ++ a_ApplyIdentifier (rd_Apply d) ++ " is " ++ dispatchState d ++
                   " without a remote apply id; remote dispatch state is ambiguous" in
    failsWith d None message false (remoteFailed message)
  else
  orFails (pendingRequest (rd_Apply d) ControlOperationStart) (fun startReq =>
  match startReq with
  | Some _ => resumeStarted waits d
  | None => reattach d false
  end))).

(** *** The group finalizer *)

Definition finalizerChange (namespace : string) : ProtoTableChange :=
  {| pc_TableName := "VSchema: " ++ namespace; pc_Ddl := ""; pc_ChangeType := CHANGE_TYPE_VSCHEMA; pc_Namespace := namespace;
     pc_IsUnsafe := false; pc_UnsafeReason := "" |}.

Definition dispatchRemoteGroupFinalizer (d : remoteDrive) (op : ApplyOperation) : drive :=
  let namespace := namespaceFromFinalizerKey (op_OperationKey op) in
  if namespace == "" then returns (Err (remoteFailed "malformed operation key")) else
  orFails (storedCall (readStore (fun s => planRow s (a_PlanID (rd_Apply d))))) (fun plan =>
  match plan with
  | None => returns (Err (remoteFailed "plan not found"))
  | Some plan =>
      match finalizerVSchemaChanges plan namespace with
      | Err e => returns (Err (remoteStore e))
      | Ok _ =>
          if remoteApplyID d != "" then poll false false d else
          let before := d in
          unlessStopped d (fun d =>
          let! resp := sendApply (dispatchRequest before d plan [finalizerChange namespace] []) in
          match resp with
          | Err e => applyErrored d None e
          | Ok resp =>
              match resp with
              | Some r =>
                  if rr_Accepted r && (rr_ApplyId r != "") then
                    orFails (persistRemoteApplyID foundRows ctx d (rr_ApplyId r) (rr_ApplyOperationId r)) (fun d => poll false false d)
                  else
                  let message := if rr_ErrorMessage r != "" then rr_ErrorMessage r
                                 else "remote group_finalizer apply was not accepted" in
                  failsWith d None message false (remoteFailed message)
              | None => let message := "remote group_finalizer apply was not accepted" in
                        failsWith d None message false (remoteFailed message)
              end
          end)
      end
  end).

(** *** The entries of the operator *)

Definition ResumeApply (waits : list bool) (apply : Apply) : drive :=
  resumeApply waits {| rd_Apply := apply; rd_Scope := wholeApplyTaskScope |}.

(** The drive of an operation that has tasks. *)
Definition withOperationTasks (d : remoteDrive) (k : drive) : drive :=
  orFails (loadApplyTasks E (rd_Apply d) (rd_Scope d)) (fun tasks =>
  match tasks with [] => returns (Err remoteNoTasks) | _ => k end).

Definition ResumeApplyOperation (waits : list bool) (apply : Apply) (applyOperationID : Z) : drive :=
  if applyOperationID <=? 0 then returns (Err (remoteFailed "apply operation id is required")) else
  orFails (loadOperationApplyTaskScope apply applyOperationID) (fun scope =>
  let d := {| rd_Apply := apply; rd_Scope := scope |} in
  let work := withOperationTasks d (resumeApply waits d) in
  match sc_operation scope with
  | Some op => if op_OperationKind op == ApplyOperationKindGroupFinalizer then dispatchRemoteGroupFinalizer d op else work
  | None => work
  end).

(** Whether the swap is to be polled to its end; the rows are settled otherwise. *)
Definition triggerRemoteOperationCutover (d : remoteDrive) (remoteID : string) : prog plane (dres (remoteDrive * bool)) :=
  let! resp := progressOf d remoteID in
  match resp with
  | Err e =>
      if bool_decide (status_Code e = codes_NotFound)
      then failMissingRemoteApply E foundRows hasOptions ctx now d
             ("remote apply " ++ remoteID ++ " was not found by data plane during cutover preflight") (Some e)
      else Ret (Err (remoteCallFailed e))
  | Ok p =>
      if bool_decide (pg_State p = STATE_NO_ACTIVE_CHANGE)
      then failMissingRemoteApply E foundRows hasOptions ctx now d
             ("remote apply " ++ remoteID ++ " returned no active schema change during cutover preflight") None
      else
      let remoteState := ProtoStateToStorage (pg_State p) in
      if remoteState == "" then Ret (Err (remoteFailed "unmapped remote state")) else
      let apply := set_a_State remoteState (rd_Apply d) in
      if isTerminalProtoState (pg_State p) then
        let apply := startedNow (set_a_ErrorMessage
                       (remoteProgressErrorMessage remoteState (pg_ErrorMessage p) (a_ErrorMessage apply)) apply) in
        try! d := reconcileTerminal (set_rd_Apply apply d) (pg_Tables p) in Ret (Ok (d, false))
      else if IsState remoteState [Apply.CuttingOver] || IsState remoteState [Apply.RevertWindow] ||
              IsState remoteState [Apply.SkippingRevert]
      then Ret (Ok (set_rd_Apply apply d, true))
      else if negb (IsState remoteState [Apply.WaitingForCutover])
      then Ret (Err (remoteFailed "remote is not parked at the cutover barrier"))
      else
      try! (d, handled) := serveStop d in
      if handled : bool then Ret (Ok (d, false)) else
      let! resp := control ControlCutover d remoteID in
      match resp with
      | Err e => Ret (Err (remoteCallFailed e))
      | Ok resp =>
          Ret match refusal resp with
              | Some message => Err (remoteFailed message)
              | None => Ok (set_rd_Apply (set_a_State Apply.CuttingOver (rd_Apply d)) d, true)
              end
      end
  end.

Definition ResumeApplyOperationCutover (apply : Apply) (applyOperationID : Z) : drive :=
  if applyOperationID <=? 0 then returns (Err (remoteFailed "apply operation id is required")) else
  orFails (loadOperationApplyTaskScope apply applyOperationID) (fun scope =>
  let d := {| rd_Apply := apply; rd_Scope := scope |} in
  match operationResume scope with
  | None => returns (Err (remoteFailed "remote cutover drive requires a per-operation remote resume scope"))
  | Some op =>
      withOperationTasks d
        (if negb (isCutoverDriveState (op_State op))
         then returns (Err (remoteFailed "apply_operation is not parked or recovering for cutover")) else
         let remoteID := remoteApplyID d in
         if remoteID == "" then returns (Err (remoteFailed "no remote apply id for cutover drive")) else
         unlessStopped d (fun d =>
         orFails (triggerRemoteOperationCutover d remoteID) (fun '(d, polls) =>
         if polls : bool then poll false false d else returns (Ok tt))))
  end).
End Drives.
