(* ===== verification/RemoteParts.v ===== *)
(** * The parts of a remote drive

    Proof rules for the gRPC client of [Remote].  Its parts are looked at once, for any
    view of the plane that the tasks, the operation rows and the remote commands leave
    alone ([Served]), with what each of them returns; and the drives for what they
    dispatch to the data plane, at most one Apply request with the key of the drive. *)

From S2P Require Import Prelude GoStrings State Convert Sql Store Operations Applies Control Projection Fencing Tasks Plane Fanout Stopping LocalControl Sequential Conflict Grouped Resume Sends Remote.

Local Open Scope string_scope.
Local Open Scope Z_scope.

(** ** Parts of a drive *)

(** What the parts of the drive of apply [id] need of a view of the plane and of the
    states the statements run in.  [P] holds of the apply as it is read. *)
Class Served {X} (view : plane -> X) (cond : plane -> Prop) (id : Z) (P : Apply -> Prop) (foundRows : bool) (ctx : leaseCtx)
    (free : Prop) : Prop := {
  served_id : forall a, P a -> a_ID a = id;
  served_alike : forall a b, a_ID b = a_ID a -> a_ApplyIdentifier b = a_ApplyIdentifier a -> a_Attempt b = a_Attempt a -> P a -> P b;
  served_row : forall w a, cond w -> findApply id (pl_db w) = Some a -> P a;
  served_operation : forall opID missingOK set,
    spares view cond (fun _ => True) (onStore (guardedUpdate foundRows ctx opID missingOK set));
  served_task : forall t, spares view cond (fun _ => True) (onStore (UpdateTask foundRows ctx t));
  served_shard : forall t, spares view cond (fun _ => True) (onStore (UpsertShardProgress foundRows ctx t));
  served_request : forall applyID operation set, operation <> ControlOperationStop -> operation <> ControlOperationCancel ->
    (forall cr, cr_Operation (set cr) = cr_Operation cr) ->
    spares view cond (fun _ => True) (onStore (settlePending foundRows ctx applyID operation set));
  served_control : forall A op remoteID environment (f : remoteView -> rres A),
    spares view cond (fun _ => True) (commandRemote (SentControl op remoteID environment) f);
  served_free : free -> forall R (p : prog store R), spares view cond (fun _ => True) (onStore p);
  served_cutover : forall w, cond w -> free \/ GetPending id ControlOperationCutover (pl_db w) = None;
  served_skip : forall w, cond w -> free \/ GetPending id ControlOperationSkipRevert (pl_db w) = None;
}.

Section Parts.
Context {X : Type} (view : plane -> X) (cond : plane -> Prop) (id : Z) (P : Apply -> Prop).
Context (E : EngineNames) (foundRows hasOptions : bool) (ctx : leaseCtx) (newTaskIdentifier : TaskRec -> string -> string).
Context (remoteText : remoteErr -> string) (displayBlob : gmap string string -> res string).
Context (free : Prop) `{HS : !Served view cond id P foundRows ctx free}.

Abbreviation part := (spares view cond).

(** A drive of the apply, which may write the apply's row only when that is free. *)
Definition mine (d : remoteDrive) : Prop := P (rd_Apply d) /\ (free \/ suppressesDirectParentApplyWrites (rd_Scope d) = true).

(** What a part returns, when it returns no error. *)
Definition okay {A} (Q : A -> Prop) (r : dres A) : Prop := match r with Ok a => Q a | Err _ => True end.

Lemma part_then {R R'} (Q : R' -> Prop) (p : prog plane R) (f : R -> prog plane R') :
  part (fun _ => True) p -> (forall r, part Q (f r)) -> part Q (pbind p f).
Proof. intros Hp Hf. eapply spares_bind; [exact Hp|]. auto. Qed.

Lemma part_any {R} (Q : R -> Prop) (p : prog plane R) : part Q p -> part (fun _ => True) p.
Proof. by apply spares_weaken. Qed.

Lemma part_try {A B} (Q : A -> Prop) (Q' : B -> Prop) (p : prog plane (dres A)) (f : A -> prog plane (dres B)) :
  part (okay Q) p -> (forall a, Q a -> part (okay Q') (f a)) -> part (okay Q') (try! a := p in f a).
Proof. intros Hp Hf. eapply spares_bind; [exact Hp|]. intros [a|e] Ha; [by apply Hf|done]. Qed.

Lemma part_and {A B} (Q' : B -> Prop) (p : prog plane (dres A)) (f : A -> prog plane (dres B)) :
  part (fun _ => True) p -> (forall a, part (okay Q') (f a)) -> part (okay Q') (try! a := p in f a).
Proof. intros Hp Hf. eapply spares_bind; [exact Hp|]. intros [a|e] _; [by apply Hf|done]. Qed.

Lemma part_stored {A} (Q : A -> Prop) (p : prog plane (res A)) :
  part (fun r => match r with Ok a => Q a | Err _ => True end) p -> part (okay Q) (storedCall p).
Proof. intros Hp. eapply spares_bind; [exact Hp|]. by intros [a|e]. Qed.

Lemma part_call {A} (p : prog plane (res A)) : part (fun _ => True) p -> part (fun _ => True) (storedCall p).
Proof. intros Hp. apply part_then; [exact Hp|]. by intros [a|e]. Qed.

Lemma part_reads {A} (f : store -> A) : part (fun _ => True) (readStore f).
Proof. eapply part_any, spares_read. Qed.

Lemma part_ask {A} (f : remoteView -> rres A) : part (fun _ => True) (askRemote f).
Proof. by split. Qed.

Lemma part_stay {R} (r : R) : part (fun _ => True) (onStore (Ret r)).
Proof. done. Qed.

Create HintDb parts discriminated.
#[local] Hint Resolve part_reads part_ask part_stay : parts.
#[local] Hint Extern 1 (spares _ _ _ (onStore (UpdateTask _ _ _))) => apply served_task : parts.
#[local] Hint Extern 1 (spares _ _ _ (onStore (UpsertShardProgress _ _ _))) => apply served_shard : parts.
#[local] Hint Extern 1 (spares _ _ _ (onStore (execStateUpdate _ _ _ _))) => apply served_operation : parts.
#[local] Hint Extern 1 (spares _ _ _ (commandRemote (SentControl _ _ _) _)) => apply served_control : parts.
#[local] Hint Extern 1 (spares _ _ _ (pendingRequest _ _)) => apply part_call, part_reads : parts.
#[local] Hint Extern 1 (spares _ _ _ (pendingControlRequest _ _)) => apply part_reads : parts.
#[local] Hint Extern 1 (spares _ _ _ (onStore (Operations.Heartbeat _ _ _))) => apply served_operation : parts.
#[local] Hint Extern 1 (spares _ _ _ (onStore (Operations.MarkFailed _ _ _ _))) => apply served_operation : parts.
#[local] Hint Extern 1 (spares _ _ _ (onStore (Operations.MarkCompleted _ _ _))) => apply served_operation : parts.
#[local] Hint Extern 1 (spares _ _ _ (onStore (Operations.MarkTerminal _ _ _ _))) => apply served_operation : parts.
#[local] Hint Extern 1 (spares _ _ _ (onStore (Operations.UpdateState _ _ _ _))) => apply served_operation : parts.
#[local] Opaque onStore commandRemote askRemote readStore.

Ltac parts :=
  repeat first
    [ match goal with |- True => exact I end
    | match goal with H : spares _ _ _ ?p |- spares _ _ _ ?p => exact H end
    | solve [eauto 1 with parts nocore]
    | match goal with
      | |- spares _ _ (fun _ => True) (storedCall _) => apply part_call
      | |- spares _ _ _ (pbind _ _) => apply part_then; [|intros]
      | |- spares _ _ _ (match ?x with _ => _ end) => destruct x
      | |- spares _ _ _ (onStore (if ?x then _ else _)) => destruct x
      | |- spares _ _ _ (if ?x then _ else _) => destruct x
      | |- spares _ _ _ (Ret _) => cbn [spares okay]
      end ].

(** *** Rows *)

Lemma part_settle apply operation set :
  operation <> ControlOperationStop -> operation <> ControlOperationCancel ->
  (forall cr, cr_Operation (set cr) = cr_Operation cr) ->
  part (fun _ => True) (try! _ := ensureApplyLeaseForControlRequest ctx apply in
                        onStore (settlePending foundRows ctx (a_ID apply) operation set)).
Proof.
  intros Hs Hc Hset. apply part_then.
  - unfold ensureApplyLeaseForControlRequest. parts.
  - intros [u|e]; [by apply served_request|done].
Qed.

Lemma part_complete apply operation :
  operation <> ControlOperationStop -> operation <> ControlOperationCancel ->
  part (fun _ => True) (completeRequest foundRows ctx apply operation).
Proof. intros Hs Hc. by apply part_call, part_settle. Qed.

Lemma part_fail apply operation message :
  operation <> ControlOperationStop -> operation <> ControlOperationCancel ->
  part (fun _ => True) (failRequest foundRows ctx apply operation message).
Proof. intros Hs Hc. by apply part_call, part_settle. Qed.

Lemma part_completeStored apply operation :
  free -> part (fun _ => True) (completePendingControlRequests foundRows ctx apply operation).
Proof.
  intros Hf. unfold completePendingControlRequests, ensureApplyLeaseForControlRequest.
  pose proof (served_free Hf) as Hany. parts.
Qed.

Lemma part_complete_free apply operation : free -> part (fun _ => True) (completeRequest foundRows ctx apply operation).
Proof. intros Hf. by apply part_call, part_completeStored. Qed.

Lemma part_update_free apply : free -> part (fun _ => True) (storedCall (updateApply hasOptions ctx apply)).
Proof. intros Hf. apply part_call. exact (served_free Hf _ _). Qed.

Lemma part_parent d : mine d -> part (fun _ => True) (persistParentApply hasOptions ctx d).
Proof. intros [_ [Hf|Hs]]; unfold persistParentApply; [|by rewrite Hs]. destruct (suppressesDirectParentApplyWrites _); [done|by apply part_update_free]. Qed.
#[local] Hint Extern 1 (spares _ _ _ (completeRequest _ _ _ ControlOperationStart)) => apply part_complete; discriminate : parts.

Lemma part_start d : part (fun _ => True) (completeApplyStartRequestForScope foundRows ctx d).
Proof. unfold completeApplyStartRequestForScope. parts. Qed.

Lemma part_heartbeat d : mine d -> part (fun _ => True) (heartbeatScopedDrive foundRows ctx d).
Proof.
  intros [_ [Hf|Hs]]; unfold heartbeatScopedDrive; [|rewrite Hs; parts]. pose proof (served_free Hf) as Hany. parts.
Qed.

Lemma part_mirror d md last : part (fun _ => True) (mirrorRemoteDisplayMetadata foundRows ctx displayBlob d md last).
Proof.
  unfold mirrorRemoteDisplayMetadata, operationForDisplayMirror. parts.
  cbn [SaveEngineResumeState]. parts.
Qed.

Lemma part_each body tasks :
  (forall t, part (fun _ => True) (body t)) -> part (fun _ => True) (eachOrFail body tasks).
Proof. intros Hb. induction tasks as [|t ts IH]; cbn [eachOrFail]; [done|]. pose proof (Hb t). parts. Qed.

Lemma part_write t : part (fun _ => True) (writeTask foundRows ctx t).
Proof. unfold writeTask. parts. Qed.
#[local] Hint Resolve part_start part_mirror part_write : parts.

Lemma part_writeShards now t shards : part (fun _ => True) (writeShards E foundRows ctx newTaskIdentifier now t shards).
Proof. induction shards as [|sh shards IH]; cbn [writeShards]; parts. Qed.
#[local] Hint Resolve part_writeShards : parts.

Lemma part_load apply scope : part (fun _ => True) (loadApplyTasks E apply scope).
Proof. unfold loadApplyTasks. parts. Qed.

Lemma part_sync now remoteTasks tasks :
  part (fun _ => True) (syncStoredTasksFromRemoteTasks E foundRows ctx newTaskIdentifier now remoteTasks tasks).
Proof. apply part_each. intros t. unfold syncShardProgressFromRemote. parts. Qed.

Lemma part_reconcileTasks now st tasks :
  part (fun _ => True) (reconcileStoredTasksForTerminalRemoteApply foundRows ctx now st tasks).
Proof. unfold reconcileStoredTasksForTerminalRemoteApply. parts. apply part_each. intros u. parts. Qed.
#[local] Hint Resolve part_load part_sync part_reconcileTasks : parts.

Lemma part_requeue d : part (fun _ => True) (requeueStoppedTasksForRemoteStart E foundRows ctx d).
Proof. unfold requeueStoppedTasksForRemoteStart. parts. apply part_each. intros t. parts. Qed.

Lemma part_prepare tasks : part (fun _ => True) (prepareDispatchTasks foundRows ctx tasks).
Proof. apply part_each. intros t. parts. Qed.

Lemma part_getApply apply : P apply -> part (okay (fun o => forall a, o = Some a -> P a)) (getApply (a_ID apply)).
Proof.
  intros Hp. apply part_stored. rewrite (served_id _ Hp). eapply spares_weaken; [|apply spares_read].
  intros [o|e] Hr; [|done]. destruct Hr as [[]|(w & Hw & [= ->])]. intros a Ha. by eapply served_row.
Qed.

Lemma mine_with d d' :
  a_ID (rd_Apply d') = a_ID (rd_Apply d) -> a_ApplyIdentifier (rd_Apply d') = a_ApplyIdentifier (rd_Apply d) ->
  a_Attempt (rd_Apply d') = a_Attempt (rd_Apply d) ->
  suppressesDirectParentApplyWrites (rd_Scope d') = suppressesDirectParentApplyWrites (rd_Scope d) -> mine d -> mine d'.
Proof. intros Hi Hn Ht Hs [Hp Hw]. split; [by eapply served_alike|by rewrite Hs]. Qed.

(** The scope with the row of its operation as it is now. *)
Lemma suppresses_row op op0 d :
  operationResume (rd_Scope d) = Some op0 ->
  suppressesDirectParentApplyWrites (rd_Scope (set_sc_operation op d)) = suppressesDirectParentApplyWrites (rd_Scope d).
Proof.
  unfold suppressesDirectParentApplyWrites, usesOperationRemoteResume, operationResume. cbn.
  destruct (sc_multiOperation _); [|done]. by intros ->.
Qed.

Lemma part_persistID d remoteID remoteOperationID :
  mine d -> part (okay mine) (persistRemoteApplyID foundRows ctx d remoteID remoteOperationID).
Proof.
  intros Hd. unfold persistRemoteApplyID. destruct (_ == _); [done|].
  destruct (operationResume _) as [op|] eqn:Eo; [|by apply (mine_with d)].
  apply part_and; [parts|]. intros [cur|]; [|done]. destruct (negb _); [done|].
  do 2 (destruct (_ && _); [done|]). apply part_and.
  { apply part_call. unfold SaveExternalID. parts. }
  intros _. destruct (_ != _); [apply part_and|].
  - apply part_call. unfold SaveExternalOperationID. parts.
  - intros _. apply (mine_with d); try done. by eapply suppresses_row.
  - apply (mine_with d); try done. by eapply suppresses_row.
Qed.

(** *** Ends of the remote apply *)

(** A drive of the apply with the same scope. *)
Definition stays (sc : applyTaskScope) (d : remoteDrive) : Prop := mine d /\ rd_Scope d = sc.

Lemma mine_apply a d : P a -> mine d -> mine (set_rd_Apply a d).
Proof. by intros Hp [_ Hw]. Qed.

Lemma stays_mine d : mine d -> stays (rd_Scope d) d.
Proof. done. Qed.

Lemma stays_apply a d : P a -> mine d -> stays (rd_Scope d) (set_rd_Apply a d).
Proof. intros Hp Hd. by split; [apply mine_apply|]. Qed.

(** Changes of the apply that keep what identifies it. *)
Ltac alike := match goal with H : P ?a |- P ?b => refine (served_alike (Served := HS) a b eq_refl eq_refl eq_refl H) end.

(** The parent may be written when its writes are not suppressed. *)
Lemma mine_free d : mine d -> suppressesDirectParentApplyWrites (rd_Scope d) = false -> free.
Proof. intros [_ [Hf|Hs]] Hn; [done|congruence]. Qed.

Definition reloaded (st : transitionStatus) : Prop :=
  match st with transitionReady a | transitionAlreadyTerminal a => P a | _ => True end.

Lemma part_reload apply allow : P apply -> part reloaded (reloadStoredApplyForRemoteTransition apply allow).
Proof.
  intros Hp. eapply spares_bind; [by apply part_getApply|]. intros [[a|]|e] Ha; [|done..].
  cbn. destruct (storedTerminalApplyBlocksRemoteTransition a allow); by apply Ha.
Qed.

Lemma part_markFailed now d tasks message retryable allow :
  mine d -> part (okay mine) (markRemoteApplyFailedWithOptions E foundRows hasOptions ctx now d tasks message retryable allow).
Proof.
  intros Hd. eapply spares_bind; [apply part_reload, Hd|]. intros [a|e| |a] Ha; [|done|exact Hd|by apply mine_apply].
  apply part_and; [parts|]. intros ts. apply part_and; [apply part_each; intros t; parts|]. intros _.
  destruct (suppressesDirectParentApplyWrites _) eqn:Es.
  - destruct (_ && _); [|exact Hd]. apply part_and; [parts|]. intros _. exact Hd.
  - apply part_and; [apply part_update_free; by eapply mine_free|]. intros _. cbn in Ha. apply mine_apply; [alike|exact Hd].
Qed.

Lemma part_failMissing {A} now d message cause :
  mine d -> part (fun _ => True) (failMissingRemoteApply (A := A) E foundRows hasOptions ctx now d message cause).
Proof. intros Hd. apply part_then; [eapply part_any, part_markFailed, Hd|]. by intros []. Qed.

Lemma part_failMissingStopped {A} now d message cause :
  mine d -> part (fun _ => True) (failMissingStoppedRemoteApply (A := A) E foundRows hasOptions ctx now d message cause).
Proof. intros Hd. apply part_then; [eapply part_any, part_markFailed, Hd|]. by intros []. Qed.

Lemma part_persistTerminal now d a :
  mine d -> P a -> part (okay (stays (rd_Scope d))) (persistTerminalStateFromRemote foundRows hasOptions ctx now d a).
Proof.
  intros Hd Ha. unfold persistTerminalStateFromRemote. destruct (suppressesDirectParentApplyWrites _) eqn:Es.
  - destruct (finalizerOperationScope _); [|by apply stays_mine]. apply part_and; [|intros _; by apply stays_mine].
    unfold persistFinalizerOperationTerminalState. parts.
  - pose proof (mine_free _ Hd Es) as Hf. apply part_and; [by apply part_update_free|]. intros _.
    apply part_and; [by apply part_complete_free|]. intros _. apply part_and.
    + destruct (negb _); [by apply part_complete_free|done].
    + intros _. apply stays_apply; [alike|done].
Qed.

Lemma part_reconcile now d tables :
  mine d -> part (okay (stays (rd_Scope d))) (reconcileTerminalRemoteProgress E foundRows hasOptions ctx newTaskIdentifier now d tables).
Proof.
  intros Hd. assert (forall a, P a -> part (okay (stays (rd_Scope d)))
    (try! tasks := loadApplyTasks E a (rd_Scope d) in
     try! tasks := syncStoredTasksFromRemoteTasks E foundRows ctx newTaskIdentifier now tables tasks in
     try! _ := reconcileStoredTasksForTerminalRemoteApply foundRows ctx now (a_State (rd_Apply d)) tasks in
     persistTerminalStateFromRemote foundRows hasOptions ctx now d a)) as Hadopt.
  { intros a Ha. do 3 (apply part_and; [parts|intros ?]). by apply part_persistTerminal. }
  eapply spares_bind; [apply part_reload, Hd|]. intros [a|e| |a] Ha; [by apply Hadopt|done|by apply stays_mine|].
  destruct (storedStoppedApplyCanAdoptRemoteTerminalState _ _); [by apply Hadopt|].
  destruct (suppressesDirectParentApplyWrites _) eqn:Es; (apply part_and; [|intros _; by apply stays_apply]).
  - parts.
  - apply part_complete_free. by eapply mine_free.
Qed.

(** *** Control requests *)

(** A request that is not pending, unless the parent may be written. *)
Lemma part_pending apply operation :
  P apply -> (forall w, cond w -> free \/ GetPending id operation (pl_db w) = None) ->
  part (okay (fun o => free \/ o = None)) (pendingRequest apply operation).
Proof.
  intros Hp Hno. apply part_stored. unfold pendingControlRequest. rewrite (served_id _ Hp).
  eapply spares_weaken; [|apply spares_read]. intros [o|e] Hr; [|done]. destruct Hr as [[]|(w & Hw & [= ->])]. by apply Hno.
Qed.

Lemma part_control op d remoteID : part (fun _ => True) (control op d remoteID).
Proof. apply served_control. Qed.

Lemma part_progress d remoteID : part (fun _ => True) (progressOf d remoteID).
Proof. apply part_ask. Qed.
#[local] Hint Resolve part_progress : parts.
#[local] Hint Extern 1 (spares _ _ _ (control _ _ _)) => apply part_control : parts.

Lemma part_failCutover {A} (Q : A -> Prop) apply message cause : part (okay Q) (failCutover foundRows ctx apply message cause).
Proof. apply part_and; [apply part_fail; discriminate|]. by intros []. Qed.

Lemma part_cutover now d :
  mine d -> part (okay (stays (rd_Scope d))) (processPendingCutoverControlRequest E foundRows hasOptions ctx remoteText now d).
Proof.
  intros Hd. assert (stays (rd_Scope d) d) as Hst by by apply stays_mine.
  unfold processPendingCutoverControlRequest. eapply part_try; [apply part_pending; [apply Hd|apply served_cutover]|].
  intros [req|] Hreq; [|exact Hst]. destruct Hreq as [Hf|[=]].
  destruct (cutoverRequestResolvedByApplyState _).
  { apply part_and; [apply part_complete; discriminate|]. intros _. exact Hst. }
  destruct (cutoverRequestFailedByApplyState _); [apply part_failCutover|]. destruct (IsState _ _); [exact Hst|].
  apply part_and; [apply part_call; unfold applyReadyForCutoverRequest; parts|]. intros [|]; [|exact Hst]. cbn [negb].
  destruct (_ == _); [apply part_failCutover|]. apply part_and; [parts|]. intros [stop|]; [done|].
  eapply (part_try P); [apply part_stored|].
  { unfold markApplyCuttingOverForControlRequest. destruct Hd as [Hp _]. destruct (negb _); [exact Hp|].
    eapply spares_bind; [exact (served_free Hf _ _)|]. intros [u|e] _; [|done]. cbn. alike. }
  intros a Ha. apply part_then; [parts|]. intros [resp|e]; [|apply part_failCutover].
  destruct (refusal resp); [apply part_failCutover|]. apply part_and; [apply part_complete; discriminate|].
  intros _. by apply stays_apply.
Qed.

Lemma part_revertRequest name operation op onAccepted d remoteID :
  operation <> ControlOperationStop -> operation <> ControlOperationCancel -> P (rd_Apply d) ->
  (part (fun _ => True) onAccepted \/
   ((forall w, cond w -> free \/ GetPending id operation (pl_db w) = None) /\ (free -> part (fun _ => True) onAccepted))) ->
  part (fun _ => True) (processRevertRequest foundRows ctx name operation op onAccepted d remoteID).
Proof.
  intros Hs Hc Hp Hon. unfold processRevertRequest.
  eapply (spares_bind _ _ (okay (fun o => o = None \/ part (fun _ => True) onAccepted))).
  { destruct Hon as [Hon|[Hno Hon]].
    - eapply spares_weaken; [|apply part_call, part_reads]. intros [o|e] _; [by right|done].
    - eapply spares_weaken; [|by apply part_pending]. intros [o|e]; [|done]. intros [Hf| ->]; [right; auto|by left]. }
  intros [[req|]|e] Hreq; [|done..]. destruct Hreq as [[=]|Hacc].
  destruct (negb _); [by apply part_complete|]. apply part_then; [parts|].
  intros [[r|]|e']; [|done..]. destruct (negb _); [by apply part_fail|]. apply part_then; [exact Hacc|].
  intros _. by apply part_complete.
Qed.

Lemma part_skipRevert now d remoteID :
  P (rd_Apply d) -> part (fun _ => True) (processPendingSkipRevertControlRequest foundRows ctx now d remoteID).
Proof.
  intros Hp. apply part_revertRequest; [discriminate..|exact Hp|]. right. split; [apply served_skip|].
  intros Hf. destruct (_ == _); [|done]. apply part_then; [exact (served_free Hf _ _)|done].
Qed.

Lemma part_revert d remoteID :
  P (rd_Apply d) -> part (fun _ => True) (processPendingRevertControlRequest foundRows ctx d remoteID).
Proof. intros Hp. apply part_revertRequest; [discriminate..|exact Hp|]. by left. Qed.

(** *** Stop and cancel *)

Lemma part_stopTasks now d st : part (fun _ => True) (stopTasks E foundRows ctx now d st).
Proof. unfold stopTasks. parts. apply part_each. intros t. parts. Qed.

(** What stops and cancels return: the drive goes on in its scope when the request did
    not end it. *)
Definition served (sc : applyTaskScope) (r : remoteDrive * bool) : Prop := mine r.1 /\ (r.2 = false -> rd_Scope r.1 = sc).

Lemma served_on d b : mine d -> served (rd_Scope d) (d, b).
Proof. done. Qed.

Lemma part_stopApply now d :
  mine d -> free -> part (okay (stays (rd_Scope d))) (stopUndispatchedApply E foundRows hasOptions ctx now d).
Proof.
  intros Hd Hf. unfold stopUndispatchedApply. destruct (stoppedStates _) as [ts as_]. apply part_and; [apply part_stopTasks|].
  intros _. apply part_and; [by apply part_update_free|]. intros _. apply stays_apply; [|exact Hd]. destruct Hd as [Hp _]. alike.
Qed.

Lemma part_stopOperation now d :
  mine d -> part (okay mine) (stopUndispatchedApplyOperation E foundRows ctx now d).
Proof.
  intros Hd. unfold stopUndispatchedApplyOperation. destruct (operationResume _) as [op|] eqn:Eo; [|done].
  destruct (stoppedStates _) as [ts os]. apply part_and; [apply part_stopTasks|]. intros _.
  apply part_and; [parts|]. intros _. apply (mine_with d); try done. by eapply suppresses_row.
Qed.

Lemma P_remoteState now setStarted st a : P a -> P (withRemoteState now setStarted st a).
Proof. intros Ha. unfold withRemoteState. destruct (a_StartedAt a); [|destruct (_ && _)]; alike. Qed.

Lemma part_settleEnd now operation setStarted d st tables :
  mine d ->
  part (okay (fun r => stays (rd_Scope d) r.1 /\ r.2 = true))
    (settleRemoteEnd E foundRows hasOptions ctx newTaskIdentifier now operation setStarted d st tables).
Proof.
  intros Hd. eapply part_try; [apply part_reconcile, mine_apply; [apply P_remoteState, Hd|exact Hd]|].
  cbn [rd_Scope set_rd_Apply]. intros d' [Hd' Hsc]. destruct (suppressesDirectParentApplyWrites _) eqn:Es.
  - split; [|done]. split; [|done]. destruct Hd' as [Hp' Hw']. split; [alike|exact Hw'].
  - apply part_and; [apply part_complete_free; by eapply mine_free|]. by intros _.
Qed.

Lemma part_stopEnded now d :
  mine d -> part (okay (served (rd_Scope d))) (completeRemoteStopFromTerminalProgress E foundRows hasOptions ctx newTaskIdentifier now d).
Proof.
  intros Hd. apply part_then; [parts|]. intros [p|e]; [|by apply served_on].
  destruct (negb _); [by apply served_on|]. cbv zeta. destruct (_ == _); [done|].
  eapply spares_weaken; [|by apply part_settleEnd]. intros [[d' b]|e]; [|done]. by intros [[Hd' Hsc] _].
Qed.

Lemma part_unlessStart d : mine d -> part (okay (fun r => r.1 = d)) (unlessStartPending d).
Proof. intros Hd. apply part_and; [parts|]. by intros o. Qed.

Lemma part_resolved d :
  mine d -> part (okay (fun o => forall r, o = Some r -> served (rd_Scope d) r)) (stopOfResolvedApply foundRows ctx d).
Proof.
  intros Hd. unfold stopOfResolvedApply. destruct (suppressesDirectParentApplyWrites _) eqn:Es.
  - eapply part_try; [apply part_getApply, Hd|]. intros [a|] Ha; [|done]. cbn. destruct (IsTerminalApplyState _); [|done].
    intros r [= <-]. split; [by apply mine_apply; [apply Ha|]|done].
  - pose proof (mine_free _ Hd Es) as Hf. eapply (part_try (fun o => forall a, o = Some a -> P a)).
    + apply part_stored. unfold completePendingStopIfStoredApplyResolved, loadApply.
      eapply (spares_bind _ _ (fun r => match r with Ok a => P a | Err _ => True end)).
      { eapply spares_bind; [apply spares_read|]. rewrite (served_id _ (proj1 Hd)).
        intros [[a|]|e] Hr; [|done..]. destruct Hr as [[]|(w & Hw & [= Hfind])]. cbn. by eapply served_row. }
      intros [a|e] Ha; [|done]. destruct (negb _); [done|]. eapply spares_bind; [by apply part_completeStored|].
      intros [u|e] _; [|done]. by intros b [= <-].
    + intros [a|] Ha; [|done]. eapply part_try; [apply part_unlessStart, mine_apply; [by apply Ha|exact Hd]|].
      intros [d' b] Hr. cbn in Hr. subst d'. intros r [= <-]. split; [by apply mine_apply; [apply Ha|]|done].
Qed.

Lemma part_accepted now d remoteID :
  mine d -> part (okay (served (rd_Scope d))) (syncAcceptedStop E foundRows hasOptions ctx newTaskIdentifier now d remoteID).
Proof.
  intros Hd. apply part_then; [parts|]. intros [p|e]; [|done]. destruct (bool_decide _); [done|]. cbv zeta.
  destruct (_ == _); [done|]. destruct (isTerminalProtoState _).
  - eapply part_try; [by apply part_settleEnd|]. intros [d' b] [[Hd' Hsc] _]. cbn in Hd', Hsc.
    destruct (suppressesDirectParentApplyWrites _); [by split|]. eapply spares_weaken; [|by apply part_unlessStart].
    intros [[d2 b2]|e]; [|done]. cbn. by intros ->.
  - apply part_and; [parts|]. intros ts. apply part_and; [parts|]. intros _.
    assert (stays (rd_Scope d) (set_rd_Apply (withRemoteState now true (ProtoStateToStorage (pg_State p)) (rd_Apply d)) d)) as Hst
      by (apply stays_apply; [apply P_remoteState, Hd|exact Hd]).
    apply part_and; [apply part_parent, Hst|]. intros _. split; [apply Hst|done].
Qed.

Lemma part_stop now d :
  mine d -> part (okay (served (rd_Scope d))) (processPendingStopControlRequest E foundRows hasOptions ctx newTaskIdentifier now d).
Proof.
  intros Hd. pose proof (served_on d true Hd) as Hon. apply part_and; [parts|]. intros [req|]; [|by apply served_on].
  eapply part_try; [by apply part_resolved|]. intros [r|] Hr; [by apply Hr|].
  destruct (IsTerminalApplyState _).
  { destruct (suppressesDirectParentApplyWrites _) eqn:Es; [done|].
    apply part_and; [apply part_complete_free; by eapply mine_free|done]. }
  cbv zeta. destruct (_ == _).
  - destruct (usesOperationRemoteResume _) eqn:Eu; (eapply part_try; [|intros d' Hd']).
    + by apply part_stopOperation.
    + by split.
    + apply part_stopApply; [done|by eapply mine_free].
    + apply part_and; [apply part_complete_free; by eapply mine_free|]. intros _. by destruct Hd'.
  - apply part_then; [parts|]. intros [resp|e].
    + destruct (refusal resp); [done|by apply part_accepted].
    + eapply part_try; [by apply part_stopEnded|]. intros [d' [|]] [Hd' Hsc]; by cbn.
Qed.

Lemma part_cancel now d :
  mine d -> part (okay (served (rd_Scope d))) (processPendingCancelControlRequest E foundRows hasOptions ctx newTaskIdentifier now d).
Proof.
  intros Hd. pose proof (served_on d true Hd) as Hon. apply part_and; [parts|]. intros [req|]; [|by apply served_on].
  destruct (_ && _).
  { destruct (suppressesDirectParentApplyWrites _) eqn:Es; [done|].
    apply part_and; [apply part_complete_free; by eapply mine_free|done]. }
  cbv zeta. destruct (_ == _); [done|]. apply part_then; [parts|]. intros [resp|e]; [|done].
  destruct (refusal resp); [done|]. apply part_then; [parts|]. intros [p|e]; [|done].
  destruct (bool_decide _); [done|]. destruct (_ == _); [done|]. destruct (isTerminalProtoState _).
  - eapply spares_weaken; [|by apply part_settleEnd]. intros [[d' b]|e]; [|done]. by intros [[Hd' Hsc] _].
  - assert (stays (rd_Scope d) (set_rd_Apply (withRemoteState now false (ProtoStateToStorage (pg_State p)) (rd_Apply d)) d)) as Hst
      by (apply stays_apply; [apply P_remoteState, Hd|exact Hd]).
    apply part_and; [apply part_parent, Hst|]. intros _. split; [apply Hst|done].
Qed.

Lemma part_serveStop now d :
  mine d ->
  part (okay (served (rd_Scope d))) (processPendingCancelOrStopControlRequest E foundRows hasOptions ctx newTaskIdentifier now d).
Proof.
  intros Hd. eapply part_try; [by apply part_cancel|]. intros [d' [|]] [Hd' Hsc]; cbn in Hd', Hsc; [done|].
  rewrite <- Hsc by done. by apply part_stop.
Qed.

(** *** Polling *)

Definition polls (r : pollResult) : Prop := match r with pollOn d _ => mine d | pollEnded _ => True end.

Lemma part_orEnd {A} (Q : A -> Prop) (p : prog plane (dres A)) k :
  part (okay Q) p -> (forall a, Q a -> part polls (k a)) -> part polls (orEnd p k).
Proof. intros Hp Hk. eapply spares_bind; [exact Hp|]. intros [a|e] Ha; [by apply Hk|done]. Qed.

Lemma part_orEnd_any {A} (p : prog plane (dres A)) k :
  part (fun _ => True) p -> (forall a, part polls (k a)) -> part polls (orEnd p k).
Proof. intros Hp Hk. apply part_then; [exact Hp|]. by intros [a|e]. Qed.

Lemma part_ended {A} (p : prog plane (dres A)) : part (fun _ => True) p -> part polls (ended p).
Proof. intros Hp. by apply part_then. Qed.

Lemma part_failedCause {A} now d tasks message retryable allow cause :
  mine d ->
  part (fun _ => True)
    (failWithCause (A := A) (markRemoteApplyFailedWithOptions E foundRows hasOptions ctx now d tasks message retryable allow) cause).
Proof. intros Hd. apply part_then; [by eapply part_any, part_markFailed|]. by intros []. Qed.

Lemma part_progressFailed now d s remoteID e :
  mine d -> part polls (progressErrored E foundRows hasOptions ctx remoteText now d s remoteID e).
Proof.
  intros Hd. unfold progressErrored. destruct (bool_decide _); [by apply part_ended, part_failMissing|].
  destruct (isTerminalRemoteProgressError e); [by apply part_ended, part_failedCause|]. cbv zeta.
  destruct (_ <=? _)%nat; [by apply part_ended, part_failedCause|exact Hd].
Qed.

Lemma part_stoppedAfterStart now d s tables :
  mine d -> part polls (stoppedAfterStart E foundRows hasOptions ctx newTaskIdentifier now d s tables).
Proof.
  intros Hd. unfold stoppedAfterStart. cbv zeta. destruct (_ <? _); [exact Hd|].
  eapply part_orEnd; [apply part_reconcile, mine_apply; [|exact Hd]; destruct Hd as [Hp _]; alike|]. intros d' _.
  apply part_orEnd_any; [apply part_fail; discriminate|done].
Qed.

Lemma P_polled now allow st p a : P a -> P (polledApply now allow st p a).
Proof. intros Ha. unfold polledApply, mirrorRemoteVolume. destruct (_ =? _); [alike|]. destruct (_ || _); alike. Qed.

Lemma part_adopt now allow release st p d s :
  mine d -> part polls (adoptProgress E foundRows hasOptions ctx newTaskIdentifier now allow release st p d s).
Proof.
  intros Hd. unfold adoptProgress. assert (mine (set_rd_Apply (polledApply now allow st p (rd_Apply d)) d)) as Hd'
    by (apply mine_apply; [apply P_polled, Hd|exact Hd]). destruct (isTerminalProtoState _).
  - eapply part_ended, part_any, part_reconcile, Hd'.
  - do 2 (apply part_orEnd_any; [parts|intros ?]). apply part_orEnd_any; [by apply part_parent|]. intros _.
    by destruct (_ && _).
Qed.

Lemma part_reported now allow release p d s :
  mine d -> part polls (progressReported E foundRows hasOptions ctx newTaskIdentifier displayBlob now allow release p d s).
Proof.
  intros Hd. unfold progressReported. cbv zeta. destruct (bool_decide _); [by apply part_ended, part_failMissing|].
  apply part_then; [parts|]. intros blob. destruct (_ == _); [done|].
  match goal with |- context [set_rd_Apply ?a d] => assert (mine (set_rd_Apply a d)) as Hd' end.
  { apply mine_apply; [|exact Hd]. destruct Hd as [Hp _]. destruct (a_StartedAt _); [done|]. destruct (_ != _); [alike|done]. }
  match goal with |- context [if ?b then stoppedAfterStart _ _ _ _ _ _ _ _ _ else _] => destruct b end;
    [by apply part_stoppedAfterStart|by apply part_adopt].
Qed.

Lemma part_requests now d :
  mine d ->
  part (okay (fun r => mine r.1)) (serveRequests E foundRows hasOptions ctx newTaskIdentifier remoteText now d).
Proof.
  intros Hd. eapply part_try; [by apply part_serveStop|]. intros [d1 [|]] [H1 _]; [exact H1|].
  eapply part_try; [by apply part_cutover|]. intros d2 [H2 _]. apply part_and; [apply part_skipRevert, H2|]. intros _.
  apply part_and; [apply part_revert, H2|]. intros _. exact H2.
Qed.

Lemma part_progressTick now allow release d s :
  mine d -> part polls (progressTick E foundRows hasOptions ctx newTaskIdentifier remoteText displayBlob now allow release d s).
Proof.
  intros Hd. eapply part_orEnd; [by apply part_requests|]. intros [d' [|]] Hd'; [done|]. cbn in Hd'.
  apply part_then; [parts|]. intros [p|e]; [by apply part_reported|by apply part_progressFailed].
Qed.

Lemma part_heartbeatTick now ctxEnded d s : mine d -> part polls (heartbeatTick foundRows ctx now ctxEnded d s).
Proof.
  intros Hd. apply part_then; [by apply part_heartbeat|]. intros [u|e]; [exact Hd|]. destruct ctxEnded; [done|].
  cbn. by destruct (driveEndingHeartbeatFailure _ _ _).
Qed.

Lemma part_pollLoop events allow release d s :
  mine d ->
  part (fun _ => True) (pollLoop E foundRows hasOptions ctx newTaskIdentifier remoteText displayBlob events allow release d s).
Proof.
  revert d s. induction events as [|event events IH]; intros d s Hd; cbn [pollLoop]; [done|].
  eapply (spares_bind _ _ polls).
  - destruct event; [done|by apply part_heartbeatTick|by apply part_progressTick].
  - intros [r|d' s'] Hr; [done|by apply IH].
Qed.

(** *** Resuming at a known remote identifier *)

Context (now : Z) (events : list pollEvent).

Lemma part_poll allow release d :
  mine d ->
  part (fun _ => True) (pollForCompletion E foundRows hasOptions ctx newTaskIdentifier remoteText displayBlob now events allow release d).
Proof. apply part_pollLoop. Qed.

Lemma part_orFails {A} (Q : A -> Prop) (p : prog plane (dres A)) k :
  part (okay Q) p -> (forall a, Q a -> part (fun _ => True) (k a)) -> part (fun _ => True) (orFails p k).
Proof. intros Hp Hk. eapply spares_bind; [exact Hp|]. intros [a|e] Ha; [by apply Hk|done]. Qed.

Lemma part_orFails_any {A} (p : prog plane (dres A)) k :
  part (fun _ => True) p -> (forall a, part (fun _ => True) (k a)) -> part (fun _ => True) (orFails p k).
Proof. intros Hp Hk. apply part_then; [exact Hp|]. by intros [a|e]. Qed.

Lemma part_unlessStopped d k :
  mine d -> (forall d', stays (rd_Scope d) d' -> part (fun _ => True) (k d')) ->
  part (fun _ => True) (unlessStopped E foundRows hasOptions ctx newTaskIdentifier now d k).
Proof.
  intros Hd Hk. eapply part_orFails; [by apply part_serveStop|]. intros [d' [|]] [Hd' Hsc]; [done|].
  apply Hk. split; [exact Hd'|by apply Hsc].
Qed.

Lemma part_failsWith d tasks message retryable cause :
  mine d -> part (fun _ => True) (failsWith E foundRows hasOptions ctx now d tasks message retryable cause).
Proof. intros Hd. by eapply part_orFails_any; [eapply part_any, part_markFailed|]. Qed.

Lemma P_started a : P a -> P (startedNow now a).
Proof. intros Ha. unfold startedNow. destruct (a_StartedAt a); [done|alike]. Qed.

Lemma mine_started st d : mine d -> mine (set_rd_Apply (startedNow now (set_a_State st (rd_Apply d))) d).
Proof. intros Hd. apply mine_apply; [|exact Hd]. apply P_started. destruct Hd as [Hp _]. alike. Qed.

Lemma part_startRequest d :
  mine d -> part (okay mine) (Remote.processPendingStartControlRequest foundRows hasOptions ctx remoteText now d).
Proof.
  intros Hd. apply part_and; [parts|]. intros [req|]; [|exact Hd]. apply part_and; [parts|]. intros [stop|]; [exact Hd|].
  destruct (negb _); [exact Hd|]. cbv zeta. destruct (_ == _).
  { apply part_and; [apply part_fail; discriminate|done]. }
  apply part_then; [parts|]. intros [resp|e].
  - pose proof (mine_started (InitialActiveApplyState (a_Engine (rd_Apply d))) d Hd) as Hd'.
    apply part_and; [by apply part_parent|]. intros _. apply part_and; [parts|]. by intros _.
  - apply part_and; [apply part_fail; discriminate|done].
Qed.

Lemma part_stopBeforeStart d : mine d -> part (fun _ => True) (completePendingStopBeforeRemoteStart foundRows ctx d).
Proof.
  intros Hd. apply part_then; [parts|]. intros [[req|]|e]; [|done..].
  destruct (suppressesDirectParentApplyWrites _) eqn:Es; [done|].
  apply part_then; [apply part_complete_free; by eapply mine_free|]. by intros [].
Qed.

Lemma part_wait waits d :
  mine d ->
  part (fun r => match r with Some (Ok (d', _)) => mine d' | _ => True end)
    (waitForPendingStopBeforeStart E foundRows hasOptions ctx newTaskIdentifier now waits d).
Proof.
  revert d. induction waits as [|stop waits IH]; intros d Hd; cbn [waitForPendingStopBeforeStart].
  all: apply part_then; [parts|]; intros [[req|]|e]; [|exact Hd|done].
  all: destruct (suppressesDirectParentApplyWrites _).
  1,3: eapply spares_bind; [eapply (part_try (served (rd_Scope d)) (fun r => mine r.1)); [by apply part_serveStop|]|].
  1,3: intros [d' b] [Hd' _]; apply part_and; [parts|]; intros still; exact Hd'.
  1,2: intros [[d' b]|e] Hr; exact Hr.
  all: eapply spares_bind; [by apply part_serveStop|]; intros [[d' b]|e] Hr; [|done].
  - done.
  - destruct stop; [done|]. apply IH, Hr.
Qed.

Lemma part_startQueued d remoteID k :
  mine d -> (forall d', mine d' -> part (fun _ => True) (k d')) ->
  part (fun _ => True) (startQueued E foundRows hasOptions ctx newTaskIdentifier now d remoteID k).
Proof.
  intros Hd Hk. apply part_unlessStopped; [exact Hd|]. intros d1 [H1 _]. apply part_then; [parts|]. intros [resp|e]; [|done].
  pose proof (mine_started (InitialActiveApplyState (a_Engine (rd_Apply d1))) d1 H1) as H2.
  apply part_orFails_any; [by apply part_parent|]. intros _. by apply Hk.
Qed.

Lemma part_startStopped d remoteID startRequested tables k :
  mine d -> (forall d', mine d' -> part (fun _ => True) (k d')) ->
  part (fun _ => True)
    (startStopped E foundRows hasOptions ctx newTaskIdentifier remoteText now d remoteID startRequested tables k).
Proof.
  intros Hd Hk. apply part_orFails_any; [by apply part_stopBeforeStart|]. intros [|]; [done|].
  apply part_then; [parts|]. intros [resp|e].
  - apply part_orFails_any; [apply part_requeue|]. intros _. apply Hk, mine_started, Hd.
  - eapply part_orFails_any.
    + eapply part_any, part_reconcile, mine_apply; [|exact Hd]. destruct Hd as [Hp _]. alike.
    + intros d'. destruct startRequested; [|done]. apply part_orFails_any; [apply part_fail; discriminate|done].
Qed.

Lemma part_refreshStopped d remoteID startRequested k :
  mine d -> (forall d', mine d' -> part (fun _ => True) (k d')) ->
  part (fun _ => True)
    (refreshStopped E foundRows hasOptions ctx newTaskIdentifier remoteText now d remoteID startRequested k).
Proof.
  intros Hd Hk. apply part_then; [parts|]. intros [p|e].
  - destruct (bool_decide _); [by apply part_orFails_any; [apply part_failMissingStopped|]|]. cbv zeta.
    destruct (_ == _); [done|].
    match goal with |- context [set_rd_Apply ?a d] => assert (P a) as Hp by (destruct Hd as [Hp _]; alike) end.
    destruct (_ && _).
    { eapply part_orFails_any; [|done]. eapply part_any, part_reconcile, mine_apply; [|exact Hd].
      destruct Hd as [Hp0 _]. destruct (IsState _ [Apply.Pending]); [|apply P_started]; alike. }
    assert (forall d', mine d' -> part (fun _ => True) (orFails (persistParentApply hasOptions ctx d') (fun _ =>
      if startRequested then orFails (completeApplyStartRequestForScope foundRows ctx d') (fun _ => k d') else k d'))) as Hfin.
    { intros d' Hd'. apply part_orFails_any; [by apply part_parent|]. intros _.
      destruct startRequested; [apply part_orFails_any; [parts|intros _]|]; by apply Hk. }
    destruct (IsState _ _); [apply part_startStopped; [by apply mine_apply|exact Hfin]|apply Hfin; by apply mine_apply].
  - destruct (bool_decide _); [by apply part_orFails_any; [apply part_failMissingStopped|]|].
    destruct (isTerminalRemoteProgressError e); [|done]. by eapply part_orFails_any; [eapply part_any, part_markFailed|].
Qed.

Lemma part_reattach d startRequested :
  mine d ->
  part (fun _ => True)
    (Remote.reattach E foundRows hasOptions ctx newTaskIdentifier remoteText displayBlob now events d startRequested).
Proof.
  intros Hd. unfold Remote.reattach. cbv zeta.
  assert (forall d' remoteID, mine d' -> part (fun _ => True)
    (if IsState (a_State (rd_Apply d')) [Apply.Stopped] || startRequested
     then refreshStopped E foundRows hasOptions ctx newTaskIdentifier remoteText now d' remoteID startRequested (fun d =>
            pollForCompletion E foundRows hasOptions ctx newTaskIdentifier remoteText displayBlob now events startRequested
              (releases d) d)
     else pollForCompletion E foundRows hasOptions ctx newTaskIdentifier remoteText displayBlob now events startRequested
              (releases d') d')) as Hcheck.
  { intros d' remoteID Hd'. destruct (_ || _); [apply part_refreshStopped; [done|]; intros d2 H2|]; by apply part_poll. }
  destruct (_ && _); [|by apply Hcheck]. apply part_startQueued; [done|]. intros d' Hd'. by apply Hcheck.
Qed.

Lemma part_resumeStarted waits d :
  mine d ->
  part (fun _ => True)
    (resumeStarted E foundRows hasOptions ctx newTaskIdentifier remoteText displayBlob now events waits d).
Proof.
  intros Hd. eapply spares_bind; [by apply part_wait|]. intros [[[d' [|]]|e]|] Hr; [done| |done..].
  destruct (IsState _ _); [|by apply part_reattach]. apply part_unlessStopped; [exact Hr|]. intros d2 [H2 _].
  eapply part_orFails; [by apply part_startRequest|]. intros d3 H3. by apply part_reattach.
Qed.

(** *** The cutover of an operation *)

Lemma part_trigger d remoteID :
  mine d ->
  part (okay (fun r => mine r.1))
    (triggerRemoteOperationCutover E foundRows hasOptions ctx newTaskIdentifier now d remoteID).
Proof.
  intros Hd.
  assert (forall message cause, part (okay (fun r => mine r.1))
    (failMissingRemoteApply (A := remoteDrive * bool) E foundRows hasOptions ctx now d message cause)) as Hmissing.
  { intros message cause. apply part_and; [by eapply part_any, part_markFailed|done]. }
  apply part_then; [parts|]. intros [p|e]; [|by destruct (bool_decide _)].
  destruct (bool_decide _); [apply Hmissing|]. cbv zeta. destruct (_ == _); [done|].
  assert (forall st, P (set_a_State st (rd_Apply d))) as Hp by (intros st; destruct Hd as [Hp _]; alike).
  destruct (isTerminalProtoState _).
  { eapply part_try; [apply part_reconcile, mine_apply; [|exact Hd]|intros d' [Hd' _]; exact Hd'].
    apply P_started. specialize (Hp (ProtoStateToStorage (pg_State p))). alike. }
  destruct (_ || _); [by apply mine_apply|]. destruct (negb _); [done|].
  eapply part_try; [by apply part_serveStop|]. intros [d' [|]] [Hd' _]; [exact Hd'|]. cbn in Hd'.
  apply part_then; [parts|]. intros [resp|e]; [|done]. cbn. destruct (refusal resp); [done|].
  apply mine_apply; [|exact Hd']. destruct Hd' as [Hp' _]. alike.
Qed.
End Parts.

(** ** Dispatch *)

(** The Apply requests the remote was sent. *)
Definition applied (w : plane) : list RemoteApplyRequest :=
  omap (fun c => match c with SentApply req => Some req | _ => None end) (pl_sent w).

(** Those that the statements of a run sent. *)
Fixpoint dispatched {R} (env : nat -> envStep plane) (n : nat) (p : prog plane R) (w : plane) : list RemoteApplyRequest :=
  match p with
  | Ret _ => []
  | Exec stmt k =>
      let w := interfere (env n) w in
      match fault (env n) with
      | Some e => dispatched env (Datatypes.S n) (k (Err e)) w
      | None => (drop (length (applied w)) (applied (stmt w).1) ++ dispatched env (Datatypes.S n) (k (stmt w).2) (stmt w).1)%list
      end
  end.

(** As long as each state a statement runs in satisfies [cond], no statement changes
    [view], and what is dispatched and the result satisfy [Q]. *)
Fixpoint dispatching {X R} (view : plane -> X) (cond : plane -> Prop) (Q : list RemoteApplyRequest -> R -> Prop) (p : prog plane R)
    : Prop :=
  match p with
  | Ret r => Q [] r
  | Exec stmt k =>
      (forall w, cond w -> view (stmt w).1 = view w /\
         exists new, applied (stmt w).1 = (applied w ++ new)%list /\
           dispatching view cond (fun l r => Q (new ++ l)%list r) (k (stmt w).2)) /\
      (forall e, dispatching view cond Q (k (Err e)))
  end.

Section Dispatching.
Context {X : Type} (view : plane -> X) (cond : plane -> Prop).

Lemma dispatching_run {R} (Q : list RemoteApplyRequest -> R -> Prop) env (p : prog plane R) n w w' r n' :
  dispatching view cond Q p -> Forall cond (trace env n p w) -> runE env n p w = (w', r, n') ->
  Q (dispatched env n p w) r /\ leaves view env n p w.
Proof.
  revert Q n w. induction p as [x | A stmt k IH]; intros Q n w Hp Htr Hrun; cbn in Hrun, Htr |- *.
  { by simplify_eq. }
  destruct Hp as [Hs Hk]. apply Forall_cons in Htr as [Hw Htr].
  destruct (fault (env n)) as [e|]; [by eapply IH|].
  destruct (Hs _ Hw) as (Hv & new & Hnew & Hq). destruct (stmt _) as [w1 a]. cbn in *.
  destruct (IH a _ (Datatypes.S n) w1 Hq Htr Hrun) as [HQ Hl]. rewrite Hnew, drop_app_length. by repeat split.
Qed.

Lemma dispatching_weaken {R} (Q Q' : list RemoteApplyRequest -> R -> Prop) (p : prog plane R) :
  (forall l r, Q l r -> Q' l r) -> dispatching view cond Q p -> dispatching view cond Q' p.
Proof.
  revert Q Q'. induction p as [r | A stmt k IH]; intros Q Q' HQ; cbn; [apply HQ|]. intros [Hs Hk]. split.
  - intros w Hw. destruct (Hs w Hw) as (Hv & new & Hnew & Hq). split; [done|]. exists new. split; [done|].
    eapply IH; [|exact Hq]. cbn. auto.
  - intros e. eapply IH; [exact HQ|apply Hk].
Qed.

Lemma dispatching_bind {R R'} (Q : list RemoteApplyRequest -> R -> Prop) (Q' : list RemoteApplyRequest -> R' -> Prop)
    (p : prog plane R) (f : R -> prog plane R') :
  dispatching view cond Q p -> (forall l r, Q l r -> dispatching view cond (fun l' r' => Q' (l ++ l')%list r') (f r)) ->
  dispatching view cond Q' (pbind p f).
Proof.
  revert Q Q'. induction p as [r | A stmt k IH]; intros Q Q' Hp Hf; cbn in *; [exact (Hf [] r Hp)|].
  destruct Hp as [Hs Hk]. split.
  - intros w Hw. destruct (Hs w Hw) as (Hv & new & Hnew & Hq). split; [done|]. exists new. split; [done|].
    eapply IH; [exact Hq|]. cbn. intros l r Hr. eapply dispatching_weaken; [|by apply Hf].
    cbn. intros l' r'. by rewrite app_assoc.
  - intros e. eapply IH; [apply Hk|exact Hf].
Qed.

(** A part that dispatches nothing. *)
Lemma dispatching_part {R} (Q : R -> Prop) (p : prog plane R) :
  spares (fun w => (view w, applied w)) cond Q p -> dispatching view cond (fun l r => l = [] /\ Q r) p.
Proof.
  induction p as [r | A stmt k IH]; cbn; [done|]. intros [Hs Hk]. split; [|auto].
  intros w Hw. destruct (Hs w Hw) as [[= Hv Ha] Hq]. split; [done|]. exists []. rewrite app_nil_r. auto.
Qed.
End Dispatching.

Section Drives.
Context {X : Type} (view : plane -> X) (cond : plane -> Prop) (id : Z) (P : Apply -> Prop).
Context {ST : Type} `{!StatementTypes ST}.
Context (E : EngineNames) (foundRows hasOptions : bool) (ctx : leaseCtx) (newTaskIdentifier : TaskRec -> string -> string).
Context (remoteText : remoteErr -> string) (displayBlob : gmap string string -> res string) (sha256hex : string -> string).
Context (planRow : store -> Z -> option Plan) (driveText : remoteDriveErr -> string) (now : Z) (events : list pollEvent).
Context (free : Prop) `{HS : !Served (fun w => (view w, applied w)) cond id P foundRows ctx free}.
Hypothesis Hsend : forall c w, view (set_pl_sent c w) = view w.
Hypothesis Hmulti : forall w, cond w -> free \/ (1 < length (ListByApply id (pl_db w)))%nat.

Abbreviation part := (spares (fun w => (view w, applied w)) cond).
Abbreviation mine := (mine P free).
Abbreviation stays := (stays P free).

(** A request of a drive in scope [sc]: the drive knew no remote identifier, and the
    key is that of the drive. *)
Definition allowed (sc : applyTaskScope) (req : RemoteApplyRequest) : Prop :=
  exists d1 d2, stays sc d1 /\ remoteApplyID d1 = "" /\ stays sc d2 /\
                ra_IdempotencyKey req = remoteApplyIdempotencyKey sha256hex d2.

Definition once (sc : applyTaskScope) (l : list RemoteApplyRequest) : Prop :=
  l = [] \/ exists req, l = [req] /\ allowed sc req.

Abbreviation sends sc := (dispatching view cond (fun l _ => once sc l)).

Lemma sends_nothing {R} sc (p : prog plane R) : part (fun _ => True) p -> sends sc p.
Proof. intros Hp. eapply dispatching_weaken; [|by apply dispatching_part]. intros l r [-> _]. by left. Qed.

Lemma sends_after {R R'} sc (Q : R -> Prop) (p : prog plane R) (f : R -> prog plane R') :
  part Q p -> (forall r, Q r -> sends sc (f r)) -> sends sc (pbind p f).
Proof. intros Hp Hf. eapply dispatching_bind; [by apply dispatching_part|]. intros l r [-> Hr]. by apply Hf. Qed.

Lemma sends_orFails {A} sc (Q : A -> Prop) (p : prog plane (dres A)) k :
  part (okay Q) p -> (forall a, Q a -> sends sc (k a)) -> sends sc (orFails p k).
Proof. intros Hp Hk. eapply sends_after; [exact Hp|]. intros [a|e] Ha; [by apply Hk|by left]. Qed.

Lemma sends_unlessStopped d k :
  mine d -> (forall d', stays (rd_Scope d) d' -> sends (rd_Scope d) (k d')) ->
  sends (rd_Scope d) (unlessStopped E foundRows hasOptions ctx newTaskIdentifier now d k).
Proof using HS.
  intros Hd Hk. eapply sends_orFails; [by eapply part_serveStop|]. intros [d' [|]] [Hd' Hsc]; [by left|].
  apply Hk. split; [exact Hd'|by apply Hsc].
Qed.

Lemma applied_send c w : applied (set_pl_sent (pl_sent w ++ [SentApply c])%list w) = (applied w ++ [c])%list.
Proof. unfold applied. cbn. by rewrite omap_app. Qed.

Lemma sends_apply {R} sc req (f : rres (option RemoteApplyResponse) -> prog plane R) :
  allowed sc req -> (forall r, part (fun _ => True) (f r)) -> sends sc (let! r := sendApply req in f r).
Proof using Hsend.
  intros Hreq Hf. split.
  - intros w Hw. cbn. split; [apply Hsend|]. exists [req]. split; [apply applied_send|].
    eapply dispatching_weaken; [|apply dispatching_part, Hf]. intros l r [-> _]. right. by exists req.
  - intros e. apply sends_nothing, Hf.
Qed.

Lemma part_applyErrored d tasks e : mine d -> part (fun _ => True) (applyErrored E foundRows hasOptions ctx remoteText now d tasks e).
Proof using HS. intros Hd. unfold applyErrored. destruct (isAmbiguousRemoteApplyDispatchError e); [done|by eapply part_failsWith]. Qed.

Lemma P_dispatched a : P a -> P (dispatchedApply now a).
Proof using HS.
  intros Ha. unfold dispatchedApply, startedNow. cbn. destruct (a_StartedAt a);
    match goal with |- P ?b => exact (served_alike (Served := HS) a b eq_refl eq_refl eq_refl Ha) end.
Qed.

Lemma sends_tasks d plan tasks :
  mine d -> remoteApplyID d = "" ->
  sends (rd_Scope d) (dispatchTasks E foundRows hasOptions ctx newTaskIdentifier remoteText displayBlob sha256hex now events d plan tasks).
Proof using HS Hsend.
  intros Hd Hid. unfold dispatchTasks. cbv zeta.
  match goal with |- context [if ?b then failsWith _ _ _ _ _ _ _ _ _ _ else _] => destruct b end.
  { by eapply sends_nothing, part_failsWith. }
  apply sends_unlessStopped; [done|]. intros d' [Hd' Hsc]. apply sends_apply; [by exists d, d'|].
  intros [[resp|]|e]; [|by eapply part_failsWith|by apply part_applyErrored].
  destruct (negb _); [by eapply part_failsWith|]. destruct (_ == _); [by eapply part_failsWith|].
  eapply part_orFails; [by eapply part_persistID|]. intros d2 H2.
  assert (mine (set_rd_Apply (dispatchedApply now (rd_Apply d2)) d2)) as H3 by (apply mine_apply; [apply P_dispatched, H2|exact H2]).
  eapply part_orFails_any; [by eapply part_parent|]. intros _. by eapply part_poll.
Qed.

Lemma sends_loadedOr {A} d what (p : prog plane (dres A)) k :
  mine d -> part (fun _ => True) p -> (forall a, sends (rd_Scope d) (k a)) ->
  sends (rd_Scope d) (loadedOr E foundRows hasOptions ctx driveText now d what p k).
Proof using HS. intros Hd Hp Hk. eapply sends_after; [exact Hp|]. intros [a|e] _; [apply Hk|by eapply sends_nothing, part_failsWith]. Qed.

Lemma sends_pending d :
  mine d -> remoteApplyID d = "" ->
  sends (rd_Scope d)
    (dispatchPendingApply E foundRows hasOptions ctx newTaskIdentifier remoteText displayBlob sha256hex planRow driveText now events d).
Proof using HS Hsend.
  intros Hd Hid. apply sends_loadedOr; [done|by eapply part_call, part_reads|].
  intros [plan|]; [|by eapply sends_nothing, part_failsWith]. apply sends_loadedOr; [done|by eapply part_load|].
  intros [|t ts]; [by eapply sends_nothing, part_failsWith|].
  eapply (sends_orFails _ (fun _ => True)).
  - eapply spares_weaken; [|by eapply part_prepare]. by intros [].
  - intros tasks _. by apply sends_tasks.
Qed.

Lemma sends_resume waits d :
  mine d ->
  sends (rd_Scope d)
    (resumeApply E foundRows hasOptions ctx newTaskIdentifier remoteText displayBlob sha256hex planRow driveText now events waits d).
Proof using HS Hsend.
  intros Hd. apply sends_unlessStopped; [done|]. intros d1 [H1 E1].
  eapply sends_orFails; [by eapply part_cutover|]. intros d2 [H2 E2]. rewrite E1 in E2. rewrite <- E2.
  destruct (shouldDispatchQueuedRemoteApply d2) eqn:Es.
  { apply sends_pending; [done|]. unfold shouldDispatchQueuedRemoteApply in Es.
    destruct (remoteApplyID d2 != "") eqn:Er; [done|]. by reflect_guards. }
  apply sends_nothing. destruct (hasAmbiguousRemoteDispatchState d2); [by eapply part_failsWith|].
  eapply part_orFails_any; [by eapply part_call, part_reads|].
  intros [req|]; [by eapply part_resumeStarted|by eapply part_reattach].
Qed.
(** *** The entries *)

(** The scope of an operation, as it was read. *)
Definition scopeRead (opID : Z) (sc : applyTaskScope) : Prop :=
  exists op w1 w2, cond w1 /\ cond w2 /\ findOperation opID (pl_db w1) = Some op /\
    sc = {| sc_applyOperationID := opID; sc_operation := Some op;
            sc_multiOperation := (1 <? length (ListByApply id (pl_db w2)))%nat |}.

Lemma part_scope apply opID : P apply -> part (okay (scopeRead opID)) (loadOperationApplyTaskScope apply opID).
Proof using HS.
  intros Hp. unfold loadOperationApplyTaskScope. rewrite (served_id (Served := HS) _ Hp).
  eapply (part_try _ _ (fun o => forall op, o = Some op -> exists w, cond w /\ findOperation opID (pl_db w) = Some op)).
  { apply part_stored. eapply spares_weaken; [|apply spares_read]. intros [o|e] Hr; [|done].
    destruct Hr as [[]|(w & Hw & [= ->])]. intros op Hop. by exists w. }
  intros [op|] Hop; [|done]. destruct (Hop op eq_refl) as (w1 & Hw1 & Hf1). destruct (negb _); [done|]. destruct (_ == _); [done|].
  destruct (_ && _); [done|].
  eapply (part_try _ _ (fun ops => exists w, cond w /\ ops = ListByApply id (pl_db w))).
  { apply part_stored. eapply spares_weaken; [|apply spares_read]. intros [o|e] Hr; [|done].
    destruct Hr as [[]|(w & Hw & [= ->])]. by exists w. }
  intros ops (w2 & Hw2 & ->). cbn. destruct (negb _); [done|]. by exists op, w1, w2.
Qed.

Lemma mine_scope apply opID sc : P apply -> scopeRead opID sc -> mine {| rd_Apply := apply; rd_Scope := sc |}.
Proof using Hmulti.
  intros Hp (op & w1 & w2 & Hw1 & Hw2 & Hop & ->). split; [exact Hp|]. destruct (Hmulti w2 Hw2) as [Hf|Hm]; [by left|right].
  unfold suppressesDirectParentApplyWrites, usesOperationRemoteResume, operationResume.
  cbn [sc_multiOperation sc_operation rd_Scope]. by rewrite (proj2 (Nat.ltb_lt _ _) Hm).
Qed.

Lemma part_withTasks d k : part (fun _ => True) k -> part (fun _ => True) (withOperationTasks E d k).
Proof using HS. intros Hk. eapply part_orFails_any; [by eapply part_load|]. by intros [|t ts]. Qed.

Lemma sends_finalizer d op :
  mine d ->
  sends (rd_Scope d)
    (dispatchRemoteGroupFinalizer E foundRows hasOptions ctx newTaskIdentifier remoteText displayBlob sha256hex planRow now events d op).
Proof using HS Hsend.
  intros Hd. unfold dispatchRemoteGroupFinalizer. cbv zeta. destruct (_ == _); [by left|].
  eapply (sends_orFails _ (fun _ => True)).
  { eapply spares_weaken; [|by eapply part_call, part_reads]. by intros []. }
  intros [plan|] _; [|by left]. destruct (finalizerVSchemaChanges _ _); [|by left].
  destruct (remoteApplyID d != "") eqn:Er; [by eapply sends_nothing, part_poll|].
  assert (remoteApplyID d = "") as Hid by by reflect_guards.
  apply sends_unlessStopped; [done|]. intros d' [Hd' Hsc]. apply sends_apply; [by exists d, d'|].
  intros [[resp|]|e]; [|by eapply part_failsWith|by apply part_applyErrored].
  destruct (_ && _); [|by eapply part_failsWith].
  eapply part_orFails; [by eapply part_persistID|]. intros d2 H2. by eapply part_poll.
Qed.

(** A drive of an operation, or of its cutover. *)
Definition operationDrive (cutover : bool) (waits : list bool) (apply : Apply) (opID : Z) : prog plane (option (dres unit)) :=
  if cutover then ResumeApplyOperationCutover E foundRows hasOptions ctx newTaskIdentifier remoteText displayBlob now events apply opID
  else ResumeApplyOperation E foundRows hasOptions ctx newTaskIdentifier remoteText displayBlob sha256hex planRow driveText now events
         waits apply opID.

Lemma part_cutoverDrive apply opID :
  P apply ->
  part (fun _ => True)
    (ResumeApplyOperationCutover E foundRows hasOptions ctx newTaskIdentifier remoteText displayBlob now events apply opID).
Proof using HS Hmulti.
  intros Hp. unfold ResumeApplyOperationCutover. destruct (_ <=? _); [done|].
  eapply part_orFails; [by apply part_scope|]. intros sc Hsc. pose proof (mine_scope _ _ _ Hp Hsc) as Hd. cbv zeta.
  destruct (operationResume sc) as [op|]; [|done]. apply part_withTasks. destruct (negb _); [done|]. destruct (_ == _); [done|].
  eapply part_unlessStopped; [exact HS|exact Hd|]. intros d' [Hd' _]. eapply part_orFails; [by eapply part_trigger|].
  intros [d2 [|]] H2; [|done]. by eapply part_poll.
Qed.

(** At most one request, of a drive in a scope that was read. *)
Definition onceRead (opID : Z) (l : list RemoteApplyRequest) : Prop :=
  l = [] \/ exists sc req, l = [req] /\ scopeRead opID sc /\ allowed sc req.

Lemma sends_drive cutover waits apply opID :
  P apply -> dispatching view cond (fun l _ => onceRead opID l) (operationDrive cutover waits apply opID).
Proof using HS Hsend Hmulti.
  intros Hp. destruct cutover.
  { eapply dispatching_weaken; [|by apply dispatching_part, part_cutoverDrive]. intros l r [-> _]. by left. }
  unfold operationDrive, ResumeApplyOperation. destruct (_ <=? _); [by left|].
  eapply dispatching_bind; [by apply dispatching_part, part_scope|]. intros l [sc|e] [-> Hsc]; [|by left].
  pose proof (mine_scope _ _ _ Hp Hsc) as Hd. cbv zeta. cbn [app].
  eapply (dispatching_weaken _ _ (fun l _ => once sc l)).
  { intros l _ [->|(req & -> & Hreq)]; [by left|]. right. by exists sc, req. }
  assert (sends sc (withOperationTasks E {| rd_Apply := apply; rd_Scope := sc |}
    (resumeApply E foundRows hasOptions ctx newTaskIdentifier remoteText displayBlob sha256hex planRow driveText now events waits
       {| rd_Apply := apply; rd_Scope := sc |}))) as Hwork.
  { eapply (sends_orFails _ (fun _ => True)).
    - eapply spares_weaken; [|by eapply part_load]. by intros [].
    - intros [|t ts] _; [by left|]. exact (sends_resume waits _ Hd). }
  destruct (sc_operation sc) as [op|]; [|exact Hwork]. destruct (_ == _); [exact (sends_finalizer _ op Hd)|exact Hwork].
Qed.
End Drives.
