(* ===== verification/RemoteSafety.v ===== *)
(** * What a remote drive changes and sends

    Theorems about the gRPC client of [Remote].  A drive dispatches an attempt at most
    once and under one idempotency key, which tells attempts apart; the drive of one
    operation of several leaves the apply's row and its stop and cancel requests to the
    operator; and a remote that stops answering is not polled forever. *)

From S2P Require Import Prelude GoStrings State Convert Sql Store Operations Applies Control Projection Fencing Tasks Plane Fanout Stopping LocalControl Sequential Conflict Grouped Resume Sends Remote RemoteParts.

Local Open Scope string_scope.
Local Open Scope Z_scope.

(** ** Views of the store *)

Section StoreView.
Context {Y : Type} (f : store -> Y) (cond : plane -> Prop).
Abbreviation part := (spares (fun w => (f (pl_db w), applied w)) cond).

Lemma part_view {R} (p : prog store R) : (forall v, preserves (fun s => f s = v) p) -> part (fun _ => True) (onStore p).
Proof.
  intros Hp. apply spares_always. apply (keepsView_store _ _ (fun s s' => f s' = f s)); [|done|].
  - intros s. apply Hp.
  - intros w s _ Hs. by rewrite <- Hs.
Qed.

Lemma part_sentControl {A} op remoteID environment (g : remoteView -> rres A) :
  part (fun _ => True) (commandRemote (SentControl op remoteID environment) g).
Proof. split; [|done]. intros w _. cbn. split; [|done]. f_equal. unfold applied. cbn. by rewrite omap_app, app_nil_r. Qed.
End StoreView.

(** ** The same drive again *)

(** The rows of a drive of operation [opID]: the apply and the operation keep what
    identifies them and their attempt, and the apply has several operations or not. *)
Definition steady (apply : Apply) (opID : Z) (op : ApplyOperation) (multi : bool) (w : plane) : Prop :=
  (forall a, findApply (a_ID apply) (pl_db w) = Some a ->
     a_ApplyIdentifier a = a_ApplyIdentifier apply /\ a_Attempt a = a_Attempt apply) /\
  (forall o, findOperation opID (pl_db w) = Some o ->
     op_Deployment o = op_Deployment op /\ op_OperationKey o = op_OperationKey op /\ op_Attempt o = op_Attempt op) /\
  (1 <? length (ListByApply (a_ID apply) (pl_db w)))%nat = multi.

(** What the key is computed from. *)
Definition sameAttempt (apply a : Apply) : Prop :=
  a_ID a = a_ID apply /\ a_ApplyIdentifier a = a_ApplyIdentifier apply /\ a_Attempt a = a_Attempt apply.

Lemma served_attempt apply (cond : plane -> Prop) foundRows ctx :
  (forall w a, cond w -> findApply (a_ID apply) (pl_db w) = Some a ->
     a_ApplyIdentifier a = a_ApplyIdentifier apply /\ a_Attempt a = a_Attempt apply) ->
  Served (fun w => (tt, applied w)) cond (a_ID apply) (sameAttempt apply) foundRows ctx True.
Proof.
  intros Hrow. assert (forall R (p : prog store R), spares (fun w => (tt, applied w)) cond (fun _ => True) (onStore p)) as Hstore.
  { intros R p. apply spares_always, (keepsView_store _ _ (fun _ _ => True)); [|done..]. intros s. apply preserves_True. }
  split; try by auto.
  - by intros a [].
  - intros a b H1 H2 H3 (? & ? & ?). unfold sameAttempt. by rewrite H1, H2, H3.
  - intros w a Hw Ha. split; [|by eapply Hrow]. apply find_some in Ha as [_ Ha]. by apply Z.eqb_eq.
  - intros. apply (part_sentControl (fun _ => tt)).
Qed.

(** The drive as the operator starts it. *)
Definition freshDrive (apply : Apply) (opID : Z) (op : ApplyOperation) (multi : bool) : remoteDrive :=
  {| rd_Apply := apply; rd_Scope := {| sc_applyOperationID := opID; sc_operation := Some op; sc_multiOperation := multi |} |}.

Lemma key_steady apply opID op multi o d :
  sameAttempt apply (rd_Apply d) ->
  op_Deployment o = op_Deployment op -> op_OperationKey o = op_OperationKey op -> op_Attempt o = op_Attempt op ->
  rd_Scope d = {| sc_applyOperationID := opID; sc_operation := Some o; sc_multiOperation := multi |} ->
  idempotencyParts d = idempotencyParts (freshDrive apply opID op multi).
Proof.
  intros (_ & Hn & Ha) Hd Hk Ht Hsc. unfold idempotencyParts, operationResume. rewrite Hsc, Hn, Ha. cbn.
  destruct multi; [|done]. by rewrite Hd, Hk, Ht.
Qed.

Lemma find_steady apply opID op multi o w :
  steady apply opID op multi w -> findOperation opID (pl_db w) = Some o ->
  op_Deployment o = op_Deployment op /\ op_OperationKey o = op_OperationKey op /\ op_Attempt o = op_Attempt op.
Proof. intros (_ & Ho & _). apply Ho. Qed.

Section Once.
Context {ST : Type} `{!StatementTypes ST}.
Context (E : EngineNames) (foundRows hasOptions : bool) (ctx : leaseCtx) (newTaskIdentifier : TaskRec -> string -> string).
Context (remoteText : remoteErr -> string) (displayBlob : gmap string string -> res string) (sha256hex : string -> string).
Context (planRow : store -> Z -> option Plan) (driveText : remoteDriveErr -> string) (now : Z) (events : list pollEvent).

Abbreviation theDrive := (operationDrive E foundRows hasOptions ctx newTaskIdentifier remoteText displayBlob sha256hex planRow
  driveText now events).

(** What a drive dispatches was read from steady rows. *)
Lemma drive_dispatches (cutover : bool) (waits : list bool) (apply : Apply) (opID : Z) (op : ApplyOperation) (multi : bool)
    (env : nat -> envStep plane) (w w' : plane) r n'
    (Hrun : runE env 0 (theDrive cutover waits apply opID) w = (w', r, n'))
    (Hsteady : Forall (steady apply opID op multi) (trace env 0 (theDrive cutover waits apply opID) w)) :
  let l := dispatched env 0 (theDrive cutover waits apply opID) w in
  l = [] \/
  exists req w0 o, l = [req] /\ w0 ∈ trace env 0 (theDrive cutover waits apply opID) w /\
    findOperation opID (pl_db w0) = Some o /\ (multi = true -> rowRemoteID o = "") /\
    ra_IdempotencyKey req = remoteApplyIdempotencyKey sha256hex (freshDrive apply opID op multi).
Proof.
  set (p := theDrive cutover waits apply opID) in *. intros l. subst l.
  set (seen := trace env 0 p w) in *.
  assert (Served (fun w => (tt, applied w)) (fun u => steady apply opID op multi u /\ u ∈ seen) (a_ID apply)
    (sameAttempt apply) foundRows ctx True) as HS by (apply served_attempt; by intros u a [[Hu _] _] Ha; apply Hu).
  destruct (dispatching_run (fun _ => tt) (fun u => steady apply opID op multi u /\ u ∈ seen) (fun l _ =>
    onceRead (fun u => steady apply opID op multi u /\ u ∈ seen) (a_ID apply) (sameAttempt apply) sha256hex True opID l)
    env p 0%nat w w' r n') as [Hl _]; [|by apply Forall_forall; intros u Hu; split; [by eapply Forall_forall in Hsteady|]|exact Hrun|].
  { by eapply sends_drive; [exact HS|..]; auto. }
  destruct Hl as [Hl|(sc & req & Hl & (o & w1 & w2 & [H1 Hw1] & [H2 _] & Ho & ->) & (d1 & d2 & [H3 E3] & Hid & [H4 E4] & Hkey))];
    [by left|right].
  assert ((1 <? length (ListByApply (a_ID apply) (pl_db w2)))%nat = multi) as Hm by by destruct H2 as (_ & _ & ?).
  rewrite Hm in E3, E4. destruct (find_steady _ _ _ _ _ _ H1 Ho) as (Hd & Hk & Ha).
  exists req, w1, o. split; [exact Hl|]. split; [exact Hw1|]. split; [exact Ho|]. split.
  - intros ->. unfold remoteApplyID, operationResume in Hid. by rewrite E3 in Hid.
  - rewrite Hkey. unfold remoteApplyIdempotencyKey. by rewrite (key_steady apply opID op multi o d2 (proj1 H4) Hd Hk Ha E4).
Qed.

(** C15: a remote drive dispatches its attempt at most once, and always under the same
    key.  Consider a drive of an operation during which, in every state it works in,
    the apply's row keeps its identifier and attempt, the operation's row keeps its
    deployment, key and attempt, and the apply has several operations throughout or
    throughout not ([steady]).  Whatever else happens around its statements, it
    sends the data plane no Apply request or one; it sent one only after it had read
    the operation's row, which for an operation of several had no remote identifier;
    and the request's idempotency key is determined by the apply's identifier and, for
    one of several operations, the operation's deployment, key and attempt, otherwise
    the apply's attempt, so that a drive that repeats the attempt after a crash
    presents the same key. *)
Theorem remote_dispatch_once (cutover : bool) (waits : list bool) (apply : Apply) (opID : Z) (op : ApplyOperation) (multi : bool)
    (env : nat -> envStep plane) (w w' : plane) r n'
    (Hrun : runE env 0 (theDrive cutover waits apply opID) w = (w', r, n'))
    (Hsteady : Forall (steady apply opID op multi) (trace env 0 (theDrive cutover waits apply opID) w)) :
  let l := dispatched env 0 (theDrive cutover waits apply opID) w in
  l = [] \/
  exists req w0 o, l = [req] /\ w0 ∈ trace env 0 (theDrive cutover waits apply opID) w /\
    findOperation opID (pl_db w0) = Some o /\ (multi = true -> rowRemoteID o = "") /\
    ra_IdempotencyKey req = remoteApplyIdempotencyKey sha256hex (freshDrive apply opID op multi).
Proof. by eapply drive_dispatches. Qed.
End Once.

(** ** The apply's row is the operator's *)

(** A request to stop or to cancel. *)
Definition stops (cr : ApplyControlRequest) : bool := oneOf (cr_Operation cr) [ControlOperationStop; ControlOperationCancel].

(** What the operator keeps for the applies with several operations: their rows, and
    the requests that all operations have to see. *)
Definition parentOf (s : store) : list Apply * list ApplyControlRequest := (applies s, List.filter stops (controls s)).

Section Parent.
Context (v : list Apply * list ApplyControlRequest) (foundRows : bool) (ctx : leaseCtx).
Abbreviation untouchedParent := (preserves (fun s => parentOf s = v)).

Ltac reads := repeat first [done | split; [done|] | intros [] | case_match].

Lemma parent_operation opID missingOK set : untouchedParent (guardedUpdate foundRows ctx opID missingOK set).
Proof.
  unfold guardedUpdate. destruct (operationWriteGuardFromContext ctx) as [g|]; [|done]. split; [done|].
  intros [rows|e]; [|done]. unfold checkUpdatedOrExists. reads.
Qed.

Lemma parent_task t : untouchedParent (UpdateTask foundRows ctx t).
Proof.
  unfold UpdateTask. destruct (taskGuardFromContext ctx t) as [g|]; [|done]. split; [done|].
  intros [rows|e]; [|done]. unfold verifyLeaseStillOwned. reads.
Qed.

Lemma parent_insert applyID opID t s : parentOf (insertTask applyID opID t s).1 = parentOf s.
Proof. unfold insertTask. by repeat case_match. Qed.

Lemma parent_shard t : untouchedParent (UpsertShardProgress foundRows ctx t).
Proof.
  unfold UpsertShardProgress. destruct (tk_ApplyOperationID t) as [opID|]; [|done].
  destruct (shardGuard _ _ _) as [g|]; [|done]. do 2 (destruct (_ == _); [done|]). split; [done|].
  intros [[row|]|e]; [apply parent_task| |done]. apply preserves_bind; [by split|]. intros [u|e]; [|done]. split.
  - intros s Hs. unfold insertShardStatement. destruct (negb _); [done|].
    pose proof (parent_insert (tk_ApplyID t) (tk_ApplyOperationID t) t s) as Hi. rewrite Hs in Hi.
    by destruct (insertTask _ _ _ _) as [s' [|]].
  - intros [rows|e]; [|done]. destruct (rows =? 0); [by split|done].
Qed.

Lemma parent_request applyID operation set :
  operation <> ControlOperationStop -> operation <> ControlOperationCancel ->
  (forall cr, cr_Operation (set cr) = cr_Operation cr) -> untouchedParent (settlePending foundRows ctx applyID operation set).
Proof.
  intros Hs Hc Hset. unfold settlePending. destruct (applyLeaseFromContext ctx applyID) as [lease|]; [|done]. split.
  - intros s <-. unfold parentOf. cbn. f_equal. apply filter_update. intros cr _ Hcr.
    unfold stops. rewrite Hset. cbn [cr_Operation set_cr_CompletedAt set_cr_UpdatedAt].
    assert (cr_Operation cr = operation) as -> by by reflect_guards.
    assert (oneOf operation [ControlOperationStop; ControlOperationCancel] = false) as ->; [|done].
    unfold oneOf. cbn. apply orb_false_iff. split; [by apply String.eqb_neq|].
    apply orb_false_iff. split; [by apply String.eqb_neq|done].
  - intros [rows|e]; [|done]. destruct lease as [l|]; [|done]. unfold confirmLeaseOnZeroRows. apply preserves_bind; [|by intros []].
    destruct (rows =? 0); [|done]. by split.
Qed.
End Parent.

(** An apply with several operations, for which neither a cutover nor the skip of a
    revert is asked. *)
Definition fannedOut (apply : Apply) (w : plane) : Prop :=
  (1 < length (ListByApply (a_ID apply) (pl_db w)))%nat /\
  GetPending (a_ID apply) ControlOperationCutover (pl_db w) = None /\
  GetPending (a_ID apply) ControlOperationSkipRevert (pl_db w) = None.

Lemma served_parent apply foundRows ctx :
  Served (fun w => (parentOf (pl_db w), applied w)) (fannedOut apply) (a_ID apply) (fun a => a_ID a = a_ID apply) foundRows ctx False.
Proof.
  split; try done.
  - by intros a b -> _ _.
  - intros w a _ Ha. apply find_some in Ha as [_ Ha]. by apply Z.eqb_eq.
  - intros. apply part_view. intros v. apply parent_operation.
  - intros. apply part_view. intros v. apply parent_task.
  - intros. apply part_view. intros v. apply parent_shard.
  - intros. apply part_view. intros v. by apply parent_request.
  - intros. apply part_sentControl.
  - intros w (_ & Hc & _). by right.
  - intros w (_ & _ & Hs). by right.
Qed.

Section Leaves.
Context {ST : Type} `{!StatementTypes ST}.
Context (E : EngineNames) (foundRows hasOptions : bool) (ctx : leaseCtx) (newTaskIdentifier : TaskRec -> string -> string).
Context (remoteText : remoteErr -> string) (displayBlob : gmap string string -> res string) (sha256hex : string -> string).
Context (planRow : store -> Z -> option Plan) (driveText : remoteDriveErr -> string) (now : Z) (events : list pollEvent).

Abbreviation theDrive := (operationDrive E foundRows hasOptions ctx newTaskIdentifier remoteText displayBlob sha256hex planRow
  driveText now events).

(** C16: the drive of one operation leaves the apply to the operator.  As long as the
    apply has several operations and no cutover and no skip of a revert is asked for
    it, no statement of the drive of one of its operations, or of its cutover, changes
    a row of the applies table or a stop or cancel request, whatever the remote
    answers, whichever statements fail and whatever else happens around them: the
    other operations still see the stop, and the operator projects the apply's
    state. *)
Theorem operation_drive_leaves_parent (cutover : bool) (waits : list bool) (apply : Apply) (opID : Z)
    (env : nat -> envStep plane) (w w' : plane) r n'
    (Hrun : runE env 0 (theDrive cutover waits apply opID) w = (w', r, n'))
    (Hfanned : Forall (fannedOut apply) (trace env 0 (theDrive cutover waits apply opID) w)) :
  leaves (fun w => parentOf (pl_db w)) env 0 (theDrive cutover waits apply opID) w.
Proof.
  pose proof (served_parent apply foundRows ctx) as HS.
  eapply dispatching_run; [eapply (sends_drive (fun w => parentOf (pl_db w)) (fannedOut apply) (a_ID apply)
    (fun a => a_ID a = a_ID apply)); [exact HS|done| |done]|exact Hfanned|exact Hrun].
  intros u (Hm & _). by right.
Qed.
End Leaves.

(** ** Polling ends *)

(** The remote does not answer. *)
Definition unanswered (w : plane) : Prop := forall remoteID environment, exists e, rv_Progress (pl_remote w) remoteID environment = Err e.

Definition isProgressTick (event : pollEvent) : bool := match event with ProgressTick _ => true | _ => false end.

Section Polls.
Context (E : EngineNames) (foundRows hasOptions : bool) (ctx : leaseCtx) (newTaskIdentifier : TaskRec -> string -> string).
Context (remoteText : remoteErr -> string) (displayBlob : gmap string string -> res string).

Abbreviation ends := (spares (fun _ => tt) unanswered).

Lemma ends_any {R} (p : prog plane R) : ends (fun _ => True) p.
Proof. induction p as [r | A stmt k IH]; [done|]. split; [|auto]. intros w _. by split. Qed.

(** A tick without an answer ends the drive, or it is counted. *)
Definition counted (n : nat) (r : pollResult) : Prop :=
  match r with pollEnded _ => True | pollOn _ s => po_errors s = Datatypes.S n /\ (Datatypes.S n < maxGRPCProgressPollErrorStreak)%nat end.

Lemma ended_counted {A} n (p : prog plane (dres A)) : ends (counted n) (ended p).
Proof. eapply spares_bind; [apply ends_any|done]. Qed.

Lemma progressFailed_counts now d s remoteID e :
  ends (counted (po_errors s)) (progressErrored E foundRows hasOptions ctx remoteText now d s remoteID e).
Proof.
  unfold progressErrored. destruct (bool_decide _); [apply ended_counted|].
  destruct (isTerminalRemoteProgressError e); [apply ended_counted|]. cbv zeta.
  destruct (_ <=? _)%nat eqn:El; [apply ended_counted|]. cbn. split; [done|]. by apply Nat.leb_gt in El.
Qed.

Lemma progressTick_counts now allow release d s :
  ends (counted (po_errors s))
    (progressTick E foundRows hasOptions ctx newTaskIdentifier remoteText displayBlob now allow release d s).
Proof.
  eapply spares_bind; [apply ends_any|]. intros [[d' [|]]|e] _; [done| |done].
  eapply (spares_bind _ _ (fun r => exists e, r = Err e)).
  - split; [|by intros e; exists cutOff]. intros w Hw. split; [done|]. apply Hw.
  - intros r [e ->]. apply progressFailed_counts.
Qed.

Lemma heartbeatTick_counts now ctxEnded d s :
  ends (fun r => match r with pollEnded _ => True | pollOn _ s' => po_errors s' = po_errors s end)
    (heartbeatTick foundRows ctx now ctxEnded d s).
Proof.
  eapply spares_bind; [apply ends_any|]. intros [u|e] _; [done|]. destruct ctxEnded; [done|]. cbn.
  by destruct (driveEndingHeartbeatFailure _ _ _).
Qed.

Lemma pollLoop_ends events allow release d s :
  (po_errors s < maxGRPCProgressPollErrorStreak <= po_errors s + length (List.filter isProgressTick events))%nat ->
  ends (fun r => r <> None) (pollLoop E foundRows hasOptions ctx newTaskIdentifier remoteText displayBlob events allow release d s).
Proof.
  revert d s. induction events as [|[|now c|now] events IH]; intros d s Hn; cbn [pollLoop List.filter isProgressTick] in Hn |- *.
  - cbn in Hn. lia.
  - done.
  - eapply spares_bind; [apply heartbeatTick_counts|]. intros [r|d' s'] Hr; [done|]. apply IH. by rewrite Hr.
  - eapply spares_bind; [apply progressTick_counts|]. intros [r|d' s'] Hr; [done|]. destruct Hr as [Hr Hlt].
    apply IH. rewrite Hr. cbn in Hn. lia.
Qed.

(** C17: a remote that does not answer is not polled forever.  When the data plane
    answers no progress request, whatever other calls return and whatever happens
    around the statements, the polling of a drive has returned by its tenth poll,
    however many heartbeats come between. *)
Theorem remote_poll_gives_up (now : Z) (events : list pollEvent) (allow release : bool) (d : remoteDrive)
    (env : nat -> envStep plane) (w w' : plane) r n'
    (Hticks : (maxGRPCProgressPollErrorStreak <= length (List.filter isProgressTick events))%nat)
    (Hrun : runE env 0 (pollForCompletion E foundRows hasOptions ctx newTaskIdentifier remoteText displayBlob now events allow
              release d) w = (w', r, n'))
    (Hsilent : Forall unanswered (trace env 0 (pollForCompletion E foundRows hasOptions ctx newTaskIdentifier remoteText displayBlob
              now events allow release d) w)) :
  exists result, r = Some result.
Proof.
  destruct (spares_run (fun _ => tt) unanswered (fun r => r <> None) env _ _ _ _ _ _
    (pollLoop_ends events allow release d {| po_errors := 0; po_deadline := None; po_blob := ""; po_lastHeartbeat := now |}
       (conj (le_n_S _ _ (Nat.le_0_l _)) Hticks)) Hsilent Hrun) as [Hr _].
  destruct r as [result|]; [by exists result|done].
Qed.
End Polls.

(** ** Keys *)

Lemma parseDigits_noNUL s acc n : parseDigits s acc = Some n -> containsByte "000" s = false.
Proof.
  revert acc. induction s as [|c s IH]; intros acc; [done|]. cbn. destruct (digitValue c) eqn:Ed; [|done]. intros Hs.
  rewrite (IH _ Hs), orb_false_r. apply Ascii.eqb_neq. by intros ->.
Qed.

Lemma Itoa_noNUL z : containsByte "000" (Itoa z) = false.
Proof. unfold Itoa. destruct (z <? 0); cbn; eapply parseDigits_noNUL, formatN_parse. Qed.

Lemma formatN_inj a b : formatN a = formatN b -> a = b.
Proof. intros H. pose proof (formatN_parse a) as Ha. rewrite H, formatN_parse in Ha. congruence. Qed.

Lemma Itoa_inj a b : Itoa a = Itoa b -> a = b.
Proof.
  assert (forall x s, formatN x = String "-" s -> False) as Hsign by (intros x s Hx; by destruct (formatN_no_sign _ _ _ Hx)).
  unfold Itoa. destruct (Z.ltb_spec a 0), (Z.ltb_spec b 0); intros Hab.
  - injection Hab as Hab%formatN_inj. lia.
  - by destruct (Hsign _ _ (eq_sym Hab)).
  - by destruct (Hsign _ _ Hab).
  - apply formatN_inj in Hab. lia.
Qed.

(** The names of the drive's apply and operation have no NUL. *)
Definition named (d : remoteDrive) : Prop :=
  containsByte "000" (a_ApplyIdentifier (rd_Apply d)) = false /\
  forall op, operationResume (rd_Scope d) = Some op ->
    containsByte "000" (op_Deployment op) = false /\ containsByte "000" (op_OperationKey op) = false.

Lemma parts_noNUL d part : named d -> part ∈ idempotencyParts d -> containsByte "000" part = false.
Proof.
  intros [Ha Ho] Hp. unfold idempotencyParts in Hp. destruct (operationResume _) as [op|] eqn:Eo.
  - destruct (Ho op eq_refl) as [Hd Hk]. cbn in Hp.
    repeat (apply elem_of_cons in Hp as [->|Hp]; [first [done|apply Itoa_noNUL]|]). by apply elem_of_nil in Hp.
  - cbn in Hp. repeat (apply elem_of_cons in Hp as [->|Hp]; [first [done|apply Itoa_noNUL]|]). by apply elem_of_nil in Hp.
Qed.

Lemma parts_nonempty d : idempotencyParts d <> [].
Proof. done. Qed.

(** C18: idempotency keys tell attempts apart.  Two drives have the same idempotency key
    only when they are drives of the same apply, both of the whole apply or both of
    the operation with the same deployment and operation key, and of the same attempt,
    provided that the hash does not map the two messages to one value and that names
    have no NUL: the data plane never takes a new attempt for a repeated one. *)
Theorem remote_keys_tell_attempts_apart (sha256hex : string -> string) (d1 d2 : remoteDrive)
    (Hhash : sha256hex (joinWith NUL (idempotencyParts d1)) = sha256hex (joinWith NUL (idempotencyParts d2)) ->
             joinWith NUL (idempotencyParts d1) = joinWith NUL (idempotencyParts d2))
    (H1 : named d1) (H2 : named d2)
    (Hkey : remoteApplyIdempotencyKey sha256hex d1 = remoteApplyIdempotencyKey sha256hex d2) :
  a_ApplyIdentifier (rd_Apply d1) = a_ApplyIdentifier (rd_Apply d2) /\
  match operationResume (rd_Scope d1), operationResume (rd_Scope d2) with
  | Some o1, Some o2 =>
      op_Deployment o1 = op_Deployment o2 /\ op_OperationKey o1 = op_OperationKey o2 /\ op_Attempt o1 = op_Attempt o2
  | None, None => a_Attempt (rd_Apply d1) = a_Attempt (rd_Apply d2)
  | _, _ => False
  end.
Proof.
  unfold remoteApplyIdempotencyKey in Hkey. apply (inj (String.append "schemabot:v1:")) in Hkey. apply Hhash in Hkey.
  apply (f_equal (splitOn "000")) in Hkey. unfold NUL in Hkey.
  rewrite !split_join in Hkey by first [apply parts_nonempty|intros part; by apply parts_noNUL].
  unfold idempotencyParts in Hkey. destruct (operationResume (rd_Scope d1)) as [o1|], (operationResume (rd_Scope d2)) as [o2|];
    cbn in Hkey; simplify_eq; try done.
  - split; [done|]. split; [done|]. split; [done|]. by apply Itoa_inj.
  - split; [done|]. by apply Itoa_inj.
Qed.

(** ** Examples: an apply over two remote deployments *)

Definition remotePlan : Plan :=
  {| pn_ID := 1; pn_PlanIdentifier := "plan-1"; pn_Database := "orders"; pn_DatabaseType := "mysql"; pn_Repository := "org/repo";
     pn_PullRequest := 7; pn_Namespaces := ∅; pn_Shards := []; pn_SchemaFiles := ∅ |}.

(** A data plane that accepts every command and reports [st]. *)
Definition acceptingRemote (st : ProtoState) : remoteView :=
  {| rv_Apply := fun _ => Ok (Some {| rr_Accepted := true; rr_ApplyId := "remote-1"; rr_ApplyOperationId := ""; rr_ErrorMessage := "" |});
     rv_Progress := fun _ _ => Ok {| pg_State := st; pg_Tables := []; pg_ErrorMessage := ""; pg_Metadata := ∅; pg_Volume := 0 |};
     rv_Control := fun _ _ _ => Ok (Some {| cl_Accepted := true; cl_Message := "" |}) |}.

Definition withRemote (v : remoteView) (w : plane) : plane :=
  {| pl_db := pl_db w; pl_engine := pl_engine w; pl_calls := pl_calls w; pl_cancels := pl_cancels w; pl_remote := v; pl_sent := pl_sent w |}.

Definition usOp (externalID : option string) (st : string) : ApplyOperation :=
  set_op_ExternalID externalID (exampleOp 1 "us" st "parallel" "").
Definition euOp (externalID : option string) (st : string) : ApplyOperation :=
  set_op_ExternalID externalID (exampleOp 2 "eu" st "parallel" "").

Definition usTask (st : string) : TaskRec := exampleTask 11 "task_us" "t" "" st.
Definition euTask (st : string) : TaskRec := set_tk_ApplyOperationID (Some 2) (exampleTask 12 "task_eu" "t" "" st).

Definition remotePlane (v : remoteView) (apply : Apply) (ops : list ApplyOperation) (ts : list TaskRec) (crs : list ApplyControlRequest)
    : plane := withRemote v (examplePlane (withTasks ts (exampleStore apply ops crs)) (exampleEngine (Ok None))).

Definition exampleDrive (sha256hex : string -> string) (events : list pollEvent) (cutover : bool) (apply : Apply) (opID : Z)
    : prog plane (option (dres unit)) :=
  operationDrive (StatementTypes0 := natStatements) documentedNames true false noLease (fun t shard => tk_TaskIdentifier t ++ shard)
    (fun _ => "remote error") (fun _ => Ok "") sha256hex (fun _ _ => Some remotePlan) (fun _ => "drive error") 2000 events cutover []
    apply opID.

(** Both deployments wait for their dispatch; the drive is that of "us". *)
Definition queuedPlane : plane :=
  remotePlane (acceptingRemote STATE_COMPLETED) (exampleApply Apply.Pending) [usOp None Apply.Pending; euOp None Apply.Pending]
    [usTask Task.Pending; euTask Task.Pending] [].

Definition steadyb (apply : Apply) (opID : Z) (op : ApplyOperation) (multi : bool) (w : plane) : bool :=
  match findApply (a_ID apply) (pl_db w) with
  | Some a => (a_ApplyIdentifier a == a_ApplyIdentifier apply) && (a_Attempt a =? a_Attempt apply)
  | None => true
  end &&
  match findOperation opID (pl_db w) with
  | Some o => (op_Deployment o == op_Deployment op) && (op_OperationKey o == op_OperationKey op) && (op_Attempt o =? op_Attempt op)
  | None => true
  end &&
  Bool.eqb (1 <? length (ListByApply (a_ID apply) (pl_db w)))%nat multi.

Lemma steadyb_ok apply opID op multi ws : forallb (steadyb apply opID op multi) ws = true -> Forall (steady apply opID op multi) ws.
Proof.
  intros Hws. rewrite forallb_forall in Hws. apply Forall_forall. intros w Hw. apply list_elem_of_In, Hws in Hw. unfold steadyb in Hw.
  apply andb_prop in Hw as [Hw Hm]. apply andb_prop in Hw as [Ha Ho]. apply Bool.eqb_prop in Hm. split; [|split; [|exact Hm]].
  - intros a Hf. rewrite Hf in Ha. by reflect_guards.
  - intros o Hf. rewrite Hf in Ho. by reflect_guards.
Qed.

(** The drive dispatches "us" under the key of its attempt, and stores the identifier. *)
Lemma remote_dispatch_once_witness :
  let p := exampleDrive (fun s => s) [ProgressTick 2005] false (exampleApply Apply.Pending) 1 in
  let w' := (run p queuedPlane).1 in
  (exists req w0 o, dispatched (fun _ => quiet) 0 p queuedPlane = [req] /\ w0 ∈ trace (fun _ => quiet) 0 p queuedPlane /\
     findOperation 1 (pl_db w0) = Some o /\ (true = true -> rowRemoteID o = "") /\
     ra_IdempotencyKey req = remoteApplyIdempotencyKey (fun s => s)
       (freshDrive (exampleApply Apply.Pending) 1 (usOp None Apply.Pending) true)) /\
  op_ExternalID <$> operations (pl_db w') = [Some "remote-1"; None] /\
  tk_State <$> tasks (pl_db w') = [Task.Completed; Task.Pending].
Proof.
  intros p w'. split; [|vm_compute; done].
  destruct (run_runE p queuedPlane w' (run p queuedPlane).2 (surjective_pairing _)) as [n Hn].
  assert (Forall (steady (exampleApply Apply.Pending) 1 (usOp None Apply.Pending) true) (trace (fun _ => quiet) 0 p queuedPlane))
    as Hsteady by (apply steadyb_ok; vm_compute; reflexivity).
  destruct (remote_dispatch_once (StatementTypes0 := natStatements) documentedNames true false noLease
    (fun t shard => tk_TaskIdentifier t ++ shard) (fun _ => "remote error") (fun _ => Ok "") (fun s => s) (fun _ _ => Some remotePlan)
    (fun _ => "drive error") 2000 [ProgressTick 2005] false [] (exampleApply Apply.Pending) 1 (usOp None Apply.Pending) true
    (fun _ => quiet) queuedPlane _ _ _ Hn Hsteady) as [Hl|Hl]; [vm_compute in Hl; done|exact Hl].
Defined.

Definition fannedOutb (apply : Apply) (w : plane) : bool :=
  (1 <? length (ListByApply (a_ID apply) (pl_db w)))%nat &&
  match GetPending (a_ID apply) ControlOperationCutover (pl_db w) with None => true | Some _ => false end &&
  match GetPending (a_ID apply) ControlOperationSkipRevert (pl_db w) with None => true | Some _ => false end.

Lemma fannedOutb_ok apply ws : forallb (fannedOutb apply) ws = true -> Forall (fannedOut apply) ws.
Proof.
  intros Hws. rewrite forallb_forall in Hws. apply Forall_forall. intros w Hw. apply list_elem_of_In, Hws in Hw. unfold fannedOutb in Hw.
  apply andb_prop in Hw as [Hw Hs]. apply andb_prop in Hw as [Hm Hc]. split; [by apply Nat.ltb_lt|]. by repeat case_match.
Qed.

(** A stop reaches "us" before its dispatch: its operation is stopped, the request is
    left for "eu". *)
Lemma operation_drive_leaves_parent_witness :
  let p := exampleDrive (fun s => s) [] false (exampleApply Apply.Pending) 1 in
  let w := remotePlane (acceptingRemote STATE_COMPLETED) (exampleApply Apply.Pending) [usOp None Apply.Pending; euOp None Apply.Pending]
             [usTask Task.Pending; euTask Task.Pending] [exampleRequest ControlOperationStop ControlRequestPending] in
  leaves (fun w => parentOf (pl_db w)) (fun _ => quiet) 0 p w /\
  op_State <$> operations (pl_db (run p w).1) = [Apply.Stopped; Apply.Pending] /\ pl_sent (run p w).1 = [].
Proof.
  intros p w. split; [|vm_compute; done].
  destruct (run_runE p w (run p w).1 (run p w).2 (surjective_pairing _)) as [n Hn].
  refine (operation_drive_leaves_parent (StatementTypes0 := natStatements) documentedNames true false noLease
    (fun t shard => tk_TaskIdentifier t ++ shard) (fun _ => "remote error") (fun _ => Ok "") (fun s => s) (fun _ _ => Some remotePlan)
    (fun _ => "drive error") 2000 [] false [] (exampleApply Apply.Pending) 1 (fun _ => quiet) w _ _ _ Hn _).
  apply fannedOutb_ok. vm_compute. reflexivity.
Defined.

(** The remote of a running operation goes away; the drive ends at the tenth poll, and
    its task is to be retried. *)
Lemma remote_poll_gives_up_witness :
  let d := freshDrive (exampleApply Apply.Running) 1 (usOp (Some "remote-1") Apply.Running) true in
  let p := pollForCompletion documentedNames true false noLease (fun t shard => tk_TaskIdentifier t ++ shard) (fun _ => "remote error")
             (fun _ => Ok "") 2000 (HeartbeatTick 2001 false :: repeat (ProgressTick 2005) 10) false false d in
  let w := remotePlane silentRemote (exampleApply Apply.Running) [usOp (Some "remote-1") Apply.Running; euOp None Apply.Pending]
             [usTask Task.Running] [] in
  let env := fun _ : nat => {| interfere := withRemote silentRemote; fault := None |} in
  (exists result, (runE env 0 p w).1.2 = Some result) /\
  tk_State <$> tasks (pl_db (runE env 0 p w).1.1) = [Task.FailedRetryable].
Proof.
  intros d p w env. split; [|vm_compute; done].
  refine (remote_poll_gives_up documentedNames true false noLease (fun t shard => tk_TaskIdentifier t ++ shard) (fun _ => "remote error")
    (fun _ => Ok "") 2000 (HeartbeatTick 2001 false :: repeat (ProgressTick 2005) 10) false false d env w
    (runE env 0 p w).1.1 (runE env 0 p w).1.2 (runE env 0 p w).2 _ _ _).
  - vm_compute. lia.
  - change (runE env 0 p w = ((runE env 0 p w).1.1, (runE env 0 p w).1.2, (runE env 0 p w).2)). by destruct (runE env 0 p w) as [[? ?] ?].
  - apply trace_all. intros m u remoteID environment. by exists cutOff.
Defined.

(** Two attempts of "us" have different keys, whatever the hash, provided it keeps the
    two messages apart; here it is the identity. *)
Lemma remote_keys_tell_attempts_apart_witness :
  let d attempt := freshDrive (exampleApply Apply.Pending) 1 (set_op_Attempt attempt (usOp None Apply.Pending)) true in
  remoteApplyIdempotencyKey (fun s => s) (d 1) <> remoteApplyIdempotencyKey (fun s => s) (d 2) /\ named (d 1) /\ named (d 2).
Proof.
  intros d. assert (forall n, named (d n)) as Hd by (intros n; split; [done|]; by intros op [= <-]).
  split; [|by split]. intros Hkey.
  destruct (remote_keys_tell_attempts_apart (fun s => s) (d 1) (d 2) (fun H => H) (Hd 1) (Hd 2) Hkey) as (_ & _ & _ & Ha).
  discriminate Ha.
Defined.

(** ** Requests of the whole rollout, served by one drive *)

(** A cutover is asked for an apply whose "eu" is ready while "us" still copies.  The
    drive of "us" takes "eu"'s task for its own readiness: it sends the cutover to the
    data plane of "us", writes the apply's row, which it must leave to the operator,
    and completes the request, so that "eu" is never told. *)
Lemma cutover_reaches_one_deployment :
  let d := freshDrive (exampleApply Apply.Running) 1 (usOp (Some "remote-us") Apply.Running) true in
  let w := remotePlane (acceptingRemote STATE_RUNNING) (exampleApply Apply.Running)
             [usOp (Some "remote-us") Apply.Running; euOp (Some "remote-eu") Apply.WaitingForCutover]
             [usTask Task.Running; euTask Task.WaitingForCutover] [exampleRequest ControlOperationCutover ControlRequestPending] in
  let w' := (run (Remote.processPendingCutoverControlRequest documentedNames true false noLease (fun _ => "remote error") 2000 d) w).1 in
  pl_sent w' = [SentControl ControlCutover "remote-us" "production"] /\
  a_State <$> applies (pl_db w') = [Apply.CuttingOver] /\
  cr_Status <$> controls (pl_db w') = [ControlRequestCompleted].
Proof. vm_compute. done. Qed.

(** Both deployments are stopped and a start is asked.  The data plane of "us" refuses
    the start: the drive of "us" fails the request that "eu" has not seen. *)
Lemma failed_start_fails_siblings :
  let refusing := {| rv_Apply := rv_Apply (acceptingRemote STATE_STOPPED); rv_Progress := rv_Progress (acceptingRemote STATE_STOPPED);
                     rv_Control := fun _ _ _ => Err cutOff |} in
  let apply := exampleApply Apply.Stopped in
  let w := remotePlane refusing apply [usOp (Some "remote-us") Apply.Stopped; euOp (Some "remote-eu") Apply.Stopped]
             [usTask Task.Stopped; euTask Task.Stopped] [exampleRequest ControlOperationStart ControlRequestPending] in
  let w' := (run (exampleDrive (fun s => s) [] false apply 1) w).1 in
  pl_sent w' = [SentControl ControlStart "remote-us" "production"] /\
  cr_Status <$> controls (pl_db w') = [ControlRequestFailed].
Proof. vm_compute. done. Qed.

(** The operation's row is gone when the accepted identifier is to be stored. *)
Lemma accepted_identifier_needs_row :
  let d := freshDrive (exampleApply Apply.Pending) 1 (usOp None Apply.Pending) true in
  let w := remotePlane (acceptingRemote STATE_RUNNING) (exampleApply Apply.Pending) [euOp None Apply.Pending] [] [] in
  (run (persistRemoteApplyID true noLease d "remote-1" "") w).2 = Err (remoteFailed "nil pointer dereference").
Proof. vm_compute. done. Qed.
