(* ===== verification/Admission.v ===== *)
(** * Admission of an apply by the data plane (tern/local_client.go)

    [LocalClient.Apply]: the data plane takes an Apply request, from its own API or
    from the control plane of a rollout.  A request that carries the idempotency key of
    a stored apply is answered with that apply.  Otherwise the plan is looked up, or
    materialized from the request once the deployment's own plan agrees with it, other
    work on the database is looked for, and the apply is stored with its operation and
    tasks for the operator to claim.

    [ci] is the collation of the lock table, [driftText], [fanoutText] and [errText]
    give the texts of errors, [marshalOptions] is the JSON of the options, and the
    fresh identifiers are arguments.  Entries of a request are never nil.  The apply's
    log, observers, metrics and the wake-up of the operator are left out. *)

From S2P Require Import Prelude GoStrings State Convert Sql Locks Store Operations Applies Control Projection Fencing Tasks Plane Drift Fanout Stopping LocalControl Sequential Conflict Grouped Resume.

Local Open Scope string_scope.
Local Open Scope Z_scope.

(** ** State *)

(** A row of the plans table. *)
Record planRow := {
  pw_Plan : Plan;
  pw_Deployment : string;
  pw_Target : string;
  pw_Environment : string;
}.

(** The data plane with its plans. *)
Record dataPlane := { dp_plane : plane; dp_plans : list planRow; dp_nextPlan : Z }.

Definition set_dp_plane (w : plane) (d : dataPlane) : dataPlane :=
  {| dp_plane := w; dp_plans := dp_plans d; dp_nextPlan := dp_nextPlan d |}.

(** A part that works on the plane. *)
Definition onPlane {R} : prog plane R -> prog dataPlane R := focus dp_plane set_dp_plane.

Definition plans_Get (planIdentifier : string) : prog dataPlane (res (option planRow)) :=
  Exec (fun d => (d, Ok (find (fun p => pn_PlanIdentifier (pw_Plan p) == planIdentifier) (dp_plans d)))) Ret.

Definition set_pn_ID (id : Z) (p : Plan) : Plan :=
  {| pn_ID := id; pn_PlanIdentifier := pn_PlanIdentifier p; pn_Database := pn_Database p; pn_DatabaseType := pn_DatabaseType p;
     pn_Repository := pn_Repository p; pn_PullRequest := pn_PullRequest p; pn_Namespaces := pn_Namespaces p; pn_Shards := pn_Shards p;
     pn_SchemaFiles := pn_SchemaFiles p |}.

Definition withPlanID (id : Z) (p : planRow) : planRow :=
  {| pw_Plan := set_pn_ID id (pw_Plan p); pw_Deployment := pw_Deployment p; pw_Target := pw_Target p;
     pw_Environment := pw_Environment p |}.

(** Plan identifiers are unique. *)
Definition plans_Create (p : planRow) : prog dataPlane (res Z) :=
  Exec (fun d =>
    if existsb (fun q => pn_PlanIdentifier (pw_Plan q) == pn_PlanIdentifier (pw_Plan p)) (dp_plans d)
    then (d, Err (Errorf "plan already exists"))
    else ({| dp_plane := dp_plane d; dp_plans := dp_plans d ++ [withPlanID (dp_nextPlan d) p]; dp_nextPlan := dp_nextPlan d + 1 |},
          Ok (dp_nextPlan d))) Ret.

(** ** Requests *)

Definition toTableChange (ch : ProtoTableChange) : TableChange :=
  {| tc_Namespace := pc_Namespace ch; tc_TableName := pc_TableName ch; tc_Ddl := pc_Ddl ch; tc_ChangeType := pc_ChangeType ch;
     tc_IsUnsafe := pc_IsUnsafe ch; tc_UnsafeReason := pc_UnsafeReason ch |}.

Definition requestChanges (req : RemoteApplyRequest) : list (option TableChange) :=
  (fun ch => Some (toTableChange ch)) <$> ra_DdlChanges req.

Definition applyRequestCarriesPlanPayload (req : RemoteApplyRequest) : bool :=
  match ra_DdlChanges req with _ :: _ => true | [] => negb (bool_decide (ra_SchemaFiles req = ∅)) end.

Definition GetByIdempotencyKey (idempotencyKey : string) (s : store) : option Apply :=
  if idempotencyKey == "" then None
  else find (fun a => match a_IdempotencyKey a with Some k => k == idempotencyKey | None => false end) (applies s).

Definition set_ao_Target (target : string) (o : ApplyOptions) : ApplyOptions :=
  {| ao_AllowUnsafe := ao_AllowUnsafe o; ao_Branch := ao_Branch o; ao_DeferCutover := ao_DeferCutover o;
     ao_DeferDeploy := ao_DeferDeploy o; ao_SkipRevert := ao_SkipRevert o; ao_Volume := ao_Volume o; ao_Target := target;
     ao_Rollback := ao_Rollback o |}.

(** What the operation row of a new apply is called: the identifier the create sets. *)
Definition createdOperation (applyID : Z) (s : store) : Z :=
  match find (fun o => op_ApplyID o =? applyID) (operations s) with Some o => op_ID o | None => 0 end.

Section Admission.
Context {ST : Type} `{!StatementTypes ST}.
Context (Classify : string -> option (list ST)) (IsDDL : ST -> bool).
Context (New : string -> option (list Statement)) (Restore : string -> option string).
Context (driftText : DriftErr -> string) (fanoutText : FanoutErr -> string) (errText : StoreErr -> string).
Context (ci : string -> string) (E : EngineNames) (foundRows : bool) (ctx : leaseCtx) (cfg : clientConfig) (engineName : string).
Context (marshalOptions : ApplyOptions -> string).

(** ** Materialized plans *)

(** Namespaces of a MySQL database are those of the plan, each once. *)
Definition normalizeSchemaFiles (schemaFiles : SchemaFiles) : res SchemaFiles :=
  if lc_Type cfg != DatabaseTypeMySQL then Ok schemaFiles else
  fold_left (fun normalized ns =>
    let? normalized := normalized in
    let target := planNamespace (lc_Database cfg) (lc_Type cfg) ns in
    match normalized !! target with
    | Some _ => Err (Errorf ("schema files contain duplicate namespace " ++ target))
    | None => Ok (<[target := default ∅ (schemaFiles !! ns)]> normalized)
    end) (sortedKeys schemaFiles) (Ok ∅).

Definition noNamespaceData : NamespacePlanData :=
  {| nd_Tables := []; nd_Shards := []; nd_OriginalFilesCaptured := false; nd_Artifacts := ∅ |}.

Definition addTableChange (tc : StoredChange) (nd : NamespacePlanData) : NamespacePlanData :=
  {| nd_Tables := nd_Tables nd ++ [tc]; nd_Shards := nd_Shards nd; nd_OriginalFilesCaptured := nd_OriginalFilesCaptured nd;
     nd_Artifacts := nd_Artifacts nd |}.

Definition addArtifact (name content : string) (nd : NamespacePlanData) : NamespacePlanData :=
  {| nd_Tables := nd_Tables nd; nd_Shards := nd_Shards nd; nd_OriginalFilesCaptured := nd_OriginalFilesCaptured nd;
     nd_Artifacts := <[name := content]> (nd_Artifacts nd) |}.

(** The loop over the changes: the data of each namespace and the namespaces whose
    VSchema changes. *)
Fixpoint groupChanges (changes : list ProtoTableChange) (namespaces : gmap string NamespacePlanData) (vschema : gset string)
    : res (gmap string NamespacePlanData * gset string) :=
  match changes with
  | [] => Ok (namespaces, vschema)
  | ch :: rest =>
      let ns := planNamespace (lc_Database cfg) (lc_Type cfg) (pc_Namespace ch) in
      let nsData := default noNamespaceData (namespaces !! ns) in
      match pc_ChangeType ch with
      | CHANGE_TYPE_VSCHEMA => groupChanges rest (<[ns := nsData]> namespaces) ({[ns]} ∪ vschema)
      | _ =>
          match materializedTableChangeOperation Classify (toTableChange ch) with
          | Err e => Err (Errorf (driftText e))
          | Ok op =>
              groupChanges rest
                (<[ns := addTableChange {| sg_Namespace := pc_Namespace ch; sg_Table := pc_TableName ch; sg_DDL := pc_Ddl ch;
                                           sg_Operation := op; sg_IsUnsafe := pc_IsUnsafe ch;
                                           sg_UnsafeReason := pc_UnsafeReason ch |} nsData]> namespaces) vschema
          end
      end
  end.

(** The VSchema of the namespaces that change it; they all need their artifact. *)
Fixpoint attachArtifacts (schemaFiles : SchemaFiles) (changed : list string) (namespaces : gmap string NamespacePlanData)
    : res (gmap string NamespacePlanData) :=
  match changed with
  | [] => Ok namespaces
  | ns :: rest =>
      let vs := default "" (default ∅ (schemaFiles !! ns) !! vSchemaArtifactName) in
      if vs == "" then Err (Errorf ("apply request indicates a vschema change for namespace " ++ ns ++ " without its artifact"))
      else attachArtifacts schemaFiles rest
             (<[ns := addArtifact vSchemaArtifactName vs (default noNamespaceData (namespaces !! ns))]> namespaces)
  end.

Definition namespacesFromApplyRequest (changes : list ProtoTableChange) (schemaFiles : SchemaFiles)
    : res (gmap string NamespacePlanData) :=
  let? (namespaces, vschema) := groupChanges changes ∅ ∅ in
  attachArtifacts schemaFiles (Sort (elements vschema)) namespaces.

(** The change of the engine's plan as the drift guard reads it. *)
Definition asSchemaChange (c : EngineChange) : @engineSchemaChange ST :=
  {| es_Namespace := ec_Namespace c; es_Shard := ec_Shard c;
     es_Metadata := if ec_VSchemaChanged c then {["vschema_changed" := "true"]} else ∅;
     es_TableChanges := (fun t : EngineTableChange => {| Drift.et_Table := Plane.et_Table t; Drift.et_DDL := Plane.et_DDL t;
                                     et_Operation := OpToStatementType (et_Action t) |}) <$> ec_Tables c |}.

Definition driftRequest (req : RemoteApplyRequest) : ApplyRequest :=
  {| aq_DdlChanges := requestChanges req; aq_TargetShards := ra_TargetShards req; aq_Target := ra_Target req;
     aq_Environment := ra_Environment req |}.

(** The engine is asked only for a well-formed dispatch. *)
Definition verifyLiveSchema (req : RemoteApplyRequest) (schemaFiles : SchemaFiles) : prog plane (res unit) :=
  match (match ra_TargetShards req with [] => Ok "" | shards => dispatchTargetShard shards end) with
  | Err e => Ret (Err (Errorf (driftText e)))
  | Ok _ =>
      let! r := planWithEngine cfg (lc_Database cfg) schemaFiles in
      let result := match r with
                    | Ok changes => Ok (asSchemaChange <$> changes)
                    | Err e => Err (Errorf (errMessage errText e))
                    end in
      Ret match verifyMaterializedPlanMatchesLiveSchema Classify IsDDL New Restore (lc_Database cfg) (lc_Type cfg) result
                  (driftRequest req) with
          | None => Ok tt
          | Some e => Err (Errorf (driftText e))
          end
  end.

Definition materializedPlan (req : RemoteApplyRequest) (schemaFiles : SchemaFiles) (namespaces : gmap string NamespacePlanData)
    : planRow :=
  {| pw_Plan := {| pn_ID := 0; pn_PlanIdentifier := ra_PlanId req; pn_Database := lc_Database cfg; pn_DatabaseType := lc_Type cfg;
                   pn_Repository := ""; pn_PullRequest := 0; pn_Namespaces := namespaces; pn_Shards := [];
                   pn_SchemaFiles := schemaFiles |};
     pw_Deployment := lc_Database cfg; pw_Target := if ra_Target req == "" then lc_Database cfg else ra_Target req;
     pw_Environment := ra_Environment req |}.

Definition materializeApplyRequestPlan (req : RemoteApplyRequest) : prog dataPlane (res planRow) :=
  match normalizeSchemaFiles (ra_SchemaFiles req) with
  | Err e => Ret (Err e)
  | Ok schemaFiles =>
      match namespacesFromApplyRequest (ra_DdlChanges req) schemaFiles with
      | Err e => Ret (Err e)
      | Ok namespaces =>
          if bool_decide (namespaces = ∅) then Ret (Err (Errorf "apply request carried no DDL changes or schema files")) else
          try! _ := onPlane (verifyLiveSchema req schemaFiles) in
          let plan := materializedPlan req schemaFiles namespaces in
          let! created := plans_Create plan in
          match created with
          | Ok planID => Ret (Ok (withPlanID planID plan))
          | Err e =>
              let! existing := plans_Get (ra_PlanId req) in
              Ret match existing with Ok (Some plan) => Ok plan | _ => Err e end
          end
      end
  end.

Definition planForApplyRequest (req : RemoteApplyRequest) : prog dataPlane (res (option planRow)) :=
  try! plan := plans_Get (ra_PlanId req) in
  match plan with
  | Some plan => Ret (Ok (Some plan))
  | None =>
      if negb (applyRequestCarriesPlanPayload req) then Ret (Ok None) else
      try! plan := materializeApplyRequestPlan req in Ret (Ok (Some plan))
  end.

(** ** Idempotency *)

Definition existingIdempotentApply (req : RemoteApplyRequest) : prog dataPlane (res (option Apply)) :=
  if ra_IdempotencyKey req == "" then Ret (Ok None) else
  try! existing := onPlane (readStore (GetByIdempotencyKey (ra_IdempotencyKey req))) in
  Ret match existing with
      | None => Ok None
      | Some a =>
          if (a_Environment a != ra_Environment req) || (a_Database a != ra_Database req) || (a_DatabaseType a != ra_Type req)
          then Err (Errorf "idempotency key already maps to another apply; refusing to alias request")
          else Ok (Some a)
      end.

Definition applyResponseOperationID (apply : Apply) : prog dataPlane (res string) :=
  try! ops := onPlane (readStore (ListByApply (a_ID apply))) in
  Ret (Ok match ops with [op] => Itoa (op_ID op) | _ => "" end).

Definition acceptedApply (applyID operationID : string) : RemoteApplyResponse :=
  {| rr_Accepted := true; rr_ApplyId := applyID; rr_ApplyOperationId := operationID; rr_ErrorMessage := "" |}.

Definition rejectedApply (message : string) : RemoteApplyResponse :=
  {| rr_Accepted := false; rr_ApplyId := ""; rr_ApplyOperationId := ""; rr_ErrorMessage := message |}.

(** The stored apply of the request's key, if there is one, is the answer. *)
Definition answerExisting (existing : Apply) : prog dataPlane (res RemoteApplyResponse) :=
  try! operationID := applyResponseOperationID existing in Ret (Ok (acceptedApply (a_ApplyIdentifier existing) operationID)).

(** An error that a concurrent request with the same key explains. *)
Definition unlessRaced (req : RemoteApplyRequest) (otherwise : res RemoteApplyResponse) : prog dataPlane (res RemoteApplyResponse) :=
  try! existing := existingIdempotentApply req in
  match existing with Some existing => answerExisting existing | None => Ret otherwise end.

(** ** The rows of a new apply *)

(** The changes of the dispatch and the shard they are for. *)
Definition dispatchScope (req : RemoteApplyRequest) (plan : Plan) : res (list StoredChange * string) :=
  match ra_TargetShards req with
  | [] => Ok (FlatDDLChanges plan, "")
  | shards =>
      match dispatchTargetShard shards with
      | Err e => Err (Errorf (driftText e))
      | Ok shard =>
          match scopedDispatchDDLChanges (ST := ST) (requestChanges req) with
          | Err e => Err (Errorf (fanoutText e))
          | Ok scoped => Ok (scoped, shard)
          end
      end
  end.

Definition newApply (req : RemoteApplyRequest) (plan : Plan) (applyOpts : ApplyOptions) (applyIdentifier : string) (now : Z) : Apply :=
  {| a_ID := 0; a_ApplyIdentifier := applyIdentifier; a_LockID := 0; a_PlanID := pn_ID plan; a_Database := pn_Database plan;
     a_DatabaseType := pn_DatabaseType plan; a_Repository := pn_Repository plan; a_PullRequest := pn_PullRequest plan;
     a_Environment := ra_Environment req; a_Deployment := lc_Database cfg;
     a_Caller := if ra_Caller req == "" then default "" (ra_Options req !! "caller") else ra_Caller req;
     a_InstallationID := 0; a_ExternalID := ""; a_IdempotencyKey := Some (ra_IdempotencyKey req); a_Engine := engineName;
     a_State := Apply.Pending; a_ErrorMessage := ""; a_Options := applyOpts; a_Attempt := 0; a_LeaseOwner := ""; a_LeaseToken := "";
     a_LeaseAcquiredAt := None; a_CreatedAt := now; a_StartedAt := None; a_CompletedAt := None; a_UpdatedAt := now;
     a_RevertSkippedAt := None |}.

Definition newTask (req : RemoteApplyRequest) (plan : Plan) (optionsJSON dispatchShard taskIdentifier : string) (now : Z)
    (ddlChange : StoredChange) : TaskRec :=
  {| tk_ID := 0; tk_TaskIdentifier := taskIdentifier; tk_ApplyID := 0; tk_ApplyOperationID := None; tk_PlanID := pn_ID plan;
     tk_Database := pn_Database plan; tk_DatabaseType := pn_DatabaseType plan; tk_Namespace := sg_Namespace ddlChange;
     tk_TableName := sg_Table ddlChange; tk_Shard := dispatchShard; tk_DDL := sg_DDL ddlChange; tk_DDLAction := sg_Operation ddlChange;
     tk_Engine := engineName; tk_Repository := pn_Repository plan; tk_PullRequest := pn_PullRequest plan;
     tk_Environment := ra_Environment req; tk_State := Task.Pending; tk_ErrorMessage := None; tk_Options := optionsJSON;
     tk_Attempt := 0;
     tk_Progress := {| tp_RowsCopied := 0; tp_RowsTotal := 0; tp_ProgressPercent := 0; tp_ETASeconds := 0;
                       tp_ChecksumRowsChecked := 0; tp_ChecksumRowsTotal := 0 |};
     tk_CutoverAttempts := 0; tk_IsInstant := false; tk_ReadyToComplete := false; tk_EngineMigrationID := "";
     tk_StartedAt := None; tk_CompletedAt := None; tk_CreatedAt := now; tk_UpdatedAt := now |}.

Definition newOperation (plan : planRow) (operationKey : string) (now : Z) : ApplyOperation :=
  {| op_ID := 0; op_ApplyID := 0; op_Deployment := lc_Database cfg; op_OperationKey := operationKey; op_OperationKind := "";
     op_Target := pw_Target plan; op_ExternalID := None; op_ExternalOperationID := None; op_EngineResumeContext := None;
     op_EngineResumeMetadata := None; op_State := Apply.Pending; op_ErrorMessage := None; op_CutoverPolicy := ""; op_OnFailure := "";
     op_Attempt := 0; op_LeaseOwner := ""; op_LeaseToken := ""; op_LeaseAcquiredAt := None; op_StartedAt := None;
     op_CompletedAt := None; op_CreatedAt := now; op_UpdatedAt := now |}.

(** The transaction, with the identifiers of the new rows. *)
Definition createApply (apply : Apply) (ts : list TaskRec) (op : ApplyOperation) : prog plane (res (Z * Z)) :=
  execStore (fun s =>
    match CreateWithTasksAndOperations ci {| in_apply := apply; ExpectedLockOwner := ""; ExpectedPendingPlanID := "" |} ts [op] s with
    | (s', Ok applyID) => (s', Ok (applyID, createdOperation applyID s'))
    | (s', Err e) => (s', Err e)
    end).

(** ** The request *)

(** The fresh identifiers of a call, and its time. *)
Record callInput := { in_Apply : string; in_Task : nat -> string; in_Now : Z }.

(** The dispatch is in order: the rows are stored. *)
Definition storeApply (req : RemoteApplyRequest) (plan : planRow) (ddlChanges : list StoredChange) (dispatchShard : string)
    (input : callInput) : prog dataPlane (res RemoteApplyResponse) :=
  let applyOpts := set_ao_Target (pw_Target plan) (ApplyOptionsFromMap (ra_Options req)) in
  match rejectUnsafeDDLChangesWithoutOptIn ddlChanges applyOpts with
  | Some e => Ret (Ok (rejectedApply (fanoutText e)))
  | None =>
      let apply := newApply req (pw_Plan plan) applyOpts (in_Apply input) (in_Now input) in
      let tasks := imap (fun i => newTask req (pw_Plan plan) (marshalOptions applyOpts) dispatchShard (in_Task input i) (in_Now input))
                     ddlChanges in
      match (if dispatchShard != "" then shardScopedDispatchOperationKey ddlChanges dispatchShard else Ok "") with
      | Err e => Ret (Err (Errorf (fanoutText e)))
      | Ok operationKey =>
          let! created := onPlane (createApply apply tasks (newOperation plan operationKey (in_Now input))) in
          match created with
          | Ok (_, operationID) => Ret (Ok (acceptedApply (in_Apply input) (Itoa operationID)))
          | Err e => unlessRaced req (Err e)
          end
      end
  end.

(** [LocalClient.Apply] *)
Definition LocalClient_Apply (req : RemoteApplyRequest) (input : callInput) : prog dataPlane (res RemoteApplyResponse) :=
  if ra_PlanId req == "" then Ret (Err (Errorf "plan_id is required")) else
  if ra_Environment req == "" then Ret (Err (Errorf "environment is required")) else
  try! existing := existingIdempotentApply req in
  match existing with
  | Some existing => answerExisting existing
  | None =>
      try! plan := planForApplyRequest req in
      match plan with
      | None => Ret (Ok (rejectedApply "plan not found"))
      | Some plan =>
          match dispatchScope req (pw_Plan plan) with
          | Err e => Ret (Err e)
          | Ok (ddlChanges, dispatchShard) =>
              let! conflict := onPlane (checkActiveTaskConflict E foundRows (in_Now input) ctx cfg
                {| cp_Database := pn_Database (pw_Plan plan); cp_DatabaseType := pn_DatabaseType (pw_Plan plan) |} dispatchShard) in
              match conflict with
              | Err e => unlessRaced req (Ok (rejectedApply (errText e)))
              | Ok _ =>
                  if negb (lc_HasEngine cfg) then Ret (Err (Errorf "no engine configured"))
                  else storeApply req plan ddlChanges dispatchShard input
              end
          end
      end
  end.
End Admission.
