(* ===== verification/Idempotent.v ===== *)
(** * One apply per idempotency key

    The calls of [Admission.LocalClient_Apply] in every interleaving with each other and
    with work that neither deletes an apply nor changes its key: calls with the same key
    are answered with the same apply.  Together with the key of a remote drive
    ([RemoteSafety]) an attempt that is dispatched again, after a crash or by a second
    drive, is admitted once. *)

From S2P Require Import Prelude GoStrings State Convert Sql Locks Store Operations Applies Control Projection Fencing Tasks Plane Drift Fanout Stopping LocalControl Sequential Conflict Grouped Resume Sends Remote RemoteParts RemoteSafety Admission.

Local Open Scope string_scope.
Local Open Scope Z_scope.

(** ** Keys of the stored applies *)

Definition dp_applies (d : dataPlane) : list Apply := applies (pl_db (dp_plane d)).

(** The apply [identifier] is stored under [key]. *)
Definition keyed (key identifier : string) (l : list Apply) : Prop :=
  exists a, a ∈ l /\ a_IdempotencyKey a = Some key /\ a_ApplyIdentifier a = identifier.

(** A key belongs to one apply. *)
Definition uniqueKeys (l : list Apply) : Prop :=
  forall key i j, keyed key i l -> keyed key j l -> i = j.

(** Keys are never given up. *)
Definition grows (l l' : list Apply) : Prop := forall key i, keyed key i l -> keyed key i l'.

#[global] Instance grows_preorder : PreOrder grows.
Proof. split; [by intros l key i|]. intros l1 l2 l3 H1 H2 key i H. by apply H2, H1. Qed.

(** A statement keeps the keys and their uniqueness. *)
Definition goodStep (d d' : dataPlane) : Prop := grows (dp_applies d) (dp_applies d') /\ uniqueKeys (dp_applies d').

(** Every statement of the program does. *)
Fixpoint respects {R} (p : prog dataPlane R) : Prop :=
  match p with
  | Ret _ => True
  | Exec stmt k =>
      (forall d, uniqueKeys (dp_applies d) -> goodStep d (stmt d).1 /\ respects (k (stmt d).2)) /\ forall e, respects (k (Err e))
  end.

(** Every statement does, from the state [d] on, and the result satisfies [Q] then. *)
Fixpoint promised {R} (Q : dataPlane -> R -> Prop) (d : dataPlane) (p : prog dataPlane R) : Prop :=
  match p with
  | Ret r => Q d r
  | Exec stmt k =>
      forall d', grows (dp_applies d) (dp_applies d') -> uniqueKeys (dp_applies d') ->
        goodStep d' (stmt d').1 /\ promised Q (stmt d').1 (k (stmt d').2) /\ forall e, promised Q d' (k (Err e))
  end.

(** Results that stay true as keys are added. *)
Class Lasting {R} (Q : dataPlane -> R -> Prop) : Prop :=
  lasting : forall d d' r, grows (dp_applies d) (dp_applies d') -> Q d r -> Q d' r.

Lemma promised_later {R} (Q : dataPlane -> R -> Prop) `{!Lasting Q} d d' (p : prog dataPlane R) :
  grows (dp_applies d) (dp_applies d') -> promised Q d p -> promised Q d' p.
Proof.
  destruct p as [r | A stmt k]; cbn; [apply lasting|]. intros Hg Hp d2 H2. apply Hp. by etrans.
Qed.

Lemma promised_bind {R R'} (Q : dataPlane -> R -> Prop) (Q' : dataPlane -> R' -> Prop) d (p : prog dataPlane R)
    (f : R -> prog dataPlane R') :
  promised Q d p -> (forall d' r, grows (dp_applies d) (dp_applies d') -> Q d' r -> promised Q' d' (f r)) ->
  promised Q' d (pbind p f).
Proof.
  revert d. induction p as [r | A stmt k IH]; intros d Hp Hf; cbn in *; [by apply Hf|].
  intros d' Hg Hu. destruct (Hp d' Hg Hu) as ((Hg' & Hu') & Hq & He). split; [done|]. split.
  - apply IH; [exact Hq|]. intros d2 r H2. apply Hf. etrans; [exact Hg|]. by etrans.
  - intros e. apply IH; [apply He|]. intros d2 r H2. apply Hf. by etrans.
Qed.

Lemma promised_respects {R} d (p : prog dataPlane R) : respects p -> promised (fun _ _ => True) d p.
Proof.
  revert d. induction p as [r | A stmt k IH]; intros d; cbn; [done|]. intros [Hs Hk] d' _ Hu. destruct (Hs d' Hu). auto.
Qed.

Lemma promised_weaken {R} (Q Q' : dataPlane -> R -> Prop) d (p : prog dataPlane R) :
  (forall d r, Q d r -> Q' d r) -> promised Q d p -> promised Q' d p.
Proof.
  intros HQ. revert d. induction p as [r | A stmt k IH]; intros d; cbn; [apply HQ|]. intros Hp d' Hg Hu.
  destruct (Hp d' Hg Hu) as (Hs & Hq & He). auto.
Qed.

(** *** Pools *)

(** In every interleaving the promises are kept. *)
Lemma pool_promises {C R} (Q : C -> dataPlane -> R -> Prop) `{!forall c, Lasting (Q c)} (calls : list C)
    (c c' : list (prog dataPlane R) * dataPlane) :
  rtc pool_step c c' -> uniqueKeys (dp_applies c.2) -> Forall2 (fun q p => promised (Q q) c.2 p) calls c.1 ->
  uniqueKeys (dp_applies c'.2) /\ Forall2 (fun q p => promised (Q q) c'.2 p) calls c'.1.
Proof.
  induction 1 as [c|c1 c2 c3 Hstep _ IH]; [done|]. intros Hu Hps.
  assert (forall d d' qs l, grows (dp_applies d) (dp_applies d') -> Forall2 (fun q p => promised (Q q) d p) qs l ->
            Forall2 (fun q p => promised (Q q) d' p) qs l) as Hlater.
  { intros d d' qs l Hg Hl. eapply Forall2_impl; [exact Hl|]. intros q p. by apply promised_later. }
  destruct Hstep; cbn [fst snd] in *; apply Forall2_app_inv_r in Hps as (qs1 & qs2 & H1 & H2 & ->);
    apply Forall2_cons_inv_r in H2 as (q & qs3 & Hp & H3 & ->); destruct (Hp s ltac:(reflexivity) Hu) as ((Hg & Hu2) & Hq & He).
  - apply IH; [done|]. apply Forall2_app; [by eapply Hlater|]. constructor; [done|by eapply Hlater].
  - apply IH; [done|]. apply Forall2_app; [done|]. constructor; [apply He|done].
Qed.

(** ** Statements that leave the applies alone *)

(** The keys and identifiers of the stored applies. *)
Definition keysOf (s : store) : list (option string * string) := (fun a => (a_IdempotencyKey a, a_ApplyIdentifier a)) <$> applies s.

Lemma keyed_keysOf key i s : keyed key i (applies s) <-> (Some key, i) ∈ keysOf s.
Proof.
  unfold keyed, keysOf. rewrite list_elem_of_fmap. split; [|intros (a & [= ] & Ha); by exists a].
  intros (a & Ha & Hk & Hi). exists a. by rewrite Hk, Hi.
Qed.

Lemma keysOf_good s s' : keysOf s' = keysOf s -> uniqueKeys (applies s) -> grows (applies s) (applies s') /\ uniqueKeys (applies s').
Proof.
  intros Hs Hu. split; [intros key i|intros key i j]; rewrite !keyed_keysOf, Hs, <- !keyed_keysOf; [done|]. apply Hu.
Qed.

Lemma respects_bind {R R'} (p : prog dataPlane R) (f : R -> prog dataPlane R') : respects p -> (forall r, respects (f r)) -> respects (pbind p f).
Proof. intros Hp Hf. induction p as [r | A stmt k IH]; cbn in *; [apply Hf|]. destruct Hp as [Hs Hk]. split; [|auto]. intros d Hu. destruct (Hs d Hu). auto. Qed.

(** A program on the plane that changes none of them. *)
Abbreviation unmoved := (keepsView (fun w => keysOf (pl_db w)) (fun _ => True) (fun _ => True)).

Lemma respects_onPlane {R} (p : prog plane R) : unmoved p -> respects (onPlane p).
Proof.
  induction p as [r | A stmt k IH]; cbn; [done|]. intros [Hs Hk]. split; [|auto].
  intros d Hu. destruct (Hs (dp_plane d) I) as (Hv & _ & Hq). unfold goodStep, dp_applies in *.
  destruct (stmt (dp_plane d)) as [w a]. cbn in *. split; [by apply keysOf_good|]. by apply IH.
Qed.

Lemma unmoved_bind {R R'} (p : prog plane R) (f : R -> prog plane R') : unmoved p -> (forall r, unmoved (f r)) -> unmoved (pbind p f).
Proof. intros Hp Hf. eapply keepsView_bind; [exact Hp|]. auto. Qed.

Lemma unmoved_read {A} (f : store -> A) : unmoved (readStore f).
Proof. eapply keepsView_weaken; [|apply keepsView_read]. done. Qed.

Lemma unmoved_store {R} (p : prog store R) : (forall l, preserves (fun s => keysOf s = l) p) -> unmoved (onStore p).
Proof.
  intros Hp. apply (keepsView_store _ _ (fun s s' => keysOf s' = keysOf s)); [|done|].
  - intros s. apply Hp.
  - intros w s _ Hs. by rewrite <- Hs.
Qed.

Lemma unmoved_task foundRows ctx t : unmoved (onStore (UpdateTask foundRows ctx t)).
Proof.
  apply unmoved_store. intros l. unfold UpdateTask. destruct (taskGuardFromContext ctx t) as [g|]; [|done]. split; [done|].
  intros [rows|e]; [|done]. unfold verifyLeaseStillOwned. by destruct g; [|destruct (_ =? _)..].
Qed.

Lemma unmoved_transition foundRows clock ctx t st : unmoved (transitionTaskState foundRows clock ctx t st).
Proof. apply unmoved_bind; [apply unmoved_task|done]. Qed.

Lemma unmoved_conflict E foundRows clock ctx cfg plan shard : unmoved (checkActiveTaskConflict E foundRows clock ctx cfg plan shard).
Proof.
  assert (forall t, unmoved (tryResolveOrphanedPendingTask foundRows clock ctx t)) as Horphan.
  { intros t. unfold tryResolveOrphanedPendingTask. destruct (negb _); [done|]. apply unmoved_bind; [apply unmoved_read|].
    intros [[a|]|e]; [|done..]. destruct (negb _); [done|]. apply unmoved_bind; [apply unmoved_task|done]. }
  assert (forall t database, unmoved (tryResolveStaleTask foundRows clock ctx cfg t database)) as Hstale.
  { intros t database. unfold tryResolveStaleTask. destruct (negb _); [done|]. apply unmoved_bind; [apply keepsView_ask|].
    intros [p|e]; [|done]. destruct (EngineState_IsTerminal _); [apply unmoved_bind; [apply unmoved_transition|done]|].
    destruct (_ == _); [|done]. destruct (negb _); [done|]. apply unmoved_bind; [apply unmoved_transition|done]. }
  assert (forall ts, unmoved (findBlockingTask foundRows clock ctx cfg plan shard ts)) as Hfind.
  { induction ts as [|t ts IH]; cbn [findBlockingTask]; [done|]. destruct (negb _); [done|].
    apply unmoved_bind; [apply Horphan|]. intros [|]; [done|]. apply unmoved_bind; [apply Hstale|]. by intros [|]. }
  unfold checkActiveTaskConflict. generalize maxConflictAttempts as n.
  induction n as [|n IH]; cbn [conflictAttempts]; [done|]. apply unmoved_bind; [apply unmoved_read|]. intros [ts|e]; [|done].
  apply unmoved_bind; [apply Hfind|]. intros b. destruct (_ == _); [done|]. by destruct n.
Qed.

Lemma unmoved_plan cfg database files : unmoved (planWithEngine cfg database files).
Proof.
  assert (forall db fs creds, unmoved (planNamespaceWithEngine db fs creds)) as Hone.
  { intros db fs creds. apply unmoved_bind; [apply keepsView_ask|done]. }
  assert (forall nss, unmoved (planNamespaces cfg files nss)) as Hall.
  { induction nss as [|ns nss IH]; cbn [planNamespaces]; [done|].
    destruct (credentialsForMySQLNamespace cfg ns); [|done]. apply unmoved_bind; [apply Hone|]. intros [cs|e]; [|done].
    apply unmoved_bind; [exact IH|done]. }
  unfold planWithEngine, planMySQLNamespacesWithEngine. repeat case_match; try done; first [apply Hone|apply Hall].
Qed.

(** ** Other work of the data plane *)

Lemma keysOf_update p f s :
  (forall a, a_IdempotencyKey (f a) = a_IdempotencyKey a /\ a_ApplyIdentifier (f a) = a_ApplyIdentifier a) ->
  keysOf (updateApplies p f s) = keysOf s.
Proof.
  intros Hf. unfold keysOf, updateApplies. cbn. rewrite <- list_fmap_compose. apply list_fmap_ext. intros i a _. cbn.
  destruct (p a); [|done]. by destruct (Hf a) as [-> ->].
Qed.

Lemma keysOf_transition apply st owner token s : keysOf (transitionClaimToState apply st owner token s).1 = keysOf s.
Proof.
  unfold transitionClaimToState. destruct (existsb _ _); [|done]. apply keysOf_update. intros a. unfold transitionSet.
  by repeat case_match.
Qed.

Lemma keysOf_claim apply owner token s : keysOf (persistApplyClaim apply owner token s).1 = keysOf s.
Proof.
  unfold persistApplyClaim, claimStoppedApplyUnderTargetLock, refuseStoppedClaimForActiveTarget.
  pose proof (fun a st => keysOf_transition a st owner token s) as Ht.
  repeat case_match; simplify_eq/=; try done; try (by apply keysOf_update);
    match goal with H : transitionClaimToState ?a ?st _ _ _ = _ |- _ => specialize (Ht a st); by rewrite H in Ht end.
Qed.

Lemma keysOf_selected acceptCommitted (sel : option Apply) owner token s :
  keysOf (match sel with
    | None => (s, Ok None)
    | Some apply => finishClaim acceptCommitted s (persistApplyClaim apply owner token s)
    end).1 = keysOf s.
Proof.
  destruct sel as [apply|]; [|done]. pose proof (keysOf_claim apply owner token s) as Hc. unfold finishClaim.
  destruct (persistApplyClaim apply owner token s) as [s' [[outcome a]|e]]; [|done]. destruct (claimedAndComplete outcome); [done|].
  by destruct outcome.
Qed.

(** What the operator and the drives do to the applies of the data plane meanwhile. *)
Inductive operatorWork (foundRows : bool) : prog store unit -> Prop :=
| work_FindNextApply locked owner token : operatorWork foundRows (atomically (FindNextApply locked owner token))
| work_ClaimApplyByID locked id owner token : operatorWork foundRows (atomically (ClaimApplyByID locked id owner token))
| work_StopReconciliation locked owner token :
    operatorWork foundRows (atomically (FindNextApplyForStopReconciliation locked owner token))
| work_Heartbeat ctx id : operatorWork foundRows (call (Heartbeat foundRows ctx id))
| work_UpdateDerivedState ctx id expected new msg started completed :
    operatorWork foundRows (call (UpdateDerivedState foundRows ctx id expected new msg started completed))
| work_SetRevertSkipped id at_ : operatorWork foundRows (atomically (SetRevertSkipped id at_))
| work_ExpireRetryable : operatorWork foundRows (atomically ExpireRetryable).

Lemma operatorWork_keys foundRows p l : operatorWork foundRows p -> preserves (fun s => keysOf s = l) p.
Proof.
  intros Hp. destruct Hp; unfold call, atomically.
  1-3: split; [|done]; intros s <-; unfold FindNextApply, ClaimApplyByID, FindNextApplyForStopReconciliation;
    destruct (owner == ""); [done|]; apply keysOf_selected.
  - unfold Heartbeat. destruct (operationLeaseOnly ctx); [done|]. destruct (applyLeaseFromContext ctx id) as [lease|e]; [|done]. split.
    + intros s <-. by apply keysOf_update.
    + intros [rows|e]; [|done]. destruct lease as [l'|]; [|done]. apply preserves_bind; [|done].
      unfold confirmLeaseOnZeroRows. apply preserves_bind; [|done]. destruct (rows =? 0); [|done]. by apply read_preserves.
  - unfold UpdateDerivedState. destruct (derivedStateGuardForContext ctx id) as [g|e]; [|done]. split.
    + intros s <-. by apply keysOf_update.
    + intros [rows|e]; [|done]. destruct (0 <? rows); [done|]. apply read_preserves.
      intros [[]|e]; try done. destruct (negb _); [done|]. by apply read_preserves.
  - split; [|done]. intros s <-. by apply keysOf_update.
  - split; [|done]. intros s <-. unfold ExpireRetryable. destruct (_ =? 0)%nat; [done|].
    cbn [fst]. by rewrite keysOf_update.
Qed.

Lemma respects_work {R} foundRows p (r : R) : operatorWork foundRows p -> respects (let! _ := onPlane (onStore p) in Ret r).
Proof.
  intros Hp. apply respects_bind; [|done]. apply respects_onPlane, unmoved_store. intros l. by eapply operatorWork_keys.
Qed.

(** ** The parts of an admission *)

Lemma respects_try {A R} (p : prog dataPlane (res A)) (f : A -> prog dataPlane (res R)) :
  respects p -> (forall a, respects (f a)) -> respects (try! a := p in f a).
Proof. intros Hp Hf. apply respects_bind; [exact Hp|]. by intros [a|e]. Qed.

(** A statement on the plans. *)
Lemma respects_plans {A} (stmt : dataPlane -> dataPlane * res A) : (forall d, dp_plane (stmt d).1 = dp_plane d) -> respects (Exec stmt Ret).
Proof. intros Hs. split; [|done]. intros d Hu. unfold goodStep, dp_applies. by rewrite Hs. Qed.

Lemma respects_Get planIdentifier : respects (plans_Get planIdentifier).
Proof. by apply respects_plans. Qed.

Lemma respects_Create p : respects (plans_Create p).
Proof. apply respects_plans. intros d. by destruct (existsb _ _). Qed.

Lemma keyed_app key i l l' : keyed key i (l ++ l') <-> keyed key i l \/ keyed key i l'.
Proof.
  unfold keyed. split.
  - intros (a & Ha & Hk). apply elem_of_app in Ha as [Ha|Ha]; [left|right]; by exists a.
  - intros [(a & Ha & Hk)|(a & Ha & Hk)]; exists a; (split; [apply elem_of_app; auto|done]).
Qed.

(** The database gives a key to one apply. *)
Lemma insertApply_keys apply lockID s s1 id :
  insertApply apply lockID s = (s1, Ok id) -> uniqueKeys (applies s) ->
  grows (applies s) (applies s1) /\ uniqueKeys (applies s1) /\
  (default "" (a_IdempotencyKey apply) <> "" -> keyed (default "" (a_IdempotencyKey apply)) (a_ApplyIdentifier apply) (applies s1)).
Proof.
  unfold insertApply. case_match eqn:Hex; [done|]. intros [= <- <-] Hu. cbn. split_and!.
  - intros key i H. apply keyed_app. by left.
  - assert (forall key i j, keyed key i (applies s) -> default "" (a_IdempotencyKey apply) = key -> key <> "" -> i = j) as Hold.
    { intros key i j (a & Ha & Hk & _) Hnew Hne. exfalso. apply not_true_iff_false in Hex. apply Hex, existsb_exists. exists a.
      split; [by apply list_elem_of_In|]. apply orb_true_iff. right. cbn. rewrite Hk. unfold nullString. rewrite Hnew.
      rewrite (proj2 (eqb_false_iff _ _) Hne). apply eqb_refl'. }
    assert (forall key, nullString (default "" (a_IdempotencyKey apply)) = Some key ->
              default "" (a_IdempotencyKey apply) = key /\ key <> "") as Hnull.
    { intros key. unfold nullString. destruct (_ == _) eqn:He; [done|]. intros [= <-]. split; [done|]. by apply eqb_false_iff. }
    intros key i j Hi Hj. apply keyed_app in Hi as [Hi|(a & Ha & Hk & <-)], Hj as [Hj|(b & Hb & Hkb & <-)];
      try apply list_elem_of_singleton in Ha as ->; try apply list_elem_of_singleton in Hb as ->; cbn in *; try done; [by eapply Hu|..].
    + apply Hnull in Hkb as [? ?]. by eapply Hold.
    + apply Hnull in Hk as [? ?]. symmetry. by eapply Hold.
  - intros Hne. apply keyed_app. right. eexists. split; [by apply list_elem_of_singleton|]. cbn. split; [|done]. unfold nullString.
    by rewrite (proj2 (eqb_false_iff _ _) Hne).
Qed.

(** The transaction stores the apply under its key or changes nothing. *)
Lemma createWithRows_keys ci i ds writeRows s :
  (forall id s s', writeRows id s = (s', Ok tt) -> applies s' = applies s) -> uniqueKeys (applies s) ->
  grows (applies s) (applies (createWithRows ci i ds writeRows s).1) /\ uniqueKeys (applies (createWithRows ci i ds writeRows s).1) /\
  (forall id key, (createWithRows ci i ds writeRows s).2 = Ok id -> a_IdempotencyKey (in_apply i) = Some key -> key <> "" ->
     keyed key (a_ApplyIdentifier (in_apply i)) (applies (createWithRows ci i ds writeRows s).1)).
Proof.
  intros Hw Hu. unfold createWithRows. destruct (_ && _); [done|]. destruct (verifyExpectedLockIntent ci s i) as [lockID|e]; [|done].
  destruct (if isActiveApplyState _ then _ else _); [|done].
  destruct (insertApply (in_apply i) lockID s) as [s1 [id|e]] eqn:Ei; [|done].
  destruct (writeRows id s1) as [s2 [[]|e]] eqn:Ew; [|done]. cbn. rewrite (Hw _ _ _ Ew).
  destruct (insertApply_keys _ _ _ _ _ Ei Hu) as (Hg & Hu1 & Hk). split_and!; [done..|]. intros _ key _ Hkey Hne.
  rewrite Hkey in Hk. by apply Hk.
Qed.

(** What an accepted request is answered with: an apply stored under its key. *)
Definition answered (req : RemoteApplyRequest) (d : dataPlane) (r : res RemoteApplyResponse) : Prop :=
  forall resp, r = Ok resp -> rr_Accepted resp = true -> ra_IdempotencyKey req <> "" ->
    keyed (ra_IdempotencyKey req) (rr_ApplyId resp) (dp_applies d).

#[global] Instance answered_lasting req : Lasting (answered req).
Proof. intros d d' r Hg Hr resp H1 H2 H3. by apply Hg, Hr. Qed.

(** A result that does not depend on the request. *)
Lemma answered_not req d (r : res RemoteApplyResponse) : (forall resp, r = Ok resp -> rr_Accepted resp = false) -> answered req d r.
Proof. intros Hr resp -> Ha. by rewrite (Hr resp) in Ha. Qed.

Lemma promised_try {A} req d (p : prog dataPlane (res A)) (f : A -> prog dataPlane (res RemoteApplyResponse)) :
  respects p -> (forall d' a, grows (dp_applies d) (dp_applies d') -> promised (answered req) d' (f a)) ->
  promised (answered req) d (try! a := p in f a).
Proof.
  intros Hp Hf. eapply promised_bind; [by apply promised_respects|]. intros d' [a|e] Hg _; [by apply Hf|]. by apply answered_not.
Qed.

Section Admission.
Context {ST : Type} `{!StatementTypes ST}.
Context (Classify : string -> option (list ST)) (IsDDL : ST -> bool).
Context (New : string -> option (list Statement)) (Restore : string -> option string).
Context (driftText : DriftErr -> string) (fanoutText : FanoutErr -> string) (errText : StoreErr -> string).
Context (ci : string -> string) (E : EngineNames) (foundRows : bool) (ctx : leaseCtx) (cfg : clientConfig) (engineName : string).
Context (marshalOptions : ApplyOptions -> string).

Lemma respects_read {A} (f : store -> A) : respects (onPlane (readStore f)).
Proof. apply respects_onPlane, unmoved_read. Qed.

Lemma respects_plan req : respects (planForApplyRequest Classify IsDDL New Restore driftText errText cfg req).
Proof.
  apply respects_try; [apply respects_Get|]. intros [plan|]; [done|]. destruct (negb _); [done|]. apply respects_try; [|done].
  unfold materializeApplyRequestPlan. destruct (normalizeSchemaFiles _ _) as [files|e]; [|done].
  destruct (namespacesFromApplyRequest _ _ _ _ _) as [namespaces|e]; [|done]. destruct (bool_decide _); [done|].
  apply respects_try.
  - apply respects_onPlane. unfold verifyLiveSchema. case_match; [|done]. apply unmoved_bind; [apply unmoved_plan|done].
  - intros _. apply respects_bind; [apply respects_Create|]. intros [planID|e]; [done|].
    apply respects_bind; [apply respects_Get|done].
Qed.

(** The stored apply of the request's key. *)
Lemma promised_existing req d :
  promised (fun d r => forall a, r = Ok (Some a) -> keyed (ra_IdempotencyKey req) (a_ApplyIdentifier a) (dp_applies d)) d
    (existingIdempotentApply req).
Proof.
  unfold existingIdempotentApply. destruct (_ == _) eqn:He; [done|]. cbn. intros d' _ Hu. split_and!; [done..| |done].
  cbn. destruct (GetByIdempotencyKey _ _) as [a|] eqn:Hf; [|done]. cbn. intros b Hb. destruct (_ || _); [done|]. injection Hb as <-.
  unfold GetByIdempotencyKey in Hf. rewrite He in Hf. apply find_some in Hf as [Ha%list_elem_of_In Hk].
  exists a. split; [exact Ha|]. split; [|done]. destruct (a_IdempotencyKey a) as [k|]; [|done]. by apply eqb_true_iff in Hk as ->.
Qed.

Lemma promised_answer req d existing :
  keyed (ra_IdempotencyKey req) (a_ApplyIdentifier existing) (dp_applies d) -> promised (answered req) d (answerExisting existing).
Proof.
  intros Hk. apply promised_try.
  - apply respects_try; [apply respects_read|done].
  - intros d' operationID Hg. cbn. intros resp [= <-] _ _. by apply Hg.
Qed.

(** The lookup by key, then what follows when there is no such apply. *)
Lemma promised_lookup req d (p : prog dataPlane (res RemoteApplyResponse)) :
  (forall d', grows (dp_applies d) (dp_applies d') -> promised (answered req) d' p) ->
  promised (answered req) d
    (try! existing := existingIdempotentApply req in match existing with Some existing => answerExisting existing | None => p end).
Proof.
  intros Hp. eapply promised_bind; [apply promised_existing|]. intros d' [[a|]|e] Hg Hr.
  - by apply promised_answer, Hr.
  - by apply Hp.
  - by apply answered_not.
Qed.

Lemma insertRows_applies ts ops id s s' : insertApplyTasksAndOperations ts ops id s = (s', Ok tt) -> applies s' = applies s.
Proof. intros H. by apply insertApplyTasksAndOperations_adds in H as [H _]. Qed.

Lemma promised_store req plan ddlChanges shard input d :
  promised (answered req) d (storeApply fanoutText ci cfg engineName marshalOptions req plan ddlChanges shard input).
Proof.
  unfold storeApply. destruct (rejectUnsafeDDLChangesWithoutOptIn _ _); [by apply answered_not; intros resp [= <-]|].
  destruct (if shard != "" then _ else _) as [operationKey|e]; [|by apply answered_not]. cbn. intros d' _ Hu.
  match goal with |- context [CreateWithTasksAndOperations ci ?i ?ts ?ops _] =>
    pose proof (createWithRows_keys ci i (a_Deployment (in_apply i) :: (op_Deployment <$> ops)) (insertApplyTasksAndOperations ts ops)
      (pl_db (dp_plane d')) (insertRows_applies ts ops) Hu) as (Hg & Hu' & Hk)
  end.
  unfold CreateWithTasksAndOperations, goodStep, dp_applies in *.
  destruct (createWithRows ci _ _ _ _) as [s' [applyID|e]]; cbn in *; (split; [done|]).
  - split; [intros resp [= <-] _ Hne; by eapply Hk|]. intros e. by apply promised_lookup; intros; apply answered_not.
  - split; [|intros e']; by apply promised_lookup; intros; apply answered_not.
Qed.

Lemma promised_apply req input d :
  promised (answered req) d (LocalClient_Apply Classify IsDDL New Restore driftText fanoutText errText ci E foundRows ctx cfg engineName
    marshalOptions req input).
Proof.
  unfold LocalClient_Apply. destruct (_ == _); [by apply answered_not|]. destruct (_ == _); [by apply answered_not|].
  apply promised_lookup. intros d1 _. apply promised_try; [apply respects_plan|]. intros d2 [plan|] _; [|by apply answered_not; intros resp [= <-]].
  destruct (dispatchScope _ _ _ _) as [[ddlChanges shard]|e]; [|by apply answered_not].
  eapply promised_bind; [apply promised_respects, respects_onPlane, unmoved_conflict|]. intros d3 [[]|e] _ _.
  - destruct (negb _); [by apply answered_not|]. apply promised_store.
  - apply promised_lookup. intros d4 _. by apply answered_not; intros resp [= <-].
Qed.
End Admission.

(** ** One apply per attempt *)

Section Attempt.
Context {ST : Type} `{!StatementTypes ST}.
Context (Classify : string -> option (list ST)) (IsDDL : ST -> bool).
Context (New : string -> option (list Statement)) (Restore : string -> option string).
Context (driftText : DriftErr -> string) (fanoutText : FanoutErr -> string) (errText : StoreErr -> string).
Context (ci : string -> string) (E : EngineNames) (foundRows : bool) (ctx : leaseCtx) (cfg : clientConfig) (engineName : string).
Context (marshalOptions : ApplyOptions -> string).

Abbreviation theCall := (fun c => LocalClient_Apply Classify IsDDL New Restore driftText fanoutText errText ci E foundRows ctx cfg
  engineName marshalOptions c.1 c.2).

(** What a finished call of the pool was answered. *)
Definition answers (p : prog dataPlane (res RemoteApplyResponse)) (applyID : string) : Prop :=
  exists resp, p = Ret (Ok resp) /\ rr_Accepted resp = true /\ rr_ApplyId resp = applyID.

(** In every interleaving an accepted call names an apply that is stored under its key. *)
Lemma pool_answers (calls : list (RemoteApplyRequest * callInput)) (others ps : list (prog dataPlane (res RemoteApplyResponse))) d d' :
  rtc pool_step ((theCall <$> calls) ++ others, d)%list (ps, d') -> Forall respects others -> uniqueKeys (dp_applies d) ->
  uniqueKeys (dp_applies d') /\
  forall i c p applyID, calls !! i = Some c -> ps !! i = Some p -> answers p applyID -> ra_IdempotencyKey c.1 <> "" ->
    keyed (ra_IdempotencyKey c.1) applyID (dp_applies d').
Proof.
  intros Hrun Hothers Hu.
  pose (Q := fun (q : option (RemoteApplyRequest * callInput)) d r => match q with Some c => answered c.1 d r | None => True end).
  assert (forall q, Lasting (Q q)) as HQ by (intros [c|]; [apply answered_lasting|done]).
  destruct (pool_promises Q (((fun c => Some c) <$> calls) ++ replicate (length others) None)%list _ _ Hrun Hu) as [Hu' Hps].
  - cbn. apply Forall2_app.
    + apply Forall2_fmap, Forall_Forall2_diag, Forall_true. intros c. apply promised_apply.
    + clear Hrun. induction Hothers as [|p ps' Hp _ IH]; cbn; [done|]. constructor; [|done]. by apply promised_respects.
  - split; [exact Hu'|]. intros i c p applyID Hc Hp (resp & -> & Ha & <-) Hne. cbn in Hps.
    assert ((((fun c => Some c) <$> calls) ++ replicate (length others) None)%list !! i = Some (Some c)) as Hi.
    { apply lookup_app_l_Some. by rewrite list_lookup_fmap, Hc. }
    by apply (Forall2_lookup_lr _ _ _ _ _ _ Hps Hi Hp resp).
Qed.

(** A request of a drive of the attempt of operation [opID] that [apply] and [op] stand
    for: any drive whose apply has that identifier and attempt, on any control plane in
    which the rows keep what identifies the attempt while it runs. *)
Definition sentByAttempt (hasOptions : bool) (driveCtx : leaseCtx) (newTaskIdentifier : TaskRec -> string -> string)
    (remoteText : remoteErr -> string) (displayBlob : gmap string string -> res string) (sha256hex : string -> string)
    (planRow : store -> Z -> option Plan) (driveText : remoteDriveErr -> string)
    (apply : Apply) (opID : Z) (op : ApplyOperation) (multi : bool) (req : RemoteApplyRequest) : Prop :=
  exists now events cutover waits a env w,
    let p := operationDrive E foundRows hasOptions driveCtx newTaskIdentifier remoteText displayBlob sha256hex planRow driveText now
               events cutover waits a opID in
    sameAttempt apply a /\ Forall (steady a opID op multi) (trace env 0 p w) /\ req ∈ dispatched env 0 p w.

Lemma sent_key hasOptions driveCtx newTaskIdentifier remoteText displayBlob sha256hex planRow driveText apply opID op multi req :
  sentByAttempt hasOptions driveCtx newTaskIdentifier remoteText displayBlob sha256hex planRow driveText apply opID op multi req ->
  ra_IdempotencyKey req = remoteApplyIdempotencyKey sha256hex (freshDrive apply opID op multi).
Proof.
  intros (now & events & cutover & waits & a & env & w & Ha & Hsteady & Hreq).
  match type of Hreq with _ ∈ dispatched _ _ ?p _ => destruct (runE env 0 p w) as [[w' r] n] eqn:Hrun end.
  destruct (drive_dispatches _ _ _ _ _ _ _ _ _ _ _ _ _ _ _ _ _ _ _ _ _ _ _ Hrun Hsteady) as [Hl|(req' & w0 & o & Hl & _ & _ & _ & Hk)];
    rewrite Hl in Hreq; [by apply not_elem_of_nil in Hreq|]. apply list_elem_of_singleton in Hreq as ->. rewrite Hk.
  unfold remoteApplyIdempotencyKey. by rewrite (key_steady apply opID op multi op (freshDrive a opID op multi)).
Qed.

(** C19: the drives of an attempt are admitted as one apply.  Deliver the Apply requests
    that drives of one attempt of an operation dispatch to the data plane, each any
    number of times and all at once, and let its other work that neither deletes an
    apply nor changes its key run too: in every interleaving of their statements,
    failing statements included, all the calls that were accepted were answered with
    one and the same apply, and that is the one apply stored under the attempt's key. *)
Theorem attempt_admitted_once (hasOptions : bool) (driveCtx : leaseCtx) (newTaskIdentifier : TaskRec -> string -> string)
    (remoteText : remoteErr -> string) (displayBlob : gmap string string -> res string) (sha256hex : string -> string)
    (planRow : store -> Z -> option Plan) (driveText : remoteDriveErr -> string)
    (apply : Apply) (opID : Z) (op : ApplyOperation) (multi : bool)
    (calls : list (RemoteApplyRequest * callInput)) (others ps : list (prog dataPlane (res RemoteApplyResponse))) (d d' : dataPlane)
    (Hcalls : Forall (fun c => sentByAttempt hasOptions driveCtx newTaskIdentifier remoteText displayBlob sha256hex planRow driveText
                                 apply opID op multi c.1) calls)
    (Hothers : Forall respects others) (Hkeys : uniqueKeys (dp_applies d))
    (Hrun : rtc pool_step ((theCall <$> calls) ++ others, d)%list (ps, d')) :
  forall i j p q (applyID applyID' : string), (i < length calls)%nat -> (j < length calls)%nat ->
    ps !! i = Some p -> ps !! j = Some q -> answers p applyID -> answers q applyID' ->
    applyID = applyID' /\
    forall id, keyed (remoteApplyIdempotencyKey sha256hex (freshDrive apply opID op multi)) id (dp_applies d') <-> id = applyID.
Proof.
  destruct (pool_answers calls others ps d d' Hrun Hothers Hkeys) as [Hu Hans].
  set (key := remoteApplyIdempotencyKey _ _).
  assert (forall i p applyID, (i < length calls)%nat -> ps !! i = Some p -> answers p applyID -> keyed key applyID (dp_applies d')) as Hone.
  { intros i p applyID [c Hc]%lookup_lt_is_Some_2 Hp Ha.
    assert (ra_IdempotencyKey c.1 = key) as Hkey by (eapply sent_key, (Forall_lookup_1 _ _ _ _ Hcalls Hc)).
    rewrite <- Hkey. eapply Hans; [exact Hc|exact Hp|exact Ha|]. by rewrite Hkey. }
  intros i j p q applyID applyID' Hi Hj Hp Hq Hap Haq. specialize (Hone i p applyID Hi Hp Hap) as H1.
  specialize (Hone j q applyID' Hj Hq Haq) as H2. split; [by eapply Hu|]. intros id. split; [|by intros ->]. intros H. by eapply Hu.
Qed.
End Attempt.

(** ** A race *)

Lemma pool_run {S R} (p : prog S R) pre post s s' r : run p s = (s', r) -> rtc pool_step (pre ++ p :: post, s)%list (pre ++ Ret r :: post, s')%list.
Proof.
  revert s. induction p as [x | A stmt k IH]; intros s Hr.
  - by injection Hr as -> ->.
  - rewrite run_Exec in Hr. eapply rtc_l; [apply pool_exec|]. by apply IH.
Qed.

Definition admittedPlan : planRow :=
  {| pw_Plan := {| pn_ID := 1; pn_PlanIdentifier := "plan-1"; pn_Database := "orders"; pn_DatabaseType := "mysql"; pn_Repository := "";
                   pn_PullRequest := 0;
                   pn_Namespaces := {["orders" := addTableChange {| sg_Namespace := "orders"; sg_Table := "t"; sg_DDL := "ALTER TABLE t";
                                        sg_Operation := "alter"; sg_IsUnsafe := false; sg_UnsafeReason := "" |} noNamespaceData]};
                   pn_Shards := []; pn_SchemaFiles := ∅ |};
     pw_Deployment := "orders"; pw_Target := "orders"; pw_Environment := "staging" |}.

Definition emptyDataPlane : dataPlane :=
  {| dp_plane := examplePlane {| applies := []; operations := []; controls := []; tasks := [];
                                 locks := {| lk_rows := ∅; lk_nextID := 1; lk_now := 100 |}; nextID := 1; now := 100 |}
                   (exampleEngine (Ok None));
     dp_plans := [admittedPlan]; dp_nextPlan := 2 |}.

Definition usRequest : RemoteApplyRequest :=
  match dispatched (fun _ => quiet) 0 (exampleDrive (fun s => s) [ProgressTick 2005] false (exampleApply Apply.Pending) 1) queuedPlane with
  | req :: _ => req
  | [] => {| ra_PlanId := ""; ra_Options := ∅; ra_Database := ""; ra_Type := ""; ra_Environment := ""; ra_Caller := "";
             ra_IdempotencyKey := ""; ra_Target := ""; ra_DdlChanges := []; ra_SchemaFiles := ∅; ra_TargetShards := [] |}
  end.

Definition exampleCall (c : RemoteApplyRequest * callInput) : prog dataPlane (res RemoteApplyResponse) :=
  LocalClient_Apply (StatementTypes0 := natStatements) (fun _ => None) (fun _ => true) (fun _ => None) (fun _ => None)
    (fun _ => "drift") (fun _ => "fanout") (fun _ => "error") (fun s => s) documentedNames true noLease
    (exampleClient DatabaseTypeMySQL) "spirit" (fun _ => "{}") c.1 c.2.

Definition firstCall : callInput := {| in_Apply := "apply_1"; in_Task := fun i => "task_1_" ++ Itoa (Z.of_nat i); in_Now := 100 |}.
Definition secondCall : callInput := {| in_Apply := "apply_2"; in_Task := fun i => "task_2_" ++ Itoa (Z.of_nat i); in_Now := 101 |}.

(** One statement of a program. *)
Definition stepped {S R} (p : prog S R) (s : S) : prog S R * S :=
  match p with Ret r => (Ret r, s) | Exec stmt k => (k (stmt s).2, (stmt s).1) end.

Lemma pool_stepped {S R} (p : prog S R) pre post s :
  rtc pool_step (pre ++ p :: post, s)%list (pre ++ (stepped p s).1 :: post, (stepped p s).2)%list.
Proof. destruct p as [r | A stmt k]; [reflexivity|]. apply rtc_once, pool_exec. Qed.

(** The operator claims a new apply. *)
Definition operatorClaims : prog dataPlane (res RemoteApplyResponse) :=
  let! _ := onPlane (onStore (atomically (FindNextApply (fun _ => false) "worker" "token"))) in Ret (Ok (rejectedApply "")).

(** The first call looks for the key; then the second call stores its apply and the
    operator claims it; then the first call goes on. *)
Definition racing : prog dataPlane (res RemoteApplyResponse) * dataPlane := stepped (exampleCall (usRequest, firstCall)) emptyDataPlane.
Definition secondDone : dataPlane * res RemoteApplyResponse := run (exampleCall (usRequest, secondCall)) racing.2.
Definition claimDone : dataPlane * res RemoteApplyResponse := run operatorClaims secondDone.1.
Definition firstDone : dataPlane * res RemoteApplyResponse := run racing.1 claimDone.1.

Lemma race_runs :
  rtc pool_step ((exampleCall <$> [(usRequest, firstCall); (usRequest, secondCall)]) ++ [operatorClaims], emptyDataPlane)%list
    ([Ret firstDone.2; Ret secondDone.2; Ret claimDone.2], firstDone.1).
Proof.
  etrans; [apply (pool_stepped (exampleCall (usRequest, firstCall)) [] [exampleCall (usRequest, secondCall); operatorClaims])|].
  etrans; [apply (pool_run (exampleCall (usRequest, secondCall)) [racing.1] [operatorClaims] racing.2 secondDone.1 secondDone.2), surjective_pairing|].
  etrans; [apply (pool_run operatorClaims [racing.1; Ret secondDone.2] [] secondDone.1 claimDone.1 claimDone.2), surjective_pairing|].
  apply (pool_run racing.1 [] [Ret secondDone.2; Ret claimDone.2] claimDone.1 firstDone.1 firstDone.2), surjective_pairing.
Qed.

Lemma usRequest_sent :
  sentByAttempt (StatementTypes0 := natStatements) documentedNames true false noLease (fun t shard => tk_TaskIdentifier t ++ shard)
    (fun _ => "remote error") (fun _ => Ok "") (fun s => s) (fun _ _ => Some remotePlan) (fun _ => "drive error")
    (exampleApply Apply.Pending) 1 (usOp None Apply.Pending) true usRequest.
Proof.
  exists 2000, [ProgressTick 2005], false, [], (exampleApply Apply.Pending), (fun _ => quiet), queuedPlane. split; [done|].
  split; [apply steadyb_ok; vm_compute; reflexivity|]. vm_compute. apply list_elem_of_here.
Qed.

(** Both calls are answered with the apply of the second, which the operator drives. *)
Lemma attempt_admitted_once_witness :
  answers (Ret firstDone.2) "apply_2" /\ answers (Ret secondDone.2) "apply_2" /\
  (a_State <$> dp_applies firstDone.1) = [Apply.Running] /\
  (forall id, keyed (remoteApplyIdempotencyKey (fun s => s) (freshDrive (exampleApply Apply.Pending) 1 (usOp None Apply.Pending) true))
     id (dp_applies firstDone.1) <-> id = "apply_2").
Proof.
  assert (answers (Ret firstDone.2) "apply_2") as H1 by (eexists; vm_compute; by split_and!).
  assert (answers (Ret secondDone.2) "apply_2") as H2 by (eexists; vm_compute; by split_and!).
  split; [exact H1|]. split; [exact H2|]. split; [vm_compute; reflexivity|].
  assert (Forall respects [operatorClaims]) as Hothers by (constructor; [apply (respects_work true); constructor|done]).
  assert (uniqueKeys (dp_applies emptyDataPlane)) as Hkeys by (intros key i j (a & Ha & _); by apply not_elem_of_nil in Ha).
  refine (proj2 (attempt_admitted_once (StatementTypes0 := natStatements) (fun _ => None) (fun _ => true) (fun _ => None) (fun _ => None)
    (fun _ => "drift") (fun _ => "fanout") (fun _ => "error") (fun s => s) documentedNames true noLease
    (exampleClient DatabaseTypeMySQL) "spirit" (fun _ => "{}") false noLease (fun t shard => tk_TaskIdentifier t ++ shard)
    (fun _ => "remote error") (fun _ => Ok "") (fun s => s) (fun _ _ => Some remotePlan) (fun _ => "drive error")
    (exampleApply Apply.Pending) 1 (usOp None Apply.Pending) true [(usRequest, firstCall); (usRequest, secondCall)] [operatorClaims]
    _ emptyDataPlane firstDone.1 _ Hothers Hkeys race_runs 0%nat 1%nat _ _ "apply_2" "apply_2" _ _ eq_refl eq_refl H1 H2)).
  - repeat constructor; exact usRequest_sent.
  - cbn. lia.
  - cbn. lia.
Defined.
