(* ===== verification/RevertWindow.v ===== *)
(** * The revert window of a grouped drive (tern/local_apply_grouped.go)

    After the cutover an engine can hold a change in a revert window: until it
    closes, the change can be taken back.  A drive closes it by skipping the revert:
    at once when the apply was started with skip-revert, on a user's request, or when
    the window has expired.  Here is the proof that nothing else closes it. *)

From S2P Require Import Prelude GoStrings State Convert Sql Store Operations Applies Control Projection Fencing Tasks Plane Fanout Stopping LocalControl Sequential Conflict Grouped Sends.

Local Open Scope string_scope.
Local Open Scope Z_scope.

(** ** Commands that skip the revert *)

Definition isSkip (c : engineCall) : bool :=
  match c with CallControl ControlSkipRevert _ => true | _ => false end.

Abbreviation skips := (sent isSkip).

#[local] Instance isSkip_kind : Kind isSkip.
Proof. split; [done|]. by intros []. Qed.

(** ** An open window *)

Section Window.
Context (E : EngineNames) (foundRows hasOptions : bool) (ctx : leaseCtx) (cfg : clientConfig).
Context (errText : StoreErr -> string) (unmarshalVolume : string -> option Z).
Context (parseDuration : string -> option Z) (revertWindowMetadata : string).
Context (psMetadata : string -> option psMeta) (mergeRevertExpiry : string -> Z -> res string).
Context (newTaskIdentifier : TaskRec -> string -> string).

(** At [last] the window of this progress, if it is one, has not expired. *)
Definition unexpired (last : Z) (p : EngineProgress) : Prop :=
  pr_State (ep_Result p) = Engine.StateRevertWindow ->
  exists t, deployedAt psMetadata (ep_ResumeState p) = Some t /\
            last <= t + revertWindowDuration parseDuration revertWindowMetadata.

(** Nobody asks to skip the revert of the apply, and what the engine reports of a
    revert window says that it is open at [last]. *)
Record windowOpen (last id : Z) (w : plane) : Prop := {
  wo_request : GetPending id ControlOperationSkipRevert (pl_db w) = None;
  wo_open : forall database creds rs p, ev_Progress (pl_engine w) database creds rs = Ok p -> unexpired last p;
}.

Section Tick.
Context (clockNow last id : Z) (creds : string) (options : gmap string string) (release : bool).
Context (Hlast : clockNow <= last) (Hoption : ao_SkipRevert (ApplyOptionsFromMap options) = false).

Abbreviation guarded := (spares skips (windowOpen last id)).

Lemma guarded_andNext (p : prog plane tick) k :
  guarded (tickOf id) p -> (forall d, a_ID (gd_Apply d) = id -> guarded (tickOf id) (k d)) ->
  guarded (tickOf id) (andNext p k).
Proof. intros Hp Hk. eapply spares_bind; [exact Hp|]. intros [d|d] Hd; [done|by apply Hk]. Qed.

Lemma guarded_revert p d :
  a_ID (gd_Apply d) = id -> unexpired last p ->
  guarded (fun d' => a_ID (gd_Apply d') = id)
    (tickRevert foundRows ctx parseDuration revertWindowMetadata psMetadata clockNow creds options p d).
Proof.
  intros Hid Hopen. unfold tickRevert, autoSkipRevert. rewrite Hoption, andb_false_r. cbn [andb pbind].
  eapply (spares_bind _ _ (fun d' => d' = d)).
  { unfold serveSkipRevert. destruct (_ && _); [|done]. eapply spares_bind; [apply spares_read|].
    intros r [Hf|(w & Hw & ->)]; [by destruct r|]. destruct Hw as [Hw _]. rewrite Hid, Hw. done. }
  intros _ ->. eapply (spares_bind _ _ (fun _ => True)).
  { apply spares_always. unfold serveRevert, command. destruct (_ && _); [|done]. apply (noSend_bind isSkip); [apply (noSend_onStore isSkip)|].
    intros [[req|]|e]; [|done..]. apply (noSend_bind isSkip).
    { apply (noSend_bind isSkip); [by apply (noSend_command isSkip)|]. by intros. }
    intros [|]; [|done]. apply (noSend_bind isSkip); [apply (noSend_complete isSkip)|]. done. }
  intros reverted _. unfold expireRevert. destruct (pr_State (ep_Result p) == _) eqn:Est; [|done]. reflect_guards.
  destruct (Hopen Est) as (t & Ht & Hlt). unfold revertWindowDeadline. rewrite Ht.
  replace (_ <? clockNow) with false by (symmetry; apply Z.ltb_ge; lia). by rewrite andb_false_r.
Qed.

Lemma guarded_tick d :
  a_ID (gd_Apply d) = id ->
  guarded (tickOf id)
    (handleAtomicProgressTick E foundRows hasOptions ctx cfg errText unmarshalVolume parseDuration revertWindowMetadata
       psMetadata mergeRevertExpiry newTaskIdentifier clockNow creds options release d).
Proof.
  intros H0. apply guarded_andNext. { rewrite <- H0. apply spares_always, (noSend_tickStop isSkip). } intros d1 H1.
  assert (forall e, guarded (tickOf id) (progressFailed foundRows hasOptions ctx cfg clockNow e d1)) as Hfail.
  { intros e. rewrite <- H1. apply spares_always, (noSend_progressFailed isSkip). }
  eapply spares_bind; [apply spares_ask|]. intros r [->|(w & Hw & ->)]; [apply Hfail|].
  destruct (ev_Progress _ _ _ _) as [p|e] eqn:Ep; [|apply Hfail].
  apply (wo_open _ _ _ Hw) in Ep as Hopen. clear Hw Ep w.
  apply guarded_andNext. { rewrite <- H1. apply spares_always. apply (noSend_adopt isSkip foundRows hasOptions clockNow ctx cfg
    errText parseDuration revertWindowMetadata psMetadata mergeRevertExpiry p (set_gd_Poll _ d1)). } intros d2 H2. cbv zeta.
  eapply spares_bind; [apply spares_always, (noSend_sync isSkip)|]. intros ts _.
  assert (a_ID (gd_Apply (set_gd_Tasks ts (enterState clockNow (taskStateFromProgressResult (Some (ep_Result p))) d2)))
          = id) as H3.
  { unfold enterState. by destruct (_ == _). }
  apply guarded_andNext. { rewrite <- H3. apply spares_always, (noSend_tickStop isSkip). } intros d4 H4.
  apply guarded_andNext. { rewrite <- H4. apply spares_always, (noSend_tickRequests isSkip). } intros d5 H5.
  eapply spares_bind; [apply spares_always, (noSend_waiting isSkip)|]. intros _ _.
  eapply spares_bind; [by apply guarded_revert|]. intros d6 H6. cbv beta in H6. rewrite <- H6.
  apply spares_always, (noSend_settle isSkip).
Qed.
End Tick.

Lemma guarded_poll last id clocks context creds options release d :
  Forall (fun clock => clock <= last) clocks -> ao_SkipRevert (ApplyOptionsFromMap options) = false ->
  a_ID (gd_Apply d) = id ->
  spares skips (windowOpen last id) (fun _ => True)
    (pollForCompletionAtomic E foundRows hasOptions ctx cfg errText unmarshalVolume parseDuration revertWindowMetadata
       psMetadata mergeRevertExpiry newTaskIdentifier clocks context creds options release d).
Proof.
  intros Hc Ho. revert d. induction Hc as [|clock clocks Hle Hc IH]; intros d Hid; cbn [pollForCompletionAtomic]; [done|].
  eapply spares_bind; [apply spares_always, (noSend_cancelled isSkip)|]. intros [|] _; [done|].
  eapply spares_bind; [by apply guarded_tick|]. intros [d'|d'] Hd; [done|by apply IH].
Qed.
End Window.

(** ** Properties *)

(** C11: an open revert window is left open.  A grouped drive of an apply without
    skip-revert sends the engine no command to skip the revert as long as nobody has
    asked for it and the window the engine reports (the time of the deployment plus
    the configured duration) reaches beyond the drive's clock, whatever the engine
    reports otherwise, whatever happens between its statements and whichever of them
    fail.  Stops, cutovers, volume changes and errors of the drive never close the
    window. *)
Theorem revert_window_honoured (E : EngineNames) (foundRows hasOptions : bool) (ctx : leaseCtx) (cfg : clientConfig)
    (errText : StoreErr -> string) (unmarshalVolume parseDuration : string -> option Z) (revertWindowMetadata : string)
    (psMetadata : string -> option psMeta) (mergeRevertExpiry : string -> Z -> res string)
    (newTaskIdentifier : TaskRec -> string -> string) (clocks : list Z) (last context : Z) (creds : string)
    (options : gmap string string) (release : bool) (d : groupedDrive) env w
    (Hclocks : Forall (fun clock => clock <= last) clocks)
    (Hoption : ao_SkipRevert (ApplyOptionsFromMap options) = false)
    (Hopen : Forall (windowOpen parseDuration revertWindowMetadata psMetadata last (a_ID (gd_Apply d)))
               (trace env 0 (pollForCompletionAtomic E foundRows hasOptions ctx cfg errText unmarshalVolume parseDuration
                  revertWindowMetadata psMetadata mergeRevertExpiry newTaskIdentifier clocks context creds options release d) w)) :
  leaves skips env 0 (pollForCompletionAtomic E foundRows hasOptions ctx cfg errText unmarshalVolume parseDuration
    revertWindowMetadata psMetadata mergeRevertExpiry newTaskIdentifier clocks context creds options release d) w.
Proof.
  destruct (runE env 0 (pollForCompletionAtomic E foundRows hasOptions ctx cfg errText unmarshalVolume parseDuration
    revertWindowMetadata psMetadata mergeRevertExpiry newTaskIdentifier clocks context creds options release d) w)
    as [[w' r] n] eqn:Hrun.
  refine (proj2 (spares_run _ _ _ env _ 0%nat w w' r n (guarded_poll E foundRows hasOptions ctx cfg errText unmarshalVolume
    parseDuration revertWindowMetadata psMetadata mergeRevertExpiry newTaskIdentifier last _ clocks context creds options
    release d Hclocks Hoption eq_refl) Hopen Hrun)).
Qed.

(** An engine that holds a change deployed at 40 in its revert window and answers
    every command with [answer]. *)
Definition windowEngine (answer : eres (option ControlResult)) : engineView :=
  {| ev_Plan := fun _ _ _ => Err transportError; ev_CutoverSignal := fun _ _ => None;
     ev_Apply := fun _ => ([], Err transportError);
     ev_Progress := fun _ _ _ =>
       Ok {| ep_Result := {| pr_State := Engine.StateRevertWindow; Retryable := false; pr_ErrorMessage := ""; pr_Message := "" |};
             ep_Tables := []; ep_ResumeState := Some {| rs_MigrationContext := "c"; rs_Metadata := "deployed" |} |};
     ev_Control := fun _ _ => answer; ev_Volume := fun _ => Ok None; ev_Validate := fun _ _ => None |}.

Definition windowTask : TaskRec := exampleTask 7 "task_7" "t" "" Task.RevertWindow.

(** The last second of the window; one second later the drive closes it. *)
Lemma revert_window_honoured_witness :
  let apply := exampleApply Apply.RevertWindow in
  let d := startPoll apply [windowTask] None in
  let w := examplePlane (withTasks [windowTask] (exampleStore apply [] [])) (windowEngine (Ok None)) in
  let env := fun _ : nat => {| interfere := fun u => {| pl_db := set_controls [] (pl_db u); pl_engine := windowEngine (Ok None);
                                                      pl_calls := pl_calls u; pl_cancels := pl_cancels u; pl_remote := pl_remote u; pl_sent := pl_sent u |}; fault := None |} in
  leaves skips env 0 (samplePoll DatabaseTypeMySQL [50; 1840] ∅ d) w /\
  length (skips (runE env 0 (samplePoll DatabaseTypeMySQL [50; 1841] ∅ d) w).1.1) = 1%nat.
Proof.
  intros apply d w env. split; [|vm_compute; reflexivity].
  refine (revert_window_honoured documentedNames true false noLease (exampleClient DatabaseTypeMySQL) sampleErrText sampleUnmarshal
            (fun _ => None) "" sampleMeta (fun m _ => Ok m) (fun t shard => tk_TaskIdentifier t ++ shard) [50; 1840] 1840 9 "dsn"
            ∅ false d env w _ _ _); [by repeat constructor|reflexivity|].
  apply trace_all. intros m u. split; [reflexivity|]. intros database creds rs p [= <-] _. exists 40. split; [reflexivity|].
  vm_compute. discriminate.
Defined.

(** ** A skip that failed *)

(** With skip-revert, a skip the engine refuses counts as done: the apply is shown as
    skipping its revert, the skip is not tried again, and a request to revert is left
    pending although the window is open. *)
Lemma failed_skip_ignores_revert :
  let apply := exampleApply Apply.RevertWindow in
  let d := startPoll apply [windowTask] None in
  let w := examplePlane (withTasks [windowTask] (exampleStore apply []
             [exampleRequest ControlOperationRevert ControlRequestPending])) (windowEngine (Err transportError)) in
  let w' := (run (samplePoll DatabaseTypeMySQL [50; 60; 70] {[ "skip_revert" := "true" ]} d) w).1 in
  length (pl_calls w') = 1%nat /\ length (skips w') = 1%nat /\
  a_State <$> applies (pl_db w') = [Apply.SkippingRevert] /\ a_RevertSkippedAt <$> applies (pl_db w') = [None] /\
  cr_Status <$> controls (pl_db w') = [ControlRequestPending].
Proof. vm_compute. repeat split; reflexivity. Qed.
