(* ===== verification/Reviewed.v ===== *)
(** * What a resume may do (tern/local_control_resume.go)

    A resume plans again against the live schema, and a schema that drifted since the
    review makes that plan one nobody has seen.  Here is the proof that whatever the
    engine answers, everything a resumed drive hands to it is a change of one of the
    tasks it was given, in its reviewed form up to formatting; that a change that is
    being reverted is only reattached to, never started again; and that a group
    finalizer reports success only when the engine has applied its VSchema. *)

From S2P Require Import Prelude GoStrings State Convert Sql Store Operations Applies Control Projection Drift Fencing Tasks Plane Fanout Stopping LocalControl Sequential Conflict Grouped Sends Resume.

Local Open Scope string_scope.
Local Open Scope Z_scope.

Section Reviewed.
Context {ST : Type} `{!StatementTypes ST}.
Context (Classify : string -> option (list ST)) (IsDDL : ST -> bool).
Context (New : string -> option (list Statement)) (Restore : string -> option string) (driftText : DriftErr -> string).

Abbreviation canonical := (canonicalDDLForDrift Classify IsDDL New Restore).

(** The same statement up to formatting. *)
Definition sameDDL (a b : string) : bool :=
  match canonical a, canonical b with Ok x, Ok y => x == y | _, _ => false end.

(** The change of a table is the one [t] was reviewed with, or [t] is a task of that
    table that was stored without a statement. *)
Definition reviewedBy (namespace : string) (tc : EngineTableChange) (t : TaskRec) : bool :=
  (tk_Namespace t == namespace) && (tk_TableName t == et_Table tc) &&
  ((tk_DDL t == "") || (et_DDL tc == tk_DDL t) || sameDDL (tk_DDL t) (et_DDL tc)).

(** A change with a table that no task was reviewed with. *)
Definition unreviewed (reviewed : list TaskRec) (c : engineCall) : bool :=
  match c with
  | CallApply req =>
      negb (forallb (fun ch => forallb (fun tc => existsb (reviewedBy (ec_Namespace ch) tc) reviewed) (ec_Tables ch)) (ar_Changes req))
  | _ => false
  end.

Context (reviewed : list TaskRec).

#[local] Instance unreviewed_kind : ApplyKind (unreviewed reviewed).
Proof. by split. Qed.

Abbreviation noSend := (keepsView (sent (unreviewed reviewed)) (fun _ => True)).

(** ** Tasks that stem from reviewed ones *)

(** The task has the table and the statement of a reviewed one, if that has one. *)
Definition stems (t : TaskRec) : Prop :=
  exists r, r ∈ reviewed /\ tk_Namespace t = tk_Namespace r /\ tk_TableName t = tk_TableName r /\
    (tk_DDL r = "" \/ tk_DDL t = tk_DDL r \/ sameDDL (tk_DDL r) (tk_DDL t) = true).

Lemma sameDDL_trans a b c : sameDDL a b = true -> sameDDL b c = true -> sameDDL a c = true.
Proof. unfold sameDDL. destruct (canonical a), (canonical b), (canonical c); try done. intros H1 H2. apply String.eqb_eq in H1 as ->. done. Qed.

Lemma sameDDL_nonempty a b : sameDDL a b = true -> b <> "".
Proof. unfold sameDDL. intros H ->. by destruct (canonical a). Qed.

Lemma verified_same t ddl : tk_DDL t <> "" -> verifyTask Classify IsDDL New Restore t ddl = None -> sameDDL (tk_DDL t) ddl = true.
Proof.
  intros Hne. unfold verifyTask, verifyReplannedTaskDDL, sameDDL. apply String.eqb_neq in Hne as ->.
  destruct (canonical (tk_DDL t)) as [a|], (canonical ddl) as [b|]; try done. by destruct (a == b).
Qed.

Lemma stems_fields t u :
  stems t -> tk_Namespace u = tk_Namespace t -> tk_TableName u = tk_TableName t -> tk_DDL u = tk_DDL t -> stems u.
Proof. intros (r & Hr & Hn & Ht & Hd) En Et Ed. exists r. by rewrite En, Et, Ed. Qed.

Lemma stems_replanned t ddl : stems t -> verifyTask Classify IsDDL New Restore t ddl = None -> stems (set_tk_DDL ddl t).
Proof.
  intros (r & Hr & Hn & Ht & Hd) Hv. exists r. cbn. repeat split; [done..|].
  destruct (decide (tk_DDL r = "")) as [|Hne]; [by left|]. right. right. destruct Hd as [?|[Hd|Hd]]; [done|..].
  - rewrite <- Hd in Hne |- *. by apply verified_same.
  - eapply sameDDL_trans; [exact Hd|]. apply verified_same; [by eapply sameDDL_nonempty|done].
Qed.

Lemma stems_reviewed t tc namespace :
  stems t -> namespace = tk_Namespace t -> et_Table tc = tk_TableName t -> et_DDL tc = tk_DDL t ->
  existsb (reviewedBy namespace tc) reviewed = true.
Proof.
  intros (r & Hr & Hn & Ht & Hd) -> Et Ed. apply existsb_elem. exists r. split; [done|].
  unfold reviewedBy. rewrite Et, Ed, Hn, Ht, !String.eqb_refl. cbn. destruct Hd as [->|[->| ->]]; [done|..].
  - by rewrite String.eqb_refl, orb_true_r.
  - by rewrite !orb_true_r.
Qed.

(** ** Requests *)

(** The tables of a change are tables of tasks of its namespace. *)
Definition fromTasks (tasks : list TaskRec) (ch : EngineChange) : Prop :=
  forall tc, tc ∈ ec_Tables ch -> exists t, t ∈ tasks /\ ec_Namespace ch = tk_Namespace t /\ et_Table tc = tk_TableName t /\
    et_DDL tc = tk_DDL t.

Lemma onNamespace_from tasks namespace f changes :
  (forall c, ec_Namespace c = namespace -> fromTasks tasks c -> fromTasks tasks (f c)) ->
  Forall (fromTasks tasks) changes -> Forall (fromTasks tasks) (onNamespace namespace f changes).
Proof.
  intros Hf H. induction H as [|c cs Hc Hcs IH]; cbn [onNamespace].
  - constructor; [|constructor]. apply Hf; [done|]. intros tc Htc. by apply elem_of_nil in Htc.
  - destruct (ec_Namespace c == namespace) eqn:Ec; constructor; auto. reflect_guards. auto.
Qed.

Lemma groupedResumeChanges_from tasks plan : Forall (fromTasks tasks) (groupedResumeChanges tasks plan).
Proof.
  unfold groupedResumeChanges. cbv zeta.
  assert (forall acc todo, (forall t, t ∈ todo -> t ∈ tasks) -> Forall (fromTasks tasks) acc ->
    Forall (fromTasks tasks) (fold_left (fun changes task => if tk_DDL task == "" then changes
      else onNamespace (tk_Namespace task) (addTable task) changes) todo acc)) as Htables.
  { intros acc todo. revert acc. induction todo as [|t ts IH]; intros acc Hin Hacc; cbn [fold_left]; [done|].
    apply IH; [intros u Hu; apply Hin; by right|]. destruct (_ == _); [done|]. apply onNamespace_from; [|done].
    intros c Hc Hfrom tc. cbn. rewrite elem_of_app. intros [H|H]; [by apply Hfrom|]. apply list_elem_of_singleton in H as ->.
    exists t. split; [apply Hin; by left|done]. }
  generalize (vschemaNamespaces plan). intros namespaces. specialize (Htables [] tasks (fun t H => H) (List.Forall_nil _)).
  revert Htables. generalize (fold_left (fun changes task => if tk_DDL task == "" then changes
      else onNamespace (tk_Namespace task) (addTable task) changes) tasks []).
  induction namespaces as [|ns nss IH]; intros acc Hacc; cbn [fold_left]; [done|]. apply IH, onNamespace_from; [|done].
  by intros c _ Hc.
Qed.

Lemma grouped_reviewed tasks apply plan options rs creds :
  Forall stems tasks -> unreviewed reviewed (CallApply (groupedRequest apply tasks plan options rs creds)) = false.
Proof.
  intros Hs. cbn [unreviewed ar_Changes groupedRequest]. apply negb_false_iff, forallb_elem. intros ch Hch.
  pose proof (groupedResumeChanges_from tasks plan) as Hall. rewrite Forall_forall in Hall. pose proof (proj1 (Forall_forall _ _) Hs) as Hst.
  apply forallb_elem. intros tc Htc. destruct (Hall ch Hch tc Htc) as (t & Ht & Hn & Ett & Ed).
  apply (stems_reviewed t); auto.
Qed.

Lemma sequential_reviewed task options creds :
  stems task -> unreviewed reviewed (CallApply (sequentialEngineApplyRequest task options creds)) = false.
Proof.
  intros Hs. cbn. rewrite andb_true_r. apply negb_false_iff. rewrite andb_true_r. by apply (stems_reviewed task).
Qed.

(** ** The parts of a resume *)

Context (E : EngineNames) (foundRows hasOptions : bool) (clockNow : Z) (ctx : leaseCtx) (cfg : clientConfig).
Context (errText : StoreErr -> string) (unmarshalVolume parseDuration : string -> option Z) (revertWindowMetadata : string).
Context (psMetadata : string -> option psMeta) (mergeRevertExpiry : string -> Z -> res string).
Context (newTaskIdentifier : TaskRec -> string -> string) (planRow : store -> Z -> option Plan).

Abbreviation bad := (unreviewed reviewed).

Lemma keeps_transition (task : TaskRec) st :
  stems task -> noSend stems (transitionTaskState foundRows clockNow ctx task st).
Proof. intros Hs. apply noSend_bind; [apply noSend_onStore|]. intros _. by apply (stems_fields task). Qed.

Lemma keeps_eachTask body tasks :
  (forall t, stems t -> noSend stems (body t)) -> Forall stems tasks -> noSend (Forall stems) (eachTask body tasks).
Proof.
  intros Hb H. induction H as [|t ts Ht Hts IH]; cbn [eachTask]; [by constructor|].
  eapply keepsView_bind; [by apply Hb|]. intros t' Ht'. eapply keepsView_bind; [exact IH|]. intros ts' Hts'. by constructor.
Qed.

Abbreviation entriesStem := (fun r : list (TaskRec * bool) * option driveErr => Forall stems r.1.*1).

Lemma keeps_filter replan tasks :
  Forall stems tasks ->
  noSend entriesStem (filterTasks Classify IsDDL New Restore driftText foundRows clockNow ctx replan tasks).
Proof.
  assert (forall ts, Forall stems ts -> Forall stems ((fun t => (t, true)) <$> ts).*1) as Hsame.
  { intros ts. rewrite <- list_fmap_compose. by rewrite list_fmap_id. }
  intros H. induction H as [|t ts Ht Hts IH]; cbn [filterTasks]; [constructor|].
  assert (forall u b, stems u -> noSend entriesStem
    (let! (others, err) := filterTasks Classify IsDDL New Restore driftText foundRows clockNow ctx replan ts in
     Ret ((u, b) :: others, err))) as Hnext.
  { intros u b Hu. eapply keepsView_bind; [exact IH|]. intros [others err] Ho. by constructor. }
  destruct (tk_State t == _); [by apply Hnext|]. destruct (IsState _ _); [by apply Hnext|].
  destruct (taskInRevertPhase t); [by apply Hnext|]. destruct (replan !! taskKey t) as [ddl|].
  - destruct (verifyTask _ _ _ _ t ddl) eqn:Ev; [by apply (Hsame (t :: ts)); constructor|].
    by apply Hnext, stems_replanned.
  - eapply keepsView_bind; [apply keeps_transition; by apply (stems_fields t)|]. intros u Hu. by apply Hnext.
Qed.

Lemma keeps_replan apply tasks plan :
  Forall stems tasks ->
  noSend entriesStem
    (replanAndFilterTasks Classify IsDDL New Restore driftText foundRows clockNow ctx cfg apply tasks plan).
Proof.
  intros Hs. apply noSend_bind; [apply noSend_plan|]. intros [changes|e]; [by apply keeps_filter|].
  cbn. rewrite <- list_fmap_compose. by rewrite list_fmap_id.
Qed.

Lemma active_stems all : Forall stems all.*1 -> Forall stems (activeTasks all).
Proof.
  unfold activeTasks. rewrite !Forall_fmap. intros H. induction H as [|[t b] l Ht Hl IH]; cbn; [constructor|].
  destruct b; cbn; [by constructor|done].
Qed.

Abbreviation pollAtomic := (pollForCompletionAtomic E foundRows hasOptions ctx cfg errText unmarshalVolume parseDuration
  revertWindowMetadata psMetadata mergeRevertExpiry newTaskIdentifier).

Lemma noSend_grouped clocks context apply tasks plan options release :
  Forall stems tasks ->
  noSend (fun _ => True)
    (executeGroupedApply E foundRows hasOptions ctx cfg errText unmarshalVolume parseDuration revertWindowMetadata psMetadata
       mergeRevertExpiry newTaskIdentifier clockNow clocks context apply tasks plan options release).
Proof.
  intros Hs. unfold executeGroupedApply. cbv zeta.
  assert (forall a ts m, noSend (fun _ => True) (failGrouped foundRows hasOptions ctx clockNow a ts m)) as Hfail.
  { intros a ts m. apply noSend_bind; [apply noSend_failTasks|]. by intros []. }
  assert (forall a ts m, noSend (fun _ => True) (pauseGrouped foundRows hasOptions ctx clockNow a ts m)) as Hpause.
  { intros a ts m. apply noSend_bind; [apply noSend_pauseTasks|]. by intros []. }
  destruct (_ =? 0)%nat; [apply Hfail|]. destruct (_ && _); [apply Hfail|].
  destruct (credentialsForGroupedApply cfg plan) as [creds|e]; [|apply Hfail].
  apply noSend_bind; [apply noSend_onStore|]. intros _. eapply keepsView_bind; [apply (noSend_cancelOrStop bad)|]. intros stop _.
  destruct (_ || _); [done|].
  apply noSend_bind; [by apply noSend_engineApply, grouped_reviewed|]. intros [a [result|e]];
    [|destruct (shouldRetryEngineError cfg e); [apply Hpause|apply Hfail]].
  destruct (negb _); [apply Hfail|]. destruct (isTasklessVSchemaOnlyPlan _ _).
  { apply noSend_bind; [|by intros []]. unfold completeTasklessGroupedApply. destruct (suppressParentApplyWrites ctx).
    - apply noSend_bind; [|done]. apply noSend_bind; [apply noSend_bind; [apply noSend_onStore|by intros []]|].
      intros [id|e]; [apply noSend_onStore|done].
    - apply noSend_bind; [apply noSend_onStore|done]. }
  assert (forall rs, noSend (fun _ => True)
    (followGrouped E foundRows hasOptions ctx cfg errText unmarshalVolume parseDuration revertWindowMetadata psMetadata
       mergeRevertExpiry newTaskIdentifier clockNow clocks context creds options release a tasks rs)) as Hfollow.
  { intros rs. apply noSend_bind; [apply noSend_markRunning|]. intros ts. apply noSend_bind; [apply noSend_onStore|]. intros _.
    apply noSend_poll, _. }
  destruct (er_ResumeState result) as [rs|]; [|destruct (_ == _); [apply Hfail|apply Hfollow]].
  destruct (_ == _); [|apply Hfollow]. apply noSend_bind; [apply noSend_save|]. intros [u|e]; [apply Hfollow|apply Hpause].
Qed.

(** ** One task after the other *)

Lemma noSend_runTask context fuel options apply task :
  stems task ->
  noSend (fun _ => True)
    (runEngineTask E foundRows hasOptions clockNow ctx cfg errText unmarshalVolume context fuel options apply task).
Proof.
  intros Hs. eapply keepsView_bind; [apply (noSend_cancelOrStop bad)|]. intros stop _.
  destruct (hr_Err stop); [done|]. destruct (hr_Handled stop); [done|]. cbv zeta.
  destruct (if lc_Type cfg == DatabaseTypeMySQL then _ else _) as [creds|e];
    [|apply noSend_bind; [apply noSend_markFailed|done]].
  apply noSend_bind; [by apply noSend_command, sequential_reviewed|]. intros [result|e].
  - destruct (negb _); [apply noSend_bind; [apply noSend_markFailed|done]|].
    apply noSend_bind; [apply noSend_transition|]. intros t. apply noSend_bind.
    { unfold convergeTaskVolumeToStoredLevel. destruct (_ || _); [done|]. apply noSend_bind; [by apply noSend_command|done]. }
    intros _. apply noSend_bind; [apply (noSend_pollTask bad)|done].
  - apply noSend_bind; [|done]. destruct (shouldRetryEngineError cfg e); [apply noSend_markRetryable|apply noSend_markFailed].
Qed.

Lemma noSend_sequentialLoop context fuel options apply before todo :
  Forall stems todo ->
  noSend (fun _ => True)
    (sequentialLoop E foundRows hasOptions clockNow ctx cfg errText unmarshalVolume context fuel options apply before todo).
Proof.
  intros H. revert apply before. induction H as [|t ts Ht Hts IH]; intros apply before; cbn [sequentialLoop]; [done|].
  eapply keepsView_bind; [apply (noSend_cancelOrStop bad)|]. intros stop _. destruct (hr_Err stop); [done|].
  destruct (hr_Handled stop); [done|]. apply noSend_bind; [apply noSend_checkReady|]. intros action.
  destruct action; try done; try apply IH.
  all: apply noSend_bind; [by apply noSend_runTask|]; intros [o|]; [|done]; cbv zeta; destruct (to_Action o); done || apply IH.
Qed.

Lemma noSend_resumeTask context fuel plan options apply task :
  stems task ->
  noSend (fun _ => True)
    (resumeTask Classify IsDDL New Restore driftText E foundRows hasOptions clockNow ctx cfg errText unmarshalVolume fuel context
       plan options apply task).
Proof.
  intros Hs. unfold resumeTask. cbv zeta. apply noSend_bind.
  { apply noSend_bind; [apply noSend_plan|done]. }
  intros [[ddl|]|e]; [| |by apply noSend_runTask].
  - destruct (verifyTask _ _ _ _ task ddl); [apply noSend_bind; [apply noSend_markFailed|done]|by apply noSend_runTask].
  - apply noSend_bind; [apply noSend_transition|done].
Qed.

Lemma noSend_resumeLoop context fuel plan options apply before todo :
  Forall stems todo ->
  noSend (fun _ => True)
    (resumeLoop Classify IsDDL New Restore driftText E foundRows hasOptions clockNow ctx cfg errText unmarshalVolume fuel context
       plan options apply before todo).
Proof.
  intros H. revert apply before. induction H as [|t ts Ht Hts IH]; intros apply before; cbn [resumeLoop]; [done|].
  eapply keepsView_bind; [apply (noSend_cancelOrStop bad)|]. intros stop _. destruct (hr_Err stop); [done|].
  destruct (hr_Handled stop); [done|]. apply noSend_bind; [apply noSend_checkReady|]. intros action.
  destruct action; try done; try apply IH.
  all: apply noSend_bind; [by apply noSend_resumeTask|]; intros [o|]; [|done]; cbv zeta; destruct (to_Action o); done || apply IH.
Qed.

(** ** The drives of a resume *)

Lemma noSend_reattach clocks context plan options release startRequested creds apply all :
  Forall stems all.*1 ->
  noSend (fun _ => True)
    (reattach E foundRows hasOptions clockNow ctx cfg errText unmarshalVolume parseDuration revertWindowMetadata psMetadata
       mergeRevertExpiry newTaskIdentifier clocks context plan options release startRequested creds apply all).
Proof.
  intros Hs. apply noSend_bind; [apply noSend_resumeState|]. intros [rs|e]; [|done].
  apply noSend_bind; [by apply noSend_engineApply, grouped_reviewed, active_stems|]. intros [a [result|e]]; [|done].
  destruct (negb _); [done|]. cbv zeta.
  assert (forall rs', noSend (fun _ => True)
    (followResume E foundRows hasOptions clockNow ctx cfg errText unmarshalVolume parseDuration revertWindowMetadata psMetadata
       mergeRevertExpiry newTaskIdentifier clocks context creds options release startRequested a all rs')) as Hfollow.
  { intros rs'. unfold followResume. destruct (_ && _); [done|]. apply noSend_bind; [apply noSend_reattachStates|].
    intros [[a' ts] [e|]]; [done|]. apply noSend_bind; [apply noSend_poll, _|done]. }
  destruct (er_ResumeState result); [|apply Hfollow]. destruct (_ == _); [|apply Hfollow].
  apply noSend_bind; [apply noSend_save|]. intros [u|e]; [apply Hfollow|done].
Qed.

Lemma noSend_launch clocks context apply tasks plan options startRequested release :
  Forall stems tasks ->
  noSend (fun _ => True)
    (launchAtomicResume Classify IsDDL New Restore driftText E foundRows hasOptions clockNow ctx cfg errText unmarshalVolume
       parseDuration revertWindowMetadata psMetadata mergeRevertExpiry newTaskIdentifier clocks context apply tasks plan options
       startRequested release).
Proof.
  intros Hs. unfold launchAtomicResume. destruct (negb _); [done|]. destruct (credentialsForGroupedApply cfg plan); [|done].
  eapply keepsView_bind; [by apply keeps_replan|]. intros [all [e|]] Ha; [done|]. cbn [fst] in Ha.
  destruct (activeTasks all); [|by apply noSend_reattach].
  unfold terminalizeResume. destruct (suppressParentApplyWrites ctx); [done|]. apply noSend_bind; [apply noSend_onStore|].
  intros [u|e]; [|done]. destruct startRequested; [|done]. apply noSend_bind; [apply noSend_complete|done].
Qed.

Lemma noSend_dispatch clocks fuel context apply tasks plan options release :
  Forall stems tasks ->
  noSend (fun _ => True)
    (dispatchQueuedApply E foundRows hasOptions clockNow ctx cfg errText unmarshalVolume parseDuration revertWindowMetadata
       psMetadata mergeRevertExpiry newTaskIdentifier clocks fuel context apply tasks plan options release).
Proof.
  intros Hs. apply noSend_underCancel. unfold runApplyExecution. destruct (usesGroupedApply apply options).
  - apply noSend_bind; [by apply noSend_grouped|done].
  - apply noSend_bind; [|done]. apply noSend_bind; [apply noSend_onStore|]. intros _.
    apply noSend_bind; [by apply noSend_sequentialLoop|]. intros [[|a ts failed stopped]|]; [done| |done].
    apply noSend_bind; [apply noSend_finalize|]. by intros [].
Qed.

Lemma noSend_driveActive clocks fuel outer context apply active plan options startRequested release :
  Forall stems active ->
  noSend (fun _ => True)
    (driveActive Classify IsDDL New Restore driftText E foundRows hasOptions clockNow ctx cfg errText unmarshalVolume parseDuration
       revertWindowMetadata psMetadata mergeRevertExpiry newTaskIdentifier clocks fuel outer context apply active plan options
       startRequested release).
Proof.
  intros Hs. eapply (keepsView_bind _ _ (fun r => Forall stems r.2)).
  { unfold prepareRetryableTasksForResume. destruct (negb _); [done|]. eapply keepsView_bind; [|by intros ts Hts].
    apply keeps_eachTask; [|done]. intros t Ht. unfold requeueRetryable. destruct (negb _); [done|].
    apply keeps_transition. by apply (stems_fields t). }
  intros [a ts] Hts. cbn [snd] in Hts. eapply (keepsView_bind _ _ (Forall stems)).
  { unfold prepareStoppedTasksForResume. destruct (negb _); [done|]. apply keeps_eachTask; [|done]. intros t Ht.
    unfold requeueStopped. destruct (negb _); [done|]. apply keeps_transition. by apply (stems_fields t). }
  intros ts' Hts'. destruct (usesGroupedApply a options).
  { apply noSend_bind; [by apply noSend_underCancel, noSend_launch|]. intros r. apply (noSend_launched bad). }
  cbv zeta. apply noSend_orReturn; [apply noSend_onStore|]. intros _.
  assert (noSend (fun _ => True)
    (let! r := underCancel context (resumeApplySequential Classify IsDDL New Restore driftText E foundRows hasOptions clockNow ctx
       cfg errText unmarshalVolume fuel context (set_a_UpdatedAt clockNow (set_a_State Apply.Running a)) ts' plan options) in
     match r with stillPolling => Ret resumePolling | _ => contextEnd outer end)) as Hdrive.
  { apply noSend_bind; [|intros []; done || apply noSend_contextEnd].
    apply noSend_underCancel, noSend_bind; [by apply noSend_resumeLoop|].
    intros [[|a' us failed stopped]|]; [done| |done]. apply noSend_bind; [apply noSend_finalize|]. by intros []. }
  destruct startRequested; [|exact Hdrive]. apply noSend_orReturn; [apply noSend_complete|]. intros _. exact Hdrive.
Qed.

Lemma noSend_reconcile clocks fuel outer context apply tasks plan options release signalAbsent :
  Forall stems tasks ->
  noSend (fun _ => True)
    (reconcile Classify IsDDL New Restore driftText E foundRows hasOptions clockNow ctx cfg errText unmarshalVolume parseDuration
       revertWindowMetadata psMetadata mergeRevertExpiry newTaskIdentifier clocks fuel outer context apply tasks plan options
       release signalAbsent).
Proof.
  intros Hs. eapply keepsView_bind; [by apply keeps_replan|]. intros [all [e|]] Ha; [done|]. cbn [fst] in Ha.
  apply active_stems in Ha. cbv zeta.
  assert (forall active : list TaskRec, Forall stems active -> noSend (fun _ => True)
    (orReturn (pendingControlRequest apply ControlOperationStart) (fun startReq =>
       match active with
       | [] => completeResume foundRows hasOptions clockNow ctx apply match startReq with Some _ => true | None => false end
       | _ => driveActive Classify IsDDL New Restore driftText E foundRows hasOptions clockNow ctx cfg errText unmarshalVolume
                parseDuration revertWindowMetadata psMetadata mergeRevertExpiry newTaskIdentifier clocks fuel outer context apply
                active plan options match startReq with Some _ => true | None => false end release
       end))) as Hgo.
  { intros active Hact. apply noSend_orReturn; [apply noSend_onStore|]. intros req. destruct active; [|by apply noSend_driveActive].
    apply noSend_bind; [apply noSend_onStore|]. intros _. destruct req; [|done].
    apply noSend_orReturn; [apply noSend_complete|done]. }
  specialize (Hgo _ Ha). destruct (activeTasks all); [exact Hgo|]. destruct signalAbsent; [apply noSend_failResume|exact Hgo].
Qed.

Lemma noSend_recover clocks outer context apply tasks plan options release :
  Forall stems tasks ->
  noSend (fun _ => True)
    (recoverCutover Classify IsDDL New Restore driftText E foundRows hasOptions clockNow ctx cfg errText unmarshalVolume parseDuration
       revertWindowMetadata psMetadata mergeRevertExpiry newTaskIdentifier clocks outer context apply tasks plan options release).
Proof.
  intros Hs. eapply (keepsView_bind _ _ (fun r => Forall stems r.1.2)).
  { unfold markApplyRecovering. eapply keepsView_bind; [apply keeps_eachTask; [|exact Hs]|].
    - intros t Ht. destruct (IsTerminalTaskState _); [done|]. by apply keeps_transition.
    - intros ts Hts. cbv zeta. destruct (suppressParentApplyWrites ctx); [done|]. apply noSend_bind; [apply noSend_onStore|done]. }
  intros [[a ts] [u|e]] Hts; [|done]. apply noSend_bind; [by apply noSend_underCancel, noSend_launch|].
  intros r. apply (noSend_launched bad).
Qed.

Lemma noSend_resume clocks fuel outer context apply tasks options release force :
  Forall stems tasks ->
  noSend (fun _ => True)
    (resumeApplyWithTasks Classify IsDDL New Restore driftText E foundRows hasOptions clockNow ctx cfg errText unmarshalVolume
       parseDuration revertWindowMetadata psMetadata mergeRevertExpiry newTaskIdentifier planRow clocks fuel outer context apply
       tasks options release force).
Proof.
  intros Hs. eapply keepsView_bind; [apply (noSend_cancelOrStop bad)|]. intros stop _. destruct (hr_Err stop); [done|].
  destruct (hr_Handled stop); [done|]. apply noSend_orReturn; [apply noSend_onStore|]. intros [plan|]; [|apply noSend_failResume].
  destruct (match tasks with [] => _ | _ => _ end).
  { apply noSend_bind; [apply noSend_onStore|]. intros fresh. destruct (match fresh with Ok _ => _ | Err _ => _ end); [done|].
    apply noSend_orReturn; [apply noSend_onStore|]. intros total. destruct (0 <? total); [done|].
    apply noSend_orReturn; [apply noSend_onStore|done]. }
  apply noSend_bind; [apply (noSend_startRequest bad)|]. intros [|r]; [|done]. destruct (_ && _).
  { apply noSend_bind; [by apply noSend_dispatch|]. intros [|]; [apply noSend_contextEnd|done]. }
  cbv zeta. destruct (negb _); [by apply noSend_reconcile|]. apply noSend_bind; [apply noSend_bind; [apply noSend_ask|done]|].
  intros [[[|]|e]|]; [by apply noSend_recover|by apply noSend_reconcile|done|by apply noSend_reconcile].
Qed.
End Reviewed.

(** ** Properties *)

(** C10: a resumed apply runs reviewed changes only.  Whatever plan the engine returns
    for the live schema, whatever happens between the statements and whichever of them
    fail, a drive that starts or resumes the given tasks (queued, sequential, grouped
    or through a deferred cutover) hands the engine no change with a table unless one of
    the tasks has that namespace and table and was reviewed with the same statement, up
    to formatting, or was stored without any statement.  A task of the last kind is run
    with whatever the new plan says ([ddlless_task_takes_replan]). *)
Theorem resume_applies_reviewed {ST : Type} `{!StatementTypes ST} (Classify : string -> option (list ST)) (IsDDL : ST -> bool)
    (New : string -> option (list Statement)) (Restore : string -> option string) (driftText : DriftErr -> string)
    (E : EngineNames) (foundRows hasOptions : bool) (clockNow : Z) (ctx : leaseCtx) (cfg : clientConfig)
    (errText : StoreErr -> string) (unmarshalVolume parseDuration : string -> option Z) (revertWindowMetadata : string)
    (psMetadata : string -> option psMeta) (mergeRevertExpiry : string -> Z -> res string)
    (newTaskIdentifier : TaskRec -> string -> string) (planRow : store -> Z -> option Plan)
    (clocks : list Z) (fuel : nat) (outer context : Z) (apply : Apply) (tasks : list TaskRec) (options : gmap string string)
    (release force : bool) env w :
  leaves (sent (unreviewed Classify IsDDL New Restore tasks)) env 0
    (resumeApplyWithTasks Classify IsDDL New Restore driftText E foundRows hasOptions clockNow ctx cfg errText unmarshalVolume
       parseDuration revertWindowMetadata psMetadata mergeRevertExpiry newTaskIdentifier planRow clocks fuel outer context apply
       tasks options release force) w.
Proof.
  match goal with |- leaves ?v env 0 ?p w => destruct (runE env 0 p w) as [[w' r] n] eqn:Hrun end.
  refine (proj2 (keepsView_run _ (fun _ => True) _ env _ 0%nat w w' r n _ (noSend_resume _ _ _ _ _ tasks _ _ _ _ _ _ _ _ _ _ _ _
    _ _ _ _ _ _ _ tasks _ _ _ _) I Hrun)); [done|].
  apply Forall_forall. intros t Ht. exists t. split_and!; auto.
Qed.

(** ** A revert is not deployed over *)

(** A change that does not continue engine work of a stored state. *)
Definition freshDeploy (c : engineCall) : bool :=
  match c with
  | CallApply req => match ar_ResumeState req with Some rs => rs_Metadata rs == "" | None => true end
  | _ => false
  end.

#[local] Instance freshDeploy_kind : ApplyKind freshDeploy.
Proof. by split. Qed.

Section RevertPhase.
Context {ST : Type} `{!StatementTypes ST}.
Context (Classify : string -> option (list ST)) (IsDDL : ST -> bool).
Context (New : string -> option (list Statement)) (Restore : string -> option string) (driftText : DriftErr -> string).
Context (E : EngineNames) (foundRows hasOptions : bool) (clockNow : Z) (ctx : leaseCtx) (cfg : clientConfig).
Context (errText : StoreErr -> string) (unmarshalVolume parseDuration : string -> option Z) (revertWindowMetadata : string).
Context (psMetadata : string -> option psMeta) (mergeRevertExpiry : string -> Z -> res string).
Context (newTaskIdentifier : TaskRec -> string -> string).
Context (Hvitess : lc_Type cfg = DatabaseTypeVitess).

Abbreviation noFresh := (keepsView (sent freshDeploy) (fun _ => True)).

Lemma noFresh_stored id :
  noFresh (fun r => match r with Ok rs => rs_Metadata rs <> "" | Err _ => True end) (loadEngineResumeStateForOperation id).
Proof.
  eapply (keepsView_try _ _ (fun rs => Metadata rs <> "")); [|done|done].
  split; [|done]. intros w _. cbn. split; [by destruct w|]. split; [done|].
  destruct (findOperation id (pl_db w)) as [o|]; [|done]. destruct (op_EngineResumeMetadata o) as [m|]; [|done].
  destruct (m == "") eqn:Em; [done|]. reflect_guards. done.
Qed.

Lemma noFresh_state apply tasks :
  applyInRevertPhase apply = true ->
  noFresh (fun r => match r with Ok rs => rs_Metadata rs <> "" | Err _ => True end) (groupedResumeState cfg errText apply tasks).
Proof.
  intros Hphase. unfold groupedResumeState. rewrite Hvitess, Hphase. cbv zeta. apply noSend_bind.
  { unfold applyOperationIDForApplyTasks. destruct tasks; [|done]. apply noSend_bind; [apply noSend_onStore|by intros []]. }
  intros [id|e]; [|done]. eapply keepsView_bind; [apply noFresh_stored|]. intros [rs|e] Hr.
  - cbn. by destruct (_ == "").
  - by destruct e.
Qed.

Lemma noFresh_filter replan tasks :
  noFresh (fun _ => True) (filterTasks Classify IsDDL New Restore driftText foundRows clockNow ctx replan tasks).
Proof.
  induction tasks as [|t ts IH]; cbn [filterTasks]; [done|].
  assert (forall u b, noFresh (fun _ => True)
    (let! (others, err) := filterTasks Classify IsDDL New Restore driftText foundRows clockNow ctx replan ts in
     Ret ((u, b) :: others, err))) as Hnext.
  { intros u b. apply noSend_bind; [exact IH|]. by intros []. }
  destruct (tk_State t == _); [apply Hnext|]. destruct (IsState _ _); [apply Hnext|].
  destruct (taskInRevertPhase t); [apply Hnext|]. destruct (replan !! taskKey t) as [ddl|].
  - destruct (verifyTask _ _ _ _ t ddl); [done|apply Hnext].
  - apply noSend_bind; [apply noSend_transition|]. intros u. apply Hnext.
Qed.

Lemma noFresh_launch clocks context apply tasks plan options startRequested release :
  applyInRevertPhase apply = true ->
  noFresh (fun _ => True)
    (launchAtomicResume Classify IsDDL New Restore driftText E foundRows hasOptions clockNow ctx cfg errText unmarshalVolume
       parseDuration revertWindowMetadata psMetadata mergeRevertExpiry newTaskIdentifier clocks context apply tasks plan options
       startRequested release).
Proof.
  intros Hphase. unfold launchAtomicResume. destruct (negb _); [done|]. destruct (credentialsForGroupedApply cfg plan) as [creds|]; [|done].
  apply noSend_bind.
  { apply noSend_bind; [apply noSend_plan|]. intros [changes|e]; [apply noFresh_filter|done]. }
  intros [all [e|]]; [done|]. destruct (activeTasks all) eqn:Ea.
  { unfold terminalizeResume. destruct (suppressParentApplyWrites ctx); [done|]. apply noSend_bind; [apply noSend_onStore|].
    intros [u|e]; [|done]. destruct startRequested; [|done]. apply noSend_bind; [apply noSend_complete|done]. }
  eapply keepsView_bind; [by apply noFresh_state|]. intros [rs|e] Hr; [|done].
  apply noSend_bind.
  { apply noSend_engineApply. cbn. by apply String.eqb_neq. }
  intros [a [result|e]]; [|done]. destruct (negb _); [done|]. cbv zeta.
  assert (forall rs', noFresh (fun _ => True)
    (followResume E foundRows hasOptions clockNow ctx cfg errText unmarshalVolume parseDuration revertWindowMetadata psMetadata
       mergeRevertExpiry newTaskIdentifier clocks context creds options release startRequested a all rs')) as Hfollow.
  { intros rs'. unfold followResume. destruct (_ && _); [done|]. apply noSend_bind; [apply noSend_reattachStates|].
    intros [[a' ts] [e|]]; [done|]. apply noSend_bind; [apply noSend_poll, _|done]. }
  destruct (er_ResumeState result); [|apply Hfollow]. destruct (_ == _); [|apply Hfollow].
  apply noSend_bind; [apply noSend_save|]. intros [u|e]; [apply Hfollow|done].
Qed.
End RevertPhase.

(** A revert is not deployed over.  A grouped resume of a Vitess apply whose revert
    window is open, or that is being reverted or made permanent, hands the engine only
    changes that continue the work of a stored resume state: without one it returns an
    error and never starts the reviewed change again on top of the revert, whatever
    happens between the statements and whichever of them fail. *)
Theorem revert_phase_reattaches {ST : Type} `{!StatementTypes ST} (Classify : string -> option (list ST)) (IsDDL : ST -> bool)
    (New : string -> option (list Statement)) (Restore : string -> option string) (driftText : DriftErr -> string)
    (E : EngineNames) (foundRows hasOptions : bool) (clockNow : Z) (ctx : leaseCtx) (cfg : clientConfig)
    (errText : StoreErr -> string) (unmarshalVolume parseDuration : string -> option Z) (revertWindowMetadata : string)
    (psMetadata : string -> option psMeta) (mergeRevertExpiry : string -> Z -> res string)
    (newTaskIdentifier : TaskRec -> string -> string)
    (clocks : list Z) (context : Z) (apply : Apply) (tasks : list TaskRec) (plan : Plan) (options : gmap string string)
    (startRequested release : bool) env w
    (Hvitess : lc_Type cfg = DatabaseTypeVitess) (Hphase : applyInRevertPhase apply = true) :
  leaves (sent freshDeploy) env 0
    (launchAtomicResume Classify IsDDL New Restore driftText E foundRows hasOptions clockNow ctx cfg errText unmarshalVolume
       parseDuration revertWindowMetadata psMetadata mergeRevertExpiry newTaskIdentifier clocks context apply tasks plan options
       startRequested release) w.
Proof.
  match goal with |- leaves ?v env 0 ?p w => destruct (runE env 0 p w) as [[w' r] n] eqn:Hrun end.
  refine (proj2 (keepsView_run _ (fun _ => True) _ env _ 0%nat w w' r n _ (noFresh_launch _ _ _ _ _ _ _ _ _ _ _ _ _ _ _ _ _ _
    Hvitess _ _ apply _ _ _ _ _ Hphase) I Hrun)). done.
Qed.

(** ** The finalizer completes what the engine applied *)

(** A statement hands the engine these changes of the database with this resume state,
    the engine accepts them, and it either has nothing left to do or later reports that
    the change is live. *)
Definition changeLive (database creds : string) (changes : list EngineChange) (rs : option ResumeState) (tr : list (plane * plane))
    : Prop :=
  exists before u after req result, tr = (before ++ u :: after)%list /\
    pl_calls u.2 = (pl_calls u.1 ++ [CallApply req])%list /\
    (ev_Apply (pl_engine u.1) req).2 = Ok result /\ er_Accepted result = true /\
    ar_Database req = database /\ ar_Credentials req = creds /\ ar_Changes req = changes /\ ar_ResumeState req = rs /\
    (er_ResumeState result = None \/
     exists v rs' p, v ∈ after /\ ev_Progress (pl_engine v.1) database creds rs' = Ok p /\
       pr_State (ep_Result p) ∈ [Engine.StateCompleted; Engine.StateRevertWindow]).

Lemma changeLive_after database creds changes rs tr0 tr :
  changeLive database creds changes rs tr -> changeLive database creds changes rs (tr0 ++ tr).
Proof.
  intros (before & u & after & req & result & -> & H). exists (tr0 ++ before)%list, u, after, req, result.
  by rewrite <- app_assoc.
Qed.

(** The resume state of a row. *)
Definition storedResume (o : ApplyOperation) : option ResumeState :=
  match op_EngineResumeMetadata o with
  | None => None
  | Some m => if m == "" then None
              else Some {| rs_MigrationContext := default "" (op_EngineResumeContext o); rs_Metadata := m |}
  end.

(** The drive read the plan, which has VSchema artifacts for the operation, and then the
    operation's row, and brought the changes of that plan to life from the resume state
    of that row. *)
Definition vschemaApplied (planRow : store -> Z -> option Plan) (apply : Apply) (op : ApplyOperation) (tr : list (plane * plane)) : Prop :=
  exists u0 t1 u1 t2 plan changes o creds, tr = (u0 :: t1 ++ u1 :: t2)%list /\
    planRow (pl_db u0.1) (a_PlanID apply) = Some plan /\
    finalizerVSchemaChanges plan (namespaceFromFinalizerKey (op_OperationKey op)) = Ok changes /\
    changes <> [] /\ Forall (fun ch => ec_VSchemaChanged ch = true) changes /\
    findOperation (op_ID op) (pl_db u1.1) = Some o /\
    changeLive (a_Database apply) creds changes (storedResume o) t2.

Section Finalizer.
Context (foundRows : bool) (ctx : leaseCtx) (cfg : clientConfig) (errText : StoreErr -> string).
Context (planRow : store -> Z -> option Plan).

Lemma finalizerVSchemaChanges_flagged plan namespace changes :
  finalizerVSchemaChanges plan namespace = Ok changes ->
  changes <> [] /\ Forall (fun ch => ec_VSchemaChanged ch = true) changes.
Proof.
  unfold finalizerVSchemaChanges. destruct (_ != _).
  - destruct (pn_Namespaces plan !! namespace) as [d|]; [|done]. destruct (namespaceHasVSchemaArtifact d); [|done].
    intros [= <-]. split; [done|]. by repeat constructor.
  - destruct (vschemaNamespaces plan) as [|ns nss]; [done|]. intros [= <-]. split; [done|].
    constructor; [done|]. by apply Forall_fmap, Forall_forall.
Qed.

(** A statement that fails does not fail with the error the store answers for a row
    without a resume state. *)
Definition sqlFault (e : StoreErr) : Prop := e <> ErrEngineResumeStateNotFound.

Abbreviation sees := (observesSteps sqlFault).

(** A drive that only fails. *)
Lemma fail_observes operationID cause :
  sees (failFinalizer foundRows ctx errText operationID cause) (fun _ r => r <> resumeReturned None).
Proof. unfold failFinalizer. eapply observesSteps_bind; [apply observesSteps_any|]. intros t r _. by apply observesSteps_ret. Qed.

Lemma poll_observes fuel outer apply operationID creds rs :
  sees (driveFinalizerToTerminal foundRows ctx fuel outer apply operationID creds rs)
    (fun tr r => forall st, r = Some (Ok st) -> exists v rs' p, v ∈ tr /\
       ev_Progress (pl_engine v.1) (a_Database apply) creds rs' = Ok p /\ st = pr_State (ep_Result p)).
Proof.
  revert rs. induction fuel as [|fuel IH]; intros rs; cbn [driveFinalizerToTerminal]; [by apply observesSteps_ret|].
  assert (forall tr0 rs0, sees
    (let! done := cancelled outer in
     if done : bool then Ret (Some (Err contextDone)) else driveFinalizerToTerminal foundRows ctx fuel outer apply operationID creds rs0)
    (fun tr r => forall st, r = Some (Ok st) -> exists v rs' p, v ∈ (tr0 ++ tr)%list /\
       ev_Progress (pl_engine v.1) (a_Database apply) creds rs' = Ok p /\ st = pr_State (ep_Result p))) as Hwait.
  { intros tr0 rs0. eapply observesSteps_bind; [apply observesSteps_any|]. intros t [|] _; [by apply observesSteps_ret|].
    eapply observesSteps_impl; [apply IH|]. intros tr r H st Hr. destruct (H st Hr) as (v & rs' & p & Hv & Hp).
    exists v, rs', p. rewrite !elem_of_app. auto. }
  apply observesSteps_exec.
  { intros w e _. cbn [pbind]. apply (Hwait [(w, w)]). }
  intros w. cbn [fst snd pbind]. destruct (ev_Progress _ _ _ _) as [p|e] eqn:Ep.
  - eapply observesSteps_bind; [apply observesSteps_any|]. intros t rs' _. cbv zeta.
    destruct (_ || _).
    + apply observesSteps_ret. intros st [= <-]. exists (w, w), (Some rs), p. split; [by left|]. by split.
    + eapply observesSteps_impl; [apply (Hwait ((w, w) :: t))|]. intros tr r H st Hr. by apply H.
  - destruct (ee_Permanent e); [by apply observesSteps_ret|]. apply (Hwait [(w, w)]).
Qed.

Lemma apply_observes fuel outer apply operationID changes creds rs :
  sees (applyFinalizer foundRows ctx errText fuel outer apply operationID changes creds rs)
    (fun tr r => r = resumeReturned None -> changeLive (a_Database apply) creds changes rs tr).
Proof.
  assert (forall tr0 cause, sees (failFinalizer foundRows ctx errText operationID cause)
            (fun tr r => r = resumeReturned None -> changeLive (a_Database apply) creds changes rs (tr0 ++ tr)%list)) as Hfail.
  { intros tr0 cause. eapply observesSteps_impl; [apply fail_observes|]. by intros. }
  apply observesSteps_exec; [intros w e _; apply (Hfail [(w, w)])|]. intros w. set (w1 := set_pl_calls _ w). cbn [fst snd pbind].
  destruct (ev_Apply (pl_engine w) _) as [events result] eqn:Ea.
  eapply observesSteps_bind; [apply observesSteps_any|]. intros t1 _ _.
  destruct result as [result|e]; [|apply (Hfail ((w, w1) :: t1))].
  destruct (er_Accepted result) eqn:Eacc; cbn [negb]; [|apply (Hfail ((w, w1) :: t1))].
  assert (forall tr, (er_ResumeState result = None \/ exists v rs' p, v ∈ tr /\
            ev_Progress (pl_engine v.1) (a_Database apply) creds rs' = Ok p /\ finalizerVSchemaApplied (pr_State (ep_Result p)) = true) ->
            changeLive (a_Database apply) creds changes rs ((w, w1) :: tr)) as Hdone.
  { intros tr H. eexists [], (w, w1), tr, _, result. split; [done|]. split; [done|]. cbn [fst]. rewrite Ea. repeat split; [done..|].
    destruct H as [H|(v & rs' & p & Hv & Hp & H%oneOf_elem)]; [by left|]. right. by exists v, rs', p. }
  destruct (er_ResumeState result) as [rs'|] eqn:Ers.
  2: { eapply observesSteps_impl; [apply observesSteps_any|]. intros tr r _ _. apply Hdone. by left. }
  eapply observesSteps_bind; [apply observesSteps_any|]. intros t2 _ _.
  eapply observesSteps_bind; [apply poll_observes|]. intros t3 polled Hp. cbv beta in Hp.
  destruct polled as [[st|e]|]; [| |by apply observesSteps_ret].
  - destruct (finalizerVSchemaApplied st) eqn:Est.
    + eapply observesSteps_impl; [apply observesSteps_any|]. intros tr r _ _. apply Hdone. right.
      destruct (Hp st eq_refl) as (v & rs'' & p & Hv & Ep & ->). exists v, rs'', p.
      split; [|by split]. rewrite !elem_of_app. auto.
    + eapply observesSteps_impl; [apply (fail_observes operationID)|]. by intros.
  - eapply observesSteps_impl; [apply (fail_observes operationID)|]. by intros.
Qed.

Lemma finalizer_observes fuel outer apply op :
  sees (driveGroupFinalizer foundRows ctx cfg errText planRow fuel outer apply op)
    (fun tr r => r = resumeReturned None -> vschemaApplied planRow apply op tr).
Proof.
  apply observesSteps_exec; [intros; by apply observesSteps_ret|]. intros w. cbn [fst snd read focus pbind].
  destruct (planRow (pl_db w) (a_PlanID apply)) as [plan|] eqn:Ep; [|by apply observesSteps_ret].
  destruct (finalizerVSchemaChanges plan _) as [changes|e] eqn:Ec; [|by apply observesSteps_ret].
  destruct (finalizerVSchemaChanges_flagged _ _ _ Ec) as [Hne Hch]. destruct (negb _); [by apply observesSteps_ret|].
  destruct (credentialsForGroupedApply cfg plan) as [creds|e]; [|by apply observesSteps_ret].
  eapply observesSteps_bind; [apply observesSteps_any|]. intros t1 [u|e] _; [|by apply observesSteps_ret].
  assert (forall cause (l : list (plane * plane) -> list (plane * plane)), sees (failFinalizer foundRows ctx errText (op_ID op) cause)
    (fun tr r => r = resumeReturned None -> vschemaApplied planRow apply op (l tr))) as Hfail.
  { intros cause l. eapply observesSteps_impl; [apply fail_observes|]. by intros. }
  apply observesSteps_exec.
  { intros u' e He. cbn [pbind]. destruct e; try done; apply (Hfail _ (fun tr => (w, _) :: t1 ++ (u', u') :: tr)%list). }
  intros u'. cbn [fst snd read focus pbind]. destruct (findOperation (op_ID op) (pl_db u')) as [o|] eqn:Eo.
  2: apply (Hfail _ (fun tr => (w, _) :: t1 ++ (u', _) :: tr)%list).
  assert (forall rs, rs = storedResume o -> sees (applyFinalizer foundRows ctx errText fuel outer apply (op_ID op) changes creds rs)
    (fun tr r => r = resumeReturned None -> vschemaApplied planRow apply op ((w, set_pl_db (pl_db w) w) :: t1 ++ (u', set_pl_db (pl_db u') u') :: tr)%list)) as Hok.
  { intros rs Hrs. eapply observesSteps_impl; [apply apply_observes|]. intros tr r H Hr.
    eexists _, t1, _, tr, plan, changes, o, creds. split; [reflexivity|]. rewrite <- Hrs. by split_and!; [..|apply H]. }
  cbn. unfold storedResume in Hok. destruct (op_EngineResumeMetadata o) as [m|]; [|by apply Hok].
  destruct (m == ""); by apply Hok.
Qed.
End Finalizer.

(** C13: a group finalizer is completed only when the VSchema is live.  Whatever happens
    between its statements and whichever of them fail (a failing statement does not fail
    with the store's own error for a missing resume state), the drive of a finalizer
    reports success only if: it read the apply's plan, and that has VSchema artifacts
    for the operation's namespace; it then read the operation's row; and one of its
    later statements handed the engine the VSchema changes of that plan on the apply's
    database with the resume state of that row, if it has one, the engine accepted
    them, and either had nothing left to do or afterwards reported the database's change
    completed or in its revert window.  So a plan without artifacts, an unreadable row
    and a change that is rejected or fails never end in a success. *)
Theorem finalizer_success_justified (foundRows : bool) (ctx : leaseCtx) (cfg : clientConfig) (errText : StoreErr -> string)
    (planRow : store -> Z -> option Plan) (fuel : nat) (outer : Z) (apply : Apply) (op : ApplyOperation) env w w' n
    (Hrun : runE env 0 (driveGroupFinalizer foundRows ctx cfg errText planRow fuel outer apply op) w = (w', resumeReturned None, n))
    (Hfault : forall m e, fault (env m) = Some e -> sqlFault e) :
  vschemaApplied planRow apply op (steps env 0 (driveGroupFinalizer foundRows ctx cfg errText planRow fuel outer apply op) w).
Proof. exact (finalizer_observes foundRows ctx cfg errText planRow fuel outer apply op env 0%nat w w' _ n Hfault Hrun eq_refl). Qed.

(** ** Examples *)

#[local] Existing Instances sampleStatement_eq sampleStatements.

(** The engine plans [ddl] for the table t, accepts every change and reports [st]. *)
Definition planningEngine (tables : list EngineTableChange) (st : string) (rs : option ResumeState) : engineView :=
  {| ev_Plan := fun _ _ _ => Ok [{| ec_Namespace := "main"; ec_Shard := ""; ec_Tables := tables; ec_VSchemaChanged := false |}];
     ev_CutoverSignal := fun _ _ => None;
     ev_Apply := fun _ => ([], Ok {| er_Accepted := true; er_Message := ""; er_ResumeState := rs |});
     ev_Progress := ev_Progress (reportingEngine st);
     ev_Control := fun _ _ => Ok None; ev_Volume := fun _ => Ok None; ev_Validate := fun _ _ => None |}.

Definition tableChange (ddl : string) : EngineTableChange := {| et_Table := "t"; et_DDL := ddl; et_Action := "alter" |}.

Definition resumePlan : Plan :=
  {| pn_ID := 1; pn_PlanIdentifier := "plan-1"; pn_Database := "orders"; pn_DatabaseType := "mysql"; pn_Repository := "org/repo"; pn_PullRequest := 7;
     pn_Namespaces := {[ "main" := {| nd_Tables := []; nd_Shards := []; nd_OriginalFilesCaptured := true; nd_Artifacts := {[ vSchemaArtifactName := "{}" ]} |} ]};
     pn_Shards := []; pn_SchemaFiles := ∅ |}.

Definition sampleResume (databaseType : string) (apply : Apply) (tasks : list TaskRec) (options : gmap string string)
    : prog plane resumeEnd :=
  resumeApplyWithTasks sampleClassify (fun _ => true) sampleNew (fun _ => None) (fun _ => "drift") documentedNames true false 50
    noLease (exampleClient databaseType) sampleErrText sampleUnmarshal (fun _ => None) "" sampleMeta (fun m _ => Ok m)
    (fun t shard => tk_TaskIdentifier t ++ shard) (fun _ _ => Some resumePlan) [50; 60] 3 8 9 apply tasks options false false.

Definition resumePlane (apply : Apply) (tasks : list TaskRec) (e : engineView) : plane :=
  examplePlane (withTasks tasks (exampleStore apply [] [])) e.

(** A live schema that drifted stops the resume; without drift the reviewed change is
    handed over and completed. *)
Lemma resume_applies_reviewed_witness :
  let apply := exampleApply Apply.Running in
  let ts := [exampleTask 7 "task_7" "t" "" Task.Running] in
  let w ddl := resumePlane apply ts (planningEngine [tableChange ddl] Engine.StateCompleted None) in
  let p := sampleResume DatabaseTypeMySQL apply ts ∅ in
  leaves (sent (unreviewed sampleClassify (fun _ => true) sampleNew (fun _ => None) ts)) (fun _ => quiet) 0 p (w "ALTER TABLE t DROP c") /\
  (run p (w "ALTER TABLE t DROP c")).2 = resumeReturned (Some (driveFailed "drift" false)) /\
  pl_calls (run p (w "ALTER TABLE t DROP c")).1 = [] /\
  length (pl_calls (run p (w "ALTER TABLE t")).1) = 1%nat /\
  a_State <$> applies (pl_db (run p (w "ALTER TABLE t")).1) = [Apply.Completed].
Proof.
  intros apply ts w p. split; [|vm_compute; repeat split; reflexivity].
  refine (resume_applies_reviewed _ _ _ _ _ _ _ _ _ _ _ _ _ _ _ _ _ _ _ _ _ _ _ apply ts ∅ false false (fun _ => quiet) _).
Defined.

(** A task stored without a statement is run with the one of the new plan. *)
Lemma ddlless_task_takes_replan :
  let apply := exampleApply Apply.Running in
  let ts := [set_tk_DDL "" (exampleTask 7 "task_7" "t" "" Task.Running)] in
  let w := resumePlane apply ts (planningEngine [tableChange "ALTER TABLE t DROP c"] Engine.StateCompleted None) in
  omap (fun c => match c with CallApply req => Some ((fun ch => et_DDL <$> ec_Tables ch) <$> ar_Changes req) | _ => None end)
    (pl_calls (run (sampleResume DatabaseTypeMySQL apply ts ∅) w).1) = [[["ALTER TABLE t DROP c"]]].
Proof. vm_compute. reflexivity. Qed.

(** A Vitess apply whose change is in its revert window: without a stored resume state
    nothing is sent, with one the engine is handed that state. *)
Lemma revert_phase_reattaches_witness :
  let apply := set_a_State Apply.RevertWindow (exampleApply Apply.Running) in
  let ts := [exampleTask 7 "task_7" "t" "" Task.RevertWindow] in
  let op := exampleOp 1 "us" Apply.RevertWindow CutoverPolicyRolling OnFailureHalt in
  let op' := set_op_EngineResumeMetadata (Some "deployed") op in
  let e := planningEngine [] Engine.StateRevertWindow None in
  let w o := examplePlane (withTasks ts (exampleStore apply [o] [])) e in
  let p := launchAtomicResume sampleClassify (fun _ => true) sampleNew (fun _ => None) (fun _ => "drift") documentedNames true false 50
    noLease (exampleClient DatabaseTypeVitess) sampleErrText sampleUnmarshal (fun _ => None) "" sampleMeta (fun m _ => Ok m)
    (fun t shard => tk_TaskIdentifier t ++ shard) [50] 9 apply ts resumePlan ∅ false false in
  leaves (sent freshDeploy) (fun _ => quiet) 0 p (w op) /\
  pl_calls (run p (w op)).1 = [] /\ length (pl_calls (run p (w op')).1) = 1%nat.
Proof.
  intros apply ts op op' e w p. split; [|vm_compute; split; reflexivity].
  refine (revert_phase_reattaches _ _ _ _ _ _ _ _ _ _ _ _ _ _ _ _ _ _ _ _ apply ts resumePlan ∅ false false (fun _ => quiet) _ _ _);
    reflexivity.
Defined.

(** The engine takes the VSchema and completes it. *)
Lemma finalizer_success_justified_witness :
  let apply := exampleApply Apply.Running in
  let op := exampleOp 1 "us" Apply.Pending CutoverPolicyRolling OnFailureHalt in
  let e := planningEngine [] Engine.StateCompleted (Some {| rs_MigrationContext := "c"; rs_Metadata := "m" |}) in
  let w := examplePlane (exampleStore apply [op] []) e in
  let p := driveGroupFinalizer true noLease (exampleClient DatabaseTypeVitess) sampleErrText (fun _ _ => Some resumePlan) 2 8 apply op in
  op_State <$> operations (pl_db (run p w).1) = [Apply.Completed] /\ vschemaApplied (fun _ _ => Some resumePlan) apply op (steps (fun _ => quiet) 0 p w).
Proof.
  intros apply op e w p. split; [vm_compute; reflexivity|].
  destruct (runE (fun _ => quiet) 0 p w) as [[w' r] n] eqn:Hrun.
  assert (Hr : (runE (fun _ => quiet) 0 p w).1.2 = resumeReturned None) by (vm_compute; reflexivity).
  rewrite Hrun in Hr. cbn in Hr. subst r.
  exact (finalizer_success_justified true noLease (exampleClient DatabaseTypeVitess) sampleErrText (fun _ _ => Some resumePlan) 2 8
           apply op (fun _ => quiet) w w' n Hrun ltac:(done)).
Defined.

(** ** Resumed applies that end as a success although they were none *)

(** All tasks were reverted and the drive ended before the apply was settled: the next
    drive completes the apply, where the grouped resume would have it reverted. *)
Lemma reverted_apply_completes :
  let apply := exampleApply Apply.Reverting in
  let ts := [exampleTask 7 "task_7" "t" "" Task.Reverted] in
  let w := resumePlane apply ts (planningEngine [tableChange "ALTER TABLE t"] Engine.StateReverted None) in
  let w' := (run (sampleResume DatabaseTypeMySQL apply ts {[ "defer_cutover" := "true" ]}) w).1 in
  a_State <$> applies (pl_db w') = [Apply.Completed] /\ tk_State <$> tasks (pl_db w') = [Task.Reverted] /\ pl_calls w' = [] /\
  DeriveApplyState (tk_State <$> ts) = Apply.Reverted.
Proof. vm_compute. repeat split; reflexivity. Qed.

(** A task failed and the drive ended before the apply was settled: the next drive
    skips the task and completes the apply, although its table still differs. *)
Lemma failed_task_resume_completes :
  let apply := exampleApply Apply.Running in
  let ts := [exampleTask 7 "task_7" "t" "" Task.Failed] in
  let w := resumePlane apply ts (planningEngine [tableChange "ALTER TABLE t"] Engine.StateFailed None) in
  let w' := (run (sampleResume DatabaseTypeMySQL apply ts ∅) w).1 in
  a_State <$> applies (pl_db w') = [Apply.Completed] /\ tk_State <$> tasks (pl_db w') = [Task.Failed] /\ pl_calls w' = [].
Proof. vm_compute. repeat split; reflexivity. Qed.
